(* ===== verification/_CoqProject ===== *)
-Q . S2P
Prelude.v
GoStrings.v
GoNet.v
GoNetFacts.v
GoText.v
Domain.v
Config.v
ConfigRoundtrip.v
Validator.v
ValidatorFacts.v
Conflict.v
OvpnParse.v
OvpnParseFacts.v
OvpnAllowlist.v
OvpnMgmt.v
OvpnProfile.v
OvpnProfileFacts.v
OvpnRuntime.v
OvpnDns.v
TunnelManager.v
TunnelManagerFacts.v
Recovery.v
Firewall.v
FirewallFacts.v
Pf.v
HelperFirewall.v
HelperOps.v
HelperFacts.v
HelperOpsFacts.v
HelperRequests.v
Reconnect.v
HelperHolds.v
OvpnManager.v
OvpnManagerSys.v
OvpnManagerFacts.v
OvpnHelper.v
NetDns.v
NetDnsFacts.v
NetRoutes.v
NetRoutesFacts.v
NetMonitor.v
Engine.v
EngineFacts.v
IpcFraming.v
IpcServer.v
IpcServerFacts.v
IpcHelper.v
IpcClient.v
Update.v
AppUpdate.v
Elevate.v
ElevateFacts.v
Store.v
StoreFacts.v
FileOps.v
FileOpsFacts.v
Wifi.v
AtomicWrite.v
Settings.v
HelperLife.v
HelperLifeFacts.v
History.v
TunnelOps.v
Exports.v
Sign.v
WifiSense.v
SsidTag.v
OvpnPid.v
HelperMain.v
Bridge.v
KillSwitch.v
Tray.v
Quit.v
Diag.v
Keychain.v
IpcTransport.v
SleepWake.v
AppInfo.v
HelperRun.v
OvpnFiles.v
