(* ===== verification/Prelude.v ===== *)
(** * LockPlus (wireguide): a verification development of the Go code under src/

    The program is a VPN client for macOS in two processes.  The app (internal/app, internal/gui, internal/wifi,
    internal/storage, internal/history, internal/update) runs as the user: it keeps the tunnels' files and the
    settings, installs the helper, and sends it requests over a unix socket (internal/ipc).  The helper
    (internal/helper) runs as root: it validates every request again (internal/config, internal/ovpn), brings
    tunnels up and down (internal/tunnel for WireGuard, internal/ovpn for OpenVPN), configures addresses, routes
    and DNS (internal/network), loads the pf rules of the kill switch (internal/firewall), and reconnects
    tunnels that died (internal/reconnect).

    ** Which file models what

    Each component is a file with its data, its state as a record and one function per Go function, and a file
    [...Facts] with its theorems.  Definitions keep the source's names.

    - This file: results of fallible code, lists, tactics, the hints; GoStrings, GoText, GoNet(Facts): what the
      program uses of Go's standard library, written from its documented behaviour.
    - Domain: internal/domain.  Config, ConfigRoundtrip: internal/config/parser.go.  Validator(Facts):
      internal/config/validator.go.  Conflict: internal/tunnel/conflict.go.
    - OvpnParse(Facts), OvpnAllowlist, OvpnProfile(Facts), OvpnRuntime, OvpnDns: the reader of .ovpn files, what is
      allowed in them, and the text the root process is given (internal/ovpn/parse.go, allowlist.go, config.go).
    - OvpnMgmt, OvpnManager, OvpnManagerSys, OvpnManagerFacts: internal/ovpn/management.go and manager.go; the
      critical sections are functions, and Sys interleaves the goroutines.  OvpnFiles: its files; OvpnPid:
      pidfile_darwin.go; Keychain: keychain_darwin.go and .m, with the service's use of them.
    - TunnelManager(Facts), Recovery: internal/tunnel/manager.go, connect_phases.go, status.go, recovery.go and
      internal/storage/name.go.  Engine(Facts): internal/tunnel/engine.go.
    - Firewall(Facts), Pf: internal/firewall/rules.go and darwin.go.
    - NetRoutes(Facts), NetDns(Facts), NetMonitor: internal/network.
    - HelperFirewall, HelperFacts, HelperOps(Facts), HelperRequests: internal/helper/firewall.go, helper.go,
      handlers.go, events.go.  HelperMain: the recovery at the start, and log_handler.go; HelperRun: Run from the
      socket to the exit.  Reconnect, SleepWake: internal/reconnect.
    - IpcFraming, IpcTransport, IpcServer(Facts), IpcClient: internal/ipc.
    - Store(Facts), FileOps(Facts), TunnelOps, Exports, AtomicWrite, Settings, History, AppUpdate, Update, Diag, AppInfo:
      internal/storage, internal/app, internal/history, internal/update, internal/diag.  Sign: cmd/sign.
    - Elevate(Facts): internal/elevate.  HelperLife(Facts): internal/gui/helper_lifecycle.go and the start of gui.go;
      Bridge, Tray, Quit: event_bridge.go, tray.go and the end of gui.go.  Wifi, WifiSense, SsidTag: internal/wifi,
      internal/gui/wifi_lifecycle.go and internal/app/wifi_ops.go.

    The components meet in HelperHolds (the firewall's holds implement the interface [FirewallHolds] the reconnect
    monitor is proved against), OvpnHelper (the OpenVPN manager is a lawful [ovpnBackend] of the helper, and what the
    kill switch sees of it is its table), IpcHelper
    (the server's callbacks on the helper), HelperOps (requests go through the models of Validator, OvpnProfile and
    Recovery; the two managers are seen through [View]), TunnelOps (an imported file becomes a request that the
    helper's own checks accept), KillSwitch (a toggle in the settings goes through the helper to pf) and HelperRun
    (the socket guards the recovery).  The OS keychain is the interface [Security], with an instance.

    ** How the code is modelled

    Code that runs under a lock is one function on the state the lock guards.  Code that works outside a lock is
    either a program that logs the calls it makes and is answered by an arbitrary environment which sees that log
    ([M] in HelperOps, [Effect] in TunnelManager, NetDns and NetRoutes), or, where goroutines race, a step
    relation whose steps are the critical sections (TunnelManager, OvpnManagerSys, NetMonitor, Reconnect, IpcServer,
    IpcClient, AtomicWrite); theorems about it are for every reachable state.  Errors are constructors; their texts are left
    out.  Go's int and int64 are kept as Z: a range test is written where a conversion can overflow, and arithmetic
    that can wrap (the ids of IpcClient, the seconds of the log throttle) wraps.  Maps are finite maps; where Go
    leaves their order open the code sorts, or the theorem does not depend on the order.  Commands, files, sockets,
    the resolver, wireguard-go, openvpn, pfctl, codesign, hashes and signatures are arguments; a theorem that needs
    something of them has it as a hypothesis with a witness.

    ** What the theorems show

    - The kill switch: exactly what the loaded rules let through ([kill_switch_exact], [dns_closed], [BuildRules_no_injection]),
      when they are loaded and what they pass ([ruleset_kill_switch], [ruleset_passes]), that they stay while a tunnel
      reconnects or dies ([reconnect_keeps_kill_switch], [ovpn_death_no_gap]), that pf ends as it was found
      ([pf_restored]), what a toggle does ([toggle_closes]), and that the persisted policy is in force
      ([policy_persisted], [policy_before_use]).
    - Untrusted input: profiles ([inspectProfile_safe]), peers of the socket ([only_owner_served]), the bundle the
      helper is installed from ([install_verified], [root_script_fixed]), pids ([stale_kills_ours]), archives
      ([imports_keep_tunnels]), updates ([RunUpdate_confirmed], [release_chain]), SSIDs ([ssid_readings], [key_file]).
    - State machines under every interleaving: [manager_consistent], [one_full_tunnel], [entries_owned],
      [callbacks_follow_lifecycle], [overtaken_connect], [answers_matched], [events_once], [menu_follows],
      [one_route_monitor], [eventLoop_current], [cleanup_before_exit].
    - Undoing and crashes: [written_whole], [journal_whole], [nothing_left], [connectPhases_spec], [crash_record],
      [dns_crash_restores], [restart_heals], [quit_releases], [second_helper_harmless], [credentials_follow].
    - Refinements: [backend_lawful] (the interface) and [ovpn_live_exact] (what it shows), [dns_shows_union],
      [store_refines], [history_refines].  Routes: [bypass_tracks_endpoints].
    - Round trips: [Parse_Serialize], [uapi_roundtrip], [export_restores], [credentials_roundtrip]; from a file to the
      helper: [import_connects].
    - Termination and progress: every loop that is not structural carries fuel that a lemma shows to be enough: the
      .ovpn reader takes one unit per character ([parseConfig_total]); a retry sequence goes on until a round ends it,
      which a limit makes sure of, and [None] for an exit says that it goes on ([sequence_exact]); the
      wait for an OpenVPN tunnel takes at most 361 polls ([waitOVPNConnected_ends]) and the wait of a Wi-Fi change at
      most 182 ([wifi_releases_after_connect]); recoveries of the helper are bounded ([recovery_bounded]); a wake
      leads to a check ([wake_checked]); the dial of the management socket ends ([dialManagement_ends]).
    - Diagnostics: [leak_reported], [latency_of_first_reply].

    Theorems and witnesses about what is wrong with the code: [runtimeConfig_bypass],
    [extra_key_name_smuggles_a_script], [disconnect_overtaken], [second_stop_early], [migration_keeps_a_torn_file],
    [toggles_lose_a_policy], [row_left_open], [pid_file_gone_first], [recovery_runs_nothing], [rebuild_request_lost],
    [two_streams], [two_keys], [renamed_by_restore], [saved_rule_waits], [healthy_tunnel_reconnected],
    [rename_to_itself_forgets], [stale_item_wins], [pinned_to_the_old_interface], [late_request], [panic_skips_cleanup], [migration_loses_autostart],
    [long_name_unusable], [failed_start_leaves_config], [zoned_resolver_unseen],
    [dns_left_unwatched].

    ** Not modelled

    The calls themselves: sockets, HTTP, process start, pfctl, ifconfig, route, networksetup, codesign, osascript, the
    Security framework, IOKit and CoreWLAN.  The Wails shell: windows, dialogs, drawing, and the decoders of archives
    and QR codes.  JSON: files and messages are kept decoded.  Log records.  A write of the store is one step
    ([written_whole] is why), and a journal write of internal/network succeeds (its failure is only logged).  That the
    services' DNS could be read when it was first recorded is a hypothesis ([lost_baseline] is what follows otherwise).
    strings.EqualFold folds ASCII letters, and text handed to XML escaping is valid UTF-8. *)

From Stdlib Require Export Ascii.
From stdpp Require Export base tactics list gmap strings pretty sorting.
From Stdlib Require Export ZArith Lia Bool ZifyBool.

(** ** Results of fallible code *)

(** A Go function returning a value and an error: [Ok v] when the error is nil. *)
Inductive result (E A : Type) : Type :=
| Ok (a : A)
| Err (e : E).
Arguments Ok {E A} a.
Arguments Err {E A} e.

Definition result_bind {E A B} (m : result E A) (k : A -> result E B) : result E B :=
  match m with
  | Ok a => k a
  | Err e => Err e
  end.

Definition is_ok {E A} (m : result E A) : bool :=
  match m with Ok _ => true | Err _ => false end.

(** [if err != nil { return wrap(err) }] *)
Definition map_err {E F A} (f : E -> F) (m : result E A) : result F A :=
  match m with Ok a => Ok a | Err e => Err (f e) end.

Declare Scope go_scope.
Delimit Scope go_scope with go.

Notation "'let?' x ':=' m 'in' k" := (result_bind m (fun x => k))
  (at level 10, x pattern, m at level 100, k at level 200) : go_scope.

Open Scope go_scope.

Lemma result_bind_ok {E A B} (m : result E A) (k : A -> result E B) b :
  result_bind m k = Ok b <-> exists a, m = Ok a /\ k a = Ok b.
Proof.
  destruct m; cbn; split; [eauto | by intros (? & [= ->] & ?) | done | by intros (? & ? & ?)].
Qed.

Lemma map_err_ok {E F A} (f : E -> F) (m : result E A) a :
  map_err f m = Ok a <-> m = Ok a.
Proof. destruct m; cbn; split; congruence. Qed.

(** ** Functional update of a record field

    [Eta R] gives the constructor of [R] applied to its own projections; [r <| f := v |>] is
    Go's assignment [r.f = v] and [r <| f ::= g |>] is [r.f = g(r.f)]. *)

Class Eta (R : Type) := eta : R -> R.
Class Update {R A : Type} (f : R -> A) := update : (A -> A) -> R -> R.
Arguments update {R A} f {_} g r /.
Arguments eta {R _} r /.

Ltac solve_update :=
  lazymatch goal with
  | |- @Update ?R ?A ?f =>
      let inst := constr:(_ : Eta R) in
      let r := fresh "r" in
      let g := fresh "g" in
      intros g r;
      let e := eval red in (inst r) in
      let e := eval pattern (f r) in e in
      lazymatch e with
      | ?F _ => let b := eval cbv beta in (F (g (f r))) in exact b
      end
  end.

#[export] Hint Extern 0 (Update _) => solve_update : typeclass_instances.

Notation "r <| f := v |>" := (update f (fun _ => v) r)
  (at level 1, f constr at next level, left associativity) : go_scope.
Notation "r <| f ::= g |>" := (update f g r)
  (at level 1, f constr at next level, left associativity) : go_scope.

(** Go's [==] on strings. *)
Notation "a =s b" := (bool_decide (a = b)) (at level 70, no associativity) : go_scope.

#[global] Arguments Nat.ltb : simpl never.
#[global] Arguments Nat.leb : simpl never.
#[global] Arguments Nat.eqb : simpl never.

(** ** Automation *)

Create HintDb go discriminated.

(** Case analysis on the innermost [if] or [match] of a hypothesis. *)
Ltac step_in H :=
  match type of H with
  | context [match ?x with _ => _ end] =>
      lazymatch x with
      | context [match _ with _ => _ end] => fail
      | _ => let E := fresh "E" in destruct x eqn:E
      end
  end.

Ltac step_goal :=
  match goal with
  | |- context [match ?x with _ => _ end] =>
      lazymatch x with
      | context [match _ with _ => _ end] => fail
      | _ => let E := fresh "E" in destruct x eqn:E
      end
  end.

(** Split boolean conjunctions and equality tests of hypotheses. *)
Ltac bool_hyps :=
  repeat match goal with
  | H : _ && _ = true |- _ => apply andb_prop in H; destruct H
  | H : _ || _ = false |- _ => apply orb_false_elim in H; destruct H
  | H : negb _ = true |- _ => apply negb_true_iff in H
  | H : negb _ = false |- _ => apply negb_false_iff in H
  | H : bool_decide _ = true |- _ => apply bool_decide_eq_true in H
  | H : bool_decide _ = false |- _ => apply bool_decide_eq_false in H
  | H : (_ =? _)%Z = true |- _ => apply Z.eqb_eq in H
  | H : (_ =? _)%Z = false |- _ => apply Z.eqb_neq in H
  | H : (_ <=? _)%Z = true |- _ => apply Z.leb_le in H
  | H : (_ <=? _)%Z = false |- _ => apply Z.leb_gt in H
  | H : (_ <? _)%Z = true |- _ => apply Z.ltb_lt in H
  | H : (_ <? _)%Z = false |- _ => apply Z.ltb_ge in H
  end.

(** ** Generic lemmas *)

Lemma existsb_false_iff {A} (f : A -> bool) l :
  existsb f l = false <-> forall x, x ∈ l -> f x = false.
Proof.
  induction l as [|a l IH]; cbn.
  - split; [intros _ x Hx; by apply elem_of_nil in Hx | done].
  - rewrite orb_false_iff, IH. split.
    + intros [Ha Hl] x Hx. apply elem_of_cons in Hx as [->|Hx]; auto.
    + intros H. split; [apply H; left | intros x Hx; apply H; by right].
Qed.

Lemma existsb_true_iff {A} (f : A -> bool) l :
  existsb f l = true <-> exists x, x ∈ l /\ f x = true.
Proof.
  rewrite existsb_exists. by setoid_rewrite list_elem_of_In.
Qed.

Lemma forallb_true_iff {A} (f : A -> bool) l :
  forallb f l = true <-> forall x, x ∈ l -> f x = true.
Proof.
  rewrite forallb_forall. by setoid_rewrite list_elem_of_In.
Qed.

Lemma exists_elem_of_cons {A} (P : A -> Prop) x l :
  (exists e, e ∈ x :: l /\ P e) <-> P x \/ exists e, e ∈ l /\ P e.
Proof.
  split.
  - intros (e & [->|He]%elem_of_cons & H); [by left|right; by exists e].
  - intros [H|(e & He & H)]; [exists x|exists e]; (split; [|done]); [left|by right].
Qed.

Lemma elem_of_filter_bool {A} (f : A -> bool) l x : x ∈ List.filter f l <-> x ∈ l /\ f x = true.
Proof. by rewrite !list_elem_of_In, filter_In. Qed.

Lemma elem_of_concat_fmap {A B} (f : A -> list B) l c :
  c ∈ concat (f <$> l) <-> exists a, a ∈ l /\ c ∈ f a.
Proof.
  induction l as [|a l IH]; cbn.
  - split; [intros H%elem_of_nil; done|intros (? & H%elem_of_nil & _); done].
  - rewrite elem_of_app, IH, exists_elem_of_cons. done.
Qed.
