(* ===== verification/GoStrings.v ===== *)
(** * The parts of Go's strings, strconv, sort and encoding/base64 the program uses

    A Go string is a sequence of bytes: [string] with one [ascii] per byte.  An [int] is a
    64-bit integer, kept as a [Z] with its range test where a conversion can overflow. *)

From S2P Require Import Prelude.



(** ** Searching and splitting at a byte *)

Fixpoint contains_byte (c : ascii) (s : string) : bool :=
  match s with
  | EmptyString => false
  | String a s' => bool_decide (a = c) || contains_byte c s'
  end.

(** strings.Cut at one byte: the text before and after its first occurrence. *)
Fixpoint cut_byte (c : ascii) (s : string) : option (string * string) :=
  match s with
  | EmptyString => None
  | String a s' =>
      if bool_decide (a = c) then Some ("", s')
      else match cut_byte c s' with
           | Some (u, v) => Some (String a u, v)
           | None => None
           end
  end.

(** The same at the last occurrence (strings.LastIndexByte). *)
Fixpoint cut_last_byte (c : ascii) (s : string) : option (string * string) :=
  match s with
  | EmptyString => None
  | String a s' =>
      match cut_last_byte c s' with
      | Some (u, v) => Some (String a u, v)
      | None => if bool_decide (a = c) then Some ("", s') else None
      end
  end.

(** strings.Split with a one-byte separator; never the empty list. *)
Fixpoint split_byte (c : ascii) (s : string) : list string :=
  match s with
  | EmptyString => [""]
  | String a s' =>
      if bool_decide (a = c) then "" :: split_byte c s'
      else match split_byte c s' with
           | h :: t => String a h :: t
           | [] => [String a ""]
           end
  end.

(** strings.Join *)
Definition join (sep : string) (l : list string) : string := String.concat sep l.

(** strings.HasPrefix, strings.HasSuffix, strings.TrimPrefix *)
Definition has_prefix (p s : string) : bool := String.prefix p s.

Fixpoint string_drop (n : nat) (s : string) : string :=
  match n, s with
  | O, _ => s
  | S n', String _ s' => string_drop n' s'
  | S _, EmptyString => ""
  end.

Fixpoint string_take (n : nat) (s : string) : string :=
  match n, s with
  | O, _ => ""
  | S n', String c s' => String c (string_take n' s')
  | S _, EmptyString => ""
  end.

Definition trim_prefix (p s : string) : string :=
  if has_prefix p s then string_drop (String.length p) s else s.

(** ** strings.TrimSpace

    Unicode white space in UTF-8: the six ASCII ones, U+0085 and U+00A0 in two bytes, and
    U+1680, U+2000..U+200A, U+2028, U+2029, U+202F, U+205F, U+3000 in three. *)

Definition byte_is (c : ascii) (n : nat) : bool := (nat_of_ascii c =? n)%nat.

Definition space1 (c : ascii) : bool :=
  let n := nat_of_ascii c in ((9 <=? n) && (n <=? 13) || (n =? 32))%nat.

Definition space2 (c1 c2 : ascii) : bool :=
  byte_is c1 194 && (byte_is c2 133 || byte_is c2 160).

Definition space3 (c1 c2 c3 : ascii) : bool :=
  let n3 := nat_of_ascii c3 in
  byte_is c1 225 && byte_is c2 154 && byte_is c3 128
  || byte_is c1 226 && byte_is c2 128
       && ((128 <=? n3) && (n3 <=? 138) || (n3 =? 168) || (n3 =? 169) || (n3 =? 175))%nat
  || byte_is c1 226 && byte_is c2 129 && byte_is c3 159
  || byte_is c1 227 && byte_is c2 128 && byte_is c3 128.

(** Removes white space at the front; [back] reads each encoding backwards, for a reversed
    text. *)
Fixpoint trim_front (back : bool) (s : list ascii) : list ascii :=
  match s with
  | [] => []
  | c1 :: s1 =>
      if space1 c1 then trim_front back s1
      else match s1 with
           | [] => s
           | c2 :: s2 =>
               if (if back then space2 c2 c1 else space2 c1 c2) then trim_front back s2
               else match s2 with
                    | [] => s
                    | c3 :: s3 =>
                        if (if back then space3 c3 c2 c1 else space3 c1 c2 c3)
                        then trim_front back s3
                        else s
                    end
           end
  end.

(** Whether [trim_front] removes something. *)
Definition starts_space (back : bool) (s : list ascii) : bool :=
  match s with
  | [] => false
  | [c1] => space1 c1
  | [c1; c2] => space1 c1 || (if back then space2 c2 c1 else space2 c1 c2)
  | c1 :: c2 :: c3 :: _ =>
      space1 c1 || (if back then space2 c2 c1 else space2 c1 c2)
      || (if back then space3 c3 c2 c1 else space3 c1 c2 c3)
  end.

Definition trim_left (s : string) : string :=
  String.string_of_list_ascii (trim_front false (String.list_ascii_of_string s)).

Definition trim_right (s : string) : string :=
  String.string_of_list_ascii (reverse (trim_front true (reverse (String.list_ascii_of_string s)))).

Definition trim_space (s : string) : string := trim_right (trim_left s).

(** No white space at either end. *)
Definition tight (s : string) : bool :=
  negb (starts_space false (String.list_ascii_of_string s))
  && negb (starts_space true (reverse (String.list_ascii_of_string s))).

(** ** strings.ToLower and strings.EqualFold

    Only compared with ASCII texts by the program.  The two non-ASCII letters whose lower case
    is ASCII are U+0130 (to i) and U+212A (to k); every other non-ASCII rune has a non-ASCII
    lower case and is kept as it is, which no ASCII text equals either way. *)

Definition lower_byte (c : ascii) : ascii :=
  let n := nat_of_ascii c in
  if ((65 <=? n) && (n <=? 90))%nat then ascii_of_nat (n + 32) else c.

Fixpoint to_lower (s : string) : string :=
  match s with
  | EmptyString => ""
  | String c1 s1 =>
      match s1 with
      | String c2 s2 =>
          if byte_is c1 196 && byte_is c2 176 then String "i" (to_lower s2)
          else match s2 with
               | String c3 s3 =>
                   if byte_is c1 226 && byte_is c2 132 && byte_is c3 170
                   then String "k" (to_lower s3)
                   else String (lower_byte c1) (to_lower s1)
               | EmptyString => String (lower_byte c1) (to_lower s1)
               end
      | EmptyString => String (lower_byte c1) ""
      end
  end.

Definition upper_byte (c : ascii) : ascii :=
  let n := nat_of_ascii c in
  if ((97 <=? n) && (n <=? 122))%nat then ascii_of_nat (n - 32) else c.

(** strings.ToUpper of an ASCII text *)
Fixpoint to_upper (s : string) : string :=
  match s with
  | EmptyString => ""
  | String c s' => String (upper_byte c) (to_upper s')
  end.

(** strings.EqualFold with a lower-case ASCII text that has neither k nor s (the two letters
    with a non-ASCII fold) *)
Fixpoint equal_fold (s t : string) : bool :=
  match s, t with
  | EmptyString, EmptyString => true
  | String a s', String b t' => bool_decide (lower_byte a = b) && equal_fold s' t'
  | _, _ => false
  end.

(** ** strconv *)

Definition digit_val (c : ascii) : option Z :=
  let n := Z.of_N (N_of_ascii c) in
  if (48 <=? n)%Z && (n <=? 57)%Z then Some (n - 48)%Z
  else if (97 <=? n)%Z && (n <=? 122)%Z then Some (n - 87)%Z
  else if (65 <=? n)%Z && (n <=? 90)%Z then Some (n - 55)%Z
  else None.

Fixpoint parse_digits (base acc : Z) (s : string) : option Z :=
  match s with
  | EmptyString => Some acc
  | String c s' =>
      match digit_val c with
      | Some d => if (d <? base)%Z then parse_digits base (acc * base + d)%Z s' else None
      | None => None
      end
  end.

Definition in_int64 (z : Z) : bool := (- 2 ^ 63 <=? z)%Z && (z <? 2 ^ 63)%Z.

(** strconv.ParseInt(s, base, 64): a sign, at least one digit, the 64-bit range. *)
Definition parse_int (base : Z) (s : string) : option Z :=
  let '(neg, body) :=
    match s with
    | String "+" r => (false, r)
    | String "-" r => (true, r)
    | _ => (false, s)
    end in
  match body with
  | EmptyString => None
  | _ =>
      match parse_digits base 0 body with
      | Some v => let n := if (neg : bool) then (- v)%Z else v in
                  if in_int64 n then Some n else None
      | None => None
      end
  end.

Definition atoi (s : string) : option Z := parse_int 10 s.

Definition itoa (z : Z) : string := pretty z.

(** ** base64.StdEncoding.DecodeString: CR and LF are skipped, padding is required *)

Definition b64_val (c : ascii) : option Z :=
  let n := Z.of_N (N_of_ascii c) in
  if (65 <=? n)%Z && (n <=? 90)%Z then Some (n - 65)%Z
  else if (97 <=? n)%Z && (n <=? 122)%Z then Some (n - 71)%Z
  else if (48 <=? n)%Z && (n <=? 57)%Z then Some (n + 4)%Z
  else if (n =? 43)%Z then Some 62%Z
  else if (n =? 47)%Z then Some 63%Z
  else None.

Fixpoint drop_newlines (s : string) : string :=
  match s with
  | EmptyString => ""
  | String c s' =>
      if byte_is c 10 || byte_is c 13 then drop_newlines s' else String c (drop_newlines s')
  end.

Fixpoint b64_quanta (s : string) : option (list Z) :=
  match s with
  | EmptyString => Some []
  | String a (String b (String c (String d rest))) =>
      match b64_val a, b64_val b with
      | Some x, Some y =>
          let o1 := (Z.lor (Z.shiftl x 2) (Z.shiftr y 4)) in
          if bool_decide (c = "="%char) then
            if bool_decide (d = "="%char) && bool_decide (rest = "") then Some [o1] else None
          else
            match b64_val c with
            | None => None
            | Some z =>
                let o2 := Z.land 255 (Z.lor (Z.shiftl y 4) (Z.shiftr z 2)) in
                if bool_decide (d = "="%char) then
                  if bool_decide (rest = "") then Some [o1; o2] else None
                else
                  match b64_val d, b64_quanta rest with
                  | Some w, Some more =>
                      Some (o1 :: o2 :: Z.land 255 (Z.lor (Z.shiftl z 6) w) :: more)
                  | _, _ => None
                  end
            end
      | _, _ => None
      end
  | _ => None
  end.

Definition b64_decode (s : string) : option (list Z) := b64_quanta (drop_newlines s).

(** ** sort.Strings: sorting by bytes *)

Definition sort_strings (l : list string) : list string := merge_sort String.le l.

(** The keys of a map in sorted order, the order every loop of the program that sorts them
    uses. *)
Definition sorted_keys {A} (m : gmap string A) : list string :=
  sort_strings (map_to_list m).*1.

(** ** Line splitting *)

(** The maximal run of bytes before a newline and what follows it. *)
Definition newline : ascii := "010"%char.
Definition carriage_return : ascii := "013"%char.
Definition nul : ascii := "000"%char.
Definition dquote : ascii := "034"%char.

Fixpoint string_forall (p : ascii -> bool) (s : string) : bool :=
  match s with
  | EmptyString => true
  | String c s' => p c && string_forall p s'
  end.

Abbreviation bytes_of := String.list_ascii_of_string.
Abbreviation string_of := String.string_of_list_ascii.

(** strings.Fields: the maximal runs without white space; [cur] is the run read so far,
    backwards. *)
Definition flush_field (cur : list ascii) : list string :=
  match cur with [] => [] | _ => [string_of (rev cur)] end.

Fixpoint fields_go (cur s : list ascii) : list string :=
  match s with
  | [] => flush_field cur
  | a :: s1 =>
      if space1 a then flush_field cur ++ fields_go [] s1
      else match s1 with
           | b :: s2 =>
               if space2 a b then flush_field cur ++ fields_go [] s2
               else match s2 with
                    | c :: s3 =>
                        if space3 a b c then flush_field cur ++ fields_go [] s3
                        else fields_go (a :: cur) s1
                    | [] => fields_go (a :: cur) s1
                    end
           | [] => fields_go (a :: cur) s1
           end
  end.

Definition fields (s : string) : list string := fields_go [] (bytes_of s).

(** ** Facts *)

Lemma string_of_bytes s : string_of (bytes_of s) = s.
Proof. apply String.string_of_list_ascii_of_string. Qed.

Lemma bytes_of_string l : bytes_of (string_of l) = l.
Proof. apply String.list_ascii_of_string_of_list_ascii. Qed.

Lemma bytes_of_inj s t : bytes_of s = bytes_of t -> s = t.
Proof. intros H. by rewrite <- (string_of_bytes s), <- (string_of_bytes t), H. Qed.

Lemma string_app_cons c s t : String c s +:+ t = String c (s +:+ t).
Proof. reflexivity. Qed.

Lemma string_app_nil s : "" +:+ s = s.
Proof. reflexivity. Qed.

(** [cbn] with concatenation of texts. *)
Ltac str_simpl := rewrite ?string_app_cons, ?string_app_nil; cbn; rewrite ?string_app_cons, ?string_app_nil.
Ltac str_simpl_in H := rewrite ?string_app_cons, ?string_app_nil in H; cbn in H.

Lemma bytes_of_app s t : bytes_of (s +:+ t) = bytes_of s ++ bytes_of t.
Proof. induction s as [|c s IH]; str_simpl; [done|]. by rewrite IH. Qed.

Lemma string_app_assoc (s t u : string) : (s +:+ t) +:+ u = s +:+ (t +:+ u).
Proof. induction s as [|c s IH]; str_simpl; [done|]. by rewrite IH. Qed.

Lemma string_app_nil_r (s : string) : s +:+ "" = s.
Proof. induction s as [|c s IH]; str_simpl; [done|]. by rewrite IH. Qed.

Lemma string_app_ne (s t : string) : s <> "" -> s +:+ t <> "".
Proof. destruct s as [|c s]; [done|]. by rewrite string_app_cons. Qed.

Lemma string_length_app s t : String.length (s +:+ t) = String.length s + String.length t.
Proof. induction s as [|c s IH]; str_simpl; [done|]. by rewrite IH. Qed.

(** *** Bytes *)

Lemma contains_byte_app c s t :
  contains_byte c (s +:+ t) = contains_byte c s || contains_byte c t.
Proof. induction s as [|a s IH]; str_simpl; [done|]. by rewrite IH, orb_assoc. Qed.

Lemma cut_byte_app c u v :
  contains_byte c u = false -> cut_byte c (u +:+ String c v) = Some (u, v).
Proof.
  induction u as [|a u IH]; str_simpl; intros H.
  - by rewrite bool_decide_true.
  - apply orb_false_elim in H as [-> H]. by rewrite IH.
Qed.

Lemma cut_byte_None c s : contains_byte c s = false -> cut_byte c s = None.
Proof.
  induction s as [|a s IH]; cbn; intros H; [done|].
  apply orb_false_elim in H as [-> H]. by rewrite IH.
Qed.

Lemma cut_byte_None_inv c s : cut_byte c s = None -> contains_byte c s = false.
Proof.
  induction s as [|a s IH]; cbn; intros H; [done|].
  destruct (bool_decide (a = c)); [done|].
  destruct (cut_byte c s) as [[u v]|]; [done|]. by apply IH.
Qed.

Lemma cut_byte_Some c s u v :
  cut_byte c s = Some (u, v) -> s = u +:+ String c v /\ contains_byte c u = false.
Proof.
  revert u v. induction s as [|a s IH]; cbn; intros u v H; [done|].
  destruct (bool_decide (a = c)) eqn:E.
  - apply bool_decide_eq_true in E. by simplify_eq.
  - destruct (cut_byte c s) as [[u' v']|] eqn:E'; [|done]. simplify_eq.
    destruct (IH _ _ eq_refl) as [-> Hu]. str_simpl. by rewrite E, Hu.
Qed.

(** *** split_byte and join *)

Lemma split_byte_ne c s : split_byte c s <> [].
Proof. destruct s as [|a s]; str_simpl; [done|]. case_bool_decide; [done|]. by destruct split_byte. Qed.

Lemma split_byte_no c s : contains_byte c s = false -> split_byte c s = [s].
Proof.
  induction s as [|a s IH]; cbn; intros H; [done|].
  apply orb_false_elim in H as [-> H]. by rewrite IH.
Qed.

Lemma split_byte_app c u v :
  contains_byte c u = false -> split_byte c (u +:+ String c v) = u :: split_byte c v.
Proof.
  induction u as [|a u IH]; str_simpl; intros H.
  - by rewrite bool_decide_true.
  - apply orb_false_elim in H as [-> H]. by rewrite IH.
Qed.

Lemma join_cons sep x y l : join sep (x :: y :: l) = x +:+ sep +:+ join sep (y :: l).
Proof. done. Qed.

Lemma join_split c s : join (String c "") (split_byte c s) = s.
Proof.
  induction s as [|a s IH]; cbn [split_byte]; [done|].
  pose proof (split_byte_ne c s). destruct (split_byte c s) as [|h t]; [done|].
  case_bool_decide as E.
  - subst a. rewrite join_cons, IH. done.
  - rewrite <- IH. by destruct t.
Qed.

Lemma split_byte_parts c s p : p ∈ split_byte c s -> contains_byte c p = false.
Proof.
  revert p. induction s as [|a s IH]; cbn; intros p Hp.
  - by apply list_elem_of_singleton in Hp as ->.
  - case_bool_decide as E.
    + apply elem_of_cons in Hp as [->|Hp]; auto.
    + destruct (split_byte c s) as [|h t] eqn:Es; [by destruct (split_byte_ne c s)|].
      apply elem_of_cons in Hp as [->|Hp]; [|apply IH; by right].
      cbn. rewrite bool_decide_false by done. apply IH. by left.
Qed.

(** A byte other than the separator is in the text when it is in a part. *)
Lemma split_byte_contains c d s p :
  p ∈ split_byte c s -> contains_byte d s = false -> contains_byte d p = false.
Proof.
  revert p. induction s as [|a s IH]; cbn; intros p Hp Hd.
  - by apply list_elem_of_singleton in Hp as ->.
  - apply orb_false_elim in Hd as [Ha Hd].
    destruct (bool_decide (a = c)) eqn:E.
    + apply elem_of_cons in Hp as [->|Hp]; auto.
    + destruct (split_byte c s) as [|h t] eqn:Es; [by destruct (split_byte_ne c s)|].
      apply elem_of_cons in Hp as [->|Hp]; [|apply IH; [by right|done]].
      cbn. rewrite Ha. apply IH; [by left|done].
Qed.

Lemma join_contains d sep l :
  contains_byte d sep = false -> (forall p, p ∈ l -> contains_byte d p = false) ->
  contains_byte d (join sep l) = false.
Proof.
  intros Hs. induction l as [|x [|y l] IH]; intros Hl; [done| |].
  - cbn. apply Hl. by left.
  - rewrite join_cons, !contains_byte_app, Hs, IH, Hl; [done|by left|].
    intros p Hp. apply Hl. by right.
Qed.

(** *** White space *)

Definition ascii7 (c : ascii) : bool := (nat_of_ascii c <? 128)%nat.

Lemma trim_front_fix back l : starts_space back l = false -> trim_front back l = l.
Proof.
  destruct l as [|c1 [|c2 [|c3 l]]]; cbn; intros H; [done|by rewrite H| |].
  - apply orb_false_elim in H as [-> H]. by destruct back; rewrite H.
  - apply orb_false_elim in H as [H H3]. apply orb_false_elim in H as [-> H2].
    by destruct back; rewrite H2, H3.
Qed.

(** [trim_front] drops a prefix made of white space, and what is left starts with none. *)
Lemma trim_front_spec back l :
  exists w, l = w ++ trim_front back l /\ starts_space back (trim_front back l) = false.
Proof.
  induction l as [l IH] using (induction_ltof1 _ (@length ascii)); unfold ltof in IH.
  destruct l as [|c1 s1]; [by exists []|]. cbn [trim_front].
  destruct (space1 c1) eqn:E1.
  { destruct (IH s1) as (w & E & Hs); [cbn; lia|]. exists (c1 :: w). by rewrite E at 1. }
  destruct s1 as [|c2 s2]; [exists []; cbn; by rewrite E1|].
  destruct (if back then space2 c2 c1 else space2 c1 c2) eqn:E2.
  { destruct (IH s2) as (w & E & Hs); [cbn; lia|]. exists (c1 :: c2 :: w). by rewrite E at 1. }
  destruct s2 as [|c3 s3]; [exists []; cbn; by rewrite E1, E2|].
  destruct (if back then space3 c3 c2 c1 else space3 c1 c2 c3) eqn:E3.
  { destruct (IH s3) as (w & E & Hs); [cbn; lia|]. exists (c1 :: c2 :: c3 :: w). by rewrite E at 1. }
  exists []. cbn. by rewrite E1, E2, E3.
Qed.

Lemma starts_space_app back u v :
  starts_space back (u ++ v) = false -> starts_space back u = false.
Proof.
  destruct u as [|c1 [|c2 [|c3 u]]]; cbn; [done| | |done].
  - destruct v as [|d1 [|d2 v]]; cbn; intros H; bool_hyps; auto.
  - destruct v as [|d1 v]; cbn; intros H; bool_hyps; auto using orb_false_intro.
Qed.

(** Arithmetic on byte values, boolean tests included. *)
Ltac bytes_lia :=
  unfold space1, space2, space3, byte_is, ascii7 in *; cbn zeta in *;
  repeat match goal with |- context [nat_of_ascii ?c] => generalize (nat_of_ascii c); intro end;
  lia.

(** An ASCII byte never completes a longer encoding. *)
Lemma space2_ascii (back : bool) x c :
  ascii7 x = true ->
  (if back then space2 x c else space2 c x) = false /\ (if back then space2 c x else space2 x c) = false.
Proof. intros H. split; destruct back; revert H; bytes_lia. Qed.

Lemma space3_ascii x c d :
  ascii7 x = true ->
  space3 x c d = false /\ space3 c x d = false /\ space3 c d x = false.
Proof. intros H. split_and!; revert H; bytes_lia. Qed.

Lemma starts_space_ascii back u x s :
  u <> [] -> ascii7 x = true -> starts_space back u = false ->
  starts_space back (u ++ x :: s) = false.
Proof.
  intros Hu Hx Hs.
  destruct u as [|c1 [|c2 [|c3 u]]]; [done| | |done]; cbn in Hs |- *.
  - rewrite Hs. destruct (space2_ascii back x c1 Hx) as [-> _].
    destruct s as [|c s]; [done|]. destruct (space3_ascii x c1 c Hx) as (_ & H2 & _).
    destruct (space3_ascii x c c1 Hx) as (_ & H3 & _). by destruct back; rewrite ?H2, ?H3.
  - rewrite Hs. destruct (space3_ascii x c1 c2 Hx) as (_ & _ & H1).
    destruct (space3_ascii x c2 c1 Hx) as (H2 & _). by destruct back; rewrite ?H1, ?H2.
Qed.

Lemma starts_space_solid back x s :
  ascii7 x = true -> space1 x = false -> starts_space back (x :: s) = false.
Proof.
  intros Hx H1. destruct s as [|c [|d s]]; cbn; rewrite H1; [done| |].
  - destruct (space2_ascii back x c Hx) as [_ H]. by destruct back; rewrite H.
  - destruct (space2_ascii back x c Hx) as [_ H].
    destruct (space3_ascii x c d Hx) as (H2 & _ & _).
    destruct (space3_ascii x d c Hx) as (_ & _ & H3).
    by destruct back; rewrite H, ?H2, ?H3.
Qed.

Lemma trim_front_space back x s :
  space1 x = true -> trim_front back (x :: s) = trim_front back s.
Proof. intros H. cbn. by rewrite H. Qed.

Lemma bytes_trim_space s :
  bytes_of (trim_space s) =
    reverse (trim_front true (reverse (trim_front false (bytes_of s)))).
Proof. unfold trim_space, trim_left, trim_right. by rewrite !bytes_of_string. Qed.

Lemma tight_spec s :
  tight s = true <->
  starts_space false (bytes_of s) = false /\ starts_space true (reverse (bytes_of s)) = false.
Proof. unfold tight. by rewrite andb_true_iff, !negb_true_iff. Qed.

Lemma trim_space_fix s : tight s = true -> trim_space s = s.
Proof.
  intros [H1 H2]%tight_spec. apply bytes_of_inj. rewrite bytes_trim_space.
  rewrite (trim_front_fix false) by done. by rewrite trim_front_fix, reverse_involutive.
Qed.

Lemma trim_space_tight s : tight (trim_space s) = true.
Proof.
  apply tight_spec. rewrite bytes_trim_space, reverse_involutive.
  destruct (trim_front_spec false (bytes_of s)) as (w & _ & H).
  destruct (trim_front_spec true (reverse (trim_front false (bytes_of s)))) as (w' & E & H').
  split; [|done]. apply (f_equal reverse) in E.
  rewrite reverse_involutive, reverse_app in E. rewrite E in H.
  by apply starts_space_app in H.
Qed.

Lemma tight_empty : tight "" = true.
Proof. done. Qed.

(** A text between two solid ends: [key = value] keeps both when it is trimmed. *)
Lemma trim_space_left_blank c v : space1 c = true -> trim_space (String c v) = trim_space v.
Proof.
  intros H. apply bytes_of_inj. rewrite !bytes_trim_space. cbn [String.list_ascii_of_string].
  by rewrite trim_front_space.
Qed.

Lemma trim_front_app_fix back u v :
  starts_space back (u ++ v) = false -> trim_front back (u ++ v) = u ++ v.
Proof. apply trim_front_fix. Qed.

Lemma trim_space_right_blank k c :
  tight k = true -> space1 c = true -> ascii7 c = true -> trim_space (k +:+ String c "") = k.
Proof.
  intros [H1 H2]%tight_spec Hc H7. apply bytes_of_inj.
  rewrite bytes_trim_space, bytes_of_app. cbn [String.list_ascii_of_string].
  destruct (decide (bytes_of k = [])) as [Hk|Hk].
  - rewrite Hk. cbn [app]. rewrite trim_front_space by done. done.
  - rewrite (trim_front_fix false) by (by apply starts_space_ascii).
    rewrite reverse_app. cbn [reverse]. rewrite reverse_singleton. cbn [app].
    rewrite trim_front_space by done. by rewrite trim_front_fix, reverse_involutive.
Qed.

(** *** Decimal numbers *)

Lemma pretty_digit (x : N) :
  (x < 10)%N -> digit_val (pretty_N_char x) = Some (Z.of_N x).
Proof.
  intros H. assert (Hx : (x = 0 \/ x = 1 \/ x = 2 \/ x = 3 \/ x = 4 \/ x = 5 \/ x = 6
                          \/ x = 7 \/ x = 8 \/ x = 9)%N) by lia.
  by destruct_or!; subst.
Qed.

Lemma parse_digits_pretty (x : N) : forall acc s,
  parse_digits 10 acc (pretty_N_go x s) =
  parse_digits 10 (acc * 10 ^ Z.of_nat (String.length (pretty_N_go x "")) + Z.of_N x)%Z s.
Proof.
  (* the digits of [x] are pushed in front of [s] *)
  assert (Hlen : forall x s, String.length (pretty_N_go x s)
                             = String.length (pretty_N_go x "") + String.length s).
  { intros y. induction (N.lt_wf_0 y) as [y _ IH]; intros s.
    destruct (decide (0 < y)%N) as [Hy|Hy].
    - rewrite !(pretty_N_go_step y) by lia.
      rewrite (IH (y / 10)%N (N.div_lt y 10 Hy eq_refl) (String _ s)).
      rewrite (IH (y / 10)%N (N.div_lt y 10 Hy eq_refl) (String _ "")). cbn. lia.
    - replace y with 0%N by lia. by rewrite !pretty_N_go_0. }
  induction (N.lt_wf_0 x) as [x _ IH]; intros acc s.
  destruct (decide (0 < x)%N) as [Hx|Hx].
  - rewrite !(pretty_N_go_step x) by lia. rewrite IH by (by apply N.div_lt).
    cbn [parse_digits]. rewrite pretty_digit by (apply N.mod_lt; lia).
    pose proof (N.mod_lt x 10 ltac:(lia)) as Hm.
    destruct (Z.ltb_spec (Z.of_N (x `mod` 10)) 10) as [_|?]; [|lia].
    rewrite (Hlen _ (String _ "")). cbn [String.length].
    rewrite Nat2Z.inj_add, Z.pow_add_r by lia. f_equal.
    rewrite N2Z.inj_div, N2Z.inj_mod. change (Z.of_N 10) with 10%Z.
    pose proof (Z.div_mod (Z.of_N x) 10 ltac:(lia)) as Hdm.
    change (10 ^ Z.of_nat 1)%Z with 10%Z. nia.
  - replace x with 0%N by lia. rewrite !pretty_N_go_0. cbn. f_equal. lia.
Qed.

Lemma pretty_N_pos_go (p : positive) : pretty (N.pos p) = pretty_N_go (N.pos p) "".
Proof. done. Qed.

(** Every byte of a written number is a decimal digit. *)
Lemma pretty_N_go_digits x : forall s (P : ascii -> bool),
  (forall d, (d < 10)%N -> P (pretty_N_char d) = true) ->
  string_forall P s = true -> string_forall P (pretty_N_go x s) = true.
Proof.
  induction (N.lt_wf_0 x) as [x _ IH]; intros s P HP Hs.
  destruct (decide (0 < x)%N) as [Hx|Hx].
  - rewrite pretty_N_go_step by lia. apply IH; [by apply N.div_lt|done|].
    cbn. rewrite Hs, HP by (apply N.mod_lt; lia). done.
  - replace x with 0%N by lia. by rewrite pretty_N_go_0.
Qed.

Lemma pretty_N_go_ne x s : s <> "" -> pretty_N_go x s <> "".
Proof.
  revert s. induction (N.lt_wf_0 x) as [x _ IH]; intros s Hs.
  destruct (decide (0 < x)%N) as [Hx|Hx].
  - rewrite pretty_N_go_step by lia. apply IH; [by apply N.div_lt|done].
  - replace x with 0%N by lia. by rewrite pretty_N_go_0.
Qed.

(** A written positive number starts with a digit. *)
Lemma itoa_pos_cons p :
  exists d s, itoa (Z.pos p) = String (pretty_N_char d) s /\ (d < 10)%N.
Proof.
  unfold itoa. change (pretty (Z.pos p)) with (pretty_N_go (N.pos p) "").
  assert (H : forall x s, (0 < x)%N ->
            exists d t, pretty_N_go x s = String (pretty_N_char d) t /\ (d < 10)%N).
  { intros x. induction (N.lt_wf_0 x) as [x _ IH]; intros s Hx.
    rewrite pretty_N_go_step by lia.
    destruct (N.eq_0_gt_0_cases (x / 10)) as [H|H].
    2: { apply IH; [by apply N.div_lt|done]. }
    - rewrite H, pretty_N_go_0.
      eexists _, _. split; [done|]. apply N.mod_lt. lia. }
  by apply H.
Qed.

Lemma atoi_itoa n : (0 < n < 2 ^ 63)%Z -> atoi (itoa n) = Some n.
Proof.
  intros Hn. destruct n as [|p|p]; [lia| |lia].
  destruct (itoa_pos_cons p) as (d & s & E & Hd).
  assert (Hv : parse_digits 10 0 (itoa (Z.pos p)) = Some (Z.pos p)).
  { unfold itoa. change (pretty (Z.pos p)) with (pretty_N_go (N.pos p) "").
    rewrite parse_digits_pretty. cbn. f_equal. }
  unfold atoi, parse_int. rewrite E in *.
  assert (Hc : forall c, c = pretty_N_char d -> c <> "+"%char /\ c <> "-"%char).
  { intros c ->. pose proof (pretty_digit d Hd) as Hp. split; intros Ec; rewrite Ec in Hp; done. }
  destruct (Hc _ eq_refl) as [Hp Hm]. revert Hv Hp Hm.
  generalize (pretty_N_char d). intros c Hv Hp Hm.
  assert (Hr : match String c s with
               | String "+" r => (false, r)
               | String "-" r => (true, r)
               | _ => (false, String c s)
               end = (false, String c s)).
  { destruct c as [[] [] [] [] [] [] [] []]; try done; by destruct Hp || by destruct Hm. }
  rewrite Hr, Hv. unfold in_int64.
  destruct (Z.leb_spec (- 2 ^ 63) (Z.pos p)), (Z.ltb_spec (Z.pos p) (2 ^ 63)); (done || lia).
Qed.

Lemma string_forall_contains (P : ascii -> bool) c s :
  string_forall P s = true -> P c = false -> contains_byte c s = false.
Proof.
  induction s as [|a s IH]; cbn; intros Hs Hc; [done|].
  apply andb_prop in Hs as [Ha Hs]. rewrite (IH Hs Hc), orb_false_r.
  apply bool_decide_eq_false. intros ->. congruence.
Qed.

Lemma string_forall_app P s t :
  string_forall P (s +:+ t) = string_forall P s && string_forall P t.
Proof. induction s as [|a s IH]; str_simpl; [done|]. by rewrite IH, andb_assoc. Qed.

Lemma string_forall_bytes P s : string_forall P s = forallb P (bytes_of s).
Proof. induction s as [|a s IH]; cbn; [done|]. by rewrite IH. Qed.

(** A text of solid ASCII bytes is tight. *)
Definition solid (c : ascii) : bool := ascii7 c && negb (space1 c).

Lemma solid_tight s : string_forall solid s = true -> tight s = true.
Proof.
  rewrite string_forall_bytes. intros H. apply tight_spec.
  assert (G : forall b l, forallb solid l = true -> starts_space b l = false).
  { intros b [|c l] Hl; [done|]. cbn in Hl. unfold solid in Hl. bool_hyps.
    by apply starts_space_solid. }
  split; apply G; [done|]. rewrite forallb_true_iff in *. intros c Hc.
  apply H. by apply elem_of_reverse.
Qed.

Definition decimal (c : ascii) : bool :=
  match digit_val c with Some d => (d <? 10)%Z | None => false end.

Lemma itoa_decimal n : (0 < n)%Z -> string_forall decimal (itoa n) = true.
Proof.
  intros H. destruct n as [|p|p]; [done| |lia].
  unfold itoa. change (pretty (Z.pos p)) with (pretty_N_go (N.pos p) "").
  apply pretty_N_go_digits; [|done]. intros d Hd. unfold decimal.
  rewrite pretty_digit by done. lia.
Qed.

Lemma string_forall_impl (P Q : ascii -> bool) s :
  (forall c, P c = true -> Q c = true) -> string_forall P s = true -> string_forall Q s = true.
Proof.
  intros HPQ. induction s as [|c s IH]; cbn; [done|]. intros H. bool_hyps.
  by rewrite HPQ, IH.
Qed.

Lemma decimal_solid c : decimal c = true -> solid c = true.
Proof. destruct c as [[] [] [] [] [] [] [] []]; cbn; done. Qed.

(** *** Lower case *)

Lemma to_lower_contains_eq s :
  contains_byte "=" (to_lower s) = contains_byte "=" s.
Proof.
  induction s as [s IH] using (induction_ltof1 _ String.length); unfold ltof in IH.
  assert (Hb : forall c, bool_decide (lower_byte c = "="%char) = bool_decide (c = "="%char)).
  { intros [[] [] [] [] [] [] [] []]; done. }
  assert (Hh : forall c n, byte_is c n = true -> (128 <= n)%nat -> bool_decide (c = "="%char) = false).
  { intros c n H Hn. apply bool_decide_eq_false. intros ->. revert H. unfold byte_is.
    change (nat_of_ascii "=") with 61%nat. lia. }
  destruct s as [|c1 [|c2 s2]]; [done|cbn; by rewrite Hb|].
  cbn [to_lower].
  destruct (byte_is c1 196 && byte_is c2 176) eqn:E.
  { apply andb_prop in E as [E1 E2]. cbn [contains_byte].
    rewrite (IH s2) by (cbn; lia). rewrite (Hh c1 196), (Hh c2 176) by (done || lia). done. }
  assert (Hdef : contains_byte "=" (String (lower_byte c1) (to_lower (String c2 s2)))
                 = contains_byte "=" (String c1 (String c2 s2))).
  { cbn [contains_byte]. rewrite (IH (String c2 s2)) by (cbn; lia). by rewrite Hb. }
  destruct s2 as [|c3 s3]; [exact Hdef|].
  destruct (byte_is c1 226 && byte_is c2 132 && byte_is c3 170) eqn:E3; [|exact Hdef].
  apply andb_prop in E3 as [E3 E3c]. apply andb_prop in E3 as [E3a E3b]. cbn [contains_byte].
  rewrite (IH s3) by (cbn; lia).
  rewrite (Hh c1 226), (Hh c2 132), (Hh c3 170) by (done || lia). done.
Qed.

(** *** Sorting *)

Lemma sort_strings_perm l : sort_strings l ≡ₚ l.
Proof. apply merge_sort_Permutation. Qed.

Lemma elem_of_sort_strings x l : x ∈ sort_strings l <-> x ∈ l.
Proof. by rewrite sort_strings_perm. Qed.

Lemma sorted_keys_NoDup {A} (m : gmap string A) : NoDup (sorted_keys m).
Proof. unfold sorted_keys. rewrite sort_strings_perm. apply NoDup_fst_map_to_list. Qed.

Lemma elem_of_sorted_keys {A} (m : gmap string A) k :
  k ∈ sorted_keys m <-> is_Some (m !! k).
Proof.
  unfold sorted_keys. rewrite elem_of_sort_strings, list_elem_of_fmap. split.
  - intros ([k' v] & -> & H%elem_of_map_to_list). eauto.
  - intros [v H]. exists (k, v). by rewrite elem_of_map_to_list.
Qed.

Lemma sorted_keys_sorted {A} (m : gmap string A) : Sorted String.le (sorted_keys m).
Proof. apply Sorted_merge_sort. apply _. Qed.
