(* ===== verification/GoNet.v ===== *)
(** * The parts of Go's net and net/netip packages the program uses

    Address parsing follows netip.ParseAddr byte by byte; an IP is its list of bytes (4 or
    16), as in package net. *)

From S2P Require Import Prelude GoStrings.



(** ** netip.ParseAddr *)

Inductive addr :=
| AddrV4 (bytes : list Z)
| AddrV6 (bytes : list Z) (zone : string).

(** parseIPv4Fields; [first] and [prev_dot] stand for the tests on i and s[i-1]. *)
Fixpoint ipv4_fields (s : string) (first prev_dot : bool) (val : Z) (digLen : nat)
    (fields : list Z) : option (list Z) :=
  match s with
  | EmptyString => if (length fields <? 3)%nat then None else Some (fields ++ [val])
  | String c s' =>
      match digit_val c with
      | Some d =>
          if (d <? 10)%Z then
            if (digLen =? 1)%nat && (val =? 0)%Z then None
            else
              let val' := (val * 10 + d)%Z in
              if (255 <? val')%Z then None
              else ipv4_fields s' false false val' (S digLen) fields
          else None
      | None =>
          if bool_decide (c = "."%char) then
            if first || bool_decide (s' = "") || prev_dot then None
            else if (length fields =? 3)%nat then None
            else ipv4_fields s' false true 0 0 (fields ++ [val])
          else None
      end
  end.

Definition parse_ipv4 (s : string) : option (list Z) := ipv4_fields s true false 0 0 [].

(** One group of at most four hex digits: its value, how many digits, the rest. *)
Fixpoint hex_group (off : nat) (acc : Z) (s : string) : option (Z * nat * string) :=
  match s with
  | EmptyString => Some (acc, off, s)
  | String c s' =>
      match digit_val c with
      | Some d =>
          if (d <? 16)%Z then
            if (3 <? off)%nat then None
            else hex_group (S off) (acc * 16 + d)%Z s'
          else Some (acc, off, s)
      | None => Some (acc, off, s)
      end
  end.

(** [s[0] == c], with the rest of the text. *)
Definition head_is (c : ascii) (s : string) : bool :=
  match s with
  | EmptyString => false
  | String a _ => bool_decide (a = c)
  end.

Definition tail (s : string) : string :=
  match s with EmptyString => "" | String _ s' => s' end.

(** The loop of parseIPv6: [n] groups are left, [length ip] bytes are filled. *)
Fixpoint ipv6_groups (n : nat) (s : string) (ip : list Z) (ellipsis : option nat)
    : option (string * list Z * option nat) :=
  match n with
  | O => Some (s, ip, ellipsis)
  | S n' =>
      match hex_group 0 0 s with
      | None => None
      | Some (acc, off, rest) =>
          if (off =? 0)%nat then None
          else if head_is "." rest then
            if bool_decide (ellipsis = None) && negb (length ip =? 12)%nat then None
            else if (16 <? length ip + 4)%nat then None
            else match parse_ipv4 s with
                 | Some f => Some ("", ip ++ f, ellipsis)
                 | None => None
                 end
          else
            let ip' := ip ++ [acc / 256; acc mod 256]%Z in
            if rest =s "" then Some ("", ip', ellipsis)
            else if negb (head_is ":" rest) then None
            else
              let rest' := tail rest in
              if rest' =s "" then None
              else
                let '(dup, s', ell') :=
                  if head_is ":" rest'
                  then (bool_decide (is_Some ellipsis), tail rest', Some (length ip'))
                  else (false, rest', ellipsis) in
                if dup : bool then None
                else if s' =s "" then Some ("", ip', ell')
                else ipv6_groups n' s' ip' ell'
      end
  end.

(** After the loop: everything must be used, and an ellipsis fills the missing groups. *)
Definition finish_ipv6 (zone : string) (r : option (string * list Z * option nat))
    : option addr :=
  match r with
  | Some (s, ip, ell) =>
      if negb (s =s "") then None
      else if (length ip <? 16)%nat then
        match ell with
        | None => None
        | Some e =>
            Some (AddrV6 (take e ip ++ replicate (16 - length ip) 0%Z ++ drop e ip) zone)
        end
      else match ell with
           | Some _ => None
           | None => Some (AddrV6 ip zone)
           end
  | None => None
  end.

(** parseIPv6 after the zone is split off. *)
Definition parse_ipv6_body (s zone : string) : option addr :=
  let '(s1, ell) := if has_prefix "::" s then (string_drop 2 s, Some O) else (s, None) in
  if bool_decide (ell = Some O) && bool_decide (s1 = "")
  then Some (AddrV6 (replicate 16 0%Z) zone)
  else
    finish_ipv6 zone (ipv6_groups 8 s1 [] ell).

Definition parse_ipv6 (inp : string) : option addr :=
  match cut_byte "%" inp with
  | Some (_, EmptyString) => None
  | Some (s, zone) => parse_ipv6_body s zone
  | None => parse_ipv6_body inp ""
  end.

(** The first of '.', ':' and '%' decides the format. *)
Fixpoint addr_format (s : string) : option ascii :=
  match s with
  | EmptyString => None
  | String c s' =>
      if bool_decide (c = "."%char) || bool_decide (c = ":"%char) || bool_decide (c = "%"%char)
      then Some c else addr_format s'
  end.

Definition parse_addr (s : string) : option addr :=
  match addr_format s with
  | Some "."%char => AddrV4 <$> parse_ipv4 s
  | Some ":"%char => parse_ipv6 s
  | _ => None
  end.

(** ** net.IP, net.IPMask, net.IPNet *)

Definition v4_in_v6_prefix : list Z := replicate 10 0%Z ++ [255; 255]%Z.

Definition as16 (a : addr) : list Z :=
  match a with
  | AddrV4 b => v4_in_v6_prefix ++ b
  | AddrV6 b _ => b
  end.

Definition addr_bitlen (a : addr) : Z := match a with AddrV4 _ => 32 | AddrV6 _ _ => 128 end.

Definition addr_zone (a : addr) : string := match a with AddrV4 _ => "" | AddrV6 _ z => z end.

(** net.ParseIP; [None] is the nil IP. *)
Definition parse_ip (s : string) : option (list Z) :=
  match parse_addr s with
  | Some a => if bool_decide (addr_zone a = "") then Some (as16 a) else None
  | None => None
  end.

Definition ip_valid (s : string) : bool := bool_decide (is_Some (parse_ip s)).

(** IP.To4 *)
Definition to4 (ip : list Z) : option (list Z) :=
  if (length ip =? 4)%nat then Some ip
  else if (length ip =? 16)%nat && bool_decide (take 12 ip = v4_in_v6_prefix)
  then Some (drop 12 ip) else None.

Record ipnet := IPNet { net_ip : list Z; net_mask : list Z }.

(** net.CIDRMask *)
Fixpoint cidr_mask (bytes : nat) (n : Z) : list Z :=
  match bytes with
  | O => []
  | S k => if (8 <=? n)%Z then 255%Z :: cidr_mask k (n - 8)
           else (255 - Z.shiftr 255 n)%Z :: cidr_mask k 0
  end.

(** IP.Mask of a 16-byte IP *)
Definition ip_mask (ip mask : list Z) : list Z :=
  let ip' := if (length mask =? 4)%nat && (length ip =? 16)%nat
                && bool_decide (take 12 ip = v4_in_v6_prefix)
             then drop 12 ip else ip in
  zip_with Z.land ip' mask.

(** dtoi: decimal digits up to a bound; the value and the unread rest. *)
Fixpoint dtoi_go (seen : bool) (n : Z) (s : string) : option (Z * string) :=
  match s with
  | EmptyString => if seen then Some (n, "") else None
  | String c s' =>
      match digit_val c with
      | Some d => if (d <? 10)%Z then
                    let n' := (n * 10 + d)%Z in
                    if (16777215 <=? n')%Z then None else dtoi_go true n' s'
                  else if seen then Some (n, s) else None
      | None => if seen then Some (n, s) else None
      end
  end.

Definition dtoi (s : string) : option (Z * string) := dtoi_go false 0 s.

(** net.ParseCIDR *)
Definition parse_cidr (s : string) : option (list Z * ipnet) :=
  match cut_byte "/" s with
  | None => None
  | Some (a, mask) =>
      match parse_addr a with
      | None => None
      | Some ad =>
          if negb (bool_decide (addr_zone ad = "")) then None
          else
            match dtoi mask with
            | Some (n, EmptyString) =>
                if (addr_bitlen ad <? n)%Z then None
                else
                  let m := cidr_mask (Z.to_nat (addr_bitlen ad / 8)) n in
                  Some (as16 ad, IPNet (ip_mask (as16 ad) m) m)
            | _ => None
            end
      end
  end.

(** simpleMaskLength and IPMask.Size *)
Fixpoint byte_ones (fuel : nat) (v : Z) : Z :=
  match fuel with
  | O => 0
  | S f => if Z.testbit v 7 then (1 + byte_ones f (Z.land 255 (Z.shiftl v 1)))%Z else 0%Z
  end.

Fixpoint simple_mask_length (m : list Z) : option Z :=
  match m with
  | [] => Some 0%Z
  | v :: m' =>
      if (v =? 255)%Z then (fun n => (8 + n)%Z) <$> simple_mask_length m'
      else
        let k := byte_ones 8 v in
        if negb (v =? 255 - Z.shiftr 255 k)%Z then None
        else if forallb (fun b => (b =? 0)%Z) m' then Some k else None
  end.

Definition mask_size (m : list Z) : Z * Z :=
  match simple_mask_length m with
  | Some ones => (ones, (8 * Z.of_nat (length m))%Z)
  | None => (0, 0)%Z
  end.

(** networkNumberAndMask and IPNet.Contains *)
Definition network_number_and_mask (n : ipnet) : option (list Z * list Z) :=
  let ip := match to4 (net_ip n) with
            | Some x => Some x
            | None => if (length (net_ip n) =? 16)%nat then Some (net_ip n) else None
            end in
  match ip with
  | None => None
  | Some ip =>
      let m := net_mask n in
      if (length m =? 4)%nat then
        if (length ip =? 4)%nat then Some (ip, m) else None
      else if (length m =? 16)%nat then
        Some (ip, if (length ip =? 4)%nat then drop 12 m else m)
      else None
  end.

Definition masked_eq (nn m ip : list Z) : bool :=
  forallb (fun '(a, b, c) => (Z.land a b =? Z.land c b)%Z) (zip (zip nn m) ip).

Definition net_contains (n : ipnet) (ip : list Z) : bool :=
  let ip' := default ip (to4 ip) in
  match network_number_and_mask n with
  | None => (length ip' =? 0)%nat
  | Some (nn, m) => (length ip' =? length nn)%nat && masked_eq nn m ip'
  end.

(** ** net.SplitHostPort and net.JoinHostPort *)

Definition split_host_port (hp : string) : option (string * string) :=
  match cut_last_byte ":" hp with
  | None => None
  | Some (before, port) =>
      match hp with
      | String "[" r =>
          match cut_byte "]" r with
          | None => None
          | Some (host, after) =>
              (* "end+1 == i": what follows the first ']' is the last ':' and the port *)
              if bool_decide (after = ":" +:+ port) then
                if contains_byte "[" r || contains_byte "]" after then None
                else Some (host, port)
              else None
          end
      | _ =>
          if contains_byte ":" before then None
          else if contains_byte "[" hp || contains_byte "]" hp then None
          else Some (before, port)
      end
  end.

Definition join_host_port (host port : string) : string :=
  if contains_byte ":" host then "[" +:+ host +:+ "]:" +:+ port
  else host +:+ ":" +:+ port.

(** ** Facts: the characters of an accepted address *)

Definition hex_char (c : ascii) : bool :=
  match digit_val c with Some d => (d <? 16)%Z | None => false end.

Definition addr_char (c : ascii) : bool :=
  hex_char c || bool_decide (c = "."%char) || bool_decide (c = ":"%char).

Lemma decimal_hex c : decimal c = true -> hex_char c = true.
Proof. unfold decimal, hex_char. destruct (digit_val c); [lia|done]. Qed.

Lemma ipv4_fields_chars s : forall first prev val dl fs r,
  ipv4_fields s first prev val dl fs = Some r -> string_forall addr_char s = true.
Proof.
  induction s as [|c s IH]; intros first prev val dl fs r H; [done|].
  cbn in H |- *. unfold addr_char at 1, hex_char. destruct (digit_val c) as [d|] eqn:Ed.
  - destruct (Z.ltb_spec d 10); [|done]. destruct (_ && _); [done|].
    destruct (255 <? _)%Z; [done|]. apply IH in H. rewrite H.
    destruct (Z.ltb_spec d 16); [done|lia].
  - case_bool_decide; [|done]. destruct (_ || _ || _); [done|].
    destruct (_ =? 3)%nat; [done|]. apply IH in H. by rewrite H.
Qed.

Lemma hex_group_spec s : forall off acc v n r,
  hex_group off acc s = Some (v, n, r) ->
  exists p, s = p +:+ r /\ string_forall hex_char p = true.
Proof.
  induction s as [|c s IH]; intros off acc v n r H; cbn in H.
  - injection H as <- <- <-. by exists "".
  - assert (Hstop : Some (acc, off, String c s) = Some (v, n, r) ->
              exists p, String c s = p +:+ r /\ string_forall hex_char p = true).
    { intros [= <- <- <-]. by exists "". }
    destruct (digit_val c) as [d|] eqn:Ed; [|by apply Hstop].
    destruct (Z.ltb_spec d 16); [|by apply Hstop]. destruct (3 <? off)%nat; [done|].
    apply IH in H as (p & -> & Hp). exists (String c p). split; [done|].
    cbn. unfold hex_char at 1. rewrite Ed, Hp. lia.
Qed.

Lemma hex_addr p : string_forall hex_char p = true -> string_forall addr_char p = true.
Proof. apply string_forall_impl. intros c H. unfold addr_char. by rewrite H. Qed.

Lemma head_is_tail c s : head_is c s = true -> s = String c (tail s).
Proof. destruct s as [|a s]; cbn; [done|]. intros ->%bool_decide_eq_true. done. Qed.

Lemma ipv6_groups_chars n : forall s ip ell r ip' ell',
  ipv6_groups n s ip ell = Some (r, ip', ell') ->
  exists p, s = p +:+ r /\ string_forall addr_char p = true.
Proof.
  induction n as [|n IH]; intros s ip ell r ip' ell' H.
  { injection H as <- <- <-. by exists "". }
  cbn [ipv6_groups] in H.
  destruct (hex_group 0 0 s) as [[[acc off] rest]|] eqn:Eg; [|done].
  apply hex_group_spec in Eg as (p & -> & Hp%hex_addr).
  destruct (off =? 0)%nat; [done|]. destruct (head_is "." rest).
  { destruct (_ && _); [done|]. destruct (16 <? _)%nat; [done|].
    destruct (parse_ipv4 _) as [f|] eqn:E4; [|done]. injection H as <- <- <-.
    exists (p +:+ rest). rewrite string_app_nil_r. split; [done|]. by apply ipv4_fields_chars in E4. }
  cbv zeta in H. case_bool_decide as Er.
  { injection H as <- <- <-. exists p. by rewrite Er, string_app_nil_r. }
  destruct (head_is ":" rest) eqn:Ec; [|done]. cbn [negb] in H.
  apply head_is_tail in Ec. rewrite Ec. revert H. generalize (tail rest). intros t H.
  destruct (t =s ""); [done|].
  assert (G : forall q, string_forall addr_char q = true -> forall t', t = q +:+ t' ->
     (exists p', t' = p' +:+ r /\ string_forall addr_char p' = true) ->
     exists p0, p +:+ String ":" t = p0 +:+ r /\ string_forall addr_char p0 = true).
  { intros q Hq t' -> (p' & -> & Hp'). exists (p +:+ String ":" (q +:+ p')). split.
    - by rewrite !string_app_assoc, string_app_cons, string_app_assoc.
    - rewrite string_forall_app, Hp. cbn. by rewrite string_forall_app, Hq, Hp'. }
  destruct (head_is ":" t) eqn:Ec2.
  - apply head_is_tail in Ec2. revert H Ec2. generalize (tail t). intros t' H ->.
    destruct (bool_decide (is_Some ell)); [done|]. apply (G ":" eq_refl t' eq_refl).
    case_bool_decide as Et; [|by eapply IH]. injection H as <- <- <-. subst. by exists "".
  - apply (G "" eq_refl t eq_refl).
    case_bool_decide as Et; [|by eapply IH]. injection H as <- <- <-. subst. by exists "".
Qed.

Lemma has_prefix_drop p s : has_prefix p s = true -> s = p +:+ string_drop (String.length p) s.
Proof.
  unfold has_prefix. revert s. induction p as [|a p IH]; intros s H; [done|].
  destruct s as [|b s]; cbn in H; [done|]. destruct (ascii_dec a b) as [->|]; [|done].
  cbn [String.length string_drop]. rewrite string_app_cons. by f_equal; apply IH.
Qed.

Lemma finish_ipv6_spec zone r a :
  finish_ipv6 zone r = Some a ->
  addr_zone a = zone /\ exists ip ell, r = Some ("", ip, ell).
Proof.
  destruct r as [[[s ip] ell]|]; cbn; [|done]. case_bool_decide; [|done]. subst. cbn.
  intros H. split; [|by exists ip, ell].
  destruct (_ <? _)%nat, ell; try done; by injection H as <-.
Qed.

Lemma parse_ipv6_body_spec s zone a :
  parse_ipv6_body s zone = Some a -> addr_zone a = zone /\ string_forall addr_char s = true.
Proof.
  unfold parse_ipv6_body. destruct (has_prefix "::" s) eqn:Ep.
  - apply has_prefix_drop in Ep. change (String.length "::") with 2%nat in Ep.
    revert Ep. generalize (string_drop 2 s). intros s1 ->.
    destruct (_ && _) eqn:Eb.
    + apply andb_prop in Eb as [_ ->%bool_decide_eq_true]. by intros [= <-].
    + intros [? (ip & ell & E)]%finish_ipv6_spec. split; [done|].
      apply ipv6_groups_chars in E as (p & -> & Hp). by rewrite !string_forall_app, Hp.
  - rewrite bool_decide_false by done. cbn [andb].
    intros [? (ip & ell & E)]%finish_ipv6_spec. split; [done|].
    apply ipv6_groups_chars in E as (p & -> & Hp). by rewrite !string_forall_app, Hp.
Qed.

Lemma parse_ipv6_chars s a :
  parse_ipv6 s = Some a -> addr_zone a = "" -> string_forall addr_char s = true.
Proof.
  unfold parse_ipv6. destruct (cut_byte "%" s) as [[s0 [|c z]]|]; [done| |].
  - intros [H _]%parse_ipv6_body_spec. by rewrite H.
  - by intros [_ H]%parse_ipv6_body_spec.
Qed.

Lemma parse_addr_chars s a :
  parse_addr s = Some a -> addr_zone a = "" -> string_forall addr_char s = true.
Proof.
  unfold parse_addr. destruct (addr_format s) as [c|]; [|done].
  destruct (ascii_dec c "."%char) as [->|Hd].
  { destruct (parse_ipv4 s) eqn:E; [|done]. intros _ _. by apply ipv4_fields_chars in E. }
  destruct (ascii_dec c ":"%char) as [->|Hc]; [apply parse_ipv6_chars|].
  destruct c as [[] [] [] [] [] [] [] []]; done.
Qed.

(** An accepted IP consists of hex digits, dots and colons: it can carry nothing else into a
    generated text. *)
Lemma parse_ip_chars s : is_Some (parse_ip s) -> string_forall addr_char s = true.
Proof.
  unfold parse_ip. intros [ip H]. destruct (parse_addr s) as [a|] eqn:E; [|done].
  case_bool_decide; [|done]. by apply (parse_addr_chars s a).
Qed.

Lemma parse_ip_nonempty s : is_Some (parse_ip s) -> s <> "".
Proof. intros [? H] ->. done. Qed.

Lemma dtoi_go_chars s : forall seen n v, dtoi_go seen n s = Some (v, "") -> string_forall decimal s = true.
Proof.
  induction s as [|c s IH]; intros seen n v H; [done|]. cbn in H |- *. unfold decimal at 1.
  destruct (digit_val c) as [d|].
  - destruct (Z.ltb_spec d 10).
    + destruct (16777215 <=? _)%Z; [done|]. apply IH in H. by rewrite H.
    + by destruct seen.
  - by destruct seen.
Qed.

(** The text of an accepted CIDR: an address, one slash, a decimal number. *)
Lemma parse_cidr_chars s :
  is_Some (parse_cidr s) ->
  exists a m, s = a +:+ "/" +:+ m /\ string_forall addr_char a = true /\ string_forall decimal m = true.
Proof.
  unfold parse_cidr. intros [r H]. destruct (cut_byte "/" s) as [[a m]|] eqn:E; [|done].
  apply cut_byte_Some in E as [-> _]. exists a, m. split; [done|].
  destruct (parse_addr a) as [ad|] eqn:Ea; [|done]. case_bool_decide; [|done]. cbn [negb] in H.
  split; [by apply (parse_addr_chars a ad)|].
  destruct (dtoi m) as [[n [|? ?]]|] eqn:Ed; [|done|done]. by apply dtoi_go_chars in Ed.
Qed.
