(* ===== verification/GoNetFacts.v ===== *)
(** * Networks as sets of addresses

    The facts about net.ParseCIDR and IPNet.Contains that the model's clients use: the sizes of
    what the parsers return, and that two accepted networks meet exactly when one contains the
    base address of the other. *)

From S2P Require Import Prelude GoStrings GoNet.

(** ** Sizes *)

Lemma ipv4_fields_length s : forall first prev val dl fs r,
  (length fs <= 3)%nat -> ipv4_fields s first prev val dl fs = Some r -> length r = 4%nat.
Proof.
  induction s as [|c s IH]; intros first prev val dl fs r Hl H; cbn in H.
  - destruct (Nat.ltb_spec (length fs) 3); [done|]. simplify_eq. rewrite length_app. cbn. lia.
  - destruct (digit_val c) as [d|].
    + destruct (_ <? 10)%Z; [|done]. destruct (_ && _); [done|]. destruct (255 <? _)%Z; [done|].
      by apply IH in H.
    + case_bool_decide; [|done]. destruct (_ || _ || _); [done|].
      destruct (Nat.eqb_spec (length fs) 3); [done|]. apply IH in H; [done|].
      rewrite length_app. cbn. lia.
Qed.

Lemma parse_ipv4_length s r : parse_ipv4 s = Some r -> length r = 4%nat.
Proof. apply ipv4_fields_length. cbn. lia. Qed.

Lemma ipv6_groups_length n : forall s ip ell s' ip' ell',
  length ip = (16 - 2 * n)%nat -> (n <= 8)%nat ->
  (forall e, ell = Some e -> e <= length ip)%nat ->
  ipv6_groups n s ip ell = Some (s', ip', ell') ->
  (length ip' <= 16)%nat /\ (forall e, ell' = Some e -> e <= length ip')%nat.
Proof.
  induction n as [|n IH]; intros s ip ell s' ip' ell' Hl Hn He H; cbn in H.
  - simplify_eq. split; [lia|done].
  - destruct (hex_group 0 0 s) as [[[acc off] rest]|]; [|done].
    destruct (off =? 0)%nat; [done|]. destruct (head_is "." rest).
    + destruct (_ && _); [done|]. destruct (Nat.ltb_spec 16 (length ip + 4)); [done|].
      destruct (parse_ipv4 s) as [f|] eqn:Ef; [|done]. simplify_eq.
      apply parse_ipv4_length in Ef. rewrite length_app, Ef. split; [lia|].
      intros e Hx%He. lia.
    + set (ip2 := ip ++ [(acc / 256)%Z; (acc mod 256)%Z]) in *.
      assert (Hl2 : length ip2 = (16 - 2 * n)%nat).
      { unfold ip2. rewrite length_app. cbn. lia. }
      assert (He2 : forall e, ell = Some e -> (e <= length ip2)%nat).
      { intros e Hx%He. unfold ip2. rewrite length_app. lia. }
      clearbody ip2. case_bool_decide; [injection H as <- <- <-; split; [lia|done]|].
      destruct (negb _); [done|]. case_bool_decide; [done|].
      destruct (head_is ":" (tail rest)).
      * case_bool_decide; [done|]. assert (He3 : forall e, Some (length ip2) = Some e -> (e <= length ip2)%nat) by (intros ? [= <-]; lia).
        case_bool_decide; [injection H as <- <- <-; split; [lia|done]|]. eapply IH; [exact Hl2|lia|exact He3|done].
      * case_bool_decide; [injection H as <- <- <-; split; [lia|done]|]. eapply IH; [exact Hl2|lia|exact He2|done].
Qed.

Lemma parse_ipv6_body_length s zone b z :
  parse_ipv6_body s zone = Some (AddrV6 b z) -> length b = 16%nat.
Proof.
  unfold parse_ipv6_body. intros H.
  assert (Hf : forall s1 ell, (forall e, ell = Some e -> (e <= 0)%nat) ->
             finish_ipv6 zone (ipv6_groups 8 s1 [] ell) = Some (AddrV6 b z) -> length b = 16%nat).
  { intros s1 ell He Hg. destruct (ipv6_groups 8 s1 [] ell) as [[[s' ip] ell']|] eqn:E; [|done].
    apply ipv6_groups_length in E as [Hl Hx]; [|done|lia|done]. cbn in Hg.
    case_bool_decide; [|done]. cbn [negb] in Hg. destruct (Nat.ltb_spec (length ip) 16).
    - destruct ell' as [e|]; [|done]. simplify_eq.
      rewrite !length_app, length_take, length_replicate, length_drop. specialize (Hx e eq_refl). lia.
    - destruct ell'; [done|]. simplify_eq. lia. }
  destruct (has_prefix "::" s).
  - destruct (_ && _); [by simplify_eq|]. revert H. apply Hf. by intros e [= <-].
  - rewrite bool_decide_false in H by done. cbn [andb] in H. by apply Hf in H.
Qed.

Lemma finish_ipv6_v6 zone r a : finish_ipv6 zone r = Some a -> exists b, a = AddrV6 b zone.
Proof. unfold finish_ipv6. intros H. repeat (step_in H; try done); simplify_eq; by eexists. Qed.

Definition addr_bytes (a : addr) : list Z := match a with AddrV4 b => b | AddrV6 b _ => b end.

Lemma parse_addr_length s a :
  parse_addr s = Some a ->
  length (addr_bytes a) = match a with AddrV4 _ => 4 | AddrV6 _ _ => 16 end%nat.
Proof.
  unfold parse_addr. intros H. destruct (addr_format s) as [c|]; [|done].
  destruct (ascii_dec c "."%char) as [->|Hd].
  { destruct (parse_ipv4 s) eqn:E; [|done]. apply parse_ipv4_length in E. cbn in H. by simplify_eq. }
  destruct (ascii_dec c ":"%char) as [->|Hc].
  2: { destruct c as [[] [] [] [] [] [] [] []]; done. }
  assert (Hb : forall s1 z1, parse_ipv6_body s1 z1 = Some a ->
                 length (addr_bytes a) = match a with AddrV4 _ => 4 | AddrV6 _ _ => 16 end%nat).
  { intros s1 z1 Hb. assert (exists b z, a = AddrV6 b z) as (b & z & ->).
    { unfold parse_ipv6_body in Hb. destruct (has_prefix "::" s1); cbn zeta beta iota in Hb.
      - destruct (_ && _); [simplify_eq; eauto|]. apply finish_ipv6_v6 in Hb as [b ->]. eauto.
      - destruct (_ && _); [simplify_eq; eauto|]. apply finish_ipv6_v6 in Hb as [b ->]. eauto. }
    by apply parse_ipv6_body_length in Hb. }
  unfold parse_ipv6 in H. destruct (cut_byte "%" s) as [[s1 [|c z1]]|]; [done| |]; by apply Hb in H.
Qed.

(** ** Masks *)

Lemma digit_val_nonneg c d : digit_val c = Some d -> (0 <= d)%Z.
Proof. unfold digit_val. intros H. repeat (step_in H; try done); simplify_eq; lia. Qed.

Lemma dtoi_go_nonneg s : forall seen n v r, (0 <= n)%Z -> dtoi_go seen n s = Some (v, r) -> (0 <= v)%Z.
Proof.
  induction s as [|c s IH]; intros seen n v r Hn H; cbn in H.
  - destruct seen; by simplify_eq.
  - destruct (digit_val c) as [d|] eqn:Ed; [|destruct seen; by simplify_eq].
    apply digit_val_nonneg in Ed. destruct (d <? 10)%Z; [|destruct seen; by simplify_eq].
    destruct (16777215 <=? _)%Z; [done|]. apply IH in H; [done|lia].
Qed.

Lemma cidr_mask_length k n : length (cidr_mask k n) = k.
Proof. revert n. induction k as [|k IH]; intros n; cbn; [done|]. destruct (8 <=? n)%Z; cbn; by rewrite IH. Qed.

Lemma cidr_mask_drop j k n :
  (0 <= n)%Z -> exists n', (0 <= n')%Z /\ drop j (cidr_mask (j + k) n) = cidr_mask k n'.
Proof.
  revert n. induction j as [|j IH]; intros n Hn; [by exists n|]. cbn.
  destruct (Z.leb_spec 8 n); cbn; apply IH; lia.
Qed.

Lemma mask_byte_le a b :
  (0 <= a <= b)%Z -> (b < 8)%Z ->
  Z.land (255 - Z.shiftr 255 b) (255 - Z.shiftr 255 a) = (255 - Z.shiftr 255 a)%Z.
Proof.
  intros Ha Hb.
  assert (Hbs : b ∈ [0; 1; 2; 3; 4; 5; 6; 7]%Z) by (repeat rewrite elem_of_cons; lia).
  assert (Has : a ∈ [0; 1; 2; 3; 4; 5; 6; 7]%Z) by (repeat rewrite elem_of_cons; lia).
  repeat rewrite elem_of_cons in Hbs. repeat rewrite elem_of_cons in Has.
  repeat destruct Hbs as [->|Hbs]; repeat destruct Has as [->|Has];
    solve [reflexivity | lia | by apply elem_of_nil in Hbs | by apply elem_of_nil in Has].
Qed.

(** A shorter prefix keeps fewer bits: masking twice is masking with the shorter one. *)
Lemma cidr_mask_le k : forall a b,
  (0 <= a <= b)%Z -> zip_with Z.land (cidr_mask k b) (cidr_mask k a) = cidr_mask k a.
Proof.
  induction k as [|k IH]; intros a b Hab; [done|]. cbn.
  destruct (Z.leb_spec 8 a), (Z.leb_spec 8 b); cbn; try lia.
  - by rewrite IH by lia.
  - rewrite IH by lia. f_equal. change 255%Z with (Z.ones 8). rewrite Z.land_comm.
    assert (Hb : (0 <= Z.ones 8 - Z.shiftr (Z.ones 8) a < 2 ^ 8)%Z).
    { assert (Has : a ∈ [0; 1; 2; 3; 4; 5; 6; 7]%Z) by (repeat rewrite elem_of_cons; lia).
      repeat rewrite elem_of_cons in Has.
      repeat destruct Has as [->|Has]; solve [vm_compute; split; congruence | by apply elem_of_nil in Has]. }
    rewrite Z.land_ones by lia. apply Z.mod_small; lia.
  - rewrite IH by lia. f_equal. apply mask_byte_le; lia.
Qed.

(** ** The networks ParseCIDR returns *)

Definition good_net (n : ipnet) : Prop :=
  exists nn k, network_number_and_mask n = Some (nn, cidr_mask (length nn) k) /\ (0 <= k)%Z
               /\ default (net_ip n) (to4 (net_ip n)) = nn.

Lemma v4_prefix_take b : take 12 (v4_in_v6_prefix ++ b) = v4_in_v6_prefix.
Proof. done. Qed.

Lemma v4_prefix_drop b : drop 12 (v4_in_v6_prefix ++ b) = b.
Proof. done. Qed.

Lemma good_net_masked ip k :
  (length ip = 4 \/ length ip = 16)%nat -> (0 <= k)%Z ->
  good_net (IPNet (zip_with Z.land ip (cidr_mask (length ip) k)) (cidr_mask (length ip) k)).
Proof.
  intros Hl Hk. set (b := zip_with Z.land ip (cidr_mask (length ip) k)).
  assert (Hb : length b = length ip).
  { unfold b. rewrite length_zip_with, cidr_mask_length. lia. }
  clearbody b. unfold good_net, network_number_and_mask. cbn [net_ip net_mask].
  rewrite cidr_mask_length. destruct Hl as [Hl|Hl]; rewrite Hl in *.
  - exists b, k. unfold to4. rewrite Hb. change (4 =? 4)%nat with true. cbv iota. by rewrite Hb.
  - unfold to4. rewrite Hb. change (16 =? 4)%nat with false.
    change (16 =? 16)%nat with true. cbn [andb]. case_bool_decide as Ep.
    + destruct (cidr_mask_drop 12 4 k Hk) as (k' & Hk' & Hd). exists (drop 12 b), k'.
      assert (Hdl : length (drop 12 b) = 4%nat) by (rewrite length_drop; lia).
      rewrite Hdl. change (4 =? 4)%nat with true. cbv iota. split_and!; [|done|done].
      change (12 + 4)%nat with 16%nat in Hd. by rewrite Hd.
    + exists b, k. rewrite Hb. split_and!; [|done|done].
      change (16 =? 4)%nat with false. done.
Qed.

Lemma parse_cidr_good s r n : parse_cidr s = Some (r, n) -> good_net n.
Proof.
  unfold parse_cidr. intros H. destruct (cut_byte "/" s) as [[a m]|]; [|done].
  destruct (parse_addr a) as [ad|] eqn:Ea; [|done]. destruct (negb _); [done|].
  destruct (dtoi m) as [[k [|? ?]]|] eqn:Ek; try done. destruct (_ <? k)%Z; [done|].
  apply dtoi_go_nonneg in Ek; [|lia]. apply parse_addr_length in Ea. simplify_eq.
  destruct ad as [b|b z]; cbn [addr_bytes as16 addr_bitlen] in *.
  - change (Z.to_nat (32 / 8)) with 4%nat. unfold ip_mask. rewrite cidr_mask_length.
    rewrite length_app, Ea, v4_prefix_take, v4_prefix_drop. rewrite bool_decide_true by done.
    change (_ && _) with true. cbv iota. rewrite <- Ea. apply good_net_masked; auto.
  - change (Z.to_nat (128 / 8)) with 16%nat. unfold ip_mask. rewrite cidr_mask_length.
    change (_ && _) with false. cbv iota. rewrite <- Ea. apply good_net_masked; auto.
Qed.

(** ** Two networks meet exactly when one contains the base of the other *)

Lemma masked_eq_spec nn m ip :
  length nn = length m -> length ip = length m ->
  masked_eq nn m ip = true <-> zip_with Z.land nn m = zip_with Z.land ip m.
Proof.
  revert nn ip. induction m as [|c m IH]; intros [|a nn] [|b ip]; try done; intros H1 H2.
  injection H1 as H1. injection H2 as H2. unfold masked_eq in *. cbn.
  rewrite andb_true_iff, Z.eqb_eq, IH by done.
  split; [by intros [-> ->]|by intros [= -> ->]].
Qed.

Lemma masked_eq_trans nn1 nn2 ip k1 k2 :
  length nn2 = length nn1 -> length ip = length nn1 -> (0 <= k1 <= k2)%Z ->
  zip_with Z.land nn1 (cidr_mask (length nn1) k1) = zip_with Z.land ip (cidr_mask (length nn1) k1) ->
  zip_with Z.land nn2 (cidr_mask (length nn1) k2) = zip_with Z.land ip (cidr_mask (length nn1) k2) ->
  zip_with Z.land nn1 (cidr_mask (length nn1) k1) = zip_with Z.land nn2 (cidr_mask (length nn1) k1).
Proof.
  intros Hl2 Hl Hk H1 H2. rewrite H1. rewrite <- (cidr_mask_le _ k1 k2) by done.
  assert (Ha : forall x y z : list Z, zip_with Z.land x (zip_with Z.land y z)
                          = zip_with Z.land (zip_with Z.land x y) z).
  { induction x as [|a x IHx]; intros [|b y] [|c z]; try done. cbn. by rewrite IHx, Z.land_assoc. }
  by rewrite !Ha, H2.
Qed.

Theorem nets_meet n1 n2 :
  good_net n1 -> good_net n2 ->
  net_contains n1 (net_ip n2) || net_contains n2 (net_ip n1) = true
  <-> exists ip, net_contains n1 ip = true /\ net_contains n2 ip = true.
Proof.
  intros (nn1 & k1 & E1 & Hk1 & D1) (nn2 & k2 & E2 & Hk2 & D2).
  assert (Hc : forall n nn k ip, network_number_and_mask n = Some (nn, cidr_mask (length nn) k) ->
    net_contains n ip = true <->
    length (default ip (to4 ip)) = length nn /\
    zip_with Z.land nn (cidr_mask (length nn) k)
      = zip_with Z.land (default ip (to4 ip)) (cidr_mask (length nn) k)).
  { intros n nn k ip E. unfold net_contains. rewrite E, andb_true_iff, Nat.eqb_eq.
    split; intros [Hl H]; (split; [done|]); revert H; apply masked_eq_spec;
      rewrite cidr_mask_length; auto. }
  rewrite orb_true_iff, (Hc n1 nn1 k1), (Hc n2 nn2 k2) by done. rewrite D1, D2. split.
  - intros [[Hl H]|[Hl H]].
    + exists (net_ip n2). rewrite (Hc n1 nn1 k1), (Hc n2 nn2 k2) by done. rewrite D2. auto.
    + exists (net_ip n1). rewrite (Hc n1 nn1 k1), (Hc n2 nn2 k2) by done. rewrite D1. auto.
  - intros (ip & H1 & H2). rewrite (Hc n1 nn1 k1) in H1 by done.
    rewrite (Hc n2 nn2 k2) in H2 by done. destruct H1 as [L1 H1], H2 as [L2 H2].
    assert (L : length nn2 = length nn1) by congruence.
    destruct (Z.le_ge_cases k1 k2).
    + left. split; [done|]. rewrite L in H2.
      eapply (masked_eq_trans _ _ _ k1 k2); [done|exact L1|lia|exact H1|exact H2].
    + right. split; [done|]. rewrite <- L in H1.
      eapply (masked_eq_trans _ _ _ k2 k1); [done|exact L2|lia|exact H2|exact H1].
Qed.
