(* ===== verification/GoText.v ===== *)
(** * More of Go's text functions: strings.ReplaceAll, base64 encoding, strconv's saturation,
    leftmost matches

    Standard library functions the management protocol, the UAPI text and the journals use. *)

From S2P Require Import Prelude GoStrings.

(** strings.ReplaceAll(s, c, r) for a one-byte [c] *)
Fixpoint replace_byte (c : ascii) (r s : string) : string :=
  match s with
  | EmptyString => ""
  | String a s' => (if bool_decide (a = c) then r else String a "") +:+ replace_byte c r s'
  end.

(** The longest prefix of bytes satisfying [p], and the rest. *)
Fixpoint span (p : ascii -> bool) (s : string) : string * string :=
  match s with
  | EmptyString => ("", "")
  | String a s' => if p a then let '(u, v) := span p s' in (String a u, v) else ("", s)
  end.

(** The leftmost match of an unanchored regular expression: [f] tries at one position. *)
Fixpoint find_first {A} (f : string -> option A) (s : string) : option A :=
  match f s with
  | Some a => Some a
  | None => match s with EmptyString => None | String _ s' => find_first f s' end
  end.

(** What follows the prefix [p]. *)
Definition after_prefix (p s : string) : option string :=
  if has_prefix p s then Some (string_drop (String.length p) s) else None.

(** strings.Contains *)
Definition contains (sub s : string) : bool := bool_decide (is_Some (find_first (after_prefix sub) s)).

Definition has_suffix (suf s : string) : bool :=
  has_prefix (string_of (rev (bytes_of suf))) (string_of (rev (bytes_of s))).

(** strings.TrimRight(s, "\r\n") *)
Fixpoint trim_crlf (s : string) : string :=
  match s with
  | EmptyString => ""
  | String a s' =>
      match trim_crlf s' with
      | EmptyString => if bool_decide (a = newline) || bool_decide (a = carriage_return) then ""
                       else String a ""
      | t => String a t
      end
  end.

(** The value strconv.ParseInt(s, 10, 64) returns beside its error: 0 for a syntax error, the
    nearest bound when out of range.  Digits past an overflow are not looked at. *)
Fixpoint digits_value (acc : Z) (s : string) : option Z :=
  match s with
  | EmptyString => Some acc
  | String c s' =>
      match digit_val c with
      | Some d => if negb (d <? 10)%Z then None
                  else if (2 ^ 64 <=? acc * 10 + d)%Z then Some (2 ^ 64 - 1)%Z
                  else digits_value (acc * 10 + d)%Z s'
      | None => None
      end
  end.

Definition parse_int_value (s : string) : Z :=
  let '(neg, body) :=
    match s with
    | String "+" r => (false, r)
    | String "-" r => (true, r)
    | _ => (false, s)
    end in
  match body with
  | EmptyString => 0
  | _ => match digits_value 0 body with
         | None => 0
         | Some v => if (neg : bool) then Z.max (- v) (- 2 ^ 63) else Z.min v (2 ^ 63 - 1)
         end
  end%Z.

(** strings.EqualFold of two ASCII texts: equal in lower case *)
Fixpoint ascii_lower (s : string) : string :=
  match s with
  | EmptyString => ""
  | String c s' => String (lower_byte c) (ascii_lower s')
  end.

(** ** base64.StdEncoding.EncodeToString *)

Definition b64_char (n : Z) : ascii :=
  ascii_of_N (Z.to_N (if n <? 26 then n + 65 else if n <? 52 then n + 71
                      else if n <? 62 then n - 4 else if n =? 62 then 43 else 47)%Z).

Definition byte_val (c : ascii) : Z := Z.of_N (N_of_ascii c).

Fixpoint b64_encode (s : string) : string :=
  match s with
  | EmptyString => ""
  | String a EmptyString =>
      let x := byte_val a in
      String (b64_char (x / 4)) (String (b64_char (x mod 4 * 16)) "==")
  | String a (String b EmptyString) =>
      let x := byte_val a in let y := byte_val b in
      String (b64_char (x / 4)) (String (b64_char (x mod 4 * 16 + y / 16))
        (String (b64_char (y mod 16 * 4)) "="))
  | String a (String b (String c rest)) =>
      let x := byte_val a in let y := byte_val b in let z := byte_val c in
      String (b64_char (x / 4)) (String (b64_char (x mod 4 * 16 + y / 16))
        (String (b64_char (y mod 16 * 4 + z / 64)) (String (b64_char (z mod 64)) (b64_encode rest))))
  end%Z.

(** ** Facts *)

Lemma byte_val_range c : (0 <= byte_val c < 256)%Z.
Proof. unfold byte_val. pose proof (N_ascii_bounded c). lia. Qed.

(** The numbers below [n]. *)
Definition upto (n : nat) : list Z := Z.of_nat <$> seq 0 n.

Lemma upto_forall n (P : Z -> bool) z :
  forallb P (upto n) = true -> (0 <= z < Z.of_nat n)%Z -> P z = true.
Proof.
  intros H Hz. rewrite forallb_forall in H. apply H. apply in_map_iff.
  exists (Z.to_nat z). rewrite in_seq. lia.
Qed.

Definition b64_safe (c : ascii) : bool :=
  negb (byte_is c 10) && negb (byte_is c 13) && negb (bool_decide (c = "="%char))
  && negb (bool_decide (c = ":"%char)).

Definition char_ok (n : Z) : bool :=
  match b64_val (b64_char n) with Some m => (m =? n)%Z && b64_safe (b64_char n) | None => false end.

Lemma b64_char_val n : (0 <= n < 64)%Z -> b64_val (b64_char n) = Some n /\ b64_safe (b64_char n) = true.
Proof.
  intros Hn. assert (H : forallb char_ok (upto 64) = true) by (vm_compute; reflexivity).
  pose proof (upto_forall 64 _ n H Hn) as Hc. unfold char_ok in Hc.
  destruct (b64_val (b64_char n)); [|done]. bool_hyps. by subst.
Qed.

Definition quad_ok (x y : Z) : bool :=
  ((Z.lor (Z.shiftl x 2) (Z.shiftr y 4) =? x * 4 + y / 16)
   && (Z.land 255 (Z.lor (Z.shiftl x 4) (Z.shiftr y 2)) =? x mod 16 * 16 + y / 4)
   && (Z.land 255 (Z.lor (Z.shiftl x 6) y) =? x mod 4 * 64 + y))%Z.

Lemma quad_bits x y : (0 <= x < 64)%Z -> (0 <= y < 64)%Z ->
  Z.lor (Z.shiftl x 2) (Z.shiftr y 4) = (x * 4 + y / 16)%Z
  /\ Z.land 255 (Z.lor (Z.shiftl x 4) (Z.shiftr y 2)) = (x mod 16 * 16 + y / 4)%Z
  /\ Z.land 255 (Z.lor (Z.shiftl x 6) y) = (x mod 4 * 64 + y)%Z.
Proof.
  intros Hx Hy.
  assert (H : forallb (fun x => forallb (quad_ok x) (upto 64)) (upto 64) = true) by (vm_compute; reflexivity).
  pose proof (upto_forall 64 _ x H Hx) as H1. pose proof (upto_forall 64 _ y H1 Hy) as H2.
  unfold quad_ok in H2. bool_hyps. auto.
Qed.

Lemma string_ind3 (P : string -> Prop) :
  P "" -> (forall a, P (String a "")) -> (forall a b, P (String a (String b ""))) ->
  (forall a b c s, P s -> P (String a (String b (String c s)))) -> forall s, P s.
Proof.
  intros H0 H1 H2 H3 s.
  enough (H : P s /\ (forall a, P (String a s)) /\ (forall a b, P (String a (String b s)))) by apply H.
  induction s as [|c s (IH1 & IH2 & IH3)]; [auto|]. split_and!; auto.
Qed.

Lemma b64_char_eq n : (0 <= n < 64)%Z -> b64_char n <> "="%char.
Proof. intros Hn. destruct (b64_char_val n Hn) as [_ H]. unfold b64_safe in H. by bool_hyps. Qed.

Ltac byte_ranges :=
  repeat match goal with
  | |- context [byte_val ?c] =>
      lazymatch goal with
      | _ : (0 <= byte_val c < 256)%Z |- _ => fail
      | _ => pose proof (byte_val_range c)
      end
  end.

Ltac b64_zify := Z.to_euclidean_division_equations; lia.

(** Decoding the encoder's text gives the bytes back. *)
Lemma b64_quanta_encode s : b64_quanta (b64_encode s) = Some (byte_val <$> bytes_of s).
Proof.
  induction s as [|a|a b|a b c s IH] using string_ind3; [done|..]; cbn [b64_encode]; cbv zeta; byte_ranges;
    cbn [b64_quanta String.list_ascii_of_string fmap list_fmap].
  - destruct (b64_char_val (byte_val a / 4)) as [-> _]; [b64_zify|].
    destruct (b64_char_val (byte_val a mod 4 * 16)) as [-> _]; [b64_zify|].
    destruct (quad_bits (byte_val a / 4) (byte_val a mod 4 * 16)) as (-> & _ & _); [b64_zify..|].
    rewrite !bool_decide_true by done. cbn [andb]. do 2 f_equal. b64_zify.
  - destruct (b64_char_val (byte_val a / 4)) as [-> _]; [b64_zify|].
    destruct (b64_char_val (byte_val a mod 4 * 16 + byte_val b / 16)) as [-> _]; [b64_zify|].
    rewrite bool_decide_false by (apply b64_char_eq; b64_zify).
    destruct (b64_char_val (byte_val b mod 16 * 4)) as [-> _]; [b64_zify|].
    destruct (quad_bits (byte_val a / 4) (byte_val a mod 4 * 16 + byte_val b / 16)) as (-> & _ & _); [b64_zify..|].
    destruct (quad_bits (byte_val a mod 4 * 16 + byte_val b / 16) (byte_val b mod 16 * 4)) as (_ & -> & _); [b64_zify..|].
    rewrite !bool_decide_true by done. do 2 f_equal; [b64_zify|]. f_equal. b64_zify.
  - destruct (b64_char_val (byte_val a / 4)) as [-> _]; [b64_zify|].
    destruct (b64_char_val (byte_val a mod 4 * 16 + byte_val b / 16)) as [-> _]; [b64_zify|].
    rewrite bool_decide_false by (apply b64_char_eq; b64_zify).
    destruct (b64_char_val (byte_val b mod 16 * 4 + byte_val c / 64)) as [-> _]; [b64_zify|].
    rewrite bool_decide_false by (apply b64_char_eq; b64_zify).
    destruct (b64_char_val (byte_val c mod 64)) as [-> _]; [b64_zify|]. rewrite IH.
    destruct (quad_bits (byte_val a / 4) (byte_val a mod 4 * 16 + byte_val b / 16)) as (-> & _ & _); [b64_zify..|].
    destruct (quad_bits (byte_val a mod 4 * 16 + byte_val b / 16) (byte_val b mod 16 * 4 + byte_val c / 64)) as (_ & -> & _); [b64_zify..|].
    destruct (quad_bits (byte_val b mod 16 * 4 + byte_val c / 64) (byte_val c mod 64)) as (_ & _ & ->); [b64_zify..|].
    do 2 f_equal; [b64_zify|]. f_equal; [b64_zify|]. f_equal. b64_zify.
Qed.

Definition b64_text (c : ascii) : bool :=
  negb (byte_is c 10) && negb (byte_is c 13) && negb (bool_decide (c = ":"%char)).

Lemma b64_char_text n : (0 <= n < 64)%Z -> b64_text (b64_char n) = true.
Proof.
  intros Hn. destruct (b64_char_val n Hn) as [_ H]. unfold b64_safe, b64_text in *.
  apply andb_prop in H as [[[-> ->]%andb_prop _]%andb_prop ->]. done.
Qed.

Lemma b64_encode_text s : string_forall b64_text (b64_encode s) = true.
Proof.
  induction s as [|a|a b|a b c s IH] using string_ind3; [done|..]; cbn [b64_encode]; cbv zeta; byte_ranges;
    cbn [string_forall]; rewrite ?b64_char_text by b64_zify; done.
Qed.

Lemma drop_newlines_id s :
  string_forall (fun c => negb (byte_is c 10) && negb (byte_is c 13)) s = true -> drop_newlines s = s.
Proof.
  induction s as [|c s IH]; [done|]. cbn [string_forall drop_newlines].
  intros [[H1%negb_true_iff H2%negb_true_iff]%andb_prop Hs]%andb_prop. by rewrite H1, H2, IH.
Qed.

Lemma b64_roundtrip s : b64_decode (b64_encode s) = Some (byte_val <$> bytes_of s).
Proof.
  unfold b64_decode. rewrite drop_newlines_id; [apply b64_quanta_encode|].
  apply (string_forall_impl b64_text); [|apply b64_encode_text].
  intros c [-> _]%andb_prop. done.
Qed.

Lemma b64_encode_no_colon s : contains_byte ":" (b64_encode s) = false.
Proof. apply (string_forall_contains b64_text); [apply b64_encode_text|done]. Qed.

Lemma string_of_byte_vals s : string_of ((fun z => ascii_of_N (Z.to_N z)) <$> (byte_val <$> bytes_of s)) = s.
Proof.
  induction s as [|c s IH]; [done|]. cbn [String.list_ascii_of_string fmap list_fmap].
  cbn [String.string_of_list_ascii]. f_equal; [|exact IH].
  unfold byte_val. rewrite N2Z.id. apply ascii_N_embedding.
Qed.

Lemma replace_byte_app c r s t :
  replace_byte c r (s +:+ t) = replace_byte c r s +:+ replace_byte c r t.
Proof.
  induction s as [|a s IH]; [done|]. rewrite string_app_cons. cbn [replace_byte].
  by rewrite IH, string_app_assoc.
Qed.

Lemma has_prefix_app p s : has_prefix p (p +:+ s) = true.
Proof.
  unfold has_prefix. induction p as [|c p IH]; [by destruct s|].
  rewrite string_app_cons. cbn [String.prefix]. by destruct (ascii_dec c c).
Qed.

Lemma string_take_drop n s : string_take n s +:+ string_drop n s = s.
Proof. revert s. induction n as [|n IH]; intros [|c s]; try done. cbn [string_take string_drop]. by rewrite string_app_cons, IH. Qed.

Lemma string_take_length n s : (n <= String.length s)%nat -> String.length (string_take n s) = n.
Proof. revert s. induction n as [|n IH]; intros [|c s] H; cbn in *; try lia. rewrite IH; lia. Qed.

Lemma has_suffix_app s t : has_suffix t (s +:+ t) = true.
Proof.
  unfold has_suffix. rewrite bytes_of_app, rev_app_distr.
  assert (E : string_of (rev (bytes_of t) ++ rev (bytes_of s)) = string_of (rev (bytes_of t)) +:+ string_of (rev (bytes_of s))).
  { apply bytes_of_inj. by rewrite bytes_of_app, !bytes_of_string. }
  rewrite E. apply has_prefix_app.
Qed.

Lemma string_drop_app p s : string_drop (String.length p) (p +:+ s) = s.
Proof. induction p as [|c p IH]; [by destruct s|]. rewrite string_app_cons. exact IH. Qed.

Lemma after_prefix_app p s : after_prefix p (p +:+ s) = Some s.
Proof. unfold after_prefix. by rewrite has_prefix_app, string_drop_app. Qed.

Lemma after_prefix_Some p s t : after_prefix p s = Some t -> s = p +:+ t.
Proof.
  unfold after_prefix, has_prefix. revert s. induction p as [|c p IH]; intros s.
  { intros H. rewrite string_app_nil. destruct s; cbn in H; by injection H. }
  destruct s as [|a s]; [done|]. cbn [String.prefix String.length string_drop].
  destruct (ascii_dec c a) as [->|?]; [|done]. intros H. rewrite string_app_cons. f_equal. by apply IH.
Qed.

(** ** Go's path/filepath on Unix: Clean, Join, Dir, Base, Ext, IsAbs *)

Definition slash : ascii := "/"%char.

(** One element of the path against the elements kept so far, the last one first. *)
Definition clean_elem (rooted : bool) (out : list string) (e : string) : list string :=
  if (e =s "") || (e =s ".") then out
  else if e =s ".." then
    match out with
    | last :: out' => if last =s ".." then ".." :: out else out'
    | [] => if rooted then [] else [".."]
    end
  else e :: out.

Definition is_abs (path : string) : bool := has_prefix "/" path.

Definition path_clean (path : string) : string :=
  let rooted := is_abs path in
  let body := join "/" (rev (foldl (clean_elem rooted) [] (split_byte slash path))) in
  if rooted then "/" +:+ body else if body =s "" then "." else body.

(** filepath.Join of two elements *)
Definition path_join (a b : string) : string :=
  if a =s "" then if b =s "" then "" else path_clean b else path_clean (a +:+ "/" +:+ b).

Definition path_dir (path : string) : string :=
  match cut_last_byte slash path with
  | Some (dir, _) => path_clean (dir +:+ "/")
  | None => "."
  end.

(** The path without its trailing slashes. *)
Fixpoint trim_slashes (s : string) : string :=
  match s with
  | EmptyString => ""
  | String c s' => let t := trim_slashes s' in if bool_decide (c = slash) && (t =s "") then "" else String c t
  end.

Definition path_base (path : string) : string :=
  if path =s "" then "."
  else let p := trim_slashes path in
       let b := match cut_last_byte slash p with Some (_, b) => b | None => p end in
       if b =s "" then "/" else b.

Definition path_ext (path : string) : string :=
  let b := match cut_last_byte slash path with Some (_, b) => b | None => path end in
  match cut_last_byte "." b with Some (_, e) => "." +:+ e | None => "" end.

Example clean_dots : path_clean "/a/./b/../../c//d/" = "/c/d". Proof. vm_compute. reflexivity. Qed.
Example clean_up : path_clean "../x/../../y" = "../../y". Proof. vm_compute. reflexivity. Qed.
Example base_slashes : path_base "/a/b.conf//" = "b.conf" /\ path_base "//" = "/". Proof. vm_compute. done. Qed.
Example ext_dir : path_ext "a.b/c" = "" /\ path_ext "a/c.tar.gz" = ".gz" /\ path_ext "x." = ".". Proof. vm_compute. done. Qed.
Example dir_join : path_join (path_dir "/A.app/Contents/MacOS/lockplus-helper") "openvpn" = "/A.app/Contents/MacOS/openvpn".
Proof. vm_compute. reflexivity. Qed.
