(* ===== verification/Domain.v ===== *)
(** * The value types shared by every package: internal/domain *)

From S2P Require Import Prelude GoStrings GoNet.

(** ** config.go: a parsed configuration file *)

Record InterfaceConfig := MkInterface {
  PrivateKey : string;
  Address : list string;
  DNS : list string;
  MTU : Z;
  ListenPort : Z;
  Table : string;
  FwMark : string;
  PreUp : string;
  PostUp : string;
  PreDown : string;
  PostDown : string;
  IfExtraKeys : gmap string string
}.

#[export] Instance eta_interface : Eta InterfaceConfig := fun r =>
  MkInterface (PrivateKey r) (Address r) (DNS r) (MTU r) (ListenPort r) (Table r) (FwMark r)
    (PreUp r) (PostUp r) (PreDown r) (PostDown r) (IfExtraKeys r).

Record PeerConfig := MkPeer {
  PublicKey : string;
  PresharedKey : string;
  Endpoint : string;
  AllowedIPs : list string;
  PersistentKeepalive : Z;
  PeerExtraKeys : gmap string string
}.

#[export] Instance eta_peer : Eta PeerConfig := fun r =>
  MkPeer (PublicKey r) (PresharedKey r) (Endpoint r) (AllowedIPs r) (PersistentKeepalive r)
    (PeerExtraKeys r).

Record WireGuardConfig := MkConfig {
  Name : string;
  Interface : InterfaceConfig;
  Peers : list PeerConfig
}.

#[export] Instance eta_config : Eta WireGuardConfig := fun r =>
  MkConfig (Name r) (Interface r) (Peers r).

(** The zero values [InterfaceConfig{}], [PeerConfig{}] and [WireGuardConfig{}]. *)
Definition zero_interface : InterfaceConfig :=
  MkInterface "" [] [] 0 0 "" "" "" "" "" "" ∅.
Definition zero_peer : PeerConfig := MkPeer "" "" "" [] 0 ∅.
Definition zero_config : WireGuardConfig := MkConfig "" zero_interface [].

#[export] Instance interface_eq_dec : EqDecision InterfaceConfig.
Proof. solve_decision. Defined.
#[export] Instance peer_eq_dec : EqDecision PeerConfig.
Proof. solve_decision. Defined.
#[export] Instance config_eq_dec : EqDecision WireGuardConfig.
Proof. solve_decision. Defined.

Definition HasScripts (c : WireGuardConfig) : bool :=
  negb (PreUp (Interface c) =s "") || negb (PostUp (Interface c) =s "")
  || negb (PreDown (Interface c) =s "") || negb (PostDown (Interface c) =s "").

(** A CIDR that routes everything: 0.0.0.0/0 or ::/0. *)
Definition full_route (ip : string) : bool :=
  match parse_cidr ip with
  | None => false
  | Some (_, cidr) =>
      let '(ones, bits) := mask_size (net_mask cidr) in
      (ones =? 0)%Z && ((bits =? 32) || (bits =? 128))%Z
  end.

Definition IsFullTunnel (c : WireGuardConfig) : bool :=
  existsb (fun peer => existsb full_route (AllowedIPs peer)) (Peers c).

(** ** status.go: connection states and durations *)

(** The four wire states and the manager's internal stateDisconnecting. *)
Inductive State :=
| StateDisconnected | StateConnecting | StateConnected | StateError | stateDisconnecting.

#[export] Instance state_eq_dec : EqDecision State.
Proof. solve_decision. Defined.

(** Two's complement int64. *)
Definition wrap64 (z : Z) : Z := ((z + 2 ^ 63) mod 2 ^ 64 - 2 ^ 63)%Z.

Definition time_second : Z := 1000000000.
Definition time_minute : Z := 60 * time_second.
Definition time_hour : Z := 60 * time_minute.
Definition max_duration : Z := 2 ^ 63 - 1.

(** Duration.Round of a non-negative duration: halves away from zero, saturating. *)
Definition duration_round (d m : Z) : Z :=
  let r := (d mod m)%Z in
  if (r + r <? m)%Z then (d - r)%Z
  else let d1 := wrap64 (d + m - r) in
       if (d <? d1)%Z then d1 else max_duration.

Definition FormatDuration (d : Z) : string :=
  let d := if (d <? 0)%Z then 0%Z else d in
  let d := duration_round d time_second in
  let h := (d / time_hour)%Z in
  let m := ((d / time_minute) mod 60)%Z in
  let s := ((d / time_second) mod 60)%Z in
  if (0 <? h)%Z then itoa h +:+ "h " +:+ itoa m +:+ "m " +:+ itoa s +:+ "s"
  else if (0 <? m)%Z then itoa m +:+ "m " +:+ itoa s +:+ "s"
  else itoa s +:+ "s".

(** ** tunnel.go: the VPN protocol of a tunnel *)

Definition Protocol := string.
Definition ProtocolWireGuard : Protocol := "wireguard".
Definition ProtocolOpenVPN : Protocol := "openvpn".

Definition NormalizeProtocol (p : Protocol) : Protocol :=
  if p =s "" then ProtocolWireGuard else p.

(** ** status.go: ConnectionStatus

    Times are nanoseconds, 0 being the zero time.  The zero value of [State] is the empty string,
    which no constructor of [State] is: [zero_status] has StateDisconnected there, and statusDTO,
    the one function that returns it, says so by [None]. *)

Inductive ConnectionStatus := MkStatus {
  cs_State : State; cs_TunnelName : string; cs_InterfaceName : string; cs_ConnectedAt : Z;
  cs_Duration : string; cs_RxBytes : Z; cs_TxBytes : Z; cs_LastHandshakeTime : Z;
  cs_LastHandshake : string; cs_HasHandshake : bool; cs_Endpoint : string;
  cs_ErrorMessage : string; cs_KillSwitchBlocked : bool; cs_Terminal : bool;
  cs_Protocol : Protocol; cs_Address : string; cs_Cipher : string; cs_DNSServers : list string;
  cs_ActiveTunnels : list string; cs_Tunnels : list ConnectionStatus }.

#[export] Instance eta_status : Eta ConnectionStatus := fun r =>
  MkStatus (cs_State r) (cs_TunnelName r) (cs_InterfaceName r) (cs_ConnectedAt r) (cs_Duration r)
    (cs_RxBytes r) (cs_TxBytes r) (cs_LastHandshakeTime r) (cs_LastHandshake r) (cs_HasHandshake r)
    (cs_Endpoint r) (cs_ErrorMessage r) (cs_KillSwitchBlocked r) (cs_Terminal r) (cs_Protocol r)
    (cs_Address r) (cs_Cipher r) (cs_DNSServers r) (cs_ActiveTunnels r) (cs_Tunnels r).

Definition zero_status : ConnectionStatus :=
  MkStatus StateDisconnected "" "" 0 "" 0 0 0 "" false "" "" false false "" "" "" [] [] [].
