(* ===== verification/Config.v ===== *)
(** * Reading and writing WireGuard .conf files: internal/config/parser.go

    [Parse] scans the text line by line ([scan_tokens] is bufio.Scanner with ScanLines and its
    64 KiB limit), [parse_token] is the body of the loop, [Serialize] writes the text back. *)

From S2P Require Import Prelude GoStrings GoNet Domain.

(** ** Lists of values *)

Definition splitAndTrim (s : string) : list string :=
  filter (fun p => p <> "") (trim_space <$> split_byte "," s).

(** The entry of splitPrefixes: a bare IP gets its host prefix length. *)
Definition complete_prefix (v : string) : string :=
  if contains_byte "/" v then v
  else match parse_ip v with
       | None => v
       | Some ip => match to4 ip with
                    | Some _ => v +:+ "/32"
                    | None => v +:+ "/128"
                    end
       end.

Definition splitPrefixes (s : string) : list string := complete_prefix <$> splitAndTrim s.

(** ** Values of repeated keys, joined by a NUL byte *)

Definition scriptSeparator : string := String nul "".

Definition appendScriptLine (existing value : string) : string :=
  if existing =s "" then value else existing +:+ scriptSeparator +:+ value.

Definition addExtraKey (m : gmap string string) (key value : string) : gmap string string :=
  let value := match m !! key with
               | Some old => old +:+ scriptSeparator +:+ value
               | None => value
               end in
  <[key := value]> m.

(** ** Parsing *)

Inductive ParseError :=
| ErrSyntax (line : Z)
| ErrOutsideSection (line : Z) (key : string)
| ErrOutsideAnySection (line : Z) (key : string)
| ErrInvalidMTU (line : Z) (value : string)
| ErrInvalidListenPort (line : Z) (value : string)
| ErrInvalidKeepalive (line : Z) (value : string)
| ErrTooLong
| ErrNoPrivateKey.

Definition parseInterfaceKey (iface : InterfaceConfig) (key value : string) (lineNum : Z)
    : result ParseError InterfaceConfig :=
  let k := to_lower key in
  if k =s "privatekey" then Ok (iface <| PrivateKey := value |>)
  else if k =s "address" then
    Ok (iface <| Address ::= (fun l => l ++ splitPrefixes value) |>)
  else if k =s "dns" then Ok (iface <| DNS ::= (fun l => l ++ splitAndTrim value) |>)
  else if k =s "mtu" then
    match atoi value with
    | None => Err (ErrInvalidMTU lineNum value)
    | Some n => Ok (iface <| MTU := n |>)
    end
  else if k =s "listenport" then
    match atoi value with
    | None => Err (ErrInvalidListenPort lineNum value)
    | Some n => Ok (iface <| ListenPort := n |>)
    end
  else if k =s "table" then Ok (iface <| Table := value |>)
  else if k =s "fwmark" then Ok (iface <| FwMark := value |>)
  else if k =s "preup" then Ok (iface <| PreUp ::= (fun e => appendScriptLine e value) |>)
  else if k =s "postup" then Ok (iface <| PostUp ::= (fun e => appendScriptLine e value) |>)
  else if k =s "predown" then
    Ok (iface <| PreDown ::= (fun e => appendScriptLine e value) |>)
  else if k =s "postdown" then
    Ok (iface <| PostDown ::= (fun e => appendScriptLine e value) |>)
  else Ok (iface <| IfExtraKeys ::= (fun m => addExtraKey m key value) |>).

Definition parsePeerKey (peer : PeerConfig) (key value : string) (lineNum : Z)
    : result ParseError PeerConfig :=
  let k := to_lower key in
  if k =s "publickey" then Ok (peer <| PublicKey := value |>)
  else if k =s "presharedkey" then Ok (peer <| PresharedKey := value |>)
  else if k =s "endpoint" then Ok (peer <| Endpoint := value |>)
  else if k =s "allowedips" then
    Ok (peer <| AllowedIPs ::= (fun l => l ++ splitPrefixes value) |>)
  else if k =s "persistentkeepalive" then
    match atoi value with
    | None => Err (ErrInvalidKeepalive lineNum value)
    | Some n => Ok (peer <| PersistentKeepalive := n |>)
    end
  else Ok (peer <| PeerExtraKeys ::= (fun m => addExtraKey m key value) |>).

(** The locals of Parse: cfg, currentSection and currentPeer (an index into cfg.Peers; the
    Go pointer always points to the last element, which is re-taken at every append). *)
Inductive Section_ := SecNone | SecInterface | SecPeer.

Record ParseState := MkParseState {
  ps_cfg : WireGuardConfig;
  ps_section : Section_;
  ps_peer : option nat
}.

Definition init_parse : ParseState := MkParseState zero_config SecNone None.

(** What remains of a scanned line: the comment is cut, the white space trimmed. *)
Definition strip_line (text : string) : string :=
  let line := match cut_byte "#" text with
              | Some (u, _) => u
              | None => text
              end in
  trim_space line.

Definition parse_key (st : ParseState) (key value : string) (lineNum : Z)
    : result ParseError ParseState :=
  let cfg := ps_cfg st in
  match ps_section st with
  | SecInterface =>
      let? i := parseInterfaceKey (Interface cfg) key value lineNum in
      Ok (MkParseState (MkConfig (Name cfg) i (Peers cfg)) SecInterface (ps_peer st))
  | SecPeer =>
      match ps_peer st with
      | None => Err (ErrOutsideSection lineNum key)
      | Some n =>
          match Peers cfg !! n with
          | None => Err (ErrOutsideSection lineNum key)
          | Some p =>
              let? p' := parsePeerKey p key value lineNum in
              Ok (MkParseState (MkConfig (Name cfg) (Interface cfg) (<[n := p']> (Peers cfg)))
                    SecPeer (Some n))
          end
      end
  | SecNone => Err (ErrOutsideAnySection lineNum key)
  end.

(** The body of the scan loop, for one line. *)
Definition parse_token (st : ParseState) (lineNum : Z) (text : string)
    : result ParseError ParseState :=
  let line := strip_line text in
  if (line =s "") || has_prefix ";" line then Ok st
  else if to_lower line =s "[interface]" then
    Ok (MkParseState (ps_cfg st) SecInterface (ps_peer st))
  else if to_lower line =s "[peer]" then
    let cfg := ps_cfg st in
    Ok (MkParseState (MkConfig (Name cfg) (Interface cfg) (Peers cfg ++ [zero_peer]))
          SecPeer (Some (length (Peers cfg))))
  else
    match cut_byte "=" line with
    | None => Err (ErrSyntax lineNum)
    | Some (a, b) => parse_key st (trim_space a) (trim_space b) lineNum
    end.

Fixpoint parse_tokens (st : ParseState) (lineNum : Z) (ts : list string)
    : result ParseError ParseState :=
  match ts with
  | [] => Ok st
  | t :: ts' =>
      let? st' := parse_token st (lineNum + 1)%Z t in
      parse_tokens st' (lineNum + 1)%Z ts'
  end.

(** bufio.ScanLines: one trailing CR is dropped. *)
Definition drop_cr (s : string) : string :=
  match reverse (String.list_ascii_of_string s) with
  | c :: r => if bool_decide (c = carriage_return)
              then String.string_of_list_ascii (reverse r) else s
  | [] => s
  end.

(** The lines of a text without their newline; an empty last one is not a line. *)
Fixpoint raw_lines (s : string) : list string :=
  match s with
  | EmptyString => []
  | String c s' =>
      if bool_decide (c = newline) then "" :: raw_lines s'
      else match raw_lines s' with
           | h :: t => String c h :: t
           | [] => [String c ""]
           end
  end.

(** bufio.MaxScanTokenSize is 64 KiB for the line with its newline. *)
Definition line_fits (raw : string) : bool := (N.of_nat (String.length raw) <=? 65535)%N.

(** The tokens scanned before the end or before a line that is too long. *)
Fixpoint scan_tokens (raws : list string) : list string * bool :=
  match raws with
  | [] => ([], false)
  | r :: rs =>
      if line_fits r then
        let '(ts, e) := scan_tokens rs in (drop_cr r :: ts, e)
      else ([], true)
  end.

(** The UTF-8 byte order mark. *)
Definition bom : string := String "239" (String "187" (String "191" "")).

Definition Parse (content : string) : result ParseError WireGuardConfig :=
  let content := trim_prefix bom content in
  let '(ts, toolong) := scan_tokens (raw_lines content) in
  let? st := parse_tokens init_parse 0 ts in
  if toolong : bool then Err ErrTooLong
  else if PrivateKey (Interface (ps_cfg st)) =s "" then Err ErrNoPrivateKey
  else Ok (ps_cfg st).

(** ** Writing *)

Definition nl : string := String newline "".

Definition key_line (key value : string) : string := key +:+ " = " +:+ value +:+ nl.

Definition writeScriptLines (key value : string) : string :=
  if value =s "" then ""
  else join "" (key_line key <$> split_byte nul value).

Definition writeExtraKeys (m : gmap string string) : string :=
  join "" ((fun k => writeScriptLines k (default "" (m !! k))) <$> sorted_keys m).

Definition opt_line (key value : string) : string :=
  if value =s "" then "" else key_line key value.

Definition opt_list_line (key : string) (l : list string) : string :=
  if (0 <? length l)%nat then key_line key (join ", " l) else "".

Definition opt_int_line (key : string) (n : Z) : string :=
  if (0 <? n)%Z then key_line key (itoa n) else "".

Definition serialize_interface (i : InterfaceConfig) : string :=
  "[Interface]" +:+ nl
  +:+ key_line "PrivateKey" (PrivateKey i)
  +:+ opt_list_line "Address" (Address i)
  +:+ opt_list_line "DNS" (DNS i)
  +:+ opt_int_line "MTU" (MTU i)
  +:+ opt_int_line "ListenPort" (ListenPort i)
  +:+ opt_line "Table" (Table i)
  +:+ opt_line "FwMark" (FwMark i)
  +:+ writeScriptLines "PreUp" (PreUp i)
  +:+ writeScriptLines "PostUp" (PostUp i)
  +:+ writeScriptLines "PreDown" (PreDown i)
  +:+ writeScriptLines "PostDown" (PostDown i)
  +:+ writeExtraKeys (IfExtraKeys i).

Definition serialize_peer (p : PeerConfig) : string :=
  nl +:+ "[Peer]" +:+ nl
  +:+ key_line "PublicKey" (PublicKey p)
  +:+ opt_line "PresharedKey" (PresharedKey p)
  +:+ opt_line "Endpoint" (Endpoint p)
  +:+ opt_list_line "AllowedIPs" (AllowedIPs p)
  +:+ opt_int_line "PersistentKeepalive" (PersistentKeepalive p)
  +:+ writeExtraKeys (PeerExtraKeys p).

Definition Serialize (cfg : WireGuardConfig) : string :=
  serialize_interface (Interface cfg) +:+ join "" (serialize_peer <$> Peers cfg).
