(* ===== verification/ConfigRoundtrip.v ===== *)
(** * Writing a configuration and reading it back

    [wf_config] is the set of configurations the text format can carry; [Parse_Serialize] shows
    that each of them survives [Serialize] followed by [Parse], and [Parse_wf] that what [Parse]
    accepts is such a configuration up to the four losses it lists. *)

From S2P Require Import Prelude GoStrings GoNet Domain Config.

(** ** Representable configurations *)

(** No comment character, no newline, no white space at the ends. *)
Definition clean (v : string) : bool :=
  tight v && negb (contains_byte "#" v) && negb (contains_byte newline v).

Definition clean_key (k : string) : bool :=
  clean k && negb (contains_byte "=" k) && negb (has_prefix ";" k).

Definition nonempty (s : string) : bool := negb (s =s "").

Definition wf_items (l : list string) : bool :=
  forallb (fun v => clean v && nonempty v && negb (contains_byte "," v)) l.

Definition wf_prefixes (l : list string) : bool :=
  wf_items l && forallb (fun v => complete_prefix v =s v) l.

Definition wf_script (s : string) : bool :=
  (s =s "") || forallb clean (split_byte nul s) && nonempty (hd "" (split_byte nul s)).

Definition interface_keys : list string :=
  ["privatekey"; "address"; "dns"; "mtu"; "listenport"; "table"; "fwmark"; "preup"; "postup";
   "predown"; "postdown"].

Definition peer_keys : list string :=
  ["publickey"; "presharedkey"; "endpoint"; "allowedips"; "persistentkeepalive"].

Definition known (keys : list string) (k : string) : bool :=
  existsb (fun k' => to_lower k =s k') keys.

Definition wf_extra (keys : list string) (m : gmap string string) : bool :=
  forallb (fun '(k, v) =>
             clean_key k && negb (known keys k) && nonempty v
             && forallb clean (split_byte nul v)) (map_to_list m).

Definition wf_int (n : Z) : bool := ((0 <=? n) && (n <? 2 ^ 63))%Z.

Definition wf_interface (i : InterfaceConfig) : bool :=
  clean (PrivateKey i) && nonempty (PrivateKey i)
  && wf_prefixes (Address i) && wf_items (DNS i) && wf_int (MTU i) && wf_int (ListenPort i)
  && clean (Table i) && clean (FwMark i)
  && wf_script (PreUp i) && wf_script (PostUp i) && wf_script (PreDown i)
  && wf_script (PostDown i) && wf_extra interface_keys (IfExtraKeys i).

Definition wf_peer (p : PeerConfig) : bool :=
  clean (PublicKey p) && clean (PresharedKey p) && clean (Endpoint p)
  && wf_prefixes (AllowedIPs p) && wf_int (PersistentKeepalive p)
  && wf_extra peer_keys (PeerExtraKeys p).

(** No line of the written text is longer than the scanner accepts. *)
Definition lines_fit (cfg : WireGuardConfig) : bool :=
  forallb line_fits (raw_lines (Serialize cfg)).

Definition wf_config (cfg : WireGuardConfig) : bool :=
  (Name cfg =s "") && wf_interface (Interface cfg) && forallb wf_peer (Peers cfg)
  && lines_fit cfg.

(** ** One written line *)

Definition line_text (key value : string) : string := key +:+ " = " +:+ value.

Lemma clean_spec v :
  clean v = true <->
  tight v = true /\ contains_byte "#" v = false /\ contains_byte newline v = false.
Proof. unfold clean. rewrite !andb_true_iff, !negb_true_iff. tauto. Qed.

Lemma clean_key_spec k :
  clean_key k = true <->
  clean k = true /\ contains_byte "=" k = false /\ has_prefix ";" k = false.
Proof. unfold clean_key. rewrite !andb_true_iff, !negb_true_iff. tauto. Qed.

Lemma line_text_bytes k v :
  bytes_of (line_text k v) = bytes_of k ++ " "%char :: "="%char :: " "%char :: bytes_of v.
Proof. unfold line_text. by rewrite !bytes_of_app. Qed.

(** Trimming such a line only removes blanks around an empty key or value. *)
Lemma trim_line_text k v :
  tight k = true -> tight v = true ->
  trim_space (line_text k v) =
    (if k =s "" then "" else k +:+ " ") +:+ "=" +:+ (if v =s "" then "" else " " +:+ v).
Proof.
  intros [Hk1 Hk2]%tight_spec [Hv1 Hv2]%tight_spec. apply bytes_of_inj.
  rewrite bytes_trim_space, line_text_bytes, !bytes_of_app.
  assert (HL : trim_front false (bytes_of k ++ " "%char :: "="%char :: " "%char :: bytes_of v)
     = bytes_of (if k =s "" then "" else k +:+ " ") ++ "="%char :: " "%char :: bytes_of v).
  { case_bool_decide as E; [subst k; cbn [String.list_ascii_of_string app]|].
    - rewrite trim_front_space by done. apply trim_front_fix. by apply starts_space_solid.
    - rewrite bytes_of_app, <- app_assoc. apply trim_front_fix. cbn [String.list_ascii_of_string app].
      apply starts_space_ascii; [|done|done]. by destruct k. }
  rewrite HL. clear HL. generalize (bytes_of (if k =s "" then "" else k +:+ " ")). intros u.
  rewrite !reverse_app, !reverse_cons, <- !app_assoc. cbn [app].
  case_bool_decide as E; [subst v; cbn [String.list_ascii_of_string reverse app]|].
  - rewrite reverse_nil. cbn [app]. rewrite trim_front_space by done.
    rewrite trim_front_fix by (by apply starts_space_solid).
    by rewrite reverse_cons, reverse_involutive.
  - rewrite trim_front_fix.
    + rewrite !reverse_app, !reverse_cons, !reverse_involutive, <- !app_assoc. done.
    + apply starts_space_ascii; [|done|done].
      intros H%(f_equal reverse). rewrite reverse_involutive in H. by destruct v.
Qed.

Lemma line_no_byte c k v :
  c <> " "%char -> c <> "="%char ->
  contains_byte c k = false -> contains_byte c v = false -> contains_byte c (line_text k v) = false.
Proof.
  intros H1 H2 Hk Hv. unfold line_text. rewrite !contains_byte_app, Hk, Hv. cbn.
  by rewrite !bool_decide_false by congruence.
Qed.

(** Scanning returns the line unchanged. *)
Lemma drop_cr_line k v : tight v = true -> drop_cr (line_text k v) = line_text k v.
Proof.
  intros [_ Hv]%tight_spec. unfold drop_cr. rewrite line_text_bytes.
  rewrite !reverse_app, !reverse_cons. revert Hv.
  destruct (reverse (bytes_of v)) as [|c r]; [done|]. intros Hv. cbn [app].
  rewrite bool_decide_false; [done|]. intros ->.
  by destruct r as [|d [|e r]].
Qed.

(** The loop body sees the key and the value that were written. *)
Lemma parse_token_line st n k v :
  clean_key k = true -> clean v = true ->
  parse_token st n (drop_cr (line_text k v)) = parse_key st k v n.
Proof.
  intros (Hk & Hke & Hks)%clean_key_spec Hv.
  apply clean_spec in Hk as (Hkt & Hkc & _). apply clean_spec in Hv as (Hvt & Hvc & _).
  rewrite drop_cr_line by done. unfold parse_token, strip_line.
  rewrite cut_byte_None by (by apply line_no_byte).
  rewrite trim_line_text by done.
  set (a := if k =s "" then "" else k +:+ " ").
  set (b := if v =s "" then "" else " " +:+ v).
  assert (Ha : contains_byte "=" a = false).
  { unfold a. case_bool_decide; [done|]. by rewrite contains_byte_app, Hke. }
  assert (Hcut : cut_byte "=" (a +:+ "=" +:+ b) = Some (a, b)).
  { change ("=" +:+ b) with (String "=" b). by apply cut_byte_app. }
  assert (Hin : contains_byte "=" (a +:+ "=" +:+ b) = true).
  { rewrite !contains_byte_app. cbn. by rewrite orb_true_r. }
  assert (Hhdr : forall h, contains_byte "=" h = false ->
            bool_decide (to_lower (a +:+ "=" +:+ b) = h) = false).
  { intros h Hh. apply bool_decide_eq_false. intros E.
    rewrite <- E, to_lower_contains_eq in Hh. congruence. }
  rewrite !Hhdr by done. rewrite Hcut.
  rewrite bool_decide_false by (intros E; by rewrite E in Hin).
  assert (Hsemi : has_prefix ";" (a +:+ "=" +:+ b) = false).
  { unfold a. case_bool_decide as E; [done|].
    destruct k as [|c k']; [done|]. clear -Hks. rewrite !string_app_cons.
    unfold has_prefix in *. cbn [String.prefix] in *.
    destruct (ascii_dec ";" c); [|done]. by destruct k'. }
  rewrite Hsemi. cbn [orb]. f_equal.
  - unfold a. case_bool_decide as E; [by subst|]. by apply trim_space_right_blank.
  - unfold b. case_bool_decide as E; [by subst|].
    change (" " +:+ v) with (String " " v). rewrite trim_space_left_blank by done.
    by apply trim_space_fix.
Qed.

(** ** Texts and the states they lead to

    [carries st t st']: the lines of [t] (which ends with a newline) take the loop from [st] to
    [st'], whatever line number it is at. *)

Definition emits (t : string) (ls : list string) : Prop :=
  forall rest, raw_lines (t +:+ rest) = ls ++ raw_lines rest.

Definition runs (st : ParseState) (ts : list string) (st' : ParseState) : Prop :=
  forall n, parse_tokens st n ts = Ok st'.

Definition carries (st : ParseState) (t : string) (st' : ParseState) : Prop :=
  exists ls, emits t ls /\ runs st (drop_cr <$> ls) st'.

Lemma raw_lines_line u rest :
  contains_byte newline u = false ->
  raw_lines (u +:+ String newline rest) = u :: raw_lines rest.
Proof.
  induction u as [|c u IH]; str_simpl; intros H.
  - by rewrite bool_decide_true.
  - apply orb_false_elim in H as [-> H]. by rewrite IH.
Qed.

Lemma emits_line u : contains_byte newline u = false -> emits (u +:+ nl) [u].
Proof. intros H rest. rewrite string_app_assoc. by apply raw_lines_line. Qed.

Lemma parse_tokens_app st n a b st1 :
  parse_tokens st n a = Ok st1 ->
  parse_tokens st n (a ++ b) = parse_tokens st1 (n + Z.of_nat (length a))%Z b.
Proof.
  revert st n. induction a as [|t a IH]; cbn; intros st n H.
  - injection H as ->. by rewrite Z.add_0_r.
  - destruct (parse_token st (n + 1) t) as [st2|e]; cbn in *; [|done].
    rewrite (IH _ _ H). f_equal. lia.
Qed.

Lemma runs_app st a st1 b st2 : runs st a st1 -> runs st1 b st2 -> runs st (a ++ b) st2.
Proof. intros Ha Hb n. by rewrite (parse_tokens_app _ _ _ _ _ (Ha n)). Qed.

Lemma carries_nil st : carries st "" st.
Proof. exists []. split; [by intros ?|by intros ?]. Qed.

Lemma carries_app st t1 st1 t2 st2 :
  carries st t1 st1 -> carries st1 t2 st2 -> carries st (t1 +:+ t2) st2.
Proof.
  intros (l1 & E1 & R1) (l2 & E2 & R2). exists (l1 ++ l2). split.
  - intros rest. rewrite string_app_assoc, E1, E2. by rewrite app_assoc.
  - rewrite fmap_app. by eapply runs_app.
Qed.

Lemma carries_key st k v st' :
  clean_key k = true -> clean v = true ->
  (forall n, parse_key st k v n = Ok st') -> carries st (key_line k v) st'.
Proof.
  intros Hk Hv Hp. exists [line_text k v]. split.
  - replace (key_line k v) with (line_text k v +:+ nl)
      by (unfold line_text, key_line; by rewrite !string_app_assoc).
    apply emits_line.
    apply clean_key_spec in Hk as (Hk & _). apply clean_spec in Hk, Hv.
    by apply line_no_byte; destruct_and!.
  - intros n. cbn. rewrite parse_token_line by done. by rewrite Hp.
Qed.

Lemma carries_opt st k v st' :
  clean_key k = true -> clean v = true ->
  (v = "" -> st' = st) -> (forall n, parse_key st k v n = Ok st') ->
  carries st (opt_line k v) st'.
Proof.
  intros Hk Hv H0 Hp. unfold opt_line. case_bool_decide as E.
  - rewrite (H0 E). apply carries_nil.
  - by apply carries_key.
Qed.

Lemma itoa_clean n : (0 < n)%Z -> clean (itoa n) = true.
Proof.
  intros H. apply itoa_decimal in H. apply clean_spec. split_and!.
  - apply solid_tight. by apply (string_forall_impl decimal solid _ decimal_solid).
  - by apply (string_forall_contains decimal).
  - by apply (string_forall_contains decimal).
Qed.

Lemma carries_int st k n st' :
  clean_key k = true -> wf_int n = true ->
  (n = 0%Z -> st' = st) -> (forall l v, atoi v = Some n -> parse_key st k v l = Ok st') ->
  carries st (opt_int_line k n) st'.
Proof.
  unfold wf_int. intros Hk Hn H0 Hp. bool_hyps. unfold opt_int_line.
  destruct (Z.ltb_spec 0 n).
  - apply carries_key; [done|by apply itoa_clean|]. intros l. apply Hp, atoi_itoa. lia.
  - rewrite H0 by lia. apply carries_nil.
Qed.

(** *** Lists joined with a comma *)

Lemma trim_split_blank s :
  trim_space <$> split_byte "," (String " " s) = trim_space <$> split_byte "," s.
Proof.
  cbn [split_byte]. rewrite bool_decide_false by done.
  destruct (split_byte "," s) as [|h t] eqn:E; [by destruct (split_byte_ne "," s)|].
  rewrite !fmap_cons. by rewrite trim_space_left_blank.
Qed.

Lemma wf_items_spec l :
  wf_items l = true <->
  forall v, v ∈ l -> clean v = true /\ v <> "" /\ contains_byte "," v = false.
Proof.
  unfold wf_items, nonempty. rewrite forallb_true_iff.
  split; intros H v Hv; specialize (H v Hv).
  - rewrite !andb_true_iff, !negb_true_iff, bool_decide_eq_false in H. tauto.
  - rewrite !andb_true_iff, !negb_true_iff, bool_decide_eq_false. tauto.
Qed.

Lemma wf_items_cons x l :
  wf_items (x :: l) = true ->
  clean x = true /\ x <> "" /\ contains_byte "," x = false /\ wf_items l = true.
Proof.
  rewrite !wf_items_spec. intros H. destruct (H x) as (? & ? & ?); [by left|].
  split_and!; [done..|]. intros v Hv. apply H. by right.
Qed.

Lemma splitAndTrim_join l : l <> [] -> wf_items l = true -> splitAndTrim (join ", " l) = l.
Proof.
  intros _ H. unfold splitAndTrim.
  assert (G : l <> [] -> trim_space <$> split_byte "," (join ", " l) = l).
  { induction l as [|x [|y l] IH]; intros Hl; [done| |].
    - apply wf_items_cons in H as (Hc & Hx & Hcomma & _). cbn [join String.concat].
      rewrite split_byte_no by done. rewrite fmap_cons, fmap_nil.
      apply clean_spec in Hc as [Ht _]. by rewrite trim_space_fix.
    - apply wf_items_cons in H as (Hc & Hx & Hcomma & Hl'). rewrite join_cons.
      change (", " +:+ ?r) with (String "," (String " " r)).
      rewrite split_byte_app, fmap_cons, trim_split_blank, IH by done.
      apply clean_spec in Hc as [Ht _]. by rewrite trim_space_fix. }
  destruct (decide (l = [])) as [->|Hl]; [done|]. rewrite (G Hl).
  clear G Hl. induction l as [|x l IH]; [done|].
  apply wf_items_cons in H as (_ & Hx & _ & Hl).
  by rewrite filter_cons_True, IH.
Qed.

Lemma clean_join x l :
  wf_items (x :: l) = true -> clean (join ", " (x :: l)) = true /\ join ", " (x :: l) <> "".
Proof.
  revert x. induction l as [|y l IH]; intros x Hx.
  - apply wf_items_cons in Hx as (? & ? & _). done.
  - apply wf_items_cons in Hx as (Hc & Hne & _ & Hl). destruct (IH y Hl) as [IH1 IH2].
    rewrite join_cons. set (r := join ", " (y :: l)) in *.
    apply clean_spec in Hc as (Ht & Hh & Hn). apply clean_spec in IH1 as (Ht' & Hh' & Hn').
    split; [|by destruct x].
    apply clean_spec. split_and!; [|by rewrite !contains_byte_app, Hh, Hh'
                                    |by rewrite !contains_byte_app, Hn, Hn'].
    apply tight_spec in Ht as [H1 H2], Ht' as [H1' H2']. apply tight_spec.
    rewrite !bytes_of_app. cbn [String.list_ascii_of_string app]. split.
    + apply starts_space_ascii; [by destruct x|done|done].
    + rewrite !reverse_app, !reverse_cons, <- !app_assoc. cbn [app].
      apply starts_space_ascii; [|done|done].
      intros E%(f_equal reverse). rewrite reverse_involutive in E. by destruct r.
Qed.

Lemma carries_list st k l st' :
  clean_key k = true -> wf_items l = true ->
  (l = [] -> st' = st) -> (l <> [] -> forall n, parse_key st k (join ", " l) n = Ok st') ->
  carries st (opt_list_line k l) st'.
Proof.
  intros Hk Hl H0 Hp. unfold opt_list_line. destruct l as [|x l].
  - rewrite H0 by done. apply carries_nil.
  - apply carries_key; [done|by apply clean_join|by apply Hp].
Qed.

Lemma splitPrefixes_join l :
  l <> [] -> wf_prefixes l = true -> splitPrefixes (join ", " l) = l.
Proof.
  unfold wf_prefixes. intros Hl H. apply andb_prop in H as [Hi Hp].
  unfold splitPrefixes. rewrite splitAndTrim_join by done.
  clear Hl Hi. induction l as [|x l IH]; [done|]. cbn in Hp. bool_hyps.
  rewrite fmap_cons, IH by done. by f_equal.
Qed.

(** *** Script hooks and unknown keys: one line per NUL-separated part *)

Definition append_parts (e : string) (ps : list string) : string :=
  fold_left (fun e p => e +:+ scriptSeparator +:+ p) ps e.

Lemma append_parts_join e ps : append_parts e ps = join scriptSeparator (e :: ps).
Proof.
  revert e. induction ps as [|p ps IH]; intros e; [done|].
  unfold append_parts in *. cbn [fold_left]. rewrite IH, join_cons. destruct ps as [|q ps].
  - done.
  - rewrite !join_cons, !string_app_assoc. done.
Qed.

(** Lines that each append one part, from a state [F e] whose value [e] satisfies [Q]. *)
Lemma carries_parts (Q : string -> Prop) (F : string -> ParseState) k ps e :
  clean_key k = true -> forallb clean ps = true ->
  (forall e v, Q e -> Q (e +:+ scriptSeparator +:+ v)) ->
  (forall e v n, Q e -> parse_key (F e) k v n = Ok (F (e +:+ scriptSeparator +:+ v))) ->
  Q e ->
  carries (F e) (join "" (key_line k <$> ps)) (F (append_parts e ps)).
Proof.
  intros Hk. revert e. induction ps as [|p ps IH]; intros e Hps HQ Hstep He; [apply carries_nil|].
  cbn in Hps. apply andb_prop in Hps as [Hp Hps].
  replace (join "" (key_line k <$> p :: ps)) with (key_line k p +:+ join "" (key_line k <$> ps)).
  2: { rewrite fmap_cons. destruct (key_line k <$> ps); [by rewrite string_app_nil_r|done]. }
  eapply carries_app.
  - apply carries_key with (st' := F (e +:+ scriptSeparator +:+ p)); auto.
  - apply IH; auto.
Qed.

Lemma join_key_lines k p ps :
  join "" (key_line k <$> p :: ps) = key_line k p +:+ join "" (key_line k <$> ps).
Proof. rewrite fmap_cons. destruct (key_line k <$> ps); [by rewrite string_app_nil_r|done]. Qed.

Lemma carries_script (F : string -> ParseState) k s :
  clean_key k = true -> wf_script s = true ->
  (forall e v n, parse_key (F e) k v n = Ok (F (appendScriptLine e v))) ->
  carries (F "") (writeScriptLines k s) (F s).
Proof.
  intros Hk Hs Hstep. unfold writeScriptLines, wf_script in *.
  case_bool_decide as E; [subst; apply carries_nil|]. cbn [orb] in Hs.
  apply andb_prop in Hs as [Hc Hh].
  pose proof (join_split nul s) as Hj.
  destruct (split_byte nul s) as [|p ps] eqn:Es; [by destruct (split_byte_ne nul s)|].
  cbn in Hc, Hh. apply andb_prop in Hc as [Hp Hps].
  unfold nonempty in Hh. bool_hyps. rewrite join_key_lines.
  apply carries_app with (st1 := F p).
  - apply carries_key; [done..|]. intros n. by rewrite Hstep.
  - rewrite <- Hj. change (String nul "") with scriptSeparator.
    rewrite <- append_parts_join.
    apply (carries_parts (fun e => e <> "")); [done|done| |..|done].
    + intros e v He. by destruct e.
    + intros e v n He. rewrite Hstep. unfold appendScriptLine. by rewrite bool_decide_false.
Qed.

(** One unknown key of a map, added to a map without it. *)
Lemma carries_extra_key (G : gmap string string -> ParseState) m k v :
  clean_key k = true -> v <> "" -> forallb clean (split_byte nul v) = true ->
  (forall m v n, parse_key (G m) k v n = Ok (G (addExtraKey m k v))) ->
  m !! k = None ->
  carries (G m) (writeScriptLines k v) (G (<[k := v]> m)).
Proof.
  intros Hk Hv Hc Hstep Hm. unfold writeScriptLines. rewrite bool_decide_false by done.
  pose proof (join_split nul v) as Hj.
  destruct (split_byte nul v) as [|p ps] eqn:Es; [by destruct (split_byte_ne nul v)|].
  cbn in Hc. apply andb_prop in Hc as [Hp Hps]. rewrite join_key_lines.
  apply carries_app with (st1 := G (<[k := p]> m)).
  - apply carries_key; [done..|]. intros n. rewrite Hstep. unfold addExtraKey. by rewrite Hm.
  - rewrite <- Hj. change (String nul "") with scriptSeparator. rewrite <- append_parts_join.
    apply (carries_parts (fun _ => True) (fun e => G (<[k := e]> m))); [done|done|done| |done].
    intros e u n _. rewrite Hstep. unfold addExtraKey.
    by rewrite lookup_insert_eq, insert_insert_eq.
Qed.

Lemma wf_extra_spec keys m :
  wf_extra keys m = true <->
  forall k v, m !! k = Some v ->
    clean_key k = true /\ known keys k = false /\ v <> "" /\
    forallb clean (split_byte nul v) = true.
Proof.
  unfold wf_extra, nonempty. rewrite forallb_true_iff. split.
  - intros H k v Hkv. specialize (H (k, v)). cbn in H.
    rewrite elem_of_map_to_list, !andb_true_iff, !negb_true_iff, bool_decide_eq_false in H.
    specialize (H Hkv). tauto.
  - intros H [k v] Hkv%elem_of_map_to_list. specialize (H k v Hkv).
    rewrite !andb_true_iff, !negb_true_iff, bool_decide_eq_false. tauto.
Qed.

(** The entries of [m] under [ks], added in order. *)
Definition add_entries (m : gmap string string) (ks : list string) (m0 : gmap string string) :=
  fold_left (fun m0 k => <[k := default "" (m !! k)]> m0) ks m0.

Lemma lookup_add_entries m ks m0 k :
  add_entries m ks m0 !! k = if decide (k ∈ ks) then Some (default "" (m !! k)) else m0 !! k.
Proof.
  revert m0. induction ks as [|k' ks IH]; intros m0; [done|].
  unfold add_entries in *. cbn [fold_left]. rewrite IH.
  destruct (decide (k = k')) as [->|Hne].
  - rewrite lookup_insert_eq. rewrite (decide_True (P := k' ∈ k' :: ks)) by (by left).
    by destruct (decide _).
  - rewrite lookup_insert_ne by done.
    destruct (decide (k ∈ ks)) as [Hin|Hin].
    + by rewrite decide_True by (by right).
    + rewrite decide_False; [done|]. by intros [?|?]%elem_of_cons.
Qed.

Lemma add_sorted_entries m : add_entries m (sorted_keys m) ∅ = m.
Proof.
  apply map_eq. intros k. rewrite lookup_add_entries.
  destruct (decide _) as [H|H]; rewrite elem_of_sorted_keys in H.
  - by destruct H as [v ->].
  - rewrite lookup_empty. destruct (m !! k) eqn:E; [by destruct H|done].
Qed.

Lemma carries_extra (G : gmap string string -> ParseState) keys m :
  wf_extra keys m = true ->
  (forall m k v n, known keys k = false -> parse_key (G m) k v n = Ok (G (addExtraKey m k v))) ->
  carries (G ∅) (writeExtraKeys m) (G m).
Proof.
  intros Hwf Hstep. rewrite wf_extra_spec in Hwf. unfold writeExtraKeys.
  rewrite <- (add_sorted_entries m) at 2.
  assert (Hks : forall k, k ∈ sorted_keys m -> is_Some (m !! k))
    by (intros k; apply elem_of_sorted_keys).
  pose proof (sorted_keys_NoDup m) as Hnd.
  assert (Hm0 : forall k, k ∈ sorted_keys m -> (∅ : gmap string string) !! k = None)
    by (intros; apply lookup_empty).
  revert Hks Hnd Hm0. generalize (∅ : gmap string string) as m0.
  induction (sorted_keys m) as [|k ks IH]; intros m0 Hks Hnd Hm0; [apply carries_nil|].
  apply NoDup_cons in Hnd as [Hk Hnd].
  replace (join "" ((fun k => writeScriptLines k (default "" (m !! k))) <$> k :: ks))
    with (writeScriptLines k (default "" (m !! k)) +:+
          join "" ((fun k => writeScriptLines k (default "" (m !! k))) <$> ks)).
  2: { rewrite fmap_cons. by destruct (_ <$> ks); [rewrite string_app_nil_r|]. }
  destruct (Hks k) as [v Hv]; [by left|]. destruct (Hwf k v Hv) as (Hck & Hkn & Hne & Hcl).
  unfold add_entries. cbn [fold_left]. rewrite Hv. cbn [default].
  eapply carries_app.
  - apply carries_extra_key; [done..| |].
    + intros. by apply Hstep.
    + apply Hm0. by left.
  - apply IH; [intros; apply Hks; by right|done|].
    intros k' Hk'. rewrite lookup_insert_ne by congruence. apply Hm0. by right.
Qed.

(** ** The whole text *)

Definition in_interface (i : InterfaceConfig) : ParseState :=
  MkParseState (MkConfig "" i []) SecInterface None.

Definition in_peer (i : InterfaceConfig) (ps : list PeerConfig) (p : PeerConfig) : ParseState :=
  MkParseState (MkConfig "" i (ps ++ [p])) SecPeer (Some (length ps)).

Lemma parse_key_interface i i' k v n :
  parseInterfaceKey i k v n = Ok i' ->
  parse_key (in_interface i) k v n = Ok (in_interface i').
Proof. intros H. unfold parse_key. cbn. by rewrite H. Qed.

Lemma parse_key_peer i ps p p' k v n :
  parsePeerKey p k v n = Ok p' -> parse_key (in_peer i ps p) k v n = Ok (in_peer i ps p').
Proof.
  intros H. unfold parse_key. cbn. rewrite lookup_app_r, Nat.sub_diag by lia. cbn.
  rewrite H. cbn. unfold in_peer. rewrite insert_app_r_alt, Nat.sub_diag by lia. done.
Qed.

Lemma unknown_interface_key i k v n :
  known interface_keys k = false ->
  parseInterfaceKey i k v n = Ok (i <| IfExtraKeys ::= (fun m => addExtraKey m k v) |>).
Proof.
  unfold known, interface_keys. cbn [existsb]. intros H. bool_hyps. unfold parseInterfaceKey.
  by rewrite !bool_decide_false by done.
Qed.

Lemma unknown_peer_key p k v n :
  known peer_keys k = false ->
  parsePeerKey p k v n = Ok (p <| PeerExtraKeys ::= (fun m => addExtraKey m k v) |>).
Proof.
  unfold known, peer_keys. cbn [existsb]. intros H. bool_hyps. unfold parsePeerKey.
  by rewrite !bool_decide_false by done.
Qed.

Ltac split_andb := repeat match goal with |- _ && _ = true => apply andb_true_intro; split end.
Ltac and_hyps := repeat match goal with H : _ && _ = true |- _ => apply andb_prop in H; destruct H end.

(** Closes [parse_key] goals for a known key. *)
Ltac known_key :=
  intros; (apply parse_key_interface || apply parse_key_peer);
  unfold parseInterfaceKey, parsePeerKey; cbv zeta;
  repeat (rewrite bool_decide_false by done); rewrite bool_decide_true by done;
  cbn [update Address DNS AllowedIPs app];
  try first [rewrite splitPrefixes_join by done | rewrite splitAndTrim_join by done];
  try match goal with H : atoi _ = Some _ |- _ => rewrite H end; reflexivity.

(** One more line of the interface: a number or a value that is left out when empty, or a script. *)
Ltac optional_line lem st := eapply carries_app; [apply lem with (st' := in_interface st); [done..|by intros ->|]; known_key|].
Ltac script_line f := eapply carries_app; [apply (carries_script (fun e => in_interface (f e))); [done..|]; known_key|].

Lemma carries_interface i :
  wf_interface i = true -> carries init_parse (serialize_interface i) (in_interface i).
Proof.
  destruct i as [pk ad dns mtu lp tb fw s1 s2 s3 s4 ex].
  unfold wf_interface, serialize_interface. cbn -[clean wf_prefixes wf_items wf_int wf_script wf_extra].
  intros Hwf. and_hyps.
  rewrite <- (string_app_assoc "[Interface]").
  eapply carries_app.
  { exists ["[Interface]"]. split; [by apply emits_line|]. by intros n. }
  eapply carries_app.
  { apply carries_key with (st' := in_interface (zero_interface <| PrivateKey := pk |>)); [done..|].
    known_key. }
  eapply carries_app.
  { apply carries_list with
      (st' := in_interface (MkInterface pk ad [] 0 0 "" "" "" "" "" "" ∅)); [done| |by intros ->|].
    - unfold wf_prefixes in *. by and_hyps.
    - known_key. }
  eapply carries_app.
  { apply carries_list with
      (st' := in_interface (MkInterface pk ad dns 0 0 "" "" "" "" "" "" ∅)); [done..|by intros ->|].
    known_key. }
  optional_line @carries_int (MkInterface pk ad dns mtu 0 "" "" "" "" "" "" ∅).
  optional_line @carries_int (MkInterface pk ad dns mtu lp "" "" "" "" "" "" ∅).
  optional_line @carries_opt (MkInterface pk ad dns mtu lp tb "" "" "" "" "" ∅).
  optional_line @carries_opt (MkInterface pk ad dns mtu lp tb fw "" "" "" "" ∅).
  script_line (fun e => MkInterface pk ad dns mtu lp tb fw e "" "" "" ∅).
  script_line (fun e => MkInterface pk ad dns mtu lp tb fw s1 e "" "" ∅).
  script_line (fun e => MkInterface pk ad dns mtu lp tb fw s1 s2 e "" ∅).
  script_line (fun e => MkInterface pk ad dns mtu lp tb fw s1 s2 s3 e ∅).
  apply (carries_extra (fun m => in_interface (MkInterface pk ad dns mtu lp tb fw s1 s2 s3 s4 m))
           interface_keys); [done|].
  intros m k v n Hk. apply parse_key_interface. by rewrite unknown_interface_key.
Qed.

(** A peer section opened from any state. *)
Lemma carries_peer i ps p st :
  wf_peer p = true -> ps_cfg st = MkConfig "" i ps ->
  carries st (serialize_peer p) (in_peer i ps p).
Proof.
  destruct p as [pk psk ep ips ka ex]. unfold wf_peer, serialize_peer.
  cbn -[clean wf_prefixes wf_items wf_int wf_script wf_extra].
  intros Hwf Hst. and_hyps.
  rewrite <- (string_app_assoc "[Peer]"), <- (string_app_assoc nl ("[Peer]" +:+ nl)).
  eapply carries_app.
  { exists [""; "[Peer]"]. split.
    - intros rest. reflexivity.
    - intros n. cbn [fmap list_fmap parse_tokens].
      change (parse_token st (n + 1) (drop_cr "")) with (Ok (E := ParseError) st). cbn [result_bind].
      unfold parse_token. change (strip_line (drop_cr "[Peer]")) with "[Peer]".
      rewrite !bool_decide_false by done. cbn [orb has_prefix String.prefix ascii_dec].
      rewrite bool_decide_true by done. cbn. by rewrite Hst. }
  eapply carries_app.
  { apply carries_key with (st' := in_peer i ps (zero_peer <| PublicKey := pk |>)); [done..|].
    known_key. }
  eapply carries_app.
  { apply carries_opt with (st' := in_peer i ps (MkPeer pk psk "" [] 0 ∅)); [done..|by intros ->|].
    known_key. }
  eapply carries_app.
  { apply carries_opt with (st' := in_peer i ps (MkPeer pk psk ep [] 0 ∅)); [done..|by intros ->|].
    known_key. }
  eapply carries_app.
  { apply carries_list with (st' := in_peer i ps (MkPeer pk psk ep ips 0 ∅)); [done| |by intros ->|].
    - unfold wf_prefixes in *. by and_hyps.
    - known_key. }
  eapply carries_app.
  { apply carries_int with (st' := in_peer i ps (MkPeer pk psk ep ips ka ∅)); [done..|by intros ->|].
    known_key. }
  apply (carries_extra (fun m => in_peer i ps (MkPeer pk psk ep ips ka m)) peer_keys); [done|].
  intros m k v n Hk. apply parse_key_peer. by rewrite unknown_peer_key.
Qed.

Lemma carries_peers i ps : forall ps0 st,
  forallb wf_peer ps = true -> ps_cfg st = MkConfig "" i ps0 ->
  exists st', carries st (join "" (serialize_peer <$> ps)) st' /\ ps_cfg st' = MkConfig "" i (ps0 ++ ps).
Proof.
  induction ps as [|p ps IH]; intros ps0 st Hwf Hst.
  - exists st. rewrite app_nil_r. by split; [apply carries_nil|].
  - cbn in Hwf. apply andb_prop in Hwf as [Hp Hps].
    replace (join "" (serialize_peer <$> p :: ps))
      with (serialize_peer p +:+ join "" (serialize_peer <$> ps)).
    2: { rewrite fmap_cons. by destruct ps; [rewrite string_app_nil_r|]. }
    destruct (IH (ps0 ++ [p]) (in_peer i ps0 p)) as (st' & Hc & Hcfg); [done|done|].
    exists st'. split; [|by rewrite Hcfg, <- app_assoc].
    eapply carries_app; [by apply carries_peer|done].
Qed.

Lemma scan_tokens_fit ls : forallb line_fits ls = true -> scan_tokens ls = (drop_cr <$> ls, false).
Proof.
  induction ls as [|l ls IH]; [done|]. cbn [forallb scan_tokens]. intros H. and_hyps.
  by rewrite H, IH.
Qed.

Lemma parse_of_lines content ls st :
  trim_prefix bom content = content -> raw_lines content = ls -> forallb line_fits ls = true ->
  runs init_parse (drop_cr <$> ls) st -> PrivateKey (Interface (ps_cfg st)) <> "" ->
  Parse content = Ok (ps_cfg st).
Proof.
  intros Hb Hl Hf Hr Hk. unfold Parse. rewrite Hb, Hl, scan_tokens_fit, Hr by done. cbn.
  by rewrite bool_decide_false.
Qed.

Lemma parse_of_lines_wf (cfg : WireGuardConfig) :
  wf_config cfg = true -> Parse (Serialize cfg) = Ok cfg.
Proof.
  destruct cfg as [name i ps]. unfold wf_config. intros H. cbn [Name Interface Peers] in H.
  and_hyps. apply bool_decide_eq_true in H. subst name.
  destruct (carries_peers i ps [] (in_interface i)) as (st' & Hc & Hcfg); [done|done|].
  destruct (carries_app _ _ _ _ _ (carries_interface i ltac:(done)) Hc) as (ls & He & Hr).
  specialize (He ""). rewrite string_app_nil_r, app_nil_r in He.
  cbn [app] in Hcfg. rewrite <- Hcfg at 2.
  apply (parse_of_lines _ ls); [reflexivity|exact He| |done|].
  - rewrite <- He. done.
  - rewrite Hcfg. cbn. unfold wf_interface, nonempty in *. and_hyps. bool_hyps. done.
Qed.

(** C13: Round trip of the configuration text: every configuration that the .conf format can
    represent (values without comment characters, newlines or outer white space, lists of
    comma-free complete prefixes, unknown keys with a value, lines within the scanner's limit)
    is read back by [Parse] exactly as [Serialize] wrote it. *)
Theorem Parse_Serialize (cfg : WireGuardConfig) :
  wf_config cfg = true -> Parse (Serialize cfg) = Ok cfg.
Proof. apply parse_of_lines_wf. Qed.

Definition sample_config : WireGuardConfig :=
  MkConfig "" (MkInterface "yAnz5TF+lXXJte14tji3zlMNq+hd2rYUIgJBgB3fBmk=" ["10.0.0.2/24"; "fd00::2/128"]
                 ["1.1.1.1"; "corp.example.com"] 1420 51820 "auto" "0x10" "" ("a" +:+ scriptSeparator +:+ "b") "" ""
                 {["Jc" := "4"]})
    [MkPeer "xTIBA5rboUvnH4htodjb6e697QjLERt1NAB4mZqp8Dg=" "" "vpn.example.com:51820" ["0.0.0.0/0"; "::/0"] 25 ∅;
     MkPeer "TrMvSoP4jYQlY6RIzBgbssQqY3vxI2Pi+y71lOWWXX0=" "" "" ["10.1.0.0/16"] 0 {["X-Note" := "backup"]}].

Lemma Parse_Serialize_witness :
  wf_config sample_config = true /\ Parse (Serialize sample_config) = Ok sample_config.
Proof.
  assert (H : wf_config sample_config = true) by (vm_compute; reflexivity).
  split; [exact H|]. exact (Parse_Serialize sample_config H).
Defined.

(** ** What [Parse] accepts can be written back *)

(** The state reached so far can be written, numbers, empty unknown values and line lengths
    apart. *)
Definition pre_extra (keys : list string) (m : gmap string string) : Prop :=
  forall k v, m !! k = Some v ->
    clean_key k = true /\ known keys k = false /\ forallb clean (split_byte nul v) = true.

Definition pre_interface (i : InterfaceConfig) : Prop :=
  clean (PrivateKey i) = true /\ wf_prefixes (Address i) = true /\ wf_items (DNS i) = true /\
  clean (Table i) = true /\ clean (FwMark i) = true /\
  wf_script (PreUp i) = true /\ wf_script (PostUp i) = true /\ wf_script (PreDown i) = true /\
  wf_script (PostDown i) = true /\ pre_extra interface_keys (IfExtraKeys i).

Definition pre_peer (p : PeerConfig) : Prop :=
  clean (PublicKey p) = true /\ clean (PresharedKey p) = true /\ clean (Endpoint p) = true /\
  wf_prefixes (AllowedIPs p) = true /\ pre_extra peer_keys (PeerExtraKeys p).

Definition pre_state (st : ParseState) : Prop :=
  Name (ps_cfg st) = "" /\ pre_interface (Interface (ps_cfg st)) /\ Forall pre_peer (Peers (ps_cfg st)).

Lemma contains_trim c s : contains_byte c s = false -> contains_byte c (trim_space s) = false.
Proof.
  assert (G : forall l, contains_byte c (string_of l) = existsb (fun a => bool_decide (a = c)) l).
  { induction l as [|a l IH]; [done|]. cbn. by rewrite IH. }
  rewrite <- (string_of_bytes s) at 1. rewrite <- (string_of_bytes (trim_space s)), !G.
  rewrite !existsb_false_iff. intros H x Hx. apply H.
  rewrite bytes_trim_space, elem_of_reverse in Hx.
  destruct (trim_front_spec true (reverse (trim_front false (bytes_of s)))) as (w & E & _).
  destruct (trim_front_spec false (bytes_of s)) as (w' & E' & _).
  rewrite E', elem_of_app. right. rewrite <- elem_of_reverse, E, elem_of_app. by right.
Qed.

Lemma clean_trim s :
  contains_byte "#" s = false -> contains_byte newline s = false -> clean (trim_space s) = true.
Proof. intros H1 H2. apply clean_spec. auto using trim_space_tight, contains_trim. Qed.

Lemma clean_parts_item v c p :
  contains_byte "#" v = false -> contains_byte newline v = false ->
  p ∈ split_byte c v -> clean (trim_space p) = true.
Proof. intros H1 H2 Hp. eauto using clean_trim, split_byte_contains. Qed.

(** A text of the list syntax: its items. *)
Lemma splitAndTrim_wf v :
  contains_byte "#" v = false -> contains_byte newline v = false ->
  wf_items (splitAndTrim v) = true.
Proof.
  intros H1 H2. apply wf_items_spec. unfold splitAndTrim. intros x Hx.
  apply list_elem_of_filter in Hx as [Hne Hx]. apply list_elem_of_fmap in Hx as (p & -> & Hp).
  split_and!; [by eapply clean_parts_item|done|].
  by apply contains_trim, (split_byte_parts _ v).
Qed.

Lemma tight_app_solid v s :
  tight v = true -> v <> "" -> string_forall solid s = true -> tight (v +:+ s) = true.
Proof.
  intros [H1 H2]%tight_spec Hv Hs. destruct s as [|c s].
  { rewrite string_app_nil_r. by apply tight_spec. }
  pose proof (solid_tight _ Hs) as Ht. apply tight_spec in Ht as [_ Ht].
  assert (Hc : ascii7 c = true) by (cbn in Hs; unfold solid in Hs; by bool_hyps).
  apply tight_spec. rewrite bytes_of_app. cbn [String.list_ascii_of_string] in *. split.
  - apply starts_space_ascii; [by destruct v|done|done].
  - rewrite reverse_app.
    assert (G : forall l, l <> [] -> forallb solid l = true ->
              starts_space true (l ++ reverse (bytes_of v)) = false).
    { intros [|d l] Hl Hf; [done|]. cbn in Hf. unfold solid in Hf. bool_hyps.
      by apply starts_space_solid. }
    apply G.
    + intros E%(f_equal reverse). by rewrite reverse_involutive in E.
    + change (c :: bytes_of s) with (bytes_of (String c s)).
      rewrite string_forall_bytes in Hs. rewrite forallb_true_iff in *.
      intros x Hx. apply Hs. by rewrite elem_of_reverse in Hx.
Qed.

Lemma complete_prefix_wf v :
  clean v = true -> v <> "" -> contains_byte "," v = false ->
  let w := complete_prefix v in
  clean w = true /\ w <> "" /\ contains_byte "," w = false /\ complete_prefix w = w.
Proof.
  intros Hc Hne Hcomma. apply clean_spec in Hc as (Ht & Hh & Hn). cbv zeta.
  assert (Hid : complete_prefix v = v ->
    clean (complete_prefix v) = true /\ complete_prefix v <> "" /\
    contains_byte "," (complete_prefix v) = false /\ complete_prefix (complete_prefix v) = complete_prefix v).
  { intros E. rewrite !E. split_and!; [by apply clean_spec|done..]. }
  unfold complete_prefix in *. destruct (contains_byte "/" v) eqn:Es; [by apply Hid|].
  destruct (parse_ip v) as [ip|]; [|by apply Hid]. clear Hid.
  assert (Hs : forall s, string_forall solid s = true -> contains_byte "#" s = false ->
    contains_byte newline s = false -> contains_byte "," s = false -> contains_byte "/" s = true ->
    clean (v +:+ s) = true /\ v +:+ s <> "" /\ contains_byte "," (v +:+ s) = false /\
    complete_prefix (v +:+ s) = v +:+ s).
  { intros s H1 H2 H3 H4 H5. unfold complete_prefix.
    rewrite !contains_byte_app, Hcomma, H4, H5, orb_true_r.
    split_and!; [|by apply string_app_ne|done|done].
    apply clean_spec. rewrite !contains_byte_app, Hh, Hn, H2, H3. auto using tight_app_solid. }
  destruct (to4 ip); by apply Hs.
Qed.

Lemma splitPrefixes_wf v :
  contains_byte "#" v = false -> contains_byte newline v = false ->
  wf_prefixes (splitPrefixes v) = true.
Proof.
  intros H1 H2. pose proof (splitAndTrim_wf v H1 H2) as H. rewrite wf_items_spec in H.
  assert (G : forall x, x ∈ splitPrefixes v ->
            clean x = true /\ x <> "" /\ contains_byte "," x = false /\ complete_prefix x = x).
  { intros x Hx. apply list_elem_of_fmap in Hx as (y & -> & Hy).
    destruct (H y Hy) as (? & ? & ?). by apply complete_prefix_wf. }
  unfold wf_prefixes. apply andb_true_intro. split.
  - apply wf_items_spec. intros x Hx. by destruct (G x Hx) as (? & ? & ? & ?).
  - apply forallb_true_iff. intros x Hx. destruct (G x Hx) as (? & ? & ? & ?).
    by apply bool_decide_eq_true.
Qed.

Lemma wf_items_app a b : wf_items a = true -> wf_items b = true -> wf_items (a ++ b) = true.
Proof. unfold wf_items. intros. rewrite forallb_app. by apply andb_true_intro. Qed.

Lemma wf_prefixes_app a b :
  wf_prefixes a = true -> wf_prefixes b = true -> wf_prefixes (a ++ b) = true.
Proof.
  unfold wf_prefixes. intros. and_hyps. rewrite forallb_app, wf_items_app by done.
  cbn. by apply andb_true_intro.
Qed.

Lemma split_byte_cons_app c u v :
  split_byte c (u +:+ String c v) = split_byte c u ++ split_byte c v.
Proof.
  induction u as [|a u IH]; str_simpl.
  - by rewrite bool_decide_true.
  - destruct (bool_decide (a = c)); [by rewrite IH|].
    rewrite IH. by destruct (split_byte c u) as [|h t] eqn:E; [destruct (split_byte_ne c u)|].
Qed.


(** A value read from a text without NUL bytes. *)
Definition value_ok (v : string) : Prop := clean v = true /\ contains_byte nul v = false.

Lemma value_split v : value_ok v -> split_byte nul v = [v].
Proof. intros [_ H]. by apply split_byte_no. Qed.

Lemma appendScriptLine_wf e v :
  wf_script e = true -> value_ok v -> wf_script (appendScriptLine e v) = true.
Proof.
  intros He Hv. pose proof (value_split v Hv) as Hs. destruct Hv as [Hc _].
  unfold appendScriptLine, wf_script in *. unfold nonempty.
  case_bool_decide as E.
  - rewrite Hs. cbn. rewrite Hc. by destruct v.
  - cbn [orb] in He. and_hyps. change (scriptSeparator +:+ v) with (String nul v).
    rewrite split_byte_cons_app, Hs, forallb_app. cbn.
    destruct (split_byte nul e) as [|h t] eqn:Ee; [by destruct (split_byte_ne nul e)|].
    cbn in *. rewrite H, Hc. unfold nonempty in H0. rewrite H0. apply orb_true_r.
Qed.

Lemma addExtraKey_pre keys m k v :
  pre_extra keys m -> clean_key k = true -> known keys k = false -> value_ok v ->
  pre_extra keys (addExtraKey m k v).
Proof.
  intros Hm Hk Hkn Hv k' v'. pose proof (value_split v Hv) as Hs. destruct Hv as [Hc _].
  unfold addExtraKey. rewrite lookup_insert. case_decide as E; [subst k'|apply Hm].
  intros [= <-]. split_and!; [done|done|].
  destruct (m !! k) as [old|] eqn:Eo.
  - destruct (Hm _ _ Eo) as (_ & _ & Ho). change (scriptSeparator +:+ v) with (String nul v).
    rewrite split_byte_cons_app, Hs, forallb_app, Ho. cbn. by rewrite Hc.
  - rewrite Hs. cbn. by rewrite Hc.
Qed.

Lemma known_false_if keys k : Forall (fun k' => to_lower k <> k') keys -> known keys k = false.
Proof.
  induction 1 as [|k' keys H _ IH]; [done|]. unfold known in *. cbn [existsb].
  rewrite IH. by rewrite bool_decide_false.
Qed.

Lemma parseInterfaceKey_pre i i' k v n :
  pre_interface i -> clean_key k = true -> value_ok v ->
  parseInterfaceKey i k v n = Ok i' -> pre_interface i'.
Proof.
  intros Hp Hk Hv H. pose proof Hv as [Hc _]. pose proof Hc as (_ & Hh & Hn)%clean_spec.
  unfold parseInterfaceKey in H. cbv zeta in H.
  repeat match type of H with (if bool_decide ?P then _ else _) = _ =>
    destruct (bool_decide P) eqn:?Hd; [|] end.
  all: try (destruct (atoi v); [|done]).
  all: injection H as <-; unfold pre_interface in *; destruct Hp as (?&?&?&?&?&?&?&?&?&?);
       cbn in *; split_and!; try done.
  all: try (by apply appendScriptLine_wf).
  all: try (by apply wf_prefixes_app, splitPrefixes_wf).
  all: try (by apply wf_items_app, splitAndTrim_wf).
  bool_hyps. apply addExtraKey_pre; [done|done| |done]. apply known_false_if. by repeat constructor.
Qed.

Lemma parsePeerKey_pre p p' k v n :
  pre_peer p -> clean_key k = true -> value_ok v -> parsePeerKey p k v n = Ok p' -> pre_peer p'.
Proof.
  intros Hp Hk Hv H. pose proof Hv as [Hc _]. pose proof Hc as (_ & Hh & Hn)%clean_spec.
  unfold parsePeerKey in H. cbv zeta in H.
  repeat match type of H with (if bool_decide ?P then _ else _) = _ =>
    destruct (bool_decide P) eqn:?Hd; [|] end.
  all: try (destruct (atoi v); [|done]).
  all: injection H as <-; unfold pre_peer in *; destruct Hp as (?&?&?&?&?);
       cbn in *; split_and!; try done.
  all: try (by apply wf_prefixes_app, splitPrefixes_wf).
  bool_hyps. apply addExtraKey_pre; [done|done| |done]. apply known_false_if. by repeat constructor.
Qed.

(** The key of a line that is not a comment. *)
Lemma line_key_clean line a b :
  tight line = true -> contains_byte "#" line = false -> contains_byte newline line = false ->
  has_prefix ";" line = false -> cut_byte "=" line = Some (a, b) ->
  clean_key (trim_space a) = true /\ clean (trim_space b) = true.
Proof.
  intros [Ht _]%tight_spec Hh Hn Hs [-> Ha]%cut_byte_Some.
  rewrite contains_byte_app in Hh, Hn. cbn in Hh, Hn. bool_hyps.
  split; [|by apply clean_trim]. apply clean_key_spec. split_and!; [by apply clean_trim| |].
  - by apply contains_trim.
  - rewrite bytes_of_app in Ht. apply starts_space_app in Ht.
    assert (E : exists w, bytes_of a = bytes_of (trim_space a) ++ w).
    { rewrite bytes_trim_space, (trim_front_fix false) by done.
      destruct (trim_front_spec true (reverse (bytes_of a))) as (w & E & _).
      exists (reverse w). rewrite <- reverse_app, <- E. by rewrite reverse_involutive. }
    destruct E as [w E]. rewrite <- (string_of_bytes (trim_space a)).
    rewrite <- (string_of_bytes a), E in Hs. revert Hs.
    destruct (bytes_of (trim_space a)) as [|c l]; [done|].
    rewrite <- app_comm_cons. cbn [String.string_of_list_ascii]. rewrite string_app_cons.
    unfold has_prefix. cbn [String.prefix]. by destruct (ascii_dec ";" c); [destruct (string_of _)|].
Qed.

Lemma cut_comment_props t :
  let line := strip_line t in
  contains_byte newline t = false -> contains_byte nul t = false ->
  tight line = true /\ contains_byte "#" line = false /\ contains_byte newline line = false /\
  contains_byte nul line = false.
Proof.
  cbv zeta. unfold strip_line. intros Hn Hz.
  destruct (cut_byte "#" t) as [[u w]|] eqn:E.
  - apply cut_byte_Some in E as [-> Hu]. rewrite contains_byte_app in Hn, Hz. bool_hyps.
    auto using trim_space_tight, contains_trim.
  - apply cut_byte_None_inv in E. auto using trim_space_tight, contains_trim.
Qed.

Lemma parse_token_pre st n t st' :
  pre_state st -> contains_byte newline t = false -> contains_byte nul t = false ->
  parse_token st n t = Ok st' -> pre_state st'.
Proof.
  intros (Hname & Hi & Hps) Hn Hz H.
  destruct (cut_comment_props t Hn Hz) as (Ht & Hh & Hln & Hlz).
  unfold parse_token in H. revert H. generalize dependent (strip_line t).
  intros line Ht Hh Hln Hlz. destruct ((line =s "") || has_prefix ";" line) eqn:E0.
  { intros [= <-]. by split_and!. }
  apply orb_false_elim in E0 as [_ Hs].
  destruct (to_lower line =s "[interface]"). { intros [= <-]. by split_and!. }
  destruct (to_lower line =s "[peer]").
  { intros [= <-]. split_and!; [done|done|]. apply Forall_app. by repeat constructor. }
  destruct (cut_byte "=" line) as [[a b]|] eqn:E; [|done].
  destruct (line_key_clean line a b) as [Hk Hv]; [done..|].
  assert (Hvok : value_ok (trim_space b)).
  { split; [done|]. apply cut_byte_Some in E as [-> _].
    rewrite contains_byte_app in Hlz. cbn in Hlz. bool_hyps. by apply contains_trim. }
  unfold parse_key. destruct (ps_section st); [done| |].
  - destruct (parseInterfaceKey _ _ _ _) as [i'|] eqn:Ei; [|done]. cbn. intros [= <-].
    split_and!; [done| |done]. by eapply parseInterfaceKey_pre.
  - destruct (ps_peer st) as [m|]; [|done].
    destruct (Peers (ps_cfg st) !! m) as [p|] eqn:Em; [|done].
    destruct (parsePeerKey p _ _ _) as [p'|] eqn:Ep; [|done]. cbn. intros [= <-].
    split_and!; [done|done|]. apply Forall_insert; [done|].
    eapply parsePeerKey_pre; [|done..]. by eapply Forall_lookup_1.
Qed.

Lemma parse_tokens_pre ts : forall st n st',
  pre_state st ->
  Forall (fun t => contains_byte newline t = false /\ contains_byte nul t = false) ts ->
  parse_tokens st n ts = Ok st' -> pre_state st'.
Proof.
  induction ts as [|t ts IH]; intros st n st' Hst Hts H; [by injection H as <-|].
  apply Forall_cons in Hts as [[? ?] Hts]. cbn in H.
  destruct (parse_token st (n + 1) t) as [st1|] eqn:E; [|done]. cbn in H.
  eapply IH; [|done..]. by eapply parse_token_pre.
Qed.

Lemma raw_lines_props c s l :
  contains_byte c s = false -> l ∈ raw_lines s ->
  contains_byte newline l = false /\ contains_byte c l = false.
Proof.
  revert l. induction s as [|a s IH]; cbn; intros l Hc Hl; [by apply elem_of_nil in Hl|].
  apply orb_false_elim in Hc as [Ha Hc]. destruct (bool_decide (a = newline)) eqn:E.
  - apply elem_of_cons in Hl as [->|Hl]; [done|by apply IH].
  - destruct (raw_lines s) as [|h t] eqn:Es.
    + apply list_elem_of_singleton in Hl as ->. cbn. by rewrite E, Ha.
    + apply elem_of_cons in Hl as [->|Hl]; [|by apply IH; [|right]].
      destruct (IH h) as [H1 H2]; [done|by left|]. cbn. by rewrite E, Ha, H1, H2.
Qed.

Lemma contains_bytes c s : contains_byte c s = existsb (fun a => bool_decide (a = c)) (bytes_of s).
Proof. induction s as [|a s IH]; [done|]. cbn. by rewrite IH. Qed.

Lemma drop_cr_contains c s : contains_byte c s = false -> contains_byte c (drop_cr s) = false.
Proof.
  unfold drop_cr. destruct (reverse (bytes_of s)) as [|d r] eqn:E; [done|].
  case_bool_decide; [|done]. rewrite !contains_bytes, !existsb_false_iff, bytes_of_string.
  intros H' x Hx. apply H'. rewrite <- (reverse_involutive (bytes_of s)), E, reverse_cons.
  apply elem_of_app. by left.
Qed.

Lemma scan_tokens_elem rs t : t ∈ (scan_tokens rs).1 -> exists r, r ∈ rs /\ t = drop_cr r.
Proof.
  induction rs as [|r rs IH]; cbn; [by intros ?%elem_of_nil|].
  destruct (line_fits r); [|by intros ?%elem_of_nil].
  destruct (scan_tokens rs) as [ts e]. cbn in *. intros [->|H]%elem_of_cons.
  - exists r. split; [by left|done].
  - destruct (IH H) as (r' & ? & ?). exists r'. split; [by right|done].
Qed.

Lemma string_drop_contains c n s : contains_byte c s = false -> contains_byte c (string_drop n s) = false.
Proof.
  revert s. induction n as [|n IH]; intros [|a s] H; [done..|]. cbn in *.
  apply orb_false_elim in H as [_ H]. by apply IH.
Qed.

(** Numbers not negative, no unknown key whose whole value is empty: the two losses of the
    written form besides over-long lines. *)
Definition no_losses (cfg : WireGuardConfig) : bool :=
  wf_int (MTU (Interface cfg)) && wf_int (ListenPort (Interface cfg))
  && forallb (fun p => wf_int (PersistentKeepalive p)) (Peers cfg)
  && forallb (fun '(_, v) => nonempty v) (map_to_list (IfExtraKeys (Interface cfg)))
  && forallb (fun p => forallb (fun '(_, v) => nonempty v) (map_to_list (PeerExtraKeys p))) (Peers cfg).

Lemma pre_extra_wf keys m :
  pre_extra keys m -> forallb (fun '(_, v) => nonempty v) (map_to_list m) = true ->
  wf_extra keys m = true.
Proof.
  intros Hp Hn. apply wf_extra_spec. intros k v Hkv. destruct (Hp k v Hkv) as (? & ? & ?).
  rewrite forallb_true_iff in Hn. specialize (Hn (k, v)).
  rewrite elem_of_map_to_list in Hn. specialize (Hn Hkv). unfold nonempty in Hn. by bool_hyps.
Qed.

Lemma Parse_wf s cfg :
  contains_byte nul s = false -> Parse s = Ok cfg -> no_losses cfg = true ->
  lines_fit cfg = true -> wf_config cfg = true.
Proof.
  intros Hz H Hl Hf. unfold Parse in H.
  set (c := trim_prefix bom s) in *.
  assert (Hcz : contains_byte nul c = false).
  { unfold c, trim_prefix. destruct (has_prefix bom s); [by apply string_drop_contains|done]. }
  destruct (scan_tokens (raw_lines c)) as [ts tl] eqn:Et.
  destruct (parse_tokens init_parse 0 ts) as [st|] eqn:Ep; [|done]. cbn in H.
  destruct tl; [done|]. case_bool_decide as Ek; [done|]. injection H as <-.
  apply parse_tokens_pre in Ep as (Hn & Hi & Hps).
  - unfold no_losses in Hl. and_hyps. unfold wf_config, wf_interface.
    destruct Hi as (?&?&?&?&?&?&?&?&?&?).
    split_andb; try done; [by apply bool_decide_eq_true| | |].
    + unfold nonempty. by apply negb_true_iff, bool_decide_eq_false.
    + by apply pre_extra_wf.
    + rewrite forallb_true_iff in *. intros p Hp. rewrite Forall_forall in Hps.
      destruct (Hps p Hp) as (?&?&?&?&?). unfold wf_peer.
      split_andb; auto. apply pre_extra_wf; auto.
  - split_and!; [done| |constructor]. by split_and!.
  - apply Forall_forall. intros t Hin. pose proof (scan_tokens_elem (raw_lines c) t) as Hs.
    rewrite Et in Hs. destruct (Hs Hin) as (r & Hr & ->).
    destruct (raw_lines_props nul c r Hcz Hr). split; by apply drop_cr_contains.
Qed.

(** Stability of an accepted file: whatever text without NUL bytes [Parse] accepts, writing
    the result and reading it again gives the same configuration, unless a number is negative,
    an unknown key has an empty value or the merged lines exceed the scanner's limit. *)
Theorem Parse_stable (s : string) (cfg : WireGuardConfig) :
  contains_byte nul s = false -> Parse s = Ok cfg ->
  no_losses cfg = true -> lines_fit cfg = true ->
  Parse (Serialize cfg) = Ok cfg.
Proof. intros Hz Hp Hl Hf. apply parse_of_lines_wf. by eapply Parse_wf. Qed.

Definition sample_text : string :=
  "[interface] # mine" +:+ nl +:+ " PrivateKey= yAnz5TF+lXXJte14tji3zlMNq+hd2rYUIgJBgB3fBmk=" +:+ nl
  +:+ "address = 10.0.0.2, fd00::2" +:+ nl +:+ "PostUp = a" +:+ nl +:+ "postup = b;c" +:+ nl
  +:+ "; comment" +:+ nl +:+ "Jc = 4" +:+ nl +:+ "[Peer]" +:+ nl
  +:+ "PublicKey=xTIBA5rboUvnH4htodjb6e697QjLERt1NAB4mZqp8Dg=" +:+ nl
  +:+ "AllowedIPs = 0.0.0.0/0,10.0.0.1" +:+ nl +:+ "PersistentKeepalive=25" +:+ nl.

Lemma Parse_stable_witness :
  exists cfg, Parse sample_text = Ok cfg /\ Parse (Serialize cfg) = Ok cfg
              /\ Address (Interface cfg) = ["10.0.0.2/32"; "fd00::2/128"].
Proof.
  destruct (Parse sample_text) as [cfg|e] eqn:E.
  - exists cfg. split; [reflexivity|].
    assert (Hc : contains_byte nul sample_text = false) by (vm_compute; reflexivity).
    assert (Hd : Parse sample_text = Parse sample_text) by reflexivity.
    assert (Hn : match Parse sample_text with
                 | Ok c => no_losses c && lines_fit c
                           && bool_decide (Address (Interface c) = ["10.0.0.2/32"; "fd00::2/128"])
                 | Err _ => false end = true) by (vm_compute; reflexivity).
    rewrite E in Hn. apply andb_prop in Hn as [Hn Ha]. apply andb_prop in Hn as [Hn Hl].
    apply bool_decide_eq_true in Ha. split; [|exact Ha].
    exact (Parse_stable sample_text cfg Hc E Hn Hl).
  - exfalso. assert (H : is_ok (Parse sample_text) = true) by (vm_compute; reflexivity).
    rewrite E in H. discriminate H.
Defined.
