(* ===== verification/Validator.v ===== *)
(** * Checking a configuration: internal/config/validator.go

    [Validate] collects every issue with its field.  The text of a message is a constructor of
    [Issue]; the issues of unknown keys come in map order, which Go leaves unspecified, and here
    in the order of the keys. *)

From S2P Require Import Prelude GoStrings GoNet Domain.

(** ** hostnameRegex: labels of letters, digits and inner hyphens, at most 63 bytes each *)

Definition alnum (c : ascii) : bool :=
  let n := nat_of_ascii c in
  (((48 <=? n) && (n <=? 57)) || ((65 <=? n) && (n <=? 90)) || ((97 <=? n) && (n <=? 122)))%nat.

(** [[a-zA-Z0-9-]{0,61}[a-zA-Z0-9]] *)
Fixpoint label_rest (n : nat) (s : string) {struct s} : bool :=
  match s with
  | EmptyString => false
  | String c EmptyString => alnum c
  | String c s' =>
      match n with
      | O => false
      | S n' => (alnum c || bool_decide (c = "-"%char)) && label_rest n' s'
      end
  end.

Definition hostname_label (s : string) : bool :=
  match s with
  | EmptyString => false
  | String c s' => alnum c && ((s' =s "") || label_rest 61 s')
  end.

Definition hostname_match (s : string) : bool := forallb hostname_label (split_byte "." s).

(** ** Keys, endpoints and numbers *)

Definition isValidWireGuardKey (key : string) : bool :=
  match b64_decode key with
  | None => false
  | Some decoded => (length decoded =? 32)%nat
  end.

Inductive EndpointError := BadFormat | EmptyHost | BadHost (host : string) | BadPort (port : string).

Definition validateEndpoint (endpoint : string) : option EndpointError :=
  match split_host_port endpoint with
  | None => Some BadFormat
  | Some (host, portStr) =>
      if host =s "" then Some EmptyHost
      else if negb (ip_valid host) && negb (hostname_match host) then Some (BadHost host)
      else match atoi portStr with
           | None => Some (BadPort portStr)
           | Some port => if ((port <? 1) || (65535 <? port))%Z then Some (BadPort portStr) else None
           end
  end.

Definition parseDecimalOrHex (s : string) : option Z :=
  if has_prefix "0x" s || has_prefix "0X" s then parse_int 16 (string_drop 2 s)
  else parse_int 10 s.

(** ** The issues *)

Inductive Field :=
| FPrivateKey | FAddress | FDNS | FMTU | FListenPort | FTable | FFwMark | FInterfaceExtra | FPeer
| FPublicKey (i : nat) | FPresharedKey (i : nat) | FEndpoint (i : nat) | FAllowedIPs (i : nat)
| FKeepalive (i : nat) | FPeerExtra (i : nat).

Inductive Issue :=
| IsRequired | InvalidKeyFormat | InvalidCIDR (s : string) | InvalidDNS (s : string)
| OutOfRange (n : Z) | BadTable (s : string) | BadFwMark (s : string)
| ExtraNewline (key : string) | NoPeer | BadEndpoint (e : EndpointError).

Record ValidationError := MkIssue { issue_field : Field; issue_message : Issue }.
Definition ValidationResult := list ValidationError.

Definition IsValid (r : ValidationResult) : bool := (length r =? 0)%nat.

(** [addError] when a test holds *)
Definition add_if (b : bool) (f : Field) (m : Issue) : ValidationResult :=
  if b then [MkIssue f m] else [].

Definition contains_newline (v : string) : bool :=
  contains_byte carriage_return v || contains_byte newline v.

Definition check_extra (f : Field) (m : gmap string string) : ValidationResult :=
  concat ((fun k => add_if (contains_newline (default "" (m !! k))) f (ExtraNewline k))
            <$> sorted_keys m).

Definition check_cidrs (f : Field) (l : list string) : ValidationResult :=
  if (length l =? 0)%nat then [MkIssue f IsRequired]
  else concat ((fun a => add_if (bool_decide (parse_cidr a = None)) f (InvalidCIDR a)) <$> l).

Definition check_key (required : bool) (f : Field) (k : string) : ValidationResult :=
  if k =s "" then add_if required f IsRequired
  else add_if (negb (isValidWireGuardKey k)) f InvalidKeyFormat.

Definition validateInterface (i : InterfaceConfig) : ValidationResult :=
  check_key true FPrivateKey (PrivateKey i)
  ++ check_cidrs FAddress (Address i)
  ++ concat ((fun d => add_if (negb (ip_valid d) && negb (hostname_match d)) FDNS (InvalidDNS d))
               <$> DNS i)
  ++ add_if (negb (MTU i =? 0)%Z && ((MTU i <? 576) || (65535 <? MTU i))%Z) FMTU (OutOfRange (MTU i))
  ++ add_if (negb (ListenPort i =? 0)%Z && ((ListenPort i <? 1) || (65535 <? ListenPort i))%Z)
       FListenPort (OutOfRange (ListenPort i))
  ++ add_if (negb (Table i =s "") && negb (equal_fold (Table i) "off")
             && negb (equal_fold (Table i) "auto") && bool_decide (atoi (Table i) = None))
       FTable (BadTable (Table i))
  ++ add_if (negb (FwMark i =s "") && negb (equal_fold (FwMark i) "off")
             && bool_decide (parseDecimalOrHex (FwMark i) = None))
       FFwMark (BadFwMark (FwMark i))
  ++ check_extra FInterfaceExtra (IfExtraKeys i).

Definition validatePeer (p : PeerConfig) (index : nat) : ValidationResult :=
  check_key true (FPublicKey index) (PublicKey p)
  ++ check_key false (FPresharedKey index) (PresharedKey p)
  ++ (if Endpoint p =s "" then []
      else match validateEndpoint (Endpoint p) with
           | None => []
           | Some e => [MkIssue (FEndpoint index) (BadEndpoint e)]
           end)
  ++ check_cidrs (FAllowedIPs index) (AllowedIPs p)
  ++ add_if ((PersistentKeepalive p <? 0) || (65535 <? PersistentKeepalive p))%Z
       (FKeepalive index) (OutOfRange (PersistentKeepalive p))
  ++ check_extra (FPeerExtra index) (PeerExtraKeys p).

Definition Validate (cfg : WireGuardConfig) : ValidationResult :=
  validateInterface (Interface cfg)
  ++ add_if (length (Peers cfg) =? 0)%nat FPeer NoPeer
  ++ concat (imap (fun i p => validatePeer p i) (Peers cfg)).
