(* ===== verification/ValidatorFacts.v ===== *)
(** * What a validated configuration guarantees

    Every accepted field is free of characters that could end a line or start a comment, so the
    exported text has exactly the lines of the configuration. *)

From S2P Require Import Prelude GoStrings GoNet Domain Config ConfigRoundtrip Validator.

(** ** Harmless characters *)

Definition plain (c : ascii) : bool :=
  solid c && negb (bool_decide (c = "#"%char)) && negb (bool_decide (c = ","%char)).

Lemma plain_spec s :
  string_forall plain s = true -> clean s = true /\ contains_byte "," s = false.
Proof.
  intros H. split; [apply clean_spec; split_and!|].
  - apply solid_tight. revert H. apply string_forall_impl. intros c Hc. unfold plain in Hc. by and_hyps.
  - by apply (string_forall_contains plain).
  - by apply (string_forall_contains plain).
  - by apply (string_forall_contains plain).
Qed.

Ltac all_bytes := intros [[] [] [] [] [] [] [] []]; vm_compute; auto.

Lemma addr_plain c : addr_char c = true -> plain c = true.
Proof. revert c. all_bytes. Qed.

Lemma decimal_plain c : decimal c = true -> plain c = true.
Proof. revert c. all_bytes. Qed.

Lemma alnum_plain c : alnum c = true -> plain c = true.
Proof. revert c. all_bytes. Qed.

Lemma digit_plain c d : digit_val c = Some d -> plain c = true.
Proof.
  intros H. assert (G : bool_decide (is_Some (digit_val c)) = true).
  { apply bool_decide_eq_true. by exists d. }
  clear H. revert c G. all_bytes.
Qed.

Lemma parse_digits_plain base s : forall acc v,
  parse_digits base acc s = Some v -> string_forall plain s = true.
Proof.
  induction s as [|c s IH]; intros acc v H; [done|]. cbn in H |- *.
  destruct (digit_val c) as [d|] eqn:E; [|done]. rewrite (digit_plain c d E).
  destruct (d <? base)%Z; [|done]. by apply IH in H.
Qed.

Lemma parse_int_plain base s v : parse_int base s = Some v -> string_forall plain s = true.
Proof.
  unfold parse_int. intros H. destruct s as [|c s]; [done|].
  assert (Hb : forall neg : bool, (match s with
      | EmptyString => None
      | _ => match parse_digits base 0 s with
             | Some v => if in_int64 (if neg then - v else v)%Z then Some (if neg then - v else v)%Z else None
             | None => None end end = Some v) -> string_forall plain s = true).
  { intros neg Hs. destruct s as [|c' s']; [done|].
    destruct (parse_digits base 0 (String c' s')) eqn:E; [|done]. by apply parse_digits_plain in E. }
  destruct (ascii_dec c "+"%char) as [->|Hp]; [cbn [string_forall]; by rewrite (Hb false)|].
  destruct (ascii_dec c "-"%char) as [->|Hm]; [cbn [string_forall]; by rewrite (Hb true)|].
  assert (E : match String c s with
              | String "+" r => (false, r)
              | String "-" r => (true, r)
              | _ => (false, String c s)
              end = (false, String c s)).
  { clear -Hp Hm. destruct c as [[] [] [] [] [] [] [] []]; done. }
  rewrite E in H. destruct (parse_digits base 0 (String c s)) eqn:Ed; [|done].
  by apply parse_digits_plain in Ed.
Qed.

Lemma label_rest_plain n s : label_rest n s = true -> string_forall plain s = true.
Proof.
  revert n. induction s as [|c s IH]; intros n H; [done|]. cbn [string_forall label_rest] in *.
  destruct s as [|c' s'].
  - by rewrite alnum_plain.
  - destruct n as [|n]; [done|]. and_hyps. rewrite (IH n) by done.
    assert (Hc : plain c = true); [|by rewrite Hc].
    destruct (alnum c) eqn:E; [by apply alnum_plain|]. cbn [orb] in H.
    apply bool_decide_eq_true in H. by subst.
Qed.

Lemma hostname_label_plain l : hostname_label l = true -> string_forall plain l = true.
Proof.
  destruct l as [|c l]; [done|]. unfold hostname_label. intros [Hc Hl]%andb_prop.
  cbn [string_forall]. rewrite alnum_plain by done. apply orb_prop in Hl as [Hl|Hl].
  - by apply bool_decide_eq_true in Hl as ->.
  - by rewrite (label_rest_plain _ _ Hl).
Qed.

Lemma hostname_plain s : hostname_match s = true -> string_forall plain s = true.
Proof.
  unfold hostname_match. rewrite <- (join_split "." s) at 2.
  induction (split_byte "." s) as [|l [|m ls] IH]; intros H; [done| |].
  - cbn [forallb] in H. apply andb_prop in H as [H _]. by apply hostname_label_plain.
  - rewrite join_cons, !string_forall_app. cbn [forallb] in H. apply andb_prop in H as [Hl H].
    by rewrite IH, hostname_label_plain.
Qed.

Lemma lower_alnum_plain a : alnum (lower_byte a) = true -> plain a = true.
Proof. revert a. all_bytes. Qed.

Lemma equal_fold_plain t : forall s,
  string_forall alnum t = true -> equal_fold s t = true -> string_forall plain s = true.
Proof.
  induction t as [|b t IH]; intros [|a s] Ht H; try done. cbn [string_forall equal_fold] in *.
  apply andb_prop in Ht as [Hb Ht], H as [Ha H]. apply bool_decide_eq_true in Ha. subst b.
  by rewrite lower_alnum_plain, IH.
Qed.

(** The base64 alphabet with its padding; CR and LF are skipped by the decoder. *)
Definition b64_char (c : ascii) : bool :=
  bool_decide (is_Some (b64_val c)) || bool_decide (c = "="%char).

Lemma b64_char_plain c : b64_char c = true -> plain c = true.
Proof. revert c. all_bytes. Qed.

Lemma b64_val_char c v : b64_val c = Some v -> b64_char c = true.
Proof. intros H. unfold b64_char. rewrite bool_decide_true; [done|by exists v]. Qed.

Lemma b64_quanta_chars s r : b64_quanta s = Some r -> string_forall b64_char s = true.
Proof.
  revert r. induction s as [s IH] using (induction_ltof1 _ String.length); unfold ltof in IH.
  intros r H. destruct s as [|a [|b [|c [|d s]]]]; try done. cbn [b64_quanta] in H.
  destruct (b64_val a) eqn:Ea; [|done]. destruct (b64_val b) eqn:Eb; [|done].
  cbn [string_forall]. rewrite (b64_val_char a _ Ea), (b64_val_char b _ Eb). cbn [andb].
  destruct (bool_decide (c = "="%char)) eqn:Ec.
  - apply bool_decide_eq_true in Ec. subst c. destruct (_ && _) eqn:E; [|done]. and_hyps.
    bool_hyps. by subst.
  - destruct (b64_val c) eqn:Ec'; [|done]. rewrite (b64_val_char c _ Ec'). cbn [andb].
    destruct (bool_decide (d = "="%char)) eqn:Ed.
    + destruct (bool_decide (s = "")) eqn:Es; [|done]. bool_hyps. by subst.
    + destruct (b64_val d) eqn:Ed'; [|done]. rewrite (b64_val_char d _ Ed').
      destruct (b64_quanta s) eqn:Er; [|done]. cbn [andb]. apply (IH s) in Er; [done|cbn; lia].
Qed.

Lemma drop_newlines_none s : contains_newline s = false -> drop_newlines s = s.
Proof.
  unfold contains_newline. induction s as [|c s IH]; intros H; [done|]. cbn in *. bool_hyps.
  assert (Hc : byte_is c 10 || byte_is c 13 = false).
  { apply orb_false_intro; apply not_true_is_false; intros E; unfold byte_is in E;
      apply Nat.eqb_eq in E; apply (f_equal ascii_of_nat) in E; rewrite ascii_nat_embedding in E.
    - by apply H0.
    - by apply H. }
  rewrite Hc, IH; [done|]. by rewrite H2, H1.
Qed.

Lemma key_plain k :
  isValidWireGuardKey k = true -> contains_newline k = false -> string_forall plain k = true.
Proof.
  unfold isValidWireGuardKey, b64_decode. intros H Hn. rewrite drop_newlines_none in H by done.
  destruct (b64_quanta k) eqn:E; [|done]. apply b64_quanta_chars in E.
  revert E. apply string_forall_impl, b64_char_plain.
Qed.

Lemma ip_plain s : ip_valid s = true -> string_forall plain s = true.
Proof.
  intros H%bool_decide_eq_true%parse_ip_chars. revert H. apply string_forall_impl, addr_plain.
Qed.

Lemma cidr_plain s :
  parse_cidr s <> None -> string_forall plain s = true /\ s <> "" /\ complete_prefix s = s.
Proof.
  intros H. destruct (parse_cidr_chars s) as (a & m & -> & Ha & Hm).
  { destruct (parse_cidr s); [by eexists|done]. }
  split_and!.
  - rewrite !string_forall_app. rewrite (string_forall_impl _ _ _ addr_plain Ha).
    by rewrite (string_forall_impl _ _ _ decimal_plain Hm).
  - intros E. destruct a; done.
  - unfold complete_prefix. by rewrite !contains_byte_app, orb_true_r.
Qed.

Lemma plain_clean v : string_forall plain v = true -> clean v = true.
Proof. intros H. by apply plain_spec in H as [? _]. Qed.

Lemma cut_last_byte_Some c s u v : cut_last_byte c s = Some (u, v) -> s = u +:+ String c v.
Proof.
  revert u v. induction s as [|a s IH]; cbn; intros u v H; [done|].
  destruct (cut_last_byte c s) as [[u' v']|] eqn:E; simplify_eq.
  - rewrite (IH _ _ eq_refl) at 1. by str_simpl.
  - case_bool_decide; by simplify_eq.
Qed.

Lemma split_host_port_plain hp h p :
  split_host_port hp = Some (h, p) -> string_forall plain h = true ->
  string_forall plain p = true -> string_forall plain hp = true.
Proof.
  unfold split_host_port. intros H Hh Hp.
  destruct (cut_last_byte ":" hp) as [[before port]|] eqn:E; [|done].
  apply cut_last_byte_Some in E.
  destruct hp as [|c r]; [by destruct before|].
  destruct (ascii_dec c "["%char) as [->|Hc].
  - destruct (cut_byte "]" r) as [[host after]|] eqn:Er; [|done].
    apply cut_byte_Some in Er as [-> _]. case_bool_decide as Ea; [|done]. subst after.
    step_in H; [done|]. simplify_eq. cbn [string_forall]. rewrite string_forall_app.
    cbn [string_forall]. rewrite string_forall_app, Hh, Hp. reflexivity.
  - assert (H' : (if contains_byte ":" before then None
                  else if contains_byte "[" (String c r) || contains_byte "]" (String c r) then None
                       else Some (before, port)) = Some (h, p)).
    { clear -H Hc. destruct c as [[] [] [] [] [] [] [] []]; done. }
    do 2 (step_in H'; [done|]). simplify_eq. rewrite E, string_forall_app. cbn [string_forall].
    by rewrite Hh, Hp.
Qed.

Lemma endpoint_plain ep : validateEndpoint ep = None -> string_forall plain ep = true.
Proof.
  unfold validateEndpoint. intros H. destruct (split_host_port ep) as [[h p]|] eqn:E; [|done].
  case_bool_decide; [done|]. destruct (_ && _) eqn:Eh; [done|].
  destruct (atoi p) as [n|] eqn:En; [|done].
  eapply split_host_port_plain; [exact E| |by eapply parse_int_plain].
  apply andb_false_iff in Eh as [Eh|Eh]; apply negb_false_iff in Eh;
    [by apply ip_plain|by apply hostname_plain].
Qed.

Lemma table_clean t :
  negb (t =s "") && negb (equal_fold t "off") && negb (equal_fold t "auto")
    && bool_decide (atoi t = None) = false -> clean t = true.
Proof.
  intros H. apply plain_clean. destruct (decide (t = "")) as [->|Hne]; [done|].
  rewrite (bool_decide_false (t = "")) in H by done. cbn [negb andb] in H.
  destruct (equal_fold t "off") eqn:E1; [by apply (equal_fold_plain "off")|].
  destruct (equal_fold t "auto") eqn:E2; [by apply (equal_fold_plain "auto")|].
  cbn [negb andb] in H. bool_hyps. destruct (atoi t) eqn:E; [|done]. by eapply parse_int_plain.
Qed.

Lemma fwmark_clean t :
  negb (t =s "") && negb (equal_fold t "off") && bool_decide (parseDecimalOrHex t = None) = false ->
  clean t = true.
Proof.
  intros H. apply plain_clean. destruct (decide (t = "")) as [->|Hne]; [done|].
  rewrite (bool_decide_false (t = "")) in H by done. cbn [negb andb] in H.
  destruct (equal_fold t "off") eqn:E1; [by apply (equal_fold_plain "off")|].
  cbn [negb andb] in H. bool_hyps. unfold parseDecimalOrHex in H.
  destruct (has_prefix "0x" t) eqn:Ex; [|destruct (has_prefix "0X" t) eqn:EX]; cbn [orb] in H.
  1,2: rewrite (has_prefix_drop _ t) by done; cbn [String.length];
    destruct (parse_int 16 (string_drop 2 t)) eqn:E; [|done]; apply parse_int_plain in E;
    rewrite string_forall_app, E; done.
  destruct (parse_int 10 t) eqn:E; [|done]. by eapply parse_int_plain.
Qed.

(** ** No issue means every test passed *)

Lemma IsValid_nil r : IsValid r = true <-> r = [].
Proof. unfold IsValid. rewrite Nat.eqb_eq. apply length_zero_iff_nil. Qed.

Lemma add_if_nil b f m : add_if b f m = [] -> b = false.
Proof. by destruct b. Qed.

Lemma concat_nil_inv {A B} (f : A -> list B) l :
  concat (f <$> l) = [] -> forall x, x ∈ l -> f x = [].
Proof.
  induction l as [|a l IH]; cbn; intros H x Hx; [by apply elem_of_nil in Hx|].
  apply app_nil in H as [Ha Hl]. apply elem_of_cons in Hx as [->|Hx]; auto.
Qed.

Lemma concat_imap_nil {A B} (f : nat -> A -> list B) l :
  concat (imap f l) = [] -> forall n x, l !! n = Some x -> f n x = [].
Proof.
  revert f. induction l as [|a l IH]; intros f H n x Hn; [done|].
  cbn [imap concat] in H. apply app_nil in H as [Ha Hl]. destruct n as [|n]; cbn in Hn.
  - by simplify_eq.
  - apply (IH (compose f S)); done.
Qed.

(** The fields the validator does not constrain but the text format does: the tunnel name and
    the scripts, the characters of unknown keys and values, newlines inside keys (which the
    base64 decoder skips), and the scanner's limit on a line. *)
Definition key_on_one_line (k : string) : bool := negb (contains_newline k).

Definition exportable (cfg : WireGuardConfig) : bool :=
  (Name cfg =s "") && key_on_one_line (PrivateKey (Interface cfg))
  && wf_script (PreUp (Interface cfg)) && wf_script (PostUp (Interface cfg))
  && wf_script (PreDown (Interface cfg)) && wf_script (PostDown (Interface cfg))
  && wf_extra interface_keys (IfExtraKeys (Interface cfg))
  && forallb (fun p => key_on_one_line (PublicKey p) && key_on_one_line (PresharedKey p)
                       && wf_extra peer_keys (PeerExtraKeys p)) (Peers cfg)
  && lines_fit cfg.

Lemma check_key_clean r f k :
  check_key r f k = [] -> key_on_one_line k = true ->
  clean k = true /\ (r = true -> nonempty k = true).
Proof.
  unfold check_key, key_on_one_line, nonempty. intros H Hn%negb_true_iff.
  case_bool_decide as Ek; apply add_if_nil in H.
  - by subst.
  - split; [|done]. apply negb_false_iff in H. by apply plain_clean, key_plain.
Qed.

Lemma check_cidrs_wf f l : check_cidrs f l = [] -> wf_prefixes l = true.
Proof.
  unfold check_cidrs. destruct (length l =? 0)%nat eqn:El; [done|]. intros H.
  pose proof (concat_nil_inv (fun a => add_if (bool_decide (parse_cidr a = None)) f (InvalidCIDR a)) l H) as Ha. clear H.
  assert (Hp : forall x, x ∈ l -> string_forall plain x = true /\ x <> "" /\ complete_prefix x = x).
  { intros x Hx%Ha%add_if_nil. apply bool_decide_eq_false in Hx. by apply cidr_plain. }
  unfold wf_prefixes. apply andb_true_intro. split.
  - apply wf_items_spec. intros v (Hv & Hne & _)%Hp. split_and!; [by apply plain_clean|done|].
    by apply plain_spec in Hv as [_ ?].
  - apply forallb_true_iff. intros x (_ & _ & Hx)%Hp. by apply bool_decide_eq_true.
Qed.

Lemma validateInterface_wf i :
  validateInterface i = [] -> key_on_one_line (PrivateKey i) = true ->
  wf_script (PreUp i) = true -> wf_script (PostUp i) = true ->
  wf_script (PreDown i) = true -> wf_script (PostDown i) = true ->
  wf_extra interface_keys (IfExtraKeys i) = true -> wf_interface i = true.
Proof.
  unfold validateInterface. intros H Hk H1 H2 H3 H4 He.
  apply app_nil in H as [Hkey H]. apply app_nil in H as [Ha H]. apply app_nil in H as [Hd H].
  apply app_nil in H as [Hm H]. apply app_nil in H as [Hl H]. apply app_nil in H as [Ht H].
  apply app_nil in H as [Hf _]. apply add_if_nil in Hm, Hl, Ht, Hf.
  apply check_key_clean in Hkey as [Hkc Hkn]; [|done]. specialize (Hkn eq_refl).
  apply check_cidrs_wf in Ha. apply table_clean in Ht. apply fwmark_clean in Hf.
  assert (Hdns : wf_items (DNS i) = true).
  { apply wf_items_spec. intros v Hv. pose proof (concat_nil_inv _ _ Hd v Hv) as Hx%add_if_nil.
    assert (Hp : string_forall plain v = true).
    { apply andb_false_iff in Hx as [Hx|Hx]; apply negb_false_iff in Hx;
        [by apply ip_plain|by apply hostname_plain]. }
    split_and!; [by apply plain_clean| |by apply plain_spec in Hp as [_ ?]].
    intros ->. by vm_compute in Hx. }
  unfold wf_interface. rewrite Hkc, Hkn, Ha, Hdns, Ht, Hf, H1, H2, H3, H4, He.
  unfold wf_int. cbn. clear -Hm Hl. lia.
Qed.

Lemma validatePeer_wf p n :
  validatePeer p n = [] -> key_on_one_line (PublicKey p) = true ->
  key_on_one_line (PresharedKey p) = true -> wf_extra peer_keys (PeerExtraKeys p) = true ->
  wf_peer p = true.
Proof.
  unfold validatePeer. intros H Hk1 Hk2 He.
  apply app_nil in H as [H1 H]. apply app_nil in H as [H2 H]. apply app_nil in H as [H3 H].
  apply app_nil in H as [Ha H]. apply app_nil in H as [Hka _]. apply add_if_nil in Hka.
  apply check_key_clean in H1 as [H1 _]; [|done]. apply check_key_clean in H2 as [H2 _]; [|done].
  apply check_cidrs_wf in Ha.
  assert (Hep : clean (Endpoint p) = true).
  { case_bool_decide as Ee; [by rewrite Ee|]. destruct (validateEndpoint _) eqn:E; [done|].
    by apply plain_clean, endpoint_plain. }
  unfold wf_peer. rewrite H1, H2, Hep, Ha, He. unfold wf_int. cbn. clear -Hka. lia.
Qed.

Lemma exportable_wf cfg :
  IsValid (Validate cfg) = true -> exportable cfg = true -> wf_config cfg = true.
Proof.
  intros [Hi H]%IsValid_nil%app_nil Hx. apply app_nil in H as [_ Hp]. unfold exportable in Hx.
  and_hyps. unfold wf_config.
  rewrite (validateInterface_wf (Interface cfg)) by done.
  repeat (apply andb_true_intro; split); try done.
  apply forallb_true_iff. intros p Hpl. pose proof Hpl as [n Hn]%list_elem_of_lookup_1.
  match goal with
  | H : forallb _ (Peers cfg) = true |- _ => rewrite forallb_true_iff in H; specialize (H p Hpl)
  end.
  and_hyps. apply (validatePeer_wf p n); try done.
  by apply (concat_imap_nil _ _ Hp n p).
Qed.

(** A configuration the validator accepts, whose scripts and unknown keys are representable
    ([exportable]), is exported without loss: reading the exported text gives it back, so no
    accepted key, address, DNS entry, endpoint, table or mark can smuggle a line, a comment or a
    second value into the exported file. *)
Theorem Validate_export (cfg : WireGuardConfig) :
  IsValid (Validate cfg) = true -> exportable cfg = true -> Parse (Serialize cfg) = Ok cfg.
Proof. intros Hv He. apply parse_of_lines_wf. by apply exportable_wf. Qed.

Lemma Validate_export_witness :
  IsValid (Validate sample_config) = true /\ exportable sample_config = true
  /\ Parse (Serialize sample_config) = Ok sample_config.
Proof.
  assert (Hv : IsValid (Validate sample_config) = true) by (vm_compute; reflexivity).
  assert (He : exportable sample_config = true) by (vm_compute; reflexivity).
  split; [exact Hv|split; [exact He|]]. exact (Validate_export sample_config Hv He).
Defined.

(** A configuration whose unknown key has a newline in its name. *)
Definition smuggling_config : WireGuardConfig :=
  sample_config <| Interface ::= fun i =>
    i <| PostUp := "" |> <| IfExtraKeys := {["Jc = 4" +:+ nl +:+ "PostUp" := "evil"]} |> |>.

(** The validator looks for newlines in the values of unknown keys only: a key name with a
    newline passes, and the exported text then holds a script directive the configuration does
    not have. *)
Theorem extra_key_name_smuggles_a_script :
  IsValid (Validate smuggling_config) = true /\ HasScripts smuggling_config = false /\
  exists cfg, Parse (Serialize smuggling_config) = Ok cfg /\ PostUp (Interface cfg) = "evil".
Proof.
  split; [vm_compute; reflexivity|]. split; [vm_compute; reflexivity|].
  assert (H : match Parse (Serialize smuggling_config) with
              | Ok cfg => PostUp (Interface cfg) =s "evil" | Err _ => false end = true)
    by (vm_compute; reflexivity).
  revert H. destruct (Parse (Serialize smuggling_config)) as [cfg|e]; [|done]. intros H.
  exists cfg. by apply bool_decide_eq_true in H.
Qed.
