(* ===== verification/Conflict.v ===== *)
(** * Routing conflicts with other interfaces: internal/tunnel/conflict.go

    What the host shows (interfaces, sockets, processes, the output of netstat) is a [HostView].
    [CheckConflicts_spec] shows that an interface is reported exactly when some address lies both
    in one of the new ranges and in one of the interface's routes. *)

From S2P Require Import Prelude GoStrings GoNet GoNetFacts.

(** ** The host *)

Record HostView := MkHost {
  net_Interfaces : option (list string);   (** net.Interfaces; [None] is an error *)
  sockets : string -> bool;                (** the path is an existing socket *)
  processExists : string -> bool;          (** pgrep -x prints something *)
  netstat : option string                  (** netstat -rn -f inet; [None] is an error *)
}.

Record ConflictInfo := MkConflict {
  InterfaceName : string; Owner : string; OverlappingIPs : list string }.

Record ExistingInterface := MkExisting { ExName : string; ExOwner : string; ExRoutes : list string }.

Definition isWireGuardLike (name : string) : bool :=
  has_prefix "utun" name || has_prefix "wg" name || has_prefix "tun" name.

Definition socketExists (h : HostView) (path : string) : bool := sockets h path.

Definition processOwnsInterface (h : HostView) (ifaceName processName : string) : bool :=
  processExists h processName.

Definition identifyOwner (h : HostView) (ifaceName : string) : string :=
  if socketExists h ("/var/run/wireguard/" +:+ ifaceName +:+ ".sock") then "WireGuard"
  else if existsb (fun p => socketExists h p && processExists h "tailscaled")
            ["/var/run/tailscale/tailscaled.sock"; "/var/run/tailscaled.sock"] then "Tailscale"
  else if processOwnsInterface h ifaceName "tailscaled" then "Tailscale"
  else if processOwnsInterface h ifaceName "wireguard-go" then "WireGuard"
  else "Unknown".

(** ** The routing table printed by netstat *)

(** The header names the columns; a later duplicate wins, as in the source's loop. *)
Record Columns := MkColumns { destIdx : option nat; netifIdx : option nat }.

Definition read_header (cols : Columns) (fs : list string) : Columns :=
  foldl (fun cols '(i, f) =>
           if f =s "Destination" then MkColumns (Some i) (netifIdx cols)
           else if f =s "Netif" then MkColumns (destIdx cols) (Some i)
           else cols)
    cols (imap pair fs).

(** The failures of a check: no list of interfaces, or an index past the end of a row (the
    run-time panic of [fields[destIdx]]; it needs a header with "Destination" after "Netif"). *)
Inductive CheckError := InterfacesError | IndexOutOfRange.

Definition route_of_row (ifaceName : string) (fs : list string) (dest netif : nat)
    : result CheckError (list string) :=
  match fs !! netif with
  | None => Ok []
  | Some f =>
      if negb (f =s ifaceName) then Ok []
      else match fs !! dest with
           | None => Err IndexOutOfRange
           | Some route => Ok (if route =s "default" then ["0.0.0.0/0"] else [route])
           end
  end.

Fixpoint scan_routes (ifaceName : string) (cols : Columns) (lines : list string)
    : result CheckError (list string) :=
  match lines with
  | [] => Ok []
  | line :: rest =>
      match fields line with
      | [] => scan_routes ifaceName cols rest
      | fs =>
          match netifIdx cols with
          | None => scan_routes ifaceName (read_header cols fs) rest
          | Some netif =>
              let? row := match destIdx cols with
                          | None => Ok []
                          | Some dest => route_of_row ifaceName fs dest netif
                          end in
              let? routes := scan_routes ifaceName cols rest in
              Ok (row ++ routes)
          end
      end
  end.

Definition getRoutesDarwin (h : HostView) (ifaceName : string) : result CheckError (list string) :=
  match netstat h with
  | None => Ok []
  | Some out => scan_routes ifaceName (MkColumns None None) (split_byte newline out)
  end.

Definition getInterfaceRoutes (h : HostView) (ifaceName : string) := getRoutesDarwin h ifaceName.

Fixpoint scan_interfaces (h : HostView) (names : list string)
    : result CheckError (list ExistingInterface) :=
  match names with
  | [] => Ok []
  | name :: rest =>
      if negb (isWireGuardLike name) then scan_interfaces h rest
      else
        let? routes := getInterfaceRoutes h name in
        let? others := scan_interfaces h rest in
        Ok ((if (0 <? length routes)%nat then [MkExisting name (identifyOwner h name) routes]
             else []) ++ others)
  end.

Definition scanWireGuardInterfaces (h : HostView) : result CheckError (list ExistingInterface) :=
  match net_Interfaces h with
  | None => Err InterfacesError
  | Some ifaces => scan_interfaces h ifaces
  end.

(** ** Overlaps *)

Definition pad_octets (octets : list string) : list string :=
  octets ++ replicate (4 - length octets) "0".

Definition normalizeCIDR (s : string) : string :=
  match cut_byte "/" s with
  | None => if contains_byte ":" s then s +:+ "/128" else s +:+ "/32"
  | Some (ip, mask) =>
      (if contains_byte ":" ip then ip else join "." (pad_octets (split_byte "." ip)))
        +:+ "/" +:+ mask
  end.

Definition nets_overlap (n1 n2 : ipnet) : bool :=
  net_contains n1 (net_ip n2) || net_contains n2 (net_ip n1).

(** The inner loop: the first existing range that overlaps is reported, unless [newCIDR] has been
    reported already. *)
Fixpoint overlaps_of (newCIDR : string) (newNet : ipnet) (existing : list string)
    (acc : list string * list string) : list string * list string :=
  match existing with
  | [] => acc
  | existCIDR :: rest =>
      let '(overlaps, seen) := acc in
      let acc' :=
        match parse_cidr (normalizeCIDR existCIDR) with
        | None => acc
        | Some (_, existNet) =>
            if nets_overlap newNet existNet then
              if bool_decide (newCIDR ∈ seen) then acc
              else (overlaps ++ [newCIDR +:+ " <> " +:+ existCIDR], newCIDR :: seen)
            else acc
        end in
      overlaps_of newCIDR newNet rest acc'
  end.

Fixpoint overlaps_loop (newIPs existing : list string) (acc : list string * list string)
    : list string * list string :=
  match newIPs with
  | [] => acc
  | newCIDR :: rest =>
      overlaps_loop rest existing
        match parse_cidr (normalizeCIDR newCIDR) with
        | None => acc
        | Some (_, newNet) => overlaps_of newCIDR newNet existing acc
        end
  end.

Definition findOverlaps (newIPs existingIPs : list string) : list string :=
  fst (overlaps_loop newIPs existingIPs ([], [])).

Definition conflict_of (newAllowedIPs : list string) (iface : ExistingInterface)
    : list ConflictInfo :=
  let overlaps := findOverlaps newAllowedIPs (ExRoutes iface) in
  if (0 <? length overlaps)%nat then [MkConflict (ExName iface) (ExOwner iface) overlaps] else [].

Definition CheckConflicts (h : HostView) (newAllowedIPs : list string)
    : result CheckError (list ConflictInfo) :=
  let? interfaces := scanWireGuardInterfaces h in
  Ok (concat (conflict_of newAllowedIPs <$> interfaces)).

(** ** The overlap test is exact *)

(** The range [s] of a configuration or of the routing table holds the address [ip]. *)
Definition covers (s : string) (ip : list Z) : Prop :=
  exists r n, parse_cidr (normalizeCIDR s) = Some (r, n) /\ net_contains n ip = true.

Definition share_address (new existing : list string) : Prop :=
  exists ip, (exists a, a ∈ new /\ covers a ip) /\ (exists b, b ∈ existing /\ covers b ip).

Definition hits (newNet : ipnet) (exist : string) : Prop :=
  exists r n, parse_cidr (normalizeCIDR exist) = Some (r, n) /\ nets_overlap newNet n = true.

(** What has been seen has been reported. *)
Definition seen_reported (acc : list string * list string) : Prop := snd acc <> [] -> fst acc <> [].

Lemma overlaps_of_spec new net existing acc :
  seen_reported acc ->
  seen_reported (overlaps_of new net existing acc) /\
  (fst (overlaps_of new net existing acc) <> []
   <-> fst acc <> [] \/ exists e, e ∈ existing /\ hits net e).
Proof.
  revert acc. induction existing as [|e es IH]; intros [o seen] Hs; cbn [overlaps_of].
  { split; [done|]. split; [auto|]. intros [?|(x & Hx%elem_of_nil & _)]; done. }
  set (acc' := match parse_cidr (normalizeCIDR e) with None => _ | _ => _ end).
  assert (Ha : seen_reported acc' /\ (fst acc' <> [] <-> o <> [] \/ hits net e)).
  { unfold acc'. clear acc' IH. destruct (parse_cidr (normalizeCIDR e)) as [[r n]|] eqn:E.
    2: { split; [done|]. split; [by left|]. intros [?|(? & ? & ? & _)]; [done|congruence]. }
    destruct (nets_overlap net n) eqn:En.
    - assert (Hh : hits net e) by (by exists r, n). case_bool_decide as Hin; cbn.
      + split; [done|]. split; [by right|]. intros _. apply Hs. cbn. intros ->. by apply elem_of_nil in Hin.
      + assert (Hne : o ++ [new +:+ " <> " +:+ e] <> []) by (destruct o; discriminate).
        split; [intros _; exact Hne|]. split; [by right|]. intros _. exact Hne.
    - split; [done|]. split; [by left|]. intros [?|(r' & n' & E' & En')]; [done|].
      rewrite E in E'. injection E' as <- <-. congruence. }
  destruct Ha as [Ha1 Ha2]. destruct (IH acc' Ha1) as [H1 H2]. split; [done|].
  rewrite H2, Ha2, exists_elem_of_cons. cbn [fst]. tauto.
Qed.

Lemma overlaps_loop_spec new existing acc :
  seen_reported acc ->
  (fst (overlaps_loop new existing acc) <> []
   <-> fst acc <> [] \/ exists a r n e, a ∈ new /\ parse_cidr (normalizeCIDR a) = Some (r, n)
                                        /\ e ∈ existing /\ hits n e).
Proof.
  revert acc. induction new as [|a new IH]; intros acc Hs; cbn [overlaps_loop].
  { split; [auto|]. intros [?|(x & ? & ? & ? & Hx%elem_of_nil & _)]; done. }
  destruct (parse_cidr (normalizeCIDR a)) as [[r n]|] eqn:E.
  - destruct (overlaps_of_spec a n existing acc Hs) as [H1 H2]. rewrite (IH _ H1), H2.
    split.
    + intros [[?|(e & ? & ?)]|(a' & r' & n' & e & ? & ? & ? & ?)]; [by left| |].
      * right. exists a, r, n, e. split_and!; [by left|done..].
      * right. exists a', r', n', e. split_and!; [by right|done..].
    + intros [?|(a' & r' & n' & e & [->|?]%elem_of_cons & E' & ? & ?)]; [by left; left| |].
      * rewrite E in E'. injection E' as <- <-. left. right. by exists e.
      * right. by exists a', r', n', e.
  - rewrite (IH _ Hs). split; (intros [?|(a' & r' & n' & e & Hin & E' & ? & ?)]; [by left|right]).
    + exists a', r', n', e. split_and!; [by right|done..].
    + apply elem_of_cons in Hin as [->|?]; [congruence|]. by exists a', r', n', e.
Qed.

Lemma findOverlaps_nonempty new existing :
  findOverlaps new existing <> [] <-> share_address new existing.
Proof.
  unfold findOverlaps. rewrite overlaps_loop_spec by (intros H; exact H). cbn [fst]. split.
  - intros [?|(a & r & n & e & Ha & Ea & He & r' & n' & Ee & Hov)]; [done|].
    unfold nets_overlap in Hov. apply nets_meet in Hov as (ip & H1 & H2); [|by eapply parse_cidr_good..].
    exists ip. split; [exists a|exists e]; (split; [done|]);
      [exists r, n|exists r', n']; done.
  - intros (ip & (a & Ha & r & n & Ea & H1) & (e & He & r' & n' & Ee & H2)). right.
    exists a, r, n, e. split_and!; [done..|]. exists r', n'. split; [done|].
    apply nets_meet; [by eapply parse_cidr_good..|]. by exists ip.
Qed.

Lemma scan_interfaces_spec h names infos :
  scan_interfaces h names = Ok infos ->
  forall i, i ∈ infos <->
    ExName i ∈ names /\ isWireGuardLike (ExName i) = true /\ ExOwner i = identifyOwner h (ExName i)
    /\ getInterfaceRoutes h (ExName i) = Ok (ExRoutes i) /\ ExRoutes i <> [].
Proof.
  revert infos. induction names as [|n names IH]; intros infos H i; cbn [scan_interfaces] in H.
  { injection H as <-. rewrite !elem_of_nil. tauto. }
  destruct (isWireGuardLike n) eqn:Ew; cbn [negb] in H.
  - apply result_bind_ok in H as (routes & Er & (others & Eo & [= <-])%result_bind_ok).
    rewrite elem_of_app, (IH _ Eo), elem_of_cons. destruct (Nat.ltb_spec 0 (length routes)) as [Hl|Hl].
    + rewrite list_elem_of_singleton. split.
      * intros [->|(? & ? & ? & ? & ?)]; [|by auto]. cbn. split_and!; auto.
        intros ->. cbn in Hl. lia.
      * intros ([Hn|?] & ? & Ho & Hr & ?); [left|by right; auto].
        destruct i as [nm ow rs]. cbn in *. congruence.
    + rewrite elem_of_nil. split; [tauto|]. intros ([->|?] & ? & ? & Hr & Hne); [|by right].
      exfalso. apply Hne. rewrite Er in Hr. injection Hr as <-. by destruct routes; [|cbn in Hl; lia].
  - rewrite (IH _ H), elem_of_cons. split; [tauto|]. intros ([->|?] & ? & ?); [congruence|tauto].
Qed.

(** A conflict check that completes reports an interface exactly when it is one of the host's
    tunnel interfaces and some address lies both in one of the new ranges and in one of the
    interface's routes; and it says who owns it. *)
Theorem CheckConflicts_spec (h : HostView) (new : list string) (infos : list ConflictInfo)
    (name : string) :
  CheckConflicts h new = Ok infos ->
  (exists c, c ∈ infos /\ InterfaceName c = name) <->
  exists ifaces routes, net_Interfaces h = Some ifaces /\ name ∈ ifaces
    /\ isWireGuardLike name = true /\ getInterfaceRoutes h name = Ok routes
    /\ share_address new routes.
Proof.
  unfold CheckConflicts. intros (xs & Hx & [= <-])%result_bind_ok.
  unfold scanWireGuardInterfaces in Hx. destruct (net_Interfaces h) as [ifaces|] eqn:Ei; [|done].
  pose proof (scan_interfaces_spec _ _ _ Hx) as Hs.
  assert (Hin : forall c, c ∈ concat (conflict_of new <$> xs) <-> exists i, i ∈ xs /\ c ∈ conflict_of new i).
  { intros c. apply elem_of_concat_fmap. }
  assert (Hc : forall i, (exists c, c ∈ conflict_of new i) <-> share_address new (ExRoutes i)).
  { intros i. rewrite <- findOverlaps_nonempty. unfold conflict_of.
    destruct (findOverlaps new (ExRoutes i)); cbn; [|change (0 <? S _)%nat with true].
    - split; [intros (c & Hc%elem_of_nil)|]; done.
    - split; [done|]. intros _. eexists. by left. }
  split.
  - intros (c & (i & Hi & Hci)%Hin & <-). pose proof (ex_intro (fun c => c ∈ _) c Hci) as Hsh%Hc.
    apply Hs in Hi as (H1 & H2 & _ & H3 & _). exists ifaces, (ExRoutes i).
    assert (InterfaceName c = ExName i) as ->.
    { unfold conflict_of in Hci. destruct (_ <? _)%nat; [|by apply elem_of_nil in Hci].
      by apply list_elem_of_singleton in Hci as ->. }
    done.
  - intros (ifs & routes & [= <-] & Hn & Hw & Hr & Hsh).
    set (i := MkExisting name (identifyOwner h name) routes).
    assert (Hi : i ∈ xs).
    { apply Hs. cbn. split_and!; try done. intros ->. destruct Hsh as (? & _ & b & Hb%elem_of_nil & _). done. }
    destruct (proj2 (Hc i) Hsh) as [c Hcc]. exists c. split; [apply Hin; eauto|].
    unfold conflict_of in Hcc. destruct (_ <? _)%nat; [|by apply elem_of_nil in Hcc].
    by apply list_elem_of_singleton in Hcc as ->.
Qed.

Definition sample_host : HostView :=
  MkHost (Some ["lo0"; "en0"; "utun4"]) (fun p => p =s "/var/run/wireguard/utun4.sock") (fun _ => false)
    (Some (join (String newline "")
       ["Routing tables"; ""; "Internet:"; "Destination        Gateway            Flags        Netif Expire";
        "default            192.168.1.1        UGSc           en0";
        "10.99/16           10.99.0.2          UGSc         utun4";
        "127                127.0.0.1          UCS            lo0"])).

Lemma CheckConflicts_spec_witness :
  exists infos, CheckConflicts sample_host ["10.0.0.0/8"; "192.168.0.0/16"] = Ok infos /\
    ((exists c, c ∈ infos /\ InterfaceName c = "utun4") <->
     exists ifaces routes, net_Interfaces sample_host = Some ifaces /\ "utun4" ∈ ifaces
       /\ isWireGuardLike "utun4" = true /\ getInterfaceRoutes sample_host "utun4" = Ok routes
       /\ share_address ["10.0.0.0/8"; "192.168.0.0/16"] routes).
Proof.
  assert (E : CheckConflicts sample_host ["10.0.0.0/8"; "192.168.0.0/16"]
              = Ok [MkConflict "utun4" "WireGuard" ["10.0.0.0/8 <> 10.99/16"]])
    by (vm_compute; reflexivity).
  eexists. split; [exact E|]. exact (CheckConflicts_spec _ _ _ "utun4" E).
Defined.
