(* ===== verification/OvpnParse.v ===== *)
(** * Reading an .ovpn profile: internal/ovpn/parse.go

    The package ports OpenVPN's own reader so that the validator sees the directives the root
    process will see.  Here a [lineSource] is the unread text with the number of its first line
    instead of absolute offsets: the offsets of the source are used for line numbers and to cut
    out the body of a block, which is the text its lines concatenate to.  The main loops carry
    fuel; [parseConfig] supplies the length of the text, and [parseConfig_total] shows that this
    is enough. *)

From S2P Require Import Prelude GoStrings.

Definition optionLineSize : nat := 256.
Definition optionParmSize : nat := 256.
Definition maxParms : nat := 16.

#[warnings="-register-all"]
Inductive directive := MkDirective {
  dName : string;
  dArgs : list string;
  dLine : Z;
  dInline : bool;
  dBody : string;
  dChildren : list directive
}.

(** ** One line *)

Definition cIsSpace (c : ascii) : bool :=
  let n := nat_of_ascii c in
  ((n =? 32) || (n =? 9) || (n =? 10) || (n =? 11) || (n =? 12) || (n =? 13))%nat.

Inductive LineError :=
| BadBackslash | ParameterTooLong | NoClosingDQuote | NoClosingSQuote | ResidualState.

(** [stDone] never survives an iteration, so it is not a state here. *)
Inductive LexState := stInitial | stQuoted | stUnquoted | stSQuoted.

#[export] Instance lex_state_eq_dec : EqDecision LexState.
Proof. solve_decision. Defined.

(** [parm] is the token read so far, backwards. *)
Record Lexer := MkLexer {
  lex_state : LexState; lex_backslash : bool; lex_parm : list ascii; lex_ret : list string }.

(** The switch of one iteration: the next state, or [None] for a token that is complete, and the
    byte to add to the token ([None]: none). *)
Inductive LexMove :=
| LexComment
| LexDone
| LexTo (s : LexState) (out : option ascii).

Definition out_byte (c : ascii) : option ascii := if bool_decide (c = nul) then None else Some c.

Definition lex_switch (st : LexState) (bs : bool) (c : ascii) : LexMove :=
  match st with
  | stInitial =>
      if bool_decide (c = nul) || cIsSpace c then LexTo stInitial None
      else if bool_decide (c = ";"%char) || bool_decide (c = "#"%char) then LexComment
      else if negb bs && bool_decide (c = dquote) then LexTo stQuoted None
      else if negb bs && bool_decide (c = "'"%char) then LexTo stSQuoted None
      else LexTo stUnquoted (out_byte c)
  | stUnquoted =>
      if negb bs && (bool_decide (c = nul) || cIsSpace c) then LexDone
      else LexTo stUnquoted (out_byte c)
  | stQuoted =>
      if negb bs && bool_decide (c = dquote) then LexDone else LexTo stQuoted (out_byte c)
  | stSQuoted =>
      if bool_decide (c = "'"%char) then LexDone else LexTo stSQuoted (out_byte c)
  end.

Inductive LexResult := LexGo (l : Lexer) | LexEnd (l : Lexer) | LexFail (e : LineError).

(** One iteration of the loop of parseLine. *)
Definition lex_step (l : Lexer) (c : ascii) : LexResult :=
  if negb (lex_backslash l) && bool_decide (c = "\"%char) && negb (bool_decide (lex_state l = stSQuoted))
  then LexGo (MkLexer (lex_state l) true (lex_parm l) (lex_ret l))
  else
    match lex_switch (lex_state l) (lex_backslash l) c with
    | LexComment => LexEnd l
    | LexDone =>
        let ret := lex_ret l ++ [string_of (rev (lex_parm l))] in
        let l' := MkLexer stInitial false [] ret in
        if (maxParms <=? length ret)%nat then LexEnd l' else LexGo l'
    | LexTo st None => LexGo (MkLexer st false (lex_parm l) (lex_ret l))
    | LexTo st (Some o) =>
        if lex_backslash l && negb (bool_decide (o = "\"%char) || bool_decide (o = dquote) || cIsSpace o)
        then LexFail BadBackslash
        else if (optionParmSize <=? length (lex_parm l))%nat then LexFail ParameterTooLong
        else LexGo (MkLexer st false (o :: lex_parm l) (lex_ret l))
    end.

(** The label [end]. *)
Definition lex_end (l : Lexer) : result LineError (list string) :=
  match lex_state l with
  | stQuoted => Err NoClosingDQuote
  | stSQuoted => Err NoClosingSQuote
  | stInitial => Ok (lex_ret l)
  | stUnquoted => Err ResidualState
  end.

(** The loop runs once more past the last byte, on C's string terminator. *)
Fixpoint lex_run (l : Lexer) (s : string) : result LineError (list string) :=
  match s with
  | EmptyString =>
      match lex_step l nul with
      | LexGo l' | LexEnd l' => lex_end l'
      | LexFail e => Err e
      end
  | String c s' =>
      match lex_step l c with
      | LexGo l' => lex_run l' s'
      | LexEnd l' => lex_end l'
      | LexFail e => Err e
      end
  end.

Definition parseLine (line : string) : result LineError (list string) :=
  lex_run (MkLexer stInitial false [] []) line.

Definition bypassDoubleDash (s : string) : string :=
  if (3 <=? String.length s)%nat && has_prefix "--" s then string_drop 2 s else s.

(** Exactly one token of the form <name>. *)
Definition inlineTag (p : list string) : option string :=
  match p with
  | [String "<" r] =>
      match rev (bytes_of r) with
      | c :: m => if bool_decide (c = ">"%char) then Some (string_of (rev m)) else None
      | [] => None
      end
  | _ => None
  end.

(** ** Sources of lines *)

Record lineSource := MkSource {
  src_rest : string;   (** data[pos:end] *)
  src_line : Z;        (** lineNo(data, pos) *)
  src_buf : bool       (** bufParse semantics *)
}.

Fixpoint count_newlines (s : string) : Z :=
  match s with
  | EmptyString => 0
  | String c s' => ((if bool_decide (c = newline) then 1 else 0) + count_newlines s')%Z
  end.

(** At most [n] bytes, up to and including a newline. *)
Fixpoint take_line (n : nat) (s : string) : string * string :=
  match n, s with
  | S n', String c s' =>
      if bool_decide (c = newline) then (String c "", s')
      else let '(l, r) := take_line n' s' in (String c l, r)
  | _, _ => ("", s)
  end.

Definition advance (src : lineSource) (consumed rest : string) : lineSource :=
  MkSource rest (src_line src + count_newlines consumed)%Z (src_buf src).

Definition fgets (src : lineSource) (size : nat) : option (string * lineSource) :=
  if src_rest src =s "" then None
  else let '(line, rest) := take_line (size - 1) (src_rest src) in
       Some (line, advance src line rest).

Inductive BufStop := AtEnd | AtDelimiter | AtLimit.

#[export] Instance buf_stop_eq_dec : EqDecision BufStop.
Proof. solve_decision. Defined.

Fixpoint buf_scan (n : nat) (s : string) {struct s} : string * string * BufStop :=
  match s with
  | EmptyString => ("", "", AtEnd)
  | String c s' =>
      if bool_decide (c = newline) then ("", s', AtDelimiter)
      else match n with
           | O => ("", s, AtLimit)
           | S n' => let '(l, r, st) := buf_scan n' s' in (String c l, r, st)
           end
  end.

(** The line, whether it hit the size limit, and the rest; [None] is [!ok]. *)
Definition bufParse (src : lineSource) (size : nat) : option (string * bool * lineSource) :=
  let '(line, rest, stop) := buf_scan (size - 1) (src_rest src) in
  if bool_decide (stop = AtEnd) && (line =s "") then None
  else
    Some (line, bool_decide (stop = AtLimit),
          MkSource rest (src_line src + if bool_decide (stop = AtDelimiter) then 1 else 0)%Z
            (src_buf src)).

Definition source_get (src : lineSource) : option (string * bool * lineSource) :=
  if negb (src_buf src) then
    match fgets src optionLineSize with
    | None => None
    | Some (line, src') => Some (line, false, src')
    end
  else
    match bufParse src optionLineSize with
    | None => None
    | Some (line, truncated, src') =>
        Some (if (String.length line + 1 <? optionLineSize)%nat then line +:+ String newline "" else line,
              truncated, src')
    end.

(** ** Inline blocks *)

Inductive OvpnError :=
| NulByte (line : Z)
| LineTooLong (line : Z)
| BadLine (line : Z) (e : LineError)
| EndTagMissing (line : Z) (tag : string)
| BlockLineTooLong (line : Z) (tag : string) (at_line : Z)
| ConnectionLineTooLong (line : Z)
| NestedConnection (line : Z)
| OutOfFuel.

(** strings.TrimLeft with the C white space *)
Fixpoint trim_left_c (s : string) : string :=
  match s with
  | String c s' => if cIsSpace c then trim_left_c s' else s
  | EmptyString => ""
  end.

(** [openLine] and [tag] are for the errors, which parseConfig adds. *)
Fixpoint readInline (fuel : nat) (openLine : Z) (tag : string) (src : lineSource) (body : string)
    : result OvpnError (string * lineSource) :=
  match fuel with
  | O => Err OutOfFuel
  | S fuel' =>
      match source_get src with
      | None => Err (EndTagMissing openLine tag)
      | Some (line, truncated, src') =>
          if truncated : bool then Err (BlockLineTooLong openLine tag (src_line src))
          else if has_prefix ("</" +:+ tag +:+ ">") (trim_left_c line) then Ok (body, src')
          else readInline fuel' openLine tag src' (body +:+ line)
      end
  end.

(** ** Whole files *)

Definition at_line {A} (ln : Z) (r : result LineError A) : result OvpnError A :=
  map_err (BadLine ln) r.

Fixpoint connection_loop (fuel : nat) (src : lineSource) : result OvpnError (list directive) :=
  match fuel with
  | O => Err OutOfFuel
  | S fuel' =>
      match bufParse src optionLineSize with
      | None => Ok []
      | Some (line, truncated, src') =>
          let ln := src_line src in
          if truncated : bool then Err (ConnectionLineTooLong ln)
          else
            let? p := at_line ln (parseLine line) in
            match p with
            | [] => connection_loop fuel' src'
            | p0 :: args =>
                let p0' := bypassDoubleDash p0 in
                match inlineTag (p0' :: args) with
                | Some tag =>
                    let? (body, src2) := readInline fuel' ln tag src' "" in
                    if tag =s "connection" then Err (NestedConnection ln)
                    else
                      let? ds := connection_loop fuel' src2 in
                      Ok (MkDirective tag [] ln true body [] :: ds)
                | None =>
                    let? ds := connection_loop fuel' src' in
                    Ok (MkDirective p0' args ln false "" [] :: ds)
                end
            end
      end
  end.

(** The region between the tags is the text [body], which starts on line [line]. *)
Definition parseConnection (body : string) (line : Z) : result OvpnError (list directive) :=
  connection_loop (S (String.length body)) (MkSource body line true).

Definition utf8_bom : string := String "239" (String "187" (String "191" "")).

Fixpoint config_loop (fuel : nat) (first : bool) (src : lineSource)
    : result OvpnError (list directive) :=
  match fuel with
  | O => Err OutOfFuel
  | S fuel' =>
      match fgets src (optionLineSize + 1) with
      | None => Ok []
      | Some (line0, src') =>
          let ln := src_line src in
          if (String.length line0 =? optionLineSize)%nat then Err (LineTooLong ln)
          else
            let line := if first then trim_prefix utf8_bom line0 else line0 in
            let? p := at_line ln (parseLine line) in
            match p with
            | [] => config_loop fuel' false src'
            | p0 :: args =>
                let p0' := bypassDoubleDash p0 in
                match inlineTag (p0' :: args) with
                | Some tag =>
                    let? (body, src2) := readInline fuel' ln tag src' "" in
                    let? children := if tag =s "connection" then parseConnection body (src_line src')
                                     else Ok [] in
                    let? ds := config_loop fuel' false src2 in
                    Ok (MkDirective tag [] ln true body children :: ds)
                | None =>
                    let? ds := config_loop fuel' false src' in
                    Ok (MkDirective p0' args ln false "" [] :: ds)
                end
            end
      end
  end.

(** The line of the first NUL byte. *)
Definition nul_line (data : string) : option Z :=
  match cut_byte nul data with
  | None => None
  | Some (before, _) => Some (count_newlines before + 1)%Z
  end.

Definition parseConfig (data : string) : result OvpnError (list directive) :=
  match nul_line data with
  | Some ln => Err (NulByte ln)
  | None => config_loop (S (S (String.length data))) true (MkSource data 1 false)
  end.

(** ** walkDirectives *)

(** The directives in the order of the visit; [fn] of the source folds over them. *)
Fixpoint walk_order (d : directive) : list directive :=
  d :: (fix go ds := match ds with [] => [] | c :: ds' => walk_order c ++ go ds' end) (dChildren d).

Definition walkDirectives {A} (ds : list directive) (fn : A -> directive -> A) (a : A) : A :=
  foldl fn a (concat (walk_order <$> ds)).
