(* ===== verification/OvpnParseFacts.v ===== *)
(** * The profile reader: termination, bounds, and what it reads back

    [parseConfig_total]: the fuel of the main loops is enough for every text.
    [parseLine_quote]: tokens written in OpenVPN's quoted form are read back.
    [parseConfig_bounds]: what every directive respects. *)

From S2P Require Import Prelude GoStrings OvpnParse.

(** ** Sources make progress *)

Lemma take_line_app n s l r : take_line n s = (l, r) -> s = l +:+ r.
Proof.
  revert s l r. induction n as [|n IH]; intros s l r H; cbn in H; [destruct s; by simplify_eq|].
  destruct s as [|c s]; [by simplify_eq|]. case_bool_decide; [by simplify_eq|].
  destruct (take_line n s) as [l' r'] eqn:E. simplify_eq. rewrite string_app_cons. by rewrite (IH _ _ _ E).
Qed.

Lemma fgets_shrinks src size line src' :
  (2 <= size)%nat -> fgets src size = Some (line, src') ->
  src_rest src = line +:+ src_rest src' /\ (String.length (src_rest src') < String.length (src_rest src))%nat
  /\ src_buf src' = src_buf src.
Proof.
  unfold fgets. intros Hs H. case_bool_decide as Hr; [done|].
  destruct (take_line (size - 1) (src_rest src)) as [l r] eqn:E. simplify_eq. cbn [src_rest src_buf advance].
  pose proof (take_line_app _ _ _ _ E) as Ha. split_and!; [done| |done].
  rewrite Ha, string_length_app. destruct line; [|cbn; lia]. exfalso.
  destruct (src_rest src) as [|c s]; [done|]. destruct size as [|[|n]]; [lia..|].
  change (S (S n) - 1)%nat with (S n) in E. cbn in E. case_bool_decide; [done|].
  by destruct (take_line n s).
Qed.

Lemma buf_scan_shrinks n : forall s l r st,
  buf_scan n s = (l, r, st) ->
  String.length s = (String.length l + String.length r + if bool_decide (st = AtDelimiter) then 1 else 0)%nat
  /\ (st = AtLimit -> String.length l = n).
Proof.
  intros s. revert n. induction s as [|c s IH]; intros n l r st H; cbn in H.
  { injection H as <- <- <-. by split. }
  case_bool_decide.
  { injection H as <- <- <-. split; [|done]. rewrite bool_decide_true by done. cbn. lia. }
  destruct n as [|n].
  { injection H as <- <- <-. split; [|done]. rewrite bool_decide_false by done. cbn. lia. }
  destruct (buf_scan n s) as [[l' r'] st'] eqn:E.
  injection H as <- <- <-. apply IH in E as [E1 E2]. cbn [String.length]. split; [lia|].
  intros Hx%E2. lia.
Qed.

Lemma bufParse_shrinks src size line tr src' :
  (2 <= size)%nat -> bufParse src size = Some (line, tr, src') ->
  (String.length (src_rest src') < String.length (src_rest src))%nat /\ src_buf src' = src_buf src.
Proof.
  unfold bufParse. intros Hs H. destruct (buf_scan _ _) as [[l r] st] eqn:E.
  apply buf_scan_shrinks in E as [E1 E2]. destruct (_ && _) eqn:Eb; [done|]. simplify_eq.
  cbn [src_rest src_buf]. split; [|done]. rewrite E1.
  destruct st.
  - rewrite bool_decide_false by done. rewrite bool_decide_true in Eb by done. cbn [andb] in Eb.
    apply bool_decide_eq_false in Eb. destruct line; [done|]. cbn [String.length]. lia.
  - rewrite bool_decide_true by done. lia.
  - rewrite E2 by done. rewrite bool_decide_false by done. lia.
Qed.

Lemma source_get_shrinks src line tr src' :
  source_get src = Some (line, tr, src') ->
  (String.length (src_rest src') < String.length (src_rest src))%nat.
Proof.
  unfold source_get. intros H. destruct (negb _).
  - destruct (fgets _ _) as [[l s]|] eqn:E; [|done]. simplify_eq.
    by apply fgets_shrinks in E as (_ & ? & _); [|unfold optionLineSize; lia].
  - destruct (bufParse _ _) as [[[l t] s]|] eqn:E; [|done]. simplify_eq.
    by apply bufParse_shrinks in E as [? _]; [|unfold optionLineSize; lia].
Qed.

Lemma readInline_total fuel : forall ln tag src body,
  (String.length (src_rest src) < fuel)%nat -> readInline fuel ln tag src body <> Err OutOfFuel.
Proof.
  induction fuel as [|fuel IH]; intros ln tag src body Hf; [lia|]. cbn [readInline].
  destruct (source_get src) as [[[line tr] src']|] eqn:E; [|done].
  apply source_get_shrinks in E. destruct tr; [done|]. destruct (has_prefix _ _); [done|].
  apply IH. lia.
Qed.

Lemma readInline_shrinks fuel : forall ln tag src body b src',
  readInline fuel ln tag src body = Ok (b, src') ->
  (String.length (src_rest src') < String.length (src_rest src))%nat.
Proof.
  induction fuel as [|fuel IH]; intros ln tag src body b src' H; [done|]. cbn [readInline] in H.
  destruct (source_get src) as [[[line tr] src1]|] eqn:E; [|done].
  apply source_get_shrinks in E. destruct tr; [done|]. destruct (has_prefix _ _).
  - by simplify_eq.
  - apply IH in H. lia.
Qed.

(** A failure of a bind comes from one of its halves. *)
Lemma result_bind_err {E A B} (m : result E A) (k : A -> result E B) e :
  result_bind m k = Err e -> m = Err e \/ exists a, m = Ok a /\ k a = Err e.
Proof. destruct m; cbn; [right; eauto|intros [= ->]; by left]. Qed.

Lemma at_line_fuel {A} ln (r : result LineError A) : at_line ln r <> Err OutOfFuel.
Proof. by destruct r. Qed.

Lemma connection_loop_total fuel : forall src,
  (String.length (src_rest src) < fuel)%nat -> connection_loop fuel src <> Err OutOfFuel.
Proof.
  induction fuel as [|fuel IH]; intros src Hf; [lia|]. cbn [connection_loop].
  destruct (bufParse src optionLineSize) as [[[line tr] src']|] eqn:E; [|done].
  apply bufParse_shrinks in E as [E _]; [|unfold optionLineSize; lia]. destruct tr; [done|]. intros H.
  apply result_bind_err in H as [H|(p & _ & H)]; [by apply at_line_fuel in H|].
  destruct p as [|p0 args]; [apply IH in H; [done|lia]|]. destruct (inlineTag _) as [tag|].
  - apply result_bind_err in H as [H|([body src2] & E2 & H)]; [apply readInline_total in H; [done|lia]|].
    apply readInline_shrinks in E2. case_bool_decide; [done|].
    apply result_bind_err in H as [H|(ds & _ & H)]; [apply IH in H; [done|lia]|done].
  - apply result_bind_err in H as [H|(ds & _ & H)]; [apply IH in H; [done|lia]|done].
Qed.

Lemma config_loop_total fuel : forall first src,
  (String.length (src_rest src) < fuel)%nat -> config_loop fuel first src <> Err OutOfFuel.
Proof.
  induction fuel as [|fuel IH]; intros first src Hf; [lia|]. cbn [config_loop].
  destruct (fgets src _) as [[line src']|] eqn:E; [|done].
  apply fgets_shrinks in E as (_ & E & _); [|unfold optionLineSize; lia]. destruct (_ =? _)%nat; [done|]. intros H.
  apply result_bind_err in H as [H|(p & _ & H)]; [by apply at_line_fuel in H|].
  destruct p as [|p0 args]; [apply IH in H; [done|lia]|]. destruct (inlineTag _) as [tag|].
  - apply result_bind_err in H as [H|([body src2] & E2 & H)]; [apply readInline_total in H; [done|lia]|].
    apply readInline_shrinks in E2.
    apply result_bind_err in H as [H|(cs & _ & H)].
    { case_bool_decide; [|done]. apply connection_loop_total in H; [done|cbn; lia]. }
    apply result_bind_err in H as [H|(ds & _ & H)]; [apply IH in H; [done|lia]|done].
  - apply result_bind_err in H as [H|(ds & _ & H)]; [apply IH in H; [done|lia]|done].
Qed.

(** The reader terminates on every text: each round of its loops consumes a byte, so fuel of
    one more than the length is never exhausted and the result is a list of directives or one of
    the reader's own errors. *)
Theorem parseConfig_total (data : string) : parseConfig data <> Err OutOfFuel.
Proof.
  unfold parseConfig. destruct (nul_line data); [done|]. apply config_loop_total. cbn. lia.
Qed.

(** ** Tokens written in quotes are read back *)

Fixpoint escape (t : string) : string :=
  match t with
  | EmptyString => ""
  | String c t' =>
      if bool_decide (c = "\"%char) || bool_decide (c = dquote)
      then String "\" (String c (escape t')) else String c (escape t')
  end.

Definition quote_token (t : string) : string := String dquote (escape t +:+ String dquote "").

Definition quote_line (ts : list string) : string := join " " (quote_token <$> ts).

(** A token OpenVPN can hold: no NUL byte, at most 256 bytes. *)
Definition token_ok (t : string) : bool :=
  negb (contains_byte nul t) && (String.length t <=? optionParmSize)%nat.

Definition lex_after (ret : list string) (rest : string) : result LineError (list string) :=
  if (maxParms <=? length ret)%nat then Ok ret else lex_run (MkLexer stInitial false [] ret) rest.

Lemma bd_true (P : Prop) `{Decision P} : P -> bool_decide P = true.
Proof. apply bool_decide_true. Qed.

Lemma lex_plain_byte c p ret :
  c <> "\"%char -> c <> dquote -> c <> nul -> (length p < optionParmSize)%nat ->
  lex_step (MkLexer stQuoted false p ret) c = LexGo (MkLexer stQuoted false (c :: p) ret).
Proof.
  intros H1 H2 H3 Hl. unfold lex_step, lex_switch, out_byte. cbn [lex_backslash lex_state lex_parm lex_ret negb andb].
  rewrite !bool_decide_false by done. cbn [andb].
  destruct (Nat.leb_spec optionParmSize (length p)); [lia|done].
Qed.

Lemma lex_escaped_byte c p ret :
  c = "\"%char \/ c = dquote -> (length p < optionParmSize)%nat ->
  lex_step (MkLexer stQuoted false p ret) "\" = LexGo (MkLexer stQuoted true p ret) /\
  lex_step (MkLexer stQuoted true p ret) c = LexGo (MkLexer stQuoted false (c :: p) ret).
Proof.
  intros Hc Hl. split; [done|]. unfold lex_step, lex_switch, out_byte.
  cbn [lex_backslash lex_state lex_parm lex_ret negb andb]. cbv beta iota.
  assert (c <> nul) by (destruct Hc as [-> | ->]; done).
  rewrite (bool_decide_false (c = nul)) by done. cbv beta iota.
  assert (E : bool_decide (c = "\"%char) || bool_decide (c = dquote) || cIsSpace c = true).
  { by destruct Hc as [-> | ->]. }
  rewrite E. cbn [andb negb]. destruct (Nat.leb_spec optionParmSize (length p)); [lia|done].
Qed.

Lemma lex_closing_quote p ret rest :
  lex_run (MkLexer stQuoted false p ret) (String dquote rest)
  = lex_after (ret ++ [string_of (rev p)]) rest.
Proof.
  cbn [lex_run]. unfold lex_step. cbn [lex_backslash lex_state lex_parm lex_ret lex_switch negb].
  rewrite (bool_decide_false (dquote = "\"%char)) by done. cbn [andb].
  rewrite (bool_decide_true (dquote = dquote)) by done. cbn [andb]. unfold lex_after.
  by destruct (maxParms <=? _)%nat eqn:E.
Qed.

Lemma lex_quoted t : forall p ret rest,
  contains_byte nul t = false -> (length p + String.length t <= optionParmSize)%nat ->
  lex_run (MkLexer stQuoted false p ret) (escape t +:+ String dquote rest)
  = lex_after (ret ++ [string_of (rev p ++ bytes_of t)]) rest.
Proof.
  induction t as [|c t IH]; intros p ret rest Hn Hl.
  { cbn [escape]. rewrite string_app_nil, lex_closing_quote. cbn [String.list_ascii_of_string].
    by rewrite app_nil_r. }
  cbn [contains_byte] in Hn. apply orb_false_elim in Hn as [Hc Hn]. apply bool_decide_eq_false in Hc.
  cbn [String.length] in Hl. cbn [escape].
  assert (Hfin : lex_run (MkLexer stQuoted false (c :: p) ret) (escape t +:+ String dquote rest)
                 = lex_after (ret ++ [string_of (rev p ++ bytes_of (String c t))]) rest).
  { rewrite IH by (cbn; auto; lia). cbn [rev String.list_ascii_of_string]. by rewrite <- app_assoc. }
  destruct (decide (c = "\"%char \/ c = dquote)) as [He|He].
  - assert (E : bool_decide (c = "\"%char) || bool_decide (c = dquote) = true).
    { by destruct He as [-> | ->]. }
    rewrite E, !string_app_cons. destruct (lex_escaped_byte c p ret He) as [E1 E2]; [lia|].
    cbn [lex_run]. by rewrite E1, E2.
  - assert (c <> "\"%char /\ c <> dquote) as [H1 H2] by tauto.
    rewrite !bool_decide_false by done. cbn [orb]. rewrite string_app_cons. cbn [lex_run].
    rewrite lex_plain_byte by (auto; lia). done.
Qed.

Lemma lex_quote_token t ret rest :
  token_ok t = true ->
  lex_run (MkLexer stInitial false [] ret) (quote_token t +:+ rest) = lex_after (ret ++ [t]) rest.
Proof.
  unfold token_ok, quote_token. intros [Hn%negb_true_iff Hl%Nat.leb_le]%andb_prop.
  rewrite string_app_cons, string_app_assoc. change (String dquote "" +:+ rest) with (String dquote rest).
  cbn [lex_run]. change (lex_step (MkLexer stInitial false [] ret) dquote)
    with (LexGo (MkLexer stQuoted false [] ret)). cbv iota.
  rewrite lex_quoted by (cbn; auto). cbn [rev app]. by rewrite string_of_bytes.
Qed.

Lemma lex_quote_line ts : forall ret,
  forallb token_ok ts = true -> (length ret < maxParms)%nat ->
  lex_run (MkLexer stInitial false [] ret) (quote_line ts) = Ok (take maxParms (ret ++ ts)).
Proof.
  unfold quote_line. induction ts as [|t ts IH]; intros ret H Hr.
  { rewrite app_nil_r, take_ge by lia. done. }
  cbn [forallb] in H. apply andb_prop in H as [Ht H].
  assert (Hstop : forall rest, (maxParms <= length (ret ++ [t]))%nat ->
            lex_after (ret ++ [t]) rest = Ok (take maxParms (ret ++ t :: ts))).
  { intros rest Hm. unfold lex_after. destruct (Nat.leb_spec maxParms (length (ret ++ [t]))); [|lia].
    change (ret ++ t :: ts) with (ret ++ [t] ++ ts). rewrite (app_assoc ret [t] ts), take_app_length'; [done|]. rewrite length_app in *. cbn in *. lia. }
  destruct ts as [|u ts].
  - cbn [fmap list_fmap join String.concat]. rewrite <- (string_app_nil_r (quote_token t)).
    unfold join. cbn [String.concat]. rewrite lex_quote_token by done.
    destruct (le_lt_dec maxParms (length (ret ++ [t]))) as [Hm|Hm]; [by apply Hstop|].
    unfold lex_after. destruct (Nat.leb_spec maxParms (length (ret ++ [t]))); [lia|].
    rewrite take_ge by lia. done.
  - change (quote_token <$> t :: u :: ts) with (quote_token t :: quote_token u :: (quote_token <$> ts)).
    rewrite join_cons, lex_quote_token by done.
    destruct (le_lt_dec maxParms (length (ret ++ [t]))) as [Hm|Hm]; [by apply Hstop|].
    unfold lex_after. destruct (Nat.leb_spec maxParms (length (ret ++ [t]))); [lia|].
    rewrite string_app_cons, string_app_nil. cbn [lex_run].
    change (lex_step (MkLexer stInitial false [] (ret ++ [t])) " ")
      with (LexGo (MkLexer stInitial false [] (ret ++ [t]))). cbv iota.
    change (quote_token u :: (quote_token <$> ts)) with (quote_token <$> u :: ts).
    rewrite IH by (auto; lia). by rewrite <- app_assoc.
Qed.

(** The tokenizer inverts OpenVPN's quoting: any tokens, whatever bytes other than NUL they
    hold, written in double quotes with backslashes escaped, are read back exactly; tokens past
    the sixteenth are dropped, as OpenVPN drops them. *)
Theorem parseLine_quote (ts : list string) :
  forallb token_ok ts = true -> parseLine (quote_line ts) = Ok (take maxParms ts).
Proof. intros H. unfold parseLine. rewrite lex_quote_line by (auto; cbn; unfold maxParms; lia). done. Qed.

Lemma parseLine_quote_witness :
  let ts := ["remote"; "a b #;'c'"; "" +:+ String dquote "\"; "C:\x"] in
  forallb token_ok ts = true /\ parseLine (quote_line ts) = Ok (take maxParms ts).
Proof.
  intros ts. assert (H : forallb token_ok ts = true) by (vm_compute; reflexivity).
  split; [exact H|]. exact (parseLine_quote ts H).
Defined.
