(* ===== verification/OvpnAllowlist.v ===== *)
(** * The directive allowlist: internal/ovpn/allowlist.go

    [allowedDirectives] is the table the package's [init] fills; a rule's [validate] function is
    named by a constructor of [dirCheck] and interpreted by [run_check].  "setenv opt X ..." makes
    [validateSetenv] and [checkDirective] mutually recursive; both recur on the arguments, two of
    which go with every "opt". *)

From S2P Require Import Prelude GoStrings OvpnParse.

Inductive inlineMode := inlineNever | inlineOnly | inlineOptional.

#[export] Instance inline_mode_eq_dec : EqDecision inlineMode.
Proof. solve_decision. Defined.

Inductive dirCheck :=
| CheckAuthUserPass | CheckDev | CheckDevType | CheckDnsUpdown | CheckHttpProxy | CheckSocksProxy
| CheckLport | CheckLocal | CheckProviders | CheckSetenv | CheckSetenvSafe.

Record dirRule := MkRule { rule_inline : inlineMode; rule_validate : option dirCheck }.

Inductive DirWhy :=
| TooManyArguments | CredentialsFile | OnlyTun | OnlyDevTypeTun | OnlyDnsUpdownDisable
| ProxyCredentialsFile | PrivilegedPort | OtherProvider | InvalidVariable | InvalidArguments
| VariableNotAllowed (name : string) | SetenvOptNeedsDirective.

Inductive DirError :=
| NotAllowed (name : string)
| CannotBeInline (name : string)
| NoPaths (name : string)
| BadDirective (name : string) (why : DirWhy)
| InSetenvOpt (e : DirError).

(** ** The table *)

Definition plain_names : list string :=
  ["client"; "tls-client"; "pull"; "proto"; "proto-force"; "remote"; "remote-random";
   "remote-random-hostname"; "resolv-retry"; "nobind"; "bind"; "port"; "rport"; "float";
   "connect-retry"; "connect-retry-max"; "connect-timeout"; "server-poll-timeout";
   "explicit-exit-notify"; "sndbuf"; "rcvbuf"; "socket-flags"; "fast-io"; "http-proxy-option";
   "allow-pull-fqdn";
   "persist-key"; "persist-tun"; "persist-remote-ip"; "persist-local-ip";
   "remote-cert-tls"; "remote-cert-ku"; "remote-cert-eku"; "ns-cert-type"; "verify-x509-name";
   "auth"; "cipher"; "data-ciphers"; "data-ciphers-fallback"; "ncp-ciphers"; "tls-version-min";
   "tls-version-max"; "tls-cipher"; "tls-ciphersuites"; "tls-groups"; "ecdh-curve";
   "tls-cert-profile"; "key-direction"; "hand-window"; "tran-window"; "tls-timeout"; "reneg-sec";
   "reneg-bytes"; "reneg-pkts"; "replay-window"; "compat-mode";
   "comp-lzo"; "compress"; "allow-compression";
   "verb"; "mute"; "mute-replay-warnings";
   "auth-nocache"; "auth-retry"; "static-challenge"; "push-peer-info";
   "pull-filter"; "route"; "route-ipv6"; "route-nopull"; "route-gateway"; "route-ipv6-gateway";
   "route-metric"; "route-delay"; "redirect-gateway"; "redirect-private"; "block-ipv6";
   "allow-recursive-routing"; "dhcp-option"; "dns"; "topology";
   "tun-mtu"; "tun-mtu-extra"; "tun-mtu-max"; "mssfix"; "fragment"; "link-mtu"; "mtu-disc";
   "keepalive"; "ping"; "ping-restart"; "ping-exit"; "ping-timer-rem"; "inactive";
   "tun-ipv6"; "disable-occ"; "disable-dco"; "ignore-unknown-option";
   "script-security";
   "route-method"; "block-outside-dns"; "register-dns"; "ip-win32"; "dhcp-renew"; "dhcp-release";
   "dhcp-pre-release"; "tap-sleep"; "user"; "group"].

Definition inline_only_names : list string :=
  ["ca"; "cert"; "key"; "extra-certs"; "pkcs12"; "crl-verify"; "dh"; "tls-auth"; "tls-crypt";
   "tls-crypt-v2"; "http-proxy-user-pass"; "connection"].

Definition checked_rules : list (string * dirRule) :=
  [("peer-fingerprint", MkRule inlineOptional None);
   ("verify-hash", MkRule inlineOptional None);
   ("auth-user-pass", MkRule inlineOptional (Some CheckAuthUserPass));
   ("dev", MkRule inlineNever (Some CheckDev));
   ("dev-type", MkRule inlineNever (Some CheckDevType));
   ("dns-updown", MkRule inlineNever (Some CheckDnsUpdown));
   ("http-proxy", MkRule inlineNever (Some CheckHttpProxy));
   ("socks-proxy", MkRule inlineNever (Some CheckSocksProxy));
   ("lport", MkRule inlineNever (Some CheckLport));
   ("local", MkRule inlineNever (Some CheckLocal));
   ("providers", MkRule inlineNever (Some CheckProviders));
   ("setenv", MkRule inlineNever (Some CheckSetenv));
   ("setenv-safe", MkRule inlineNever (Some CheckSetenvSafe))].

Definition allowedDirectives : gmap string dirRule :=
  list_to_map (((fun n => (n, MkRule inlineNever None)) <$> plain_names)
               ++ ((fun n => (n, MkRule inlineOnly None)) <$> inline_only_names)
               ++ checked_rules).

Definition safeSetenvNames : list string :=
  ["FORWARD_COMPATIBLE"; "PUSH_PEER_INFO"; "REMOTE_RANDOM_HOSTNAME"; "SERVER_POLL_TIMEOUT";
   "CLIENT_CERT"].

(** config.go: accepted at top level, removed from the runtime configuration *)
Definition stripOnly (name : string) : bool := (name =s "user") || (name =s "group").

(** ** Tests on arguments *)

Definition is_digit (c : ascii) : bool :=
  ((48 <=? nat_of_ascii c) && (nat_of_ascii c <=? 57))%nat.

(** [^u?tun[0-9]{0,3}$] *)
Definition devNameRe (s : string) : bool :=
  let t := trim_prefix "u" s in
  has_prefix "tun" t && string_forall is_digit (string_drop 3 t)
  && (String.length (string_drop 3 t) <=? 3)%nat.

Definition word_char (c : ascii) : bool :=
  let n := nat_of_ascii c in
  (((48 <=? n) && (n <=? 57)) || ((65 <=? n) && (n <=? 90)) || ((97 <=? n) && (n <=? 122))
   || (n =? 95))%nat.

(** [^[A-Za-z0-9_]{1,64}$] *)
Definition envNameRe (s : string) : bool :=
  string_forall word_char s && (1 <=? String.length s)%nat && (String.length s <=? 64)%nat.

Definition unprivilegedPort (s : string) : bool :=
  match atoi s with
  | None => false
  | Some n => (n =? 0)%Z || ((1024 <=? n) && (n <=? 65535))%Z
  end.

Definition maxArgs (n : nat) (args : list string) : option DirWhy :=
  if (n <? length args)%nat then Some TooManyArguments else None.

Definition arg (args : list string) (i : nat) : string := default "" (args !! i).

Definition unless (b : bool) (w : DirWhy) : option DirWhy := if b then None else Some w.

(** Every [validate] but that of "setenv". *)
Definition run_check (k : dirCheck) (inline : bool) (args : list string) : option DirWhy :=
  match k with
  | CheckAuthUserPass => unless (negb (negb inline && (0 <? length args)%nat)) CredentialsFile
  | CheckDev => unless ((length args =? 1)%nat && devNameRe (arg args 0)) OnlyTun
  | CheckDevType => unless ((length args =? 1)%nat && (arg args 0 =s "tun")) OnlyDevTypeTun
  | CheckDnsUpdown => unless ((length args =? 1)%nat && (arg args 0 =s "disable")) OnlyDnsUpdownDisable
  | CheckHttpProxy =>
      if (length args <=? 2)%nat then None
      else if (arg args 2 =s "auto") || (arg args 2 =s "auto-nct") then maxArgs 3 args
      else if arg args 2 =s "stdin" then maxArgs 4 args
      else Some ProxyCredentialsFile
  | CheckSocksProxy =>
      if (2 <? length args)%nat && negb (arg args 2 =s "stdin") then Some ProxyCredentialsFile
      else maxArgs 3 args
  | CheckLport => unless ((length args =? 1)%nat && unprivilegedPort (arg args 0)) PrivilegedPort
  | CheckLocal =>
      unless (negb ((2 <=? length args)%nat && negb (unprivilegedPort (arg args 1)))) PrivilegedPort
  | CheckProviders =>
      unless (forallb (fun a => (a =s "legacy") || (a =s "default") || (a =s "base")) args) OtherProvider
  | CheckSetenvSafe =>
      unless (negb ((length args <? 1)%nat || (2 <? length args)%nat || negb (envNameRe (arg args 0))))
        InvalidVariable
  | CheckSetenv => None
  end.

(** The second half of validateSetenv: a variable of the environment. *)
Definition validate_variable (args : list string) : option DirWhy :=
  if (length args <? 1)%nat || (2 <? length args)%nat then Some InvalidArguments
  else
    let name := arg args 0 in
    if negb (envNameRe name) then Some InvalidVariable
    else if bool_decide (name ∈ safeSetenvNames) || has_prefix "UV_" name || has_prefix "IV_" name
    then None
    else Some (VariableNotAllowed name).

(** checkDirective on a directive called [name], with [inline] and [args]; [None] accepts. *)
Fixpoint check_named (name : string) (inline : bool) (args : list string) {struct args}
    : option DirError :=
  match allowedDirectives !! name with
  | None => Some (NotAllowed name)
  | Some rule =>
      if inline && bool_decide (rule_inline rule = inlineNever) then Some (CannotBeInline name)
      else if negb inline && bool_decide (rule_inline rule = inlineOnly) then Some (NoPaths name)
      else
        match rule_validate rule with
        | None => None
        | Some CheckSetenv =>
            match args with
            | a :: rest =>
                if a =s "opt" then
                  match rest with
                  | [] => Some (BadDirective name SetenvOptNeedsDirective)
                  | inner :: args' =>
                      if stripOnly inner then Some (InSetenvOpt (NotAllowed inner))
                      else InSetenvOpt <$> check_named inner false args'
                  end
                else BadDirective name <$> validate_variable args
            | [] => BadDirective name <$> validate_variable args
            end
        | Some k => BadDirective name <$> run_check k inline args
        end
  end.

Definition checkDirective (d : directive) : option DirError :=
  check_named (dName d) (dInline d) (dArgs d).

(** ** What OpenVPN applies

    add_option of "setenv opt X args" applies X to args; the chain ends at the first directive
    that is not of this form. *)
Fixpoint applied (name : string) (args : list string) {struct args} : string * list string :=
  match args with
  | a :: rest =>
      if (name =s "setenv") && (a =s "opt") then
        match rest with
        | inner :: args' => applied inner args'
        | [] => (name, args)
        end
      else (name, args)
  | [] => (name, args)
  end.
