(* ===== verification/OvpnMgmt.v ===== *)
(** * The management protocol: internal/ovpn/management.go

    What a line from openvpn means ([on_line]), the read deadline it leaves ([next_deadline]), and
    what the client writes ([sendCredentials], [releaseHold], [signalTerm]).  The connection is
    the stream of bytes read and the list of strings written; whether a write succeeds is an
    argument. *)

From S2P Require Import Prelude GoStrings GoText GoNet Domain OvpnParse OvpnAllowlist OvpnParseFacts.

(** ** Challenges *)

Inductive ChallengeKind := ChallengeNone | ChallengeStatic | ChallengeDynamic.

#[export] Instance kind_eq_dec : EqDecision ChallengeKind.
Proof. solve_decision. Defined.

Record AuthChallenge := MkChallenge {
  ch_Kind : ChallengeKind; ch_Text : string; ch_Echo : bool; ch_StateID : string;
  ch_Concat : bool; ch_username : string }.

Inductive Message := msgWebAuth | msgPrivateKeyPw | msgProxyAuth | msgUnknownPrompt.

Definition message_text (m : Message) : string :=
  match m with
  | msgWebAuth => "This server requires web/SSO authentication, which LockPlus doesn't support yet"
  | msgPrivateKeyPw => "This profile's private key is password-protected, which LockPlus doesn't support yet"
  | msgProxyAuth => "The HTTP proxy requires credentials; embed them in the profile as an inline <http-proxy-user-pass> block"
  | msgUnknownPrompt => "OpenVPN asked for input LockPlus doesn't support"
  end.

(** The last group of dynamicChallengeRe: the longest run without a newline that a quote and a
    closing bracket follow. *)
Fixpoint until_close (s : string) : option string :=
  let here := if has_prefix "']" s then Some "" else None in
  match s with
  | EmptyString => None
  | String c s' =>
      if bool_decide (c = newline) then here
      else match until_close s' with
           | Some t => Some (String c t)
           | None => here
           end
  end.

(** A run without colons, and its colon. *)
Definition colon_field (s : string) : option (string * string) := cut_byte ":" s.

(** dynamicChallengeRe at one position: flags, state id, username, text *)
Definition dynamicChallengeRe (s : string) : option (string * string * string * string) :=
  match after_prefix "CRV1:" s with
  | None => None
  | Some s =>
      match colon_field s with
      | None => None
      | Some (flags, s) =>
          match colon_field s with
          | None => None
          | Some (state, s) =>
              match colon_field s with
              | None => None
              | Some (user, s) =>
                  match until_close s with
                  | Some text => Some (flags, state, user, text)
                  | None => None
                  end
              end
          end
      end
  end.

Definition of_byte_vals (l : list Z) : string := string_of ((fun z => ascii_of_N (Z.to_N z)) <$> l).

Definition parseDynamicChallenge (payload : string) : option AuthChallenge :=
  match find_first dynamicChallengeRe payload with
  | None => None
  | Some (flags, state, user, text) =>
      Some (MkChallenge ChallengeDynamic text (contains_byte "E" flags) state false
              (match b64_decode user with Some u => of_byte_vals u | None => "" end))
  end.

(** staticChallengeRe at one position: flag, text *)
Definition staticChallengeRe (s : string) : option (string * string) :=
  match after_prefix "SC:" s with
  | None => None
  | Some s =>
      let '(digits, s) := span is_digit s in
      if digits =s "" then None
      else match after_prefix "," s with
           | Some text => if contains_byte newline text then None else Some (digits, text)
           | None => None
           end
  end.

Definition parseStaticChallenge (payload : string) : option AuthChallenge :=
  match find_first staticChallengeRe payload with
  | None => None
  | Some (digits, text) =>
      match atoi digits with
      | None => None
      | Some flag =>
          Some (MkChallenge ChallengeStatic text (negb (Z.land flag 1 =? 0)%Z) ""
                  (negb (Z.land flag 2 =? 0)%Z) "")
      end
  end.

(** ** Notifications *)

(** The calls readLoop makes on its handler, and on the client for a hold. *)
Inductive MgmtEvent :=
| evState (state localIP remoteAddr : string)
| evBytes (rx tx : Z)
| evAuthPrompt (sc : option AuthChallenge)
| evDynamicChallenge (ch : AuthChallenge)
| evAuthFailed (msg : string)
| evFailure (msg : string) (terminate : bool)
| evHold (wait : Z).

Definition preConnectDeadline : Z := 150 * time_second.
Definition connectedDeadline : Z := 30 * time_second.

Definition on_state (body : string) : option MgmtEvent :=
  let parts := split_byte "," body in
  if (length parts <? 2)%nat then None
  else Some (evState (arg parts 1) (arg parts 3)
               (if negb (arg parts 4 =s "") && negb (arg parts 5 =s "")
                then join_host_port (arg parts 4) (arg parts 5) else "")).

Definition on_bytecount (body : string) : option MgmtEvent :=
  let parts := split_byte "," body in
  if (2 <=? length parts)%nat
  then Some (evBytes (parse_int_value (trim_space (arg parts 0))) (parse_int_value (trim_space (arg parts 1))))
  else None.

Definition on_password (payload : string) : option MgmtEvent :=
  if has_prefix "Need 'Auth'" payload then Some (evAuthPrompt (parseStaticChallenge payload))
  else if has_prefix "Need 'Private Key'" payload then Some (evFailure (message_text msgPrivateKeyPw) true)
  else if has_prefix "Need 'HTTP Proxy'" payload then Some (evFailure (message_text msgProxyAuth) true)
  else if has_prefix "Need " payload then Some (evFailure (message_text msgUnknownPrompt) true)
  else if has_prefix "Verification Failed" payload then
    match parseDynamicChallenge payload with
    | Some ch => Some (evDynamicChallenge ch)
    | None => if has_prefix "Verification Failed: 'Auth'" payload then Some (evAuthFailed payload)
              else Some (evFailure payload false)
    end
  else None.

Definition on_infomsg (msg : string) : option MgmtEvent :=
  if has_prefix "WEB_AUTH:" msg || has_prefix "OPEN_URL:" msg || has_prefix "CR_TEXT:" msg
  then Some (evFailure (message_text msgWebAuth) true) else None.

(** [time.Duration(n) * time.Second], with the number after the last colon. *)
Definition hold_wait (line : string) : Z :=
  let n := match cut_last_byte ":" line with
           | Some (_, r) => parse_int_value (trim_space r)
           | None => 0%Z
           end in
  wrap64 (n * time_second).

(** The switch of readLoop. *)
Definition on_line (line : string) : option MgmtEvent :=
  if has_prefix ">STATE:" line then on_state (trim_prefix ">STATE:" line)
  else if has_prefix ">BYTECOUNT:" line then on_bytecount (trim_prefix ">BYTECOUNT:" line)
  else if has_prefix ">PASSWORD:" line then on_password (trim_prefix ">PASSWORD:" line)
  else if has_prefix ">NEED-OK:" line || has_prefix ">NEED-STR:" line
  then Some (evFailure (message_text msgUnknownPrompt) true)
  else if has_prefix ">INFOMSG:" line then on_infomsg (trim_prefix ">INFOMSG:" line)
  else if has_prefix ">FATAL:" line then Some (evFailure (trim_prefix ">FATAL:" line) false)
  else if has_prefix ">HOLD:" line then Some (evHold (hold_wait line))
  else None.

Definition next_deadline (d : Z) (e : option MgmtEvent) : Z :=
  match e with
  | Some (evState s _ _) => if s =s "CONNECTED" then connectedDeadline else preConnectDeadline
  | Some (evHold wait) => wrap64 (preConnectDeadline + wait)
  | _ => d
  end.

(** The notifications of a list of lines, each with the read deadline it was awaited under. *)
Fixpoint read_lines (d : Z) (lines : list string) : list (Z * option MgmtEvent) :=
  match lines with
  | [] => []
  | line :: rest => let e := on_line (trim_crlf line) in (d, e) :: read_lines (next_deadline d e) rest
  end.

(** readLoop over the bytes received before the connection ends; an unfinished last line is an
    error of ReadString. *)
Definition readLoop (stream : string) : list (Z * option MgmtEvent) :=
  read_lines preConnectDeadline (removelast (split_byte newline stream)).

(** ** The client *)

(** [mc_holdTimer] is the pending hold release. *)
Record mgmtClient := MkClient {
  mc_written : list string; mc_holdTimer : option Z; mc_closed : bool }.

#[export] Instance eta_client : Eta mgmtClient := fun r =>
  MkClient (mc_written r) (mc_holdTimer r) (mc_closed r).

Definition newMgmtClient : mgmtClient := MkClient [] None false.

(** [ok] is whether the socket takes the bytes in time. *)
Definition writeLocked (ok : bool) (c : mgmtClient) (cmd : string) : bool * mgmtClient :=
  if ok then (true, c <| mc_written ::= fun l => l ++ [cmd +:+ String newline ""] |>) else (false, c).

Definition mgmtQuote (s : string) : string :=
  let s := replace_byte "\" "\\" s in
  let s := replace_byte dquote (String "\" (String dquote "")) s in
  String dquote "" +:+ s +:+ String dquote "".

Definition has_crlf (s : string) : bool := contains_byte carriage_return s || contains_byte newline s.

Inductive CredentialError := IllegalNewline | WriteFailed.

Definition auth_line (what value : string) : string :=
  what +:+ " " +:+ String dquote "" +:+ "Auth" +:+ String dquote "" +:+ " " +:+ mgmtQuote value.

(** [ok1] and [ok2]: the two writes. *)
Definition sendCredentials (ok1 ok2 : bool) (c : mgmtClient) (username password : string)
    : result CredentialError unit * mgmtClient :=
  if has_crlf username || has_crlf password then (Err IllegalNewline, c)
  else
    let '(w1, c1) := writeLocked ok1 c (auth_line "username" username) in
    if negb w1 then (Err WriteFailed, c1)
    else
      let '(w2, c2) := writeLocked ok2 c1 (auth_line "password" password) in
      if negb w2 then (Err WriteFailed, c2) else (Ok tt, c2).

Definition signalTerm (ok : bool) (c : mgmtClient) : bool * mgmtClient :=
  writeLocked ok c "signal SIGTERM".

Definition release (ok : bool) (c : mgmtClient) : mgmtClient := snd (writeLocked ok c "hold release").

(** What readLoop asks for before it reads; the results of the writes are not looked at. *)
Definition readLoop_start (ok1 ok2 : bool) (c : mgmtClient) : mgmtClient :=
  snd (writeLocked ok2 (snd (writeLocked ok1 c "state on")) "bytecount 1").

Definition releaseHold (ok : bool) (c : mgmtClient) (wait : Z) : mgmtClient :=
  if (wait <=? 0)%Z then release ok c
  else if mc_closed c then c
  else c <| mc_holdTimer := Some wait |>.

(** The pending timer fires. *)
Definition hold_fires (ok : bool) (c : mgmtClient) : mgmtClient :=
  match mc_holdTimer c with
  | Some _ => release ok (c <| mc_holdTimer := None |>)
  | None => c
  end.

Definition close (c : mgmtClient) : mgmtClient := c <| mc_closed := true |> <| mc_holdTimer := None |>.

(** ** What the client writes *)

Definition nl : string := String newline "".

Lemma mgmtQuote_go s :
  replace_byte dquote (String "\" (String dquote "")) (replace_byte "\" "\\" s) = escape s.
Proof.
  induction s as [|c s IH]; [done|]. cbn [replace_byte escape]. rewrite replace_byte_app, IH.
  destruct (decide (c = "\"%char)) as [->|Hb]; [done|].
  rewrite (bool_decide_false (c = "\"%char)) by done. cbn [orb replace_byte].
  destruct (decide (c = dquote)) as [->|Hq]; [done|].
  rewrite (bool_decide_false (c = dquote)) by done. by rewrite string_app_nil_r.
Qed.

(** mgmtQuote writes OpenVPN's quoted form. *)
Lemma mgmtQuote_token s : mgmtQuote s = quote_token s.
Proof. unfold mgmtQuote, quote_token. by rewrite mgmtQuote_go. Qed.

Lemma escape_contains c s :
  c <> "\"%char -> contains_byte c s = false -> contains_byte c (escape s) = false.
Proof.
  intros Hb. induction s as [|a s IH]; [done|]. cbn [contains_byte escape].
  intros [Ha Hs]%orb_false_elim.
  destruct (bool_decide (a = "\"%char) || bool_decide (a = dquote)).
  - cbn [contains_byte]. rewrite Ha, IH by done.
    rewrite bool_decide_false; [done|]. intros <-. done.
  - cbn [contains_byte]. by rewrite Ha, IH.
Qed.

Definition auth_field : string := " " +:+ String dquote "" +:+ "Auth" +:+ String dquote "" +:+ " ".

Lemma auth_line_contains c what value :
  c <> "\"%char -> c <> dquote -> contains_byte c (what +:+ auth_field) = false ->
  contains_byte c value = false -> contains_byte c (auth_line what value) = false.
Proof.
  intros Hb Hq Hw Hv. unfold auth_line. rewrite mgmtQuote_token. unfold quote_token.
  change (what +:+ " " +:+ String dquote "" +:+ "Auth" +:+ String dquote "" +:+ " " +:+
    String dquote (escape value +:+ String dquote ""))
    with (what +:+ (auth_field +:+ (String dquote (escape value +:+ String dquote "")))).
  rewrite <- string_app_assoc, contains_byte_app, Hw. cbn [orb contains_byte].
  rewrite contains_byte_app, escape_contains by done. cbn [contains_byte orb].
  rewrite bool_decide_false by done. done.
Qed.

Lemma lex_command what s :
  what = "username" \/ what = "password" ->
  lex_run (MkLexer stInitial false [] []) (what +:+ auth_field +:+ s)
  = lex_run (MkLexer stInitial false [] [what; "Auth"]) s.
Proof. intros [-> | ->]; reflexivity. Qed.

Lemma parseLine_auth what value :
  what = "username" \/ what = "password" -> token_ok value = true ->
  parseLine (auth_line what value) = Ok [what; "Auth"; value].
Proof.
  intros Hw Hv. unfold auth_line, parseLine. rewrite mgmtQuote_token.
  change (what +:+ " " +:+ String dquote "" +:+ "Auth" +:+ String dquote "" +:+ " " +:+ quote_token value)
    with (what +:+ auth_field +:+ quote_token value).
  rewrite lex_command, <- (string_app_nil_r (quote_token value)), lex_quote_token by done. done.
Qed.

(** A line of the two credential commands. *)
Definition safe_command (w username password : string) : Prop :=
  exists what value, (what, value) ∈ [("username", username); ("password", password)] /\
    w = auth_line what value +:+ nl /\ has_crlf (auth_line what value) = false /\
    (token_ok value = true -> parseLine (auth_line what value) = Ok [what; "Auth"; value]).

Lemma safe_auth_line what value username password :
  (what, value) ∈ [("username", username); ("password", password)] ->
  has_crlf username = false -> has_crlf password = false ->
  safe_command (auth_line what value +:+ nl) username password.
Proof.
  intros Hin Hu Hp. exists what, value. split; [done|]. split; [done|].
  assert (Hw : what = "username" \/ what = "password").
  { apply elem_of_cons in Hin as [[= ? ?]|[[= ? ?]|[]%elem_of_nil]%elem_of_cons]; auto. }
  assert (Hv : has_crlf value = false).
  { apply elem_of_cons in Hin as [[= ? ->]|[[= ? ->]|[]%elem_of_nil]%elem_of_cons]; done. }
  unfold has_crlf in *. apply orb_false_elim in Hv as [H1 H2]. split.
  - apply orb_false_iff. split; apply auth_line_contains; try done; by destruct Hw as [-> | ->].
  - by apply parseLine_auth.
Qed.

(** Whatever the user types, the credentials that reach openvpn's management socket are the
    two commands meant: each write is one line, holds no other line break, and OpenVPN's own
    tokenizer reads it as [username|password "Auth" value] with the value exactly as given (up to
    its limits); credentials with a line break are refused before anything is written. *)
Theorem sendCredentials_safe (ok1 ok2 : bool) (c : mgmtClient) (username password : string) :
  exists sent, mc_written (snd (sendCredentials ok1 ok2 c username password)) = mc_written c ++ sent /\
    (forall w, w ∈ sent -> safe_command w username password) /\
    match fst (sendCredentials ok1 ok2 c username password) with
    | Ok _ => sent = [auth_line "username" username +:+ nl; auth_line "password" password +:+ nl]
    | Err IllegalNewline => sent = [] /\ (has_crlf username || has_crlf password = true)
    | Err WriteFailed => ok1 = false \/ ok2 = false
    end.
Proof.
  unfold sendCredentials. destruct (has_crlf username || has_crlf password) eqn:E.
  { exists []. cbn [fst snd]. rewrite app_nil_r. split; [done|]. split; [|done].
    intros w Hw. by apply elem_of_nil in Hw. }
  apply orb_false_elim in E as [Hu Hp].
  assert (Hsafe : forall what value, (what, value) ∈ [("username", username); ("password", password)] ->
            safe_command (auth_line what value +:+ nl) username password).
  { intros what value Hin. by apply safe_auth_line. }
  unfold writeLocked. destruct ok1; cbn -[auth_line elem_of].
  - destruct ok2; cbn -[auth_line elem_of].
    + exists [auth_line "username" username +:+ nl; auth_line "password" password +:+ nl].
      split; [by rewrite <- app_assoc|]. split; [|done].
      intros w [->|[->|[]%elem_of_nil]%elem_of_cons]%elem_of_cons; apply Hsafe; set_solver.
    + exists [auth_line "username" username +:+ nl]. split; [done|]. split; [|auto].
      intros w ->%list_elem_of_singleton. apply Hsafe. set_solver.
  - exists []. rewrite app_nil_r. split; [done|]. split; [|auto].
    intros w Hw. by apply elem_of_nil in Hw.
Qed.

(** No hold is released once the client is closed. *)
Lemma close_cancels ok wait c :
  hold_fires ok (close c) = close c
  /\ ((0 < wait)%Z -> releaseHold ok (close c) wait = close c).
Proof.
  split; [done|]. intros H. unfold releaseHold. destruct (Z.leb_spec wait 0); [lia|done].
Qed.

(** ** What the server's challenge becomes *)

Lemma until_close_app text :
  contains_byte newline text = false -> until_close (text +:+ "']") = Some text.
Proof.
  induction text as [|c text IH]; [done|]. cbn [contains_byte]. intros [Hc Ht]%orb_false_elim.
  rewrite string_app_cons. cbn [until_close]. apply bool_decide_eq_false in Hc.
  rewrite bool_decide_false by congruence. by rewrite IH.
Qed.

(** The line of a server that answers the base credentials with CRV1. *)
Definition crv1_line (flags state user text : string) : string :=
  ">PASSWORD:Verification Failed: 'Auth' ['CRV1:" +:+ flags +:+ ":" +:+ state +:+ ":"
    +:+ b64_encode user +:+ ":" +:+ text +:+ "']".

Lemma colon_field_app u v : contains_byte ":" u = false -> colon_field (u +:+ ":" +:+ v) = Some (u, v).
Proof. intros H. unfold colon_field. by apply cut_byte_app. Qed.

Lemma find_first_skip {A} (f : string -> option A) (P : ascii -> bool) p r :
  string_forall P p = true -> (forall a s, P a = true -> f (String a s) = None) ->
  find_first f (p +:+ r) = find_first f r.
Proof.
  intros Hp Hf. induction p as [|a p IH]; [done|]. rewrite string_app_cons. cbn [string_forall] in Hp.
  apply andb_prop in Hp as [Ha Hp]. cbn [find_first]. rewrite Hf by done. by apply IH.
Qed.

Lemma find_first_here {A} (f : string -> option A) s a : f s = Some a -> find_first f s = Some a.
Proof. intros H. destruct s; cbn [find_first]; by rewrite H. Qed.

Lemma dynamic_head a s : a <> "C"%char -> dynamicChallengeRe (String a s) = None.
Proof.
  intros Ha. unfold dynamicChallengeRe, after_prefix, has_prefix. cbn [String.prefix].
  by destruct (ascii_dec "C" a) as [<-|?].
Qed.

Definition crv1_payload (r : string) : string := "Verification Failed: 'Auth' ['" +:+ r.

Lemma on_password_line r :
  on_line (">PASSWORD:" +:+ crv1_payload r)
  = match parseDynamicChallenge (crv1_payload r) with
    | Some ch => Some (evDynamicChallenge ch)
    | None => Some (evAuthFailed (crv1_payload r))
    end.
Proof.
  unfold on_line. rewrite has_prefix_app. unfold trim_prefix. rewrite has_prefix_app, string_drop_app. done.
Qed.

Lemma of_byte_vals_bytes s : of_byte_vals (byte_val <$> bytes_of s) = s.
Proof. unfold of_byte_vals. apply string_of_byte_vals. Qed.

(** A dynamic challenge written in OpenVPN's CRV1 form is reported with the state id, the
    user name, the text (colons and quotes included) and the echo flag the server chose. *)
Theorem dynamic_challenge_roundtrip (flags state user text : string) :
  contains_byte ":" flags = false -> contains_byte ":" state = false ->
  contains_byte newline text = false ->
  on_line (crv1_line flags state user text)
  = Some (evDynamicChallenge
            (MkChallenge ChallengeDynamic text (contains_byte "E" flags) state false user)).
Proof.
  intros Hf Hs Ht.
  change (crv1_line flags state user text)
    with (">PASSWORD:" +:+ crv1_payload ("CRV1:" +:+ (flags +:+ ":" +:+ (state +:+ ":" +:+
            (b64_encode user +:+ ":" +:+ (text +:+ "']")))))).
  rewrite on_password_line. unfold parseDynamicChallenge, crv1_payload.
  rewrite (find_first_skip _ (fun a => negb (bool_decide (a = "C"%char)))) by
    (try done; intros a s Ha%negb_true_iff%bool_decide_eq_false; by apply dynamic_head).
  rewrite (find_first_here _ _ (flags, state, b64_encode user, text)).
  - by rewrite b64_roundtrip, of_byte_vals_bytes.
  - unfold dynamicChallengeRe. rewrite after_prefix_app, colon_field_app by done.
    rewrite colon_field_app by done. rewrite colon_field_app by apply b64_encode_no_colon.
    by rewrite until_close_app.
Qed.

Lemma dynamic_challenge_roundtrip_witness :
  on_line (crv1_line "R,E" "Om01u7Fh4" "alice" "PIN for ['work']: ")
  = Some (evDynamicChallenge
            (MkChallenge ChallengeDynamic "PIN for ['work']: " true "Om01u7Fh4" false "alice")).
Proof. exact (dynamic_challenge_roundtrip "R,E" "Om01u7Fh4" "alice" "PIN for ['work']: " eq_refl eq_refl eq_refl). Defined.

(** ** Dialling: dialManagement

    Times in milliseconds since the start.  [dials k]: whether dial [k] connects, and how long it takes. *)

Definition dial_budget : Z := 8000.
Definition dial_pause : Z := 150.

(** The dial that connected, [Some None] when the deadline has passed. *)
Fixpoint dial_loop (fuel k : nat) (now : Z) (dials : nat -> bool * Z) : option (option nat) :=
  match fuel with
  | O => None
  | S fuel =>
      if (now <? dial_budget)%Z then
        let '(ok, took) := dials k in
        if ok then Some (Some k) else dial_loop fuel (S k) (now + took + dial_pause)%Z dials
      else Some None
  end.

(** One unit for each dial the pauses leave time for, and one to notice the deadline. *)
Definition dialManagement (dials : nat -> bool * Z) : option (option nat) := dial_loop 55 0 0 dials.

Lemma dial_loop_ends dials : (forall k, 0 <= snd (dials k))%Z -> forall fuel k now,
  (0 <= now)%Z -> (dial_budget <= now + 150 * (Z.of_nat fuel - 1))%Z -> (0 < fuel)%nat ->
  exists r, dial_loop fuel k now dials = Some r /\
    match r with
    | Some j => (k <= j < k + fuel - 1)%nat /\ fst (dials j) = true /\ forall i, (k <= i < j)%nat -> fst (dials i) = false
    | None => exists n, (n < fuel)%nat /\ (forall i, (k <= i < k + n)%nat -> fst (dials i) = false)
              /\ (dial_budget <= now + foldr Z.add 0 (map (fun i => snd (dials i) + dial_pause) (seq k n)))%Z
    end.
Proof.
  intros Hd. induction fuel as [|fuel IH]; intros k now H0 Hb Hf; [lia|]. cbn [dial_loop]. unfold dial_budget, dial_pause in *.
  destruct (Z.ltb_spec now 8000) as [Hlt|Hge].
  - pose proof (Hd k) as Hk. destruct (dials k) as [[] took] eqn:E; cbn [snd] in Hk.
    + eexists. split; [done|]. split_and!; [lia|lia|by rewrite E|intros i Hi; lia].
    + destruct (IH (S k) (now + took + 150)%Z) as (r & -> & H); [lia..|]. eexists. split; [done|]. destruct r as [j|].
      * destruct H as (H1 & H2 & H3). split_and!; [lia|lia|done|]. intros i Hi. destruct (decide (i = k)) as [->|]; [by rewrite E|apply H3; lia].
      * destruct H as (n & H1 & H2 & H3). exists (S n). split_and!; [lia| |].
        -- intros i Hi. destruct (decide (i = k)) as [->|]; [by rewrite E|apply H2; lia].
        -- cbn [seq map foldr]. rewrite E. cbn [snd]. lia.
  - eexists. split; [done|]. exists 0%nat. split_and!; [lia|intros i Hi; lia|cbn; lia].
Qed.

(** Dialling ends: with the first dial that connects, among at most 54, or once none did for eight seconds. *)
Theorem dialManagement_ends dials : (forall k, 0 <= snd (dials k))%Z ->
  exists r, dialManagement dials = Some r /\
    match r with
    | Some j => (j < 54)%nat /\ fst (dials j) = true /\ forall i, (i < j)%nat -> fst (dials i) = false
    | None => exists n, (n <= 54)%nat /\ (forall i, (i < n)%nat -> fst (dials i) = false)
              /\ (8000 <= foldr Z.add 0 (map (fun i => snd (dials i) + 150) (seq 0 n)))%Z
    end.
Proof.
  intros Hd. destruct (dial_loop_ends dials Hd 55 0 0) as (r & Hr & H); [unfold dial_budget; lia..|].
  exists r. split; [exact Hr|]. destruct r as [j|].
  - destruct H as (H1 & H2 & H3). split_and!; [lia|done|]. intros i Hi. apply H3. lia.
  - destruct H as (n & H1 & H2 & H3). exists n. split_and!; [lia| |done]. intros i Hi. apply H2. lia.
Qed.

Lemma dialManagement_ends_witness :
  exists r, dialManagement (fun k => ((3 <=? k)%nat, 10%Z)) = Some r /\
    match r with
    | Some j => (j < 54)%nat /\ fst ((3 <=? j)%nat, 10%Z) = true /\ forall i, (i < j)%nat -> fst ((3 <=? i)%nat, 10%Z) = false
    | None => exists n, (n <= 54)%nat /\ (forall i, (i < n)%nat -> fst ((3 <=? i)%nat, 10%Z) = false)
              /\ (8000 <= foldr Z.add 0 (map (fun i => snd ((3 <=? i)%nat, 10%Z) + 150) (seq 0 n)))%Z
    end.
Proof. apply (dialManagement_ends (fun k => ((3 <=? k)%nat, 10%Z))). cbn. lia. Defined.
