(* ===== verification/OvpnProfile.v ===== *)
(** * Inspecting a profile: internal/ovpn/config.go

    [inspectProfile] is one pass over the directives that checks each against the allowlist and
    gathers what a connection needs; [runtimeConfig] is the text the root process is given.  The
    messages are constructors of [ProfileError]. *)

From S2P Require Import Prelude GoStrings GoNet OvpnParse OvpnAllowlist.

Record RemoteSpec := MkRemote { rsHost : string; rsPort : string; rsProto : string }.

Record OVPNConfig := MkOVPN {
  ocRemote : string; ocProto : string; ocAuthUserPass : bool; ocRemotes : list RemoteSpec }.

#[export] Instance eta_ovpn : Eta OVPNConfig := fun r =>
  MkOVPN (ocRemote r) (ocProto r) (ocAuthUserPass r) (ocRemotes r).

#[export] Instance remote_eq_dec : EqDecision RemoteSpec.
Proof. solve_decision. Defined.

Definition transportProto (p : string) : string :=
  if has_prefix "tcp" (to_lower p) then "tcp" else "udp".

(** ** DNS options *)

Record dnsConfig := MkDns {
  dns_servers : gmap Z (list string);
  dns_search : list string;
  dns_dhcpServers : list string;
  dns_dhcpDomains : list string;
  dns_touched : bool
}.

#[export] Instance eta_dns : Eta dnsConfig := fun r =>
  MkDns (dns_servers r) (dns_search r) (dns_dhcpServers r) (dns_dhcpDomains r) (dns_touched r).

Definition zero_dns : dnsConfig := MkDns ∅ [] [] [] false.

Definition stripDNSPort (s : string) : string :=
  if ip_valid s then s
  else match split_host_port s with
       | Some (host, _) => if ip_valid host then host else ""
       | None => ""
       end.

Definition dns_add (c : dnsConfig) (name : string) (args : list string) : dnsConfig :=
  let c := c <| dns_touched := true |> in
  if name =s "dhcp-option" then
    if (length args <? 2)%nat then c
    else if (arg args 0 =s "DNS") || (arg args 0 =s "DNS6")
    then c <| dns_dhcpServers ::= fun l => l ++ [arg args 1] |>
    else if (arg args 0 =s "DOMAIN") || (arg args 0 =s "DOMAIN-SEARCH")
    then c <| dns_dhcpDomains ::= fun l => l ++ [arg args 1] |>
    else c
  else if name =s "dns" then
    if (4 <=? length args)%nat && (arg args 0 =s "server") && (arg args 2 =s "address") then
      match atoi (arg args 1) with
      | None => c
      | Some prio =>
          foldl (fun c a =>
                   let ip := stripDNSPort a in
                   if negb (ip =s "")
                   then c <| dns_servers ::= fun m => <[prio := default [] (m !! prio) ++ [ip]]> m |>
                   else c)
            c (drop 3 args)
      end
    else if (2 <=? length args)%nat && (arg args 0 =s "search-domains")
    then c <| dns_search ::= fun l => l ++ drop 1 args |>
    else c
  else c.

Definition dns_merge (c pushed : dnsConfig) : dnsConfig :=
  MkDns (dns_servers pushed ∪ dns_servers c) (dns_search c ++ dns_search pushed)
    (dns_dhcpServers c ++ dns_dhcpServers pushed) (dns_dhcpDomains c ++ dns_dhcpDomains pushed) false.

(** The closure [add] of entries. *)
Definition add_entries_ (out vs : list string) : list string :=
  foldl (fun out v => if negb (v =s "") && negb (bool_decide (v ∈ out)) then out ++ [v] else out)
    out vs.

Definition sorted_prios (m : gmap Z (list string)) : list Z :=
  merge_sort Z.le (fst <$> map_to_list m).

Definition dns_entries (c : dnsConfig) : list string :=
  if negb (bool_decide (dns_servers c = ∅)) then
    let out := foldl (fun out k => add_entries_ out (default [] (dns_servers c !! k)))
                 [] (sorted_prios (dns_servers c)) in
    add_entries_ out (dns_search c)
  else add_entries_ (add_entries_ [] (dns_dhcpServers c)) (dns_dhcpDomains c).

(** ** Pull filters and pushed options *)

Record pullFilter := MkFilter { pf_action : string; pf_prefix : string }.

(** [(keep, ok)] *)
Fixpoint filterPushed (filters : list pullFilter) (opt : string) : bool * bool :=
  match filters with
  | [] => (true, true)
  | f :: rest =>
      if has_prefix (pf_prefix f) opt then
        if pf_action f =s "accept" then (true, true)
        else if pf_action f =s "ignore" then (false, true)
        else if pf_action f =s "reject" then (false, false)
        else filterPushed rest opt
      else filterPushed rest opt
  end.

Record pushMessage := MkPush {
  push_update : bool; push_more : bool; push_dns : dnsConfig; push_rejected : bool }.

#[export] Instance eta_push : Eta pushMessage := fun r =>
  MkPush (push_update r) (push_more r) (push_dns r) (push_rejected r).

(** strings.Index with the text after the match *)
Fixpoint after_match (sep s : string) : option string :=
  if has_prefix sep s then Some (string_drop (String.length sep) s)
  else match s with
       | EmptyString => None
       | String _ s' => after_match sep s'
       end.

(** One leading [c] is dropped: the flag and the rest. *)
Definition take_flag (on : bool) (c : string) (opt : string) : bool * string :=
  if on && has_prefix c opt then (true, string_drop 1 opt) else (false, opt).

(** The loop over the options; a reject that is not optional ends it. *)
Fixpoint push_options (filters : list pullFilter) (opts : list string) (msg : pushMessage)
    : pushMessage :=
  match opts with
  | [] => msg
  | opt0 :: rest =>
      let opt1 := trim_left_c opt0 in
      let '(remove, opt2) := take_flag (push_update msg) "-" opt1 in
      let '(optional, opt) := take_flag (push_update msg) "?" opt2 in
      let '(keep, accepted) := filterPushed filters opt in
      if negb accepted then
        if optional : bool then push_options filters rest msg
        else msg <| push_rejected := true |>
      else if negb keep then push_options filters rest msg
      else
        let msg' :=
          match parseLine opt with
          | Ok (f0 :: fs) =>
              if f0 =s "push-continuation" then msg <| push_more := arg fs 0 =s "2" |>
              else if (f0 =s "dns") || (f0 =s "dhcp-option") then
                if remove : bool then msg <| push_dns ::= fun d => d <| dns_touched := true |> |>
                else msg <| push_dns ::= fun d => dns_add d f0 fs |>
              else msg
          | _ => msg
          end in
        push_options filters rest msg'
  end.

Definition push_marker : string := "Received control message: '".

Definition parsePushLine (line : string) (filters : list pullFilter) : option pushMessage :=
  match after_match push_marker line with
  | None => None
  | Some body0 =>
      let body := match cut_last_byte "'" body0 with Some (b, _) => b | None => body0 end in
      match split_byte "," body with
      | kind :: opts =>
          if kind =s "PUSH_REPLY" then Some (push_options filters opts (MkPush false false zero_dns false))
          else if kind =s "PUSH_UPDATE" then Some (push_options filters opts (MkPush true false zero_dns false))
          else None
      | [] => None
      end
  end.

(** ** Remotes *)

Record remoteDefaults := MkDefaults { rd_proto : string; rd_port : string }.

Definition apply_default (rd : remoteDefaults) (d : directive) : remoteDefaults :=
  match dArgs d with
  | a :: _ =>
      if dInline d then rd
      else if dName d =s "proto" then MkDefaults a (rd_port rd)
      else if (dName d =s "port") || (dName d =s "rport") then MkDefaults (rd_proto rd) a
      else rd
  | [] => rd
  end.

(** strings.Trim(s, "[]") *)
Definition is_bracket (c : ascii) : bool := bool_decide (c = "["%char) || bool_decide (c = "]"%char).

Fixpoint drop_brackets (l : list ascii) : list ascii :=
  match l with
  | c :: l' => if is_bracket c then drop_brackets l' else l
  | [] => []
  end.

Definition trim_brackets (s : string) : string :=
  string_of (rev (drop_brackets (rev (drop_brackets (bytes_of s))))).

(** The closure [add] of collectRemotes. *)
Definition remote_of (def : remoteDefaults) (d : directive) : list RemoteSpec :=
  if dInline d || (arg (dArgs d) 0 =s "") then []
  else
    [MkRemote (trim_brackets (arg (dArgs d) 0))
       (if negb (arg (dArgs d) 1 =s "") then arg (dArgs d) 1 else rd_port def)
       (if negb (arg (dArgs d) 2 =s "") then transportProto (arg (dArgs d) 2)
        else transportProto (rd_proto def))].

Definition remotes_among (def : remoteDefaults) (ds : list directive) : list RemoteSpec :=
  concat ((fun d => if dName d =s "remote" then remote_of def d else []) <$> ds).

Definition default_remote : remoteDefaults := MkDefaults "udp" "1194".

Definition collectRemotes (ds : list directive) : list RemoteSpec :=
  let global := foldl apply_default default_remote ds in
  concat ((fun d =>
    (if dName d =s "remote" then remote_of global d else [])
    ++ remotes_among (foldl apply_default global (dChildren d)) (dChildren d)) <$> ds).

Definition summarize_step (cfg : OVPNConfig) (d : directive) : OVPNConfig :=
  if dName d =s "remote" then
    if (ocRemote cfg =s "") && (1 <=? length (dArgs d))%nat then
      let host := arg (dArgs d) 0 in
      cfg <| ocRemote :=
               if (2 <=? length (dArgs d))%nat then
                 (if contains_byte ":" host then "[" +:+ host +:+ "]" else host)
                   +:+ ":" +:+ arg (dArgs d) 1
               else host |>
    else cfg
  else if dName d =s "proto" then
    if (1 <=? length (dArgs d))%nat then cfg <| ocProto := to_lower (arg (dArgs d) 0) |> else cfg
  else if dName d =s "auth-user-pass" then
    if negb (dInline d) then cfg <| ocAuthUserPass := true |> else cfg
  else cfg.

Definition summarize (ds : list directive) : OVPNConfig :=
  walkDirectives ds summarize_step (MkOVPN "" "" false (collectRemotes ds)).

Definition ParseOVPN (data : string) : result OvpnError OVPNConfig :=
  let? ds := parseConfig data in Ok (summarize ds).

(** ** Ciphers and verbosity *)

Definition defaultDataCiphers : string := "AES-256-GCM:AES-128-GCM:CHACHA20-POLY1305".

Definition cipher_char (c : ascii) : bool :=
  let n := nat_of_ascii c in
  ((n =? 45) || ((48 <=? n) && (n <=? 57)) || ((97 <=? n) && (n <=? 122))
   || ((65 <=? n) && (n <=? 90)))%nat.

Definition isCipherName (s : string) : bool :=
  (String.length s <=? 64)%nat && string_forall cipher_char s.

Definition legacyDataCiphers (cipher : string) : string :=
  if (cipher =s "") || negb (isCipherName cipher) then ""
  else
    let upper := to_upper cipher in
    if (upper =s "NONE") || (upper =s "BF-CBC") then ""
    else if bool_decide (upper ∈ split_byte ":" defaultDataCiphers) then ""
    else defaultDataCiphers +:+ ":" +:+ cipher.

(** ** The profile *)

Record profile := MkProfile {
  p_cfg : OVPNConfig;
  p_hasKeepalive : bool;
  p_hasMTU : bool;
  p_legacyCiphers : string;
  p_verb : Z;
  p_dns : dnsConfig;
  p_pullFilters : list pullFilter;
  p_stripLines : list Z
}.

#[export] Instance eta_profile : Eta profile := fun r =>
  MkProfile (p_cfg r) (p_hasKeepalive r) (p_hasMTU r) (p_legacyCiphers r) (p_verb r) (p_dns r)
    (p_pullFilters r) (p_stripLines r).

(** The locals of inspectProfile that its closure [visit] updates. *)
Record Scan := MkScan {
  sc_profile : profile;
  sc_hasRemote : bool; sc_hasClient : bool; sc_pull : bool; sc_bind : bool;
  sc_lowPort : list Z;
  sc_cipher : string;
  sc_explicitCiphers : bool;
  sc_persistRemote : list Z
}.

#[export] Instance eta_scan : Eta Scan := fun r =>
  MkScan (sc_profile r) (sc_hasRemote r) (sc_hasClient r) (sc_pull r) (sc_bind r) (sc_lowPort r)
    (sc_cipher r) (sc_explicitCiphers r) (sc_persistRemote r).

Definition zero_profile : profile :=
  MkProfile (MkOVPN "" "" false []) false false "" (-1) zero_dns [] [].

Definition zero_scan : Scan := MkScan zero_profile false false false false [] "" false [].

Inductive VisitError := Refused (e : DirError) | NotInConnection (name : string).

Inductive ProfileError :=
| TooLarge
| Unreadable (e : OvpnError)
| AtDirective (line : Z) (e : VisitError)
| NoRemote
| NoClient
| LocalPortBelow1024 (line : Z).

Definition effective (d : directive) : string * list string :=
  if (dName d =s "setenv") && (2 <=? length (dArgs d))%nat && (arg (dArgs d) 0 =s "opt")
  then (arg (dArgs d) 1, drop 2 (dArgs d))
  else (dName d, dArgs d).

(** The switch of [visit]. *)
Definition note_directive (s : Scan) (line : Z) (name : string) (args : list string) : Scan :=
  let nm n := name =s n in
  if nm "remote" then s <| sc_hasRemote := true |>
  else if nm "client" then s <| sc_hasClient := true |> <| sc_pull := true |>
  else if nm "tls-client" then s <| sc_hasClient := true |>
  else if nm "pull" then s <| sc_pull := true |>
  else if nm "bind" then s <| sc_bind := true |>
  else if nm "local" then if (length args <? 2)%nat then s <| sc_bind := true |> else s
  else if nm "port" then
    if (length args =? 1)%nat && negb (unprivilegedPort (arg args 0))
    then s <| sc_lowPort ::= fun l => l ++ [line] |> else s
  else if nm "ping" || nm "ping-restart" || nm "keepalive"
  then s <| sc_profile ::= fun p => p <| p_hasKeepalive := true |> |>
  else if nm "mssfix" || nm "fragment" || nm "tun-mtu" || nm "link-mtu"
  then s <| sc_profile ::= fun p => p <| p_hasMTU := true |> |>
  else if nm "data-ciphers" || nm "ncp-ciphers" then s <| sc_explicitCiphers := true |>
  else if nm "cipher" then
    if (0 <? length args)%nat then s <| sc_cipher := arg args 0 |> else s
  else if nm "verb" then
    if (length args =? 1)%nat then
      match atoi (arg args 0) with
      | Some v => s <| sc_profile ::= fun p => p <| p_verb := v |> |>
      | None => s
      end
    else s
  else if nm "dns" || nm "dhcp-option"
  then s <| sc_profile ::= fun p => p <| p_dns ::= fun d => dns_add d name args |> |>
  else if nm "pull-filter" then
    if (length args =? 2)%nat
    then s <| sc_profile ::= fun p =>
                p <| p_pullFilters ::= fun l => l ++ [MkFilter (arg args 0) (arg args 1)] |> |>
    else s
  else if nm "persist-remote-ip" then s <| sc_persistRemote ::= fun l => l ++ [line] |>
  else s.

Definition visit (s : Scan) (topLevel : bool) (d : directive) : result ProfileError Scan :=
  match checkDirective d with
  | Some e => Err (AtDirective (dLine d) (Refused e))
  | None =>
      if stripOnly (dName d) then
        if negb topLevel then Err (AtDirective (dLine d) (NotInConnection (dName d)))
        else Ok (s <| sc_profile ::= fun p => p <| p_stripLines ::= fun l => l ++ [dLine d] |> |>)
      else if dInline d then Ok s
      else let '(name, args) := effective d in Ok (note_directive s (dLine d) name args)
  end.

Fixpoint visit_children (s : Scan) (ds : list directive) : result ProfileError Scan :=
  match ds with
  | [] => Ok s
  | d :: ds' => let? s' := visit s false d in visit_children s' ds'
  end.

Fixpoint visit_all (s : Scan) (ds : list directive) : result ProfileError Scan :=
  match ds with
  | [] => Ok s
  | d :: ds' =>
      let? s1 := visit s true d in
      let? s2 := visit_children s1 (dChildren d) in
      visit_all s2 ds'
  end.

Definition maxOVPNSize : N := 1048576.

(** What inspectProfile does once every directive has been visited. *)
Definition finish_profile (ds : list directive) (s : Scan) : result ProfileError profile :=
  if negb (sc_hasRemote s) then Err NoRemote
  else if negb (sc_hasClient s) then Err NoClient
  else
    let? tt := match sc_lowPort s with
              | ln :: _ => if sc_bind s || negb (sc_pull s) then Err (LocalPortBelow1024 ln) else Ok tt
              | [] => Ok tt
              end in
      let p := (sc_profile s) <| p_cfg := summarize ds |> in
      let p := if (1 <? length (ocRemotes (p_cfg p)))%nat
               then p <| p_stripLines ::= fun l => l ++ sc_persistRemote s |> else p in
      Ok (if negb (sc_explicitCiphers s)
          then p <| p_legacyCiphers := legacyDataCiphers (sc_cipher s) |> else p).

Definition inspectProfile (data : string) : result ProfileError profile :=
  if (maxOVPNSize <? N.of_nat (String.length data))%N then Err TooLarge
  else
    let? ds := map_err Unreadable (parseConfig data) in
    let? s := visit_all zero_scan ds in
    finish_profile ds s.

Definition ValidateOVPN (data : string) : option ProfileError :=
  match inspectProfile data with Ok _ => None | Err e => Some e end.

Definition runtimeVerb (p : profile) : string := itoa (Z.min 4 (Z.max 3 (p_verb p))).

(** strings.SplitAfter(data, newline) *)
Fixpoint split_after_newline (s : string) : list string :=
  match s with
  | EmptyString => [""]
  | String c s' =>
      if bool_decide (c = newline) then String c "" :: split_after_newline s'
      else match split_after_newline s' with
           | l :: ls => String c l :: ls
           | [] => [String c ""]
           end
  end.

Definition ends_in_newline (l : string) : bool :=
  match rev (bytes_of l) with c :: _ => bool_decide (c = newline) | [] => false end.

Definition blank_line (drop : list Z) (i : nat) (l : string) : string :=
  if bool_decide (Z.of_nat i + 1 ∈ drop)%Z
  then (if ends_in_newline l then String newline "" else "") else l.

Definition runtimeConfig (p : profile) (data : string) : string :=
  if (length (p_stripLines p) =? 0)%nat then data
  else String.concat "" (imap (blank_line (p_stripLines p)) (split_after_newline data)).
