(* ===== verification/OvpnProfileFacts.v ===== *)
(** * What an accepted profile guarantees

    [inspectProfile_safe]: every directive the root process would apply is allow-listed and
    neither runs a command nor names a file.  [inspectProfile_client]: it is a client profile
    with a remote, and binds no privileged local port.  [runtimeConfig_bypass] shows where the
    blanking of lines breaks these guarantees. *)

From S2P Require Import Prelude GoStrings GoNet OvpnParse OvpnParseFacts OvpnAllowlist OvpnProfile.

(** ** The options of OpenVPN that run a program or open a file *)

Definition command_options : list string :=
  ["up"; "down"; "route-up"; "route-pre-down"; "ipchange"; "tls-verify"; "auth-user-pass-verify";
   "client-connect"; "client-disconnect"; "learn-address"; "client-crresponse";
   "tls-crypt-v2-verify"; "iproute"; "plugin"; "engine"; "pkcs11-providers"; "pkcs11-id";
   "management"; "management-client"; "management-external-key"; "daemon"; "inetd"; "chroot"; "cd";
   "down-pre"; "up-restart"; "route-noexec"; "ifconfig-noexec"; "setcon"; "remap-usr1"; "mlock"].

Definition file_options : list string :=
  ["config"; "log"; "log-append"; "status"; "writepid"; "syslog"; "askpass"; "capath"; "secret";
   "auth-gen-token-secret"; "tls-export-cert"; "replay-persist"; "tmp-dir"; "client-config-dir";
   "ifconfig-pool-persist"; "genkey"; "keying-material-exporter"; "memstats"; "dev-node";
   "ca"; "cert"; "key"; "extra-certs"; "pkcs12"; "crl-verify"; "dh"; "tls-auth"; "tls-crypt";
   "tls-crypt-v2"; "http-proxy-user-pass"].

(** A plain directive that runs a program or has a path among its arguments. *)
Definition runs_or_reads (name : string) (args : list string) : bool :=
  bool_decide (name ∈ command_options) || bool_decide (name ∈ file_options)
  || (name =s "auth-user-pass") && (0 <? length args)%nat
  || (name =s "http-proxy") && (3 <=? length args)%nat
     && negb (bool_decide (arg args 2 ∈ ["auto"; "auto-nct"; "stdin"]))
  || (name =s "socks-proxy") && (3 <=? length args)%nat && negb (arg args 2 =s "stdin")
  || (name =s "dns-updown") && negb (bool_decide (args = ["disable"]))
  || (name =s "providers") && negb (forallb (fun a => bool_decide (a ∈ ["legacy"; "default"; "base"])) args).

Definition listed (name : string) : bool := bool_decide (is_Some (allowedDirectives !! name)).

(** What the source promises of one directive. *)
Definition safe_directive (d : directive) : bool :=
  listed (dName d)
  && (dInline d
      || let '(name, args) := effective d in listed name && negb (runs_or_reads name args)).

(** ** One directive *)

Lemma not_inline_only n r :
  allowedDirectives !! n = Some r -> rule_inline r <> inlineOnly ->
  bool_decide (n ∈ command_options) = false /\ bool_decide (n ∈ file_options) = false.
Proof.
  intros Hr Hi.
  assert (Hall : forallb (fun m => match allowedDirectives !! m with
                                   | Some q => bool_decide (rule_inline q = inlineOnly)
                                   | None => true end) (command_options ++ file_options) = true)
    by (vm_compute; reflexivity).
  rewrite forallb_true_iff in Hall.
  split; apply bool_decide_eq_false; intros Hin;
    (assert (Hm : n ∈ command_options ++ file_options) by (rewrite elem_of_app; tauto));
    specialize (Hall n Hm); rewrite Hr in Hall; clear Hr; by apply bool_decide_eq_true in Hall.
Qed.

Lemma check_named_eq name inline args :
  check_named name inline args =
  match allowedDirectives !! name with
  | None => Some (NotAllowed name)
  | Some rule =>
      if inline && bool_decide (rule_inline rule = inlineNever) then Some (CannotBeInline name)
      else if negb inline && bool_decide (rule_inline rule = inlineOnly) then Some (NoPaths name)
      else
        match rule_validate rule with
        | None => None
        | Some CheckSetenv =>
            match args with
            | a :: rest =>
                if a =s "opt" then
                  match rest with
                  | [] => Some (BadDirective name SetenvOptNeedsDirective)
                  | inner :: args' =>
                      if stripOnly inner then Some (InSetenvOpt (NotAllowed inner))
                      else InSetenvOpt <$> check_named inner false args'
                  end
                else BadDirective name <$> validate_variable args
            | [] => BadDirective name <$> validate_variable args
            end
        | Some k => BadDirective name <$> run_check k inline args
        end
  end.
Proof. by destruct args. Qed.

Lemma check_listed name inline args : check_named name inline args = None -> listed name = true.
Proof.
  rewrite check_named_eq. unfold listed. intros H. apply bool_decide_eq_true.
  destruct (allowedDirectives !! name); [by eexists|done].
Qed.

(** The rule of a name that has a check of its own decides. *)
Lemma check_with name args r k :
  check_named name false args = None -> allowedDirectives !! name = Some r ->
  rule_validate r = Some k -> k <> CheckSetenv -> run_check k false args = None.
Proof.
  rewrite check_named_eq. intros H Hr Hk Hs. rewrite Hr, Hk in H. cbn [andb negb] in H. clear Hr Hk.
  destruct (bool_decide _); [done|]. destruct k; try done; by destruct (run_check _ _ _).
Qed.

Ltac with_rule H name k :=
  let r := constr:(MkRule inlineNever (Some k)) in
  assert (Hrule : allowedDirectives !! name = Some r) by (vm_compute; reflexivity);
  pose proof (check_with name _ r k H Hrule eq_refl ltac:(discriminate)) as Hrun.

Lemma unless_None b w : unless b w = None -> b = true.
Proof. by destruct b. Qed.

Lemma single_arg args v :
  (length args =? 1)%nat && (arg args 0 =s v) = true -> args = [v].
Proof.
  intros [H1%Nat.eqb_eq H2%bool_decide_eq_true]%andb_prop.
  destruct args as [|a [|b l]]; [done| |done]. unfold arg in H2. cbn in H2. by subst.
Qed.

Lemma check_plain_safe name args :
  check_named name false args = None -> runs_or_reads name args = false.
Proof.
  intros H. pose proof (check_listed _ _ _ H) as Hl%bool_decide_eq_true. destruct Hl as [r Hr].
  assert (Hi : rule_inline r <> inlineOnly).
  { intros Hi. rewrite check_named_eq, Hr, Hi in H. cbn [andb negb] in H.
    clear Hr. rewrite bool_decide_true in H; [discriminate|reflexivity]. }
  destruct (not_inline_only name r Hr Hi) as [H1 H2].
  unfold runs_or_reads. rewrite H1, H2. clear H1 H2 Hi Hr r. cbn [orb].
  repeat (apply orb_false_intro).
  - case_bool_decide; [subst|done]. assert (Hrule : allowedDirectives !! "auth-user-pass"
      = Some (MkRule inlineOptional (Some CheckAuthUserPass))) by (vm_compute; reflexivity).
    pose proof (check_with _ _ _ CheckAuthUserPass H Hrule eq_refl ltac:(discriminate)) as Hrun.
    apply unless_None in Hrun. by apply negb_true_iff in Hrun.
  - case_bool_decide; [subst|done]. with_rule H "http-proxy" CheckHttpProxy. cbn [run_check] in Hrun.
    cbn [andb]. destruct (Nat.leb_spec 3 (length args)); [|done].
    destruct (Nat.leb_spec (length args) 2); [lia|]. cbn [andb].
    apply negb_false_iff, bool_decide_eq_true. repeat rewrite elem_of_cons.
    repeat case_bool_decide; cbn [orb] in Hrun; auto; done.
  - case_bool_decide; [subst|done]. with_rule H "socks-proxy" CheckSocksProxy. cbn [run_check] in Hrun.
    cbn [andb]. destruct (Nat.leb_spec 3 (length args)); [|done].
    destruct (Nat.ltb_spec 2 (length args)); [|lia]. cbn [andb] in *. by case_bool_decide.
  - case_bool_decide; [subst|done]. with_rule H "dns-updown" CheckDnsUpdown.
    apply unless_None, single_arg in Hrun. subst. done.
  - case_bool_decide; [subst|done]. with_rule H "providers" CheckProviders.
    apply unless_None in Hrun. cbn [andb]. apply negb_false_iff. rewrite forallb_true_iff in *.
    intros x Hx%Hrun. apply bool_decide_eq_true. repeat rewrite elem_of_cons.
    apply orb_prop in Hx as [Hx|Hx%bool_decide_eq_true]; [|auto].
    apply orb_prop in Hx as [Hx%bool_decide_eq_true|Hx%bool_decide_eq_true]; auto.
Qed.

Lemma checkDirective_safe d : checkDirective d = None -> safe_directive d = true.
Proof.
  unfold checkDirective, safe_directive. intros H. rewrite (check_listed _ _ _ H). cbn [andb].
  destruct (dInline d); [done|]. cbn [orb]. unfold effective.
  destruct (_ && _ && _) eqn:E.
  - apply andb_prop in E as [[En El]%andb_prop Ea]. apply bool_decide_eq_true in En, Ea.
    rewrite En in H. rewrite check_named_eq in H.
    assert (Hrule : allowedDirectives !! "setenv" = Some (MkRule inlineNever (Some CheckSetenv)))
      by (vm_compute; reflexivity).
    rewrite Hrule in H. clear Hrule. cbn [rule_inline rule_validate negb andb] in H.
    rewrite bool_decide_false in H by done.
    destruct (dArgs d) as [|a [|inner args]]; [done|by apply Nat.leb_le in El; cbn in El; lia|].
    change (arg (a :: inner :: args) 0) with a in Ea.
    change (arg (a :: inner :: args) 1) with inner. change (drop 2 (a :: inner :: args)) with args.
    subst a. rewrite bool_decide_true in H by done.
    destruct (stripOnly inner); [done|]. destruct (check_named inner false args) eqn:Ei; [done|].
    rewrite (check_listed _ _ _ Ei), (check_plain_safe _ _ Ei). done.
  - rewrite (check_listed _ _ _ H), (check_plain_safe _ _ H). done.
Qed.

(** ** The pass over the directives *)

(** The directives the pass visits, with whether they are at top level. *)
Definition visited (ds : list directive) : list (bool * directive) :=
  concat ((fun d => (true, d) :: (pair false <$> dChildren d)) <$> ds).

Fixpoint visit_list (s : Scan) (vs : list (bool * directive)) : result ProfileError Scan :=
  match vs with
  | [] => Ok s
  | (top, d) :: vs' => let? s' := visit s top d in visit_list s' vs'
  end.

Lemma result_bind_assoc {E A B C} (m : result E A) (f : A -> result E B) (g : B -> result E C) :
  result_bind (result_bind m f) g = result_bind m (fun x => result_bind (f x) g).
Proof. by destruct m. Qed.

Lemma visit_list_app s u v :
  visit_list s (u ++ v) = result_bind (visit_list s u) (fun s' => visit_list s' v).
Proof.
  revert s. induction u as [|[t d] u IH]; intros s; [done|]. cbn.
  destruct (visit s t d); [|done]. cbn. apply IH.
Qed.

Lemma visit_all_list ds : forall s, visit_all s ds = visit_list s (visited ds).
Proof.
  induction ds as [|d ds IH]; intros s; [done|].
  unfold visited. cbn [fmap list_fmap concat]. change (concat _) with (visited ds) at 1.
  cbn [app visit_list visit_all]. destruct (visit s true d) as [s1|e]; [|done]. cbn [result_bind].
  rewrite visit_list_app.
  assert (Hc : forall cs s1, visit_children s1 cs = visit_list s1 (pair false <$> cs)).
  { induction cs as [|c cs IHc]; intros s2; [done|]. cbn. destruct (visit s2 false c); [|done]. apply IHc. }
  rewrite Hc. destruct (visit_list s1 _); [|done]. cbn [result_bind]. apply IH.
Qed.

(** An accepted directive that is neither stripped nor inline is noted. *)
Definition noted (v : bool * directive) : list (Z * (string * list string)) :=
  if stripOnly (dName (snd v)) || dInline (snd v) then []
  else [(dLine (snd v), effective (snd v))].

Lemma visit_ok s top d s' :
  visit s top d = Ok s' ->
  checkDirective d = None /\ (top = false -> stripOnly (dName d) = false) /\
  s' = if stripOnly (dName d)
       then s <| sc_profile ::= fun p => p <| p_stripLines ::= fun l => l ++ [dLine d] |> |>
       else foldl (fun s '(ln, (n, a)) => note_directive s ln n a) s (noted (top, d)).
Proof.
  unfold visit, noted. cbn [snd]. destruct (checkDirective d); [done|].
  destruct (stripOnly (dName d)).
  - destruct top; [|done]. intros [= <-]. by split_and!.
  - destruct (dInline d); [by intros [= <-]|]. destruct (effective d). intros [= <-]. by split_and!.
Qed.

(** A test that [note_directive] records in a flag. *)
Definition names (test : string -> list string -> bool) (vs : list (bool * directive)) : bool :=
  existsb (fun '(_, (n, a)) => test n a) (concat (noted <$> vs)).

Definition flag_of (f : Scan -> bool) (test : string -> list string -> bool) : Prop :=
  (forall s ln n a, f (note_directive s ln n a) = f s || test n a) /\
  (forall s g, f (s <| sc_profile ::= g |>) = f s).

Lemma visit_list_flag f test vs : flag_of f test -> forall s s',
  visit_list s vs = Ok s' -> f s' = f s || names test vs.
Proof.
  intros [Hn Hp]. induction vs as [|[top d] vs IH]; intros s s' H.
  { injection H as <-. by rewrite orb_false_r. }
  cbn in H. apply result_bind_ok in H as (s1 & H1 & H2). rewrite (IH _ _ H2).
  apply visit_ok in H1 as (_ & _ & ->). unfold names. cbn [fmap list_fmap concat].
  rewrite existsb_app.
  assert (En : noted (top, d) = if stripOnly (dName d) || dInline d then []
                                else [(dLine d, effective d)]) by done.
  rewrite En. destruct (stripOnly (dName d)); cbn [orb].
  - rewrite Hp. done.
  - destruct (dInline d); [done|]. destruct (effective d) as [n a]. cbn [foldl existsb].
    by rewrite Hn, orb_false_r, orb_assoc.
Qed.

Ltac note_cases :=
  unfold note_directive; intros;
  repeat match goal with
    | |- context [if ?b then _ else _] =>
        lazymatch b with
        | context [if _ then _ else _] => fail
        | _ => let E := fresh "E" in destruct b eqn:E
        end
    | |- context [match atoi ?x with _ => _ end] => destruct (atoi x)
    end.

Definition remote_name (n : string) (a : list string) : bool := n =s "remote".
Definition client_name (n : string) (a : list string) : bool := (n =s "client") || (n =s "tls-client").
Definition pull_name (n : string) (a : list string) : bool := (n =s "client") || (n =s "pull").
Definition bind_name (n : string) (a : list string) : bool :=
  (n =s "bind") || (n =s "local") && (length a <? 2)%nat.
Definition low_port_name (n : string) (a : list string) : bool :=
  (n =s "port") && (length a =? 1)%nat && negb (unprivilegedPort (arg a 0)).

Ltac solve_flag :=
  split; [|done]; intros s ln n a;
  destruct s as [p hr hc pl bd lp ci ec pr];
  unfold remote_name, client_name, pull_name, bind_name, low_port_name;
  note_cases; bool_hyps; subst; cbn; rewrite ?orb_true_r, ?orb_false_r; try done.

Lemma flag_remote : flag_of sc_hasRemote remote_name.
Proof. solve_flag. Qed.

Lemma flag_client : flag_of sc_hasClient client_name.
Proof. solve_flag. Qed.

Lemma flag_pull : flag_of sc_pull pull_name.
Proof. solve_flag. Qed.

Lemma flag_bind : flag_of sc_bind bind_name.
Proof. solve_flag. Qed.

Lemma flag_low : flag_of (fun s => negb (bool_decide (sc_lowPort s = []))) low_port_name.
Proof.
  solve_flag.
  - rewrite H, H0. rewrite (bool_decide_false (lp ++ [ln] = [])) by (destruct lp; discriminate).
    cbn. by rewrite orb_true_r.
  - match goal with E : _ && _ = false |- _ => rewrite E end. by rewrite orb_false_r.
Qed.

(** ** The profile *)

Lemma inspectProfile_inv data p :
  inspectProfile data = Ok p ->
  exists ds s, parseConfig data = Ok ds /\ visit_list zero_scan (visited ds) = Ok s
               /\ finish_profile ds s = Ok p.
Proof.
  unfold inspectProfile. destruct (_ <? _)%N; [done|]. intros H.
  apply result_bind_ok in H as (ds & Hds%map_err_ok & H).
  apply result_bind_ok in H as (s & Hs & H). rewrite visit_all_list in Hs. by exists ds, s.
Qed.

(** Blocks do not nest: the only children are those of a top-level connection block. *)
Lemma connection_loop_flat fuel : forall src ds,
  connection_loop fuel src = Ok ds -> forall d, d ∈ ds -> dChildren d = [].
Proof.
  induction fuel as [|fuel IH]; intros src ds H d Hd; [done|]. cbn [connection_loop] in H.
  destruct (bufParse _ _) as [[[line tr] src']|]; [|injection H as <-; by apply elem_of_nil in Hd].
  destruct tr; [done|]. apply result_bind_ok in H as (q & _ & H). destruct q as [|p0 args]; [by eapply IH|].
  destruct (inlineTag _) as [tag|].
  - apply result_bind_ok in H as ([body src2] & _ & H). case_bool_decide; [done|].
    apply result_bind_ok in H as (ds1 & H1 & [= <-]). apply elem_of_cons in Hd as [->|Hd]; [done|by eapply IH].
  - apply result_bind_ok in H as (ds1 & H1 & [= <-]). apply elem_of_cons in Hd as [->|Hd]; [done|by eapply IH].
Qed.

Lemma config_loop_flat fuel : forall first src ds,
  config_loop fuel first src = Ok ds -> forall d c, d ∈ ds -> c ∈ dChildren d -> dChildren c = [].
Proof.
  induction fuel as [|fuel IH]; intros first src ds H d c Hd Hc; [done|]. cbn [config_loop] in H.
  destruct (fgets _ _) as [[line src']|]; [|injection H as <-; by apply elem_of_nil in Hd].
  destruct (_ =? _)%nat; [done|]. apply result_bind_ok in H as (q & _ & H).
  destruct q as [|p0 args]; [by eapply IH|]. destruct (inlineTag _) as [tag|].
  - apply result_bind_ok in H as ([body src2] & _ & H). apply result_bind_ok in H as (cs & Hcs & H).
    apply result_bind_ok in H as (ds1 & H1 & [= <-]). apply elem_of_cons in Hd as [->|Hd]; [|by eapply IH].
    cbn in Hc. case_bool_decide; [|injection Hcs as <-; by apply elem_of_nil in Hc].
    by eapply connection_loop_flat.
  - apply result_bind_ok in H as (ds1 & H1 & [= <-]).
    apply elem_of_cons in Hd as [->|Hd]; [by apply elem_of_nil in Hc|by eapply IH].
Qed.

Lemma parseConfig_flat data ds :
  parseConfig data = Ok ds -> concat (walk_order <$> ds) = snd <$> visited ds.
Proof.
  unfold parseConfig. destruct (nul_line data); [done|]. intros H.
  pose proof (config_loop_flat _ _ _ _ H) as Hf. clear H. unfold visited.
  induction ds as [|d ds IH]; [done|]. cbn [fmap list_fmap concat]. rewrite fmap_app, IH.
  2: { intros d' c Hd Hc. eapply Hf; [by right|done]. }
  f_equal. destruct d as [n a l i b cs]. cbn. f_equal.
  assert (Hcs : forall c, c ∈ cs -> dChildren c = []) by (intros c Hc; eapply Hf; [by left|done]).
  clear Hf IH. induction cs as [|c cs IHc]; [done|]. cbn. rewrite IHc by (intros; apply Hcs; by right).
  pose proof (Hcs c ltac:(by left)) as Hc. destruct c. cbn in *. by subst.
Qed.

Lemma visit_list_checked vs : forall s s',
  visit_list s vs = Ok s' -> forall top d, (top, d) ∈ vs ->
  checkDirective d = None /\ (top = false -> stripOnly (dName d) = false).
Proof.
  induction vs as [|[t e] vs IH]; intros s s' H top d Hd; [by apply elem_of_nil in Hd|].
  cbn in H. apply result_bind_ok in H as (s1 & H1 & H2). apply visit_ok in H1 as (Hc & Ht & _).
  apply elem_of_cons in Hd as [[= -> ->]|Hd]; [done|by eapply IH].
Qed.

(** C11: an accepted profile holds, at any depth, only directives on the allowlist, and what
    OpenVPN would apply of each (the payload of "setenv opt" included) is on the list too and
    neither runs a program nor has a file path among its arguments. *)
Theorem inspectProfile_safe (data : string) (p : profile) :
  inspectProfile data = Ok p ->
  exists ds, parseConfig data = Ok ds /\ forallb safe_directive (concat (walk_order <$> ds)) = true.
Proof.
  intros (ds & s & Hds & Hs & _)%inspectProfile_inv. exists ds. split; [done|].
  rewrite (parseConfig_flat _ _ Hds). apply forallb_true_iff. intros d Hd.
  apply list_elem_of_fmap in Hd as ([top e] & -> & Hd).
  apply checkDirective_safe. by apply (visit_list_checked _ _ _ Hs top e).
Qed.

Definition text_of (ls : list string) : string :=
  String.concat "" ((fun s => s +:+ String newline "") <$> ls).

Definition sample_profile : string :=
  text_of ["client"; "dev tun"; "user nobody"; "remote vpn.example.com 443 tcp"; "<connection>";
           "remote [fd00::1] 1194"; "proto udp"; "persist-remote-ip"; "</connection>"; "<ca>"; "MII";
           "</ca>"; "--verb 9 # noisy"; "setenv opt route-nopull"].

Lemma inspectProfile_safe_witness :
  exists p, inspectProfile sample_profile = Ok p /\
  exists ds, parseConfig sample_profile = Ok ds
             /\ forallb safe_directive (concat (walk_order <$> ds)) = true.
Proof.
  destruct (inspectProfile sample_profile) as [p|e] eqn:E;
    [|exfalso; vm_compute in E; discriminate].
  exists p. split; [done|]. exact (inspectProfile_safe sample_profile p E).
Defined.

(** An accepted profile names a remote and is a client's; and when it asks for a local port
    below 1024 it pulls its options and forces no local bind, so root never binds that port. *)
Theorem inspectProfile_client (data : string) (p : profile) :
  inspectProfile data = Ok p ->
  exists ds, parseConfig data = Ok ds /\
    let vs := visited ds in
    names remote_name vs = true /\ names client_name vs = true /\
    (names low_port_name vs = true -> names pull_name vs = true /\ names bind_name vs = false).
Proof.
  intros (ds & s & Hds & Hs & Hf)%inspectProfile_inv. exists ds. split; [done|]. cbv zeta.
  pose proof (visit_list_flag _ _ _ flag_remote _ _ Hs) as H1.
  pose proof (visit_list_flag _ _ _ flag_client _ _ Hs) as H2.
  pose proof (visit_list_flag _ _ _ flag_pull _ _ Hs) as H3.
  pose proof (visit_list_flag _ _ _ flag_bind _ _ Hs) as H4.
  pose proof (visit_list_flag _ _ _ flag_low _ _ Hs) as H5.
  cbn in H1, H2, H3, H4, H5. unfold finish_profile in Hf. rewrite <- H1, <- H2, <- H3, <- H4, <- H5.
  clear H1 H2 H3 H4 H5 Hs Hds. destruct (sc_hasRemote s); [|done]. destruct (sc_hasClient s); [|done].
  split_and!; [done|done|]. cbn [negb] in Hf. apply result_bind_ok in Hf as (u & Hl & _).
  destruct (sc_lowPort s) as [|ln l]; [done|]. intros _.
  destruct (sc_bind s), (sc_pull s); try done.
Qed.

Lemma inspectProfile_client_witness :
  exists p ds, inspectProfile sample_profile = Ok p /\ parseConfig sample_profile = Ok ds
               /\ names remote_name (visited ds) = true.
Proof.
  destruct (inspectProfile sample_profile) as [p|e] eqn:E;
    [|exfalso; vm_compute in E; discriminate].
  destruct (inspectProfile_client sample_profile p E) as (ds & Hds & H & _).
  exists p, ds. split; [done|]. by split.
Defined.

(** ** Where the blanked text is not the checked text

    A line of the file longer than the reader's buffer closes a block in its first piece and
    names "user" in the second; the number of the line is blanked, the closing tag with it. *)
Definition pad (n : nat) (s : string) : string :=
  s +:+ string_of (replicate (n - String.length s) " "%char).

Definition smuggling_profile : string :=
  text_of ["client"; "dev tun"; "remote vpn.example.com"; "<ca>"; pad 255 "</ca>" +:+ "user nobody";
           "<cert>"; "</ca>"; "plugin /tmp/evil.so"; "<key>"; "</cert>"; "<key>"; "</key>"].

(** The validator accepts this profile, whose directives are all allow-listed, and the text
    it is turned into for the root process holds a "plugin" directive: blanking the line of
    "user" removes the closing tag of a block, and what was the body of another block becomes
    directives. *)
Theorem runtimeConfig_bypass :
  exists p ds, inspectProfile smuggling_profile = Ok p /\
    parseConfig (runtimeConfig p smuggling_profile) = Ok ds /\
    exists d, d ∈ ds /\ dName d = "plugin" /\ dArgs d = ["/tmp/evil.so"] /\ safe_directive d = false.
Proof.
  destruct (inspectProfile smuggling_profile) as [p|e] eqn:E;
    [|exfalso; vm_compute in E; discriminate].
  assert (H : match inspectProfile smuggling_profile with
              | Ok p => match parseConfig (runtimeConfig p smuggling_profile) with
                        | Ok ds => existsb (fun d => (dName d =s "plugin")
                                     && bool_decide (dArgs d = ["/tmp/evil.so"])
                                     && negb (safe_directive d)) ds
                        | Err _ => false end
              | Err _ => false end = true) by (vm_compute; reflexivity).
  rewrite E in H. exists p. destruct (parseConfig (runtimeConfig p smuggling_profile)) as [ds|e]; [|done].
  exists ds. split; [done|]. split; [done|]. apply existsb_true_iff in H as (d & Hd & H).
  bool_hyps. exists d. repeat split; assumption.
Qed.

(** A profile whose only remote is the payload of a "setenv opt". *)
Definition hidden_remote_profile : string :=
  text_of ["client"; "dev tun"; "setenv opt remote vpn.example.com 1194"].

(** "setenv opt remote" counts as a remote for the validator but is missing from [Remotes],
    the list the kill switch passes. *)
Theorem setenv_remote_not_listed :
  exists p, inspectProfile hidden_remote_profile = Ok p /\ ocRemotes (p_cfg p) = [].
Proof.
  destruct (inspectProfile hidden_remote_profile) as [p|e] eqn:E;
    [|exfalso; vm_compute in E; discriminate].
  exists p. split; [done|].
  assert (H : match inspectProfile hidden_remote_profile with
              | Ok p => bool_decide (ocRemotes (p_cfg p) = []) | Err _ => false end = true)
    by (vm_compute; reflexivity).
  rewrite E in H. by apply bool_decide_eq_true in H.
Qed.
