(* ===== verification/OvpnRuntime.v ===== *)
(** * The text the root process is given

    For a profile whose lines fit the reader's buffer, blanking the lines of the stripped
    directives has exactly the intended effect: OpenVPN reads the checked directives without
    those ([runtimeConfig_strips]).  [runtimeConfig_bypass] shows that the bound on the lines is
    needed. *)

From S2P Require Import Prelude GoStrings GoNet OvpnParse OvpnParseFacts OvpnAllowlist OvpnProfile OvpnProfileFacts.

(** ** Texts as lists of lines *)

Definition nl1 : string := String newline "".
Definition text (ls : list string) : string := join nl1 ls.

(** A line without a newline that fits one read of the source, newline included. *)
Definition short (l : string) : bool :=
  negb (contains_byte newline l) && (String.length l <=? 254)%nat.

Definition short_lines (data : string) : bool := forallb short (split_byte newline data).

Fixpoint blank_lines (drop : list Z) (ln : Z) (ls : list string) : list string :=
  match ls with
  | [] => []
  | l :: ls' => (if bool_decide (ln ∈ drop) then "" else l) :: blank_lines drop (ln + 1) ls'
  end.

(** What the stripped configuration should read as: the directives of the other lines; the body
    of a connection block is not compared, its directives are. *)
Definition erase (d : directive) : directive :=
  MkDirective (dName d) (dArgs d) (dLine d) (dInline d)
    (if dName d =s "connection" then "" else dBody d) (dChildren d).

Definition kept (drop : list Z) (d : directive) : bool := negb (bool_decide (dLine d ∈ drop)).

Definition strip (drop : list Z) (ds : list directive) : list directive :=
  (fun d => MkDirective (dName d) (dArgs d) (dLine d) (dInline d)
              (if dName d =s "connection" then "" else dBody d)
              (List.filter (kept drop) (dChildren d)))
    <$> List.filter (kept drop) ds.

(** ** Reading a text of short lines *)

Lemma text_cons x y l : text (x :: y :: l) = x +:+ nl1 +:+ text (y :: l).
Proof. apply join_cons. Qed.

Lemma short_spec l : short l = true <-> contains_byte newline l = false /\ (String.length l <= 254)%nat.
Proof. unfold short. rewrite andb_true_iff, negb_true_iff, Nat.leb_le. done. Qed.

Lemma take_line_full n x r :
  contains_byte newline x = false -> (String.length x < n)%nat ->
  take_line n (x +:+ nl1 +:+ r) = (x +:+ nl1, r).
Proof.
  revert n. induction x as [|c x IH]; intros n Hx Hn; destruct n as [|n]; cbn in Hn; try lia; [done|].
  cbn in Hx. apply orb_false_elim in Hx as [Hc Hx]. rewrite !string_app_cons. cbn [take_line].
  rewrite Hc, IH by (auto; lia). done.
Qed.

Lemma take_line_last n x :
  contains_byte newline x = false -> (String.length x <= n)%nat -> take_line n x = (x, "").
Proof.
  revert n. induction x as [|c x IH]; intros n Hx Hn; destruct n as [|n]; cbn in Hn; try lia; [done..|].
  cbn in Hx. apply orb_false_elim in Hx as [Hc Hx]. cbn [take_line]. by rewrite Hc, IH by (auto; lia).
Qed.

Lemma count_newlines_app s t : count_newlines (s +:+ t) = (count_newlines s + count_newlines t)%Z.
Proof. induction s as [|c s IH]; [done|]. rewrite string_app_cons. cbn. lia. Qed.

Lemma count_newlines_none x : contains_byte newline x = false -> count_newlines x = 0%Z.
Proof.
  induction x as [|c x IH]; cbn; [done|]. intros [Hc Hx]%orb_false_elim. rewrite Hc, IH by done. done.
Qed.

Lemma fgets_more size x y l ln :
  (256 <= size)%nat -> short x = true ->
  fgets (MkSource (text (x :: y :: l)) ln false) size
  = Some (x +:+ nl1, MkSource (text (y :: l)) (ln + 1) false).
Proof.
  intros Hs [Hx Hl]%short_spec. unfold fgets. cbn [src_rest]. rewrite text_cons.
  rewrite bool_decide_false by (destruct x; discriminate).
  rewrite take_line_full by (auto; lia). unfold advance. cbn [src_line src_buf].
  by rewrite count_newlines_app, (count_newlines_none x), Z.add_0_l.
Qed.

Lemma fgets_last size x ln :
  (256 <= size)%nat -> short x = true ->
  fgets (MkSource (text [x]) ln false) size
  = if x =s "" then None else Some (x, MkSource "" ln false).
Proof.
  intros Hs [Hx Hl]%short_spec. unfold fgets. cbn [src_rest]. change (text [x]) with x.
  case_bool_decide; [done|]. rewrite take_line_last by (auto; lia). unfold advance. cbn [src_line src_buf].
  by rewrite (count_newlines_none x), Z.add_0_r.
Qed.

Lemma buf_scan_full n x r :
  contains_byte newline x = false -> (String.length x <= n)%nat ->
  buf_scan n (x +:+ nl1 +:+ r) = (x, r, AtDelimiter).
Proof.
  revert n. induction x as [|c x IH]; intros n Hx Hn; [by destruct n|].
  cbn in Hx. apply orb_false_elim in Hx as [Hc Hx]. destruct n as [|n]; cbn in Hn; [lia|].
  rewrite !string_app_cons. cbn [buf_scan]. rewrite Hc, IH by (auto; lia). done.
Qed.

Lemma bufParse_more x y l ln :
  short x = true ->
  bufParse (MkSource (text (x :: y :: l)) ln true) optionLineSize
  = Some (x, false, MkSource (text (y :: l)) (ln + 1) true).
Proof.
  intros [Hx Hl]%short_spec. unfold bufParse. cbn [src_rest]. rewrite text_cons.
  rewrite buf_scan_full by (auto; unfold optionLineSize; lia). done.
Qed.

Lemma source_get_more b x y l ln :
  short x = true ->
  source_get (MkSource (text (x :: y :: l)) ln b)
  = Some (x +:+ nl1, false, MkSource (text (y :: l)) (ln + 1) b).
Proof.
  intros Hx. unfold source_get. cbn [src_buf]. destruct b; cbn [negb].
  - rewrite bufParse_more by done. apply short_spec in Hx as [_ Hl].
    destruct (Nat.ltb_spec (String.length x + 1) optionLineSize); [done|unfold optionLineSize in *; lia].
  - rewrite fgets_more by (auto; unfold optionLineSize; lia). done.
Qed.

(** ** Blocks *)

Definition closes (tag line : string) : bool := has_prefix ("</" +:+ tag +:+ ">") (trim_left_c line).

Lemma closes_blank tag : closes tag "" = false /\ closes tag nl1 = false.
Proof. split; destruct tag; done. Qed.

Definition full (ls : list string) : string := String.concat "" ((fun l => l +:+ nl1) <$> ls).

Lemma full_cons l ls : full (l :: ls) = l +:+ nl1 +:+ full ls.
Proof.
  unfold full. destruct ls as [|m ls]; cbn -[nl1].
  - by rewrite string_app_nil_r.
  - by rewrite string_app_assoc.
Qed.

Lemma text_full ls : text (ls ++ [""]) = full ls.
Proof.
  induction ls as [|l ls IH]; [done|]. rewrite full_cons, <- IH.
  destruct ls as [|m ls]; [done|]. apply text_cons.
Qed.

(** Where the source stands after a line that has [rest] behind it. *)
Definition after (b : bool) (ln : Z) (rest : list string) : lineSource :=
  match rest with [] => MkSource "" ln b | _ => MkSource (text rest) (ln + 1) b end.

(** A line and what may stand in its place. *)
Definition blanked (l l' : string) : Prop := l' = l \/ l' = "".

Lemma blanked_short l l' : blanked l l' -> short l = true -> short l' = true.
Proof. by intros [-> | ->]. Qed.

Lemma blanked_open tag l l' : blanked l l' -> closes tag (l +:+ nl1) = false -> closes tag (l' +:+ nl1) = false.
Proof. intros [-> | ->]; [done|]. intros _. apply closes_blank. Qed.

(** The closing line, with and without lines behind it. *)
Definition is_close (tag close : string) (rest : list string) : Prop :=
  match rest with
  | [] => close <> "" /\ closes tag close = true
  | _ => closes tag (close +:+ nl1) = true
  end.

Lemma readInline_close b tag close rest fuel lno ln acc :
  (b = true -> rest <> []) -> short close = true -> is_close tag close rest ->
  readInline (S fuel) lno tag (MkSource (text (close :: rest)) ln b) acc
  = Ok (acc, after b ln rest).
Proof.
  intros Hb Hs Hc. cbn [readInline]. destruct rest as [|r rest].
  - destruct b; [by specialize (Hb eq_refl)|]. destruct Hc as [Hne Hc]. unfold source_get. cbn [src_buf negb].
    rewrite fgets_last by (auto; unfold optionLineSize; lia). rewrite bool_decide_false by done.
    cbv iota beta. fold (closes tag close). by rewrite Hc.
  - rewrite source_get_more by done. cbv iota beta. fold (closes tag (close +:+ nl1)). cbn in Hc.
    by rewrite Hc.
Qed.

Lemma readInline_skip b tag l ls fuel lno ln acc :
  ls <> [] -> short l = true -> closes tag (l +:+ nl1) = false ->
  readInline (S fuel) lno tag (MkSource (text (l :: ls)) ln b) acc
  = readInline fuel lno tag (MkSource (text ls) (ln + 1) b) (acc +:+ l +:+ nl1).
Proof.
  intros Hl Hs Hc. destruct ls as [|m ls]; [done|]. cbn [readInline].
  rewrite source_get_more by done. cbv iota beta. fold (closes tag (l +:+ nl1)). by rewrite Hc.
Qed.

(** Reading a block replays on a text in which lines of the body are blanked. *)
Lemma readInline_replay b tag lno close rest fuel bl bl' : forall ln acc,
  (b = true -> rest <> []) -> is_close tag close rest -> short close = true ->
  Forall2 blanked bl bl' -> forallb short bl = true ->
  Forall (fun l => closes tag (l +:+ nl1) = false) bl -> (length bl < fuel)%nat ->
  readInline fuel lno tag (MkSource (text (bl' ++ close :: rest)) ln b) acc
  = Ok (acc +:+ full bl', after b (ln + Z.of_nat (length bl)) rest).
Proof.
  revert fuel bl'. induction bl as [|l bl IH]; intros fuel bl' ln acc Hb Hc Hs Hbl Hsh Ho Hf.
  - apply Forall2_nil_inv_l in Hbl as ->. destruct fuel as [|fuel]; [cbn in Hf; lia|].
    cbn [app]. rewrite readInline_close by done. cbn [full fmap list_fmap String.concat length].
    by rewrite string_app_nil_r, Z.add_0_r.
  - apply Forall2_cons_inv_l in Hbl as (l' & bl2 & Hl & Hbl & ->).
    apply Forall_cons in Ho as [Hol Ho]. cbn [forallb] in Hsh. apply andb_prop in Hsh as [Hsl Hsh].
    destruct fuel as [|fuel]; [cbn in Hf; lia|]. cbn [app].
    rewrite readInline_skip; [|by destruct bl2|by eapply blanked_short|by eapply blanked_open].
    rewrite IH by (auto; cbn in Hf; lia). rewrite full_cons, !string_app_assoc. do 3 f_equal.
    cbn [length]. lia.
Qed.

(** What a successful read has seen. *)
Lemma readInline_lines b tag lno fuel : forall L ln acc body src2,
  forallb short L = true -> (b = true -> last L = Some "") ->
  readInline fuel lno tag (MkSource (text L) ln b) acc = Ok (body, src2) ->
  exists bl close rest, L = bl ++ close :: rest /\ body = acc +:+ full bl
    /\ src2 = after b (ln + Z.of_nat (length bl)) rest /\ is_close tag close rest
    /\ (b = true -> rest <> []) /\ Forall (fun l => closes tag (l +:+ nl1) = false) bl.
Proof.
  induction fuel as [|fuel IH]; intros L ln acc body src2 Hsh Hb H; [done|].
  destruct L as [|x [|y L]].
  { exfalso. destruct b; [by specialize (Hb eq_refl)|]. done. }
  { cbn [forallb] in Hsh. apply andb_prop in Hsh as [Hx _]. cbn [readInline] in H. destruct b.
    { specialize (Hb eq_refl). cbn in Hb. injection Hb as ->. done. }
    unfold source_get in H. cbn [src_buf negb] in H.
    rewrite fgets_last in H by (auto; unfold optionLineSize; lia).
    case_bool_decide as Hne; [done|]. cbv iota beta in H. fold (closes tag x) in H.
    destruct (closes tag x) eqn:Ec.
    - injection H as <- <-. exists [], x, []. split_and!; try done; [by rewrite string_app_nil_r|].
      unfold after. by rewrite Z.add_0_r.
    - exfalso. by destruct fuel. }
  cbn [forallb] in Hsh. apply andb_prop in Hsh as [Hx Hsh].
  destruct (closes tag (x +:+ nl1)) eqn:Ec.
  - rewrite (readInline_close b tag x (y :: L)) in H by done. injection H as <- <-.
    exists [], x, (y :: L). split_and!; try done; [by rewrite string_app_nil_r|]. by rewrite Z.add_0_r.
  - rewrite readInline_skip in H by done. apply IH in H; [|exact Hsh|done].
    destruct H as (bl & close & rest & HL & -> & -> & Hc & Hr & Ho).
    exists (x :: bl), close, rest. split_and!; [by rewrite HL| | |done|done|by constructor].
    + by rewrite full_cons, !string_app_assoc.
    + cbn [length]. f_equal. lia.
Qed.

(** ** Blanked lines *)

Lemma blank_lines_length drop ls : forall ln, length (blank_lines drop ln ls) = length ls.
Proof. induction ls as [|l ls IH]; intros ln; cbn; [done|]. by rewrite IH. Qed.

Lemma blank_lines_app drop u v : forall ln,
  blank_lines drop ln (u ++ v) = blank_lines drop ln u ++ blank_lines drop (ln + Z.of_nat (length u)) v.
Proof.
  induction u as [|l u IH]; intros ln; cbn; [by rewrite Z.add_0_r|]. rewrite IH. do 3 f_equal. lia.
Qed.

Lemma blank_lines_id drop ls : forall ln,
  (forall x, x ∈ drop -> ~ (ln <= x < ln + Z.of_nat (length ls))%Z) -> blank_lines drop ln ls = ls.
Proof.
  induction ls as [|l ls IH]; intros ln H; cbn; [done|]. rewrite bool_decide_false.
  - rewrite IH; [done|]. intros x Hx Hr. apply (H x Hx). cbn. lia.
  - intros Hx. apply (H ln Hx). cbn. lia.
Qed.

Lemma blank_lines_blanked drop ls : forall ln, Forall2 blanked ls (blank_lines drop ln ls).
Proof.
  induction ls as [|l ls IH]; intros ln; cbn; constructor; [|done].
  destruct (bool_decide _); [by right|by left].
Qed.

Lemma blank_lines_short drop ls : forall ln,
  forallb short ls = true -> forallb short (blank_lines drop ln ls) = true.
Proof.
  induction ls as [|l ls IH]; intros ln H; cbn in *; [done|]. apply andb_prop in H as [Hl H].
  rewrite IH by done. by destruct (bool_decide _); rewrite ?Hl.
Qed.

Lemma forallb_app_inv {A} (f : A -> bool) u v :
  forallb f (u ++ v) = true -> forallb f u = true /\ forallb f v = true.
Proof. rewrite forallb_app. apply andb_prop. Qed.

(** The line numbers of [n] lines from [ln]. *)
Definition in_range (ln : Z) (n : nat) (x : Z) : Prop := (ln <= x < ln + Z.of_nat n)%Z.

(** Every dropped line of a region is a plain directive of it. *)
Definition drops_plain (drop : list Z) (ln : Z) (n : nat) (ds : list directive) : Prop :=
  forall x, x ∈ drop -> in_range ln n x -> exists d, d ∈ ds /\ dLine d = x /\ dInline d = false.

Lemma connection_step fuel x y L ln :
  short x = true ->
  connection_loop (S fuel) (MkSource (text (x :: y :: L)) ln true)
  = let? p := at_line ln (parseLine x) in
    match p with
    | [] => connection_loop fuel (MkSource (text (y :: L)) (ln + 1) true)
    | p0 :: args =>
        match inlineTag (bypassDoubleDash p0 :: args) with
        | Some tag =>
            let? (body, src2) := readInline fuel ln tag (MkSource (text (y :: L)) (ln + 1) true) "" in
            if tag =s "connection" then Err (NestedConnection ln)
            else let? ds := connection_loop fuel src2 in Ok (MkDirective tag [] ln true body [] :: ds)
        | None =>
            let? ds := connection_loop fuel (MkSource (text (y :: L)) (ln + 1) true) in
            Ok (MkDirective (bypassDoubleDash p0) args ln false "" [] :: ds)
        end
    end.
Proof. intros Hx. cbn [connection_loop]. by rewrite bufParse_more. Qed.

Lemma snoc_cons {A} (bl : list A) a : exists y L, bl ++ [a] = y :: L.
Proof. destruct bl; cbn; eauto. Qed.

Lemma app_snoc_inv {A} (bl0 : list A) bl close rest a :
  bl0 ++ [a] = bl ++ close :: rest -> rest <> [] ->
  exists r2, rest = r2 ++ [a] /\ bl0 = bl ++ close :: r2.
Proof.
  intros H Hr. destruct (exists_last Hr) as (r2 & b & ->).
  change (close :: r2 ++ [b]) with ((close :: r2) ++ [b]) in H. rewrite app_assoc in H.
  apply app_inj_tail in H as [-> ->]. by exists r2.
Qed.

Lemma drops_plain_tail drop ln n m ds d0 k :
  drops_plain drop ln n (d0 :: ds) -> (dInline d0 = true \/ dLine d0 < k)%Z ->
  (ln <= k)%Z -> (k + Z.of_nat m <= ln + Z.of_nat n)%Z -> drops_plain drop k m ds.
Proof.
  intros H Hd Hk Hm x Hx Hr. unfold in_range in *. destruct (H x Hx) as (d & Hd' & Hl & Hi); [unfold in_range; lia|].
  apply elem_of_cons in Hd' as [->|Hd']; [|by exists d]. destruct Hd; [congruence|lia].
Qed.

Lemma not_dropped_inline drop ln n ds d0 m :
  drops_plain drop ln n (d0 :: ds) -> dInline d0 = true ->
  (forall d, d ∈ ds -> (ln + Z.of_nat m <= dLine d)%Z) -> (m <= n)%nat ->
  forall x, x ∈ drop -> ~ in_range ln m x.
Proof.
  intros H Hi Hds Hm x Hx Hr. unfold in_range in *. destruct (H x Hx) as (d & Hd & Hl & Hf); [unfold in_range; lia|].
  apply elem_of_cons in Hd as [->|Hd]; [congruence|]. specialize (Hds d Hd). lia.
Qed.

Lemma parseLine_blank : parseLine "" = Ok [] /\ parseLine nl1 = Ok [].
Proof. done. Qed.

(** What is read of [bl] lies in it, and is read again with plain directives blanked. *)
Definition replays_from (bl : list string) (ln : Z) (ds : list directive) : Prop :=
  (forall d, d ∈ ds -> in_range ln (length bl) (dLine d)) /\
  (forall drop fuel', drops_plain drop ln (length bl) ds -> (length bl < fuel')%nat ->
     connection_loop fuel' (MkSource (text (blank_lines drop ln bl ++ [""])) ln true)
     = Ok (List.filter (kept drop) ds)).

Lemma kept_line drop d : kept drop d = negb (bool_decide (dLine d ∈ drop)).
Proof. done. Qed.

(** The replayed step, in a text that starts with [x] or with a blank. *)
Lemma replay_head x bl ln drop fuel' : exists y' L',
  blank_lines drop (ln + 1) bl ++ [""] = y' :: L' /\
  connection_loop (S fuel') (MkSource (text (blank_lines drop ln (x :: bl) ++ [""])) ln true)
  = connection_loop (S fuel') (MkSource (text ((if bool_decide (ln ∈ drop) then "" else x) :: y' :: L')) ln true).
Proof.
  destruct (snoc_cons (blank_lines drop (ln + 1) bl) "") as (y' & L' & HL'). exists y', L'. split; [done|].
  cbn [blank_lines app]. by rewrite HL'.
Qed.

Lemma replay_empty x bl ln ds : short x = true -> parseLine x = Ok [] ->
  replays_from bl (ln + 1) ds -> replays_from (x :: bl) ln ds.
Proof.
  intros Hx Hp [Hr Hrep]. split; cbn [length].
  { intros d Hd%Hr. unfold in_range in *. lia. }
  intros drop fuel' Hdp Hf. destruct fuel' as [|fuel']; [lia|].
  destruct (replay_head x bl ln drop fuel') as (y' & L' & HL' & ->).
  assert (Hpl : parseLine (if bool_decide (ln ∈ drop) then "" else x) = Ok []) by (destruct (bool_decide _); done).
  rewrite connection_step by (destruct (bool_decide _); done). rewrite Hpl. cbn [at_line map_err result_bind].
  rewrite <- HL'. apply Hrep; [|lia]. intros z Hz Hzr. apply Hdp; [done|]. unfold in_range in *. lia.
Qed.

Lemma replay_plain x bl ln p0 args ds : short x = true -> parseLine x = Ok (p0 :: args) ->
  inlineTag (bypassDoubleDash p0 :: args) = None ->
  replays_from bl (ln + 1) ds -> replays_from (x :: bl) ln (MkDirective (bypassDoubleDash p0) args ln false "" [] :: ds).
Proof.
  intros Hx Hp Et [Hr Hrep]. split; cbn [length].
  { intros d [->|Hd%Hr]%elem_of_cons; unfold in_range in *; cbn; lia. }
  intros drop fuel' Hdp Hf. destruct fuel' as [|fuel']; [lia|].
  assert (Hdp1 : drops_plain drop (ln + 1) (length bl) ds).
  { eapply drops_plain_tail; [exact Hdp|right; cbn; lia|lia|lia]. }
  destruct (replay_head x bl ln drop fuel') as (y' & L' & HL' & ->). cbn [List.filter]. unfold kept at 1. cbn [dLine].
  destruct (bool_decide (ln ∈ drop)); (rewrite connection_step by done).
  - rewrite (proj1 parseLine_blank). cbn [at_line map_err result_bind negb]. rewrite <- HL'. apply Hrep; [done|lia].
  - rewrite Hp. cbn [at_line map_err result_bind negb]. rewrite Et, <- HL', Hrep by (done || lia). done.
Qed.

Lemma replay_inline x ln p0 args tag b1 close b2 ds : short x = true -> forallb short b1 = true -> short close = true ->
  parseLine x = Ok (p0 :: args) -> inlineTag (bypassDoubleDash p0 :: args) = Some tag -> tag <> "connection" ->
  is_close tag close (b2 ++ [""]) -> Forall (fun l => closes tag (l +:+ nl1) = false) b1 ->
  replays_from b2 (ln + 1 + Z.of_nat (length b1) + 1) ds ->
  replays_from (x :: b1 ++ close :: b2) ln (MkDirective tag [] ln true (full b1) [] :: ds).
Proof.
  intros Hx Hs1 Hsc Hp Et Htag Hc Ho [Hr Hrep]. unfold replays_from. cbn [length]. rewrite length_app. cbn [length]. split.
  { intros d [->|Hd%Hr]%elem_of_cons; unfold in_range in *; cbn; lia. }
  intros drop fuel' Hdp Hf. destruct fuel' as [|fuel']; [lia|].
  assert (Hno : forall z, z ∈ drop -> ~ in_range ln (S (S (length b1))) z).
  { eapply not_dropped_inline; [exact Hdp|done| |lia]. intros d Hd%Hr. unfold in_range in *. lia. }
  assert (Hln : bool_decide (ln ∈ drop) = false).
  { apply bool_decide_eq_false. intros Hz. apply (Hno ln Hz). unfold in_range. lia. }
  destruct (replay_head x (b1 ++ close :: b2) ln drop fuel') as (y' & L' & HL' & ->). rewrite Hln.
  rewrite connection_step by done. rewrite Hp. cbn [at_line map_err result_bind]. rewrite Et, <- HL', blank_lines_app.
  rewrite (blank_lines_id drop b1) by (intros z Hz Hzr; apply (Hno z Hz); unfold in_range; lia).
  cbn [blank_lines]. rewrite bool_decide_false by (intros Hz; apply (Hno _ Hz); unfold in_range; lia).
  rewrite <- app_assoc. cbn [app]. set (b2' := blank_lines drop _ b2) in *.
  destruct (snoc_cons b2' "") as (y3 & L3 & HL3), (snoc_cons b2 "") as (y2 & L2 & HL2).
  rewrite (readInline_replay true tag ln close _ fuel' b1 b1); [|intros _; by rewrite HL3| |done| |done|done|lia].
  - cbn [result_bind]. rewrite bool_decide_false by done. unfold after. rewrite HL3, <- HL3. unfold b2'.
    rewrite Hrep; [|intros z Hz Hzr|lia].
    + cbn [result_bind List.filter]. unfold kept at 2. cbn [dLine]. by rewrite Hln.
    + destruct (Hdp z Hz) as (d & Hd & Hdl & Hdi); [unfold in_range in *; lia|].
      apply elem_of_cons in Hd as [->|Hd]; [done|by exists d].
  - rewrite HL3. unfold is_close in *. by rewrite HL2 in Hc.
  - apply Forall_Forall2_diag. apply Forall_forall. intros l _. by left.
Qed.

Lemma connection_replay fuel : forall bl ln ds, forallb short bl = true ->
  connection_loop fuel (MkSource (text (bl ++ [""])) ln true) = Ok ds -> replays_from bl ln ds.
Proof.
  induction fuel as [|fuel IH]; intros bl ln ds Hsh H; [done|]. destruct bl as [|x bl].
  { injection H as <-. split; [intros d Hd; by apply elem_of_nil in Hd|].
    intros drop fuel' _ Hf. destruct fuel'; [cbn in Hf; lia|done]. }
  cbn [forallb] in Hsh. apply andb_prop in Hsh as [Hx Hsh].
  destruct (snoc_cons bl "") as (y & L & HL). cbn [app] in H. rewrite HL in H.
  rewrite connection_step in H by done. apply result_bind_ok in H as (p & Hp & H). apply map_err_ok in Hp. rewrite <- HL in H.
  destruct p as [|p0 args]; [by apply replay_empty; [..|apply (IH _ _ _ Hsh)]|]. destruct (inlineTag _) as [tag|] eqn:Et.
  - apply result_bind_ok in H as ([body src2] & Hin & H).
    apply readInline_lines in Hin; [|by rewrite forallb_app, Hsh|by rewrite last_snoc].
    destruct Hin as (b1 & close & rest & HLb & -> & -> & Hc & Hr & Ho). specialize (Hr eq_refl).
    apply app_snoc_inv in HLb as (b2 & -> & ->); [|done]. case_bool_decide as Htag; [done|].
    apply result_bind_ok in H as (ds1 & H & [= <-]). apply forallb_app_inv in Hsh as [Hs1 Hs2].
    cbn [forallb] in Hs2. apply andb_prop in Hs2 as [Hsc Hs2].
    destruct (snoc_cons b2 "") as (y2 & L2 & HL2). unfold after in H. rewrite HL2 in H. rewrite <- HL2 in H.
    rewrite string_app_nil. eapply replay_inline; eauto.
  - apply result_bind_ok in H as (ds1 & H & [= <-]). eapply replay_plain; eauto.
Qed.

(** ** Whole files *)

Definition line_at (x : string) (rest : list string) : string :=
  match rest with [] => x | _ => x +:+ nl1 end.

Definition lnx (ln : Z) (rest : list string) : Z := match rest with [] => ln | _ => ln + 1 end.

Definition bomless (first : bool) (line : string) : string :=
  if first then trim_prefix utf8_bom line else line.

Lemma after_text b ln rest : after b ln rest = MkSource (text rest) (lnx ln rest) b.
Proof. by destruct rest. Qed.

Lemma in_range_lnx ln rest x : in_range (lnx ln rest) (length rest) x <-> in_range (ln + 1) (length rest) x.
Proof. unfold in_range. destruct rest; cbn; lia. Qed.

Lemma line_at_length x rest : short x = true -> (String.length (line_at x rest) =? optionLineSize)%nat = false.
Proof.
  intros [_ Hl]%short_spec. apply Nat.eqb_neq. unfold optionLineSize.
  destruct rest; cbn [line_at]; rewrite ?string_length_app; cbn; lia.
Qed.

Lemma config_step fuel first x rest ln :
  short x = true -> (x <> "" \/ rest <> []) ->
  config_loop (S fuel) first (MkSource (text (x :: rest)) ln false)
  = let? p := at_line ln (parseLine (bomless first (line_at x rest))) in
    match p with
    | [] => config_loop fuel false (after false ln rest)
    | p0 :: args =>
        match inlineTag (bypassDoubleDash p0 :: args) with
        | Some tag =>
            let? (body, src2) := readInline fuel ln tag (after false ln rest) "" in
            let? children := if tag =s "connection" then parseConnection body (lnx ln rest) else Ok [] in
            let? ds := config_loop fuel false src2 in
            Ok (MkDirective tag [] ln true body children :: ds)
        | None =>
            let? ds := config_loop fuel false (after false ln rest) in
            Ok (MkDirective (bypassDoubleDash p0) args ln false "" [] :: ds)
        end
    end.
Proof.
  intros Hx Hne. cbn [config_loop].
  assert (Hf : fgets (MkSource (text (x :: rest)) ln false) (optionLineSize + 1)
               = Some (line_at x rest, after false ln rest)).
  { destruct rest as [|y rest].
    - rewrite fgets_last by (auto; unfold optionLineSize; lia).
      rewrite bool_decide_false by (destruct Hne; done). done.
    - by rewrite fgets_more by (auto; unfold optionLineSize; lia). }
  rewrite Hf, line_at_length, after_text by done. done.
Qed.

Lemma config_empty fuel first ln : config_loop (S fuel) first (MkSource (text []) ln false) = Ok [].
Proof. done. Qed.

Lemma config_empty_line fuel first ln : config_loop (S fuel) first (MkSource (text [""]) ln false) = Ok [].
Proof. done. Qed.

Lemma bomless_blank first rest : parseLine (bomless first (line_at "" rest)) = Ok [].
Proof. by destruct first, rest. Qed.

Definition all_of (ds : list directive) : list directive := snd <$> visited ds.

Lemma all_of_cons d ds : all_of (d :: ds) = d :: dChildren d ++ all_of ds.
Proof.
  unfold all_of, visited. cbn. f_equal. rewrite fmap_app. f_equal.
  rewrite <- list_fmap_compose. induction (dChildren d) as [|c cs IH]; [done|]. cbn. by rewrite IH.
Qed.

Definition conf_replay (first : bool) (L : list string) (ln : Z) (ds : list directive) : Prop :=
  (forall d, d ∈ all_of ds -> in_range ln (length L) (dLine d)) /\
  (forall drop fuel', drops_plain drop ln (length L) (all_of ds) -> (length L < fuel')%nat ->
     exists ds', config_loop fuel' first (MkSource (text (blank_lines drop ln L)) ln false) = Ok ds'
                 /\ erase <$> ds' = strip drop ds).

(** The blanked text after the first line. *)
Lemma blank_rest drop ln rest :
  MkSource (text (blank_lines drop (ln + 1) rest)) (lnx ln rest) false
  = after false ln (blank_lines drop (ln + 1) rest).
Proof. by destruct rest. Qed.

Lemma line_at_blank drop x k rest : line_at x (blank_lines drop k rest) = line_at x rest.
Proof. by destruct rest. Qed.

(** A blanked or empty line in front. *)
Lemma config_skip fuel first x rest ln :
  short x = true -> parseLine (bomless first (line_at x rest)) = Ok [] -> (length rest < fuel)%nat ->
  config_loop (S fuel) first (MkSource (text (x :: rest)) ln false)
  = config_loop fuel false (after false ln rest).
Proof.
  intros Hx Hp Hf. destruct rest as [|y rest].
  - destruct (decide (x = "")) as [->|Hne]; [by destruct fuel; [cbn in Hf; lia|]|].
    rewrite config_step by auto. by rewrite Hp.
  - rewrite config_step by auto. by rewrite Hp.
Qed.

Lemma drops_plain_weaken drop ln n ln' n' ds ds' :
  drops_plain drop ln n ds ->
  (forall x, in_range ln' n' x -> in_range ln n x) ->
  (forall d, d ∈ ds -> dInline d = false -> in_range ln' n' (dLine d) -> d ∈ ds') ->
  drops_plain drop ln' n' ds'.
Proof.
  intros H Hr Hd x Hx Hxr. destruct (H x Hx (Hr x Hxr)) as (d & Hin & Hl & Hi).
  exists d. split_and!; [apply Hd; [done|done|by rewrite Hl]|done|done].
Qed.

Lemma conf_replay_skip first x rest ln ds :
  short x = true -> parseLine (bomless first (line_at x rest)) = Ok [] ->
  conf_replay false rest (lnx ln rest) ds -> conf_replay first (x :: rest) ln ds.
Proof.
  intros Hx Hp [Hr Hrep]. split.
  { intros d Hd%Hr%in_range_lnx. unfold in_range in *. cbn [length]. lia. }
  intros drop fuel' Hdp Hf. destruct fuel' as [|fuel']; [lia|]. cbn [blank_lines length] in *.
  rewrite config_skip; cycle 1.
  { by destruct (bool_decide _). }
  { rewrite line_at_blank. destruct (bool_decide _); [apply bomless_blank|done]. }
  { rewrite blank_lines_length. lia. }
  rewrite <- blank_rest.
  destruct (Hrep drop fuel') as (ds' & H1 & H2); [|lia|].
  - eapply drops_plain_weaken; [exact Hdp|intros z Hz%in_range_lnx; unfold in_range in *; lia|done].
  - exists ds'. split; [|done]. rewrite <- H1. destruct rest; [|done]. done.
Qed.

Lemma strip_cons drop d ds :
  strip drop (d :: ds) =
  if bool_decide (dLine d ∈ drop) then strip drop ds
  else MkDirective (dName d) (dArgs d) (dLine d) (dInline d)
         (if dName d =s "connection" then "" else dBody d)
         (List.filter (kept drop) (dChildren d)) :: strip drop ds.
Proof. unfold strip. cbn [List.filter]. unfold kept at 2. by destruct (bool_decide _). Qed.

Lemma conf_replay_plain first x rest ln p0 args ds :
  short x = true -> (x <> "" \/ rest <> []) ->
  parseLine (bomless first (line_at x rest)) = Ok (p0 :: args) ->
  inlineTag (bypassDoubleDash p0 :: args) = None ->
  conf_replay false rest (lnx ln rest) ds ->
  conf_replay first (x :: rest) ln (MkDirective (bypassDoubleDash p0) args ln false "" [] :: ds).
Proof.
  intros Hx Hne Hp Ht [Hr Hrep]. split.
  { intros d. rewrite all_of_cons. cbn [dChildren app].
    intros [->|Hd%Hr%in_range_lnx]%elem_of_cons; unfold in_range in *; cbn; lia. }
  intros drop fuel' Hdp Hf. destruct fuel' as [|fuel']; [lia|]. cbn [blank_lines length] in *.
  rewrite all_of_cons in Hdp. cbn [dChildren app] in Hdp.
  destruct (Hrep drop fuel') as (ds' & H1 & H2); [|lia|].
  { eapply drops_plain_weaken; [exact Hdp|intros z Hz%in_range_lnx; unfold in_range in *; lia|].
    intros d [->|Hd]%elem_of_cons _ Hz; [|done]. apply in_range_lnx in Hz. unfold in_range in Hz. cbn in Hz. lia. }
  assert (H1' : config_loop fuel' false (after false ln (blank_lines drop (ln + 1) rest)) = Ok ds').
  { rewrite <- blank_rest, <- H1. by destruct rest. }
  rewrite strip_cons. cbn [dLine dName dArgs dInline dBody dChildren].
  destruct (bool_decide (ln ∈ drop)) eqn:Eb.
  - exists ds'. split; [|exact H2]. rewrite config_skip;
      [done|done|rewrite line_at_blank; apply bomless_blank|rewrite blank_lines_length; lia].
  - exists (MkDirective (bypassDoubleDash p0) args ln false "" [] :: ds'). split.
    + rewrite config_step; [|done|by destruct Hne; [left|right; destruct rest]].
      rewrite line_at_blank, Hp. cbn [at_line map_err result_bind]. by rewrite Ht, H1'.
    + by rewrite fmap_cons, H2.
Qed.

Lemma full_length ls : (length ls <= String.length (full ls))%nat.
Proof.
  induction ls as [|l ls IH]; [done|]. rewrite full_cons, !string_length_app. cbn. lia.
Qed.

(** The children of a block, read from its body with lines blanked. *)
Lemma block_children drop tag ln bl cs :
  forallb short bl = true ->
  (if tag =s "connection" then parseConnection (full bl) ln else Ok []) = Ok cs ->
  (forall d, d ∈ cs -> in_range ln (length bl) (dLine d)) /\
  (drops_plain drop ln (length bl) cs ->
   (if tag =s "connection" then parseConnection (full (blank_lines drop ln bl)) ln else Ok [])
   = Ok (List.filter (kept drop) cs)).
Proof.
  intros Hs H. case_bool_decide as Ht.
  - unfold parseConnection in *. rewrite <- text_full in H.
    destruct (connection_replay _ _ _ _ Hs H) as [Hr Hrep]. split; [done|]. intros Hd.
    rewrite <- (text_full (blank_lines _ _ _)). apply Hrep; [done|].
    pose proof (full_length (blank_lines drop ln bl)) as Hl. rewrite blank_lines_length in Hl.
    rewrite text_full. lia.
  - injection H as <-. split; [intros d Hd; by apply elem_of_nil in Hd|done].
Qed.

Lemma is_close_blank tag close drop k rest : is_close tag close rest -> is_close tag close (blank_lines drop k rest).
Proof. by destruct rest. Qed.

(** A block of [n1] body lines followed by [n2] lines: what may be dropped of them. *)
Section BlockDrops.
Context (drop : list Z) (ln : Z) (n1 n2 : nat) (d0 : directive) (cs ds : list directive).
Hypothesis Hk : forall d, d ∈ cs -> in_range (ln + 1) n1 (dLine d).
Hypothesis Hd2 : forall d, d ∈ ds -> in_range (ln + 1 + Z.of_nat n1 + 1) n2 (dLine d).
Hypothesis Hinline : dInline d0 = true.
Hypothesis Hdp : drops_plain drop ln (S (S (n1 + n2))) (d0 :: cs ++ ds).

(** Neither the opening nor the closing line. *)
Lemma block_edges z : z ∈ drop -> z <> ln /\ z <> (ln + 1 + Z.of_nat n1)%Z.
Proof.
  intros Hz. split; intros ->; (destruct (Hdp _ Hz) as (d & Hd & Hl & Hi); [unfold in_range; lia|]);
    apply elem_of_cons in Hd as [->|[Hd%Hk|Hd%Hd2]%elem_of_app]; try congruence; unfold in_range in *; lia.
Qed.

Lemma block_body : drops_plain drop (ln + 1) n1 cs.
Proof.
  eapply drops_plain_weaken; [exact Hdp|intros z Hz; unfold in_range in *; lia|].
  intros d [->|[Hd|Hd%Hd2]%elem_of_app]%elem_of_cons Hi Hz; [congruence|done|]. unfold in_range in *. lia.
Qed.

Lemma block_rest : drops_plain drop (ln + 1 + Z.of_nat n1 + 1) n2 ds.
Proof.
  eapply drops_plain_weaken; [exact Hdp|intros z Hz; unfold in_range in *; lia|].
  intros d [->|[Hd%Hk|Hd]%elem_of_app]%elem_of_cons Hi Hz; [congruence| |done]. unfold in_range in *. lia.
Qed.
End BlockDrops.

Lemma conf_replay_block first x ln p0 args tag b1 close b2 cs ds :
  short x = true -> forallb short b1 = true -> short close = true ->
  parseLine (bomless first (line_at x (b1 ++ close :: b2))) = Ok (p0 :: args) ->
  inlineTag (bypassDoubleDash p0 :: args) = Some tag ->
  is_close tag close b2 -> Forall (fun l => closes tag (l +:+ nl1) = false) b1 ->
  (if tag =s "connection" then parseConnection (full b1) (ln + 1) else Ok []) = Ok cs ->
  conf_replay false b2 (lnx (ln + 1 + Z.of_nat (length b1)) b2) ds ->
  conf_replay first (x :: b1 ++ close :: b2) ln (MkDirective tag [] ln true (full b1) cs :: ds).
Proof.
  intros Hx Hs1 Hsc Hp Ht Hc Ho Hcs [Hr Hrep]. set (n1 := length b1) in *.
  assert (Hlen : length (x :: b1 ++ close :: b2) = S (S (n1 + length b2))).
  { cbn. rewrite length_app. cbn. unfold n1. lia. }
  assert (Hk : forall d, d ∈ cs -> in_range (ln + 1) n1 (dLine d)).
  { by apply (block_children [] tag (ln + 1) b1 cs Hs1). }
  assert (Hd2 : forall d, d ∈ all_of ds -> in_range (ln + 1 + Z.of_nat n1 + 1) (length b2) (dLine d)).
  { intros d Hd%Hr. by apply in_range_lnx. }
  split.
  { intros d. rewrite all_of_cons, Hlen. cbn [dChildren].
    intros [->|[Hd%Hk|Hd%Hd2]%elem_of_app]%elem_of_cons; unfold in_range in *; cbn; lia. }
  intros drop fuel' Hdp Hf. destruct fuel' as [|fuel']; [lia|]. rewrite Hlen in Hdp, Hf.
  rewrite all_of_cons in Hdp. cbn [dChildren] in Hdp.
  assert (Hno := block_edges drop ln n1 (length b2) (MkDirective tag [] ln true (full b1) cs) cs (all_of ds) Hk Hd2 eq_refl Hdp).
  cbn [blank_lines]. rewrite bool_decide_false by (intros Hz; by destruct (Hno _ Hz)).
  rewrite blank_lines_app. cbn [blank_lines]. fold n1.
  rewrite (bool_decide_false (ln + 1 + Z.of_nat n1 ∈ drop)%Z) by (intros Hz; by destruct (Hno _ Hz)).
  set (b1' := blank_lines drop (ln + 1) b1). set (b2' := blank_lines drop (ln + 1 + Z.of_nat n1 + 1) b2).
  destruct (Hrep drop fuel') as (ds' & H1 & H2); [|lia|].
  { intros z Hz Hzr%in_range_lnx. by apply (block_rest drop ln n1 (length b2) (MkDirective tag [] ln true (full b1) cs) cs (all_of ds) Hk eq_refl Hdp). }
  destruct (block_children drop tag (ln + 1) b1 cs Hs1 Hcs) as [_ Hcs'].
  specialize (Hcs' (block_body drop ln n1 (length b2) (MkDirective tag [] ln true (full b1) cs) cs (all_of ds) Hd2 eq_refl Hdp)). fold b1' in Hcs'.
  assert (Hline : line_at x (b1' ++ close :: b2') = line_at x (b1 ++ close :: b2)).
  { unfold b1', b2'. destruct b1; cbn; done. }
  rewrite config_step; [|done|right; by destruct b1'].
  rewrite Hline, Hp. cbn [at_line map_err result_bind]. rewrite Ht, after_text.
  assert (Hlnx : lnx ln (b1' ++ close :: b2') = (ln + 1)%Z) by (by destruct b1').
  rewrite Hlnx.
  rewrite (readInline_replay false tag ln close b2' fuel' b1 b1'); cycle 1.
  { done. } { by apply is_close_blank. } { done. } { apply blank_lines_blanked. } { done. } { done. }
  { fold n1. lia. }
  cbn [result_bind]. rewrite string_app_nil, Hcs'. cbn [result_bind]. fold n1.
  assert (Ha : after false (ln + 1 + Z.of_nat n1) b2'
               = MkSource (text (blank_lines drop (lnx (ln + 1 + Z.of_nat n1) b2) b2))
                   (lnx (ln + 1 + Z.of_nat n1) b2) false) by (unfold b2'; by destruct b2).
  rewrite Ha, H1. cbn [result_bind].
  exists (MkDirective tag [] ln true (full b1') (List.filter (kept drop) cs) :: ds'). split; [done|].
  rewrite strip_cons. cbn [dLine dName dArgs dInline dBody dChildren].
  rewrite bool_decide_false by (intros Hz; by destruct (Hno _ Hz)). rewrite fmap_cons, H2.
  unfold erase. cbn [dLine dName dArgs dInline dBody dChildren]. case_bool_decide as Htag; [done|].
  do 2 f_equal. unfold b1'. f_equal. apply blank_lines_id. intros z Hz Hzr.
  destruct (Hdp z Hz) as (d & Hd & Hl & Hi); [unfold in_range in *; fold n1 in Hzr; lia|].
  injection Hcs as <-. apply elem_of_cons in Hd as [->|Hd]; [done|]. cbn [app] in Hd.
  apply Hd2 in Hd. fold n1 in Hzr. unfold in_range in *. lia.
Qed.

Lemma config_replay fuel : forall first L ln ds,
  forallb short L = true ->
  config_loop fuel first (MkSource (text L) ln false) = Ok ds -> conf_replay first L ln ds.
Proof.
  induction fuel as [|fuel IH]; intros first L ln ds Hs H; [done|].
  assert (Hnil : forall f l, conf_replay f [] l []).
  { intros f l. split; [intros d Hd; by apply elem_of_nil in Hd|].
    intros drop fuel' _ Hf. exists []. destruct fuel'; [cbn in Hf; lia|done]. }
  destruct L as [|x rest]; [injection H as <-; apply Hnil|].
  cbn [forallb] in Hs. apply andb_prop in Hs as [Hx Hs].
  destruct (decide (x = "" /\ rest = [])) as [[-> ->]|Hne].
  { injection H as <-. eapply conf_replay_skip; [done|apply bomless_blank|apply Hnil]. }
  assert (Hne' : x <> "" \/ rest <> []).
  { destruct (decide (x = "")); [right|by left]. intros ->. tauto. }
  rewrite config_step in H by done. apply result_bind_ok in H as (p & Hp%map_err_ok & H).
  rewrite after_text in H. destruct p as [|p0 args].
  { eapply conf_replay_skip; [done|done|]. by apply (IH _ _ _ _ Hs). }
  destruct (inlineTag _) as [tag|] eqn:Et.
  - apply result_bind_ok in H as ([body src2] & Hin & H).
    apply readInline_lines in Hin; [|done|done].
    destruct Hin as (b1 & close & b2 & -> & -> & -> & Hc & _ & Ho).
    apply forallb_app_inv in Hs as [Hs1 Hs2]. cbn [forallb] in Hs2. apply andb_prop in Hs2 as [Hsc Hs2].
    assert (Hlnx : lnx ln (b1 ++ close :: b2) = (ln + 1)%Z) by (by destruct b1).
    rewrite Hlnx, string_app_nil in H. apply result_bind_ok in H as (cs & Hcs & H).
    apply result_bind_ok in H as (ds1 & H & [= <-]). rewrite after_text in H.
    eapply conf_replay_block; eauto.
  - apply result_bind_ok in H as (ds1 & H & [= <-]).
    eapply conf_replay_plain; eauto.
Qed.

(** ** The runtime configuration *)

Fixpoint terminated (ls : list string) : list string :=
  match ls with
  | [] => []
  | l :: [] => [l]
  | l :: ls' => (l +:+ nl1) :: terminated ls'
  end.

Lemma terminated_cons l m ls : terminated (l :: m :: ls) = (l +:+ nl1) :: terminated (m :: ls).
Proof. done. Qed.

Lemma split_after_terminated s : split_after_newline s = terminated (split_byte newline s).
Proof.
  induction s as [|c s IH]; [done|]. cbn [split_after_newline split_byte]. rewrite IH.
  destruct (split_byte newline s) as [|l ls] eqn:E; [by destruct (split_byte_ne newline s)|].
  case_bool_decide as Hc.
  - subst c. by rewrite terminated_cons.
  - destruct ls as [|m ls]; [done|]. by rewrite !terminated_cons, string_app_cons.
Qed.

Lemma ends_in_newline_full l : ends_in_newline (l +:+ nl1) = true.
Proof. unfold ends_in_newline. rewrite bytes_of_app, rev_app_distr. done. Qed.

Lemma ends_in_newline_none l : contains_byte newline l = false -> ends_in_newline l = false.
Proof.
  intros H. unfold ends_in_newline. destruct (rev (bytes_of l)) as [|c r] eqn:E; [done|].
  apply bool_decide_eq_false. intros ->.
  assert (El : l = string_of (rev r) +:+ String newline "").
  { apply bytes_of_inj. rewrite bytes_of_app, bytes_of_string. cbn.
    rewrite <- (rev_involutive (bytes_of l)), E. done. }
  rewrite El, contains_byte_app in H. cbn in H. by rewrite orb_true_r in H.
Qed.

Lemma blank_terminated drop ls : forall k,
  Forall (fun l => contains_byte newline l = false) ls ->
  String.concat "" (imap (fun i => blank_line drop (k + i)) (terminated ls))
  = text (blank_lines drop (Z.of_nat k + 1) ls).
Proof.
  induction ls as [|l ls IH]; intros k H; [done|]. apply Forall_cons in H as [Hl H].
  destruct ls as [|m ls].
  - cbn. unfold blank_line. rewrite Nat.add_0_r, ends_in_newline_none by done.
    by destruct (bool_decide _).
  - rewrite terminated_cons. cbn [imap blank_lines]. rewrite Nat.add_0_r, text_cons.
    specialize (IH (S k) H). cbn [blank_lines] in IH.
    assert (Hz : (Z.of_nat (S k) + 1 = Z.of_nat k + 1 + 1)%Z) by lia. rewrite Hz in IH. rewrite <- IH.
    assert (He : imap ((fun i => blank_line drop (k + i)) ∘ S) (terminated (m :: ls))
                 = imap (fun i => blank_line drop (S k + i)) (terminated (m :: ls))).
    { apply imap_ext. intros i x _. cbn. by rewrite Nat.add_succ_r. }
    rewrite He. clear He IH.
    assert (Hc : forall u v, String.concat "" (u :: v) = u +:+ String.concat "" v).
    { intros u [|w v]; [by rewrite string_app_nil_r|done]. }
    rewrite Hc. unfold blank_line at 1. rewrite ends_in_newline_full.
    destruct (bool_decide (Z.of_nat k + 1 ∈ drop)%Z); [done|]. by rewrite string_app_assoc.
Qed.

Lemma runtimeConfig_text p data :
  runtimeConfig p data = text (blank_lines (p_stripLines p) 1 (split_byte newline data)).
Proof.
  unfold runtimeConfig. destruct (Nat.eqb_spec (length (p_stripLines p)) 0) as [E|E].
  - apply length_zero_iff_nil in E. rewrite E, blank_lines_id; [symmetry; apply join_split|].
    intros x Hx. by apply elem_of_nil in Hx.
  - rewrite split_after_terminated. apply (blank_terminated (p_stripLines p) _ 0).
    apply Forall_forall. intros l Hl. by eapply split_byte_parts.
Qed.

(** Every stripped line is a plain directive of the profile, "user", "group" or
    "persist-remote-ip". *)
Definition strippable (d : directive) : bool :=
  stripOnly (dName d) || (fst (effective d) =s "persist-remote-ip").

Lemma note_directive_lines s ln n a :
  p_stripLines (sc_profile (note_directive s ln n a)) = p_stripLines (sc_profile s) /\
  (sc_persistRemote (note_directive s ln n a) = sc_persistRemote s
   \/ n = "persist-remote-ip" /\ sc_persistRemote (note_directive s ln n a) = sc_persistRemote s ++ [ln]).
Proof. destruct s. note_cases; bool_hyps; subst; cbn; auto. Qed.

Lemma checked_plain d : checkDirective d = None -> stripOnly (dName d) = true -> dInline d = false.
Proof.
  unfold checkDirective, stripOnly. rewrite check_named_eq. intros H Hs. destruct (dInline d); [|done].
  assert (E : allowedDirectives !! dName d = Some (MkRule inlineNever None)).
  { apply orb_prop in Hs as [Hs|Hs]; apply bool_decide_eq_true in Hs; rewrite Hs; vm_compute; done. }
  rewrite E in H. clear E. cbn [andb rule_inline] in H.
  rewrite bool_decide_true in H; [discriminate|reflexivity].
Qed.

Lemma visit_list_lines vs : forall s s' x,
  visit_list s vs = Ok s' ->
  x ∈ p_stripLines (sc_profile s') ++ sc_persistRemote s' ->
  x ∈ p_stripLines (sc_profile s) ++ sc_persistRemote s \/
  exists d, d ∈ snd <$> vs /\ dLine d = x /\ dInline d = false /\ strippable d = true.
Proof.
  induction vs as [|[top d] vs IH]; intros s s' x H Hx; [injection H as <-; by left|].
  cbn in H. apply result_bind_ok in H as (s1 & H1 & H2).
  destruct (IH _ _ _ H2 Hx) as [Hx1|(d' & Hd' & Hr)]; [|right; exists d'; split; [by right|done]].
  apply visit_ok in H1 as (Hc & _ & ->). unfold noted in Hx1. cbn [snd] in Hx1.
  destruct (stripOnly (dName d)) eqn:Es; cbn [orb foldl] in Hx1.
  - cbn in Hx1. rewrite <- app_assoc in Hx1. rewrite !elem_of_app in *.
    destruct Hx1 as [?|[Hx1|?]]; [left; tauto| |left; tauto].
    apply list_elem_of_singleton in Hx1 as ->. right. exists d. split; [by left|]. split; [done|].
    split; [by apply checked_plain|]. unfold strippable. by rewrite Es.
  - destruct (dInline d) eqn:Ei; [by left|]. destruct (effective d) as [n a] eqn:Ee. cbn [foldl] in Hx1.
    destruct (note_directive_lines s (dLine d) n a) as [E1 E2]. rewrite E1 in Hx1.
    destruct E2 as [E2|[En E2]]; rewrite E2 in Hx1; [by left|].
    rewrite !elem_of_app in *. destruct Hx1 as [?|[?|Hx1]]; [tauto|tauto|].
    apply list_elem_of_singleton in Hx1 as ->. right. exists d. split_and!; [by left|done|done|].
    unfold strippable. rewrite Ee, En. cbn. by rewrite orb_true_r.
Qed.

Lemma finish_profile_lines ds s p x :
  finish_profile ds s = Ok p -> x ∈ p_stripLines p ->
  x ∈ p_stripLines (sc_profile s) ++ sc_persistRemote s.
Proof.
  unfold finish_profile. destruct (negb (sc_hasRemote s)); [done|]. destruct (negb (sc_hasClient s)); [done|].
  intros H Hx. apply result_bind_ok in H as ([] & _ & H). cbv zeta in H. injection H as Hp.
  rewrite elem_of_app, <- Hp in *. clear Hp p.
  destruct s as [q hr hc pl bd lp ci ec pr]. cbn in Hx |- *.
  destruct (1 <? length (ocRemotes (summarize ds)))%nat; destruct ec; cbn in Hx;
    rewrite ?elem_of_app in Hx; tauto.
Qed.

Lemma nul_line_none data : nul_line data = None <-> contains_byte nul data = false.
Proof.
  unfold nul_line. split.
  - intros H. destruct (cut_byte nul data) as [[u v]|] eqn:E; [done|]. by apply cut_byte_None_inv.
  - intros H. by rewrite cut_byte_None.
Qed.

Lemma blank_lines_no_nul drop data ln :
  contains_byte nul data = false ->
  contains_byte nul (text (blank_lines drop ln (split_byte newline data))) = false.
Proof.
  intros H. apply join_contains; [done|]. intros l Hl.
  assert (Hs : forall q, q ∈ split_byte newline data -> contains_byte nul q = false).
  { intros q Hq. by eapply split_byte_contains. }
  revert ln Hl. induction (split_byte newline data) as [|x ls IH]; intros ln Hl; cbn in Hl;
    [by apply elem_of_nil in Hl|].
  apply elem_of_cons in Hl as [->|Hl].
  - destruct (bool_decide _); [done|]. apply Hs. by left.
  - eapply IH; [|exact Hl]. intros q Hq. apply Hs. by right.
Qed.

Lemma text_length ls : (length ls <= S (String.length (text ls)))%nat.
Proof.
  induction ls as [|x [|y ls] IH]; [cbn; lia|cbn; lia|]. rewrite text_cons, !string_length_app.
  cbn [length] in IH |- *. change (String.length nl1) with 1%nat. lia.
Qed.

(** What is left after the strip was there before. *)
Lemma strip_sub drop ds ds' :
  erase <$> ds' = strip drop ds ->
  forall d', d' ∈ all_of ds' ->
  exists d, d ∈ all_of ds /\ ~ dLine d ∈ drop /\ dName d' = dName d /\ dArgs d' = dArgs d
            /\ dLine d' = dLine d /\ dInline d' = dInline d.
Proof.
  revert ds'. induction ds as [|d ds IH]; intros ds' H d' Hd'.
  { apply fmap_nil_inv in H. subst. by apply elem_of_nil in Hd'. }
  rewrite strip_cons in H.
  assert (Htail : forall es', erase <$> es' = strip drop ds -> d' ∈ all_of es' ->
     exists e, e ∈ all_of (d :: ds) /\ ~ dLine e ∈ drop /\ dName d' = dName e /\ dArgs d' = dArgs e
               /\ dLine d' = dLine e /\ dInline d' = dInline e).
  { intros es' He Hd. destruct (IH es' He d' Hd) as (e & Hin & Hr). exists e. split; [|done].
    rewrite all_of_cons. right. apply elem_of_app. by right. }
  case_bool_decide as Hdrop; [by eapply Htail|].
  destruct ds' as [|e ds']; [done|]. rewrite fmap_cons in H. injection H as He Hds.
  rewrite all_of_cons in Hd'. apply elem_of_cons in Hd' as [->|[Hc|Hd']%elem_of_app].
  - exists d. rewrite all_of_cons. unfold erase in *. split_and!; [by left|done|congruence..].
  - match goal with E : dChildren e = List.filter _ _ |- _ => rewrite E in Hc end.
    apply list_elem_of_In, filter_In in Hc as [Hc Hk]. exists d'. rewrite all_of_cons.
    split_and!; try done.
    + right. apply elem_of_app. left. by apply list_elem_of_In.
    + intros Hx. unfold kept in Hk. by rewrite bool_decide_true in Hk.
  - by eapply Htail.
Qed.

Lemma finish_profile_keeps ds s p x :
  finish_profile ds s = Ok p -> x ∈ p_stripLines (sc_profile s) -> x ∈ p_stripLines p.
Proof.
  unfold finish_profile. destruct (negb (sc_hasRemote s)); [done|]. destruct (negb (sc_hasClient s)); [done|].
  intros H Hx. apply result_bind_ok in H as ([] & _ & H). cbv zeta in H. injection H as Hp.
  rewrite <- Hp. clear Hp p. destruct s as [q hr hc pl bd lp ci ec pr]. cbn in Hx.
  destruct (1 <? length (ocRemotes (summarize ds)))%nat; destruct ec; cbn; rewrite ?elem_of_app; tauto.
Qed.

Lemma visit_list_strips vs : forall s s',
  visit_list s vs = Ok s' ->
  (forall x, x ∈ p_stripLines (sc_profile s) -> x ∈ p_stripLines (sc_profile s')) /\
  forall top d, (top, d) ∈ vs -> stripOnly (dName d) = true -> dLine d ∈ p_stripLines (sc_profile s').
Proof.
  induction vs as [|[t e] vs IH]; intros s s' H.
  { injection H as <-. split; [done|]. intros top d Hd. by apply elem_of_nil in Hd. }
  cbn in H. apply result_bind_ok in H as (s1 & H1 & H2). destruct (IH _ _ H2) as [IH1 IH2].
  apply visit_ok in H1 as (_ & _ & ->).
  assert (Hsub : forall x, x ∈ p_stripLines (sc_profile s) \/ (stripOnly (dName e) = true /\ x = dLine e) ->
     x ∈ p_stripLines (sc_profile s')).
  { intros x Hx. apply IH1. unfold noted. cbn [snd]. destruct (stripOnly (dName e)); cbn [orb].
    - cbn. rewrite elem_of_app. destruct Hx as [?|[_ ->]]; [by left|right; by left].
    - destruct Hx as [Hx|[? _]]; [|done]. destruct (dInline e); [done|].
      destruct (effective e) as [n a]. cbn [foldl].
      by rewrite (proj1 (note_directive_lines s (dLine e) n a)). }
  split; [intros x Hx; apply Hsub; by left|].
  intros top d [[= -> ->]|Hd]%elem_of_cons Hs; [apply Hsub; by right|by eapply IH2].
Qed.

Lemma safe_directive_ext d e :
  dName d = dName e -> dArgs d = dArgs e -> dInline d = dInline e -> safe_directive d = safe_directive e.
Proof. intros H1 H2 H3. unfold safe_directive, effective. by rewrite H1, H2, H3. Qed.

(** For an accepted profile whose lines fit the reader's buffer, the text given to the root
    process reads as exactly the profile's directives without those on the stripped lines (bodies
    of connection blocks apart, whose directives are compared); every stripped line is a "user",
    "group" or "persist-remote-ip", and every directive left is one of the checked, safe ones and
    no "user" or "group". *)
Theorem runtimeConfig_strips (data : string) (p : profile) :
  short_lines data = true -> inspectProfile data = Ok p ->
  exists ds ds', parseConfig data = Ok ds /\ parseConfig (runtimeConfig p data) = Ok ds' /\
    erase <$> ds' = strip (p_stripLines p) ds /\
    (forall x, x ∈ p_stripLines p -> exists d, d ∈ all_of ds /\ dLine d = x /\ strippable d = true) /\
    (forall d, d ∈ all_of ds' -> safe_directive d = true /\ stripOnly (dName d) = false).
Proof.
  intros Hs (ds & s & Hds & Hv & Hfin)%inspectProfile_inv.
  assert (Hlines : forall x, x ∈ p_stripLines p ->
            exists d, d ∈ all_of ds /\ dLine d = x /\ dInline d = false /\ strippable d = true).
  { intros x Hx%(finish_profile_lines _ _ _ _ Hfin).
    destruct (visit_list_lines _ _ _ _ Hv Hx) as [Hz|Hz]; [by apply elem_of_nil in Hz|done]. }
  assert (Hdrop : drops_plain (p_stripLines p) 1 (length (split_byte newline data)) (all_of ds)).
  { intros x Hx _. destruct (Hlines x Hx) as (d & H1 & H2 & H3 & _). eauto. }
  pose proof Hds as Hparse. unfold parseConfig in Hds. destruct (nul_line data) eqn:En; [done|].
  apply nul_line_none in En.
  assert (Et : data = text (split_byte newline data)) by (symmetry; apply join_split).
  rewrite Et in Hds at 2. destruct (config_replay _ _ _ _ _ Hs Hds) as [Hrange Hrep].
  set (L := blank_lines (p_stripLines p) 1 (split_byte newline data)).
  destruct (Hrep (p_stripLines p) (S (S (String.length (text L)))) Hdrop) as (ds' & H1 & H2).
  { pose proof (text_length L) as Hl. unfold L in *. rewrite blank_lines_length in Hl. lia. }
  exists ds, ds'. split; [done|]. split.
  { unfold parseConfig. rewrite runtimeConfig_text. fold L. rewrite (proj2 (nul_line_none _)); [exact H1|].
    by apply blank_lines_no_nul. }
  split; [done|]. split; [intros x (d & ? & ? & _ & ?)%Hlines; by exists d|].
  intros d' (d & Hd & Hnd & E1 & E2 & E3 & E4)%(strip_sub _ _ _ H2).
  rewrite (safe_directive_ext d' d), E1 by done.
  unfold all_of in Hd. apply list_elem_of_fmap in Hd as ([top e] & -> & Hd). cbn [snd] in *.
  destruct (visit_list_checked _ _ _ Hv top e Hd) as [Hc _].
  split; [by apply checkDirective_safe|]. destruct (stripOnly (dName e)) eqn:Es; [|done].
  exfalso. apply Hnd. eapply finish_profile_keeps; [done|].
  by apply (proj2 (visit_list_strips _ _ _ Hv) top e).
Qed.

Lemma runtimeConfig_strips_witness :
  exists p ds', short_lines sample_profile = true /\ inspectProfile sample_profile = Ok p
    /\ parseConfig (runtimeConfig p sample_profile) = Ok ds' /\ p_stripLines p = [3; 8]%Z.
Proof.
  assert (Hs : short_lines sample_profile = true) by (vm_compute; reflexivity).
  destruct (inspectProfile sample_profile) as [p|e] eqn:E;
    [|exfalso; vm_compute in E; discriminate].
  destruct (runtimeConfig_strips sample_profile p Hs E) as (ds & ds' & _ & H & _).
  exists p, ds'. repeat split; try assumption.
  assert (Hl : match inspectProfile sample_profile with Ok p => p_stripLines p | Err _ => [] end = [3; 8]%Z)
    by (vm_compute; reflexivity).
  rewrite E in Hl. exact Hl.
Defined.
