(* ===== verification/OvpnDns.v ===== *)
(** * The resolvers of a profile and its push: internal/ovpn/config.go

    What [entries] hands to the network adapter. *)

From S2P Require Import Prelude GoStrings GoNet OvpnParse OvpnAllowlist OvpnProfile.

Lemma add_entries_spec vs : forall out,
  NoDup out -> (forall v, v ∈ out -> v <> "") ->
  NoDup (add_entries_ out vs) /\
  (forall v, v ∈ add_entries_ out vs <-> v ∈ out \/ (v ∈ vs /\ v <> "")) /\
  exists added, add_entries_ out vs = out ++ added.
Proof.
  induction vs as [|a vs IH]; intros out Hn Hne.
  { split_and!; [done| |exists []; by rewrite app_nil_r]. intros v. rewrite elem_of_nil. tauto. }
  unfold add_entries_ in *. cbn [foldl].
  destruct (negb (a =s "") && negb (bool_decide (a ∈ out))) eqn:E.
  - bool_hyps. destruct (IH (out ++ [a])) as (H1 & H2 & added & H3).
    { apply NoDup_app. split; [done|]. split; [|apply NoDup_singleton].
      intros v Hv ->%list_elem_of_singleton. done. }
    { intros v [Hv| ->%list_elem_of_singleton]%elem_of_app; auto. }
    split; [done|]. split.
    + intros v. rewrite H2, elem_of_app, list_elem_of_singleton, elem_of_cons. split.
      * intros [[?| ->]|[? ?]]; auto.
      * intros [?|[[->|?] ?]]; auto.
    + exists (a :: added). by rewrite H3, <- app_assoc.
  - destruct (IH out Hn Hne) as (H1 & H2 & H3). split; [done|]. split; [|done].
    intros v. rewrite H2, elem_of_cons. split; [intros [?|[? ?]]; auto|].
    intros [?|[[->|?] ?]]; auto. apply andb_false_iff in E as [E|E]; bool_hyps; auto. done.
Qed.

Lemma add_servers_spec (m : gmap Z (list string)) ks : forall out,
  NoDup out -> (forall v, v ∈ out -> v <> "") ->
  let r := foldl (fun out k => add_entries_ out (default [] (m !! k))) out ks in
  NoDup r /\ (forall v, v ∈ r -> v <> "") /\
  (forall v, v ∈ r <-> v ∈ out \/ (v <> "" /\ exists k, k ∈ ks /\ v ∈ default [] (m !! k))) /\
  exists added, r = out ++ added.
Proof.
  induction ks as [|k ks IH]; intros out Hn Hne r.
  { unfold r. cbn. split_and!; [done..| |exists []; by rewrite app_nil_r].
    intros v. split; [auto|]. intros [?|(_ & k & Hk%elem_of_nil & _)]; done. }
  destruct (add_entries_spec (default [] (m !! k)) out Hn Hne) as (H1 & H2 & added & H3).
  destruct (IH (add_entries_ out (default [] (m !! k))) H1) as (G1 & G2 & G3 & added' & G4).
  { intros v [Hv|[_ Hv]]%H2; auto. }
  unfold r. cbn [foldl]. split_and!; [done|done| |].
  - intros v. rewrite G3, H2, exists_elem_of_cons. tauto.
  - exists (added ++ added'). by rewrite G4, H3, app_assoc.
Qed.

Lemma elem_of_sorted_prios (m : gmap Z (list string)) k : k ∈ sorted_prios m <-> is_Some (m !! k).
Proof.
  unfold sorted_prios. rewrite merge_sort_Permutation, list_elem_of_fmap. split.
  - intros ([k' v] & -> & Hk%elem_of_map_to_list). by eexists.
  - intros [v Hv]. exists (k, v). split; [done|]. by apply elem_of_map_to_list.
Qed.

(** The entries of a configuration that names a server by priority. *)
Definition numbered (c : dnsConfig) (v : string) : Prop :=
  exists k l, dns_servers c !! k = Some l /\ v ∈ l.

(** The list handed to the network adapter has no duplicate and no empty entry, and holds
    exactly the numbered servers and search domains when any server is numbered, exactly the
    dhcp-option servers and domains otherwise. *)
Theorem dns_entries_spec (c : dnsConfig) :
  NoDup (dns_entries c) /\
  forall v, v ∈ dns_entries c <->
    v <> "" /\ if bool_decide (dns_servers c = ∅)
               then v ∈ dns_dhcpServers c \/ v ∈ dns_dhcpDomains c
               else numbered c v \/ v ∈ dns_search c.
Proof.
  assert (Hnil : forall v : string, v ∈ [] -> v <> "") by (intros v Hv; by apply elem_of_nil in Hv).
  unfold dns_entries. destruct (bool_decide (dns_servers c = ∅)); cbn [negb].
  - destruct (add_entries_spec (dns_dhcpServers c) [] (NoDup_nil_2) Hnil) as (H1 & H2 & _).
    destruct (add_entries_spec (dns_dhcpDomains c) (add_entries_ [] (dns_dhcpServers c)) H1) as (G1 & G2 & _).
    { intros v [Hv|[_ ?]]%H2; [by apply Hnil|done]. }
    split; [done|]. intros v. rewrite G2, H2, elem_of_nil. tauto.
  - destruct (add_servers_spec (dns_servers c) (sorted_prios (dns_servers c)) [] NoDup_nil_2 Hnil)
      as (H1 & H2 & H3 & _).
    destruct (add_entries_spec (dns_search c) _ H1 H2) as (G1 & G2 & _).
    split; [done|]. intros v. rewrite G2, H3, elem_of_nil.
    assert (Hnum : (exists k, k ∈ sorted_prios (dns_servers c) /\ v ∈ default [] (dns_servers c !! k))
                   <-> numbered c v).
    { unfold numbered. split.
      - intros (k & [l Hl]%elem_of_sorted_prios & Hv). rewrite Hl in Hv. by exists k, l.
      - intros (k & l & Hl & Hv). exists k. rewrite elem_of_sorted_prios, Hl. split; [by exists l|done]. }
    rewrite <- Hnum. tauto.
Qed.
