(* ===== verification/TunnelManager.v ===== *)
(** * The WireGuard tunnel manager: internal/tunnel/manager.go, connect_phases.go, status.go

    [Manager.mu] is held for reads and writes of the table only, so an operation is a claim
    (Phase 1), slow work outside the lock (Phase 2) and a commit (Phase 3), and other operations
    run in between.  The claims and commits are functions on [Manager] here; the slow work is a
    program of [Effect]s run against an oracle that says which of them fail; [step] interleaves
    the operations in flight.  Engines and network managers are compared by identity, so they are
    numbers. *)

From S2P Require Import Prelude GoStrings Domain.

(** ** Effects on the host *)

Record Engine := MkEngine {
  eng_id : nat; eng_iface : string; eng_endpointIPs : list string; eng_endpoints : list string }.

#[export] Instance engine_eq_dec : EqDecision Engine.
Proof. solve_decision. Defined.

Inductive Effect :=
| ESaveState (tunnel iface : string)
| ESetMTU (iface : string) (mtu : Z)
| EAssignAddress (iface : string) (addrs : list string)
| EBringUp (iface : string)
| EAddRoutes (iface : string) (allowed : list string) (full : bool) (endpoints : list string)
    (table : string)
| ESetDNS (iface : string) (entries : list string)
| ECleanup (iface : string)
| ECloseEngine (id : nat)
| EClearState (tunnel : string).

#[export] Instance effect_eq_dec : EqDecision Effect.
Proof. solve_decision. Defined.

Inductive ErrorKind :=
| ErrAlreadyConnected | ErrTransitionInProgress | ErrNotConnected | ErrEngineCreation | ErrNetwork
| ErrResolution | ErrConfig | ErrStateCorrupt | ErrTimeout | ErrFullTunnelConflict.

#[export] Instance error_kind_eq_dec : EqDecision ErrorKind.
Proof. solve_decision. Defined.

Section Phases.
(** What the host does: whether an operation of the network manager succeeds, and what the
    engine factory makes of a configuration. *)
Context (succeeds : Effect -> bool) (engineFactory : WireGuardConfig -> option Engine).

(** The steps of connectPhases that can fail, in order; the log is returned with the result. *)
Fixpoint run_steps (steps : list Effect) (log : list Effect) : bool * list Effect :=
  match steps with
  | [] => (true, log)
  | e :: steps' =>
      if succeeds e then run_steps steps' (log ++ [e]) else (false, log ++ [e])
  end.

Definition network_steps (cfg : WireGuardConfig) (engine : Engine) : list Effect :=
  let iface := eng_iface engine in
  [ESetMTU iface (MTU (Interface cfg)); EAssignAddress iface (Address (Interface cfg));
   EBringUp iface;
   EAddRoutes iface (concat (AllowedIPs <$> Peers cfg)) (IsFullTunnel cfg)
     (eng_endpointIPs engine) (Table (Interface cfg))]
  ++ (if (0 <? length (DNS (Interface cfg)))%nat then [ESetDNS iface (DNS (Interface cfg))] else []).

Definition rollback (cfg : WireGuardConfig) (engine : Engine) : list Effect :=
  [ECleanup (eng_iface engine); ECloseEngine (eng_id engine); EClearState (Name cfg)].

(** The error of SaveActiveState is logged only, so it does not stop the steps. *)
Definition connectPhases (cfg : WireGuardConfig) : result ErrorKind Engine * list Effect :=
  match engineFactory cfg with
  | None => (Err ErrEngineCreation, [])
  | Some engine =>
      let saved := [ESaveState (Name cfg) (eng_iface engine)] in
      let '(ok, log) := run_steps (network_steps cfg engine) saved in
      if ok : bool then (Ok engine, log) else (Err ErrNetwork, log ++ rollback cfg engine)
  end.

Definition disconnectPhases (cfg : WireGuardConfig) (engine : Engine) (has_netMgr : bool)
    : list Effect :=
  (if has_netMgr then [ECleanup (eng_iface engine)] else [])
  ++ [ECloseEngine (eng_id engine); EClearState (Name cfg)].
End Phases.

(** ** The table *)

Record tunnelEntry := MkEntry {
  te_state : State;
  te_engine : option Engine;
  te_cfg : option WireGuardConfig;
  te_connectedAt : Z;
  te_netMgr : option nat
}.

#[export] Instance eta_entry : Eta tunnelEntry := fun r =>
  MkEntry (te_state r) (te_engine r) (te_cfg r) (te_connectedAt r) (te_netMgr r).

(** [netMgrs] holds the pin setting of every network manager made so far. *)
Record Manager := MkManager {
  tunnels : gmap string tunnelEntry;
  pinInterface : bool;
  netMgrs : gmap nat bool
}.

#[export] Instance eta_manager : Eta Manager := fun r =>
  MkManager (tunnels r) (pinInterface r) (netMgrs r).

Definition NewManager : Manager := MkManager ∅ false ∅.

Definition blank_entry : tunnelEntry := MkEntry StateDisconnected None None 0 None.

Definition getOrCreateEntry (m : Manager) (name : string) : tunnelEntry :=
  default blank_entry (tunnels m !! name).

Definition removeEntry (m : Manager) (name : string) : Manager :=
  m <| tunnels ::= fun t => delete name t |>.

Definition set_entry (m : Manager) (name : string) (e : tunnelEntry) : Manager :=
  m <| tunnels ::= fun t => <[name := e]> t |>.

Definition in_transition (s : State) : bool :=
  match s with StateConnecting | stateDisconnecting => true | _ => false end.

Definition full_entry (e : tunnelEntry) : bool :=
  match te_state e, te_cfg e with
  | StateConnected, Some c => IsFullTunnel c
  | _, _ => false
  end.

Definition full_tunnel_conflict (m : Manager) (name : string) : bool :=
  existsb (fun '(other, e) => negb (other =s name) && full_entry e) (map_to_list (tunnels m)).

(** ** Connect *)

(** Phase 1; [nm] is the network manager the factory returns. *)
Definition connect_claim (m : Manager) (cfg : WireGuardConfig) (nm : nat) : result ErrorKind Manager :=
  let name := Name cfg in
  let st := te_state <$> tunnels m !! name in
  if bool_decide (st = Some StateConnected) then Err ErrAlreadyConnected
  else if bool_decide (st = Some StateConnecting) || bool_decide (st = Some stateDisconnecting)
  then Err ErrTransitionInProgress
  else if IsFullTunnel cfg && full_tunnel_conflict m name then Err ErrFullTunnelConflict
  else
    let e := (getOrCreateEntry m name)
               <| te_cfg := Some cfg |> <| te_state := StateConnecting |> <| te_netMgr := Some nm |> in
    Ok ((set_entry m name e) <| netMgrs ::= fun s => <[nm := pinInterface m]> s |>).

(** Phase 3; the effects are those of the safety net. *)
Definition connect_commit (m : Manager) (cfg : WireGuardConfig) (phases : result ErrorKind Engine)
    (now : Z) : result ErrorKind Engine * Manager * list Effect :=
  let name := Name cfg in
  let entry := getOrCreateEntry m name in
  match phases with
  | Err k => (Err k, removeEntry m name, [])
  | Ok engine =>
      if negb (bool_decide (te_state entry = StateConnecting)) then
        (Err ErrStateCorrupt, removeEntry m name,
         [ECleanup (eng_iface engine); ECloseEngine (eng_id engine); EClearState name])
      else
        (Ok engine,
         set_entry m name (entry <| te_engine := Some engine |> <| te_connectedAt := now |>
                                 <| te_state := StateConnected |>), [])
  end.

(** ** Disconnect *)

(** The handles snapshotted under the lock for the teardown. *)
Record Teardown := MkTeardown {
  td_cfg : option WireGuardConfig; td_engine : Engine; td_netMgr : option nat }.

Inductive Poll :=
| PollWait
| PollFailed (k : ErrorKind) (m : Manager)
| PollClaimed (t : Teardown) (m : Manager).

(** One round of the wait loop of DisconnectTunnel and, when the state is stable, Phase 1. *)
Definition disconnect_poll (m : Manager) (name : string) (deadline_passed : bool) : Poll :=
  match tunnels m !! name with
  | None => PollFailed ErrNotConnected m
  | Some e =>
      if in_transition (te_state e) then
        if deadline_passed then PollFailed ErrTimeout m else PollWait
      else if negb (bool_decide (te_state e = StateConnected)) then PollFailed ErrNotConnected m
      else match te_engine e with
           | None => PollFailed ErrStateCorrupt (removeEntry m name)
           | Some eng =>
               PollClaimed (MkTeardown (te_cfg e) eng (te_netMgr e))
                 (set_entry m name (e <| te_state := stateDisconnecting |>))
           end
  end.

Definition teardown_commit (m : Manager) (name : string) : Manager := removeEntry m name.

(** What DisconnectAll asks to disconnect (in map order in the source, by name here). *)
Definition disconnect_all_names (m : Manager) : list string :=
  List.filter (fun n => match tunnels m !! n with
                        | Some e => bool_decide (te_state e = StateConnected)
                                    || bool_decide (te_state e = StateConnecting)
                        | None => false
                        end) (sorted_keys (tunnels m)).

(** ** The watcher *)

(** The guard and the claim of handleEngineDied; [None] is its early return. *)
Definition died_claim (m : Manager) (name : string) (engine : Engine) : option (Teardown * Manager) :=
  match tunnels m !! name with
  | None => None
  | Some e =>
      if negb (bool_decide (te_engine e = Some engine)) || negb (bool_decide (te_state e = StateConnected))
      then None
      else Some (MkTeardown (te_cfg e) engine (te_netMgr e),
                 set_entry m name (e <| te_state := stateDisconnecting |>))
  end.

Definition SetPinInterface (m : Manager) (enabled : bool) : Manager :=
  let ids := omap (fun '(_, e) => te_netMgr e) (map_to_list (tunnels m)) in
  m <| pinInterface := enabled |>
    <| netMgrs ::= fun s => foldl (fun s id => <[id := enabled]> s) s ids |>.

(** ** Status *)

Definition plain_status (s : State) (name : string) : ConnectionStatus :=
  zero_status <| cs_State := s |> <| cs_TunnelName := name |>.

(** A peer as wgctrl reports it; the time 0 is the zero time. *)
Record PeerStat := MkPeerStat {
  ReceiveBytes : Z; TransmitBytes : Z; LastHandshakeTime : Z; PeerEndpoint : option string }.

Definition add_peer (st : ConnectionStatus) (p : PeerStat) : ConnectionStatus :=
  let st := st <| cs_RxBytes ::= fun b => wrap64 (b + ReceiveBytes p) |>
               <| cs_TxBytes ::= fun b => wrap64 (b + TransmitBytes p) |> in
  let st :=
    if negb (LastHandshakeTime p =? 0)%Z
       && ((cs_LastHandshakeTime st =? 0) || (cs_LastHandshakeTime st <? LastHandshakeTime p))%Z
    then st <| cs_LastHandshakeTime := LastHandshakeTime p |> else st in
  match PeerEndpoint p with
  | Some ep => if cs_Endpoint st =s "" then st <| cs_Endpoint := ep |> else st
  | None => st
  end.

Section Status.
(** wgctrl's view of an interface ([None]: the query fails) and the clock. *)
Context (device : string -> option (list PeerStat)) (now : Z).

Definition GetStatus (iface tunnelName : string) (connectedAt : Z) : option ConnectionStatus :=
  match device iface with
  | None => None
  | Some peers =>
      let st0 := zero_status <| cs_State := StateConnected |> <| cs_TunnelName := tunnelName |>
                   <| cs_InterfaceName := iface |> <| cs_ConnectedAt := connectedAt |>
                   <| cs_Duration := FormatDuration (now - connectedAt) |> in
      let st := foldl add_peer st0 peers in
      Some (if negb (cs_LastHandshakeTime st =? 0)%Z
            then st <| cs_LastHandshake := FormatDuration (now - cs_LastHandshakeTime st) |>
                    <| cs_HasHandshake := true |>
            else st)
  end.

(** snapOf and entrySnap.status *)
Definition entry_status (e : tunnelEntry) : ConnectionStatus :=
  let name := match te_cfg e with Some c => Name c | None => "" end in
  match te_state e, te_engine e with
  | StateConnecting, _ | stateDisconnecting, _ => plain_status StateConnecting name
  | StateConnected, Some eng =>
      match GetStatus (eng_iface eng) name (te_connectedAt e) with
      | Some st => st
      | None => plain_status StateError name
      end
  | StateError, _ => plain_status StateError name
  | _, _ => plain_status StateDisconnected name
  end.

Definition activeTunnelNames (m : Manager) : list string :=
  List.filter (fun n => match tunnels m !! n with
                        | Some e => bool_decide (te_state e = StateConnected) || in_transition (te_state e)
                        | None => false
                        end) (sorted_keys (tunnels m)).

Definition wants : list (State -> bool) :=
  [(fun s => bool_decide (s = StateConnected)); in_transition; (fun s => bool_decide (s = StateError))].

(** The first entry by name that the test wants. *)
Definition first_wanted (m : Manager) (want : State -> bool) : option tunnelEntry :=
  head (List.filter (fun e => want (te_state e))
          (omap (fun n => tunnels m !! n) (sorted_keys (tunnels m)))).

Fixpoint primary (m : Manager) (ws : list (State -> bool)) : option tunnelEntry :=
  match ws with
  | [] => None
  | w :: ws' => match first_wanted m w with Some e => Some e | None => primary m ws' end
  end.

Definition Status (m : Manager) : ConnectionStatus :=
  let st := match primary m wants with
            | None => plain_status StateDisconnected ""
            | Some e => entry_status e
            end in
  st <| cs_ActiveTunnels := activeTunnelNames m |>.

Definition AllStatuses (m : Manager) : list ConnectionStatus :=
  entry_status <$> omap (fun n => tunnels m !! n) (sorted_keys (tunnels m)).

Record TunnelInfo := MkTunnelInfo {
  ti_Name : string; ti_InterfaceName : string; ti_Endpoints : list string; ti_DNS : list string }.

Definition info_of (n : string) (e : tunnelEntry) : option TunnelInfo :=
  match te_state e, te_engine e, te_cfg e with
  | StateConnected, Some eng, Some c =>
      Some (MkTunnelInfo n (eng_iface eng) (eng_endpoints eng) (DNS (Interface c)))
  | _, _, _ => None
  end.

Definition ConnectedTunnels (m : Manager) : list TunnelInfo :=
  omap (fun n => match tunnels m !! n with Some e => info_of n e | None => None end)
    (sorted_keys (tunnels m)).

Definition IsConnected (m : Manager) : bool :=
  existsb (fun '(_, e) => bool_decide (te_state e = StateConnected)) (map_to_list (tunnels m)).

Definition IsTunnelConnected (m : Manager) (name : string) : bool :=
  match tunnels m !! name with
  | Some e => bool_decide (te_state e = StateConnected)
  | None => false
  end.

Definition ActiveTunnel (m : Manager) : string := hd "" (activeTunnelNames m).
End Status.

(** ** The operations in flight *)

Inductive Flight :=
| FConnect (cfg : WireGuardConfig)
| FTeardown (name : string) (t : Teardown).

Record World := MkWorld {
  w_manager : Manager;
  w_flights : list Flight;
  w_watchers : list (string * Engine);   (** goroutines of watchEngineDeath *)
  w_next : nat                           (** identities not used yet *)
}.

Definition init_world : World := MkWorld NewManager [] [] 0.

(** Removes one operation in flight. *)
Definition without (i : nat) (fs : list Flight) : list Flight := take i fs ++ drop (S i) fs.

(** One lock-held section, with what went before it outside the lock.  The engine factory
    returns a new engine; engines die whenever they like. *)
Inductive step : World -> World -> Prop :=
| step_connect m fs ws n cfg m' :
    connect_claim m cfg n = Ok m' ->
    step (MkWorld m fs ws n) (MkWorld m' (FConnect cfg :: fs) ws (S n))
| step_connected m fs ws n i cfg iface eps reps now r m' eff ws' :
    fs !! i = Some (FConnect cfg) ->
    connect_commit m cfg (Ok (MkEngine n iface eps reps)) now = (r, m', eff) ->
    ws' = (if is_ok r then (Name cfg, MkEngine n iface eps reps) :: ws else ws) ->
    step (MkWorld m fs ws n) (MkWorld m' (without i fs) ws' (S n))
| step_connect_failed m fs ws n i cfg k now r m' eff :
    fs !! i = Some (FConnect cfg) ->
    connect_commit m cfg (Err k) now = (r, m', eff) ->
    step (MkWorld m fs ws n) (MkWorld m' (without i fs) ws n)
| step_disconnect m fs ws n name t m' deadline :
    disconnect_poll m name deadline = PollClaimed t m' ->
    step (MkWorld m fs ws n) (MkWorld m' (FTeardown name t :: fs) ws n)
| step_disconnect_failed m fs ws n name k m' deadline :
    disconnect_poll m name deadline = PollFailed k m' ->
    step (MkWorld m fs ws n) (MkWorld m' fs ws n)
| step_died m fs ws n name eng t m' :
    (name, eng) ∈ ws -> died_claim m name eng = Some (t, m') ->
    step (MkWorld m fs ws n) (MkWorld m' (FTeardown name t :: fs) ws n)
| step_teardown_done m fs ws n i name t :
    fs !! i = Some (FTeardown name t) ->
    step (MkWorld m fs ws n) (MkWorld (teardown_commit m name) (without i fs) ws n)
| step_pin m fs ws n b :
    step (MkWorld m fs ws n) (MkWorld (SetPinInterface m b) fs ws n).

Inductive reachable : World -> Prop :=
| reach_init : reachable init_world
| reach_step w w' : reachable w -> step w w' -> reachable w'.
