(* ===== verification/TunnelManagerFacts.v ===== *)
(** * The tunnel manager: one operation per tunnel, rollback, and crash records

    [reachable_inv] is the invariant of every interleaving of the manager's operations; from it
    follow that the branches the source calls unreachable are ([manager_consistent]) and that
    serialized connects leave at most one full tunnel connected ([one_full_tunnel]).
    [connectPhases_spec] and [crash_record] are about the slow work of one operation: what its steps, each of which
    may fail, do to the machine ([Host], [perform]), and that a crash finds a record. *)

From S2P Require Import Prelude GoStrings GoNet Domain TunnelManager.

(** ** The invariant *)

Definition flight_name (f : Flight) : string :=
  match f with FConnect cfg => Name cfg | FTeardown name _ => name end.

(** What an entry of the table owes to the operations in flight. *)
Definition entry_ok (fs : list Flight) (n : nat) (name : string) (e : tunnelEntry) : Prop :=
  (exists cfg nm, te_cfg e = Some cfg /\ Name cfg = name /\ te_netMgr e = Some nm) /\
  (forall eng, te_engine e = Some eng -> (eng_id eng < n)%nat) /\
  match te_state e with
  | StateConnected => is_Some (te_engine e)
  | StateConnecting => te_engine e = None /\ exists cfg, te_cfg e = Some cfg /\ FConnect cfg ∈ fs
  | stateDisconnecting =>
      exists eng, te_engine e = Some eng
                  /\ FTeardown name (MkTeardown (te_cfg e) eng (te_netMgr e)) ∈ fs
  | _ => False
  end.

Definition flight_ok (m : Manager) (f : Flight) : Prop :=
  match f with
  | FConnect cfg =>
      exists e, tunnels m !! Name cfg = Some e /\ te_state e = StateConnecting /\ te_cfg e = Some cfg
  | FTeardown name t =>
      exists e, tunnels m !! name = Some e /\ te_state e = stateDisconnecting
                /\ t = MkTeardown (te_cfg e) (td_engine t) (te_netMgr e) /\ te_engine e = Some (td_engine t)
  end.

Record winv (w : World) : Prop := {
  inv_entries : forall name e, tunnels (w_manager w) !! name = Some e ->
                  entry_ok (w_flights w) (w_next w) name e;
  inv_flights : forall f, f ∈ w_flights w -> flight_ok (w_manager w) f;
  inv_single : NoDup (flight_name <$> w_flights w);
  inv_engines : forall n1 n2 e1 e2 g1 g2,
      tunnels (w_manager w) !! n1 = Some e1 -> tunnels (w_manager w) !! n2 = Some e2 ->
      te_engine e1 = Some g1 -> te_engine e2 = Some g2 -> eng_id g1 = eng_id g2 -> n1 = n2;
  inv_watchers : forall name eng, (name, eng) ∈ w_watchers w -> (eng_id eng < w_next w)%nat
}.

Lemma without_elem i (fs : list Flight) f g :
  fs !! i = Some f -> NoDup (flight_name <$> fs) ->
  g ∈ without i fs <-> g ∈ fs /\ flight_name g <> flight_name f.
Proof.
  intros Hi Hn. pose proof (take_drop_middle fs i f Hi) as E. unfold without.
  rewrite <- E in Hn |- * at 3. rewrite fmap_app, fmap_cons in Hn.
  apply NoDup_app in Hn as (_ & Hd & [Hnf _]%NoDup_cons).
  rewrite !elem_of_app, elem_of_cons. split.
  - intros [Hg|Hg]; (split; [tauto|]); intros Heq.
    + apply (Hd (flight_name g)); [by apply list_elem_of_fmap_2|]. rewrite Heq. by left.
    + apply Hnf. rewrite <- Heq. by apply list_elem_of_fmap_2.
  - intros [[Hg|[->|Hg]] Hne]; [by left|done|by right].
Qed.

Lemma without_NoDup i (fs : list Flight) :
  NoDup (flight_name <$> fs) -> NoDup (flight_name <$> without i fs).
Proof.
  intros Hn. unfold without. rewrite fmap_app, fmap_take, fmap_drop.
  destruct (decide (i < length fs)) as [Hl|Hl].
  - destruct (lookup_lt_is_Some_2 (flight_name <$> fs) i) as [x Hx]; [by rewrite length_fmap|].
    rewrite <- (take_drop_middle _ _ _ Hx) in Hn. apply NoDup_app in Hn as (H1 & H2 & [H3 H4]%NoDup_cons).
    apply NoDup_app. split_and!; [done| |done]. intros y Hy Hy2. apply (H2 y Hy). by right.
  - rewrite take_ge, drop_ge by (rewrite length_fmap; lia). by rewrite app_nil_r.
Qed.

Lemma set_entry_lookup m name e n :
  tunnels (set_entry m name e) !! n = if bool_decide (n = name) then Some e else tunnels m !! n.
Proof.
  unfold set_entry. cbn. case_bool_decide; [subst; apply lookup_insert_eq|by apply lookup_insert_ne].
Qed.

Lemma removeEntry_lookup m name n :
  tunnels (removeEntry m name) !! n = if bool_decide (n = name) then None else tunnels m !! n.
Proof.
  unfold removeEntry. cbn. case_bool_decide; [subst; apply lookup_delete_eq|by apply lookup_delete_ne].
Qed.

(** An entry of another tunnel does not care about flights of [name]. *)
Lemma entry_ok_other fs fs' n n' name e :
  entry_ok fs n name e -> (n <= n')%nat ->
  (forall f, f ∈ fs -> flight_name f = name -> f ∈ fs') -> entry_ok fs' n' name e.
Proof.
  intros ((cfg & nm & Hc & Hn & Hm) & He & Hs) Hle Hf. split; [by exists cfg, nm|]. split.
  { intros eng Heng%He. lia. }
  destruct (te_state e); try done.
  - destruct Hs as (Hne & c & Hc' & Hin). split; [done|]. exists c. split; [done|]. apply Hf; [done|].
    cbn. congruence.
  - destruct Hs as (eng & Heng & Hin). exists eng. split; [done|]. by apply Hf.
Qed.

(** Changing one tunnel's entry and its flights preserves the invariant. *)
Lemma winv_update m m' fs fs' ws ws' n n' name (oe : option tunnelEntry) :
  winv (MkWorld m fs ws n) -> (n <= n')%nat ->
  (forall k, tunnels m' !! k = if bool_decide (k = name) then oe else tunnels m !! k) ->
  (forall f, flight_name f <> name -> f ∈ fs' <-> f ∈ fs) ->
  NoDup (flight_name <$> fs') ->
  (forall e, oe = Some e -> entry_ok fs' n' name e) ->
  (forall f, f ∈ fs' -> flight_name f = name -> flight_ok m' f) ->
  (forall e g, oe = Some e -> te_engine e = Some g ->
     eng_id g = n \/ exists e0, tunnels m !! name = Some e0 /\ te_engine e0 = Some g) ->
  (forall k g, (k, g) ∈ ws' -> (eng_id g < n')%nat) ->
  winv (MkWorld m' fs' ws' n').
Proof.
  intros [He Hf Hs Hg Hw] Hn Hm Hfs Hnd Hoe Hfl Heng Hws.
  cbn [w_manager w_flights w_watchers w_next] in *. split; cbn [w_manager w_flights w_watchers w_next].
  - intros k e Hk. rewrite Hm in Hk. case_bool_decide as Hkn; [subst; by apply Hoe|].
    eapply entry_ok_other; [by apply He|done|]. intros f Hfin Hfn. apply Hfs; [congruence|done].
  - intros f Hfin. destruct (decide (flight_name f = name)) as [Hfn|Hfn]; [by apply Hfl|].
    pose proof (Hf f (proj1 (Hfs f Hfn) Hfin)) as Hok. destruct f as [cfg|k t]; cbn in *;
      rewrite Hm, bool_decide_false by done; done.
  - done.
  - assert (Hname : forall k e g, tunnels m' !! k = Some e -> te_engine e = Some g -> k <> name ->
              exists e0, tunnels m !! k = Some e0 /\ te_engine e0 = Some g /\ (eng_id g < n)%nat).
    { intros k e g Hk Hge Hkn. rewrite Hm, bool_decide_false in Hk by done. exists e.
      split_and!; [done|done|]. by apply (He k e Hk). }
    assert (Hself : forall e g, tunnels m' !! name = Some e -> te_engine e = Some g ->
              eng_id g = n \/ exists e0, tunnels m !! name = Some e0 /\ te_engine e0 = Some g).
    { intros e g Hk. rewrite Hm, bool_decide_true in Hk by done. by apply Heng. }
    intros n1 n2 e1 e2 g1 g2 H1 H2 E1 E2 Eid.
    destruct (decide (n1 = name)) as [->|D1], (decide (n2 = name)) as [->|D2]; [done| | |].
    + destruct (Hname _ _ _ H2 E2 D2) as (e0 & ? & ? & ?).
      destruct (Hself _ _ H1 E1) as [?|(e3 & ? & ?)]; [lia|]. by apply (Hg name n2 e3 e0 g1 g2).
    + destruct (Hname _ _ _ H1 E1 D1) as (e0 & ? & ? & ?).
      destruct (Hself _ _ H2 E2) as [?|(e3 & ? & ?)]; [lia|]. by apply (Hg n1 name e0 e3 g1 g2).
    + destruct (Hname _ _ _ H1 E1 D1) as (e0 & ? & ? & ?).
      destruct (Hname _ _ _ H2 E2 D2) as (e3 & ? & ? & ?). by apply (Hg n1 n2 e0 e3 g1 g2).
  - done.
Qed.

Lemma no_flight m fs ws n name :
  winv (MkWorld m fs ws n) ->
  (forall e, tunnels m !! name = Some e -> in_transition (te_state e) = false) ->
  forall f, f ∈ fs -> flight_name f <> name.
Proof.
  intros H Hst f Hf <-. pose proof (inv_flights _ H f Hf) as Hok. cbn in Hok.
  destruct f as [cfg|k t]; cbn in *; destruct Hok as (e & He & Hs & _);
    specialize (Hst e He); by rewrite Hs in Hst.
Qed.

(** Removing a flight and its entry. *)
Lemma winv_done m m' fs ws n n' i f :
  winv (MkWorld m fs ws n) -> fs !! i = Some f -> (n <= n')%nat ->
  (forall k, tunnels m' !! k = if bool_decide (k = flight_name f) then None else tunnels m !! k) ->
  winv (MkWorld m' (without i fs) ws n').
Proof.
  intros H Hi Hn Hm. pose proof (inv_single _ H) as Hnd. cbn in Hnd.
  eapply (winv_update m m' fs (without i fs) ws ws n n' (flight_name f) None H Hn Hm); try done.
  - intros g Hg. rewrite (without_elem i fs f g Hi Hnd). tauto.
  - by apply without_NoDup.
  - intros g Hgin Hgn. apply (without_elem i fs f g Hi Hnd) in Hgin as [_ ?]. done.
  - intros k g Hk%(inv_watchers _ H). cbn in Hk. lia.
Qed.

Lemma connect_claim_ok m cfg nm m' :
  connect_claim m cfg nm = Ok m' ->
  (forall e, tunnels m !! Name cfg = Some e ->
     in_transition (te_state e) = false /\ te_state e <> StateConnected) /\
  (IsFullTunnel cfg = true -> full_tunnel_conflict m (Name cfg) = false) /\
  forall k, tunnels m' !! k
    = if bool_decide (k = Name cfg)
      then Some ((getOrCreateEntry m (Name cfg)) <| te_cfg := Some cfg |> <| te_state := StateConnecting |>
                   <| te_netMgr := Some nm |>)
      else tunnels m !! k.
Proof.
  unfold connect_claim. intros H. do 3 (step_in H; [done|]). injection H as <-.
  split; [|split].
  - intros e He. rewrite He in E, E0. cbn in E, E0. bool_hyps.
    split; [|congruence]. destruct (te_state e); cbn; congruence.
  - intros Hf. by rewrite Hf in E1.
  - intros k. cbn [tunnels eta update set_entry]. exact (set_entry_lookup m _ _ k).
Qed.

(** In a reachable table every entry is connected or has its flight. *)
Lemma entry_state w name e :
  winv w -> tunnels (w_manager w) !! name = Some e ->
  te_state e = StateConnected \/ in_transition (te_state e) = true.
Proof.
  intros H He. destruct (inv_entries _ H name e He) as (_ & _ & Hs).
  destruct (te_state e); try done; cbn; auto.
Qed.

Lemma claim_fresh m fs ws n cfg nm m' :
  winv (MkWorld m fs ws n) -> connect_claim m cfg nm = Ok m' -> tunnels m !! Name cfg = None.
Proof.
  intros H (Hst & _)%connect_claim_ok. destruct (tunnels m !! Name cfg) as [e|] eqn:E; [|done].
  destruct (Hst e eq_refl) as [H1 H2]. destruct (entry_state _ _ _ H E) as [?|H3]; [done|].
  cbn in *. congruence.
Qed.

Lemma winv_connect m fs ws n cfg m' :
  winv (MkWorld m fs ws n) -> connect_claim m cfg n = Ok m' ->
  winv (MkWorld m' (FConnect cfg :: fs) ws (S n)).
Proof.
  intros H Hc. pose proof (claim_fresh _ _ _ _ _ _ _ H Hc) as Hnone.
  pose proof (connect_claim_ok _ _ _ _ Hc) as (_ & _ & Hm).
  assert (Hnf : forall f, f ∈ fs -> flight_name f <> Name cfg).
  { eapply no_flight; [exact H|]. intros e He. congruence. }
  unfold getOrCreateEntry in Hm. rewrite Hnone in Hm. cbn in Hm.
  eapply (winv_update m m' fs (FConnect cfg :: fs) ws ws n (S n) (Name cfg) _ H); [lia|exact Hm|..].
  - intros f Hf. rewrite elem_of_cons. split; [|by right]. intros [->|?]; [done|done].
  - cbn. constructor; [|by apply (inv_single _ H)].
    intros (f & Hfn & Hf)%list_elem_of_fmap. by apply (Hnf f Hf).
  - intros e [= <-]. split; [by exists cfg, n|]. split; [done|]. split; [done|]. exists cfg.
    split; [done|by left].
  - intros f [->|Hf]%elem_of_cons Hfn; [|by destruct (Hnf f Hf)]. cbn.
    eexists. rewrite Hm, bool_decide_true by done. done.
  - intros e g [= <-] Hg. done.
  - intros k g Hk%(inv_watchers _ H). cbn in Hk. lia.
Qed.

(** The commit of a connect finds the entry it claimed. *)
Lemma commit_finds m fs ws n i cfg :
  winv (MkWorld m fs ws n) -> fs !! i = Some (FConnect cfg) ->
  exists e, tunnels m !! Name cfg = Some e /\ te_state e = StateConnecting /\ te_cfg e = Some cfg.
Proof.
  intros H Hi%list_elem_of_lookup_2. exact (inv_flights _ H _ Hi).
Qed.

Lemma winv_connected m fs ws n i cfg iface eps reps now :
  winv (MkWorld m fs ws n) -> fs !! i = Some (FConnect cfg) ->
  let eng := MkEngine n iface eps reps in
  let '(r, m', eff) := connect_commit m cfg (Ok eng) now in
  r = Ok eng /\ eff = [] /\ winv (MkWorld m' (without i fs) ((Name cfg, eng) :: ws) (S n)).
Proof.
  intros H Hi. destruct (commit_finds _ _ _ _ _ _ H Hi) as (e & He & Hst & Hcfg). cbv zeta.
  unfold connect_commit, getOrCreateEntry. rewrite He. cbn [default]. unfold from_option, id.
  rewrite bool_decide_true by done. cbn [negb]. split; [done|]. split; [done|].
  destruct (inv_entries _ H _ _ He) as ((c & nm & Hc & Hcn & Hnm) & _ & _).
  pose proof (inv_single _ H) as Hnd. cbn in Hnd.
  eapply (winv_update m _ fs (without i fs) ws _ n (S n) (Name cfg) _ H); [lia|intros k; apply set_entry_lookup|..].
  - intros g Hg. rewrite (without_elem i fs _ g Hi Hnd). cbn. tauto.
  - by apply without_NoDup.
  - intros e1 [= <-]. split; [by exists cfg, nm|]. split; [intros g [= <-]; cbn; lia|]. by eexists.
  - intros g Hgin Hgn. apply (without_elem i fs _ g Hi Hnd) in Hgin as [_ ?]. done.
  - intros e1 g [= <-] [= <-]. by left.
  - intros k g [[= -> ->]|Hk%(inv_watchers _ H)]%elem_of_cons; cbn in *; lia.
Qed.

Lemma winv_claim_teardown m fs ws n name e eng :
  winv (MkWorld m fs ws n) -> tunnels m !! name = Some e -> te_state e = StateConnected ->
  te_engine e = Some eng ->
  winv (MkWorld (set_entry m name (e <| te_state := stateDisconnecting |>))
          (FTeardown name (MkTeardown (te_cfg e) eng (te_netMgr e)) :: fs) ws n).
Proof.
  intros H He Hst Heng.
  assert (Hnf : forall f, f ∈ fs -> flight_name f <> name).
  { eapply no_flight; [exact H|]. intros e0 He0. assert (e0 = e) as -> by congruence. by rewrite Hst. }
  destruct (inv_entries _ H _ _ He) as ((c & nm & Hc & Hcn & Hnm) & Hid & _).
  eapply (winv_update m _ fs (_ :: fs) ws ws n n name _ H); [lia|intros k; apply set_entry_lookup|..].
  - intros f Hf. rewrite elem_of_cons. split; [|by right]. intros [->|?]; [done|done].
  - cbn. constructor; [|by apply (inv_single _ H)].
    intros (f & Hfn & Hf)%list_elem_of_fmap. by apply (Hnf f Hf).
  - intros e1 [= <-]. split; [by exists c, nm|]. split; [exact Hid|]. exists eng. split; [done|by left].
  - intros f [->|Hf]%elem_of_cons Hfn; [|by destruct (Hnf f Hf)]. unfold flight_ok.
    eexists. rewrite set_entry_lookup, bool_decide_true by done. done.
  - intros e1 g [= <-] Hg. right. by exists e.
  - intros k g Hk%(inv_watchers _ H). exact Hk.
Qed.

Lemma winv_pin m fs ws n b : winv (MkWorld m fs ws n) -> winv (MkWorld (SetPinInterface m b) fs ws n).
Proof. intros [H1 H2 H3 H4 H5]. by split. Qed.

Lemma connect_commit_failed m cfg k now :
  connect_commit m cfg (Err k) now = (Err k, removeEntry m (Name cfg), []).
Proof. done. Qed.

Lemma disconnect_poll_claimed m name deadline t m' :
  disconnect_poll m name deadline = PollClaimed t m' ->
  exists e eng, tunnels m !! name = Some e /\ te_state e = StateConnected /\ te_engine e = Some eng
    /\ t = MkTeardown (te_cfg e) eng (te_netMgr e)
    /\ m' = set_entry m name (e <| te_state := stateDisconnecting |>).
Proof.
  unfold disconnect_poll. intros H. destruct (tunnels m !! name) as [e|] eqn:E; [|done].
  destruct (in_transition _); [by destruct deadline|]. case_bool_decide; [|done]. cbn [negb] in H.
  destruct (te_engine e) as [eng|] eqn:Eg; [|done]. injection H as <- <-. by exists e, eng.
Qed.

(** ErrStateCorrupt cannot come out of a disconnect. *)
Lemma disconnect_poll_failed m fs ws n name deadline k m' :
  winv (MkWorld m fs ws n) -> disconnect_poll m name deadline = PollFailed k m' ->
  m' = m /\ (k = ErrNotConnected \/ k = ErrTimeout).
Proof.
  unfold disconnect_poll. intros H Hp. destruct (tunnels m !! name) as [e|] eqn:E; [|injection Hp as <- <-; auto].
  destruct (inv_entries _ H _ _ E) as (_ & _ & Hs).
  destruct (in_transition _); [destruct deadline; [injection Hp as <- <-; auto|done]|].
  case_bool_decide as Hst; cbn [negb] in Hp; [|injection Hp as <- <-; auto].
  rewrite Hst in Hs. destruct Hs as [eng Heng]. by rewrite Heng in Hp.
Qed.

Lemma died_claim_ok m name eng t m' :
  died_claim m name eng = Some (t, m') ->
  exists e, tunnels m !! name = Some e /\ te_state e = StateConnected /\ te_engine e = Some eng
    /\ t = MkTeardown (te_cfg e) eng (te_netMgr e)
    /\ m' = set_entry m name (e <| te_state := stateDisconnecting |>).
Proof.
  unfold died_claim. intros H. destruct (tunnels m !! name) as [e|] eqn:E; [|done].
  destruct (_ || _) eqn:Eb; [done|]. bool_hyps. injection H as <- <-. by exists e.
Qed.

Lemma step_inv w w' : winv w -> step w w' -> winv w'.
Proof.
  intros H Hs. destruct Hs as [m fs ws n cfg m' Hc|m fs ws n i cfg iface eps reps now r m' eff ws' Hi Hc ->
    |m fs ws n i cfg k now r m' eff Hi Hc|m fs ws n name t m' dl Hp|m fs ws n name k m' dl Hp
    |m fs ws n name eng t m' Hw Hd|m fs ws n i name t Hi|m fs ws n b].
  - by apply (winv_connect m).
  - pose proof (winv_connected m fs ws n i cfg iface eps reps now H Hi) as Hok. cbv zeta in Hok.
    rewrite Hc in Hok. destruct Hok as (-> & _ & Hok). exact Hok.
  - rewrite connect_commit_failed in Hc. injection Hc as <- <- <-.
    eapply (winv_done m _ fs ws n n i _ H Hi); [lia|]. intros j. apply removeEntry_lookup.
  - apply disconnect_poll_claimed in Hp as (e & eng & He & Hst & Hg & -> & ->).
    by apply winv_claim_teardown.
  - apply (disconnect_poll_failed _ _ _ _ _ _ _ _ H) in Hp as [-> _]. done.
  - apply died_claim_ok in Hd as (e & He & Hst & Hg & -> & ->). by apply winv_claim_teardown.
  - eapply (winv_done m _ fs ws n n i _ H Hi); [lia|]. intros j. apply removeEntry_lookup.
  - by apply winv_pin.
Qed.

Lemma reachable_inv w : reachable w -> winv w.
Proof.
  induction 1 as [|w w' _ IH Hs]; [|by eapply step_inv].
  split; cbn; try (intros; by rewrite ?lookup_empty in *).
  - intros f Hf. by apply elem_of_nil in Hf.
  - constructor.
  - intros k g Hk. by apply elem_of_nil in Hk.
Qed.

(** ** What the source calls unreachable *)

(** C12: in every interleaving of connects, disconnects and engine deaths, at most one operation
    is in flight per tunnel; the commit of a connect whose phases succeeded always finds the
    entry it claimed (the "state changed during setup" branch is dead); a disconnect never
    reports a corrupt state; and every teardown holds the tunnel's own configuration and network
    manager. *)
Theorem manager_consistent (w : World) :
  reachable w ->
  NoDup (flight_name <$> w_flights w) /\
  (forall cfg eng now, FConnect cfg ∈ w_flights w ->
     exists m', connect_commit (w_manager w) cfg (Ok eng) now = (Ok eng, m', [])
                /\ IsTunnelConnected m' (Name cfg) = true) /\
  (forall name dl k m', disconnect_poll (w_manager w) name dl = PollFailed k m' ->
     k = ErrNotConnected \/ k = ErrTimeout) /\
  (forall name t, FTeardown name t ∈ w_flights w ->
     exists cfg nm, td_cfg t = Some cfg /\ Name cfg = name /\ td_netMgr t = Some nm).
Proof.
  intros H%reachable_inv. destruct w as [m fs ws n]. cbn [w_manager w_flights] in *. split_and!.
  - apply (inv_single _ H).
  - intros cfg eng now Hf. destruct (inv_flights _ H _ Hf) as (e & He & Hst & Hcfg). cbn in He.
    unfold connect_commit, getOrCreateEntry. rewrite He. unfold from_option, id.
    rewrite bool_decide_true by done. eexists. split; [done|].
    unfold IsTunnelConnected. rewrite set_entry_lookup, bool_decide_true by done. done.
  - intros name dl k m' Hp. by apply (disconnect_poll_failed _ _ _ _ _ _ _ _ H) in Hp as [_ ?].
  - intros name t Hf. destruct (inv_flights _ H _ Hf) as (e & He & Hst & Ht & Hg). cbn in He.
    destruct (inv_entries _ H _ _ He) as ((c & nm & Hc & Hcn & Hnm) & _).
    exists c, nm. rewrite Ht. cbn. done.
Qed.

Definition full_config (name : string) : WireGuardConfig :=
  MkConfig name zero_interface [MkPeer "" "" "" ["0.0.0.0/0"] 0 ∅].

(** A tunnel being connected while another is torn down by its watcher. *)
Lemma manager_consistent_witness :
  exists w, reachable w /\ length (w_flights w) = 1%nat /\ NoDup (flight_name <$> w_flights w).
Proof.
  set (m1 := match connect_claim NewManager (full_config "home") 0 with Ok m => m | Err _ => NewManager end).
  assert (Hr : reachable (MkWorld m1 [FConnect (full_config "home")] [] 1)).
  { eapply reach_step; [apply reach_init|]. apply step_connect. vm_compute. reflexivity. }
  eexists. split; [exact Hr|]. split; [reflexivity|]. exact (proj1 (manager_consistent _ Hr)).
Defined.

(** ** Full tunnels *)

Definition is_connect (f : Flight) : bool := match f with FConnect _ => true | _ => false end.

(** Connects are serialized upstream: at most one is in flight. *)
Definition serial_step (w w' : World) : Prop :=
  step w w' /\ (length (List.filter is_connect (w_flights w')) <= 1)%nat.

Inductive serial_reachable : World -> Prop :=
| serial_init : serial_reachable init_world
| serial_more w w' : serial_reachable w -> serial_step w w' -> serial_reachable w'.

Lemma serial_is_reachable w : serial_reachable w -> reachable w.
Proof. induction 1 as [|w w' _ IH [Hs _]]; [constructor|]. by eapply reach_step. Qed.

(** Connected to a full tunnel, or about to be. *)
Definition active_full (e : tunnelEntry) : Prop :=
  (te_state e = StateConnected \/ te_state e = StateConnecting)
  /\ exists c, te_cfg e = Some c /\ IsFullTunnel c = true.

Definition one_active_full (m : Manager) : Prop :=
  forall n1 n2 e1 e2, tunnels m !! n1 = Some e1 -> tunnels m !! n2 = Some e2 ->
    active_full e1 -> active_full e2 -> n1 = n2.

(** Every active full tunnel of the new table was one of the old. *)
Lemma one_active_full_sub m m' :
  one_active_full m ->
  (forall k e, tunnels m' !! k = Some e -> active_full e ->
     exists e0, tunnels m !! k = Some e0 /\ active_full e0) ->
  one_active_full m'.
Proof.
  intros H Hsub n1 n2 e1 e2 H1 H2 A1 A2.
  destruct (Hsub _ _ H1 A1) as (f1 & F1 & B1), (Hsub _ _ H2 A2) as (f2 & F2 & B2). by apply (H n1 n2 f1 f2).
Qed.

Lemma one_active_full_removed m name : one_active_full m -> one_active_full (removeEntry m name).
Proof.
  intros H. apply (one_active_full_sub m); [done|]. intros k e Hk A.
  rewrite removeEntry_lookup in Hk. case_bool_decide; [done|]. by exists e.
Qed.

Lemma one_active_full_torn m name e :
  one_active_full m ->
  one_active_full (set_entry m name (e <| te_state := stateDisconnecting |>)).
Proof.
  intros H. apply (one_active_full_sub m); [done|]. intros k e' Hk A.
  rewrite set_entry_lookup in Hk. case_bool_decide; [|by exists e'].
  injection Hk as <-. by destruct A as [[?|?] _].
Qed.

Lemma one_active_full_claimed m fs ws n cfg m' :
  winv (MkWorld m fs ws n) -> one_active_full m -> connect_claim m cfg n = Ok m' ->
  (length (List.filter is_connect (FConnect cfg :: fs)) <= 1)%nat -> one_active_full m'.
Proof.
  intros H Hone Hc Hserial. apply connect_claim_ok in Hc as (_ & Hconf & Hm).
  assert (Hnew : forall k e, k <> Name cfg -> tunnels m !! k = Some e -> active_full e ->
            IsFullTunnel cfg = true -> False).
  { intros k e Hk He [[Hst|Hst] (c & Hce & Hfull)] Hcfg.
    - specialize (Hconf Hcfg). unfold full_tunnel_conflict in Hconf.
      rewrite existsb_false_iff in Hconf. specialize (Hconf (k, e)).
      rewrite elem_of_map_to_list in Hconf. specialize (Hconf He). cbv beta iota in Hconf.
      rewrite bool_decide_false in Hconf by done. unfold full_entry in Hconf.
      rewrite Hst, Hce, Hfull in Hconf. done.
    - destruct (inv_entries _ H _ _ He) as (_ & _ & Hs). rewrite Hst in Hs.
      destruct Hs as (_ & c' & _ & Hin). cbn in Hserial, Hin.
      assert (Hin' : FConnect c' ∈ List.filter is_connect fs).
      { apply list_elem_of_In, filter_In. split; [by apply list_elem_of_In|done]. }
      destruct (List.filter is_connect fs); [by apply elem_of_nil in Hin'|cbn in Hserial; lia]. }
  assert (Hself : forall k e, k = Name cfg -> tunnels m' !! k = Some e -> active_full e ->
            IsFullTunnel cfg = true).
  { intros k e -> He [_ (c & Hce & Hfull)]. rewrite Hm, bool_decide_true in He by done.
    injection He as <-. cbn in Hce. by injection Hce as ->. }
  intros n1 n2 e1 e2 H1 H2 A1 A2.
  destruct (decide (n1 = Name cfg)) as [D1|D1], (decide (n2 = Name cfg)) as [D2|D2]; [congruence|..].
  - exfalso. pose proof (Hself _ _ D1 H1 A1) as Hf. rewrite Hm, bool_decide_false in H2 by done.
    by apply (Hnew n2 e2).
  - exfalso. pose proof (Hself _ _ D2 H2 A2) as Hf. rewrite Hm, bool_decide_false in H1 by done.
    by apply (Hnew n1 e1).
  - rewrite Hm, bool_decide_false in H1, H2 by done. by apply (Hone n1 n2 e1 e2).
Qed.

Lemma serial_one_full w : serial_reachable w -> one_active_full (w_manager w).
Proof.
  induction 1 as [|w w' Hr IH [Hs Hserial]]; [intros n1 n2 e1 e2 H1; cbn in H1; by rewrite lookup_empty in H1|].
  pose proof (reachable_inv _ (serial_is_reachable _ Hr)) as Hinv.
  destruct Hs as [m fs ws n cfg m' Hc|m fs ws n i cfg iface eps reps now r m' eff ws' Hi Hc ->
    |m fs ws n i cfg k now r m' eff Hi Hc|m fs ws n name t m' dl Hp|m fs ws n name k m' dl Hp
    |m fs ws n name eng t m' Hw Hd|m fs ws n i name t Hi|m fs ws n b]; cbn [w_manager w_flights] in *.
  - by apply (one_active_full_claimed m fs ws n cfg).
  - destruct (commit_finds _ _ _ _ _ _ Hinv Hi) as (e & He & Hst & Hcfg).
    unfold connect_commit, getOrCreateEntry in Hc. rewrite He in Hc. unfold from_option, id in Hc.
    rewrite bool_decide_true in Hc by done. injection Hc as <- <- <-.
    apply (one_active_full_sub m); [done|]. intros k e' Hk A. rewrite set_entry_lookup in Hk.
    case_bool_decide as Hkn; [|by exists e']. subst k. exists e. split; [done|].
    injection Hk as <-. destruct A as [_ (c & Hc & Hf)]. split; [by right|]. cbn in Hc. by exists c.
  - rewrite connect_commit_failed in Hc. injection Hc as <- <- <-. by apply one_active_full_removed.
  - apply disconnect_poll_claimed in Hp as (e & eng & He & Hst & Hg & -> & ->). by apply one_active_full_torn.
  - apply (disconnect_poll_failed _ _ _ _ _ _ _ _ Hinv) in Hp as [-> _]. done.
  - apply died_claim_ok in Hd as (e & He & Hst & Hg & -> & ->). by apply one_active_full_torn.
  - by apply one_active_full_removed.
  - done.
Qed.

(** With connects serialized, as the manager's caller does, at most one tunnel that routes
    all traffic is connected at any time, however disconnects and engine deaths interleave. *)
Theorem one_full_tunnel (w : World) (n1 n2 : string) (e1 e2 : tunnelEntry) :
  serial_reachable w -> tunnels (w_manager w) !! n1 = Some e1 -> tunnels (w_manager w) !! n2 = Some e2 ->
  full_entry e1 = true -> full_entry e2 = true -> n1 = n2.
Proof.
  intros Hr%serial_one_full H1 H2 F1 F2.
  assert (Ha : forall e, full_entry e = true -> active_full e).
  { intros e He. unfold full_entry in He. destruct (te_state e) eqn:Es; try done.
    destruct (te_cfg e) as [c|] eqn:Ec; [|done]. split; [by left|by exists c]. }
  by apply (Hr n1 n2 e1 e2); auto.
Qed.

Lemma one_full_tunnel_witness :
  exists w e, serial_reachable w /\ tunnels (w_manager w) !! "home" = Some e /\ full_entry e = true
              /\ "home" = "home".
Proof.
  set (cfg := full_config "home").
  set (m1 := match connect_claim NewManager cfg 0 with Ok m => m | Err _ => NewManager end).
  set (eng := MkEngine 1 "utun4" [] []).
  set (m2 := snd (fst (connect_commit m1 cfg (Ok eng) 7))).
  assert (Hr : serial_reachable (MkWorld m2 [] [("home", eng)] 2)).
  { eapply serial_more; [eapply serial_more; [apply serial_init|split]|split].
    - apply (step_connect NewManager [] [] 0 cfg m1). vm_compute. reflexivity.
    - cbn. lia.
    - apply (step_connected m1 [FConnect cfg] [] 1 0 cfg "utun4" [] [] 7 (Ok eng) m2 [] [("home", eng)]);
        vm_compute; reflexivity.
    - cbn. lia. }
  assert (He : exists e, tunnels m2 !! "home" = Some e /\ full_entry e = true).
  { assert (Hb : match tunnels m2 !! "home" with Some e => full_entry e | None => false end = true)
      by (vm_compute; reflexivity).
    destruct (tunnels m2 !! "home") as [e|]; [by exists e|discriminate]. }
  destruct He as (e & He & Hf). exists (MkWorld m2 [] [("home", eng)] 2), e.
  split; [exact Hr|]. split; [exact He|]. split; [exact Hf|].
  exact (one_full_tunnel _ "home" "home" e e Hr He He Hf Hf).
Defined.

(** ** The slow work *)

Section PhaseFacts.
Context (succeeds : Effect -> bool).

Lemma run_steps_ok steps log :
  forallb succeeds steps = true -> run_steps succeeds steps log = (true, log ++ steps).
Proof.
  revert log. induction steps as [|e steps IH]; intros log H; cbn in *; [by rewrite app_nil_r|].
  apply andb_prop in H as [-> H]. rewrite IH by done. by rewrite <- app_assoc.
Qed.

Lemma run_steps_failed pre e post log :
  forallb succeeds pre = true -> succeeds e = false ->
  run_steps succeeds (pre ++ e :: post) log = (false, log ++ pre ++ [e]).
Proof.
  revert log. induction pre as [|a pre IH]; intros log H He; cbn in *; [by rewrite He|].
  apply andb_prop in H as [-> H]. rewrite IH by done. by rewrite <- app_assoc.
Qed.

(** Either every step succeeds or there is a first failure. *)
Lemma first_failure steps :
  forallb succeeds steps = true \/
  exists pre e post, steps = pre ++ e :: post /\ forallb succeeds pre = true /\ succeeds e = false.
Proof.
  induction steps as [|a steps IH]; [by left|]. cbn. destruct (succeeds a) eqn:Ea.
  - destruct IH as [->|(pre & e & post & -> & Hp & He)]; [by left|]. right.
    exists (a :: pre), e, post. cbn. by rewrite Ea, Hp.
  - right. by exists [], a, steps.
Qed.
End PhaseFacts.

Lemma connectPhases_cases (succeeds : Effect -> bool) (factory : WireGuardConfig -> option Engine)
    (cfg : WireGuardConfig) :
  match factory cfg with
  | None => connectPhases succeeds factory cfg = (Err ErrEngineCreation, [])
  | Some eng =>
      let save := ESaveState (Name cfg) (eng_iface eng) in
      connectPhases succeeds factory cfg = (Ok eng, save :: network_steps cfg eng)
      /\ forallb succeeds (network_steps cfg eng) = true
      \/ exists pre e post, network_steps cfg eng = pre ++ e :: post
           /\ forallb succeeds pre = true /\ succeeds e = false
           /\ connectPhases succeeds factory cfg
              = (Err ErrNetwork, save :: pre ++ e :: rollback cfg eng)
  end.
Proof.
  unfold connectPhases. destruct (factory cfg) as [eng|]; [|done]. cbv zeta.
  destruct (first_failure succeeds (network_steps cfg eng)) as [H|(pre & e & post & Hs & Hp & He)].
  - left. rewrite run_steps_ok by done. done.
  - right. exists pre, e, post. split_and!; [done..|]. rewrite Hs, run_steps_failed by done.
    do 2 f_equal. cbn. by rewrite <- app_assoc.
Qed.

(** ** What the steps do to the machine

    [ho_dirty]: routes or resolvers have been touched, if only in part, and not been cleaned up.  They outlive the
    helper; the interface with its addresses goes with the engine. *)

Record Host := MkHost {
  ho_engine : option nat; ho_mtu : option Z; ho_addrs : list string; ho_up : bool;
  ho_routes : option (list string * bool * list string * string); ho_dns : option (list string);
  ho_dirty : bool; ho_record : option string }.

#[export] Instance eta_tunnel_host : Eta Host := fun r =>
  MkHost (ho_engine r) (ho_mtu r) (ho_addrs r) (ho_up r) (ho_routes r) (ho_dns r) (ho_dirty r) (ho_record r).

(** The engine has just been created. *)
Definition engine_up (eng : Engine) : Host := MkHost (Some (eng_id eng)) None [] false None None false None.

(** What the configuration asks for. *)
Definition configured (cfg : WireGuardConfig) (eng : Engine) (record : option string) : Host :=
  MkHost (Some (eng_id eng)) (Some (MTU (Interface cfg))) (Address (Interface cfg)) true
    (Some (concat (AllowedIPs <$> Peers cfg), IsFullTunnel cfg, eng_endpointIPs eng, Table (Interface cfg)))
    (if bool_decide (DNS (Interface cfg) = []) then None else Some (DNS (Interface cfg))) true record.

Section Machine.
Context (succeeds : Effect -> bool).

Definition perform (e : Effect) (h : Host) : Host :=
  let ok := succeeds e in
  match e with
  | ESaveState _ iface => if ok : bool then h <| ho_record := Some iface |> else h
  | ESetMTU _ mtu => if ok : bool then h <| ho_mtu := Some mtu |> else h
  | EAssignAddress _ addrs => if ok : bool then h <| ho_addrs := addrs |> else h
  | EBringUp _ => if ok : bool then h <| ho_up := true |> else h
  | EAddRoutes _ allowed full eps table =>
      (if ok : bool then h <| ho_routes := Some (allowed, full, eps, table) |> else h) <| ho_dirty := true |>
  | ESetDNS _ entries => (if ok : bool then h <| ho_dns := Some entries |> else h) <| ho_dirty := true |>
  | ECleanup _ => if ok : bool then h <| ho_routes := None |> <| ho_dns := None |> <| ho_dirty := false |> else h
  | ECloseEngine _ => h <| ho_engine := None |> <| ho_mtu := None |> <| ho_addrs := [] |> <| ho_up := false |>
  | EClearState _ => if ok : bool then h <| ho_record := None |> else h
  end.

(** The states passed through, the first and the last included: a crash can strike in any. *)
Fixpoint states (log : list Effect) (h : Host) : list Host :=
  match log with [] => [h] | e :: log' => h :: states log' (perform e h) end.

Definition performed (log : list Effect) (h : Host) : Host := foldl (fun h e => perform e h) h log.

(** What a step relies on: the record comes before anything outlives a crash; addresses before the link is up, the
    link before the routes, the routes before the resolvers reached through them; routes are removed while their
    interface exists, and the record goes last. *)
Definition ready (cfg : WireGuardConfig) (e : Effect) (h : Host) : Prop :=
  match e with
  | ESaveState _ _ => ho_dirty h = false
  | ESetMTU _ _ | EAssignAddress _ _ | ECleanup _ => ho_engine h <> None
  | EBringUp _ => ho_engine h <> None /\ ho_addrs h = Address (Interface cfg)
  | EAddRoutes _ _ _ _ _ => ho_up h = true
  | ESetDNS _ _ => ho_routes h <> None
  | ECloseEngine _ => True
  | EClearState _ => ho_engine h = None
  end.

Fixpoint in_order (cfg : WireGuardConfig) (log : list Effect) (h : Host) : Prop :=
  match log with [] => True | e :: log' => ready cfg e h /\ in_order cfg log' (perform e h) end.

(** What is left once everything is undone. *)
Definition undone (cfg : WireGuardConfig) (iface : string) (h : Host) : Prop :=
  ho_engine h = None /\ ho_mtu h = None /\ ho_addrs h = [] /\ ho_up h = false
  /\ (succeeds (ECleanup iface) = true -> ho_routes h = None /\ ho_dns h = None /\ ho_dirty h = false)
  /\ ho_record h = (if succeeds (ESaveState (Name cfg) iface) && negb (succeeds (EClearState (Name cfg))) then Some iface else None).

End Machine.

Lemma network_steps_eq cfg eng :
  let iface := eng_iface eng in
  network_steps cfg eng
  = [ESetMTU iface (MTU (Interface cfg)); EAssignAddress iface (Address (Interface cfg)); EBringUp iface;
     EAddRoutes iface (concat (AllowedIPs <$> Peers cfg)) (IsFullTunnel cfg) (eng_endpointIPs eng) (Table (Interface cfg))]
    ++ match DNS (Interface cfg) with [] => [] | dns => [ESetDNS iface dns] end.
Proof. unfold network_steps. by destruct (DNS (Interface cfg)). Qed.

Lemma steps_not_save cfg eng t i : ~ ESaveState t i ∈ network_steps cfg eng.
Proof.
  rewrite network_steps_eq. destruct (DNS (Interface cfg)); cbn [app]; rewrite !elem_of_cons, elem_of_nil;
    intros H; repeat destruct H as [H|H]; discriminate || done.
Qed.

(** Every step succeeds, or some do and the next fails. *)
Lemma all_done succeeds cfg eng :
  forallb succeeds (network_steps cfg eng) = true ->
  let log := ESaveState (Name cfg) (eng_iface eng) :: network_steps cfg eng in
  in_order succeeds cfg log (engine_up eng)
  /\ performed succeeds log (engine_up eng)
     = configured cfg eng (if succeeds (ESaveState (Name cfg) (eng_iface eng)) then Some (eng_iface eng) else None).
Proof.
  rewrite network_steps_eq. unfold performed, configured, engine_up.
  destruct (DNS (Interface cfg)) as [|d dns]; cbn [app forallb]; intros H; bool_hyps; cbn [in_order foldl perform ready];
    repeat match goal with E : succeeds _ = true |- _ => rewrite E; clear E end;
    destruct (succeeds (ESaveState _ _)); cbn; repeat split; try reflexivity; discriminate.
Qed.

Lemma stopped_at succeeds cfg eng pre e post :
  network_steps cfg eng = pre ++ e :: post -> forallb succeeds pre = true -> succeeds e = false ->
  let log := ESaveState (Name cfg) (eng_iface eng) :: pre ++ e :: rollback cfg eng in
  in_order succeeds cfg log (engine_up eng) /\ undone succeeds cfg (eng_iface eng) (performed succeeds log (engine_up eng)).
Proof.
  rewrite network_steps_eq. unfold performed, undone, engine_up, rollback. intros Hs Hp He.
  destruct (DNS (Interface cfg)) as [|d dns]; cbn [app] in Hs;
    do 6 (try (destruct pre as [|? pre]; cbn [app] in Hs; [injection Hs; clear Hs; intros; subst|injection Hs; clear Hs; intros Hs; intros; subst]));
    try (destruct pre; discriminate); cbn [forallb] in Hp; bool_hyps; cbn [app in_order foldl perform ready];
    rewrite ?He; repeat match goal with E : succeeds _ = true |- _ => rewrite E; clear E end;
    destruct (succeeds (ESaveState _ _)), (succeeds (ECleanup _)), (succeeds (EClearState _));
    cbn; repeat split; try reflexivity; discriminate.
Qed.

(** C19: Connecting either fails before anything is touched (no engine); or it performs its steps in an order in which
    each finds what it relies on, and ends in one of two ways.  If every step succeeds (that of the crash record
    apart, whose failure is only logged), the machine is exactly as the configuration asks: link, MTU, addresses,
    routes, resolvers.  If one fails, whichever, everything is undone: the engine is closed and its interface gone,
    the routes and resolvers are as before if Cleanup succeeds, and no record is left if it can be removed. *)
Theorem connectPhases_spec (succeeds : Effect -> bool) (factory : WireGuardConfig -> option Engine)
    (cfg : WireGuardConfig) :
  match factory cfg with
  | None => connectPhases succeeds factory cfg = (Err ErrEngineCreation, [])
  | Some eng =>
      let '(r, log) := connectPhases succeeds factory cfg in
      let h := performed succeeds log (engine_up eng) in
      let save := ESaveState (Name cfg) (eng_iface eng) in
      in_order succeeds cfg log (engine_up eng)
      /\ match r with
         | Ok eng' => eng' = eng /\ (forall e, e ∈ log -> e = save \/ succeeds e = true)
             /\ h = configured cfg eng (if succeeds save then Some (eng_iface eng) else None)
         | Err k => k = ErrNetwork /\ (exists e, e ∈ log /\ e <> save /\ succeeds e = false)
             /\ undone succeeds cfg (eng_iface eng) h
         end
  end.
Proof.
  pose proof (connectPhases_cases succeeds factory cfg) as H. destruct (factory cfg) as [eng|]; [|exact H].
  cbv zeta in H. destruct H as [[-> Hall]|(pre & e & post & Hs & Hp & He & ->)].
  - destruct (all_done succeeds cfg eng Hall) as [Ho ->]. split_and!; [done..| |done].
    intros e [->|Hi]%elem_of_cons; [by left|right]. by apply (proj1 (forallb_true_iff _ _) Hall).
  - destruct (stopped_at succeeds cfg eng pre e post Hs Hp He) as [Ho Hu]. split_and!; [done|done| |done].
    exists e. split_and!; [by rewrite elem_of_cons, elem_of_app; right; right; left| |done].
    intros ->. eapply (steps_not_save cfg eng). rewrite Hs, elem_of_app. right. left.
Qed.

Lemma connectPhases_spec_witness :
  let cfg := full_config "home" in
  let eng := MkEngine 1 "utun4" [] [] in
  let succeeds := fun e => negb (bool_decide (e = EBringUp "utun4")) in
  let log := snd (connectPhases succeeds (fun _ => Some eng) cfg) in
  is_ok (fst (connectPhases succeeds (fun _ => Some eng) cfg)) = false /\ length log = 7%nat
  /\ undone succeeds cfg "utun4" (performed succeeds log (engine_up eng)).
Proof.
  intros cfg eng succeeds log. split; [vm_compute; reflexivity|]. split; [vm_compute; reflexivity|].
  pose proof (connectPhases_spec succeeds (fun _ => Some eng) cfg) as H. cbn [eng_iface] in H.
  unfold log. destruct (connectPhases succeeds (fun _ => Some eng) cfg) as [r l] eqn:E.
  destruct r as [x|k]; [vm_compute in E; discriminate|]. apply H.
Defined.

(** ** Crash records *)

(** What a connect and, when it succeeds, the disconnect after it do. *)
Definition life succeeds (factory : WireGuardConfig -> option Engine) (cfg : WireGuardConfig) : list Effect :=
  let '(r, log) := connectPhases succeeds factory cfg in
  match r with Ok eng => log ++ disconnectPhases cfg eng true | Err _ => log end.

(** A crash here is repaired at the next start, if there is something to repair, unless the record could not be
    written, or Cleanup has failed and the tunnel is over (the record is removed all the same). *)
Definition on_record (succeeds : Effect -> bool) (cfg : WireGuardConfig) (iface : string) (h : Host) : Prop :=
  ho_dirty h = true ->
  ho_record h = Some iface \/ succeeds (ESaveState (Name cfg) iface) = false
  \/ succeeds (ECleanup iface) = false /\ ho_engine h = None.

Definition keeps_record (e : Effect) : bool :=
  match e with ESaveState _ _ | EClearState _ => false | _ => true end.

Lemma network_keeps_record cfg eng : forallb keeps_record (network_steps cfg eng) = true.
Proof. rewrite network_steps_eq. by destruct (DNS (Interface cfg)). Qed.

Lemma perform_keeps_record succeeds e h :
  keeps_record e = true -> ho_record (perform succeeds e h) = ho_record h.
Proof. destruct e; intros H; try discriminate; cbn; try done; by destruct (succeeds _). Qed.

Lemma states_keep_record succeeds log h h' :
  forallb keeps_record log = true -> h' ∈ states succeeds log h -> ho_record h' = ho_record h.
Proof.
  revert h. induction log as [|e log IH]; cbn [states forallb]; intros h H.
  - by intros ->%list_elem_of_singleton.
  - bool_hyps. intros [->|Hi]%elem_of_cons; [done|]. rewrite (IH _ H0 Hi). by apply perform_keeps_record.
Qed.

Lemma states_app succeeds l1 l2 h h' :
  h' ∈ states succeeds (l1 ++ l2) h -> h' ∈ states succeeds l1 h \/ h' ∈ states succeeds l2 (performed succeeds l1 h).
Proof.
  revert h. induction l1 as [|e l1 IH]; cbn [states app]; intros h; [by right|].
  intros [->|Hi]%elem_of_cons; [left; left|]. destruct (IH _ Hi); [left; by right|by right].
Qed.

Lemma performed_in_states succeeds log h : performed succeeds log h ∈ states succeeds log h.
Proof.
  unfold performed. revert h. induction log as [|e log IH]; intros h; cbn [states foldl]; [left|].
  right. apply IH.
Qed.

(** The record is written first and, with every other step in between, removed last. *)
Lemma recorded_between succeeds cfg eng steps h :
  forallb keeps_record steps = true ->
  h ∈ states succeeds (ESaveState (Name cfg) (eng_iface eng) :: steps ++ rollback cfg eng) (engine_up eng) ->
  on_record succeeds cfg (eng_iface eng) h.
Proof.
  intros Hk. change (steps ++ rollback cfg eng) with (steps ++ [ECleanup (eng_iface eng); ECloseEngine (eng_id eng)] ++ [EClearState (Name cfg)]).
  rewrite app_assoc. cbn [states]. intros [->|Hi]%elem_of_cons; [done|].
  destruct (succeeds (ESaveState (Name cfg) (eng_iface eng))) eqn:Es; [|intros _; by right; left].
  assert (Hk' : forallb keeps_record (steps ++ [ECleanup (eng_iface eng); ECloseEngine (eng_id eng)]) = true)
    by (by rewrite forallb_app, Hk).
  assert (Hr : ho_record (perform succeeds (ESaveState (Name cfg) (eng_iface eng)) (engine_up eng)) = Some (eng_iface eng))
    by (cbn; by rewrite Es).
  destruct (states_app _ _ _ _ _ Hi) as [Hj|Hj].
  - intros _. left. by rewrite (states_keep_record _ _ _ _ Hk' Hj).
  - cbn [states] in Hj. rewrite elem_of_cons, list_elem_of_singleton in Hj. destruct Hj as [->| ->].
    + intros _. left. unfold performed. rewrite <- Hr. eapply states_keep_record; [exact Hk'|]. apply performed_in_states.
    + unfold performed. rewrite foldl_app. cbn [foldl]. intros Hd. right. right. split; [|cbn; by destruct (succeeds (EClearState _))].
      destruct (succeeds (ECleanup (eng_iface eng))) eqn:Ec; [|done]. exfalso. revert Hd. cbn. rewrite Ec. by destruct (succeeds (EClearState _)).
Qed.

(** C20: Crash safety of the records: at every moment of a connect and of the disconnect that may follow it, whichever
    steps fail, a tunnel whose routes or resolvers have been touched and not been cleaned up is on record, so that the
    next start finds it.  There are two exceptions, both of which the code only logs: the record could not be written;
    or Cleanup has failed, and once the engine is closed the record goes all the same.  When both are over, the engine
    and its interface are gone, the routes and resolvers too if Cleanup succeeded, and a record is left only if it
    could not be removed. *)
Theorem crash_record (succeeds : Effect -> bool) (factory : WireGuardConfig -> option Engine)
    (cfg : WireGuardConfig) (eng : Engine) :
  factory cfg = Some eng ->
  (forall h, h ∈ states succeeds (life succeeds factory cfg) (engine_up eng) -> on_record succeeds cfg (eng_iface eng) h)
  /\ undone succeeds cfg (eng_iface eng) (performed succeeds (life succeeds factory cfg) (engine_up eng)).
Proof.
  intros Hf. unfold life. pose proof (connectPhases_cases succeeds factory cfg) as H. rewrite Hf in H. cbv zeta in H.
  pose proof (network_keeps_record cfg eng) as Hk.
  destruct H as [[-> Hall]|(pre & e & post & Hs & Hp & He & ->)].
  - split; [intros h; by apply recorded_between|]. destruct (all_done succeeds cfg eng Hall) as [_ Hd].
    unfold performed in *. rewrite foldl_app, Hd. unfold configured, undone, disconnectPhases. cbn.
    destruct (succeeds (ESaveState _ _)), (succeeds (ECleanup _)), (succeeds (EClearState _)); cbn; split_and!; done.
  - split; [|by apply (stopped_at succeeds cfg eng pre e post)].
    intros h. replace (pre ++ e :: rollback cfg eng) with ((pre ++ [e]) ++ rollback cfg eng) by (by rewrite <- app_assoc).
    apply recorded_between. rewrite Hs in Hk. change (pre ++ e :: post) with (pre ++ [e] ++ post) in Hk.
    rewrite app_assoc, forallb_app in Hk. by apply andb_prop in Hk as [? _].
Qed.

Lemma crash_record_witness :
  let cfg := full_config "home" in
  let eng := MkEngine 1 "utun4" [] [] in
  let factory := fun _ : WireGuardConfig => Some eng in
  let succeeds := fun e => negb (bool_decide (e = EBringUp "utun4" \/ e = ECleanup "utun4")) in
  life succeeds factory cfg
    = [ESaveState "home" "utun4"; ESetMTU "utun4" 0; EAssignAddress "utun4" []; EBringUp "utun4";
       ECleanup "utun4"; ECloseEngine 1; EClearState "home"]
  /\ undone succeeds cfg "utun4" (performed succeeds (life succeeds factory cfg) (engine_up eng)).
Proof.
  intros cfg eng factory succeeds. split; [vm_compute; reflexivity|].
  apply (crash_record succeeds factory cfg eng eq_refl).
Defined.
