(* ===== verification/Recovery.v ===== *)
(** * Tunnel names and crash records: internal/storage/name.go, internal/tunnel/recovery.go

    The directory of records is a finite map from file names to their contents; a content that
    does not decode is [None].  [recovery_complete] shows that the records of all tunnels with
    accepted names survive side by side until the next start, which cleans up each. *)

From S2P Require Import Prelude GoStrings GoText.

(** ** storage.ValidateTunnelName *)

Definition name_char (c : ascii) : bool :=
  let n := nat_of_ascii c in
  (((97 <=? n) && (n <=? 122)) || ((65 <=? n) && (n <=? 90)) || ((48 <=? n) && (n <=? 57))
   || (n =? 45) || (n =? 95) || (n =? 32))%nat.

Inductive NameError := NameEmpty | NameTooLong | NameSpace | NameCharacter.

Definition first_byte (s : string) : option ascii := head (bytes_of s).
Definition last_byte (s : string) : option ascii := last (bytes_of s).

Definition ValidateTunnelName (name : string) : option NameError :=
  if name =s "" then Some NameEmpty
  else if (64 <? String.length name)%nat then Some NameTooLong
  else if bool_decide (first_byte name = Some " "%char) || bool_decide (last_byte name = Some " "%char)
  then Some NameSpace
  else if negb (string_forall name_char name) then Some NameCharacter else None.

(** ** Records *)

Record ActiveTunnelState := MkActive { as_TunnelName : string; as_InterfaceName : string }.

#[export] Instance active_state_eq_dec : EqDecision ActiveTunnelState.
Proof. solve_decision. Defined.

(** The replacer of stateFileName: at each position the first of "/", "\" and ".." that fits. *)
Fixpoint sanitize (s : string) : string :=
  match s with
  | String c s' =>
      if bool_decide (c = "/"%char) || bool_decide (c = "\"%char) then String "_" (sanitize s')
      else match s' with
           | String d s'' =>
               if bool_decide (c = "."%char) && bool_decide (d = "."%char)
               then String "_" (sanitize s'')
               else String c (sanitize s')
           | EmptyString => String c ""
           end
  | EmptyString => ""
  end.

Definition stateFileName (tunnelName : string) : string := sanitize tunnelName +:+ ".json".

(** The directory tunnel-states. *)
Abbreviation States := (gmap string (option ActiveTunnelState)).

Definition SaveActiveState (dir : States) (st : ActiveTunnelState) : States :=
  <[stateFileName (as_TunnelName st) := Some st]> dir.

Definition ClearActiveState (dir : States) (tunnelName : string) : States :=
  delete (stateFileName tunnelName) dir.

Definition ClearAllActiveStates (dir : States) : States := ∅.

(** os.ReadDir lists by file name; a corrupt record is removed. *)
Definition LoadActiveState (dir : States) : list ActiveTunnelState * States :=
  let names := List.filter (has_suffix ".json") (sorted_keys dir) in
  (omap (fun n => default None (dir !! n)) names,
   foldl (fun d n => if bool_decide (d !! n = Some None) then delete n d else d) dir names).

(** The names recovered, the interfaces cleaned up, and what is left on disk. *)
Definition RecoverFromCrash (dir : States) : list string * list string * States :=
  let '(states, dir') := LoadActiveState dir in
  if (length states =? 0)%nat then ([], [], dir')
  else (as_TunnelName <$> states,
        List.filter (fun i => negb (i =s "")) (as_InterfaceName <$> states),
        ClearAllActiveStates dir').

(** ** Accepted names *)

Lemma sanitize_id s : string_forall name_char s = true -> sanitize s = s.
Proof.
  induction s as [|c s IH]; [done|]. cbn [string_forall]. intros [Hc Hs]%andb_prop.
  assert (Hno : bool_decide (c = "/"%char) || bool_decide (c = "\"%char) = false
                /\ bool_decide (c = "."%char) = false).
  { split; [apply orb_false_intro|]; apply bool_decide_eq_false; intros ->; by vm_compute in Hc. }
  destruct Hno as [H1 H2]. cbn [sanitize]. rewrite H1, H2. cbn [andb]. rewrite IH by done. by destruct s.
Qed.

Lemma valid_name_chars name : ValidateTunnelName name = None -> string_forall name_char name = true.
Proof.
  unfold ValidateTunnelName. intros H. repeat (step_in H; [done|]). by apply negb_false_iff in E2.
Qed.

Lemma stateFileName_valid name : ValidateTunnelName name = None -> stateFileName name = name +:+ ".json".
Proof. intros H%valid_name_chars. unfold stateFileName. by rewrite sanitize_id. Qed.

Lemma string_app_inj_r s t u : s +:+ u = t +:+ u -> s = t.
Proof.
  intros H. apply (f_equal bytes_of) in H. rewrite !bytes_of_app in H. apply app_inv_tail in H.
  by apply bytes_of_inj.
Qed.

(** Saving the records of a list of active tunnels. *)
Definition save_all (sts : list ActiveTunnelState) : States := foldl SaveActiveState ∅ sts.

Lemma save_all_lookup sts : forall dir st,
  NoDup (as_TunnelName <$> sts) ->
  (forall s, s ∈ sts -> ValidateTunnelName (as_TunnelName s) = None) ->
  st ∈ sts -> foldl SaveActiveState dir sts !! stateFileName (as_TunnelName st) = Some (Some st).
Proof.
  induction sts as [|a sts IH]; intros dir st Hn Hv Hin; [by apply elem_of_nil in Hin|].
  cbn [fmap list_fmap] in Hn. apply NoDup_cons in Hn as [Ha Hn]. cbn [foldl].
  assert (Hv' : forall s, s ∈ sts -> ValidateTunnelName (as_TunnelName s) = None)
    by (intros s Hs; apply Hv; by right).
  apply elem_of_cons in Hin as [->|Hin]; [|by apply IH].
  clear IH Hn. assert (Hva : ValidateTunnelName (as_TunnelName a) = None) by (apply Hv; by left).
  clear Hv.
  assert (Hk : forall d, d !! stateFileName (as_TunnelName a) = Some (Some a) ->
             foldl SaveActiveState d sts !! stateFileName (as_TunnelName a) = Some (Some a)).
  { induction sts as [|b sts IH]; intros d Hd; [done|]. cbn [foldl]. apply IH.
    - intros Hx. apply Ha. by right.
    - intros s Hs. apply Hv'. by right.
    - unfold SaveActiveState. rewrite lookup_insert_ne; [done|].
      rewrite !stateFileName_valid by (done || (apply Hv'; by left)). intros Heq%string_app_inj_r.
      apply Ha. rewrite fmap_cons, Heq. by left. }
  apply Hk. unfold SaveActiveState. by rewrite lookup_insert_eq.
Qed.

Lemma save_all_domain sts : forall dir n,
  is_Some (foldl SaveActiveState dir sts !! n) ->
  is_Some (dir !! n) \/ exists s, s ∈ sts /\ n = stateFileName (as_TunnelName s).
Proof.
  induction sts as [|a sts IH]; intros dir n H; [by left|]. cbn [foldl] in H.
  destruct (IH _ _ H) as [Hd|(s & Hs & ->)]; [|right; exists s; split; [by right|done]].
  unfold SaveActiveState in Hd. destruct (decide (n = stateFileName (as_TunnelName a))) as [->|Hne].
  - right. exists a. split; [by left|done].
  - left. by rewrite lookup_insert_ne in Hd.
Qed.

(** Whatever set of tunnels with accepted names was active at a crash, the next start reads
    the record of every one of them and of no other, cleans up each interface, and leaves no
    record behind: the file names of accepted tunnel names never collide and never leave the
    directory. *)
Theorem recovery_complete (sts : list ActiveTunnelState) :
  NoDup (as_TunnelName <$> sts) ->
  (forall s, s ∈ sts -> ValidateTunnelName (as_TunnelName s) = None /\ as_InterfaceName s <> "") ->
  let '(names, ifaces, dir) := RecoverFromCrash (save_all sts) in
  (forall n, n ∈ names <-> n ∈ as_TunnelName <$> sts) /\
  (forall i, i ∈ ifaces <-> i ∈ as_InterfaceName <$> sts) /\
  (sts <> [] -> dir = ∅) /\
  forall s, s ∈ sts -> contains_byte "/" (stateFileName (as_TunnelName s)) = false.
Proof.
  intros Hn Hv.
  assert (Hname : forall s, s ∈ sts -> ValidateTunnelName (as_TunnelName s) = None) by (intros s Hs; by apply Hv).
  set (states := fst (LoadActiveState (save_all sts))).
  assert (Hload : forall st, st ∈ states <-> st ∈ sts).
  { intros st. unfold states, LoadActiveState. cbn [fst]. rewrite list_elem_of_omap. split.
    - intros (n & Hin & Hl). apply list_elem_of_In, filter_In in Hin as [Hin _].
      apply list_elem_of_In, elem_of_sorted_keys in Hin.
      destruct (save_all_domain _ _ _ Hin) as [[x Hx]|(s & Hs & ->)]; [by rewrite lookup_empty in Hx|].
      unfold save_all in Hl. rewrite (save_all_lookup sts ∅ s) in Hl by done. cbn in Hl. by injection Hl as <-.
    - intros Hst. exists (stateFileName (as_TunnelName st)).
      pose proof (save_all_lookup sts ∅ st Hn Hname Hst) as Hl. split.
      + apply list_elem_of_In, filter_In. split.
        * apply list_elem_of_In, elem_of_sorted_keys. by eexists.
        * apply has_suffix_app.
      + unfold save_all. by rewrite Hl. }
  unfold RecoverFromCrash. destruct (LoadActiveState (save_all sts)) as [states' dir'] eqn:El.
  cbn [fst] in states. subst states.
  assert (Hslash : forall s, s ∈ sts -> contains_byte "/" (stateFileName (as_TunnelName s)) = false).
  { intros s Hs%Hname. rewrite stateFileName_valid, contains_byte_app by done. apply valid_name_chars in Hs.
    by rewrite (string_forall_contains name_char). }
  destruct (Nat.eqb_spec (length states') 0) as [E|E].
  - apply length_zero_iff_nil in E. subst states'.
    assert (sts = []) as ->.
    { destruct sts as [|s sts]; [done|]. assert (Hx : s ∈ []) by (apply Hload; by left).
      by apply elem_of_nil in Hx. }
    split_and!; done.
  - split_and!; [| |done|done].
    + intros n. rewrite !list_elem_of_fmap. by setoid_rewrite Hload.
    + intros i. rewrite list_elem_of_In, filter_In, <- list_elem_of_In, !list_elem_of_fmap.
      setoid_rewrite Hload. split; [by intros [? _]|]. intros Hi. split; [done|].
      destruct Hi as (s & -> & Hs). apply negb_true_iff, bool_decide_eq_false. by apply Hv.
Qed.

Lemma recovery_complete_witness :
  let sts := [MkActive "home" "utun4"; MkActive "Work VPN-2" "utun5"] in
  RecoverFromCrash (save_all sts) = (["Work VPN-2"; "home"], ["utun5"; "utun4"], ∅)
  /\ forall s, s ∈ sts -> contains_byte "/" (stateFileName (as_TunnelName s)) = false.
Proof.
  intros sts. split; [vm_compute; reflexivity|].
  assert (Hn : NoDup (as_TunnelName <$> sts)) by (apply (bool_decide_unpack _); vm_compute; exact I).
  assert (Hv : forall s, s ∈ sts -> ValidateTunnelName (as_TunnelName s) = None /\ as_InterfaceName s <> "").
  { intros s [->|[->|Hs]%elem_of_cons]%elem_of_cons; [split; [vm_compute; reflexivity|discriminate]..|].
    by apply elem_of_nil in Hs. }
  exact (proj2 (proj2 (proj2 (recovery_complete sts Hn Hv)))).
Defined.
