(* ===== verification/Firewall.v ===== *)
(** * The pf ruleset: internal/firewall/rules.go, interface.go

    [BuildRules] first decides the list of rules, then prints it: a [Rule] is one line of the
    text.  The checks and the order of the lines are the source's; a failed check is a
    constructor of [RuleError]. *)

From S2P Require Import Prelude GoStrings GoNet.

Record KillSwitchTunnel := MkKs {
  ks_InterfaceName : string; ks_Proto : string; ks_Endpoints : list string }.

Record Ruleset := MkRuleset {
  rs_KillSwitch : bool;
  rs_Tunnels : list KillSwitchTunnel;
  rs_DNSProtection : bool;
  rs_DNSServers : list string;
  rs_DNSLookupServers : list string
}.

#[export] Instance ks_eq_dec : EqDecision KillSwitchTunnel.
Proof. solve_decision. Defined.
#[export] Instance ruleset_eq_dec : EqDecision Ruleset.
Proof. solve_decision. Defined.

#[export] Instance eta_ruleset : Eta Ruleset := fun r =>
  MkRuleset (rs_KillSwitch r) (rs_Tunnels r) (rs_DNSProtection r) (rs_DNSServers r)
    (rs_DNSLookupServers r).

Definition lower_letter (c : ascii) : bool :=
  ((97 <=? nat_of_ascii c) && (nat_of_ascii c <=? 122))%nat.

Definition digit_char (c : ascii) : bool :=
  ((48 <=? nat_of_ascii c) && (nat_of_ascii c <=? 57))%nat.

(** [^[a-z]+[0-9]+$]: after [letters], at least one of each *)
Fixpoint iface_tail (s : string) : bool :=
  match s with
  | EmptyString => false
  | String c EmptyString => digit_char c
  | String c s' => if digit_char c then string_forall digit_char s' else lower_letter c && iface_tail s'
  end.

Definition validIfaceName (s : string) : bool :=
  match s with
  | String c s' => lower_letter c && iface_tail s'
  | EmptyString => false
  end.

Definition validatePort (port : string) : bool :=
  match atoi port with
  | None => false
  | Some n => (1 <=? n)%Z && (n <=? 65535)%Z
  end.

Definition enforcesDNS (rs : Ruleset) : bool :=
  if negb (rs_DNSProtection rs) then false
  else if (0 <? length (rs_DNSServers rs))%nat then true
  else existsb (fun t => ks_InterfaceName t =s "") (rs_Tunnels rs).

(** ** Lines *)

Inductive Rule :=
| RComment
| RScrubIn
| RScrubOut
| RLoopback
| RLookup (server : string)
| RDnsServer (iface server : string)
| RBlockDns
| REndpoint (tcp : bool) (ip port : string)   (** an empty port passes every port *)
| RDhcp4
| RDhcp6
| RNeighbour
| RIface (iface : string)
| RBlockOut
| RBlockIn.

#[export] Instance rule_eq_dec : EqDecision Rule.
Proof. solve_decision. Defined.

Definition render (r : Rule) : string :=
  match r with
  | RComment => "# LockPlus"
  | RScrubIn => "scrub in all fragment reassemble"
  | RScrubOut => "scrub out all fragment reassemble"
  | RLoopback => "pass quick on lo0 all"
  | RLookup s => "pass out quick proto {tcp, udp} to " +:+ s +:+ " port 53 flags any"
  | RDnsServer ifc s =>
      "pass out quick on " +:+ ifc +:+ " proto {tcp, udp} to " +:+ s +:+ " port 53 flags any"
  | RBlockDns => "block drop out quick proto {tcp, udp} to any port 53"
  | REndpoint tcp ip port =>
      "pass out quick proto " +:+ (if tcp then "tcp" else "udp") +:+ " to " +:+ ip
      +:+ (if port =s "" then "" else " port " +:+ port)
      +:+ (if tcp then " flags any" else "")
  | RDhcp4 => "pass out quick proto udp from any port 68 to any port 67"
  | RDhcp6 => "pass out quick proto udp from any port 546 to any port 547"
  | RNeighbour => "pass quick inet6 proto ipv6-icmp icmp6-type {133, 134, 135, 136}"
  | RIface ifc => "pass quick on " +:+ ifc +:+ " all"
  | RBlockOut => "block drop out all"
  | RBlockIn => "block drop in all"
  end.

Definition render_all (rules : list Rule) : string :=
  String.concat "" ((fun r => render r +:+ String newline "") <$> rules).

(** ** Checks and order *)

Inductive RuleError :=
| BadInterface (name : string) | BadLookupServer (s : string) | BadDnsServer (s : string)
| BadEndpointIP (ip : string) | BadEndpointPort (port : string).

(** Checks every element, keeping the first failure; the loop of the source. *)
Fixpoint traverse {A B} (f : A -> result RuleError (list B)) (l : list A)
    : result RuleError (list B) :=
  match l with
  | [] => Ok []
  | a :: l' => let? x := f a in let? xs := traverse f l' in Ok (x ++ xs)
  end.

Definition tunnel_iface (t : KillSwitchTunnel) : result RuleError (list string) :=
  if ks_InterfaceName t =s "" then Ok []
  else if negb (validIfaceName (ks_InterfaceName t)) then Err (BadInterface (ks_InterfaceName t))
  else Ok [ks_InterfaceName t].

Definition lookup_rule (s : string) : result RuleError (list Rule) :=
  if ip_valid s then Ok [RLookup s] else Err (BadLookupServer s).

Definition dns_rules (ifaces : list string) (s : string) : result RuleError (list Rule) :=
  if ip_valid s then Ok ((fun i => RDnsServer i s) <$> ifaces) else Err (BadDnsServer s).

Definition endpoint_rule (tcp : bool) (ep : string) : result RuleError (list Rule) :=
  let '(ip, port) := match split_host_port ep with Some p => p | None => (ep, "") end in
  if ip =s "" then Ok []
  else if negb (ip_valid ip) then Err (BadEndpointIP ip)
  else if port =s "" then Ok [REndpoint tcp ip ""]
  else if validatePort port then Ok [REndpoint tcp ip port] else Err (BadEndpointPort port).

Definition tunnel_rules (t : KillSwitchTunnel) : result RuleError (list Rule) :=
  traverse (endpoint_rule (has_prefix "tcp" (ks_Proto t))) (ks_Endpoints t).

(** [None]: nothing to enforce, the empty text. *)
Definition rules_of (rs : Ruleset) : result RuleError (option (list Rule)) :=
  let dns := enforcesDNS rs in
  if negb (rs_KillSwitch rs) && negb dns then Ok None
  else
    let? ifaces := traverse tunnel_iface (rs_Tunnels rs) in
    let head := [RComment] ++ (if rs_KillSwitch rs then [RScrubIn; RScrubOut] else []) ++ [RLoopback] in
    let? lookups := traverse lookup_rule (rs_DNSLookupServers rs) in
    let? dnsPart := if dns : bool then
                      let? passes := traverse (dns_rules ifaces) (rs_DNSServers rs) in
                      Ok (passes ++ [RBlockDns])
                    else Ok [] in
    if negb (rs_KillSwitch rs) then Ok (Some (head ++ lookups ++ dnsPart))
    else
      let? eps := traverse tunnel_rules (rs_Tunnels rs) in
      Ok (Some (head ++ lookups ++ dnsPart ++ eps ++ [RDhcp4; RDhcp6; RNeighbour]
                ++ (RIface <$> ifaces) ++ [RBlockOut; RBlockIn])).

Definition BuildRules (rs : Ruleset) : result RuleError string :=
  let? rules := rules_of rs in
  Ok (match rules with None => "" | Some l => render_all l end).
