(* ===== verification/FirewallFacts.v ===== *)
(** * What the pf ruleset guarantees

    [BuildRules_no_injection]: the text has exactly the lines decided on, whatever strings the
    ruleset holds.  [kill_switch_exact] and [dns_closed]: what pf lets through when it evaluates
    these lines in order. *)

From S2P Require Import Prelude GoStrings GoNet ConfigRoundtrip Validator ValidatorFacts Firewall.

(** ** Traversals *)

Lemma traverse_ok {A B} (f : A -> result RuleError (list B)) l ys :
  traverse f l = Ok ys -> forall y, y ∈ ys <-> exists a x, a ∈ l /\ f a = Ok x /\ y ∈ x.
Proof.
  revert ys. induction l as [|a l IH]; intros ys H y; cbn in H.
  - injection H as <-. split; [intros Hy; by apply elem_of_nil in Hy|].
    intros (a & x & Ha & _). by apply elem_of_nil in Ha.
  - apply result_bind_ok in H as (x & Hx & (xs & Hxs & [= <-])%result_bind_ok).
    rewrite elem_of_app, (IH _ Hxs). split.
    + intros [Hy|(b & z & Hb & Hz & Hy)]; [exists a, x|exists b, z]; (split; [|done]); [left|by right].
    + intros (b & z & [->|Hb]%elem_of_cons & Hz & Hy); [left; congruence|right; by exists b, z].
Qed.

Lemma traverse_in {A B} (f : A -> result RuleError (list B)) l ys a :
  traverse f l = Ok ys -> a ∈ l -> exists x, f a = Ok x /\ forall y, y ∈ x -> y ∈ ys.
Proof.
  intros H Ha. pose proof (traverse_ok _ _ _ H) as Hys. assert (exists x, f a = Ok x) as [x Hx].
  { clear Hys. revert ys H. induction l as [|b l IH]; intros ys H; [by apply elem_of_nil in Ha|]. cbn in H.
    apply result_bind_ok in H as (x & Hx & (xs & Hxs & _)%result_bind_ok).
    apply elem_of_cons in Ha as [->|Ha]; [by exists x|by apply (IH Ha xs)]. }
  exists x. split; [done|]. intros y Hy. apply Hys. by exists a, x.
Qed.

(** ** Rules whose strings are checked *)

Definition checked_rule (r : Rule) : bool :=
  match r with
  | RLookup s => ip_valid s
  | RDnsServer i s => validIfaceName i && ip_valid s
  | REndpoint _ ip port => ip_valid ip && ((port =s "") || validatePort port)
  | RIface i => validIfaceName i
  | _ => true
  end.

(** The interfaces, endpoints and resolvers a ruleset names. *)
Definition has_iface (rs : Ruleset) (i : string) : Prop :=
  i <> "" /\ exists t, t ∈ rs_Tunnels rs /\ ks_InterfaceName t = i.

Definition has_endpoint (rs : Ruleset) (tcp : bool) (ip port : string) : Prop :=
  ip <> "" /\ exists t ep, t ∈ rs_Tunnels rs /\ ep ∈ ks_Endpoints t /\ tcp = has_prefix "tcp" (ks_Proto t)
    /\ (split_host_port ep = Some (ip, port) \/ split_host_port ep = None /\ ip = ep /\ port = "").

(** A pass rule the ruleset asks for. *)
Definition permits (rs : Ruleset) (r : Rule) : Prop :=
  match r with
  | RLoopback | RDhcp4 | RDhcp6 | RNeighbour => True
  | RLookup s => s ∈ rs_DNSLookupServers rs
  | RDnsServer i s => enforcesDNS rs = true /\ has_iface rs i /\ s ∈ rs_DNSServers rs
  | REndpoint tcp ip port => has_endpoint rs tcp ip port
  | RIface i => has_iface rs i
  | _ => False
  end.

Definition action (r : Rule) : option bool :=
  match r with
  | RComment | RScrubIn | RScrubOut => None
  | RBlockDns | RBlockOut | RBlockIn => Some false
  | _ => Some true
  end.

Lemma ifaces_ok rs ifaces :
  traverse tunnel_iface (rs_Tunnels rs) = Ok ifaces ->
  forall i, i ∈ ifaces -> has_iface rs i /\ validIfaceName i = true.
Proof.
  intros H i Hi. apply (traverse_ok _ _ _ H) in Hi as (t & x & Ht & Hx & Hi). unfold tunnel_iface in Hx.
  case_bool_decide as He; [injection Hx as <-; by apply elem_of_nil in Hi|].
  destruct (validIfaceName _) eqn:Ev; [|done]. injection Hx as <-.
  apply list_elem_of_singleton in Hi as ->. split; [|done]. split; [done|by exists t].
Qed.

Lemma endpoint_ok tcp ep x r :
  endpoint_rule tcp ep = Ok x -> r ∈ x ->
  checked_rule r = true /\ exists ip port, r = REndpoint tcp ip port /\ ip <> ""
    /\ (split_host_port ep = Some (ip, port) \/ split_host_port ep = None /\ ip = ep /\ port = "").
Proof.
  unfold endpoint_rule. intros H Hr. destruct (split_host_port ep) as [[ip port]|] eqn:E.
  - case_bool_decide; [injection H as <-; by apply elem_of_nil in Hr|].
    destruct (ip_valid ip) eqn:Ei; [|done]. cbn [negb] in H. case_bool_decide as Hp.
    + injection H as <-. apply list_elem_of_singleton in Hr as ->. subst port. split.
      * cbn. by rewrite Ei.
      * exists ip, "". split_and!; auto.
    + destruct (validatePort port) eqn:Ep; [|done]. injection H as <-.
      apply list_elem_of_singleton in Hr as ->. split; [|exists ip, port; split_and!; auto]. cbn.
      by rewrite Ei, Ep, orb_true_r.
  - case_bool_decide; [injection H as <-; by apply elem_of_nil in Hr|].
    destruct (ip_valid ep) eqn:Ei; [|done]. cbn [negb] in H.
    rewrite bool_decide_true in H by done. injection H as <-.
    apply list_elem_of_singleton in Hr as ->. split; [|exists ep, ""; split_and!; auto]. cbn. by rewrite Ei.
Qed.

Lemma endpoints_ok rs eps :
  traverse tunnel_rules (rs_Tunnels rs) = Ok eps ->
  forall r, r ∈ eps -> checked_rule r = true /\ permits rs r /\ action r = Some true.
Proof.
  intros H r Hr. apply (traverse_ok _ _ _ H) in Hr as (t & x & Ht & Hx & Hr).
  apply (traverse_ok _ _ _ Hx) in Hr as (ep & y & Hep & Hy & Hr).
  destruct (endpoint_ok _ _ _ _ Hy Hr) as (Hc & ip & port & -> & Hip & Hs).
  split; [done|]. split; [|done]. split; [done|]. by exists t, ep.
Qed.

Lemma lookups_ok rs ls :
  traverse lookup_rule (rs_DNSLookupServers rs) = Ok ls ->
  forall r, r ∈ ls -> exists s, r = RLookup s /\ s ∈ rs_DNSLookupServers rs /\ ip_valid s = true.
Proof.
  intros H r Hr. apply (traverse_ok _ _ _ H) in Hr as (s & x & Hs & Hx & Hr). unfold lookup_rule in Hx.
  destruct (ip_valid s) eqn:E; [|done]. injection Hx as <-. apply list_elem_of_singleton in Hr as ->.
  by exists s.
Qed.

Lemma dns_ok rs ifaces ls :
  traverse (dns_rules ifaces) (rs_DNSServers rs) = Ok ls ->
  forall r, r ∈ ls -> exists i s, r = RDnsServer i s /\ i ∈ ifaces /\ s ∈ rs_DNSServers rs /\ ip_valid s = true.
Proof.
  intros H r Hr. apply (traverse_ok _ _ _ H) in Hr as (s & x & Hs & Hx & Hr). unfold dns_rules in Hx.
  destruct (ip_valid s) eqn:E; [|done]. injection Hx as <-.
  apply list_elem_of_fmap in Hr as (i & -> & Hi). by exists i, s.
Qed.

(** The parts of an accepted ruleset. *)
Lemma rules_of_parts rs rules :
  rules_of rs = Ok (Some rules) ->
  exists head lookups dnsPart rest,
    rules = head ++ lookups ++ dnsPart ++ rest
    /\ (forall r, r ∈ head -> r = RLoopback \/ action r = None)
    /\ (forall r, r ∈ lookups -> exists s, r = RLookup s /\ s ∈ rs_DNSLookupServers rs /\ ip_valid s = true)
    /\ (if enforcesDNS rs
        then exists passes, dnsPart = passes ++ [RBlockDns] /\
          forall r, r ∈ passes -> exists i s, r = RDnsServer i s /\ has_iface rs i
             /\ validIfaceName i = true /\ s ∈ rs_DNSServers rs /\ ip_valid s = true
        else dnsPart = [])
    /\ (if rs_KillSwitch rs
        then exists pre, rest = pre ++ [RBlockOut; RBlockIn] /\
          forall r, r ∈ pre -> checked_rule r = true /\ permits rs r /\ action r = Some true
        else rest = []).
Proof.
  unfold rules_of. destruct (negb (rs_KillSwitch rs) && negb (enforcesDNS rs)); [done|]. intros H.
  apply result_bind_ok in H as (ifaces & Hi & H). apply result_bind_ok in H as (lookups & Hl & H).
  apply result_bind_ok in H as (dnsPart & Hd & H). pose proof (ifaces_ok _ _ Hi) as Hif.
  set (head := [RComment] ++ (if rs_KillSwitch rs then [RScrubIn; RScrubOut] else []) ++ [RLoopback]) in *.
  assert (Hhead : forall r, r ∈ head -> r = RLoopback \/ action r = None).
  { intros r. unfold head. destruct (rs_KillSwitch rs); cbn [app]; repeat rewrite elem_of_cons;
      rewrite elem_of_nil; intros Hr; repeat destruct Hr as [->|Hr]; auto; done. }
  assert (Hdns : if enforcesDNS rs
        then exists passes, dnsPart = passes ++ [RBlockDns] /\
          forall r, r ∈ passes -> exists i s, r = RDnsServer i s /\ has_iface rs i
             /\ validIfaceName i = true /\ s ∈ rs_DNSServers rs /\ ip_valid s = true
        else dnsPart = []).
  { destruct (enforcesDNS rs); [|by injection Hd as <-].
    apply result_bind_ok in Hd as (passes & Hp & [= <-]). exists passes. split; [done|].
    intros r (i & s & -> & Hin & Hs & Hv)%(dns_ok _ _ _ Hp). exists i, s.
    destruct (Hif i Hin). split_and!; done. }
  exists head, lookups, dnsPart. destruct (rs_KillSwitch rs); cbn [negb] in H.
  - apply result_bind_ok in H as (eps & He & [= <-]).
    exists (eps ++ [RDhcp4; RDhcp6; RNeighbour] ++ (RIface <$> ifaces) ++ [RBlockOut; RBlockIn]).
    split_and!; [done|done|by apply lookups_ok|done|].
    exists (eps ++ [RDhcp4; RDhcp6; RNeighbour] ++ (RIface <$> ifaces)).
    split; [by rewrite <- !app_assoc|].
    intros r [Hr|[Hr|Hr]%elem_of_app]%elem_of_app; [by apply (endpoints_ok rs eps)| |].
    + repeat rewrite elem_of_cons in Hr. rewrite elem_of_nil in Hr.
      repeat destruct Hr as [->|Hr]; done.
    + apply list_elem_of_fmap in Hr as (i & -> & [Hi1 Hi2]%Hif). done.
  - injection H as <-. exists []. split_and!; [by rewrite app_nil_r|done|by apply lookups_ok|done|done].
Qed.

(** ** Every line asked for is there *)

(** The lines that come before the DNS block. *)
Definition dns_line (r : Rule) : bool :=
  match r with RLoopback | RLookup _ | RDnsServer _ _ => true | _ => false end.

Lemma iface_listed rs ifaces i :
  traverse tunnel_iface (rs_Tunnels rs) = Ok ifaces -> has_iface rs i -> i ∈ ifaces.
Proof.
  intros H (Hne & t & Ht & <-). destruct (traverse_in _ _ _ _ H Ht) as (x & Hx & Hin). apply Hin.
  unfold tunnel_iface in Hx. rewrite bool_decide_false in Hx by done.
  destruct (validIfaceName _); [|done]. injection Hx as <-. by left.
Qed.

Lemma endpoint_listed rs eps tcp ip port :
  traverse tunnel_rules (rs_Tunnels rs) = Ok eps -> has_endpoint rs tcp ip port -> REndpoint tcp ip port ∈ eps.
Proof.
  intros H (Hne & t & ep & Ht & Hep & -> & Hs). destruct (traverse_in _ _ _ _ H Ht) as (x & Hx & Hin). apply Hin.
  unfold tunnel_rules in Hx. destruct (traverse_in _ _ _ _ Hx Hep) as (y & Hy & Hin'). apply Hin'.
  unfold endpoint_rule in Hy.
  assert (match split_host_port ep with Some p => p | None => (ep, "") end = (ip, port)) as Ep
    by (by destruct Hs as [->|(-> & -> & ->)]).
  rewrite Ep, (bool_decide_false _ Hne) in Hy. destruct (ip_valid ip); [|done]. cbn [negb] in Hy.
  case_bool_decide; [subst port|destruct (validatePort port); [|done]]; injection Hy as <-; by left.
Qed.

Lemma lookup_listed rs ls s :
  traverse lookup_rule (rs_DNSLookupServers rs) = Ok ls -> s ∈ rs_DNSLookupServers rs -> RLookup s ∈ ls.
Proof.
  intros H Hs. destruct (traverse_in _ _ _ _ H Hs) as (x & Hx & Hin). apply Hin. unfold lookup_rule in Hx.
  destruct (ip_valid s); [|done]. injection Hx as <-. by left.
Qed.

Lemma dns_listed rs ifaces ls i s :
  traverse (dns_rules ifaces) (rs_DNSServers rs) = Ok ls -> i ∈ ifaces -> s ∈ rs_DNSServers rs -> RDnsServer i s ∈ ls.
Proof.
  intros H Hi Hs. destruct (traverse_in _ _ _ _ H Hs) as (x & Hx & Hin). apply Hin. unfold dns_rules in Hx.
  destruct (ip_valid s); [|done]. injection Hx as <-. apply list_elem_of_fmap. by exists i.
Qed.

Lemma passing_parts rs ifaces lookups passes eps r :
  traverse lookup_rule (rs_DNSLookupServers rs) = Ok lookups -> traverse tunnel_rules (rs_Tunnels rs) = Ok eps ->
  (passes = [] \/ traverse (dns_rules ifaces) (rs_DNSServers rs) = Ok passes) ->
  r ∈ ([RComment; RScrubIn; RScrubOut; RLoopback] ++ lookups ++ passes)
      ++ eps ++ [RDhcp4; RDhcp6; RNeighbour] ++ (RIface <$> ifaces) ->
  action r <> Some false.
Proof.
  intros Hl He Hp Hr. rewrite !elem_of_app in Hr. destruct Hr as [[Hr|[Hr|Hr]]|[Hr|[Hr|Hr]]].
  - by rewrite !elem_of_cons, elem_of_nil in Hr; destruct_or! Hr; subst.
  - by apply (lookups_ok rs _ Hl) in Hr as (s & -> & _).
  - destruct Hp as [->|Hp]; [by apply elem_of_nil in Hr|]. by apply (dns_ok rs _ _ Hp) in Hr as (i & s & -> & _).
  - apply (endpoints_ok rs _ He) in Hr as (_ & _ & ->). done.
  - by rewrite !elem_of_cons, elem_of_nil in Hr; destruct_or! Hr; subst.
  - by apply list_elem_of_fmap in Hr as (i & -> & _).
Qed.

(** With the kill switch: the passes before the DNS block, the passes after it, the final blocks. *)
Lemma rules_of_split rs rules :
  rules_of rs = Ok (Some rules) -> rs_KillSwitch rs = true ->
  exists front mid,
    rules = front ++ (if enforcesDNS rs then [RBlockDns] else []) ++ mid ++ [RBlockOut; RBlockIn]
    /\ (forall r, r ∈ front ++ mid -> action r <> Some false)
    /\ forall r, permits rs r -> r ∈ (if dns_line r then front else mid).
Proof.
  unfold rules_of. intros H Hk. rewrite Hk in H. cbn [negb andb] in H.
  apply result_bind_ok in H as (ifaces & Hi & H). apply result_bind_ok in H as (lookups & Hl & H).
  apply result_bind_ok in H as (dnsPart & Hd & H). apply result_bind_ok in H as (eps & He & [= <-]).
  assert (exists passes, dnsPart = passes ++ (if enforcesDNS rs then [RBlockDns] else [])
    /\ if enforcesDNS rs then traverse (dns_rules ifaces) (rs_DNSServers rs) = Ok passes else passes = [])
    as (passes & -> & Hp).
  { destruct (enforcesDNS rs); [|injection Hd as <-; by exists []].
    apply result_bind_ok in Hd as (passes & Hp & [= <-]). by exists passes. }
  exists ([RComment; RScrubIn; RScrubOut; RLoopback] ++ lookups ++ passes),
    (eps ++ [RDhcp4; RDhcp6; RNeighbour] ++ (RIface <$> ifaces)).
  split; [by rewrite <- !app_assoc|]. split; [intros r; apply (passing_parts rs ifaces); [done..|destruct (enforcesDNS rs); auto]|]. intros r Hr.
  destruct r as [| | | |s|i s| |tcp ip port| | | |i| |]; cbn [permits dns_line] in *; try done; rewrite !elem_of_app.
  - left. repeat (first [by left|right]).
  - right. left. by apply (lookup_listed rs).
  - destruct Hr as (Hen & Hif & Hs). right. right.
    rewrite Hen in Hp. by apply (dns_listed rs ifaces); [|apply (iface_listed rs)|].
  - left. by apply (endpoint_listed rs).
  - right. left. by left.
  - right. left. right. by left.
  - right. left. right. right. by left.
  - right. right. apply list_elem_of_fmap. exists i. split; [done|by apply (iface_listed rs)].
Qed.

(** ** Words of a line *)

(** The words pf reads in a line, whatever the strings in it are made of. *)
Definition words (r : Rule) : list string :=
  match r with
  | RComment => ["#"; "LockPlus"]
  | RScrubIn => ["scrub"; "in"; "all"; "fragment"; "reassemble"]
  | RScrubOut => ["scrub"; "out"; "all"; "fragment"; "reassemble"]
  | RLoopback => ["pass"; "quick"; "on"; "lo0"; "all"]
  | RLookup s => ["pass"; "out"; "quick"; "proto"; "{tcp,"; "udp}"; "to"; s; "port"; "53"; "flags"; "any"]
  | RDnsServer i s =>
      ["pass"; "out"; "quick"; "on"; i; "proto"; "{tcp,"; "udp}"; "to"; s; "port"; "53"; "flags"; "any"]
  | RBlockDns => ["block"; "drop"; "out"; "quick"; "proto"; "{tcp,"; "udp}"; "to"; "any"; "port"; "53"]
  | REndpoint tcp ip port =>
      ["pass"; "out"; "quick"; "proto"; if tcp then "tcp" else "udp"; "to"; ip]
      ++ (if port =s "" then [] else ["port"; port]) ++ (if tcp then ["flags"; "any"] else [])
  | RDhcp4 => ["pass"; "out"; "quick"; "proto"; "udp"; "from"; "any"; "port"; "68"; "to"; "any"; "port"; "67"]
  | RDhcp6 => ["pass"; "out"; "quick"; "proto"; "udp"; "from"; "any"; "port"; "546"; "to"; "any"; "port"; "547"]
  | RNeighbour => ["pass"; "quick"; "inet6"; "proto"; "ipv6-icmp"; "icmp6-type"; "{133,"; "134,"; "135,"; "136}"]
  | RIface i => ["pass"; "quick"; "on"; i; "all"]
  | RBlockOut => ["block"; "drop"; "out"; "all"]
  | RBlockIn => ["block"; "drop"; "in"; "all"]
  end.

Definition word (w : string) : bool := string_forall solid w && negb (w =s "").

Lemma render_words r : render r = join " " (words r).
Proof.
  destruct r as [| | | |s|i s| |tcp ip port| | | |i| |]; try reflexivity.
  cbn [render words]. destruct tcp; case_bool_decide; cbn [app];
    rewrite ?string_app_nil_r; reflexivity.
Qed.

(** Multi-byte white space starts with a byte that is not solid. *)
Lemma fields_go_solid w : forall cur rest,
  string_forall solid w = true ->
  fields_go cur (bytes_of w ++ rest) = fields_go (rev (bytes_of w) ++ cur) rest.
Proof.
  induction w as [|c w IH]; intros cur rest H; [done|]. cbn [string_forall] in H.
  apply andb_prop in H as [Hc H]. cbn [String.list_ascii_of_string app rev]. rewrite <- app_assoc.
  cbn [app]. rewrite <- (IH (c :: cur) rest H).
  unfold solid in Hc. apply andb_prop in Hc as [H7 Hs%negb_true_iff].
  assert (H2 : forall d, space2 c d = false).
  { intros d. apply (space2_ascii false c d H7). }
  assert (H3 : forall d e, space3 c d e = false).
  { intros d e. apply (space3_ascii c d e H7). }
  cbn [fields_go]. rewrite Hs. destruct (bytes_of w ++ rest) as [|d [|e r]]; [done| |].
  - by rewrite H2.
  - by rewrite H2, H3.
Qed.

Lemma flush_rev w : word w = true -> flush_field (rev (bytes_of w)) = [w].
Proof.
  unfold word. intros [_ Hne]%andb_prop. bool_hyps. unfold flush_field.
  destruct (rev (bytes_of w)) eqn:E.
  - exfalso. apply (f_equal (@rev ascii)) in E. rewrite rev_involutive in E. cbn in E.
    apply Hne. by destruct w.
  - rewrite <- E, rev_involutive. by rewrite string_of_bytes.
Qed.

Lemma fields_words ws : forallb word ws = true -> fields (join " " ws) = ws.
Proof.
  unfold fields. induction ws as [|w ws IH]; intros H; [done|]. cbn [forallb] in H.
  apply andb_prop in H as [Hw H]. pose proof Hw as [Hs _]%andb_prop. destruct ws as [|v ws].
  - change (join " " [w]) with w. rewrite <- (app_nil_r (bytes_of w)), fields_go_solid by done.
    rewrite app_nil_r. cbn [fields_go]. by apply flush_rev.
  - rewrite join_cons, !bytes_of_app, fields_go_solid by done. rewrite app_nil_r.
    change (bytes_of " ") with [" "%char]. cbn [app].
    assert (E : forall cur rest, fields_go cur (" "%char :: rest) = flush_field cur ++ fields_go [] rest)
      by done.
    rewrite E, flush_rev, IH by done. done.
Qed.

(** No string of a checked rule holds white space, a newline or nothing at all. *)
Lemma plain_word s : string_forall plain s = true -> s <> "" -> word s = true.
Proof.
  intros H Hne. unfold word. apply andb_true_intro. split.
  - revert H. apply string_forall_impl. intros c Hc. unfold plain in Hc. by and_hyps.
  - by apply negb_true_iff, bool_decide_eq_false.
Qed.

Lemma ip_word s : ip_valid s = true -> word s = true.
Proof.
  intros H. apply plain_word; [by apply ip_plain|]. intros ->. by vm_compute in H.
Qed.

Lemma lower_plain c : lower_letter c = true -> plain c = true.
Proof. revert c. all_bytes. Qed.

Lemma digit_char_plain c : digit_char c = true -> plain c = true.
Proof. revert c. all_bytes. Qed.

Lemma iface_word i : validIfaceName i = true -> word i = true.
Proof.
  intros H. apply plain_word; [|by intros ->]. destruct i as [|c i]; [done|].
  cbn [validIfaceName] in H. apply andb_prop in H as [Hc H]. cbn [string_forall].
  rewrite (lower_plain _ Hc). cbn [andb]. clear c Hc. induction i as [|c i IH]; [done|].
  cbn [iface_tail string_forall] in *. destruct i as [|d i].
  - by rewrite digit_char_plain.
  - destruct (digit_char c) eqn:Ed.
    + rewrite (digit_char_plain _ Ed). cbn [andb].
      revert H. apply string_forall_impl, digit_char_plain.
    + apply andb_prop in H as [Hc H]. rewrite (lower_plain _ Hc). by apply IH.
Qed.

Lemma port_word p : validatePort p = true -> word p = true.
Proof.
  unfold validatePort. intros H. destruct (atoi p) as [n|] eqn:E; [|done].
  apply plain_word; [by eapply parse_int_plain|]. by intros ->.
Qed.

Lemma checked_words r : checked_rule r = true -> forallb word (words r) = true.
Proof.
  destruct r as [| | | |s|i s| |tcp ip port| | | |i| |]; cbn [checked_rule]; intros H; try reflexivity.
  - cbn [words forallb]. by rewrite (ip_word s H).
  - apply andb_prop in H as [H1 H2]. cbn [words forallb]. by rewrite (ip_word s H2), (iface_word i H1).
  - apply andb_prop in H as [H1 H2]. cbn [words]. rewrite !forallb_app. cbn [forallb].
    rewrite (ip_word ip H1). destruct (decide (port = "")) as [->|Hp].
    + rewrite bool_decide_true by done. by destruct tcp.
    + rewrite bool_decide_false in H2 |- * by done. cbn [orb] in H2. cbn [forallb].
      rewrite (port_word port H2). by destruct tcp.
  - cbn [words forallb]. by rewrite (iface_word i H).
Qed.

Lemma word_no_newline w : word w = true -> contains_byte newline w = false.
Proof. intros [H _]%andb_prop. by apply (string_forall_contains solid). Qed.

Lemma render_no_newline r : checked_rule r = true -> contains_byte newline (render r) = false.
Proof.
  intros H%checked_words. rewrite render_words. apply join_contains; [done|]. intros p Hp.
  rewrite forallb_true_iff in H. by apply word_no_newline, H.
Qed.

Lemma render_all_lines rules :
  (forall r, r ∈ rules -> checked_rule r = true) ->
  split_byte newline (render_all rules) = (render <$> rules) ++ [""].
Proof.
  unfold render_all. induction rules as [|r rules IH]; intros H; [done|].
  assert (Hc : forall u v, String.concat "" (u :: v) = u +:+ String.concat "" v).
  { intros u [|w v]; [by rewrite string_app_nil_r|done]. }
  rewrite fmap_cons, Hc, string_app_assoc.
  change (String newline "" +:+ ?x) with (String newline x).
  rewrite split_byte_app by (apply render_no_newline, H; by left).
  rewrite IH by (intros x Hx; apply H; by right). done.
Qed.

Lemma rules_checked rs rules :
  rules_of rs = Ok (Some rules) -> forall r, r ∈ rules -> checked_rule r = true.
Proof.
  intros (head & lookups & dnsPart & rest & -> & Hh & Hl & Hd & Hr)%rules_of_parts r Hin.
  rewrite !elem_of_app in Hin. destruct Hin as [Hin|[Hin|[Hin|Hin]]].
  - destruct (Hh _ Hin) as [->|Ha]; [done|]. by destruct r.
  - by apply Hl in Hin as (s & -> & _ & Hv).
  - destruct (enforcesDNS rs); [|subst; by apply elem_of_nil in Hin].
    destruct Hd as (passes & -> & Hp). apply elem_of_app in Hin as [Hin|Hin].
    + apply Hp in Hin as (i & s & -> & _ & Hi & _ & Hs). cbn. by rewrite Hi, Hs.
    + by apply list_elem_of_singleton in Hin as ->.
  - destruct (rs_KillSwitch rs); [|subst; by apply elem_of_nil in Hin].
    destruct Hr as (pre & -> & Hp). apply elem_of_app in Hin as [Hin|Hin]; [by apply Hp in Hin as [? _]|].
    repeat rewrite elem_of_cons in Hin. rewrite elem_of_nil in Hin.
    by repeat destruct Hin as [->|Hin].
Qed.

(** C10: whatever strings a ruleset holds (interface names, endpoints, resolvers, from imported
    profiles and pushed options), the text built from it consists of exactly the intended lines,
    and each line of exactly the intended words: no string can add a rule, a line or an option. *)
Theorem BuildRules_no_injection (rs : Ruleset) (text : string) :
  BuildRules rs = Ok text ->
  text = "" \/ exists rules, rules_of rs = Ok (Some rules)
    /\ split_byte newline text = (render <$> rules) ++ [""]
    /\ fields <$> (render <$> rules) = words <$> rules.
Proof.
  unfold BuildRules. intros ([rules|] & Hr & [= <-])%result_bind_ok; [right|by left].
  exists rules. split; [done|]. pose proof (rules_checked _ _ Hr) as Hc.
  split; [by apply render_all_lines|]. rewrite <- list_fmap_compose. apply list_fmap_ext.
  intros i r Hi%list_elem_of_lookup_2. cbn. rewrite render_words, fields_words; [done|].
  by apply checked_words, Hc.
Qed.

Definition sample_ruleset : Ruleset :=
  MkRuleset true [MkKs "utun4" "udp" ["198.51.100.7:51820"; "[2001:db8::7]:51820"];
                  MkKs "" "udp" ["203.0.113.9:51821"]] true ["10.0.0.1"] ["192.168.1.1"; "fe80::1"].

Lemma BuildRules_no_injection_witness :
  exists text, BuildRules sample_ruleset = Ok text /\
    (text = "" \/ exists rules, rules_of sample_ruleset = Ok (Some rules)
       /\ split_byte newline text = (render <$> rules) ++ [""]
       /\ fields <$> (render <$> rules) = words <$> rules).
Proof.
  destruct (BuildRules sample_ruleset) as [text|e] eqn:E; [|exfalso; vm_compute in E; discriminate].
  exists text. split; [reflexivity|]. exact (BuildRules_no_injection sample_ruleset text E).
Defined.

(** ** What pf lets through *)

Definition quick (r : Rule) : bool :=
  match r with RBlockOut | RBlockIn => false | _ => true end.

Section Pf.
(** Packets, and which of them a line of the ruleset matches. *)
Context {packet : Type} (matches : Rule -> packet -> bool).

(** pf evaluates the lines in order: a matching quick line decides, otherwise the last matching
    line does; [true] is pass.  Scrub and comment lines decide nothing. *)
Fixpoint pf_passes (rules : list Rule) (verdict : bool) (p : packet) : bool :=
  match rules with
  | [] => verdict
  | r :: rules' =>
      match action r with
      | Some v => if matches r p then if quick r then v else pf_passes rules' v p
                  else pf_passes rules' verdict p
      | None => pf_passes rules' verdict p
      end
  end.

(** A packet that some quick pass lines match, or that the rest decides. *)
Lemma pf_passes_app u v b p :
  (forall r, r ∈ u -> action r = None \/ action r = Some true /\ quick r = true) ->
  pf_passes (u ++ v) b p = true ->
  (exists r, r ∈ u /\ action r = Some true /\ matches r p = true) \/ pf_passes v b p = true.
Proof.
  induction u as [|r u IH]; intros Hu H; [by right|]. cbn [app pf_passes] in H.
  assert (Hu' : forall q, q ∈ u -> action q = None \/ action q = Some true /\ quick q = true)
    by (intros q Hq; apply Hu; by right).
  assert (Hrec : pf_passes (u ++ v) b p = true ->
     (exists q, q ∈ r :: u /\ action q = Some true /\ matches q p = true) \/ pf_passes v b p = true).
  { intros [(q & Hq & Hm)|?]%IH; [left; exists q; split; [by right|done]|by right|done]. }
  destruct (Hu r ltac:(by left)) as [Ha|[Ha Hq]]; rewrite Ha in H; [by apply Hrec|].
  destruct (matches r p) eqn:Em; [|by apply Hrec]. left. exists r. split; [by left|done].
Qed.

Lemma pf_blocked b p :
  matches RBlockOut p || matches RBlockIn p = true -> pf_passes [RBlockOut; RBlockIn] b p = false.
Proof. cbn. destruct (matches RBlockOut p), (matches RBlockIn p); done. Qed.
End Pf.

Lemma passing_quick r : action r = Some true -> quick r = true.
Proof. by destruct r. Qed.

(** Lines that decide nothing or are permitted, in front of the rest. *)
Lemma permitted_part {packet} (matches : Rule -> packet -> bool) rs u v p :
  pf_passes matches (u ++ v) true p = true ->
  (forall r, r ∈ u -> action r = None \/ permits rs r /\ action r = Some true) ->
  (exists r, r ∈ u /\ permits rs r /\ matches r p = true) \/ pf_passes matches v true p = true.
Proof.
  intros H Hu. apply pf_passes_app in H as [(r & Hin & Ha & Hm)|?]; [|by right|].
  - left. exists r. split; [done|]. destruct (Hu r Hin) as [?|[? _]]; [congruence|done].
  - intros r Hin. destruct (Hu r Hin) as [?|[_ Ha]]; [by left|right]. by split; [|apply passing_quick].
Qed.

Lemma only_permitted {packet} (matches : Rule -> packet -> bool) (rs : Ruleset)
    (rules : list Rule) (p : packet) :
  rules_of rs = Ok (Some rules) -> rs_KillSwitch rs = true ->
  matches RBlockOut p || matches RBlockIn p = true ->
  pf_passes matches rules true p = true ->
  exists r, r ∈ rules /\ permits rs r /\ matches r p = true.
Proof.
  intros (head & lookups & dnsPart & rest & -> & Hh & Hl & Hd & Hr)%rules_of_parts Hks Hb H.
  rewrite Hks in Hr. destruct Hr as (pre & -> & Hp).
  apply (permitted_part _ rs) in H;
    [|intros r Hin; destruct (Hh _ Hin) as [->|?]; [by right|by left]].
  destruct H as [(r & ? & ?)|H]; [exists r; rewrite !elem_of_app; tauto|].
  apply (permitted_part _ rs) in H; [|intros r Hin; apply Hl in Hin as (s & -> & Hs & _); by right].
  destruct H as [(r & ? & ?)|H]; [exists r; rewrite !elem_of_app; tauto|].
  assert (H' : (exists r, r ∈ dnsPart /\ permits rs r /\ matches r p = true)
               \/ pf_passes matches (pre ++ [RBlockOut; RBlockIn]) true p = true).
  { destruct (enforcesDNS rs) eqn:Ee; [|subst dnsPart; by right].
    destruct Hd as (passes & -> & Hps). rewrite <- app_assoc in H.
    apply (permitted_part _ rs) in H.
    - destruct H as [(r & Hin & ?)|H]; [left; exists r; rewrite elem_of_app; split; [by left|done]|].
      cbn in H. destruct (matches RBlockDns p); [done|]. by right.
    - intros r Hin. apply Hps in Hin as (i & s & -> & Hi & _ & Hs & _). right. by split. }
  destruct H' as [(r & ? & ?)|H2]; [exists r; rewrite !elem_of_app; tauto|].
  apply (permitted_part _ rs) in H2; [|intros r Hin; apply Hp in Hin as (_ & ? & ?); by right].
  destruct H2 as [(r & ? & ?)|H2]; [exists r; rewrite !elem_of_app; tauto|].
  by rewrite pf_blocked in H2.
Qed.

(** Passes ahead of the rest of the lines do not stop what the rest passes. *)
Lemma passes_ahead {packet} (matches : Rule -> packet -> bool) u v p :
  (forall r, r ∈ u -> action r <> Some false) ->
  (exists r, r ∈ u /\ action r = Some true /\ matches r p = true) \/ (forall b, pf_passes matches v b p = true) ->
  forall b, pf_passes matches (u ++ v) b p = true.
Proof.
  induction u as [|q u IH]; intros Hu H b.
  { destruct H as [(r & Hr & _)|H]; [by apply elem_of_nil in Hr|apply H]. }
  assert (forall r, r ∈ u -> action r <> Some false) as Hu' by (intros r Hr; apply Hu; by right).
  pose proof (Hu q ltac:(by left)) as Hq. cbn [app pf_passes].
  destruct (action q) as [[|]|] eqn:Ea; [|done|].
  - rewrite (passing_quick q Ea). destruct (matches q p) eqn:Em; [done|]. apply IH; [done|].
    destruct H as [(r & [->|Hr]%elem_of_cons & Ha & Hm)|H]; [congruence|left; by exists r|by right].
  - apply IH; [done|]. destruct H as [(r & [->|Hr]%elem_of_cons & Ha & Hm)|H]; [congruence|left; by exists r|by right].
Qed.

Lemma permits_action rs r : permits rs r -> action r = Some true.
Proof. by destruct r. Qed.

Lemma dns_only {packet} (matches : Rule -> packet -> bool) (rs : Ruleset) (rules : list Rule)
    (p : packet) :
  rules_of rs = Ok (Some rules) -> enforcesDNS rs = true -> matches RBlockDns p = true ->
  pf_passes matches rules true p = true ->
  matches RLoopback p = true
  \/ (exists s, s ∈ rs_DNSLookupServers rs /\ matches (RLookup s) p = true)
  \/ exists i s, has_iface rs i /\ s ∈ rs_DNSServers rs /\ matches (RDnsServer i s) p = true.
Proof.
  intros (head & lookups & dnsPart & rest & -> & Hh & Hl & Hd & _)%rules_of_parts He Hb H.
  rewrite He in Hd. destruct Hd as (passes & -> & Hps). rewrite <- app_assoc in H.
  apply pf_passes_app in H; [|intros r Hin; destruct (Hh _ Hin) as [->|?]; [by right|by left]].
  destruct H as [(r & Hin & Ha & Hm)|H].
  { left. destruct (Hh _ Hin) as [->|?]; [done|congruence]. }
  apply pf_passes_app in H; [|intros r Hin; apply Hl in Hin as (s & -> & _); by right].
  destruct H as [(r & Hin & Ha & Hm)|H].
  { right; left. apply Hl in Hin as (s & -> & Hs & _). by exists s. }
  apply pf_passes_app in H; [|intros r Hin; apply Hps in Hin as (i & s & -> & _); by right].
  destruct H as [(r & Hin & Ha & Hm)|H].
  { right; right. apply Hps in Hin as (i & s & -> & Hi & _ & Hs & _). by exists i, s. }
  cbn in H. by rewrite Hb in H.
Qed.

Lemma passes_permitted {packet} (matches : Rule -> packet -> bool) (rs : Ruleset)
    (rules : list Rule) (p : packet) :
  rules_of rs = Ok (Some rules) -> rs_KillSwitch rs = true ->
  matches RBlockOut p || matches RBlockIn p = true ->
  pf_passes matches rules true p = true <->
  exists r, permits rs r /\ matches r p = true
    /\ (enforcesDNS rs = true -> matches RBlockDns p = true -> dns_line r = true).
Proof.
  intros Hr Hk Hb. pose proof (rules_of_split _ _ Hr Hk) as (front & mid & -> & Hact & Hin). split.
  - intros Hpass. destruct (enforcesDNS rs && matches RBlockDns p) eqn:E.
    + apply andb_prop in E as [He Hd]. destruct (dns_only matches rs _ p Hr He Hd Hpass) as [?|[(s & ?)|(i & s & ? & ?)]].
      * by exists RLoopback.
      * exists (RLookup s). by destruct_and?.
      * exists (RDnsServer i s). by destruct_and?.
    + destruct (only_permitted matches rs _ p Hr Hk Hb Hpass) as (r & _ & Hp & Hm). exists r. split; [done|]. split; [done|].
      intros He Hd. by rewrite He, Hd in E.
  - intros (r & Hp & Hm & Hd). pose proof (Hin r Hp) as Hr'. pose proof (permits_action _ _ Hp) as Ha.
    assert (forall b, pf_passes matches (mid ++ [RBlockOut; RBlockIn]) b p = true \/ dns_line r = true) as Hmid.
    { intros b. destruct (dns_line r); [by right|left]. apply passes_ahead; [|left; by exists r].
      intros q Hq. apply Hact, elem_of_app. by right. }
    apply passes_ahead; [intros q Hq; apply Hact, elem_of_app; by left|].
    destruct (dns_line r) eqn:Ed; [left; by exists r|right]. intros b.
    destruct (enforcesDNS rs); [|by destruct (Hmid b)]. cbn.
    destruct (matches RBlockDns p); [by specialize (Hd eq_refl eq_refl)|by destruct (Hmid b)].
Qed.

(** C3: the kill switch passes exactly what its ruleset asks for: a packet that the two final block lines cover
    (any traffic in or out) passes if and only if it matches a line for loopback, DHCP or neighbour discovery, for
    an interface or an endpoint of one of the ruleset's tunnels, or for a resolver the ruleset names; and where DNS
    protection is enforced, a packet to port 53 only if that line is one for loopback or a resolver. *)
Theorem kill_switch_exact {packet} (matches : Rule -> packet -> bool) (rs : Ruleset)
    (rules : list Rule) (p : packet) :
  rules_of rs = Ok (Some rules) -> rs_KillSwitch rs = true ->
  matches RBlockOut p || matches RBlockIn p = true ->
  pf_passes matches rules true p = true <->
  exists r, permits rs r /\ matches r p = true
    /\ (enforcesDNS rs = true -> matches RBlockDns p = true -> dns_line r = true).
Proof. apply passes_permitted. Qed.

(** The tunnel's own traffic (packet 0) passes, and its server's (packet 1); the rest (packet 2) does not. *)
Definition sample_matches (r : Rule) (p : nat) : bool :=
  match r with
  | RBlockOut | RBlockIn => true
  | RIface i => (p =? 0)%nat && (i =s "utun4")
  | REndpoint _ ip _ => (p =? 1)%nat && (ip =s "198.51.100.7")
  | _ => false
  end.

Lemma kill_switch_exact_witness :
  exists rules, rules_of sample_ruleset = Ok (Some rules)
  /\ pf_passes sample_matches rules true 0 = true /\ pf_passes sample_matches rules true 1 = true
  /\ ~ exists r, permits sample_ruleset r /\ sample_matches r 2 = true
         /\ (enforcesDNS sample_ruleset = true -> sample_matches RBlockDns 2 = true -> dns_line r = true).
Proof.
  destruct (rules_of sample_ruleset) as [[rules|]|] eqn:E; [|exfalso; vm_compute in E; discriminate..].
  pose proof (fun p => kill_switch_exact sample_matches sample_ruleset rules p E eq_refl eq_refl) as H.
  exists rules. split; [reflexivity|].
  split; [|split].
  - apply H. exists (RIface "utun4"). repeat split; [discriminate| |discriminate].
    eexists; split; [left|reflexivity].
  - apply H. exists (REndpoint false "198.51.100.7" "51820"). repeat split; [discriminate| |discriminate].
    eexists _, "198.51.100.7:51820". split; [left|]. split; [left|]. split; [reflexivity|]. left. vm_compute. reflexivity.
  - rewrite <- H. intros Hp. vm_compute in E. injection E as <-. vm_compute in Hp. discriminate.
Defined.

(** C18: while DNS protection is enforced, a packet to port 53 (one the DNS block line covers)
    passes only on loopback, to one of the lookup resolvers, or through a tunnel interface to one
    of the ruleset's DNS servers; with no servers and no lookups, not at all.  The kill switch's
    own pass lines, which come later, cannot let it through. *)
Theorem dns_closed {packet} (matches : Rule -> packet -> bool) (rs : Ruleset) (rules : list Rule)
    (p : packet) :
  rules_of rs = Ok (Some rules) -> enforcesDNS rs = true -> matches RBlockDns p = true ->
  pf_passes matches rules true p = true ->
  matches RLoopback p = true
  \/ (exists s, s ∈ rs_DNSLookupServers rs /\ matches (RLookup s) p = true)
  \/ exists i s, has_iface rs i /\ s ∈ rs_DNSServers rs /\ matches (RDnsServer i s) p = true.
Proof. apply dns_only. Qed.

Lemma dns_closed_witness :
  let matches := fun r (p : nat) => bool_decide (r = RBlockDns) || bool_decide (r = RLookup "fe80::1") in
  exists rules, rules_of sample_ruleset = Ok (Some rules) /\ pf_passes matches rules true 0 = true /\
    (matches RLoopback 0%nat = true
     \/ (exists s, s ∈ rs_DNSLookupServers sample_ruleset /\ matches (RLookup s) 0%nat = true)
     \/ exists i s, has_iface sample_ruleset i /\ s ∈ rs_DNSServers sample_ruleset
                    /\ matches (RDnsServer i s) 0%nat = true).
Proof.
  intros matches.
  destruct (rules_of sample_ruleset) as [[rules|]|] eqn:E; [|exfalso; vm_compute in E; discriminate..].
  assert (Hp : pf_passes matches rules true 0 = true).
  { vm_compute in E. injection E as <-. vm_compute. reflexivity. }
  exists rules. split; [reflexivity|]. split; [exact Hp|].
  exact (dns_closed matches sample_ruleset rules 0%nat E eq_refl eq_refl Hp).
Defined.
