(* ===== verification/Pf.v ===== *)
(** * Loading the ruleset: internal/firewall/darwin.go

    pfctl and the state file are the host; an operation takes the outcomes of the commands it may
    run and returns every state the host passes through, so that a crash can strike between any
    two.  [pf_restored] shows that pf ends as it was found whether the helper shuts down or
    crashes. *)

From S2P Require Import Prelude GoStrings Firewall.

(** The host: the rules loaded in the anchor, whether pf is on, and the file that records
    whether it was on before. *)
Record PfHost := MkHostPf { h_anchor : option string; h_on : bool; h_file : option bool }.

#[export] Instance eta_host : Eta PfHost := fun r => MkHostPf (h_anchor r) (h_on r) (h_file r).

Record DarwinFirewall := MkFw { fw_active : bool; fw_pfWasEnabled : bool }.

Definition new_firewall : DarwinFirewall := MkFw false false.

(** Which commands of an operation succeed. *)
Record Outcomes := MkOutcomes {
  o_status : bool;    (** pfctl -si *)
  o_persist : bool;   (** writing the state file *)
  o_load : bool;      (** pfctl -f *)
  o_enable : bool;    (** pfctl -e, "already enabled" counting as success *)
  o_flush : bool;     (** pfctl -Fa on our anchor *)
  o_disable : bool;   (** pfctl -d, "already disabled" counting as success *)
  o_remove : bool     (** removing the state file *)
}.

Inductive ApplyError := BuildFailed (e : RuleError) | LoadFailed | EnableFailed.

Definition isPfEnabled (o : Outcomes) (h : PfHost) : bool := o_status o && h_on h.

Definition persistPfEnabledState (o : Outcomes) (b : bool) (h : PfHost) : PfHost :=
  if o_persist o then h <| h_file := Some b |> else h.

Definition loadAnchorRules (o : Outcomes) (rules : string) (h : PfHost) : PfHost :=
  if o_load o then h <| h_anchor := Some rules |> else h.

Definition enablePf (o : Outcomes) (h : PfHost) : PfHost := if o_enable o then h <| h_on := true |> else h.
Definition disablePf (o : Outcomes) (h : PfHost) : PfHost := if o_disable o then h <| h_on := false |> else h.
Definition flushAllAnchors (o : Outcomes) (h : PfHost) : PfHost :=
  if o_flush o then h <| h_anchor := None |> else h.
Definition removePfStateFile (o : Outcomes) (h : PfHost) : PfHost :=
  if o_remove o then h <| h_file := None |> else h.

(** The states passed through, the first one included, oldest first. *)
Fixpoint run_host (steps : list (PfHost -> PfHost)) (h : PfHost) : list PfHost :=
  match steps with
  | [] => [h]
  | s :: steps' => h :: run_host steps' (s h)
  end.

Definition final (hs : list PfHost) (h : PfHost) : PfHost := default h (last hs).

Definition teardownLocked (o : Outcomes) (f : DarwinFirewall) (h : PfHost)
    : DarwinFirewall * list PfHost :=
  if negb (fw_active f) then (f, [h])
  else (MkFw false (fw_pfWasEnabled f),
        run_host ([flushAllAnchors o] ++ (if negb (fw_pfWasEnabled f) then [disablePf o] else [])
                  ++ [removePfStateFile o]) h).

Definition Apply (o : Outcomes) (rs : Ruleset) (f : DarwinFirewall) (h : PfHost)
    : option ApplyError * DarwinFirewall * list PfHost :=
  match BuildRules rs with
  | Err e => (Some (BuildFailed e), f, [h])
  | Ok rules =>
      if rules =s "" then let '(f', hs) := teardownLocked o f h in (None, f', hs)
      else
        let firstUse := negb (fw_active f) in
        let f1 := if firstUse then MkFw (fw_active f) (isPfEnabled o h) else f in
        let persist := if firstUse then [persistPfEnabledState o (fw_pfWasEnabled f1)] else [] in
        if negb (o_load o) then
          (Some LoadFailed, f1,
           run_host (persist ++ [loadAnchorRules o rules]
                     ++ (if firstUse then [removePfStateFile o] else [])) h)
        else
          let f2 := MkFw true (fw_pfWasEnabled f1) in
          (if o_enable o then None else Some EnableFailed, f2,
           run_host (persist ++ [loadAnchorRules o rules; enablePf o]) h)
  end.

Definition Cleanup (o : Outcomes) (f : DarwinFirewall) (h : PfHost) : DarwinFirewall * list PfHost :=
  teardownLocked o f h.

(** At the next start. *)
Definition RecoverStaleState (o : Outcomes) (h : PfHost) : PfHost :=
  let h1 := flushAllAnchors o h in
  match h_file h1 with
  | None => h1
  | Some was_on => removePfStateFile o (if negb was_on then disablePf o h1 else h1)
  end.

(** ** Histories *)

(** The commands whose failure the source only logs succeed; loading and enabling may fail. *)
Definition reliable (o : Outcomes) : bool :=
  o_status o && o_persist o && o_flush o && o_disable o && o_remove o.

(** What a running helper and its host can come to from a host [h0] without our rules. *)
Inductive history (h0 : PfHost) : DarwinFirewall -> PfHost -> Prop :=
| hist_start : history h0 new_firewall h0
| hist_apply f h o rs r f' hs :
    history h0 f h -> reliable o = true -> Apply o rs f h = (r, f', hs) ->
    history h0 f' (final hs h)
| hist_cleanup f h o f' hs :
    history h0 f h -> reliable o = true -> Cleanup o f h = (f', hs) -> history h0 f' (final hs h).

(** A crash strikes at a state the host passes through. *)
Inductive crashed (h0 : PfHost) : PfHost -> Prop :=
| crash_apply f h o rs r f' hs h' :
    history h0 f h -> reliable o = true -> Apply o rs f h = (r, f', hs) -> h' ∈ hs -> crashed h0 h'
| crash_cleanup f h o f' hs h' :
    history h0 f h -> reliable o = true -> Cleanup o f h = (f', hs) -> h' ∈ hs -> crashed h0 h'.

(** The rules are ours to remove, and pf is as it was or on with a record of what it was. *)
Definition recoverable (h0 h : PfHost) : Prop :=
  h_file h = None /\ h_on h = h_on h0
  \/ h_file h = Some (h_on h0) /\ (h_on h0 = true -> h_on h = true).

Definition hist_ok (h0 : PfHost) (f : DarwinFirewall) (h : PfHost) : Prop :=
  if fw_active f
  then fw_pfWasEnabled f = h_on h0 /\ h_file h = Some (h_on h0) /\ (h_on h0 = true -> h_on h = true)
  else h_anchor h = None /\ h_file h = None /\ h_on h = h_on h0.

Lemma teardown_ok h0 o f h f' hs :
  hist_ok h0 f h -> reliable o = true -> teardownLocked o f h = (f', hs) ->
  hist_ok h0 f' (final hs h) /\ fw_active f' = false /\ forall h', h' ∈ hs -> recoverable h0 h'.
Proof.
  unfold teardownLocked, hist_ok, reliable. intros Hok Ho H. bool_hyps.
  destruct f as [act was], h as [an on fl], h0 as [an0 on0 fl0]. cbn in *.
  unfold recoverable, final, flushAllAnchors, disablePf, removePfStateFile in *.
  destruct act; cbn in *.
  - destruct Hok as (-> & -> & Hon). destruct on0; cbn in *; injection H as <- <-; cbn;
      repeat match goal with E : o_flush o = _ |- _ => rewrite E | E : o_disable o = _ |- _ => rewrite E
        | E : o_remove o = _ |- _ => rewrite E end; cbn;
      (split; [auto|split; [done|]]); intros h' Hin; repeat rewrite elem_of_cons in Hin;
      rewrite elem_of_nil in Hin; repeat destruct Hin as [->|Hin]; cbn; auto; done.
  - injection H as <- <-. split; [done|]. split; [done|].
    intros h' ->%list_elem_of_singleton. cbn. tauto.
Qed.

Lemma apply_ok h0 o rs f h r f' hs :
  hist_ok h0 f h -> reliable o = true -> Apply o rs f h = (r, f', hs) ->
  hist_ok h0 f' (final hs h) /\ forall h', h' ∈ hs -> recoverable h0 h'.
Proof.
  intros Hok Ho H. unfold Apply in H.
  assert (Hrec : recoverable h0 h).
  { unfold hist_ok, recoverable in *. destruct (fw_active f); tauto. }
  destruct (BuildRules rs) as [rules|e].
  2: { injection H as <- <- <-. split; [done|]. by intros h' ->%list_elem_of_singleton. }
  case_bool_decide.
  { destruct (teardownLocked o f h) as [f1 hs1] eqn:E. injection H as <- <- <-.
    destruct (teardown_ok _ _ _ _ _ _ Hok Ho E) as (? & _ & ?). done. }
  unfold reliable in Ho. bool_hyps. unfold hist_ok, recoverable, final in *.
  destruct f as [act was], h as [an on fl], h0 as [an0 on0 fl0]. cbn in *.
  unfold isPfEnabled, persistPfEnabledState, loadAnchorRules, enablePf, removePfStateFile in *.
  destruct act; cbn in *; destruct (o_load o), (o_enable o); cbn in *; injection H as <- <- <-; cbn in *;
    repeat match goal with E : o_status o = _ |- _ => rewrite E | E : o_persist o = _ |- _ => rewrite E
        | E : o_remove o = _ |- _ => rewrite E end; cbn in *;
    destruct_and?; subst; (split; [auto|]); intros h' Hin; repeat rewrite elem_of_cons in Hin;
      rewrite elem_of_nil in Hin; repeat destruct Hin as [->|Hin]; cbn; auto; done.
Qed.

Lemma history_ok h0 f h : h_anchor h0 = None -> h_file h0 = None -> history h0 f h -> hist_ok h0 f h.
Proof.
  intros Ha Hf. induction 1 as [|f h o rs r f' hs _ IH Ho Hr|f h o f' hs _ IH Ho Hr]; [done| |].
  - by apply (apply_ok h0 o rs f h r).
  - by apply (teardown_ok h0 o f h).
Qed.

(** What a crash of a helper leaves can be put right. *)
Lemma crashed_recoverable h0 h : h_anchor h0 = None -> h_file h0 = None -> crashed h0 h -> recoverable h0 h.
Proof.
  intros Ha Hf [f h1 o1 rs r f' hs h' Hh Ho1 Hap Hin|f h1 o1 f' hs h' Hh Ho1 Hap Hin];
    pose proof (history_ok _ _ _ Ha Hf Hh) as Hok.
  - by apply (apply_ok _ _ _ _ _ _ _ _ Hok Ho1 Hap).
  - by apply (teardown_ok _ _ _ _ _ _ Hok Ho1 Hap).
Qed.

(** The states RecoverStaleState passes through. *)
Definition recover_states (o : Outcomes) (h : PfHost) : list PfHost :=
  run_host ([flushAllAnchors o]
            ++ match h_file h with
               | None => []
               | Some was_on => (if negb was_on then [disablePf o] else []) ++ [removePfStateFile o]
               end) h.

Lemma recover_final o h : final (recover_states o h) h = RecoverStaleState o h.
Proof.
  unfold recover_states, RecoverStaleState, final, flushAllAnchors. destruct h as [an on [[]|]], (o_flush o); done.
Qed.

(** A recovery cut short can be taken up again, and a whole one restores pf. *)
Lemma recover_cut h0 o h h' : h_file h0 = None -> reliable o = true -> recoverable h0 h -> h' ∈ recover_states o h -> recoverable h0 h'.
Proof.
  unfold reliable, recoverable, recover_states. intros Hf Ho Hr Hin. bool_hyps.
  destruct h as [an on fl], h0 as [an0 on0 fl0]. cbn in *. subst fl0.
  unfold flushAllAnchors, disablePf, removePfStateFile in Hin.
  repeat match goal with E : o_flush o = _ |- _ => rewrite E in Hin; clear E | E : o_disable o = _ |- _ => rewrite E in Hin; clear E
    | E : o_remove o = _ |- _ => rewrite E in Hin; clear E end.
  destruct Hr as [[-> ->]|[-> Hon]]; cbn in Hin; [|destruct on0; cbn in Hin];
    repeat rewrite elem_of_cons in Hin; rewrite elem_of_nil in Hin; repeat destruct Hin as [->|Hin]; cbn; auto; done.
Qed.

Lemma recover_restores h0 o h :
  h_anchor h0 = None -> h_file h0 = None -> reliable o = true -> recoverable h0 h -> RecoverStaleState o h = h0.
Proof.
  intros Ha Hf Ho Hr. unfold reliable in Ho. bool_hyps.
  unfold RecoverStaleState, flushAllAnchors, removePfStateFile, disablePf, recoverable in *.
  destruct h as [an on fl], h0 as [an0 on0 fl0]. cbn in *. subst an0 fl0.
  repeat match goal with E : o_flush o = _ |- _ => rewrite E | E : o_disable o = _ |- _ => rewrite E
      | E : o_remove o = _ |- _ => rewrite E end; cbn.
  destruct Hr as [[-> ->]|[-> Hon]]; cbn; [done|]. destruct on0; cbn; [by rewrite Hon|done].
Qed.

(** C21: pf ends as it was found.  From a host without our rules, after any sequence of rulesets
    (those whose loading or enabling fails included), a shutdown leaves no rules of ours, pf on
    exactly if it was on before, and no state file; and a crash at any point of an operation is
    put right the same way by the next start. *)
Theorem pf_restored (h0 : PfHost) :
  h_anchor h0 = None -> h_file h0 = None ->
  (forall f h o f' hs, history h0 f h -> reliable o = true -> Cleanup o f h = (f', hs) ->
     final hs h = h0) /\
  (forall h o, crashed h0 h -> reliable o = true -> RecoverStaleState o h = h0).
Proof.
  intros Ha Hf. split.
  - intros f h o f' hs Hh Ho Hc. pose proof (history_ok _ _ _ Ha Hf Hh) as Hok.
    destruct (teardown_ok _ _ _ _ _ _ Hok Ho Hc) as (H1 & H2 & _). unfold hist_ok in H1. rewrite H2 in H1.
    destruct H1 as (E1 & E2 & E3). destruct (final hs h), h0. cbn in *. congruence.
  - intros h o Hcr Ho. apply recover_restores; [done..|]. by apply crashed_recoverable.
Qed.

Definition all_succeed : Outcomes := MkOutcomes true true true true true true true.

Lemma pf_restored_witness :
  let h0 := MkHostPf None false None in
  let rs := MkRuleset true [] false [] [] in
  let hs := snd (Apply all_succeed rs new_firewall h0) in
  h_on (final hs h0) = true /\ RecoverStaleState all_succeed (final hs h0) = h0.
Proof.
  intros h0 rs hs. split; [vm_compute; reflexivity|].
  destruct (pf_restored h0 eq_refl eq_refl) as [_ Hcrash].
  apply (Hcrash (final hs h0) all_succeed); [|reflexivity].
  apply (crash_apply h0 new_firewall h0 all_succeed rs None (MkFw true false) hs).
  - apply hist_start.
  - reflexivity.
  - vm_compute. reflexivity.
  - vm_compute. right. right. right. left.
Defined.

(** An error of Apply leaves the rules that were loaded in place, unless the new rules were
    loaded and only turning pf on failed: then they replace the old ones although an error is
    returned. *)
Theorem apply_error (o : Outcomes) (rs : Ruleset) (f : DarwinFirewall) (h : PfHost) (e : ApplyError)
    (f' : DarwinFirewall) (hs : list PfHost) :
  Apply o rs f h = (Some e, f', hs) ->
  match e with
  | EnableFailed =>
      exists rules, BuildRules rs = Ok rules /\ h_anchor (final hs h) = Some rules /\ fw_active f' = true
  | _ => h_anchor (final hs h) = h_anchor h /\ fw_active f' = fw_active f
  end.
Proof.
  unfold Apply, final. intros H. destruct (BuildRules rs) as [rules|re]; [|by injection H as <- <- <-].
  case_bool_decide; [by destruct (teardownLocked o f h)|].
  unfold loadAnchorRules, enablePf, persistPfEnabledState, removePfStateFile in H.
  destruct f as [act was], h as [an on fl].
  destruct (o_load o); cbn in H.
  - destruct (o_enable o); [done|]. injection H as <- <- <-. exists rules. split; [done|].
    destruct act; cbn; [done|]. by destruct (o_persist o).
  - injection H as <- <- <-. destruct act; cbn; [done|].
    by destruct (o_persist o), (o_remove o).
Qed.

Lemma apply_error_witness :
  let h := MkHostPf (Some "old") true (Some true) in
  let o := MkOutcomes true true true false true true true in
  let rs := MkRuleset true [] false [] [] in
  exists hs, Apply o rs (MkFw true true) h = (Some EnableFailed, MkFw true true, hs) /\
  exists rules, BuildRules rs = Ok rules /\ h_anchor (final hs h) = Some rules
                /\ fw_active (MkFw true true) = true.
Proof.
  intros h o rs. eexists. split; [vm_compute; reflexivity|].
  apply (apply_error o rs (MkFw true true) h EnableFailed). vm_compute. reflexivity.
Defined.
