(* ===== verification/HelperFirewall.v ===== *)
(** * The helper's firewall policy: internal/helper/firewall.go

    [Helper] is the state guarded by [h.mu].  [ruleset] is the computation of applyFirewall: the
    policy and the tunnels that are up, held or blocked give the rules to load.  The managers of
    the two protocols are seen through a [View], what their query methods return at one moment.
    Maps from names to [true] are sets. *)

From S2P Require Import Prelude GoStrings GoNet Domain OvpnParse OvpnProfile TunnelManager Firewall.

(** ** What the helper sees of the managers *)

(** ovpn.RemoteEndpoint *)
Record RemoteEndpoint := MkRemoteEndpoint {
  re_TunnelName : string; re_InterfaceName : string; re_Proto : string; re_Addr : string }.

(** The query methods of ovpnBackend. *)
Record ovpnBackend := MkBackend {
  ob_GetStatus : string -> option ConnectionStatus;
  ob_IsAwaitingCredentials : string -> bool;
  ob_ActiveTunnelNames : list string;
  ob_AllStatuses : list ConnectionStatus;
  ob_ActiveRemotes : list RemoteEndpoint
}.

(** [v_ovpn] is [None] when h.ovpnManager is nil. *)
Record View := MkView { v_wg : Manager; v_ovpn : option ovpnBackend }.

(** ** State *)

Record fwPolicy := MkPolicy { killSwitch : bool; dnsProtection : bool }.

#[export] Instance eta_policy : Eta fwPolicy := fun r => MkPolicy (killSwitch r) (dnsProtection r).

Record hostPort := MkHostPort { hp_host : string; hp_port : string; hp_proto : string }.
Record literalEndpoint := MkLiteral { le_ep : string; le_proto : string }.

Record cachedEndpoints := MkCached {
  ce_passes : list KillSwitchTunnel; ce_hostname : bool; ce_resolved : list literalEndpoint }.

#[export] Instance eta_cached : Eta cachedEndpoints := fun r =>
  MkCached (ce_passes r) (ce_hostname r) (ce_resolved r).

Definition no_cache : cachedEndpoints := MkCached [] false [].

Record Helper := MkHelper {
  activeCfgs : gmap string WireGuardConfig;
  activeOVPNCfgs : gmap string string;
  autoReconnect : gmap string bool;
  policy : fwPolicy;
  fwHeld : gmap string nat;
  fwPending : gset string;
  fwBlocked : gmap string Protocol;
  fwThrough : gset string;
  fwEndpoints : gmap string cachedEndpoints;
  dnsLookups : gmap string (list string);
  dnsLookupRefs : gmap string nat;
  ovpnErrors : gmap string ConnectionStatus;
  ovpnStuckSince : gmap string Z;
  ovpnDying : gset string;
  disconnectEpoch : gmap string Z;
  guiGone : bool;
  shutdownTimer : option nat;
  closed : bool   (** h.done is closed *)
}.

#[export] Instance eta_helper : Eta Helper := fun r =>
  MkHelper (activeCfgs r) (activeOVPNCfgs r) (autoReconnect r) (policy r) (fwHeld r) (fwPending r)
    (fwBlocked r) (fwThrough r) (fwEndpoints r) (dnsLookups r) (dnsLookupRefs r) (ovpnErrors r)
    (ovpnStuckSince r) (ovpnDying r) (disconnectEpoch r) (guiGone r) (shutdownTimer r) (closed r).

(** The state Run starts from. *)
Definition new_helper : Helper :=
  MkHelper ∅ ∅ ∅ (MkPolicy false false) ∅ ∅ ∅ ∅ ∅ ∅ ∅ ∅ ∅ ∅ ∅ false None false.

Definition mem (x : string) (l : list string) : bool := bool_decide (x ∈ l).

Definition is_key {A} (m : gmap string A) (k : string) : bool := bool_decide (is_Some (m !! k)).

(** ** Endpoints *)

Fixpoint addPass (c : list KillSwitchTunnel) (proto ep : string) : list KillSwitchTunnel :=
  match c with
  | [] => [MkKs "" proto [ep]]
  | p :: c' =>
      if ks_Proto p =s proto then
        (if mem ep (ks_Endpoints p) then p
         else MkKs (ks_InterfaceName p) (ks_Proto p) (ks_Endpoints p ++ [ep])) :: c'
      else p :: addPass c' proto ep
  end.

(** One configured endpoint: an IP literal to pass, or a host to resolve. *)
Definition sort_endpoint (host port proto : string) : literalEndpoint + hostPort :=
  if ip_valid host then inl (MkLiteral (join_host_port host port) proto)
  else inr (MkHostPort host port proto).

Definition wg_endpoints (cfg : WireGuardConfig) : list (literalEndpoint + hostPort) :=
  concat ((fun p => match split_host_port (Endpoint p) with
                    | Some (host, port) => [sort_endpoint host port "udp"]
                    | None => []
                    end) <$> Peers cfg).

Definition ovpn_endpoints (content : string) : list (literalEndpoint + hostPort) :=
  match ParseOVPN content with
  | Ok cfg => (fun r => sort_endpoint (rsHost r) (rsPort r) (rsProto r)) <$> ocRemotes cfg
  | Err _ => []
  end.

Definition literals (l : list (literalEndpoint + hostPort)) : list literalEndpoint :=
  omap (fun e => match e with inl l => Some l | inr _ => None end) l.
Definition hosts_of (l : list (literalEndpoint + hostPort)) : list hostPort :=
  omap (fun e => match e with inl _ => None | inr h => Some h end) l.

Definition configuredEndpoints (h : Helper) (name : string) : list literalEndpoint * list hostPort :=
  let eps := match activeCfgs h !! name with Some cfg => wg_endpoints cfg | None => [] end
             ++ match activeOVPNCfgs h !! name with Some c => ovpn_endpoints c | None => [] end in
  (literals eps, hosts_of eps).

Definition add_passes (c : list KillSwitchTunnel) (l : list literalEndpoint) : list KillSwitchTunnel :=
  foldl (fun c e => addPass c (le_proto e) (le_ep e)) c l.

Definition endpointPasses (h : Helper) (name : string) : list KillSwitchTunnel :=
  let c := default no_cache (fwEndpoints h !! name) in
  let out := foldl (fun out p => foldl (fun out ep => addPass out (ks_Proto p) ep) out (ks_Endpoints p))
               [] (ce_passes c) in
  add_passes (add_passes out (fst (configuredEndpoints h name))) (ce_resolved c).

Definition held (h : Helper) (name : string) : nat := default 0%nat (fwHeld h !! name).

Definition isHeld (h : Helper) (name : string) : bool :=
  (0 <? held h name)%nat || bool_decide (name ∈ fwPending h).

Definition isMultiRemoteOVPN (h : Helper) (name : string) : bool :=
  match activeOVPNCfgs h !! name with
  | Some content => match ParseOVPN content with
                    | Ok cfg => (1 <? length (ocRemotes cfg))%nat
                    | Err _ => false
                    end
  | None => false
  end.

Definition protocol_of (h : Helper) (name : string) : Protocol :=
  if is_key (activeOVPNCfgs h) name then ProtocolOpenVPN else ProtocolWireGuard.

(** ** The tunnels that are up *)

Definition addDNS (dns entries : list string) : list string :=
  foldl (fun dns e => if ip_valid e && negb (mem e dns) then dns ++ [e] else dns) dns entries.

Definition by_name (a b : string * KillSwitchTunnel) : Prop := String.le (fst a) (fst b).
#[export] Instance by_name_dec : RelDecision by_name.
Proof. intros a b. unfold by_name. apply _. Defined.

Definition status_map (sts : list ConnectionStatus) : gmap string ConnectionStatus :=
  foldl (fun m st => <[cs_TunnelName st := st]> m) ∅ sts.

(** A connected OpenVPN tunnel whose remote is not known. *)
Definition remoteless (seen : list string) (name : string) (st : ConnectionStatus) : bool :=
  negb (mem name seen || negb (bool_decide (cs_State st = StateConnected))
        || (cs_InterfaceName st =s "")).

Definition wg_live (v : View) : list (string * KillSwitchTunnel) :=
  (fun t => (ti_Name t, MkKs (ti_InterfaceName t) "udp" (ti_Endpoints t))) <$> ConnectedTunnels (v_wg v).

Definition remote_live (o : ovpnBackend) : list (string * KillSwitchTunnel) :=
  (fun r => (re_TunnelName r, MkKs (re_InterfaceName r) (re_Proto r) [re_Addr r])) <$> ob_ActiveRemotes o.

(** The statuses are a map in the source, ranged over in any order: by name here. *)
Definition remoteless_live (o : ovpnBackend) : list (string * ConnectionStatus) :=
  let statuses := status_map (ob_AllStatuses o) in
  let seen := re_TunnelName <$> ob_ActiveRemotes o in
  omap (fun n => match statuses !! n with
                 | Some st => if remoteless seen n st then Some (n, st) else None
                 | None => None
                 end) (sorted_keys statuses).

Definition ovpn_live (o : ovpnBackend) : list (string * KillSwitchTunnel) :=
  remote_live o ++ ((fun '(n, st) => (n, MkKs (cs_InterfaceName st) "" [])) <$> remoteless_live o).

(** The DNS entries, in the order they are added. *)
Definition live_dns (v : View) : list (list string) :=
  (ti_DNS <$> ConnectedTunnels (v_wg v))
  ++ match v_ovpn v with
     | None => []
     | Some o =>
         let statuses := status_map (ob_AllStatuses o) in
         ((fun r => cs_DNSServers (default zero_status (statuses !! re_TunnelName r)))
            <$> ob_ActiveRemotes o)
         ++ ((fun '(_, st) => cs_DNSServers st) <$> remoteless_live o)
     end.

Definition liveTunnels (v : View) : list (string * KillSwitchTunnel) * list string :=
  let all := wg_live v ++ match v_ovpn v with Some o => ovpn_live o | None => [] end in
  (merge_sort by_name all, foldl addDNS [] (live_dns v)).

(** ovpnTunnelHasKnownRemote *)
Definition hasKnownRemote (o : ovpnBackend) (name : string) : bool :=
  existsb (fun r => re_TunnelName r =s name) (ob_ActiveRemotes o).

Definition tunnelIsUp (v : View) (name : string) : bool :=
  IsTunnelConnected (v_wg v) name
  || match v_ovpn v with Some o => hasKnownRemote o name | None => false end.

Definition tunnelRunning (v : View) (name : string) : bool :=
  mem name (activeTunnelNames (v_wg v))
  || match v_ovpn v with Some o => mem name (ob_ActiveTunnelNames o) | None => false end.

(** ** The ruleset *)

(** A tunnel that is up is not dead, and its endpoints are remembered. *)
Definition refresh_live (h : Helper) (l : string * KillSwitchTunnel) : Helper :=
  let '(name, t) := l in
  let h := h <| fwBlocked ::= fun b => delete name b |> in
  let c := default no_cache (fwEndpoints h !! name) in
  h <| fwEndpoints ::= fun e =>
         <[name := c <| ce_passes := [MkKs "" (ks_Proto t) (ks_Endpoints t)] |>
                     <| ce_hostname := (0 <? length (snd (configuredEndpoints h name)))%nat |>]> e |>.

Definition pass_entries (h : Helper) (name : string) : list KillSwitchTunnel :=
  (fun p => MkKs "" (ks_Proto p) (ks_Endpoints p)) <$> endpointPasses h name.

Fixpoint multi_entries (h : Helper) (prev : option string) (names : list string)
    : list KillSwitchTunnel :=
  match names with
  | [] => []
  | name :: names' =>
      (if bool_decide (prev = Some name) || negb (isMultiRemoteOVPN h name) then []
       else pass_entries h name)
      ++ multi_entries h (Some name) names'
  end.

Definition held_names (h : Helper) : list string :=
  sort_strings ((map_to_list (fwHeld h)).*1
                ++ List.filter (fun n => (held h n =? 0)%nat) (elements (fwPending h))).

Definition held_entries (h : Helper) (name : string) : list KillSwitchTunnel :=
  match pass_entries h name with
  | [] => [MkKs "" "" []]
  | l => l
  end.

Definition lookup_servers (h : Helper) : list string :=
  foldl (fun out n => foldl (fun out s => if mem s out then out else out ++ [s]) out
                        (default [] (dnsLookups h !! n)))
    [] (sorted_keys (dnsLookups h)).

(** The entries of names that are neither up nor held nor wanted are forgotten. *)
Definition prune_endpoints (h : Helper) (names : list string) : Helper :=
  h <| fwEndpoints ::= filter (fun '(n, _) =>
         mem n names || isHeld h n || is_key (activeOVPNCfgs h) n = true) |>.

Definition zero_ruleset : Ruleset := MkRuleset false [] false [] [].

Definition ruleset (h : Helper) (v : View) : Ruleset * Helper :=
  let '(live, dns) := liveTunnels v in
  let names := live.*1 in
  let h1 := foldl refresh_live h live in
  let entries := live.*2 ++ multi_entries h1 None names
                 ++ concat (held_entries h1 <$> List.filter (fun n => negb (mem n names)) (held_names h1)) in
  let rs := MkRuleset (killSwitch (policy h)) entries (dnsProtection (policy h)) dns (lookup_servers h1) in
  let blocked := killSwitch (policy h) && negb (bool_decide (fwBlocked h1 = ∅)) in
  let h2 := prune_endpoints h1 names in
  (if bool_decide (entries = []) && negb blocked then zero_ruleset else rs, h2).

(** ** Holds *)

(** The locked part of holdFirewall. *)
Definition hold (h : Helper) (name : string) : Helper :=
  h <| fwHeld ::= fun m => <[name := S (held h name)]> m |>
    <| fwPending ::= fun s => s ∖ {[name]} |>
    <| fwThrough ::= fun s => s ∖ {[name]} |>
    <| fwBlocked ::= fun m => delete name m |>.

(** The locked part of releaseFirewall; [live] is read before the lock is taken. *)
Definition release (h : Helper) (name : string) (live : bool) : Helper :=
  if (1 <? held h name)%nat then h <| fwHeld ::= fun m => <[name := (held h name - 1)%nat]> m |>
  else
    let h := h <| fwHeld ::= fun m => delete name m |> in
    if negb live && negb (bool_decide (name ∈ fwPending h))
       && default false (autoReconnect h !! name) && killSwitch (policy h)
    then h <| fwBlocked ::= fun m => <[name := protocol_of h name]> m |>
    else h.

(** ** Lookup windows *)

Definition lookup_refs (h : Helper) (name : string) : nat := default 0%nat (dnsLookupRefs h !! name).

(** The locked part of openLookupWindow. *)
Definition open_window (h : Helper) (name : string) (resolvers : list string) : Helper :=
  h <| dnsLookupRefs ::= fun m => <[name := S (lookup_refs h name)]> m |>
    <| dnsLookups ::= fun m => <[name := resolvers]> m |>.

Definition closeLookupWindow (h : Helper) (name : string) : Helper :=
  if (1 <? lookup_refs h name)%nat
  then h <| dnsLookupRefs ::= fun m => <[name := (lookup_refs h name - 1)%nat]> m |>
  else h <| dnsLookupRefs ::= fun m => delete name m |>
         <| dnsLookups ::= fun m => delete name m |>.

Definition storeResolved (h : Helper) (name : string) (answers : list literalEndpoint) : Helper :=
  let c := (default no_cache (fwEndpoints h !! name)) <| ce_hostname := true |> in
  let c := if (0 <? length answers)%nat then c <| ce_resolved := answers |> else c in
  h <| fwEndpoints ::= fun m => <[name := c]> m |>.

(** [lookup] is the host's resolver, [None] an error. *)
Definition resolveEndpoints (lookup : string -> option (list string)) (hosts : list hostPort)
    : list literalEndpoint :=
  concat ((fun hp => match lookup (hp_host hp) with
                     | Some ips => (fun ip => MkLiteral (join_host_port ip (hp_port hp)) (hp_proto hp)) <$> ips
                     | None => []
                     end) <$> hosts).
