(* ===== verification/HelperOps.v ===== *)
(** * The helper's operations: internal/helper/helper.go, handlers.go, events.go

    What an operation does to [Helper] while it holds [h.mu] is a function on [Helper]; the whole
    operation is a program in the monad [M], which threads the state and the log of the calls the
    helper makes to the outside (the managers, the firewall, the monitor).  What those calls
    answer, and what the managers look like between them, is [Env]: any function of the calls
    made so far. *)

From S2P Require Import Prelude GoStrings GoNet Domain Validator OvpnParse OvpnProfile TunnelManager Recovery Firewall HelperFirewall.

(** ** Calls *)

Inductive Call :=
| CApply (rs : Ruleset)                            (** h.firewall.Apply *)
| CFwCleanup                                       (** h.firewall.Cleanup *)
| CWgConnect (cfg : WireGuardConfig)
| CWgDisconnect (name : string)
| CWgDisconnectAll
| CSetPin (enabled : bool)
| COvpnConnect (name content : string)
| COvpnDisconnect (name : string)
| COvpnRecycle (name : string)
| COvpnFeed (name username password response : string)
| COvpnStop
| CCancelRetry (name : string)
| CNotifyDied (name : string)
| CHealthCheck (enabled : bool)
| CMonitorStop
| CLookup (hosts : list hostPort)
| CAfterFunc (timer : nat)
| CTick                                            (** a tick of waitOVPNConnected *)
| CShutdown.

Inductive Reply := ROk | RAlreadyActive | RFailed.

#[export] Instance reply_eq_dec : EqDecision Reply.
Proof. solve_decision. Defined.

(** The calls are listed oldest first. *)
Record Env := MkEnv {
  env_view : list Call -> View;
  env_reply : list Call -> Reply;                    (** to the last call *)
  env_lookup : string -> option (list string);
  env_resolvers : list string;
  env_binary : bool;                                 (** the openvpn binary exists *)
  env_now : list Call -> Z                           (** nanoseconds *)
}.

Definition M (A : Type) : Type := Helper * list Call -> A * (Helper * list Call).

Definition ret {A} (a : A) : M A := fun s => (a, s).
Definition bind {A B} (m : M A) (k : A -> M B) : M B := fun s => let '(a, s') := m s in k a s'.
Definition get : M Helper := fun s => (fst s, s).
Definition modify (f : Helper -> Helper) : M unit := fun s => (tt, (f (fst s), snd s)).

Notation "'let!' x ':=' m 'in' k" := (bind m (fun x => k))
  (at level 10, x pattern, m at level 100, k at level 200) : go_scope.
Notation "m '>>' k" := (bind m (fun _ => k)) (at level 100, k at level 200, right associativity) : go_scope.

(** Only ROk is a nil error. *)
Definition ok (r : Reply) : bool := match r with ROk => true | _ => false end.

(** ** Locked sections *)

(** onOVPNDying *)
Definition onOVPNDying (h : Helper) (name : string) : Helper :=
  if negb (is_key (activeOVPNCfgs h) name)
     || (negb (default false (autoReconnect h !! name)) && negb (killSwitch (policy h)))
  then h
  else h <| ovpnDying ::= fun s => s ∪ {[name]} |> <| fwPending ::= fun s => s ∪ {[name]} |>.

Definition forget_wg (name : string) (h : Helper) : Helper :=
  h <| activeCfgs ::= fun m => delete name m |>.
Definition forget_ovpn (name : string) (h : Helper) : Helper :=
  h <| activeOVPNCfgs ::= fun m => delete name m |>.

Definition forgetOrHold (h : Helper) (name : string) (proto : Protocol) (forget : Helper -> Helper)
    : Helper :=
  if default false (autoReconnect h !! name) then
    h <| fwPending ::= fun s => s ∪ {[name]} |> <| fwThrough ::= fun s => s ∖ {[name]} |>
  else
    let want := is_key (activeCfgs h) name || is_key (activeOVPNCfgs h) name in
    let h := (forget h) <| autoReconnect ::= fun m => delete name m |>
               <| fwPending ::= fun s => s ∖ {[name]} |> <| fwThrough ::= fun s => s ∖ {[name]} |> in
    if negb want then h
    else if killSwitch (policy h) then h <| fwBlocked ::= fun m => <[name := proto]> m |> else h.

(** The locked part of onOVPNGone, with its pending test; [None] while the tunnel is dying. *)
Definition ovpn_gone (h : Helper) (name : string) : option (bool * Helper) :=
  if bool_decide (name ∈ ovpnDying h) then None
  else
    let pending := bool_decide (name ∈ fwPending h) && (held h name =? 0)%nat in
    let reblock := pending && killSwitch (policy h) && negb (bool_decide (name ∈ fwThrough h)) in
    let h := if pending : bool then
               h <| fwPending ::= fun s => s ∖ {[name]} |> <| fwThrough ::= fun s => s ∖ {[name]} |>
             else h in
    let h := if reblock : bool then h <| fwBlocked ::= fun m => <[name := ProtocolOpenVPN]> m |> else h in
    Some (pending, h).

Definition recordOVPNStatus (h : Helper) (st : ConnectionStatus) : Helper :=
  match cs_State st with
  | StateError =>
      if cs_ErrorMessage st =s "" then h
      else h <| ovpnErrors ::= fun m =>
                 <[cs_TunnelName st := st <| cs_Protocol := ProtocolOpenVPN |>]> m |>
  | StateConnected => h <| ovpnErrors ::= fun m => delete (cs_TunnelName st) m |>
  | _ => h
  end.

Definition clear_pending (h : Helper) (name : string) : Helper :=
  h <| fwPending ::= fun s => s ∖ {[name]} |> <| fwThrough ::= fun s => s ∖ {[name]} |>.

Definition epoch_of (h : Helper) (name : string) : Z := default 0%Z (disconnectEpoch h !! name).

(** The locked part of handleDisconnect; the epoch is a uint64. *)
Definition disconnect_clear (h : Helper) (name : string) : Helper :=
  h <| disconnectEpoch ::= fun m => <[name := ((epoch_of h name + 1) mod 2 ^ 64)%Z]> m |>
    <| activeCfgs ::= fun m => delete name m |>
    <| activeOVPNCfgs ::= fun m => delete name m |>
    <| autoReconnect ::= fun m => delete name m |>
    <| fwHeld ::= fun m => delete name m |>
    <| fwPending ::= fun s => s ∖ {[name]} |>
    <| fwThrough ::= fun s => s ∖ {[name]} |>
    <| fwBlocked ::= fun m => delete name m |>
    <| ovpnErrors ::= fun m => delete name m |>.

Definition cache_wg (h : Helper) (cfg : WireGuardConfig) (auto : bool) : Helper :=
  h <| activeCfgs ::= fun m => <[Name cfg := cfg]> m |>
    <| autoReconnect ::= fun m => <[Name cfg := auto]> m |>.

Definition restore_key {A} (m : gmap string A) (name : string) (prev : option A) : gmap string A :=
  match prev with Some a => <[name := a]> (delete name m) | None => delete name m end.

Definition uncache_wg (h : Helper) (name : string) (prevCfg : option WireGuardConfig)
    (prevAuto : option bool) : Helper :=
  h <| activeCfgs ::= fun m => restore_key m name prevCfg |>
    <| autoReconnect ::= fun m => restore_key m name prevAuto |>.

Definition cache_ovpn (h : Helper) (name content : string) (auto : bool) : Helper :=
  h <| ovpnErrors ::= fun m => delete name m |>
    <| activeOVPNCfgs ::= fun m => <[name := content]> m |>
    <| autoReconnect ::= fun m => <[name := auto]> m |>.

Definition uncache_ovpn (h : Helper) (name : string) : Helper :=
  h <| activeOVPNCfgs ::= fun m => delete name m |> <| autoReconnect ::= fun m => delete name m |>.

(** The locked part of liftBlockForConnect, and whether it set a hold. *)
Definition lift_block (h : Helper) (name : string) (resolved : list literalEndpoint) : bool * Helper :=
  let blocked := is_key (fwBlocked h) name in
  let through := negb blocked && killSwitch (policy h) && negb (bool_decide (fwBlocked h = ∅)) in
  let h := if blocked || through then
             h <| fwBlocked ::= fun m => delete name m |>
               <| fwPending ::= fun s => s ∪ {[name]} |>
               <| fwThrough ::= fun s => if through : bool then s ∪ {[name]} else s ∖ {[name]} |>
           else h in
  let h := if (0 <? length resolved)%nat then storeResolved h name resolved else h in
  (blocked || through, h).

(** The locked part of restoreBlock. *)
Definition restore_block (h : Helper) (name : string) (proto : Protocol) : Helper :=
  let through := bool_decide (name ∈ fwThrough h) in
  let h := clear_pending h name in
  if killSwitch (policy h) && negb through
  then h <| fwBlocked ::= fun m => <[name := proto]> m |> else h.

(** ** The shutdown timer *)

(** Only whether there is one: the name is for the log. *)
Definition anyTunnelActive (h : Helper) (v : View) : bool :=
  negb (ActiveTunnel (v_wg v) =s "")
  || match v_ovpn v with Some o => (0 <? length (ob_ActiveTunnelNames o))%nat | None => false end
  || existsb (fun '(_, n) => (0 <? n)%nat) (map_to_list (fwHeld h))
  || negb (bool_decide (fwPending h = ∅))
  || killSwitch (policy h) && negb (bool_decide (fwBlocked h = ∅)).

Definition cancelShutdownTimer (h : Helper) : Helper :=
  h <| guiGone := false |> <| shutdownTimer := None |>.

(** The function of timer [t], run when it fires: whether the helper shuts down. *)
Definition timer_fires (t : nat) (h : Helper) (v : View) : bool * Helper :=
  if anyTunnelActive h v then
    (false, if bool_decide (shutdownTimer h = Some t) then h <| shutdownTimer := None |> else h)
  else (bool_decide (shutdownTimer h = Some t) && guiGone h, h).

(** ** The OpenVPN watchdog *)

Definition ovpnStuckTimeout : Z := 120 * time_second.

Definition is_stuck (st : ConnectionStatus) : bool :=
  negb (bool_decide (cs_State st = StateConnected)) && negb (cs_ConnectedAt st =? 0)%Z.

(** A candidate: its name, and whether the clock runs for it. *)
Definition candidate (o : ovpnBackend) (h : Helper) (st : ConnectionStatus) : string * bool :=
  (cs_TunnelName st,
   is_stuck st && negb (ob_IsAwaitingCredentials o (cs_TunnelName st))
   && default false (autoReconnect h !! cs_TunnelName st)).

(** One round of the loop over the candidates. *)
Definition watch_one (now : Z) (s : gmap string Z * list string) (c : string * bool)
    : gmap string Z * list string :=
  let '(since, recycle) := s in
  let '(name, runs) := c in
  if negb runs then (delete name since, recycle)
  else match since !! name with
       | None => (<[name := now]> since, recycle)
       | Some t => if (ovpnStuckTimeout <=? now - t)%Z then (delete name since, recycle ++ [name])
                   else (since, recycle)
       end.

(** The names to recycle; clocks of tunnels that are gone are dropped. *)
Definition watchdog (o : ovpnBackend) (now : Z) (h : Helper) : list string * Helper :=
  let cands := candidate o h <$> ob_AllStatuses o in
  let '(since, recycle) := foldl (watch_one now) (ovpnStuckSince h, []) cands in
  (recycle, h <| ovpnStuckSince := filter (fun '(n, _) => n ∈ cands.*1) since |>).

(** ** Status *)

Definition protectedTunnels (h : Helper) (running : list string) : list string :=
  let names := (map_to_list (fwHeld h)).*1 ++ elements (fwPending h) ++ (map_to_list (fwBlocked h)).*1 in
  sort_strings (foldl (fun out n => if mem n running || mem n out then out else out ++ [n]) [] names).

Definition appendUnique (names : list string) (name : string) : list string :=
  if mem name names then names else names ++ [name].

Definition present (extra : list ConnectionStatus) (name : string) : bool :=
  existsb (fun s => cs_TunnelName s =s name) extra.

(** The errors of tunnels the manager no longer lists. *)
Definition add_errors (h : Helper) (live : list ConnectionStatus) : list ConnectionStatus :=
  foldl (fun extra n => match ovpnErrors h !! n with
                        | Some st => if present extra n then extra
                                     else extra ++ [st <| cs_Terminal := true |>]
                        | None => extra
                        end) live (sorted_keys (ovpnErrors h)).

(** Marks the first entry of a blocked tunnel, or adds one. *)
Fixpoint mark_blocked (name : string) (proto : Protocol) (extra : list ConnectionStatus)
    : list ConnectionStatus :=
  match extra with
  | [] => [zero_status <| cs_State := StateError |> <| cs_TunnelName := name |> <| cs_Protocol := proto |>
             <| cs_KillSwitchBlocked := true |> <| cs_Terminal := true |>]
  | s :: extra' =>
      if cs_TunnelName s =s name then
        let s := s <| cs_KillSwitchBlocked := true |> in
        (if bool_decide (cs_State s = StateConnected) then s else s <| cs_State := StateError |>) :: extra'
      else s :: mark_blocked name proto extra'
  end.

Definition by_tunnel (a b : ConnectionStatus) : Prop := String.le (cs_TunnelName a) (cs_TunnelName b).
#[export] Instance by_tunnel_dec : RelDecision by_tunnel.
Proof. intros a b. unfold by_tunnel. apply _. Defined.

(** The OpenVPN, failed and blocked tunnels, by name. *)
Definition extra_statuses (h : Helper) (live : list ConnectionStatus) : list ConnectionStatus :=
  let extra := add_errors h live in
  let extra := if killSwitch (policy h) then
                 foldl (fun e n => mark_blocked n (default "" (fwBlocked h !! n)) e) extra
                   (sorted_keys (fwBlocked h))
               else extra in
  merge_sort by_tunnel extra.

Definition wg_line (ts : ConnectionStatus) : ConnectionStatus :=
  zero_status <| cs_State := cs_State ts |> <| cs_TunnelName := cs_TunnelName ts |>
    <| cs_RxBytes := cs_RxBytes ts |> <| cs_TxBytes := cs_TxBytes ts |>
    <| cs_Duration := cs_Duration ts |> <| cs_LastHandshake := cs_LastHandshake ts |>
    <| cs_HasHandshake := cs_HasHandshake ts |> <| cs_ErrorMessage := cs_ErrorMessage ts |>
    <| cs_Protocol := ProtocolWireGuard |>.

Definition extra_line (ts : ConnectionStatus) : ConnectionStatus :=
  (wg_line ts)
    <| cs_Protocol := if cs_Protocol ts =s "" then ProtocolOpenVPN else cs_Protocol ts |>
    <| cs_DNSServers := cs_DNSServers ts |> <| cs_KillSwitchBlocked := cs_KillSwitchBlocked ts |>
    <| cs_Terminal := cs_Terminal ts |>.

Definition add_extra (live : list ConnectionStatus) (result ts : ConnectionStatus) : ConnectionStatus :=
  let result := result <| cs_Tunnels ::= fun l => l ++ [extra_line ts] |> in
  if present live (cs_TunnelName ts)
     && negb (bool_decide (cs_State ts = StateError))
  then result <| cs_ActiveTunnels ::= fun l => appendUnique l (cs_TunnelName ts) |>
  else result.

(** [device] and [now] are wgctrl and the clock, for the WireGuard statuses; [None] is the zero
    ConnectionStatus. *)
Definition statusDTO (device : string -> option (list PeerStat)) (now : Z) (h : Helper) (v : View)
    : option ConnectionStatus :=
  let s := TunnelManager.Status device now (v_wg v) in
  let live := match v_ovpn v with Some o => ob_AllStatuses o | None => [] end in
  let extra := extra_statuses h live in
  let result := if negb (bool_decide (cs_State s = StateDisconnected)) then Some s
                else match extra with
                     | e :: _ => Some (e <| cs_ActiveTunnels := [] |>)
                     | [] => None
                     end in
  match result with
  | None => None
  | Some result =>
      let all := TunnelManager.AllStatuses device now (v_wg v) in
      let result := if (1 <? length all)%nat
                    then result <| cs_Tunnels ::= fun l => l ++ (wg_line <$> all) |> else result in
      Some (foldl (add_extra live) result extra)
  end.

(** ** Requests and errors *)

Record ConnectRequest := MkConnectRequest {
  rq_Config : option WireGuardConfig;
  rq_AutoReconnect : bool;
  rq_Protocol : Protocol;
  rq_TunnelName : string;
  rq_OVPNConfig : string
}.

Inductive HelperError :=
| ErrCancelled | ErrNoConfig | ErrTunnelName (e : NameError) | ErrInvalidConfig (r : ValidationResult)
| ErrNoOpenVPN | ErrNoTunnelName | ErrNoOVPNConfig | ErrInvalidProfile (e : ProfileError)
| ErrNoBinary | ErrCodeAlreadyConnected | ErrBackend | ErrFirewall.

(** How a reconnect attempt ends. *)
Inductive ReconnectError := ErrGiveUp | ErrAttempt.

Definition is_openvpn (req : ConnectRequest) : bool := NormalizeProtocol (rq_Protocol req) =s ProtocolOpenVPN.

Definition connectName (req : ConnectRequest) : string :=
  if is_openvpn req then rq_TunnelName req
  else match rq_Config req with Some cfg => Name cfg | None => "" end.

(** The name, the hosts to resolve, and whether the profile has several remotes. *)
Definition connectHosts (req : ConnectRequest) : string * list hostPort * bool :=
  if is_openvpn req then
    if bool_decide (is_Some (ValidateTunnelName (rq_TunnelName req)))
       || bool_decide (is_Some (ValidateOVPN (rq_OVPNConfig req)))
    then ("", [], false)
    else match ParseOVPN (rq_OVPNConfig req) with
         | Ok cfg => (rq_TunnelName req, hosts_of (ovpn_endpoints (rq_OVPNConfig req)),
                      (1 <? length (ocRemotes cfg))%nat)
         | Err _ => ("", [], false)
         end
  else match rq_Config req with
       | Some cfg => if bool_decide (is_Some (ValidateTunnelName (Name cfg))) then ("", [], false)
                     else (Name cfg, hosts_of (wg_endpoints cfg), false)
       | None => ("", [], false)
       end.

(** ** Programs *)

Section Programs.
Context (env : Env).

Definition look : M View := fun s => (env_view env (snd s), s).
Definition clock : M Z := fun s => (env_now env (snd s), s).
Definition call (c : Call) : M Reply := fun s =>
  let log := snd s ++ [c] in (env_reply env log, (fst s, log)).

(** [true] is a nil error. *)
Definition applyFirewall : M bool :=
  let! h := get in
  if closed h then ret true
  else
    let! v := look in
    let '(rs, h') := ruleset h v in
    modify (fun _ => h') >> let! r := call (CApply rs) in ret (ok r).

Definition holdFirewall (name : string) : M bool := modify (fun h => hold h name) >> applyFirewall.

Definition releaseFirewall (name : string) : M bool :=
  let! v := look in
  modify (fun h => release h name (tunnelIsUp v name)) >> applyFirewall.

Definition openLookupWindow (name : string) : M bool :=
  modify (fun h => open_window h name (env_resolvers env)) >> applyFirewall.

Definition resolve (hosts : list hostPort) : M (list literalEndpoint) :=
  let! _ := call (CLookup hosts) in ret (resolveEndpoints (env_lookup env) hosts).

Definition passResolvedHostnames (name : string) : M unit :=
  let! h := get in
  let hosts := snd (configuredEndpoints h name) in
  if (length hosts =? 0)%nat then ret tt
  else
    openLookupWindow name >>
    let! answers := resolve hosts in
    modify (fun h => storeResolved (closeLookupWindow h name) name answers) >>
    applyFirewall >> ret tt.

Definition preResolveConnect (req : ConnectRequest) : M (list literalEndpoint) :=
  let '(name, hosts, multi) := connectHosts req in
  let! v := look in
  if (name =s "") || (length hosts =? 0)%nat || tunnelRunning v name then ret []
  else
    let! h := get in
    if negb (killSwitch (policy h)) || (bool_decide (fwBlocked h = ∅) && negb multi) then ret []
    else
      openLookupWindow name >>
      let! answers := resolve hosts in
      modify (fun h => closeLookupWindow h name) >>
      applyFirewall >> ret answers.

Definition liftBlockForConnect (name : string) (resolved : list literalEndpoint) : M bool :=
  let! h := get in
  let '(set, h') := lift_block h name resolved in
  modify (fun _ => h') >>
  if set : bool then applyFirewall >> ret true else ret false.

Definition restoreBlock (name : string) (proto : Protocol) : M unit :=
  modify (fun h => restore_block h name proto) >> applyFirewall >> ret tt.

Definition connectOpenVPN (req : ConnectRequest) (resolved : list literalEndpoint)
    : M (result HelperError unit) :=
  let name := rq_TunnelName req in
  let content := rq_OVPNConfig req in
  let! v := look in
  match v_ovpn v with
  | None => ret (Err ErrNoOpenVPN)
  | Some o =>
      if name =s "" then ret (Err ErrNoTunnelName)
      else match ValidateTunnelName name with
      | Some e => ret (Err (ErrTunnelName e))
      | None =>
          if content =s "" then ret (Err ErrNoOVPNConfig)
          else match ValidateOVPN content with
          | Some e => ret (Err (ErrInvalidProfile e))
          | None =>
              if negb (env_binary env) then ret (Err ErrNoBinary)
              else if mem name (ob_ActiveTunnelNames o) then ret (Err ErrCodeAlreadyConnected)
              else
                modify (fun h => cache_ovpn h name content (rq_AutoReconnect req)) >>
                let! lifted := liftBlockForConnect name resolved in
                let! r := call (COvpnConnect name content) in
                if ok r then ret (Ok tt)
                else
                  modify (fun h => uncache_ovpn h name) >>
                  (if lifted : bool then restoreBlock name ProtocolOpenVPN else ret tt) >>
                  ret (Err ErrBackend)
          end
      end
  end.

(** The WireGuard part of handleConnect. *)
Definition connect_wg (req : ConnectRequest) (resolved : list literalEndpoint)
    : M (result HelperError unit) :=
  match rq_Config req with
  | None => ret (Err ErrNoConfig)
  | Some cfg =>
      let name := Name cfg in
      match ValidateTunnelName name with
      | Some e => ret (Err (ErrTunnelName e))
      | None =>
          if negb (IsValid (Validate cfg)) then ret (Err (ErrInvalidConfig (Validate cfg)))
          else
            let! v := look in
            if mem name (activeTunnelNames (v_wg v)) then ret (Err ErrCodeAlreadyConnected)
            else
              let! h := get in
              let prevCfg := activeCfgs h !! name in
              let prevAuto := autoReconnect h !! name in
              modify (fun h => cache_wg h cfg (rq_AutoReconnect req)) >>
              let! lifted := liftBlockForConnect name resolved in
              let! r := call (CWgConnect cfg) in
              if ok r then
                modify (fun h => clear_pending h name) >> applyFirewall >> ret (Ok tt)
              else
                modify (fun h => uncache_wg h name prevCfg prevAuto) >>
                (if lifted : bool then restoreBlock name ProtocolWireGuard else ret tt) >>
                ret (Err ErrBackend)
      end
  end.

(** handleConnect once it holds connectMu; [epoch] was read before the lookups. *)
Definition connect_locked (req : ConnectRequest) (epoch : Z) (resolved : list literalEndpoint)
    : M (result HelperError unit) :=
  let! h := get in
  if negb (epoch_of h (connectName req) =? epoch)%Z then ret (Err ErrCancelled)
  else if is_openvpn req then connectOpenVPN req resolved
  else connect_wg req resolved.

Definition handleConnect (req : ConnectRequest) : M (result HelperError unit) :=
  let! h := get in
  let! resolved := preResolveConnect req in
  connect_locked req (epoch_of h (connectName req)) resolved.

Definition handleDisconnect (name : string) : M (result HelperError unit) :=
  if name =s "" then ret (Err ErrNoTunnelName)
  else
    call (CCancelRetry name) >>
    modify (fun h => disconnect_clear h name) >>
    let! v := look in
    let isOVPN := match v_ovpn v with Some o => mem name (ob_ActiveTunnelNames o) | None => false end in
    let! r := call (if isOVPN : bool then COvpnDisconnect name else CWgDisconnect name) in
    call (CCancelRetry name) >>
    applyFirewall >>
    let! v := look in
    if negb (ok r) && (isOVPN || IsTunnelConnected (v_wg v) name) then ret (Err ErrBackend)
    else ret (Ok tt).

Definition handleSetKillSwitch (enabled : bool) : M (result HelperError unit) :=
  let! h := get in
  let prev := killSwitch (policy h) in
  let unblocked := if enabled : bool then ∅ else fwBlocked h in
  modify (fun h => h <| policy ::= fun p => p <| killSwitch := enabled |> |>
                     <| fwBlocked ::= fun b => if enabled : bool then b else ∅ |>) >>
  let! applied := applyFirewall in
  if applied : bool then ret (Ok tt)
  else
    modify (fun h => h <| policy ::= fun p => p <| killSwitch := prev |> |>
                       <| fwBlocked ::= fun b => unblocked ∪ b |>) >>
    ret (Err ErrFirewall).

Definition handleSetDNSProtection (enabled : bool) : M (result HelperError unit) :=
  let! h := get in
  let prev := dnsProtection (policy h) in
  modify (fun h => h <| policy ::= fun p => p <| dnsProtection := enabled |> |>) >>
  let! applied := applyFirewall in
  if applied : bool then ret (Ok tt)
  else
    modify (fun h => h <| policy ::= fun p => p <| dnsProtection := prev |> |>) >>
    ret (Err ErrFirewall).

Definition handleSetHealthCheck (enabled : bool) : M unit := call (CHealthCheck enabled) >> ret tt.
Definition handleSetPinInterface (enabled : bool) : M unit := call (CSetPin enabled) >> ret tt.

Definition handleFeedCredentials (name username password response : string)
    : M (result HelperError unit) :=
  let! v := look in
  match v_ovpn v with
  | None => ret (Err ErrNoOpenVPN)
  | Some _ =>
      let! r := call (COvpnFeed name username password response) in
      ret (if ok r then Ok tt else Err ErrBackend)
  end.

Definition handleIsConnected : M bool := let! v := look in ret (IsConnected (v_wg v)).

Definition handleActiveName : M string :=
  let! v := look in
  let name := ActiveTunnel (v_wg v) in
  ret (match v_ovpn v with
       | Some o => if name =s "" then hd "" (ob_ActiveTunnelNames o) else name
       | None => name
       end).

(** The running tunnels and the protected ones. *)
Definition handleActiveTunnels : M (list string * list string) :=
  let! v := look in
  let! h := get in
  let names := activeTunnelNames (v_wg v)
               ++ match v_ovpn v with Some o => ob_ActiveTunnelNames o | None => [] end in
  ret (names, protectedTunnels h names).

(** ** Callbacks *)

Definition onWireGuardEngineDied (name : string) : M unit :=
  modify (fun h => forgetOrHold h name ProtocolWireGuard (forget_wg name)) >>
  applyFirewall >> call (CNotifyDied name) >> ret tt.

Definition onOVPNDied (name : string) : M unit :=
  modify (fun h => h <| ovpnDying ::= fun s => s ∖ {[name]} |>) >>
  modify (fun h => forgetOrHold h name ProtocolOpenVPN (forget_ovpn name)) >>
  applyFirewall >> call (CNotifyDied name) >> ret tt.

Definition onOVPNGone (st : ConnectionStatus) : M unit :=
  let name := cs_TunnelName st in
  let! v := look in
  let gone := match v_ovpn v with Some o => negb (bool_decide (is_Some (ob_GetStatus o name))) | None => false end in
  if bool_decide (cs_State st = StateConnected) || bool_decide (cs_State st = StateConnecting) || negb gone
  then ret tt
  else
    let! h := get in
    match ovpn_gone h name with
    | None => ret tt
    | Some (pending, h') =>
        modify (fun _ => h') >> if pending : bool then applyFirewall >> ret tt else ret tt
    end.

(** Without the broadcast to the clients. *)
Definition broadcastOvpnStatus (st : ConnectionStatus) : M unit :=
  modify (fun h => recordOVPNStatus h st) >> onOVPNGone st.

Definition interface_known (v : View) (name : string) : bool :=
  match v_ovpn v with
  | None => false
  | Some o =>
      hasKnownRemote o name
      || match ob_GetStatus o name with
         | Some st => bool_decide (cs_State st = StateConnected) && negb (cs_InterfaceName st =s "")
         | None => false
         end
  end.

Definition onOVPNActiveChange (name : string) (active : bool) : M unit :=
  let! v := look in
  (if active && interface_known v name then modify (fun h => clear_pending h name) else ret tt) >>
  applyFirewall >> ret tt.

(** A new timer is named by the number of calls made before. *)
Definition startShutdownTimer : M unit :=
  modify (fun h => h <| guiGone := true |>) >>
  let! v := look in
  let! h := get in
  if anyTunnelActive h v then ret tt
  else fun s =>
    let t := length (snd s) in
    (modify (fun h => h <| shutdownTimer := Some t |>) >> call (CAfterFunc t) >> ret tt) s.

Definition rearmShutdownIfIdle : M unit :=
  let! h := get in
  if negb (guiGone h && negb (bool_decide (is_Some (shutdownTimer h)))) then ret tt
  else
    let! v := look in
    if anyTunnelActive h v then ret tt else startShutdownTimer.

(** The body of timer [t]. *)
Definition shutdown_timer_fired (t : nat) : M unit :=
  let! h := get in
  let! v := look in
  let '(down, h') := timer_fires t h v in
  modify (fun _ => h') >> if down : bool then call CShutdown >> ret tt else ret tt.

Fixpoint recycle_all (names : list string) : M unit :=
  match names with
  | [] => ret tt
  | n :: names' => call (COvpnRecycle n) >> recycle_all names'
  end.

Definition checkOVPNWatchdog (now : Z) : M unit :=
  let! v := look in
  match v_ovpn v with
  | None => ret tt
  | Some o =>
      let! h := get in
      let '(names, h') := watchdog o now h in
      modify (fun _ => h') >> recycle_all names
  end.

(** One tick of eventLoop, without the broadcast. *)
Definition event_tick : M unit :=
  rearmShutdownIfIdle >> let! now := clock in checkOVPNWatchdog now.

(** cleanupOnce: a second call returns at once. *)
Definition cleanup : M unit :=
  let! h := get in
  if closed h then ret tt
  else
    modify (fun h => h <| closed := true |> <| shutdownTimer := None |>) >>
    call CMonitorStop >>
    let! v := look in
    (match v_ovpn v with Some _ => call COvpnStop >> ret tt | None => ret tt end) >>
    call CWgDisconnectAll >> call CFwCleanup >> ret tt.

(** ** Reconnecting *)

Definition ovpnConnectTimeout : Z := 90 * time_second.

(** The loop of waitOVPNConnected; [None] when the fuel runs out. *)
Fixpoint wait_loop (fuel : nat) (name : string) (deadline : Z) : M (option (result ReconnectError unit)) :=
  match fuel with
  | O => ret None
  | S fuel' =>
      let! now := clock in
      if negb (now <? deadline)%Z then
        call (COvpnDisconnect name) >> ret (Some (Err ErrAttempt))
      else
        let! v := look in
        match v_ovpn v with
        | None => ret (Some (Err ErrAttempt))
        | Some o =>
            match ob_GetStatus o name with
            | None => ret (Some (Err ErrAttempt))
            | Some st =>
                if bool_decide (cs_State st = StateConnected) && hasKnownRemote o name
                then ret (Some (Ok tt))
                else
                  let deadline := if ob_IsAwaitingCredentials o name then (now + ovpnConnectTimeout)%Z
                                  else deadline in
                  call CTick >>
                  let! h := get in
                  if closed h then ret (Some (Err ErrAttempt)) else wait_loop fuel' name deadline
            end
        end
  end.

Definition waitOVPNConnected (fuel : nat) (name : string) : M (option (result ReconnectError unit)) :=
  let! now := clock in wait_loop fuel name (now + ovpnConnectTimeout)%Z.

Definition reconnectFn (fuel : nat) (name : string) : M (option (result ReconnectError unit)) :=
  passResolvedHostnames name >>
  let! h := get in
  if closed h then ret (Some (Err ErrGiveUp))
  else
    let want := default false (autoReconnect h !! name) in
    match want, activeCfgs h !! name, activeOVPNCfgs h !! name with
    | true, Some cfg, _ =>
        let! r := call (CWgConnect cfg) in
        if ok r then applyFirewall >> ret (Some (Ok tt)) else ret (Some (Err ErrAttempt))
    | true, None, Some content =>
        let! v := look in
        match v_ovpn v with
        | None => ret (Some (Err ErrGiveUp))
        | Some _ =>
            modify (fun h => h <| ovpnErrors ::= fun m => delete name m |>) >>
            let! r := call (COvpnConnect name content) in
            match r with
            | RFailed => ret (Some (Err ErrAttempt))
            | _ => waitOVPNConnected fuel name
            end
        end
    | _, _, _ => ret (Some (Err ErrGiveUp))
    end.
End Programs.
