(* ===== verification/HelperFacts.v ===== *)
(** * What the helper's ruleset enforces

    [ruleset_kill_switch] says exactly when the kill switch is loaded, [ruleset_passes] what it
    lets through, [blocked_fails_closed] what is left when only dead tunnels are blocked. *)

From S2P Require Import Prelude GoStrings GoNet Domain OvpnParse OvpnProfile TunnelManager Firewall HelperFirewall.

(** ** Lists of live tunnels *)

Definition live_names (v : View) : list string := (fst (liveTunnels v)).*1.

Lemma elem_of_live v x :
  x ∈ fst (liveTunnels v)
  <-> x ∈ wg_live v \/ exists o, v_ovpn v = Some o /\ x ∈ ovpn_live o.
Proof.
  unfold liveTunnels. cbn [fst]. rewrite merge_sort_Permutation, elem_of_app.
  destruct (v_ovpn v) as [o|].
  - split; [intros [?|?]; eauto|intros [?|(? & [= ->] & ?)]; eauto].
  - rewrite elem_of_nil. split; [intros [?|[]]; eauto|intros [?|(? & ? & ?)]; [by left|done]].
Qed.

(** ** Refreshing the caches *)

Lemma refresh_live_same h l :
  activeCfgs (refresh_live h l) = activeCfgs h /\ activeOVPNCfgs (refresh_live h l) = activeOVPNCfgs h
  /\ fwHeld (refresh_live h l) = fwHeld h /\ fwPending (refresh_live h l) = fwPending h
  /\ dnsLookups (refresh_live h l) = dnsLookups h.
Proof. by destruct l. Qed.

Lemma refresh_all_same live : forall h,
  activeCfgs (foldl refresh_live h live) = activeCfgs h
  /\ activeOVPNCfgs (foldl refresh_live h live) = activeOVPNCfgs h
  /\ fwHeld (foldl refresh_live h live) = fwHeld h
  /\ fwPending (foldl refresh_live h live) = fwPending h
  /\ dnsLookups (foldl refresh_live h live) = dnsLookups h.
Proof.
  induction live as [|l live IH]; intros h; [done|]. cbn [foldl].
  destruct (IH (refresh_live h l)) as (-> & -> & -> & -> & ->). apply refresh_live_same.
Qed.

(** The blocks left are those of the tunnels that are not up. *)
Lemma refresh_blocked live : forall h name,
  fwBlocked (foldl refresh_live h live) !! name
  = if bool_decide (name ∈ live.*1) then None else fwBlocked h !! name.
Proof.
  induction live as [|[n t] live IH]; intros h name; [done|]. cbn [foldl fmap list_fmap fst].
  rewrite IH. cbn. destruct (decide (name = n)) as [->|Hne].
  - rewrite lookup_delete_eq, (bool_decide_eq_true_2 (n ∈ n :: _)) by apply list_elem_of_here.
    by case_bool_decide.
  - rewrite lookup_delete_ne by done. do 2 case_bool_decide; try done.
    + by destruct (not_elem_of_cons live.*1 name n) as [? ?]; exfalso; eauto using list_elem_of_further.
    + exfalso. apply elem_of_cons in H0 as [?|?]; done.
Qed.

Lemma elem_of_held_names h n :
  n ∈ held_names h <-> is_Some (fwHeld h !! n) \/ n ∈ fwPending h /\ held h n = 0%nat.
Proof.
  unfold held_names. rewrite elem_of_sort_strings, elem_of_app.
  assert (n ∈ (map_to_list (fwHeld h)).*1 <-> is_Some (fwHeld h !! n)) as ->.
  { rewrite <- (elem_of_sorted_keys (fwHeld h)). unfold sorted_keys. by rewrite elem_of_sort_strings. }
  rewrite (list_elem_of_In (List.filter _ _)), filter_In, <- list_elem_of_In, elem_of_elements.
  by rewrite Nat.eqb_eq.
Qed.

Lemma held_names_nonempty h : held_names h = [] <-> fwHeld h = ∅ /\ fwPending h = ∅.
Proof.
  split.
  - intros H. assert (Hn : forall n, n ∉ held_names h) by (intros n; rewrite H; apply not_elem_of_nil).
    setoid_rewrite elem_of_held_names in Hn. split.
    + apply map_eq. intros n. rewrite lookup_empty. destruct (fwHeld h !! n) eqn:E; [|done].
      exfalso. apply (Hn n). left. by eexists.
    + apply set_eq. intros n. split; [|by intros ?%not_elem_of_empty]. intros Hp. exfalso.
      apply (Hn n). unfold held. destruct (fwHeld h !! n) as [k|] eqn:E; [left; by eexists|by right].
  - intros [Hh Hp]. destruct (held_names h) as [|n l] eqn:E; [done|].
    assert (Hn : n ∈ held_names h) by (rewrite E; apply list_elem_of_here).
    apply elem_of_held_names in Hn. rewrite Hh, Hp, lookup_empty in Hn.
    destruct Hn as [[? ?]|[?%not_elem_of_empty ?]]; done.
Qed.

(** ** When the rules are loaded *)

(** Some tunnel is up, held for a reconnect, or dead and blocked. *)
Definition protecting (h : Helper) (v : View) : Prop :=
  live_names v <> [] \/ fwHeld h <> ∅ \/ fwPending h <> ∅
  \/ exists name, is_Some (fwBlocked h !! name) /\ name ∉ live_names v.

Definition entries_of (h : Helper) (v : View) : list KillSwitchTunnel :=
  let live := fst (liveTunnels v) in
  let h1 := foldl refresh_live h live in
  live.*2 ++ multi_entries h1 None live.*1
  ++ concat (held_entries h1 <$> List.filter (fun n => negb (mem n live.*1)) (held_names h1)).

Lemma held_entries_ne h name : held_entries h name <> [].
Proof. unfold held_entries. by destruct (pass_entries h name). Qed.

Lemma entries_empty h v :
  entries_of h v = [] <-> live_names v = [] /\ fwHeld h = ∅ /\ fwPending h = ∅.
Proof.
  unfold entries_of, live_names. set (live := fst (liveTunnels v)). cbv zeta.
  destruct (refresh_all_same live h) as (_ & _ & Eh & Ep & _). split.
  - intros H. apply app_eq_nil in H as [Hl [_ H]%app_eq_nil]. apply fmap_nil_inv in Hl. rewrite Hl in *.
    split; [done|]. cbn in H. apply held_names_nonempty. destruct (held_names h) as [|n l]; [done|].
    cbn in H. by apply app_eq_nil in H as [?%held_entries_ne _].
  - intros (Hl & Hh & Hp). apply fmap_nil_inv in Hl. rewrite Hl. cbn.
    assert (held_names h = []) as -> by by apply held_names_nonempty. done.
Qed.

Lemma ruleset_eq h v :
  ruleset h v
  = (let h1 := foldl refresh_live h (fst (liveTunnels v)) in
     let blocked := killSwitch (policy h) && negb (bool_decide (fwBlocked h1 = ∅)) in
     (if bool_decide (entries_of h v = []) && negb blocked then zero_ruleset
      else MkRuleset (killSwitch (policy h)) (entries_of h v) (dnsProtection (policy h))
             (snd (liveTunnels v)) (lookup_servers h1),
      prune_endpoints h1 (live_names v))).
Proof. done. Qed.

Lemma blocked_left h v :
  fwBlocked (foldl refresh_live h (fst (liveTunnels v))) <> ∅
  <-> exists name, is_Some (fwBlocked h !! name) /\ name ∉ live_names v.
Proof.
  split.
  - intros H. apply map_choose in H as (name & p & H). rewrite refresh_blocked in H.
    case_bool_decide; [done|]. exists name. split; [by eexists|done].
  - intros (name & [p Hp] & Hn) H. apply (f_equal (.!! name)) in H.
    by rewrite refresh_blocked, bool_decide_eq_false_2, Hp, lookup_empty in H.
Qed.

(** ** What the endpoints come from *)

(** A pass of protocol [proto] for the endpoint [ep]. *)
Definition in_passes (c : list KillSwitchTunnel) (proto ep : string) : Prop :=
  exists p, p ∈ c /\ ks_Proto p = proto /\ ep ∈ ks_Endpoints p.

Lemma in_passes_nil proto ep : in_passes [] proto ep <-> False.
Proof. split; [|done]. intros (p & H & _). by apply elem_of_nil in H. Qed.

Lemma in_passes_cons p c proto ep :
  in_passes (p :: c) proto ep <-> ks_Proto p = proto /\ ep ∈ ks_Endpoints p \/ in_passes c proto ep.
Proof. exact (exists_elem_of_cons (fun p => ks_Proto p = proto /\ ep ∈ ks_Endpoints p) p c). Qed.

Lemma in_passes_app c d proto ep :
  in_passes (c ++ d) proto ep <-> in_passes c proto ep \/ in_passes d proto ep.
Proof.
  induction c as [|p c IH]; [rewrite in_passes_nil; tauto|].
  change ((p :: c) ++ d) with (p :: (c ++ d)). rewrite !in_passes_cons, IH. tauto.
Qed.

Lemma in_passes_concat {A} (f : A -> list KillSwitchTunnel) l proto ep :
  in_passes (concat (f <$> l)) proto ep <-> exists a, a ∈ l /\ in_passes (f a) proto ep.
Proof.
  unfold in_passes. setoid_rewrite elem_of_concat_fmap. split.
  - intros (p & (a & Ha & Hp) & H). eauto.
  - intros (a & Ha & p & Hp & H). eauto.
Qed.

Lemma in_passes_add c pr e proto ep :
  in_passes (addPass c pr e) proto ep <-> in_passes c proto ep \/ pr = proto /\ e = ep.
Proof.
  induction c as [|p c IH]; cbn [addPass].
  - rewrite in_passes_cons, !in_passes_nil. cbn. rewrite list_elem_of_singleton. intuition congruence.
  - case_bool_decide as E; [|rewrite !in_passes_cons, IH; tauto].
    rewrite !in_passes_cons. unfold mem. case_bool_decide as Hin; cbn.
    + split; [tauto|]. intros [H|[<- <-]]; [done|]. by left.
    + rewrite elem_of_app, list_elem_of_singleton. intuition congruence.
Qed.

Lemma in_passes_adds l proto ep : forall c,
  in_passes (add_passes c l) proto ep
  <-> in_passes c proto ep \/ exists e, e ∈ l /\ le_proto e = proto /\ le_ep e = ep.
Proof.
  unfold add_passes. induction l as [|e l IH]; intros c; cbn [foldl].
  - split; [by left|]. intros [H|(? & H%elem_of_nil & _)]; done.
  - rewrite IH, in_passes_add, exists_elem_of_cons. tauto.
Qed.

Lemma in_passes_copy_one pr eps proto ep : forall c,
  in_passes (foldl (fun out e => addPass out pr e) c eps) proto ep
  <-> in_passes c proto ep \/ pr = proto /\ ep ∈ eps.
Proof.
  induction eps as [|e eps IH]; intros c; cbn [foldl]; [rewrite elem_of_nil; tauto|].
  rewrite IH, in_passes_add, elem_of_cons. intuition congruence.
Qed.

Lemma in_passes_copy ps proto ep : forall c,
  in_passes (foldl (fun out p => foldl (fun out e => addPass out (ks_Proto p) e) out (ks_Endpoints p)) c ps)
    proto ep
  <-> in_passes c proto ep \/ in_passes ps proto ep.
Proof.
  induction ps as [|p ps IH]; intros c; cbn [foldl]; [rewrite in_passes_nil; tauto|].
  rewrite IH, in_passes_copy_one, in_passes_cons. tauto.
Qed.

Definition cache (h : Helper) (name : string) : cachedEndpoints := default no_cache (fwEndpoints h !! name).

(** An IP literal of the tunnel's profile, or an answer for one of its host names. *)
Definition configured (h : Helper) (name proto ep : string) : Prop :=
  MkLiteral ep proto ∈ fst (configuredEndpoints h name) \/ MkLiteral ep proto ∈ ce_resolved (cache h name).

(** Any of those, or an endpoint the tunnel was last connected to. *)
Definition known (h : Helper) (name proto ep : string) : Prop :=
  in_passes (ce_passes (cache h name)) proto ep \/ configured h name proto ep.

Lemma literal_eta (l : list literalEndpoint) proto ep :
  (exists e, e ∈ l /\ le_proto e = proto /\ le_ep e = ep) <-> MkLiteral ep proto ∈ l.
Proof. split; [by intros ([] & H & <- & <-)|]. intros H. by exists (MkLiteral ep proto). Qed.

Lemma endpointPasses_known h name proto ep :
  in_passes (endpointPasses h name) proto ep <-> known h name proto ep.
Proof.
  unfold endpointPasses, known, configured, cache.
  rewrite !in_passes_adds, in_passes_copy, in_passes_nil, !literal_eta. tauto.
Qed.

Lemma in_passes_entries h name proto ep :
  in_passes (pass_entries h name) proto ep <-> known h name proto ep.
Proof.
  rewrite <- endpointPasses_known. unfold pass_entries, in_passes. split.
  - intros (p & (q & -> & Hq)%list_elem_of_fmap & H). by exists q.
  - intros (q & Hq & H). exists (MkKs "" (ks_Proto q) (ks_Endpoints q)). split; [|done].
    by apply (list_elem_of_fmap_2 (fun p => MkKs "" (ks_Proto p) (ks_Endpoints p))).
Qed.

Lemma in_passes_held h name proto ep :
  in_passes (held_entries h name) proto ep <-> known h name proto ep.
Proof.
  rewrite <- in_passes_entries. unfold held_entries. destruct (pass_entries h name); [|done].
  rewrite in_passes_cons, in_passes_nil. cbn. rewrite elem_of_nil. tauto.
Qed.

(** A name that repeats adds nothing: its entries are there from the first time. *)
Lemma in_passes_multi_prev h names proto ep : forall prev,
  let K n := isMultiRemoteOVPN h n = true /\ known h n proto ep in
  in_passes (multi_entries h prev names) proto ep \/ (exists n, prev = Some n /\ K n)
  <-> exists n, (prev = Some n \/ n ∈ names) /\ K n.
Proof.
  induction names as [|n names IH]; intros prev K; cbn [multi_entries].
  { rewrite in_passes_nil. setoid_rewrite elem_of_nil.
    split; [intros [[]|(n & ? & ?)]; exists n; tauto|intros (n & [?|[]] & ?); right; by exists n]. }
  specialize (IH (Some n)). cbv zeta in IH. fold K in IH.
  assert (Hs : forall m, m ∈ n :: names <-> n = m \/ m ∈ names) by (intros m; rewrite elem_of_cons; intuition).
  setoid_rewrite Hs. rewrite in_passes_app.
  assert (Hn : K n <-> exists m, Some n = Some m /\ K m) by (split; [eauto|by intros (? & [= ->] & ?)]).
  assert (Hi : (exists m, (Some n = Some m \/ m ∈ names) /\ K m) <-> exists m, (n = m \/ m ∈ names) /\ K m).
  { split; intros (m & Hm & HK); exists m; (split; [|done]); destruct Hm as [Hm|]; [left; congruence|by right|
      left; congruence|by right]. }
  rewrite Hi, <- Hn in IH. clear Hi Hn Hs.
  assert (Hp : forall P : string -> Prop, (exists m, (prev = Some m \/ P m) /\ K m)
                 <-> (exists m, prev = Some m /\ K m) \/ exists m, P m /\ K m) 
    by (intros P; clear; split; [intros (m & [?|?] & ?); [left|right]; exists m; done
                                |intros [(m & ? & ?)|(m & ? & ?)]; exists m; tauto]).
  rewrite Hp, <- IH. destruct (bool_decide (prev = Some n)) eqn:E1; cbn [orb].
  - apply bool_decide_eq_true in E1. subst prev. rewrite in_passes_nil.
    assert (K n -> exists m, Some n = Some m /\ K m) by eauto. tauto.
  - destruct (isMultiRemoteOVPN h n) eqn:E2; cbn [negb].
    + rewrite in_passes_entries. unfold K at 3. rewrite E2. tauto.
    + rewrite in_passes_nil. unfold K at 3. rewrite E2. intuition congruence.
Qed.

Lemma in_passes_multi h names proto ep :
  in_passes (multi_entries h None names) proto ep
  <-> exists n, n ∈ names /\ isMultiRemoteOVPN h n = true /\ known h n proto ep.
Proof.
  pose proof (in_passes_multi_prev h names proto ep None) as H. cbv zeta in H. split.
  - intros Hin. destruct (proj1 H (or_introl Hin)) as (n & [?|?] & ?); [done|by exists n].
  - intros (n & Hn & HK). destruct (proj2 H) as [?|(? & ? & _)]; [|done|done]. exists n. tauto.
Qed.

(** ** The caches after a refresh *)

Lemma refresh_cache_other live : forall h name,
  name ∉ live.*1 -> cache (foldl refresh_live h live) name = cache h name.
Proof.
  induction live as [|[n t] live IH]; intros h name Hn; [done|]. cbn [foldl].
  apply not_elem_of_cons in Hn as [Hne Hn]. rewrite IH by done. unfold cache. cbn.
  by rewrite lookup_insert_ne by (intros ->; done).
Qed.

Lemma refresh_resolved live : forall h name,
  ce_resolved (cache (foldl refresh_live h live) name) = ce_resolved (cache h name).
Proof.
  induction live as [|[n t] live IH]; intros h name; [done|]. cbn [foldl]. rewrite IH. unfold cache. cbn.
  destruct (decide (n = name)) as [->|Hne]; [by rewrite lookup_insert_eq|by rewrite lookup_insert_ne].
Qed.

Lemma refresh_passes live : forall h name proto ep,
  in_passes (ce_passes (cache (foldl refresh_live h live) name)) proto ep ->
  name ∈ live.*1 -> in_passes live.*2 proto ep.
Proof.
  induction live as [|[n t] live IH]; intros h name proto ep H Hin; [by apply elem_of_nil in Hin|].
  cbn [fmap list_fmap snd]. apply in_passes_cons. destruct (decide (name ∈ live.*1)) as [Hl|Hl].
  { right. cbn [foldl] in H. by eapply IH. }
  left. apply elem_of_cons in Hin as [->|?]; [|done]. cbn [foldl fst] in H.
  rewrite refresh_cache_other in H by done. unfold cache in H. cbn in H.
  rewrite lookup_insert_eq in H. cbn in H. rewrite in_passes_cons, in_passes_nil in H. by destruct H.
Qed.

(** ** The ruleset *)

Lemma refresh_configured live h name :
  configuredEndpoints (foldl refresh_live h live) name = configuredEndpoints h name.
Proof.
  unfold configuredEndpoints. by destruct (refresh_all_same live h) as (-> & -> & _).
Qed.

Lemma refresh_multi live h name :
  isMultiRemoteOVPN (foldl refresh_live h live) name = isMultiRemoteOVPN h name.
Proof. unfold isMultiRemoteOVPN. by destruct (refresh_all_same live h) as (_ & -> & _). Qed.

Lemma refresh_known_other live h name proto ep :
  name ∉ live.*1 -> known (foldl refresh_live h live) name proto ep <-> known h name proto ep.
Proof.
  intros Hn. unfold known, configured. by rewrite refresh_cache_other, refresh_configured.
Qed.

Lemma refresh_known_live live h name proto ep :
  name ∈ live.*1 ->
  in_passes live.*2 proto ep \/ known (foldl refresh_live h live) name proto ep
  <-> in_passes live.*2 proto ep \/ configured h name proto ep.
Proof.
  intros Hn. unfold known, configured. rewrite refresh_configured, refresh_resolved.
  split; [|tauto]. intros [?|[H|?]]; [by left| |by right].
  left. by eapply refresh_passes.
Qed.

(** Held for a reconnect, by a sequence or pending. *)
Definition in_hold (h : Helper) (name : string) : Prop :=
  is_Some (fwHeld h !! name) \/ name ∈ fwPending h.

Lemma held_names_hold h n : n ∈ held_names h <-> in_hold h n.
Proof.
  rewrite elem_of_held_names. unfold in_hold, held. destruct (fwHeld h !! n) eqn:E; cbn.
  - split; [tauto|]. left. by eexists.
  - intuition.
Qed.

Lemma in_passes_entries_of h v proto ep :
  in_passes (entries_of h v) proto ep
  <-> in_passes ((fst (liveTunnels v)).*2) proto ep
      \/ (exists n, n ∈ live_names v /\ isMultiRemoteOVPN h n = true /\ configured h n proto ep)
      \/ exists n, ~ n ∈ live_names v /\ in_hold h n /\ known h n proto ep.
Proof.
  unfold entries_of, live_names. set (live := fst (liveTunnels v)). cbv zeta.
  rewrite !in_passes_app, in_passes_multi, in_passes_concat.
  setoid_rewrite in_passes_held. setoid_rewrite list_elem_of_In at 2. setoid_rewrite filter_In.
  setoid_rewrite <- list_elem_of_In. setoid_rewrite held_names_hold. setoid_rewrite refresh_multi.
  destruct (refresh_all_same live h) as (_ & _ & Eh & Ep & _). unfold in_hold. rewrite Eh, Ep.
  unfold mem. split.
  - intros [H|[(n & Hn & Hm & HK)|(n & [Hh Hn%negb_true_iff%bool_decide_eq_false] & HK)]].
    + by left.
    + destruct (proj1 (refresh_known_live live h n proto ep Hn) (or_intror HK)) as [?|?]; [by left|].
      right. left. by exists n.
    + right. right. exists n. by rewrite refresh_known_other in HK.
  - intros [H|[(n & Hn & Hm & HK)|(n & Hn & Hh & HK)]].
    + by left.
    + destruct (proj2 (refresh_known_live live h n proto ep Hn) (or_intror HK)) as [?|?]; [by left|].
      right. left. by exists n.
    + right. right. exists n. rewrite refresh_known_other by done. split; [|done]. split; [done|].
      by apply negb_true_iff, bool_decide_eq_false.
Qed.

Lemma multi_no_iface h names : forall prev t, t ∈ multi_entries h prev names -> ks_InterfaceName t = "".
Proof.
  induction names as [|n names IH]; intros prev t; cbn [multi_entries]; [by intros ?%elem_of_nil|].
  intros [H|H]%elem_of_app; [|by eapply IH]. destruct (_ || _); [by apply elem_of_nil in H|].
  by apply list_elem_of_fmap in H as (p & -> & _).
Qed.

Lemma held_no_iface h name t : t ∈ held_entries h name -> ks_InterfaceName t = "".
Proof.
  unfold held_entries. destruct (pass_entries h name) eqn:E; [by intros ->%list_elem_of_singleton|].
  rewrite <- E. by intros (p & -> & _)%list_elem_of_fmap.
Qed.

Lemma entries_iface h v t :
  t ∈ entries_of h v -> ks_InterfaceName t <> "" -> t ∈ (fst (liveTunnels v)).*2.
Proof.
  unfold entries_of. intros [H|[H|H]%elem_of_app]%elem_of_app Hi; [done|exfalso..].
  - by apply multi_no_iface in H.
  - apply elem_of_concat_fmap in H as (n & _ & H). by apply held_no_iface in H.
Qed.

Lemma ruleset_loaded h v :
  (rs_KillSwitch (fst (ruleset h v)) = true <-> killSwitch (policy h) = true /\ protecting h v)
  /\ (protecting h v \/ fst (ruleset h v) = zero_ruleset).
Proof.
  rewrite ruleset_eq. cbv zeta. cbn [fst].
  pose proof (entries_empty h v) as He. pose proof (blocked_left h v) as Hb. unfold protecting.
  rewrite <- Hb. clear Hb. destruct (decide (entries_of h v = [])) as [E|E].
  - rewrite (bool_decide_eq_true_2 _ E). cbn [andb]. apply He in E as (-> & -> & ->).
    destruct (killSwitch (policy h)) eqn:Ek; cbn [andb negb rs_KillSwitch zero_ruleset];
      [|split; [intuition congruence|by right]].
    case_bool_decide as Eb; cbn.
    + split; [|by right]. split; [done|]. intros [_ [?|[?|[?|?]]]]; done.
    + split; [|left; tauto]. split; [tauto|done].
  - rewrite (bool_decide_eq_false_2 _ E). cbn [andb rs_KillSwitch].
    assert (live_names v <> [] \/ fwHeld h <> ∅ \/ fwPending h <> ∅) as Hp.
    { destruct (decide (live_names v = [])) as [E1|]; [|tauto].
      destruct (decide (fwHeld h = ∅)) as [E2|]; [|tauto].
      destruct (decide (fwPending h = ∅)) as [E3|]; [|tauto]. exfalso. apply E, He. done. }
    split; [|left; tauto]. split; [|by intros [? _]]. intros ->. split; [done|]. tauto.
Qed.

(** C4: the kill switch is loaded exactly when the policy asks for it and some tunnel is up, held
    for a reconnect, or dead and blocked; when none is, the rules are removed.  So the kill
    switch survives every death and every reconnect of a tunnel that is held or blocked. *)
Theorem ruleset_kill_switch (h : Helper) (v : View) :
  (rs_KillSwitch (fst (ruleset h v)) = true <-> killSwitch (policy h) = true /\ protecting h v)
  /\ (protecting h v \/ fst (ruleset h v) = zero_ruleset).
Proof.
  apply ruleset_loaded.
Qed.

Lemma passes_exact (h : Helper) (v : View) :
  (forall proto ep,
     in_passes (rs_Tunnels (fst (ruleset h v))) proto ep
     <-> in_passes ((fst (liveTunnels v)).*2) proto ep
         \/ (exists n, n ∈ live_names v /\ isMultiRemoteOVPN h n = true /\ configured h n proto ep)
         \/ exists n, ~ n ∈ live_names v /\ in_hold h n /\ known h n proto ep)
  /\ forall iface, iface <> "" ->
       (exists t, t ∈ rs_Tunnels (fst (ruleset h v)) /\ ks_InterfaceName t = iface)
       <-> exists t, t ∈ (fst (liveTunnels v)).*2 /\ ks_InterfaceName t = iface.
Proof.
  assert (Hrs : rs_Tunnels (fst (ruleset h v)) = entries_of h v).
  { rewrite ruleset_eq. cbv zeta. cbn [fst]. case_bool_decide as E; [|done].
    destruct (negb _); [by rewrite E|done]. }
  rewrite Hrs. split; [apply in_passes_entries_of|]. intros iface Hne. split.
  - intros (t & Ht & Hi). exists t. split; [|done]. apply (entries_iface h); [done|by rewrite Hi].
  - intros (t & Ht & Hi). exists t. split; [|done]. unfold entries_of. apply elem_of_app. by left.
Qed.

(** C5: what the rules let through, exactly: the endpoints of the tunnels that are up, every
    remote of a multi-remote profile that is up, and every endpoint known for a tunnel held for
    a reconnect; and the interfaces of the tunnels that are up.  A blocked tunnel adds nothing. *)
Theorem ruleset_passes (h : Helper) (v : View) :
  (forall proto ep,
     in_passes (rs_Tunnels (fst (ruleset h v))) proto ep
     <-> in_passes ((fst (liveTunnels v)).*2) proto ep
         \/ (exists n, n ∈ live_names v /\ isMultiRemoteOVPN h n = true /\ configured h n proto ep)
         \/ exists n, ~ n ∈ live_names v /\ in_hold h n /\ known h n proto ep)
  /\ forall iface, iface <> "" ->
       (exists t, t ∈ rs_Tunnels (fst (ruleset h v)) /\ ks_InterfaceName t = iface)
       <-> exists t, t ∈ (fst (liveTunnels v)).*2 /\ ks_InterfaceName t = iface.
Proof. apply passes_exact. Qed.

Lemma no_live_no_dns v : fst (liveTunnels v) = [] -> snd (liveTunnels v) = [].
Proof.
  intros H. assert (Hnil : forall x, x ∉ fst (liveTunnels v)) by (intros x; rewrite H; apply not_elem_of_nil).
  setoid_rewrite elem_of_live in Hnil. unfold liveTunnels, live_dns. cbn [snd].
  assert (Hwg : ConnectedTunnels (v_wg v) = []).
  { apply (fmap_nil_inv (fun t => (ti_Name t, MkKs (ti_InterfaceName t) "udp" (ti_Endpoints t)))).
    apply elem_of_nil_inv. intros x Hx. apply (Hnil x). by left. }
  rewrite Hwg. destruct (v_ovpn v) as [o|]; [|done].
  assert (Ho : ovpn_live o = []) by (apply elem_of_nil_inv; intros x Hx; apply (Hnil x); right; by exists o).
  apply app_eq_nil in Ho as [Hr%fmap_nil_inv Hs%fmap_nil_inv]. by rewrite Hr, Hs.
Qed.

(** When the only tunnels left are dead ones under the kill switch and no lookup is running,
    the rules are fail closed: loopback, DHCP and neighbour discovery, and nothing else. *)
Theorem blocked_fails_closed (h : Helper) (v : View) (name : string) (proto : Protocol) :
  killSwitch (policy h) = true -> live_names v = [] -> fwHeld h = ∅ -> fwPending h = ∅ ->
  fwBlocked h !! name = Some proto -> dnsLookups h = ∅ ->
  rules_of (fst (ruleset h v))
  = Ok (Some [RComment; RScrubIn; RScrubOut; RLoopback; RDhcp4; RDhcp6; RNeighbour; RBlockOut; RBlockIn]).
Proof.
  intros Hk Hl Hh Hp Hb Hd. rewrite ruleset_eq. cbv zeta. cbn [fst].
  assert (He : entries_of h v = []) by by apply entries_empty.
  assert (Hblock : fwBlocked (foldl refresh_live h (fst (liveTunnels v))) <> ∅).
  { apply blocked_left. exists name. rewrite Hl. split; [by eexists|apply not_elem_of_nil]. }
  rewrite (bool_decide_eq_false_2 _ Hblock), Hk, He. cbn [andb negb bool_decide decide_rel].
  rewrite andb_false_r. unfold live_names in Hl. apply fmap_nil_inv in Hl. rewrite Hl. cbn [foldl].
  unfold lookup_servers. rewrite Hd.
  assert (Hdns : snd (liveTunnels v) = []) by by apply no_live_no_dns.
  rewrite Hdns. unfold rules_of, enforcesDNS. cbn [rs_DNSProtection rs_KillSwitch rs_DNSServers rs_Tunnels].
  by destruct (dnsProtection (policy h)).
Qed.

(** A helper whose tunnel died under the kill switch. *)
Definition blocked_helper : Helper :=
  new_helper <| policy := MkPolicy true true |> <| fwBlocked := {["home" := ProtocolWireGuard]} |>.

Lemma blocked_fails_closed_witness :
  rules_of (fst (ruleset blocked_helper (MkView NewManager None)))
  = Ok (Some [RComment; RScrubIn; RScrubOut; RLoopback; RDhcp4; RDhcp6; RNeighbour; RBlockOut; RBlockIn]).
Proof. by apply (blocked_fails_closed _ _ "home" ProtocolWireGuard). Defined.
