(* ===== verification/HelperOpsFacts.v ===== *)
(** * What the helper's operations guarantee

    First the sections that run under [h.mu], in any interleaving ([run]); then whole
    operations. *)

From S2P Require Import Prelude GoStrings GoNet Domain Validator OvpnParse OvpnProfile TunnelManager Recovery Firewall HelperFirewall HelperOps HelperFacts.

(** ** Interleavings *)

(** The sections that change the state under [h.mu], whichever goroutine runs them. *)
Inductive Locked :=
| LHold (name : string)
| LRelease (name : string) (live : bool)
| LApply (v : View)
| LOpenWindow (name : string) (resolvers : list string)
| LCloseWindow (name : string)
| LStoreResolved (name : string) (answers : list literalEndpoint)
| LDying (name : string)
| LDyingDone (name : string)
| LDiedWg (name : string)
| LDiedOvpn (name : string)
| LGone (name : string)
| LStatus (st : ConnectionStatus)
| LClearPending (name : string)
| LDisconnect (name : string)
| LCacheWg (cfg : WireGuardConfig) (auto : bool)
| LUncacheWg (name : string) (prevCfg : option WireGuardConfig) (prevAuto : option bool)
| LCacheOvpn (name content : string) (auto : bool)
| LUncacheOvpn (name : string)
| LLift (name : string) (resolved : list literalEndpoint)
| LRestore (name : string) (proto : Protocol)
| LKillSwitch (enabled : bool)
| LReblock (enabled : bool) (unblocked : gmap string Protocol)
| LDNSProtection (enabled : bool)
| LForgetError (name : string)
| LGuiGone
| LArm (t : nat)
| LCancelTimer
| LTimerFires (t : nat) (v : View)
| LWatchdog (o : ovpnBackend) (now : Z)
| LClose.

Definition locked (l : Locked) (h : Helper) : Helper :=
  match l with
  | LHold n => hold h n
  | LRelease n live => release h n live
  | LApply v => snd (ruleset h v)
  | LOpenWindow n rs => open_window h n rs
  | LCloseWindow n => closeLookupWindow h n
  | LStoreResolved n a => storeResolved h n a
  | LDying n => onOVPNDying h n
  | LDyingDone n => h <| ovpnDying ::= fun s => s ∖ {[n]} |>
  | LDiedWg n => forgetOrHold h n ProtocolWireGuard (forget_wg n)
  | LDiedOvpn n => forgetOrHold h n ProtocolOpenVPN (forget_ovpn n)
  | LGone n => match ovpn_gone h n with Some (_, h') => h' | None => h end
  | LStatus st => recordOVPNStatus h st
  | LClearPending n => clear_pending h n
  | LDisconnect n => disconnect_clear h n
  | LCacheWg cfg auto => cache_wg h cfg auto
  | LUncacheWg n pc pa => uncache_wg h n pc pa
  | LCacheOvpn n c auto => cache_ovpn h n c auto
  | LUncacheOvpn n => uncache_ovpn h n
  | LLift n rs => snd (lift_block h n rs)
  | LRestore n p => restore_block h n p
  | LKillSwitch b => h <| policy ::= fun p => p <| killSwitch := b |> |>
                       <| fwBlocked ::= fun m => if b : bool then m else ∅ |>
  | LReblock b u => h <| policy ::= fun p => p <| killSwitch := b |> |> <| fwBlocked ::= fun m => u ∪ m |>
  | LDNSProtection b => h <| policy ::= fun p => p <| dnsProtection := b |> |>
  | LForgetError n => h <| ovpnErrors ::= fun m => delete n m |>
  | LGuiGone => h <| guiGone := true |>
  | LArm t => h <| shutdownTimer := Some t |>
  | LCancelTimer => cancelShutdownTimer h
  | LTimerFires t v => snd (timer_fires t h v)
  | LWatchdog o now => snd (watchdog o now h)
  | LClose => h <| closed := true |> <| shutdownTimer := None |>
  end.

Definition run (ls : list Locked) (h : Helper) : Helper := foldl (fun h l => locked l h) h ls.

Lemma ruleset_same h v :
  fwHeld (snd (ruleset h v)) = fwHeld h /\ fwPending (snd (ruleset h v)) = fwPending h
  /\ disconnectEpoch (snd (ruleset h v)) = disconnectEpoch h.
Proof.
  rewrite ruleset_eq. cbv zeta. cbn [snd]. set (live := fst (liveTunnels v)). set (h1 := foldl refresh_live h live).
  change (fwHeld h1 = fwHeld h /\ fwPending h1 = fwPending h /\ disconnectEpoch h1 = disconnectEpoch h).
  subst h1. destruct (refresh_all_same live h) as (_ & _ & -> & -> & _). split_and!; [done..|].
  revert h. induction live as [|[n t] l IH]; intros h; [done|]. cbn [foldl]. by rewrite IH.
Qed.

(** A field that a section does not write. *)
Ltac unchanged :=
  cbn [locked snd fst];
  unfold hold, release, open_window, closeLookupWindow, storeResolved, onOVPNDying, forgetOrHold,
    forget_wg, forget_ovpn, ovpn_gone, recordOVPNStatus, disconnect_clear, cache_wg, uncache_wg,
    cache_ovpn, uncache_ovpn, lift_block, restore_block, cancelShutdownTimer, timer_fires, watchdog,
    clear_pending;
  cbv zeta;
  repeat match goal with
  | |- context [if ?b then _ else _] => destruct b
  | |- context [match cs_State ?s with _ => _ end] => destruct (cs_State s)
  | |- context [let '(_, _) := ?p in _] => destruct p
  end;
  reflexivity.

(** ** Connects overtaken by a disconnect *)

Definition is_disconnect (name : string) (l : Locked) : bool :=
  match l with LDisconnect n => n =s name | _ => false end.

Definition disconnects (name : string) (ls : list Locked) : nat := length (List.filter (is_disconnect name) ls).

Lemma locked_epoch l h name :
  epoch_of (locked l h) name
  = if is_disconnect name l then ((epoch_of h name + 1) mod 2 ^ 64)%Z else epoch_of h name.
Proof.
  unfold epoch_of at 1 3. destruct l; cbn [is_disconnect]; try solve [unchanged].
  - cbn [locked]. by destruct (ruleset_same h v) as (_ & _ & ->).
  - cbn [locked]. unfold disconnect_clear. cbn. destruct (decide (name0 = name)) as [->|Hne].
    + by rewrite bool_decide_eq_true_2, lookup_insert_eq by done.
    + by rewrite bool_decide_eq_false_2, lookup_insert_ne by done.
Qed.

Lemma run_epoch ls : forall h name,
  (0 <= epoch_of h name < 2 ^ 64)%Z ->
  epoch_of (run ls h) name = ((epoch_of h name + Z.of_nat (disconnects name ls)) mod 2 ^ 64)%Z.
Proof.
  induction ls as [|l ls IH]; intros h name He.
  - cbn. rewrite Z.add_0_r, Z.mod_small by done. done.
  - change (run (l :: ls) h) with (run ls (locked l h)). unfold disconnects. cbn [List.filter].
    assert (Hl := locked_epoch l h name). destruct (is_disconnect name l).
    + rewrite IH by (rewrite Hl; apply Z.mod_pos_bound; lia). rewrite Hl. fold (disconnects name ls).
      rewrite Zplus_mod_idemp_l. f_equal. cbn [length]. fold (disconnects name ls). lia.
    + rewrite IH by (by rewrite Hl). by rewrite Hl.
Qed.

(** C14: a connect that a Disconnect of its tunnel overtook while it was resolving its endpoints,
    whatever else ran in between, is cancelled: it changes nothing and makes no call.  (The epoch
    is a uint64: fewer than 2^64 disconnects.) *)
Theorem overtaken_connect (env : Env) (req : ConnectRequest) (resolved : list literalEndpoint)
    (h : Helper) (ls : list Locked) (log : list Call) :
  (0 <= epoch_of h (connectName req) < 2 ^ 64)%Z ->
  (0 < disconnects (connectName req) ls)%nat ->
  (Z.of_nat (disconnects (connectName req) ls) < 2 ^ 64)%Z ->
  connect_locked env req (epoch_of h (connectName req)) resolved (run ls h, log)
  = (Err ErrCancelled, (run ls h, log)).
Proof.
  intros He Hpos Hlt. unfold connect_locked, bind, get. cbn [fst]. rewrite run_epoch by done.
  set (e := epoch_of h (connectName req)) in *. set (k := disconnects (connectName req) ls) in *.
  destruct (Z.eqb_spec ((e + Z.of_nat k) mod 2 ^ 64) e) as [E|]; [|done]. exfalso.
  destruct (Z_lt_le_dec (e + Z.of_nat k) (2 ^ 64)) as [Hs|Hb].
  - rewrite Z.mod_small in E by lia. lia.
  - replace (e + Z.of_nat k)%Z with ((e + Z.of_nat k - 2 ^ 64) + 1 * 2 ^ 64)%Z in E by lia.
    rewrite Z_mod_plus_full, Z.mod_small in E by lia. lia.
Qed.

(** A WireGuard connect request and a disconnect of its tunnel that runs meanwhile. *)
Definition home_request : ConnectRequest := MkConnectRequest (Some (zero_config <| Name := "home" |>)) true "" "" "".

Definition quiet_env : Env :=
  MkEnv (fun _ => MkView NewManager None) (fun _ => ROk) (fun _ => None) [] true (fun _ => 0%Z).

Definition home_lookup : list Locked := [LOpenWindow "home" []; LDisconnect "home"; LCloseWindow "home"].

Lemma overtaken_connect_witness :
  connect_locked quiet_env home_request (epoch_of new_helper "home") [] (run home_lookup new_helper, [])
  = (Err ErrCancelled, (run home_lookup new_helper, [])).
Proof.
  apply (overtaken_connect quiet_env home_request [] new_helper home_lookup []).
  - vm_compute. split; [discriminate|reflexivity].
  - vm_compute. apply le_n.
  - vm_compute. reflexivity.
Defined.

(** ** Counted holds *)

Definition is_hold (name : string) (l : Locked) : bool := match l with LHold n => n =s name | _ => false end.
Definition is_release (name : string) (l : Locked) : bool :=
  match l with LRelease n _ => n =s name | _ => false end.

Definition count (p : Locked -> bool) (ls : list Locked) : nat := length (List.filter p ls).

Lemma held_release h n live name :
  held (release h n live) name = if n =s name then pred (held h n) else held h name.
Proof.
  unfold release. destruct (Nat.ltb_spec 1 (held h n)) as [Hl|Hl].
  - unfold held at 1. cbn. case_bool_decide as E; [|by rewrite lookup_insert_ne].
    rewrite E, lookup_insert_eq. cbn. lia.
  - cbv zeta. set (h1 := h <| fwHeld ::= fun m => delete n m |>).
    transitivity (held h1 name); [by destruct (_ && _)|]. unfold h1, held at 1. cbn.
    case_bool_decide as E; [|by rewrite lookup_delete_ne]. rewrite E, lookup_delete_eq. cbn.
    rewrite E in Hl. lia.
Qed.

Lemma locked_fwHeld l h :
  match l with
  | LHold _ | LRelease _ _ | LApply _ | LDisconnect _ => True
  | _ => fwHeld (locked l h) = fwHeld h
  end.
Proof. destruct l; first [exact I | unchanged]. Qed.

Lemma locked_held l h name :
  held (locked l h) name
  = if is_hold name l then S (held h name)
    else if is_release name l then pred (held h name)
    else if is_disconnect name l then 0%nat else held h name.
Proof.
  pose proof (locked_fwHeld l h) as Hf.
  destruct l; cbn [is_hold is_release is_disconnect]; try solve [unfold held; rewrite Hf; reflexivity];
    clear Hf; cbn [locked].
  - unfold held at 1, hold. cbn. case_bool_decide as E; [by rewrite E, lookup_insert_eq|by rewrite lookup_insert_ne].
  - rewrite held_release. case_bool_decide as E; [by rewrite E|done].
  - unfold held. by destruct (ruleset_same h v) as (-> & _).
  - unfold held at 1, disconnect_clear. cbn.
    case_bool_decide as E; [by rewrite E, lookup_delete_eq|by rewrite lookup_delete_ne].
Qed.

Lemma run_held ls : forall h name,
  count (is_disconnect name) ls = 0%nat ->
  (held h name + count (is_hold name) ls <= held (run ls h) name + count (is_release name) ls)%nat.
Proof.
  unfold count. induction ls as [|l ls IH]; intros h name Hd; [cbn; lia|].
  change (run (l :: ls) h) with (run ls (locked l h)). cbn [List.filter] in *.
  pose proof (locked_held l h name) as Hl. destruct (is_disconnect name l) eqn:Ed; [done|].
  specialize (IH (locked l h) name Hd).
  destruct (is_hold name l) eqn:Eh, (is_release name l) eqn:Er; cbn [length]; try lia.
Qed.

Lemma in_hold_kill_switch h v name :
  in_hold h name -> killSwitch (policy h) = true -> rs_KillSwitch (fst (ruleset h v)) = true.
Proof.
  intros Hh Hk. rewrite ruleset_eq. cbv zeta. cbn [fst].
  assert (He : entries_of h v <> []).
  { intros (Hl & H1 & H2)%entries_empty. destruct Hh as [[? Hh]|Hh].
    - by rewrite H1, lookup_empty in Hh.
    - rewrite H2 in Hh. by apply not_elem_of_empty in Hh. }
  by rewrite (bool_decide_eq_false_2 _ He).
Qed.

(** Holds are counted: as long as fewer retry sequences of a tunnel have released their hold
    than have taken one, whatever else runs in between short of a user's disconnect, the tunnel
    is held, and under the kill switch the rules stay loaded. *)
Theorem overlapping_holds (h : Helper) (ls : list Locked) (name : string) (v : View) :
  count (is_disconnect name) ls = 0%nat ->
  (count (is_release name) ls < count (is_hold name) ls)%nat ->
  (0 < held (run ls h) name)%nat
  /\ (killSwitch (policy (run ls h)) = true -> rs_KillSwitch (fst (ruleset (run ls h) v)) = true).
Proof.
  intros Hd Hc. pose proof (run_held ls h name Hd). assert (Hpos : (0 < held (run ls h) name)%nat) by lia.
  split; [done|]. apply (in_hold_kill_switch _ v name). left. unfold held in Hpos.
  destruct (fwHeld (run ls h) !! name); [by eexists|cbn in Hpos; lia].
Qed.

Lemma overlapping_holds_witness :
  let ls := [LHold "home"; LKillSwitch true; LHold "home"; LRelease "home" false] in
  rs_KillSwitch (fst (ruleset (run ls new_helper) (MkView NewManager None))) = true.
Proof.
  intros ls. apply (overlapping_holds new_helper ls "home" (MkView NewManager None)); [done|..|done].
  apply Nat.lt_succ_diag_r.
Defined.

(** A disconnect forgets the holds but not the sequences: one that is still on its way out
    then releases the hold of the sequence that replaced it, and under the kill switch a tunnel
    being reconnected is blocked as if the reconnect had been given up. *)
Theorem stale_release_ends_new_hold (h : Helper) (cfg : WireGuardConfig) :
  let name := Name cfg in
  let h' := run [LHold name; LDisconnect name; LCacheWg cfg true; LHold name; LRelease name false] h in
  held h' name = 0%nat
  /\ (killSwitch (policy h) = true -> fwBlocked h' !! name <> None).
Proof.
  cbn [run foldl locked]. set (name := Name cfg).
  set (h1 := cache_wg (disconnect_clear (hold h name) name) cfg true).
  assert (E1 : held (hold h1 name) name = 1%nat).
  { unfold held at 1, hold. cbn. rewrite lookup_insert_eq. cbn. unfold held, h1. cbn.
    by rewrite lookup_delete_eq. }
  split.
  { by rewrite held_release, bool_decide_eq_true_2, E1. }
  intros Hk. unfold release. rewrite E1. cbn [Nat.ltb Nat.leb]. cbv zeta.
  set (h2 := (hold h1 name) <| fwHeld ::= fun m => delete name m |>).
  assert (Ep : bool_decide (name ∈ fwPending h2) = false).
  { apply bool_decide_eq_false. unfold h2, hold. cbn.
    intros [_ []%not_elem_of_singleton]%elem_of_difference. done. }
  assert (Ea : autoReconnect h2 !! name = Some true).
  { unfold h2, hold, h1, cache_wg. cbn. by rewrite lookup_insert_eq. }
  assert (Ek : killSwitch (policy h2) = true) by exact Hk.
  rewrite Ep, Ea, Ek. change (1 <? 1)%nat with false. cbn. by rewrite lookup_insert_eq.
Qed.

(** ** Deaths *)

Lemma blocked_kill_switch h v name :
  is_Some (fwBlocked h !! name) -> killSwitch (policy h) = true -> rs_KillSwitch (fst (ruleset h v)) = true.
Proof.
  intros Hb Hk. apply ruleset_loaded. split; [done|]. unfold protecting.
  destruct (decide (name ∈ live_names v)) as [Hl|Hl]; [|right; right; right; by exists name].
  left. intros E. rewrite E in Hl. by apply elem_of_nil in Hl.
Qed.

Lemma forgetOrHold_protects h name proto forget :
  (is_key (activeCfgs h) name || is_key (activeOVPNCfgs h) name) = true ->
  killSwitch (policy (forget h)) = true ->
  let h' := forgetOrHold h name proto forget in
  name ∈ fwPending h' \/ is_Some (fwBlocked h' !! name).
Proof.
  intros Hw Hk. unfold forgetOrHold. destruct (default false _).
  - left. cbn. set_solver.
  - right. cbv zeta. rewrite Hw. cbn. rewrite Hk. cbn. rewrite lookup_insert_eq. by eexists.
Qed.

(** An OpenVPN tunnel that the user wants is protected from the moment its death is noticed,
    before the manager removes it, and after onOVPNDied has turned the pending hold into a
    reconnect hold or a block: whatever the managers report, the kill switch stays loaded. *)
Theorem ovpn_death_protected (h : Helper) (v1 v2 : View) (name : string) :
  is_key (activeOVPNCfgs h) name = true -> killSwitch (policy h) = true ->
  let h1 := onOVPNDying h name in
  let h2 := forgetOrHold (h1 <| ovpnDying ::= fun s => s ∖ {[name]} |>) name ProtocolOpenVPN
              (forget_ovpn name) in
  rs_KillSwitch (fst (ruleset h1 v1)) = true /\ rs_KillSwitch (fst (ruleset h2 v2)) = true.
Proof.
  intros Hw Hk h1 h2.
  assert (E1 : h1 = h <| ovpnDying ::= fun s => s ∪ {[name]} |> <| fwPending ::= fun s => s ∪ {[name]} |>).
  { unfold h1, onOVPNDying. rewrite Hw, Hk. cbn [negb]. by rewrite andb_false_r. }
  assert (Hk2 : killSwitch (policy h2) = true).
  { unfold h2, forgetOrHold. rewrite E1. cbv zeta.
    repeat match goal with |- context [if ?b then _ else _] => destruct b end; exact Hk. }
  split.
  - apply (in_hold_kill_switch _ _ name); rewrite E1; [right; cbn; set_solver|exact Hk].
  - destruct (forgetOrHold_protects (h1 <| ovpnDying ::= fun s => s ∖ {[name]} |>) name ProtocolOpenVPN
                (forget_ovpn name)) as [Hp|Hb].
    + rewrite E1. cbn. rewrite Hw. apply orb_true_r.
    + rewrite E1. exact Hk.
    + by apply (in_hold_kill_switch _ _ name); [right|].
    + by apply (blocked_kill_switch _ _ name).
Qed.

(** A helper with an OpenVPN tunnel without auto-reconnect, under the kill switch. *)
Definition ovpn_helper : Helper :=
  new_helper <| policy := MkPolicy true false |> <| activeOVPNCfgs := {["work" := "remote 192.0.2.1"]} |>.

Lemma ovpn_death_protected_witness :
  rs_KillSwitch (fst (ruleset (onOVPNDying ovpn_helper "work") (MkView NewManager None))) = true.
Proof.
  exact (proj1 (ovpn_death_protected ovpn_helper (MkView NewManager None) (MkView NewManager None) "work"
                  eq_refl eq_refl)).
Defined.

Lemma sorted_keys_singleton {A} (name : string) (a : A) : sorted_keys {[name := a]} = [name].
Proof. unfold sorted_keys. by rewrite map_to_list_singleton. Qed.

(** A WireGuard engine that dies has no such protection.  From the moment handleEngineDied
    claims the tunnel until onWireGuardEngineDied runs, after the slow teardown, it is neither
    connected nor held nor blocked; any apply in between (a policy change, another tunnel's
    transition) removes the kill switch, whatever the policy and auto-reconnect say. *)
Theorem wg_death_window (h : Helper) (m : Manager) (name : string) (e : tunnelEntry) (eng : Engine)
    (cfg : WireGuardConfig) :
  tunnels m = {[name := e]} -> te_state e = StateConnected -> te_engine e = Some eng -> te_cfg e = Some cfg ->
  fwHeld h = ∅ -> fwPending h = ∅ -> fwBlocked h = ∅ ->
  rs_KillSwitch (fst (ruleset h (MkView m None))) = killSwitch (policy h)
  /\ exists t m', died_claim m name eng = Some (t, m')
       /\ fst (ruleset h (MkView m' None)) = zero_ruleset.
Proof.
  intros Hm Hs He Hc Hh Hp Hb. split.
  - assert (Hl : protecting h (MkView m None)).
    { left. unfold live_names, liveTunnels, wg_live, ConnectedTunnels. cbn [v_wg v_ovpn fst].
      rewrite Hm, sorted_keys_singleton. cbn [omap list_omap]. rewrite lookup_singleton_eq.
      unfold info_of. rewrite Hs, He, Hc. done. }
    destruct (ruleset_loaded h (MkView m None)) as [H _].
    destruct (killSwitch (policy h)) eqn:Ek; [by apply H|].
    destruct (rs_KillSwitch _); [|done]. by destruct (proj1 H eq_refl).
  - unfold died_claim. rewrite Hm, lookup_singleton_eq, He, Hs. rewrite bool_decide_eq_true_2 by done.
    cbn [negb orb]. rewrite bool_decide_eq_true_2 by done. cbn [negb]. do 2 eexists. split; [done|].
    match goal with |- fst (ruleset h ?v) = _ => destruct (ruleset_loaded h v) as [_ [Hpr|?]]; [|done] end.
    exfalso. destruct Hpr as [Hl|[?|[?|(n & [? Hn] & _)]]]; [|done|done|by rewrite Hb, lookup_empty in Hn].
    apply Hl. unfold live_names, liveTunnels, wg_live, ConnectedTunnels, set_entry. cbn [v_wg v_ovpn fst].
    cbn. rewrite Hm, insert_singleton_eq, sorted_keys_singleton. cbn [omap list_omap].
    by rewrite lookup_singleton_eq.
Qed.

Definition home_cfg : WireGuardConfig := zero_config <| Name := "home" |>.
Definition home_engine : Engine := MkEngine 1 "utun4" ["192.0.2.1"] ["192.0.2.1:51820"].
Definition home_entry : tunnelEntry := MkEntry StateConnected (Some home_engine) (Some home_cfg) 1 (Some 0%nat).
Definition home_manager : Manager := MkManager {["home" := home_entry]} false ∅.

(** The kill switch and auto-reconnect are on. *)
Definition home_helper : Helper :=
  new_helper <| policy := MkPolicy true false |> <| activeCfgs := {["home" := home_cfg]} |>
    <| autoReconnect := {["home" := true]} |>.

Lemma wg_death_window_witness :
  rs_KillSwitch (fst (ruleset home_helper (MkView home_manager None))) = true
  /\ exists t m', died_claim home_manager "home" home_engine = Some (t, m')
       /\ fst (ruleset home_helper (MkView m' None)) = zero_ruleset.
Proof.
  exact (wg_death_window home_helper home_manager "home" home_entry home_engine home_cfg
           eq_refl eq_refl eq_refl eq_refl eq_refl eq_refl eq_refl).
Defined.

(** ** Shutting down *)

(** What the OpenVPN manager promises: a status or a remote is a running tunnel's. *)
Class BackendLaws (o : ovpnBackend) : Prop := {
  remotes_active r : r ∈ ob_ActiveRemotes o -> re_TunnelName r ∈ ob_ActiveTunnelNames o;
  statuses_active st : st ∈ ob_AllStatuses o -> cs_TunnelName st ∈ ob_ActiveTunnelNames o
}.

(** No tunnel has an empty name (ValidateTunnelName). *)
Definition lawful (v : View) : Prop :=
  tunnels (v_wg v) !! "" = None /\ forall o, v_ovpn v = Some o -> BackendLaws o.

Lemma idle_backend o : BackendLaws o -> ob_ActiveTunnelNames o = [] -> ovpn_live o = [].
Proof.
  intros [Hr Hs] Ha. rewrite Ha in Hr, Hs. unfold ovpn_live, remote_live, remoteless_live, status_map.
  assert (ob_ActiveRemotes o = []) as ->.
  { apply elem_of_nil_inv. intros r Hin. by apply Hr, elem_of_nil in Hin. }
  assert (ob_AllStatuses o = []) as ->.
  { apply elem_of_nil_inv. intros st Hin. by apply Hs, elem_of_nil in Hin. }
  done.
Qed.

Lemma idle_manager m :
  tunnels m !! "" = None -> ActiveTunnel m = "" -> ConnectedTunnels m = [].
Proof.
  unfold ActiveTunnel, activeTunnelNames, ConnectedTunnels. intros Hn Ha.
  assert (Hk : forall n, n ∈ sorted_keys (tunnels m) -> n <> "").
  { intros n [e He]%elem_of_sorted_keys ->. congruence. }
  revert Ha. induction (sorted_keys (tunnels m)) as [|n l IH]; intros Ha; [done|].
  assert (Hl : forall x, x ∈ l -> x <> "") by (intros x Hx; apply Hk; by apply list_elem_of_further).
  cbn [List.filter] in Ha. cbn [omap list_omap].
  assert (Hne : n <> "") by (apply Hk, list_elem_of_here).
  destruct (tunnels m !! n) as [e|]; [|by apply IH].
  destruct (te_state e) eqn:Es; cbn in Ha; try done; unfold info_of; rewrite Es; by apply IH.
Qed.

Lemma run_held_pos ls : forall h name,
  (forall n, fwHeld h !! n <> Some 0%nat) -> fwHeld (run ls h) !! name <> Some 0%nat.
Proof.
  induction ls as [|l ls IH]; intros h name Hp; [apply Hp|]. change (run (l :: ls) h) with (run ls (locked l h)).
  apply IH. clear IH name ls. intros name. pose proof (locked_fwHeld l h) as Hf.
  destruct l; try (rewrite Hf; apply Hp); clear Hf; cbn [locked].
  - unfold hold. cbn. destruct (decide (name0 = name)) as [->|]; [by rewrite lookup_insert_eq|by rewrite lookup_insert_ne].
  - unfold release. destruct (Nat.ltb_spec 1 (held h name0)) as [Hl|Hl].
    + cbn. destruct (decide (name0 = name)) as [->|]; [|by rewrite lookup_insert_ne].
      rewrite lookup_insert_eq. intros [= E]. lia.
    + cbv zeta. match goal with |- fwHeld (if ?b then _ else _) !! _ <> _ => destruct b end; cbn;
        (destruct (decide (name0 = name)) as [->|]; [by rewrite lookup_delete_eq|by rewrite lookup_delete_ne]).
  - by destruct (ruleset_same h v) as (-> & _).
  - unfold disconnect_clear. cbn.
    destruct (decide (name0 = name)) as [->|]; [by rewrite lookup_delete_eq|by rewrite lookup_delete_ne].
Qed.

(** The helper exits only when nobody is protected: after any history, a timer that shuts the
    helper down is the current one, no client has come back, and there is nothing to enforce, so
    exiting removes no rule. *)
Theorem shutdown_unprotected (ls : list Locked) (t : nat) (v : View) :
  let h := run ls new_helper in
  lawful v -> fst (timer_fires t h v) = true ->
  fst (ruleset h v) = zero_ruleset /\ guiGone h = true /\ shutdownTimer h = Some t.
Proof.
  intros h [Hn Ho] H. unfold timer_fires in H. destruct (anyTunnelActive h v) eqn:Ea; [done|].
  cbn [fst] in H. apply andb_prop in H as [Ht%bool_decide_eq_true Hg]. split; [|done].
  unfold anyTunnelActive in Ea. apply orb_false_elim in Ea as [Ea Hblk]. bool_hyps.
  destruct (ruleset_loaded h v) as [[Hks _] [Hp|?]]; [|done].
  assert (Hheld : fwHeld h = ∅).
  { apply map_eq. intros n. rewrite lookup_empty. destruct (fwHeld h !! n) as [k|] eqn:E; [|done]. exfalso.
    assert (Hk : k <> 0%nat).
    { intros ->. revert E. unfold h. apply run_held_pos. intros n0. cbn. by rewrite lookup_empty. }
    assert (Hex : existsb (fun '(_, k) => (0 <? k)%nat) (map_to_list (fwHeld h)) = true); [|congruence].
    apply existsb_true_iff. exists (n, k). split; [by apply elem_of_map_to_list|]. apply Nat.ltb_lt. lia. }
  assert (Hlive : live_names v = []).
  { unfold live_names, liveTunnels. cbn [fst]. unfold wg_live. rewrite idle_manager by done.
    destruct (v_ovpn v) as [o|]; [|done]. rewrite idle_backend; [done|by apply Ho|].
    destruct (ob_ActiveTunnelNames o); done. }
  assert (Hpend : fwPending h = ∅) by done.
  rewrite ruleset_eq. cbv zeta. cbn [fst]. rewrite (bool_decide_eq_true_2 (entries_of h v = []))
    by (by apply entries_empty).
  assert (Hl2 : fst (liveTunnels v) = []) by by apply fmap_nil_inv in Hlive. rewrite Hl2. cbn [foldl].
  destruct (killSwitch (policy h)); [|done]. cbn [andb] in *.
  rewrite bool_decide_eq_true_2; [done|]. by apply negb_false_iff, bool_decide_eq_true in Hblk.
Qed.

Lemma quiet_lawful : lawful (MkView NewManager None).
Proof. split; [apply lookup_empty|done]. Qed.

Lemma shutdown_unprotected_witness :
  fst (timer_fires 3 (run [LGuiGone; LArm 3] new_helper) (MkView NewManager None)) = true
  /\ fst (ruleset (run [LGuiGone; LArm 3] new_helper) (MkView NewManager None)) = zero_ruleset.
Proof.
  split; [reflexivity|].
  exact (proj1 (shutdown_unprotected [LGuiGone; LArm 3] 3 (MkView NewManager None) quiet_lawful eq_refl)).
Defined.

(** ** The watchdog *)

(** The clocks after a tick and the tunnels it recycles, for the statuses, credential prompts and
    auto-reconnect settings of that tick. *)
Record Tick := MkTick { tk_ovpn : ovpnBackend; tk_now : Z; tk_helper : Helper }.

Definition tick (since : gmap string Z) (t : Tick) : list string * gmap string Z :=
  let '(recycle, h) := watchdog (tk_ovpn t) (tk_now t) ((tk_helper t) <| ovpnStuckSince := since |>) in
  (recycle, ovpnStuckSince h).

Definition clocks (ts : list Tick) : gmap string Z := foldl (fun s t => snd (tick s t)) ∅ ts.

(** At this tick the tunnel is stuck, with auto-reconnect, and not waiting for credentials. *)
Definition stuck_at (name : string) (t : Tick) : bool :=
  existsb (fun c => (fst c =s name) && snd c) (candidate (tk_ovpn t) (tk_helper t) <$> ob_AllStatuses (tk_ovpn t)).

(** The manager lists a tunnel once. *)
Definition unique_names (t : Tick) : Prop := NoDup (cs_TunnelName <$> ob_AllStatuses (tk_ovpn t)).

Lemma candidates_names o h sts : (candidate o h <$> sts).*1 = cs_TunnelName <$> sts.
Proof. rewrite <- list_fmap_compose. by apply list_fmap_ext. Qed.

Lemma watch_skip now cands name : forall s,
  name ∉ cands.*1 ->
  fst (foldl (watch_one now) s cands) !! name = fst s !! name
  /\ (name ∈ snd (foldl (watch_one now) s cands) <-> name ∈ snd s).
Proof.
  induction cands as [|[n b] cands IH]; intros s Hn; [done|]. cbn [foldl].
  apply not_elem_of_cons in Hn as [Hne Hn]. destruct (IH (watch_one now s (n, b)) Hn) as [E1 E2].
  rewrite E1, E2. clear E1 E2 IH. destruct s as [since rec]. unfold watch_one. cbn [fst] in Hne.
  destruct b; cbn [negb]; [|cbn; by rewrite lookup_delete_ne].
  destruct (since !! n) as [t|]; [|cbn; by rewrite lookup_insert_ne].
  destruct (_ <=? _)%Z; cbn; [|done]. rewrite lookup_delete_ne by done. split; [done|].
  rewrite elem_of_app, list_elem_of_singleton. tauto.
Qed.

Lemma named_false name (cands : list (string * bool)) :
  name ∉ cands.*1 -> existsb (fun c => (fst c =s name) && snd c) cands = false.
Proof.
  intros Hn. apply existsb_false_iff. intros [n b] Hin. rewrite bool_decide_eq_false_2; [done|].
  intros <-. apply Hn. by apply (list_elem_of_fmap_2 fst) in Hin.
Qed.

(** The candidates of a tick, for one tunnel. *)
Lemma watch_named now cands name since :
  NoDup cands.*1 ->
  let s := foldl (watch_one now) (since, []) cands in
  let runs := existsb (fun c => (fst c =s name) && snd c) cands in
  (name ∈ snd s <-> runs = true /\ exists t0, since !! name = Some t0 /\ (ovpnStuckTimeout <= now - t0)%Z)
  /\ (name ∈ cands.*1 ->
      fst s !! name
      = if runs then
          match since !! name with
          | None => Some now
          | Some t0 => if (ovpnStuckTimeout <=? now - t0)%Z then None else Some t0
          end
        else None).
Proof.
  intros Hnd. cbv zeta. destruct (decide (name ∈ cands.*1)) as [Hin|Hout].
  2: { rewrite (named_false name cands Hout). destruct (watch_skip now cands name (since, []) Hout) as [_ ->].
       split; [|done]. cbn. rewrite elem_of_nil. split; [done|by intros [? _]]. }
  apply list_elem_of_fmap in Hin as ([n b] & -> & Hin). cbn [fst].
  apply list_elem_of_split in Hin as (pre & post & ->).
  rewrite fmap_app in Hnd. cbn [fmap list_fmap fst] in Hnd. apply NoDup_app in Hnd as (_ & Hd & Hpost).
  apply NoDup_cons in Hpost as [Hpost _].
  assert (Hpre : n ∉ pre.*1) by (intros H; apply (Hd n H); apply list_elem_of_here).
  rewrite existsb_app. cbn [existsb fst snd]. rewrite !named_false by done.
  rewrite bool_decide_eq_true_2 by done. cbn [orb andb]. rewrite orb_false_r, foldl_app. cbn [foldl].
  destruct (watch_skip now pre n (since, []) Hpre) as [E1 E2].
  destruct (foldl (watch_one now) (since, []) pre) as [s r]. cbn [fst snd] in E1, E2.
  destruct (watch_skip now post n (watch_one now (s, r) (n, b)) Hpost) as [-> ->].
  unfold watch_one. rewrite E1. rewrite elem_of_nil in E2.
  destruct b; cbn [negb fst snd].
  2: { rewrite lookup_delete_eq. split; [|done]. split; [by intros ?%E2|by intros [? _]]. }
  destruct (since !! n) as [t0|].
  - destruct (Z.leb_spec ovpnStuckTimeout (now - t0)); cbn [fst snd].
    + rewrite elem_of_app, list_elem_of_singleton, lookup_delete_eq. split; [|done].
      split; [|tauto]. intros _. split; [done|]. by exists t0.
    + split; [|by rewrite E1]. split; [tauto|]. intros (_ & ? & [= <-] & ?). lia.
  - cbn [fst snd]. rewrite lookup_insert_eq. split; [|done]. split; [tauto|]. by intros (_ & ? & ? & _).
Qed.

(** One tick for one tunnel: its clock starts, runs on, fires or is reset. *)
Lemma tick_one since t name :
  unique_names t ->
  (name ∈ fst (tick since t)
   <-> stuck_at name t = true /\ exists t0, since !! name = Some t0 /\ (ovpnStuckTimeout <= tk_now t - t0)%Z)
  /\ snd (tick since t) !! name
     = if stuck_at name t then
         match since !! name with
         | None => Some (tk_now t)
         | Some t0 => if (ovpnStuckTimeout <=? tk_now t - t0)%Z then None else Some t0
         end
       else None.
Proof.
  unfold unique_names, tick, watchdog, stuck_at. intros Hnd. cbv zeta.
  change (candidate (tk_ovpn t) ((tk_helper t) <| ovpnStuckSince := since |>))
    with (candidate (tk_ovpn t) (tk_helper t)).
  cbn [update ovpnStuckSince]. rewrite <- (candidates_names (tk_ovpn t) (tk_helper t)) in Hnd.
  set (cands := candidate (tk_ovpn t) (tk_helper t) <$> ob_AllStatuses (tk_ovpn t)) in *.
  pose proof (watch_named (tk_now t) cands name since Hnd) as [Hr Hs]. cbv zeta in Hr, Hs.
  destruct (foldl (watch_one (tk_now t)) (since, []) cands) as [s r]. cbn [fst snd] in *.
  split; [done|]. cbn. destruct (decide (name ∈ cands.*1)) as [Hin|Hout].
  - rewrite <- Hs by done. destruct (s !! name) as [x|] eqn:E.
    + by apply map_lookup_filter_Some.
    + apply map_lookup_filter_None. by left.
  - rewrite (named_false name cands Hout). apply map_lookup_filter_None. right. by intros ? _.
Qed.

Lemma clocks_snoc ts t : clocks (ts ++ [t]) = snd (tick (clocks ts) t).
Proof. unfold clocks. by rewrite foldl_app. Qed.

(** A running clock was started at a tick since which the tunnel has been stuck. *)
Lemma clock_started ts name t0 :
  Forall unique_names ts -> clocks ts !! name = Some t0 ->
  exists pre a mid, ts = pre ++ a :: mid /\ tk_now a = t0 /\ forallb (stuck_at name) (a :: mid) = true.
Proof.
  revert t0. induction ts as [|t ts IH] using rev_ind; intros t0 Hu Hc.
  { unfold clocks in Hc. cbn [foldl] in Hc. by rewrite lookup_empty in Hc. }
  apply Forall_app in Hu as [Hu [Ht _]%Forall_cons]. rewrite clocks_snoc in Hc.
  rewrite (proj2 (tick_one _ _ name Ht)) in Hc. destruct (stuck_at name t) eqn:Es; [|done].
  destruct (clocks ts !! name) as [t1|].
  - destruct (_ <=? _)%Z; [done|]. injection Hc as ->.
    destruct (IH t0 Hu eq_refl) as (pre & a & mid & -> & Ha & Hf). exists pre, a, (mid ++ [t]).
    split; [by rewrite <- app_assoc|]. split; [done|].
    rewrite app_comm_cons, forallb_app, Hf. cbn. by rewrite Es.
  - injection Hc as <-. exists ts, t, []. split; [done|]. split; [done|]. cbn. by rewrite Es.
Qed.

(** Either a tick of a run of stuck ticks recycles the tunnel, or the clock goes on. *)
Lemma clock_runs name run0 : forall ts t0,
  Forall unique_names run0 -> forallb (stuck_at name) run0 = true -> clocks ts !! name = Some t0 ->
  (exists r1 t r2, run0 = r1 ++ t :: r2 /\ name ∈ fst (tick (clocks (ts ++ r1)) t))
  \/ clocks (ts ++ run0) !! name = Some t0
     /\ forall t, t ∈ run0 -> (tk_now t - t0 < ovpnStuckTimeout)%Z.
Proof.
  induction run0 as [|t run0 IH]; intros ts t0 Hu Hs Hc.
  { right. rewrite app_nil_r. split; [done|]. by intros t ?%elem_of_nil. }
  apply Forall_cons in Hu as [Ht Hu]. cbn [forallb] in Hs. apply andb_prop in Hs as [Hst Hs].
  destruct (tick_one (clocks ts) t name Ht) as [Hr Hn]. rewrite Hst, Hc in Hn.
  destruct (Z.leb_spec ovpnStuckTimeout (tk_now t - t0)) as [Hl|Hl].
  { left. exists [], t, run0. split; [done|]. rewrite app_nil_r. apply Hr. split; [done|]. by exists t0. }
  rewrite <- clocks_snoc in Hn. destruct (IH (ts ++ [t]) t0 Hu Hs Hn) as [(r1 & t1 & r2 & -> & Hin)|[Hc' Hlt]].
  - left. exists (t :: r1), t1, r2. split; [done|]. by rewrite <- app_assoc in Hin.
  - right. rewrite <- app_assoc in Hc'. split; [done|]. intros x [->|Hx]%elem_of_cons; [done|by apply Hlt].
Qed.

(** The watchdog recycles a tunnel only after it has been stuck in openvpn's own reconnect,
    with auto-reconnect on and no credentials prompt, at every tick of at least two minutes; and
    a tunnel that is stuck that long is recycled. *)
Theorem watchdog_recycles (ts : list Tick) (t : Tick) (name : string) :
  Forall unique_names (ts ++ [t]) ->
  (name ∈ fst (tick (clocks ts) t) ->
   exists pre a mid, ts = pre ++ a :: mid /\ forallb (stuck_at name) (a :: mid ++ [t]) = true
     /\ (ovpnStuckTimeout <= tk_now t - tk_now a)%Z)
  /\ forall pre a mid, ts = pre ++ a :: mid -> forallb (stuck_at name) (a :: mid ++ [t]) = true ->
       (forall x, x ∈ pre -> (tk_now x <= tk_now a)%Z) ->
       (ovpnStuckTimeout <= tk_now t - tk_now a)%Z ->
       exists r1 t1 r2, a :: mid ++ [t] = r1 ++ t1 :: r2
         /\ name ∈ fst (tick (clocks (pre ++ r1)) t1).
Proof.
  intros Hu. split.
  - intros Hr. apply Forall_app in Hu as [Hu [Ht _]%Forall_cons].
    apply (tick_one _ _ name Ht) in Hr as (Hst & t0 & Hc & Hle).
    destruct (clock_started ts name t0 Hu Hc) as (pre & a & mid & -> & Ha & Hf).
    exists pre, a, mid. split; [done|]. split; [|by rewrite Ha].
    rewrite app_comm_cons, forallb_app, Hf. cbn. by rewrite Hst.
  - intros pre a mid -> Hf Hpre Hle. rewrite <- app_assoc in Hu. apply Forall_app in Hu as [Hup Hu].
    cbn [app] in Hu. apply Forall_cons in Hu as [Hua Hu]. cbn [forallb] in Hf.
    apply andb_prop in Hf as [Hfa Hf]. destruct (tick_one (clocks pre) a name Hua) as [Hra Hna].
    rewrite Hfa in Hna. rewrite <- clocks_snoc in Hna.
    assert (Hstart : name ∈ fst (tick (clocks pre) a)
              \/ exists t0, clocks (pre ++ [a]) !! name = Some t0 /\ (t0 <= tk_now a)%Z).
    { destruct (clocks pre !! name) as [t0|] eqn:Ec; [|right; by exists (tk_now a)].
      destruct (Z.leb_spec ovpnStuckTimeout (tk_now a - t0)) as [Hl|Hl].
      - left. apply Hra. split; [done|]. by exists t0.
      - right. exists t0. split; [done|]. destruct (clock_started pre name t0 Hup Ec) as (p & x & q & -> & <- & _).
        apply Hpre. apply elem_of_app. right. by left. }
    destruct Hstart as [Hin|(t0 & Hc & Ht0)].
    { exists [], a, (mid ++ [t]). by rewrite app_nil_r. }
    destruct (clock_runs name (mid ++ [t]) (pre ++ [a]) t0 Hu Hf Hc) as [(r1 & t1 & r2 & E & Hin)|[_ Hlt]].
    + exists (a :: r1), t1, r2. rewrite E. split; [done|]. by rewrite <- app_assoc in Hin.
    + specialize (Hlt t). rewrite elem_of_app, list_elem_of_singleton in Hlt. specialize (Hlt (or_intror eq_refl)). lia.
Qed.

(** An OpenVPN tunnel that lost its server two minutes ago. *)
Definition stuck_status : ConnectionStatus :=
  zero_status <| cs_State := StateConnecting |> <| cs_TunnelName := "work" |> <| cs_ConnectedAt := 1%Z |>.
Definition stuck_backend : ovpnBackend := MkBackend (fun _ => Some stuck_status) (fun _ => false) ["work"] [stuck_status] [].
Definition stuck_tick (now : Z) : Tick :=
  MkTick stuck_backend now (new_helper <| autoReconnect := {["work" := true]} |>).

Lemma watchdog_recycles_witness :
  exists r1 t1 r2, [stuck_tick 5; stuck_tick (5 + ovpnStuckTimeout)] = r1 ++ t1 :: r2
    /\ "work" ∈ fst (tick (clocks r1) t1).
Proof.
  assert (Hu : Forall unique_names ([stuck_tick 5] ++ [stuck_tick (5 + ovpnStuckTimeout)])).
  { repeat constructor; intros ?%elem_of_nil; done. }
  apply (proj2 (watchdog_recycles [stuck_tick 5] (stuck_tick (5 + ovpnStuckTimeout)) "work" Hu)
           [] (stuck_tick 5) []); [done|vm_compute; reflexivity|by intros ? ?%elem_of_nil|vm_compute; discriminate].
Defined.
