(* ===== verification/HelperRequests.v ===== *)
(** * What a request leaves behind

    Whole operations of the helper, run against an arbitrary outside: a disconnect forgets its
    tunnel, a refused policy and a failed connect are undone, the status shows every block, and
    waiting for OpenVPN ends. *)

From S2P Require Import Prelude GoStrings GoNet Domain Validator OvpnParse OvpnProfile TunnelManager Recovery Firewall HelperFirewall HelperOps HelperFacts.

(** ** Applying writes the blocks and the endpoint cache only *)

Lemma refresh_frame live : forall h,
  exists b e, foldl refresh_live h live = h <| fwBlocked := b |> <| fwEndpoints := e |>.
Proof.
  induction live as [|[n t] live IH]; intros h.
  - exists (fwBlocked h), (fwEndpoints h). by destruct h.
  - cbn [foldl]. destruct (IH (refresh_live h (n, t))) as (b & e & ->). by exists b, e.
Qed.

Lemma ruleset_frame h v :
  exists b e, snd (ruleset h v) = h <| fwBlocked := b |> <| fwEndpoints := e |>
    /\ forall name, b !! name = if bool_decide (name ∈ live_names v) then None else fwBlocked h !! name.
Proof.
  rewrite ruleset_eq. cbv zeta. cbn [snd].
  pose proof (refresh_blocked (fst (liveTunnels v)) h) as Hb.
  destruct (refresh_frame (fst (liveTunnels v)) h) as (b & e & E). rewrite E in *.
  eexists b, _. split; [reflexivity|]. exact Hb.
Qed.

Section Requests.
Context (env : Env).

Lemma applyFirewall_run h log :
  applyFirewall env (h, log)
  = if closed h then (true, (h, log))
    else let '(rs, h') := ruleset h (env_view env log) in
         (ok (env_reply env (log ++ [CApply rs])), (h', log ++ [CApply rs])).
Proof.
  unfold applyFirewall, bind, get, ret, look, modify, call. cbn [fst snd]. destruct (closed h); [done|].
  change (env_view env (h, log).2) with (env_view env log). destruct (ruleset h (env_view env log)). reflexivity.
Qed.

(** After an apply: the state up to the cache, and the blocks of the tunnels that are not up. *)
Lemma applyFirewall_frame h log r h' log' :
  applyFirewall env (h, log) = (r, (h', log')) ->
  exists b e, h' = h <| fwBlocked := b |> <| fwEndpoints := e |>
    /\ (forall name, b !! name = fwBlocked h !! name \/ b !! name = None /\ name ∈ live_names (env_view env log))
    /\ (closed h = false -> log' = log ++ [CApply (fst (ruleset h (env_view env log)))]
          /\ r = ok (env_reply env log')).
Proof.
  rewrite applyFirewall_run. destruct (closed h) eqn:Ec.
  - intros [= <- <- <-]. exists (fwBlocked h), (fwEndpoints h). split; [by destruct h|]. split; [by left|done].
  - destruct (ruleset_frame h (env_view env log)) as (b & e & E & Hb).
    destruct (ruleset h (env_view env log)) as [rs h1]. cbn [fst snd] in *. intros [= <- <- <-].
    exists b, e. split; [done|]. split; [|done]. intros name. rewrite Hb. case_bool_decide; [by right|by left].
Qed.

(** ** Disconnecting *)

(** Nothing of the tunnel is left that keeps it alive or blocked. *)
Definition forgotten (h : Helper) (name : string) : Prop :=
  activeCfgs h !! name = None /\ activeOVPNCfgs h !! name = None /\ autoReconnect h !! name = None
  /\ fwHeld h !! name = None /\ ~ name ∈ fwPending h /\ ~ name ∈ fwThrough h /\ fwBlocked h !! name = None
  /\ ovpnErrors h !! name = None.

Lemma disconnect_clear_forgets h name : forgotten (disconnect_clear h name) name.
Proof.
  unfold forgotten, disconnect_clear. cbn. rewrite !lookup_delete_eq.
  split_and!; try done; intros [_ Hn]%elem_of_difference; by apply Hn, elem_of_singleton.
Qed.

Lemma forgotten_frame h b e name :
  forgotten h name -> b !! name = None -> forgotten (h <| fwBlocked := b |> <| fwEndpoints := e |>) name.
Proof. unfold forgotten. cbn. tauto. Qed.

(** The tunnel is one of the OpenVPN manager's. *)
Definition is_ovpn (v : View) (name : string) : bool :=
  match v_ovpn v with Some o => mem name (ob_ActiveTunnelNames o) | None => false end.

(** A disconnect, call by call. *)
Lemma handleDisconnect_run (name : string) (h : Helper) (log : list Call) :
  name <> "" ->
  let c := if is_ovpn (env_view env (log ++ [CCancelRetry name])) name then COvpnDisconnect name else CWgDisconnect name in
  let log1 := log ++ [CCancelRetry name; c; CCancelRetry name] in
  exists r b e log', handleDisconnect env name (h, log) = (r, ((disconnect_clear h name) <| fwBlocked := b |> <| fwEndpoints := e |>, log'))
  /\ (forall n, b !! n = fwBlocked (disconnect_clear h name) !! n \/ b !! n = None)
  /\ (closed h = false -> log' = log1 ++ [CApply (fst (ruleset (disconnect_clear h name) (env_view env log1)))]).
Proof.
  intros Hne. unfold handleDisconnect. rewrite bool_decide_eq_false_2 by done.
  unfold bind at 1, call at 1, look, modify, ret, call. unfold bind at 1. cbn [fst snd].
  set (h1 := disconnect_clear h name). unfold bind at 1. cbn [fst snd].
  change (match v_ovpn (env_view env (log ++ [CCancelRetry name])) with Some o => mem name (ob_ActiveTunnelNames o) | None => false end)
    with (is_ovpn (env_view env (log ++ [CCancelRetry name])) name).
  set (isOVPN := is_ovpn _ name). set (c := if isOVPN then COvpnDisconnect name else CWgDisconnect name).
  unfold bind at 1. cbn [fst snd]. unfold bind at 1. cbn [fst snd]. unfold bind at 1.
  rewrite <- !app_assoc. cbn [app]. set (log1 := log ++ [CCancelRetry name; c; CCancelRetry name]).
  destruct (applyFirewall env (h1, log1)) as [r0 [h2 log2]] eqn:Ea.
  apply applyFirewall_frame in Ea as (b & e & -> & Hb & Hlog). unfold bind. cbn [fst snd].
  match goal with |- context [if ?t then _ else _] => destruct t end;
    (eexists; exists b, e, log2; split; [reflexivity|split;
      [intros n; destruct (Hb n) as [?|[? _]]; auto|intros Hc; destruct (Hlog Hc) as [-> _]; unfold log1; by rewrite <- app_assoc]]).
Qed.

(** A disconnect forgets its tunnel whatever state it was in and whether or not the manager
    succeeds: no cached profile, no auto-reconnect, no hold, no block, no kept error; it cancels
    the connects under way; and it loads the rules of what is left. *)
Theorem handleDisconnect_forgets (name : string) (h : Helper) (log : list Call) :
  name <> "" ->
  exists r h' log', handleDisconnect env name (h, log) = (r, (h', log'))
    /\ forgotten h' name
    /\ disconnectEpoch h' !! name = Some ((default 0 (disconnectEpoch h !! name) + 1) mod 2 ^ 64)%Z
    /\ (closed h = false ->
        exists c log1, log' = log1 ++ [CApply (fst (ruleset (disconnect_clear h name) (env_view env log1)))]
          /\ log1 = log ++ [CCancelRetry name; c; CCancelRetry name]
          /\ c = (if is_ovpn (env_view env (log ++ [CCancelRetry name])) name then COvpnDisconnect name else CWgDisconnect name)).
Proof.
  intros Hne. destruct (handleDisconnect_run name h log Hne) as (r & b & e & log' & H & Hb & Hc). do 3 eexists. split; [exact H|].
  split; [|split; [unfold disconnect_clear; cbn; by rewrite lookup_insert_eq|]].
  - apply forgotten_frame; [apply disconnect_clear_forgets|].
    destruct (Hb name) as [->|?]; [apply (disconnect_clear_forgets h name)|done].
  - intros Ho. do 2 eexists. split; [exact (Hc Ho)|]. split; reflexivity.
Qed.

(** ** Policies *)

(** A kill switch request either takes effect, turning it off releasing every block; or, when
    the rules cannot be loaded, leaves the policy as it was and every tunnel that was blocked and
    is still down blocked.  Holds are never touched. *)
Theorem handleSetKillSwitch_atomic (enabled : bool) (h : Helper) (log : list Call) :
  let '(r, (h', _)) := handleSetKillSwitch env enabled (h, log) in
  match r with
  | Ok _ => policy h' = (policy h) <| killSwitch := enabled |> /\ (enabled = false -> fwBlocked h' = ∅)
  | Err e => e = ErrFirewall /\ policy h' = policy h
      /\ forall name, fwBlocked h' !! name = fwBlocked h !! name
           \/ fwBlocked h' !! name = None /\ name ∈ live_names (env_view env log)
  end
  /\ fwHeld h' = fwHeld h /\ fwPending h' = fwPending h.
Proof.
  unfold handleSetKillSwitch, get, modify, ret, bind. cbn [fst snd].
  set (h1 := h <| policy ::= _ |> <| fwBlocked ::= _ |>).
  destruct (applyFirewall env (h1, log)) as [r [h2 log2]] eqn:Ea.
  apply applyFirewall_frame in Ea as (b & e & -> & Hb & _). cbn [fst snd].
  destruct r; (split; [|done]).
  - split; [done|]. intros ->. apply map_eq. intros n. rewrite lookup_empty. cbn.
    destruct (Hb n) as [->|[? _]]; [apply lookup_empty|done].
  - split; [done|]. split; [unfold h1; cbn; by destruct (policy h)|]. intros n. specialize (Hb n).
    unfold h1 in *. cbn in *. destruct enabled.
    + by rewrite map_empty_union.
    + left. rewrite lookup_union. destruct Hb as [->|[-> _]]; [rewrite lookup_empty|];
        by rewrite union_None_r || by destruct (fwBlocked h !! n).
Qed.

(** ** Connects that fail *)

(** The tunnel is in neither manager's list of tunnels that are up, at any moment. *)
Definition never_up (name : string) : Prop := forall log, ~ name ∈ live_names (env_view env log).

Lemma applyFirewall_down h log r h' log' name :
  never_up name -> applyFirewall env (h, log) = (r, (h', log')) ->
  exists b e, h' = h <| fwBlocked := b |> <| fwEndpoints := e |> /\ b !! name = fwBlocked h !! name.
Proof.
  intros Hup (b & e & -> & Hb & _)%applyFirewall_frame. exists b, e. split; [done|].
  destruct (Hb name) as [?|[_ ?%Hup]]; done.
Qed.

Lemma restore_key_id {A} (m : gmap string A) name a : restore_key (<[name := a]> m) name (m !! name) = m.
Proof.
  unfold restore_key. rewrite delete_insert_eq. destruct (m !! name) as [x|] eqn:E.
  - by rewrite insert_delete_eq, insert_id.
  - by apply delete_id.
Qed.

(** A lift, seen for the one tunnel: the hold it sets, the block it takes away. *)
Lemma lift_frame h name resolved set h1 :
  lift_block h name resolved = (set, h1) ->
  activeCfgs h1 = activeCfgs h /\ activeOVPNCfgs h1 = activeOVPNCfgs h
  /\ autoReconnect h1 = autoReconnect h /\ policy h1 = policy h /\ fwHeld h1 = fwHeld h /\ closed h1 = closed h
  /\ (forall n, n <> name -> fwBlocked h1 !! n = fwBlocked h !! n)
  /\ if set : bool
     then fwBlocked h1 !! name = None
          /\ (name ∈ fwThrough h1 <-> fwBlocked h !! name = None) 
     else h1 = (if (0 <? length resolved)%nat then storeResolved h name resolved else h).
Proof.
  unfold lift_block. intros [= <- <-]. set (blocked := is_key (fwBlocked h) name).
  set (through := negb blocked && _ && _).
  assert (Hb : blocked = true <-> fwBlocked h !! name <> None).
  { unfold blocked, is_key. rewrite bool_decide_eq_true. by rewrite <- not_eq_None_Some. }
  destruct (blocked || through) eqn:Es; destruct (0 <? length resolved)%nat; cbn; split_and!; try done;
    try (by intros n Hne; apply lookup_delete_ne); try apply lookup_delete_eq;
    (destruct through eqn:Et;
     [unfold through in Et; apply andb_prop in Et as [[Hnb%negb_true_iff _]%andb_prop _];
      split; [intros _; destruct (fwBlocked h !! name) eqn:E; [|done];
              assert (blocked = true) by (by apply Hb); congruence|intros _; apply elem_of_union; right; by apply elem_of_singleton]
     |rewrite orb_false_r in Es; split; [intros [_ []%not_elem_of_singleton]%elem_of_difference; done|];
      intros E; apply Hb in Es; congruence]).
Qed.

Lemma liftBlockForConnect_run h log name resolved set h2 log2 :
  never_up name -> liftBlockForConnect env name resolved (h, log) = (set, (h2, log2)) ->
  exists h1 b e, lift_block h name resolved = (set, h1)
    /\ h2 = h1 <| fwBlocked := b |> <| fwEndpoints := e |> /\ b !! name = fwBlocked h1 !! name.
Proof.
  intros Hup. unfold liftBlockForConnect, bind, get, modify, ret. cbn [fst snd].
  destruct (lift_block h name resolved) as [s h1] eqn:El. destruct s; cbn [fst snd].
  - destruct (applyFirewall env (h1, log)) as [r [h3 log3]] eqn:Ea. intros [= <- <- <-].
    apply (applyFirewall_down _ _ _ _ _ name Hup) in Ea as (b & e & -> & Hb). by exists h1, b, e.
  - intros [= <- <- <-]. exists h1, (fwBlocked h1), (fwEndpoints h1). split; [done|]. split; [by destruct h1|done].
Qed.

Lemma restoreBlock_run h log name proto u h2 log2 :
  never_up name -> restoreBlock env name proto (h, log) = (u, (h2, log2)) ->
  exists b e, h2 = (restore_block h name proto) <| fwBlocked := b |> <| fwEndpoints := e |>
    /\ b !! name = fwBlocked (restore_block h name proto) !! name.
Proof.
  intros Hup. unfold restoreBlock, bind, modify, ret. cbn [fst snd].
  destruct (applyFirewall env (restore_block h name proto, log)) as [r [h3 log3]] eqn:Ea. intros [= _ <- <-].
  by apply (applyFirewall_down _ _ _ _ _ name Hup) in Ea.
Qed.

(** A lift undone by restoreBlock. *)
Lemma lift_restore h name resolved h1 b e proto (f : Helper -> Helper) :
  lift_block h name resolved = (true, h1) -> b !! name = fwBlocked h1 !! name -> killSwitch (policy h) = true ->
  (forall x, fwThrough (f x) = fwThrough x /\ policy (f x) = policy x /\ fwBlocked (f x) = fwBlocked x) ->
  let h2 := restore_block (f (h1 <| fwBlocked := b |> <| fwEndpoints := e |>)) name proto in
  is_Some (fwBlocked h2 !! name) <-> is_Some (fwBlocked h !! name).
Proof.
  intros El Hb Hk Hf. apply lift_frame in El as (_ & _ & _ & Hp & _ & _ & _ & Hn & Ht).
  cbv zeta. unfold restore_block, clear_pending. cbv zeta.
  set (h3 := h1 <| fwBlocked := b |> <| fwEndpoints := e |>). destruct (Hf h3) as (E1 & E2 & E3).
  rewrite E1. cbn [update policy]. 
  assert (Ek : killSwitch (policy (f h3)) = true) by (rewrite E2; unfold h3; cbn; by rewrite Hp). 
  cbn. rewrite Ek. cbn [andb]. case_bool_decide as Et; cbn [negb].
  - cbn. rewrite E3. unfold h3. cbn. rewrite Hb, Hn. apply Ht in Et. rewrite Et. done.
  - cbn. rewrite lookup_insert_eq. split; [|by eexists]. intros _. apply not_eq_None_Some.
    intros E. by apply Et, Ht.
Qed.

(** A WireGuard connect that the manager refuses is undone: the cached profile and the
    auto-reconnect setting are what they were, no hold is left behind, and under the kill switch
    the tunnel is blocked afterwards exactly if it was blocked before: a connect through another
    tunnel's block never ends up blocked itself. *)
Theorem failed_connect_restores (req : ConnectRequest) (cfg : WireGuardConfig)
    (resolved : list literalEndpoint) (h h' : Helper) (log log' : list Call) :
  rq_Config req = Some cfg -> never_up (Name cfg) ->
  connect_wg env req resolved (h, log) = (Err ErrBackend, (h', log')) ->
  activeCfgs h' = activeCfgs h /\ autoReconnect h' = autoReconnect h /\ policy h' = policy h
  /\ (Name cfg ∈ fwPending h' -> Name cfg ∈ fwPending h)
  /\ (killSwitch (policy h) = true -> is_Some (fwBlocked h' !! Name cfg) <-> is_Some (fwBlocked h !! Name cfg)).
Proof.
  intros Hcfg Hup H. unfold connect_wg in H. rewrite Hcfg in H. set (name := Name cfg) in *.
  destruct (ValidateTunnelName name); [done|]. destruct (negb _); [done|].
  unfold look, get, bind at 1, modify in H. cbn [fst snd] in H.
  destruct (mem name _); [done|]. unfold bind at 1 2 in H. cbn [fst snd] in H.
  set (h0 := cache_wg h cfg (rq_AutoReconnect req)) in H.
  unfold bind at 1 in H. cbn [fst snd] in H. unfold bind at 1 in H.
  destruct (liftBlockForConnect env name resolved (h0, log)) as [set [h2 log2]] eqn:El.
  unfold bind at 1, call in H. cbn [fst snd] in H. destruct (ok _).
  { exfalso. unfold bind, modify, ret in H. cbn [fst snd] in H.
    match type of H with context [applyFirewall env ?s] => destruct (applyFirewall env s) as [? [? ?]] end.
    discriminate. }
  unfold bind at 1 in H. cbn [fst snd] in H.
  apply (liftBlockForConnect_run _ _ _ _ _ _ _ Hup) in El as (h1 & b & e & El & -> & Hb).
  set (f := fun x => uncache_wg x name (activeCfgs h !! name) (autoReconnect h !! name)).
  pose proof (lift_frame _ _ _ _ _ El) as (Ec & _ & Ea & Ep & _ & _ & _ & Hs).
  set (h3 := h1 <| fwBlocked := b |> <| fwEndpoints := e |>) in H.
  assert (Hf : activeCfgs (f h3) = activeCfgs h /\ autoReconnect (f h3) = autoReconnect h /\ policy (f h3) = policy h).
  { unfold f, uncache_wg, h3. cbn. rewrite Ec, Ea, Ep. unfold h0, cache_wg. cbn. by rewrite !restore_key_id. }
  destruct Hf as (Hf1 & Hf2 & Hf3). destruct set.
  - unfold bind, ret in H. destruct (restoreBlock env name _ _) as [u [h4 log4]] eqn:Er.
    injection H as <- <-. apply (restoreBlock_run _ _ _ _ _ _ _ Hup) in Er as (b' & e' & -> & Hb').
    assert (Hr : forall x, activeCfgs (restore_block x name ProtocolWireGuard) = activeCfgs x
              /\ autoReconnect (restore_block x name ProtocolWireGuard) = autoReconnect x
              /\ policy (restore_block x name ProtocolWireGuard) = policy x
              /\ ~ name ∈ fwPending (restore_block x name ProtocolWireGuard)).
    { intros x. unfold restore_block, clear_pending. cbv zeta.
      match goal with |- context [if ?t then _ else _] => destruct t end; cbn; split_and!; try done;
        intros [_ Hn]%elem_of_difference; by apply Hn, elem_of_singleton. }
    destruct (Hr (f h3)) as (R1 & R2 & R3 & R4).
    change (uncache_wg h3 name (activeCfgs h !! name) (autoReconnect h !! name)) with (f h3) in *.
    split; [exact (eq_trans R1 Hf1)|]. split; [exact (eq_trans R2 Hf2)|]. split; [exact (eq_trans R3 Hf3)|].
    split; [intros Hp; by destruct R4|]. intros Hk.
    change (is_Some (b' !! name) <-> is_Some (fwBlocked h !! name)). rewrite Hb'.
    by apply (lift_restore h0 name resolved h1 b e ProtocolWireGuard f El Hb).
  - unfold bind, ret in H. injection H as <- <-.
    change (uncache_wg h3 name (activeCfgs h !! name) (autoReconnect h !! name)) with (f h3).
    split; [done|]. split; [done|]. split; [done|]. cbv beta iota in Hs.
    change (fwPending (f h3)) with (fwPending h1). change (fwBlocked (f h3) !! name) with (b !! name).
    rewrite Hb, Hs. by destruct (0 <? length resolved)%nat.
Qed.
End Requests.

(** The kill switch holds "home" blocked and the manager refuses to connect it. *)
Definition refusing_env : Env :=
  MkEnv (fun _ => MkView NewManager None)
    (fun log => match last log with Some (CWgConnect _) => RFailed | _ => ROk end) (fun _ => None) [] true
    (fun _ => 0%Z).

Lemma handleDisconnect_forgets_witness :
  exists r h' log', handleDisconnect refusing_env "home" (blocked_helper, []) = (r, (h', log')) /\ forgotten h' "home".
Proof.
  destruct (handleDisconnect_forgets refusing_env "home" blocked_helper []) as (r & h' & log' & H & Hf & _); [done|].
  by exists r, h', log'.
Defined.

(** ** The status shown *)

Definition flagged (name : string) (l : list ConnectionStatus) : Prop :=
  exists ts, ts ∈ l /\ cs_TunnelName ts = name /\ cs_KillSwitchBlocked ts = true.

Lemma mark_blocked_flags name proto extra : flagged name (mark_blocked name proto extra).
Proof.
  induction extra as [|s extra (ts & Hin & H)]; cbn [mark_blocked].
  - eexists. split; [apply list_elem_of_here|done].
  - case_bool_decide as E; [|exists ts; split; [by right|done]].
    eexists. split; [apply list_elem_of_here|]. by destruct (bool_decide _).
Qed.

Lemma mark_blocked_keeps name other proto extra :
  flagged name extra -> flagged name (mark_blocked other proto extra).
Proof.
  intros (ts & Hin & Hn & Hf). induction extra as [|s extra IH]; [by apply elem_of_nil in Hin|].
  cbn [mark_blocked]. case_bool_decide as E.
  - apply elem_of_cons in Hin as [->|Hin].
    + eexists. split; [apply list_elem_of_here|]. by destruct (bool_decide _).
    + exists ts. split; [by right|done].
  - apply elem_of_cons in Hin as [->|Hin]; [exists s; split; [by left|done]|].
    destruct (IH Hin) as (t & Ht & H). exists t. split; [by right|done].
Qed.

Lemma blocked_flagged h live name :
  killSwitch (policy h) = true -> is_Some (fwBlocked h !! name) -> flagged name (extra_statuses h live).
Proof.
  intros Hk Hb. unfold extra_statuses. rewrite Hk. cbv zeta.
  assert (H : forall keys extra, name ∈ keys ->
    flagged name (foldl (fun e n => mark_blocked n (default "" (fwBlocked h !! n)) e) extra keys)).
  { induction keys as [|k keys IH] using rev_ind; intros extra Hin; [by apply elem_of_nil in Hin|].
    rewrite foldl_app. cbn [foldl]. apply elem_of_app in Hin as [Hin| ->%list_elem_of_singleton].
    - by apply mark_blocked_keeps, IH.
    - apply mark_blocked_flags. }
  destruct (H (sorted_keys (fwBlocked h)) (add_errors h live)) as (ts & Hin & Hts).
  { by apply elem_of_sorted_keys. }
  exists ts. split; [by rewrite merge_sort_Permutation|done].
Qed.

Lemma add_extra_lines live extra : forall result,
  cs_Tunnels (foldl (add_extra live) result extra) = cs_Tunnels result ++ (extra_line <$> extra).
Proof.
  induction extra as [|e extra IH]; intros result; cbn [foldl fmap list_fmap]; [by rewrite app_nil_r|].
  rewrite IH. unfold add_extra. destruct (_ && _); cbn; by rewrite <- app_assoc.
Qed.

Lemma appendUnique_elem l x y : y ∈ appendUnique l x <-> y ∈ l \/ y = x.
Proof.
  unfold appendUnique, mem. case_bool_decide as E.
  - split; [by left|]. by intros [?| ->].
  - by rewrite elem_of_app, list_elem_of_singleton.
Qed.

Lemma add_extra_active live n extra : forall result,
  n ∈ cs_ActiveTunnels (foldl (add_extra live) result extra)
  <-> n ∈ cs_ActiveTunnels result
      \/ exists ts, ts ∈ extra /\ present live (cs_TunnelName ts) = true /\ cs_State ts <> StateError
           /\ cs_TunnelName ts = n.
Proof.
  induction extra as [|e extra IH]; intros result; cbn [foldl].
  { split; [by left|]. by intros [?|(? & ?%elem_of_nil & _)]. }
  rewrite IH, (exists_elem_of_cons (fun ts => present live (cs_TunnelName ts) = true /\ cs_State ts <> StateError
                                              /\ cs_TunnelName ts = n)).
  unfold add_extra. destruct (present live (cs_TunnelName e)) eqn:Ep; cbn [andb].
  - case_bool_decide as Es; cbn [negb update cs_ActiveTunnels].
    + cbn. tauto.
    + cbn. rewrite appendUnique_elem. intuition congruence.
  - cbn. intuition congruence.
Qed.

(** Under the kill switch every blocked tunnel is shown, flagged as blocked; and a tunnel is
    counted as active only if the WireGuard manager lists it as active or openvpn runs it and its
    state is not an error: a kept error or a block never counts. *)
Theorem status_shows_blocks (device : string -> option (list PeerStat)) (now : Z) (h : Helper) (v : View) :
  (forall name, killSwitch (policy h) = true -> is_Some (fwBlocked h !! name) ->
     exists s, statusDTO device now h v = Some s /\ flagged name (cs_Tunnels s))
  /\ forall s n, statusDTO device now h v = Some s -> n ∈ cs_ActiveTunnels s ->
       n ∈ activeTunnelNames (v_wg v)
       \/ exists o ts, v_ovpn v = Some o /\ present (ob_AllStatuses o) n = true
            /\ ts ∈ extra_statuses h (ob_AllStatuses o) /\ cs_TunnelName ts = n /\ cs_State ts <> StateError.
Proof.
  unfold statusDTO. cbv zeta. set (live := match v_ovpn v with Some o => ob_AllStatuses o | None => [] end).
  split.
  - intros name Hk Hb. destruct (blocked_flagged h live name Hk Hb) as (ts & Hin & Hn & Hf).
    match goal with |- context [match ?r with None => None | Some _ => _ end] =>
      assert (Hr : r <> None) by
        (destruct (negb _); [done|]; destruct (extra_statuses h live); [by apply elem_of_nil in Hin|done]);
      destruct r as [s|]; [|done] end.
    eexists. split; [reflexivity|]. rewrite add_extra_lines. exists (extra_line ts).
    split; [|done]. apply elem_of_app. right. by apply list_elem_of_fmap_2.
  - intros s n H Hn.
    match type of H with match ?r with None => None | Some _ => _ end = _ =>
      assert (Hr : forall x, r = Some x -> n ∈ cs_ActiveTunnels x -> n ∈ activeTunnelNames (v_wg v));
      [|destruct r as [s0|]; [|done]] end.
    { intros x. destruct (negb _); [intros [= <-]; done|].
      destruct (extra_statuses h live); [done|]. intros [= <-]. cbn. by intros ?%elem_of_nil. }
    injection H as <-. apply add_extra_active in Hn as [Hn|(ts & Hin & Hp & He & <-)].
    + left. apply (Hr s0 eq_refl). by destruct (_ <? _)%nat.
    + right. unfold live in *. destruct (v_ovpn v) as [o|]; [|done]. exists o, ts. done.
Qed.

(** ** Waiting for OpenVPN *)

(** Waiting for an OpenVPN tunnel ends: when every tick takes its 250 ms and nobody is being
    asked for credentials, 361 rounds reach the deadline, whatever the manager reports. *)
Theorem waitOVPNConnected_ends (env : Env) (name : string) (h : Helper) (log : list Call) :
  (forall l, (env_now env l + 250000000 <= env_now env (l ++ [CTick]))%Z) ->
  (forall l o, v_ovpn (env_view env l) = Some o -> ob_IsAwaitingCredentials o name = false) ->
  fst (waitOVPNConnected env 361 name (h, log)) <> None.
Proof.
  intros Hclock Hask. unfold waitOVPNConnected, bind at 1, clock. cbn [fst snd].
  assert (Hloop : forall k l deadline,
    (deadline - env_now env l <= Z.of_nat k * 250000000)%Z ->
    fst (wait_loop env (S k) name deadline (h, l)) <> None).
  { induction k as [|k IH]; intros l deadline Hd; cbn [wait_loop]; unfold bind at 1, clock; cbn [fst snd];
      (destruct (Z.ltb_spec (env_now env l) deadline) as [Hlt|Hge]; cbn [negb]; [|done]); [lia|].
    unfold bind at 1, look. cbn [fst snd]. destruct (v_ovpn (env_view env l)) as [o|] eqn:Eo; [|done].
    destruct (ob_GetStatus o name) as [st|]; [|done]. destruct (_ && _); [done|].
    rewrite (Hask _ _ Eo). unfold bind, call, get. cbn [fst snd]. destruct (closed h); [done|].
    apply IH. pose proof (Hclock l). lia. }
  apply Hloop. unfold ovpnConnectTimeout, time_second. lia.
Qed.

(** A clock that advances with the ticks, and a tunnel that never connects. *)
Definition slow_env : Env :=
  MkEnv (fun _ => MkView NewManager (Some (MkBackend (fun _ => Some zero_status) (fun _ => false) [] [] [])))
    (fun _ => ROk) (fun _ => None) [] true (fun log => (Z.of_nat (length log) * 250000000)%Z).

Lemma waitOVPNConnected_ends_witness : fst (waitOVPNConnected slow_env 361 "work" (new_helper, [])) <> None.
Proof.
  apply waitOVPNConnected_ends.
  - intros l. cbn [env_now slow_env]. rewrite length_app. cbn [length]. lia.
  - intros l o [= <-]. reflexivity.
Defined.

Definition valid_cfg : WireGuardConfig :=
  MkConfig "home"
    (zero_interface <| PrivateKey := "AAAAAAAAAAAAAAAAAAAAAAAAAAAAAAAAAAAAAAAAAAA=" |>
                    <| Address := ["10.0.0.2/32"] |>)
    [zero_peer <| PublicKey := "AQAAAAAAAAAAAAAAAAAAAAAAAAAAAAAAAAAAAAAAAAA=" |>
               <| Endpoint := "192.0.2.1:51820" |> <| AllowedIPs := ["0.0.0.0/0"] |>].

Definition valid_request : ConnectRequest := MkConnectRequest (Some valid_cfg) true "" "" "".

Lemma failed_connect_restores_witness :
  exists h' log', connect_wg refusing_env valid_request [] (blocked_helper, []) = (Err ErrBackend, (h', log'))
    /\ is_Some (fwBlocked h' !! "home").
Proof.
  destruct (connect_wg refusing_env valid_request [] (blocked_helper, [])) as [r [h' log']] eqn:E.
  assert (Hr : r = Err ErrBackend).
  { apply (f_equal fst) in E. cbn [fst] in E. rewrite <- E. vm_compute. reflexivity. }
  subst r. exists h', log'. split; [reflexivity|].
  apply (failed_connect_restores refusing_env valid_request valid_cfg [] blocked_helper h' [] log');
    [reflexivity| |exact E|reflexivity|].
  - intros log Hin. change (live_names (env_view refusing_env log)) with (@nil string) in Hin.
    by apply elem_of_nil in Hin.
  - eexists. vm_compute. reflexivity.
Defined.

Lemma status_shows_blocks_witness :
  exists s, statusDTO (fun _ => None) 0 blocked_helper (MkView NewManager None) = Some s
    /\ flagged "home" (cs_Tunnels s).
Proof.
  apply (proj1 (status_shows_blocks (fun _ => None) 0 blocked_helper (MkView NewManager None)) "home").
  - reflexivity.
  - eexists. vm_compute. reflexivity.
Defined.
