(* ===== verification/Reconnect.v ===== *)
(** * The reconnect monitor: internal/reconnect/monitor.go

    [reconnectWithBackoff] is one retry sequence, run against what happens at each of its rounds;
    [step] is the bookkeeping of many sequences at once.  The firewall hold that a sequence takes
    and releases is the interface [FirewallHolds], which the helper implements
    ([HelperHolds.helper_holds]). *)

From S2P Require Import Prelude GoStrings Domain TunnelManager.

(** ** Parameters *)

Record Config := MkConfigR {
  InitialDelay : Z; MaxDelay : Z; MaxAttempts : Z; WakeGrace : Z }.

Definition DefaultConfig : Config :=
  MkConfigR (5 * time_second) (60 * time_second) 0 (30 * time_second).

(** reconnect.State *)
Record RetryStatus := MkRetryStatus {
  Reconnecting : bool; Attempt : Z; StMaxAttempts : Z; NextRetry : option Z   (** a duration *) }.

(** ** One retry sequence *)

Inductive WaitEnd := WaitCancelled | WaitStopped | WaitElapsed.
Inductive Outcome := Reconnected | GaveUp | Failed.

(** What one round meets: whether the monitor runs, how the wait ends, whether the sequence is
    cancelled after the wait and after the disconnect, and what reconnectFn returns. *)
Record Round := MkRound {
  rd_running : bool; rd_wait : WaitEnd; rd_cancelled : bool; rd_cancelled_late : bool; rd_outcome : Outcome }.

Inductive Event :=
| EvNotify (st : RetryStatus)
| EvWait (delay : Z)
| EvDisconnect
| EvReconnect
| EvClear      (** clearRetryState *)
| EvResume.    (** the firewall hold is released *)

Inductive Exit := ExitReconnected | ExitGaveUp | ExitMaxAttempts | ExitCancelled | ExitStopped.

Section Sequence.
Context (cfg : Config) (rounds : nat -> Round).

(** min(delay*2, MaxDelay) on int64 *)
Definition next_delay (delay : Z) : Z := Z.min (wrap64 (delay * 2)) (MaxDelay cfg).

(** The loop from its [attempt]-th round on ([rs.attempt] is one less), without the deferred calls;
    no exit when the fuel runs out: the loop goes on. *)
Fixpoint retry_loop (fuel : nat) (attempt : nat) (delay : Z) : option Exit * list Event :=
  match fuel with
  | O => (None, [])
  | S fuel' =>
      let r := rounds attempt in
      if negb (rd_running r) then (Some ExitStopped, [])
      else if (0 <? MaxAttempts cfg)%Z && (MaxAttempts cfg <? Z.of_nat attempt)%Z then
        (Some ExitMaxAttempts,
         [EvNotify (MkRetryStatus false (Z.of_nat attempt - 1) (MaxAttempts cfg) None)])
      else
        let start := [EvNotify (MkRetryStatus true (Z.of_nat attempt) (MaxAttempts cfg) (Some delay));
                      EvWait delay] in
        match rd_wait r with
        | WaitCancelled => (Some ExitCancelled, start)
        | WaitStopped => (Some ExitStopped, start)
        | WaitElapsed =>
            if rd_cancelled r then (Some ExitCancelled, start)
            else if rd_cancelled_late r then (Some ExitCancelled, start ++ [EvDisconnect])
            else
              let tried := start ++ [EvDisconnect; EvReconnect] in
              match rd_outcome r with
              | Reconnected => (Some ExitReconnected, tried ++ [EvNotify (MkRetryStatus false 0 0 None)])
              | GaveUp => (Some ExitGaveUp, tried ++ [EvNotify (MkRetryStatus false 0 0 None)])
              | Failed => let '(ex, evs) := retry_loop fuel' (S attempt) (next_delay delay) in (ex, tried ++ evs)
              end
        end
  end.

(** The deferred calls run when the loop returns, last to first. *)
Definition reconnectWithBackoff (fuel : nat) : option Exit * list Event :=
  let '(ex, evs) := retry_loop fuel 1 (InitialDelay cfg) in
  (ex, evs ++ match ex with Some _ => [EvClear; EvResume] | None => [] end).
End Sequence.

(** ** What to reconnect *)

Definition handshakeStaleThreshold : Z := 180 * time_second.

(** One tick of monitorLoop: the tunnels it triggers. *)
Definition stale_tunnels (enabled connected : bool) (shouldReconnect : string -> bool) (now : Z)
    (statuses : list ConnectionStatus) : list string :=
  if negb enabled || negb connected then []
  else cs_TunnelName <$>
         List.filter (fun st =>
           bool_decide (cs_State st = StateConnected) && negb (cs_LastHandshakeTime st =? 0)%Z
           && negb ((now - cs_LastHandshakeTime st <=? handshakeStaleThreshold)%Z
                    || negb (shouldReconnect (cs_TunnelName st)))) statuses.

(** The end of the grace period of sleepWakeLoop: the tunnels it triggers. *)
Definition wake_tunnels (shouldReconnect : string -> bool) (wokeAt : Z)
    (statuses : list ConnectionStatus) : list string :=
  cs_TunnelName <$>
    List.filter (fun st =>
      shouldReconnect (cs_TunnelName st)
      && negb (bool_decide (cs_State st = StateConnected) && (wokeAt <? cs_LastHandshakeTime st)%Z)) statuses.

(** A tunnel died on its own: the tunnels it triggers. *)
Definition NotifyTunnelDied (shouldReconnect : string -> bool) (tunnelName : string) : list string :=
  if shouldReconnect tunnelName then [tunnelName] else [].

(** ** Many sequences *)

(** The firewall's counted holds, as the monitor uses them. *)
Class FirewallHolds (F : Type) := {
  suspend : F -> string -> F;
  resume : F -> string -> bool -> F;
  forget : F -> string -> F;            (** the user disconnects a tunnel *)
  holds : F -> string -> nat;
  outside : string -> F -> F -> Prop;   (** whatever else happens to the firewall, a disconnect of this tunnel apart *)
  holds_outside n s s' : outside n s s' -> holds s' n = holds s n;
  holds_forget s n m : holds (forget s n) m = if bool_decide (n = m) then 0%nat else holds s m;
  holds_suspend s n m : holds (suspend s n) m = if bool_decide (n = m) then S (holds s m) else holds s m;
  holds_resume s n live m : holds (resume s n live) m = if bool_decide (n = m) then pred (holds s m) else holds s m
}.

(** Where a sequence is: registered by triggerReconnectTunnel; suspended, the firewall hold taken
    but the sequence it replaces not cancelled yet; retrying; finished. *)
Inductive Phase := Registered (old : option nat) | Suspended (old : option nat) | Retrying | Finished.

Record retryState := MkSeq { sq_name : string; sq_phase : Phase }.

Record Monitor := MkMonitor {
  running : bool;
  retries : gmap string nat;        (** the current sequence of a tunnel *)
  seqs : gmap nat retryState;       (** every sequence started, by identity *)
  cancelled : gset nat              (** contexts that have been cancelled *)
}.

#[export] Instance eta_monitor : Eta Monitor := fun r =>
  MkMonitor (running r) (retries r) (seqs r) (cancelled r).

Definition new_monitor : Monitor := MkMonitor true ∅ ∅ ∅.

(** The locked part of triggerReconnectTunnel. *)
Definition register (m : Monitor) (name : string) (id : nat) : Monitor :=
  m <| seqs ::= fun s => <[id := MkSeq name (Registered (retries m !! name))]> s |>
    <| retries ::= fun r => <[name := id]> r |>.

Definition set_phase (m : Monitor) (id : nat) (name : string) (p : Phase) : Monitor :=
  m <| seqs ::= fun s => <[id := MkSeq name p]> s |>.

Definition cancel (m : Monitor) (ids : gset nat) : Monitor := m <| cancelled ::= fun c => c ∪ ids |>.

Definition clearRetryState (m : Monitor) (name : string) (id : nat) : Monitor :=
  if bool_decide (retries m !! name = Some id) then m <| retries ::= fun r => delete name r |> else m.

Definition CancelRetry (m : Monitor) (name : string) : Monitor :=
  match retries m !! name with
  | Some id => (cancel m {[id]}) <| retries ::= fun r => delete name r |>
  | None => m
  end.

Definition StopMonitor (m : Monitor) : Monitor :=
  if running m then
    (cancel m (list_to_set (map_to_list (retries m)).*2)) <| running := false |> <| retries := ∅ |>
  else m.

Definition is_holding (name : string) (q : retryState) : bool :=
  (sq_name q =s name) && match sq_phase q with Suspended _ | Retrying => true | _ => false end.

Definition holding (m : Monitor) (name : string) : nat :=
  size (filter (fun '(_, q) => is_holding name q = true) (seqs m)).

Section Bookkeeping.
Context {F : Type} `{FirewallHolds F} (watched : string).

(** A sequence takes its hold before the one it replaces is cancelled; it ends whenever it likes,
    clearing its own entry and then releasing its hold.  The user may disconnect the watched tunnel when
    no sequence of it is on its way ([HelperOpsFacts.stale_release_ends_new_hold] is what happens else),
    and any other tunnel at any time. *)
Inductive retry_step : Monitor * F -> Monitor * F -> Prop :=
| retry_register m s name (id : nat) :
    running m = true -> seqs m !! id = None ->
    retry_step (m, s) (register m name id, s)
| retry_suspend m s id name old :
    seqs m !! id = Some (MkSeq name (Registered old)) ->
    retry_step (m, s) (set_phase m id name (Suspended old), suspend s name)
| retry_start m s id name old :
    seqs m !! id = Some (MkSeq name (Suspended old)) ->
    retry_step (m, s)
      (set_phase (match old with Some o => cancel m {[o]} | None => m end) id name Retrying, s)
| retry_clear m s id name :
    seqs m !! id = Some (MkSeq name Retrying) ->
    retry_step (m, s) (clearRetryState m name id, s)
| retry_finish m s id name live :
    seqs m !! id = Some (MkSeq name Retrying) -> retries m !! name <> Some id ->
    retry_step (m, s) (set_phase m id name Finished, resume s name live)
| retry_cancel m s name :
    retry_step (m, s) (CancelRetry m name, s)
| retry_stop m s :
    retry_step (m, s) (StopMonitor m, s)
| retry_forget m s :
    holding m watched = 0%nat -> retry_step (m, s) (m, forget s watched)
| retry_outside m s s' :
    outside watched s s' -> retry_step (m, s) (m, s').

Inductive retry_reachable (s0 : F) : Monitor * F -> Prop :=
| retry_init : retry_reachable s0 (new_monitor, s0)
| retry_next w w' : retry_reachable s0 w -> retry_step w w' -> retry_reachable s0 w'.

(** ** Invariant *)

Lemma holding_insert (ss : gmap nat retryState) name id q :
  let f := filter (fun '(_, q) => is_holding name q = true) in
  (size (f (<[id := q]> ss)) + (if match ss !! id with Some q' => is_holding name q' | None => false end then 1 else 0)
   = size (f ss) + (if is_holding name q then 1 else 0))%nat.
Proof.
  cbv zeta. rewrite map_filter_insert. case_decide as Hq.
  - rewrite Hq. destruct (ss !! id) as [q'|] eqn:E.
    + destruct (is_holding name q') eqn:E'.
      * rewrite map_size_insert_Some; [done|]. by exists q'; apply map_lookup_filter_Some.
      * rewrite map_size_insert_None; [lia|]. apply map_lookup_filter_None. right. by intros ? [= <-]%(eq_trans (eq_sym E)); rewrite E'.
    + rewrite map_size_insert_None; [lia|]. apply map_lookup_filter_None. by left.
  - rewrite map_filter_delete. destruct (is_holding name q); [done|].
    destruct (ss !! id) as [q'|] eqn:E.
    + destruct (is_holding name q') eqn:E'.
      * rewrite map_size_delete_Some by (exists q'; by apply map_lookup_filter_Some).
        assert (size (filter (fun '(_, q) => is_holding name q = true) ss) <> 0)%nat; [|lia].
        intros H0%map_size_empty_inv. apply (f_equal (.!! id)) in H0. rewrite lookup_empty in H0.
        eapply map_lookup_filter_None in H0 as [?|Hf]; [congruence|]. by apply (Hf q').
      * rewrite map_size_delete_None; [done|]. apply map_lookup_filter_None. right.
        by intros ? [= <-]%(eq_trans (eq_sym E)); rewrite E'.
    + rewrite map_size_delete_None; [done|]. apply map_lookup_filter_None. by left.
Qed.

(** The count of one tunnel after the phase of one sequence changes. *)
Lemma holding_set_phase m id name name' q p :
  seqs m !! id = Some q ->
  (holding (set_phase m id name p) name' + (if is_holding name' q then 1 else 0)
   = holding m name' + (if is_holding name' (MkSeq name p) then 1 else 0))%nat.
Proof.
  intros Hq. pose proof (holding_insert (seqs m) name' id (MkSeq name p)) as Hi. cbv zeta in Hi.
  by rewrite Hq in Hi.
Qed.

Definition entry_alive (m : Monitor) : Prop :=
  forall name id, retries m !! name = Some id ->
    exists q, seqs m !! id = Some q /\ sq_name q = name /\ sq_phase q <> Finished.

Lemma clear_seqs m name id : seqs (clearRetryState m name id) = seqs m.
Proof. unfold clearRetryState. by case_bool_decide. Qed.

Lemma cancel_retry_seqs m name : seqs (CancelRetry m name) = seqs m.
Proof. unfold CancelRetry. by destruct (retries m !! name). Qed.

Lemma stop_seqs m : seqs (StopMonitor m) = seqs m.
Proof. unfold StopMonitor. by destruct (running m). Qed.

Lemma retry_step_count w w' :
  retry_step w w' -> holds (snd w) watched = holding (fst w) watched ->
  holds (snd w') watched = holding (fst w') watched.
Proof.
  intros Hs. set (n := watched). intros Hc.
  destruct Hs as [m s name id Hr Hn|m s id name old Hq|m s id name old Hq|m s id name Hq
                 |m s id name live Hq Hr|m s name|m s|m s Hz|m s s' Ho]; cbn [fst snd] in *.
  - pose proof (holding_insert (seqs m) n id (MkSeq name (Registered (retries m !! name)))) as Hi.
    cbv zeta in Hi. rewrite Hn in Hi.
    assert (Hz : is_holding n (MkSeq name (Registered (retries m !! name))) = false) by apply andb_false_r.
    rewrite Hz in Hi. unfold holding, register in *. cbn. lia.
  - rewrite holds_suspend. pose proof (holding_set_phase m id name n _ (Suspended old) Hq) as Hi.
    unfold is_holding in Hi. cbn in Hi. rewrite andb_false_r, andb_true_r in Hi. destruct (bool_decide _); lia.
  - set (m0 := match old with Some o => cancel m {[o]} | None => m end).
    assert (Hs : seqs m0 = seqs m) by (unfold m0; by destruct old).
    assert (Hh : holding m0 n = holding m n) by (unfold holding; by rewrite Hs).
    rewrite <- Hs in Hq. pose proof (holding_set_phase m0 id name n _ Retrying Hq) as Hi.
    unfold is_holding in Hi. cbn in Hi. lia.
  - unfold holding. by rewrite clear_seqs.
  - rewrite holds_resume. pose proof (holding_set_phase m id name n _ Finished Hq) as Hi.
    unfold is_holding in Hi. cbn in Hi. rewrite andb_false_r, andb_true_r in Hi. destruct (bool_decide _); lia.
  - unfold holding. by rewrite cancel_retry_seqs.
  - unfold holding. by rewrite stop_seqs.
  - rewrite holds_forget. rewrite bool_decide_eq_true_2 by done. symmetry. exact Hz.
  - by rewrite (holds_outside n s s' Ho).
Qed.

Lemma alive_insert m (rs : gmap string nat) id q (ss : gmap nat retryState) :
  (forall name i, rs !! name = Some i -> i <> id -> exists q, ss !! i = Some q /\ sq_name q = name /\ sq_phase q <> Finished) ->
  (forall name, rs !! name = Some id -> sq_name q = name /\ sq_phase q <> Finished) ->
  retries m = rs -> seqs m = <[id := q]> ss -> entry_alive m.
Proof.
  intros H1 H2 Er Hs name i Hi. rewrite Er in Hi. rewrite Hs. destruct (decide (i = id)) as [->|Hne].
  - rewrite lookup_insert_eq. exists q. split; [done|by apply H2].
  - rewrite lookup_insert_ne by done. by apply H1.
Qed.

Lemma retry_step_alive w w' : retry_step w w' -> entry_alive (fst w) -> entry_alive (fst w').
Proof.
  intros Hs Ha.
  assert (Hphase : forall m id name q p, entry_alive m -> seqs m !! id = Some q -> sq_name q = name ->
            (p <> Finished \/ retries m !! name <> Some id) -> entry_alive (set_phase m id name p)).
  { intros m id name q p Hm Hq Hn Hp. eapply (alive_insert _ (retries m) id (MkSeq name p) (seqs m)); [| |done..].
    - intros nm i Hi _. by apply Hm.
    - intros nm Hi. destruct (Hm nm id Hi) as (q' & Hq' & Hnm & _). rewrite Hq in Hq'. injection Hq' as <-.
      cbn. split; [congruence|]. destruct Hp as [?|Hp]; [done|]. destruct Hp. congruence. }
  destruct Hs as [m s name id Hr Hn|m s id name old Hq|m s id name old Hq|m s id name Hq
                 |m s id name live Hq Hr|m s name|m s|m s Hz|m s s' Ho]; cbn [fst] in *.
  - eapply (alive_insert _ (<[name := id]> (retries m)) id _ (seqs m)); [| |done..].
    + intros nm i Hi Hne. destruct (decide (nm = name)) as [->|Hnn].
      * rewrite lookup_insert_eq in Hi. by injection Hi as <-.
      * rewrite lookup_insert_ne in Hi by done. by apply Ha.
    + intros nm Hi. cbn. destruct (decide (nm = name)) as [->|Hnn]; [done|].
      rewrite lookup_insert_ne in Hi by done. destruct (Ha nm id Hi) as (q & Hq & _). by rewrite Hn in Hq.
  - eapply Hphase; [done|exact Hq|done|by left].
  - eapply Hphase; [by destruct old|by destruct old|done|by left].
  - unfold entry_alive. rewrite clear_seqs. intros nm i Hi. apply Ha. unfold clearRetryState in Hi.
    case_bool_decide; [|done]. cbn in Hi. by apply lookup_delete_Some in Hi as [_ ?].
  - eapply Hphase; [done|exact Hq|done|by right].
  - unfold entry_alive. rewrite cancel_retry_seqs. intros nm i Hi. apply Ha. unfold CancelRetry in Hi.
    destruct (retries m !! name); [|done]. cbn in Hi. by apply lookup_delete_Some in Hi as [_ ?].
  - unfold entry_alive. rewrite stop_seqs. intros nm i Hi. apply Ha. unfold StopMonitor in Hi.
    destruct (running m); [|done]. cbn in Hi. by rewrite lookup_empty in Hi.
  - done.
  - done.
Qed.

Lemma retry_inv s0 w :
  holds s0 watched = 0%nat -> retry_reachable s0 w ->
  holds (snd w) watched = holding (fst w) watched /\ entry_alive (fst w).
Proof.
  intros H0 Hr. induction Hr as [|w w' _ [IHc IHa] Hs].
  - split; [cbn [snd fst]; rewrite H0; unfold holding; cbn; by rewrite map_filter_empty, map_size_empty|].
    intros name id Hi. cbn in Hi. by rewrite lookup_empty in Hi.
  - split; [by apply (retry_step_count w w')|by apply (retry_step_alive w w')].
Qed.

Lemma holding_pos m name id q : seqs m !! id = Some q -> is_holding name q = true -> (0 < holding m name)%nat.
Proof.
  intros Hq Hh. unfold holding. destruct (size _) eqn:E; [|lia]. apply map_size_empty_inv in E.
  apply (f_equal (.!! id)) in E. rewrite lookup_empty in E.
  apply map_lookup_filter_None in E as [?|Hf]; [congruence|]. by destruct (Hf q Hq).
Qed.

(** However triggers, replacements, cancellations and exits interleave, the firewall counts
    exactly one hold for every sequence of the watched tunnel that has taken its hold and not released it:
    replacing a sequence never ends the hold of its tunnel, and no sequence leaves one behind; and the
    registered sequence of a tunnel is one that has not finished. *)
Theorem holds_match_sequences (s0 s : F) (m : Monitor) :
  holds s0 watched = 0%nat -> retry_reachable s0 (m, s) ->
  holds s watched = holding m watched
  /\ (forall id q, seqs m !! id = Some q -> is_holding watched q = true -> (0 < holds s watched)%nat)
  /\ entry_alive m.
Proof.
  intros H0 Hr. destruct (retry_inv s0 (m, s) H0 Hr) as [Hc Ha]. cbn [fst snd] in *.
  split; [done|]. split; [|done]. intros id q Hq Hh. rewrite Hc. by apply (holding_pos m watched id q).
Qed.
End Bookkeeping.

(** ** What a sequence does, round by round *)

Definition sane (cfg : Config) : Prop := (0 < InitialDelay cfg <= MaxDelay cfg)%Z /\ (MaxDelay cfg < 2 ^ 62)%Z.

Lemma wrap64_small z : (- 2 ^ 63 <= z < 2 ^ 63)%Z -> wrap64 z = z.
Proof. intros Hz. unfold wrap64. rewrite Z.mod_small by lia. lia. Qed.

(** The wait before the attempt after [i] failed ones. *)
Definition delay_at (cfg : Config) (i : nat) : Z := Z.min (InitialDelay cfg * 2 ^ Z.of_nat i) (MaxDelay cfg).

Lemma next_delay_at cfg i : sane cfg -> next_delay cfg (delay_at cfg i) = delay_at cfg (S i).
Proof.
  intros [[H0 H1] H2]. unfold next_delay, delay_at.
  assert (Hp : (0 < 2 ^ Z.of_nat i)%Z) by (apply Z.pow_pos_nonneg; lia).
  replace (2 ^ Z.of_nat (S i))%Z with (2 * 2 ^ Z.of_nat i)%Z by (rewrite Nat2Z.inj_succ, Z.pow_succ_r by lia; lia).
  assert (Hpos : (0 < InitialDelay cfg * 2 ^ Z.of_nat i)%Z) by nia.
  replace (InitialDelay cfg * (2 * 2 ^ Z.of_nat i))%Z with (2 * (InitialDelay cfg * 2 ^ Z.of_nat i))%Z by ring.
  set (x := (InitialDelay cfg * 2 ^ Z.of_nat i)%Z) in *. rewrite wrap64_small by lia. lia.
Qed.

Section SequenceFacts.
Context (cfg : Config) (rounds : nat -> Round).

(** The [n]-th attempt, from 1: it is announced, waited for, and made. *)
Definition announced (n : nat) : list Event :=
  [EvNotify (MkRetryStatus true (Z.of_nat n) (MaxAttempts cfg) (Some (delay_at cfg (n - 1)))); EvWait (delay_at cfg (n - 1))].

Definition attempted (n : nat) : list Event := announced n ++ [EvDisconnect; EvReconnect].

(** A round that ends the sequence by itself, and the first attempt that is one too many. *)
Definition ends (r : Round) : bool :=
  negb (rd_running r) || negb (match rd_wait r with WaitElapsed => true | _ => false end)
  || rd_cancelled r || rd_cancelled_late r || match rd_outcome r with Failed => false | _ => true end.

Definition too_many (n : nat) : Prop := (0 < MaxAttempts cfg < Z.of_nat n)%Z.

(** How the [n]-th round ends the sequence: what it still does, and the exit. *)
Definition tries (n : nat) (r : Round) : Prop := rd_running r = true /\ ~ too_many n /\ rd_wait r = WaitElapsed.

Inductive ends_as (n : nat) (r : Round) : list Event -> Exit -> Prop :=
| end_stopped : rd_running r = false -> ends_as n r [] ExitStopped
| end_limit : rd_running r = true -> too_many n ->
    ends_as n r [EvNotify (MkRetryStatus false (Z.of_nat n - 1) (MaxAttempts cfg) None)] ExitMaxAttempts
| end_wait_stopped : rd_running r = true -> ~ too_many n -> rd_wait r = WaitStopped ->
    ends_as n r (announced n) ExitStopped
| end_wait_cancelled : rd_running r = true -> ~ too_many n -> rd_wait r = WaitCancelled ->
    ends_as n r (announced n) ExitCancelled
| end_cancelled : tries n r -> rd_cancelled r = true -> ends_as n r (announced n) ExitCancelled
| end_cancelled_late : tries n r -> rd_cancelled r = false -> rd_cancelled_late r = true ->
    ends_as n r (announced n ++ [EvDisconnect]) ExitCancelled
| end_reconnected : tries n r -> rd_cancelled r = false -> rd_cancelled_late r = false -> rd_outcome r = Reconnected ->
    ends_as n r (attempted n ++ [EvNotify (MkRetryStatus false 0 0 None)]) ExitReconnected
| end_gave_up : tries n r -> rd_cancelled r = false -> rd_cancelled_late r = false -> rd_outcome r = GaveUp ->
    ends_as n r (attempted n ++ [EvNotify (MkRetryStatus false 0 0 None)]) ExitGaveUp.

(** The attempt fails, and is not the last one. *)
Definition goes_on (n : nat) : Prop := ends (rounds n) = false /\ ~ too_many n.

#[local] Instance goes_on_dec n : Decision (goes_on n).
Proof. unfold goes_on, too_many. apply _. Defined.

Lemma over_limit n : ((0 <? MaxAttempts cfg)%Z && (MaxAttempts cfg <? Z.of_nat n)%Z) = bool_decide (too_many n).
Proof. unfold too_many. case_bool_decide; lia. Qed.

Lemma loop_goes_on n fuel : sane cfg -> goes_on n -> (0 < n)%nat ->
  retry_loop cfg rounds (S fuel) n (delay_at cfg (n - 1))
  = let '(ex, evs) := retry_loop cfg rounds fuel (S n) (delay_at cfg n) in (ex, attempted n ++ evs).
Proof.
  intros Hs [He Hm] Hn. pose proof (next_delay_at cfg (n - 1) Hs) as Hd. replace (S (n - 1)) with n in Hd by lia.
  cbn [retry_loop]. rewrite over_limit, (bool_decide_eq_false_2 _ Hm).
  unfold ends in He. destruct (rd_running (rounds n)); [|done]. cbn [negb orb] in *.
  destruct (rd_wait (rounds n)); [done|done|]. destruct (rd_cancelled (rounds n)); [done|].
  destruct (rd_cancelled_late (rounds n)); [done|]. destruct (rd_outcome (rounds n)); [done|done|].
  rewrite Hd. by destruct (retry_loop _ _ _ _ _).
Qed.

Lemma loop_ends n : ~ goes_on n ->
  exists ex evs, ends_as n (rounds n) evs ex
    /\ forall fuel, retry_loop cfg rounds (S fuel) n (delay_at cfg (n - 1)) = (Some ex, evs).
Proof.
  intros Hg. cbn [retry_loop]. rewrite over_limit.
  destruct (rd_running (rounds n)) eqn:E1; cbn [negb]; [|eexists _, _; split; [by constructor|reflexivity]].
  case_bool_decide as Hm; [eexists _, _; split; [by constructor|reflexivity]|].
  destruct (rd_wait (rounds n)) eqn:E2; [eexists _, _; split; [by constructor|reflexivity]..|].
  assert (tries n (rounds n)) as Ht by by split_and!.
  destruct (rd_cancelled (rounds n)) eqn:E3; [eexists _, _; split; [by constructor|reflexivity]|].
  destruct (rd_cancelled_late (rounds n)) eqn:E4; [eexists _, _; split; [by constructor|reflexivity]|].
  destruct (rd_outcome (rounds n)) eqn:E5; [eexists _, _; split; [by constructor|reflexivity]..|].
  exfalso. apply Hg. split; [|done]. unfold ends. by rewrite E1, E2, E3, E4, E5.
Qed.

(** [k] rounds from the [n]-th on that go on. *)
Lemma loop_runs k : forall n fuel, sane cfg -> (0 < n)%nat -> (forall i, (n <= i < n + k)%nat -> goes_on i) ->
  retry_loop cfg rounds (k + fuel) n (delay_at cfg (n - 1))
  = let '(ex, evs) := retry_loop cfg rounds fuel (n + k) (delay_at cfg (n + k - 1)) in
    (ex, concat (attempted <$> seq n k) ++ evs).
Proof.
  induction k as [|k IH]; intros n fuel Hs Hn Hg.
  - rewrite Nat.add_0_r. cbn. by destruct (retry_loop _ _ _ _ _).
  - cbn [Nat.add]. rewrite loop_goes_on by (first [done|apply Hg; lia]).
    specialize (IH (S n) fuel Hs ltac:(lia) ltac:(intros i Hi; apply Hg; lia)).
    replace (S n - 1)%nat with n in IH by lia. rewrite IH. replace (n + S k)%nat with (S n + k)%nat by lia.
    destruct (retry_loop _ _ fuel _ _). cbn [seq fmap list_fmap concat]. by rewrite app_assoc.
Qed.

Lemma first_end b : (forall i, (1 <= i <= b)%nat -> goes_on i)
  \/ exists k, (k < b)%nat /\ (forall i, (1 <= i <= k)%nat -> goes_on i) /\ ~ goes_on (S k).
Proof.
  induction b as [|b [IH|(k & Hk & Hg)]]; [left; lia| |right; exists k; split; [lia|done]].
  destruct (decide (goes_on (S b))) as [Hb|Hb]; [left|right; exists b; split; [lia|done]].
  intros i Hi. destruct (decide (i = S b)) as [->|]; [done|apply IH; lia].
Qed.

(** C7: What a retry sequence does, exactly.  As long as every attempt fails and nothing stops it, it goes on: it
    announces, waits for and makes one attempt after the other, the wait before the [n]-th being
    min(InitialDelay * 2^(n-1), MaxDelay), without overflow.  At the first round that is one too many, succeeds, gives
    up, is cancelled or finds the monitor stopped it ends the way [ends_as] says, without a further attempt, and
    only then its entry is cleared and its hold released.  With a limit it ends after at most that many failed attempts;
    without one (the default) only such a round ends it. *)
Theorem sequence_exact :
  sane cfg ->
  (forall k, (forall i, (1 <= i <= k)%nat -> goes_on i) ->
     reconnectWithBackoff cfg rounds k = (None, concat (attempted <$> seq 1 k)))
  /\ (forall k, (forall i, (1 <= i <= k)%nat -> goes_on i) -> ~ goes_on (S k) ->
       exists ex evs, ends_as (S k) (rounds (S k)) evs ex
       /\ forall fuel, (k < fuel)%nat ->
            reconnectWithBackoff cfg rounds fuel
            = (Some ex, concat (attempted <$> seq 1 k) ++ evs ++ [EvClear; EvResume]))
  /\ ((0 < MaxAttempts cfg)%Z ->
      exists k, (Z.of_nat k <= MaxAttempts cfg)%Z /\ (forall i, (1 <= i <= k)%nat -> goes_on i) /\ ~ goes_on (S k)).
Proof.
  intros Hs. assert (InitialDelay cfg = delay_at cfg 0) as Hd.
  { unfold delay_at. rewrite Z.mul_1_r, Z.min_l; [done|apply Hs]. }
  assert (Hrun : forall k fuel, (forall i, (1 <= i <= k)%nat -> goes_on i) ->
            retry_loop cfg rounds (k + fuel) 1 (InitialDelay cfg)
            = let '(ex, evs) := retry_loop cfg rounds fuel (S k) (delay_at cfg k) in (ex, concat (attempted <$> seq 1 k) ++ evs)).
  { intros k fuel Hg. pose proof (loop_runs k 1 fuel Hs ltac:(lia) ltac:(intros i Hi; apply Hg; lia)) as H.
    cbn [Nat.add Nat.sub] in H. rewrite Nat.sub_0_r, <- Hd in H. exact H. }
  unfold reconnectWithBackoff. split_and!.
  - intros k Hg. specialize (Hrun k 0%nat Hg). rewrite Nat.add_0_r in Hrun. rewrite Hrun. cbn. by rewrite !app_nil_r.
  - intros k Hg Hend. destruct (loop_ends (S k) Hend) as (ex & evs & He & El). exists ex, evs. split; [done|].
    intros fuel Hf. specialize (El (fuel - S k)%nat). rewrite Nat.sub_succ, Nat.sub_0_r in El.
    replace fuel with (k + S (fuel - S k))%nat by lia. by rewrite (Hrun k _ Hg), El, <- app_assoc.
  - intros Hm. destruct (first_end (S (Z.to_nat (MaxAttempts cfg)))) as [Hg|(k & Hk & Hg)].
    + exfalso. apply (Hg (S (Z.to_nat (MaxAttempts cfg))) ltac:(lia)). unfold too_many. lia.
    + exists k. split; [lia|done].
Qed.
End SequenceFacts.

(** Three failures, then a connection. *)
Definition flaky (n : nat) : Round :=
  MkRound true WaitElapsed false false (if (n <? 4)%nat then Failed else Reconnected).

Lemma sequence_exact_witness :
  exists ex evs, reconnectWithBackoff DefaultConfig flaky 4
    = (Some ex, concat (attempted DefaultConfig <$> seq 1 3) ++ evs ++ [EvClear; EvResume])
  /\ ends_as DefaultConfig 4 (flaky 4) evs ex
  /\ (delay_at DefaultConfig <$> seq 0 5 = [5 * time_second; 10 * time_second; 20 * time_second; 40 * time_second; 60 * time_second])%Z.
Proof.
  destruct (proj1 (proj2 (sequence_exact DefaultConfig flaky ltac:(vm_compute; repeat split; discriminate))) 3%nat) as (ex & evs & He & Hf).
  - intros i Hi. split; [|vm_compute; intuition discriminate]. unfold flaky, ends. cbn.
    destruct (Nat.ltb_spec i 4); [reflexivity|lia].
  - intros [H _]. vm_compute in H. discriminate.
  - exists ex, evs. split; [apply Hf; lia|]. split; [exact He|vm_compute; reflexivity].
Defined.
