(* ===== verification/HelperHolds.v ===== *)
(** * The helper's holds under the reconnect monitor

    [holdFirewall] and [releaseFirewall] implement the interface the monitor is proved against. *)

From S2P Require Import Prelude GoStrings Domain TunnelManager Firewall HelperFirewall HelperOps HelperFacts HelperOpsFacts Reconnect.

(** Every other section of the helper, a user's disconnect of this tunnel apart. *)
Definition keeps_holds (name : string) (l : Locked) : bool :=
  match l with LHold _ | LRelease _ _ => false | LDisconnect n => negb (n =s name) | _ => true end.

#[export, refine] Instance helper_holds : FirewallHolds Helper := {
  suspend := hold;
  resume := release;
  forget := disconnect_clear;
  holds := held;
  outside n h h' := exists l, keeps_holds n l = true /\ h' = locked l h
}.
Proof.
  - intros n h h' (l & Hl & ->). rewrite locked_held. destruct l; try done. cbn [keeps_holds] in Hl.
    cbn [is_hold is_release is_disconnect]. apply negb_true_iff in Hl. by rewrite Hl.
  - intros h n m. exact (locked_held (LDisconnect n) h m).
  - intros h n m. exact (locked_held (LHold n) h m).
  - intros h n live m. rewrite held_release. case_bool_decide as E; [by rewrite E|done].
Defined.

(** C6: as long as a retry sequence of a tunnel has its hold, the kill switch is loaded at every apply, whatever
    the helper does meanwhile: replacing the sequence, cancelling it or stopping the monitor opens no gap, nor does
    anything about other tunnels, disconnects included.  The one exception is a user's disconnect of this very
    tunnel while a sequence of it is still on its way: it forgets the count, so that the old sequence's
    release can end the hold of a later one ([stale_release_ends_new_hold]); after a disconnect that finds no
    sequence on its way the theorem holds again. *)
Theorem reconnect_keeps_kill_switch (h0 h : Helper) (m : Monitor) (v : View) (name : string) (id : nat)
    (q : retryState) :
  held h0 name = 0%nat -> retry_reachable name h0 (m, h) ->
  seqs m !! id = Some q -> is_holding name q = true -> killSwitch (policy h) = true ->
  rs_KillSwitch (fst (ruleset h v)) = true.
Proof.
  intros Hz Hr Hq Hh Hk. change (holds h0 name = 0%nat) in Hz. destruct (retry_inv name h0 (m, h) Hz Hr) as [Hc _]. apply (in_hold_kill_switch _ _ name); [|done].
  assert (Hpos : (0 < held h name)%nat).
  { change (held h name) with (holds h name). cbn [fst snd] in Hc. rewrite Hc. by apply (holding_pos m name id q). }
  left. unfold held in Hpos. destruct (fwHeld h !! name); [by eexists|cbn in Hpos; lia].
Qed.

(** The user disconnects, connects again and disconnects another tunnel; then a death: the sequence registers
    and takes its hold. *)
Lemma reconnect_keeps_kill_switch_witness :
  let h1 := disconnect_clear (cache_wg (disconnect_clear home_helper "home") home_cfg true) "work" in
  let h := hold h1 "home" in
  rs_KillSwitch (fst (ruleset h (MkView NewManager None))) = true.
Proof.
  cbv zeta. set (h1 := disconnect_clear (cache_wg (disconnect_clear home_helper "home") home_cfg true) "work").
  set (m1 := register new_monitor "home" 0). set (m2 := set_phase m1 0 "home" (Suspended None)).
  apply (reconnect_keeps_kill_switch home_helper _ m2 (MkView NewManager None) "home" 0 (MkSeq "home" (Suspended None)));
    [reflexivity| |reflexivity|reflexivity|reflexivity].
  change (hold h1 "home") with (suspend h1 "home").
  apply (retry_next "home" home_helper (m1, h1)); [|apply (retry_suspend "home" m1 h1 0 "home" None); reflexivity].
  apply (retry_next "home" home_helper (new_monitor, h1)); [|apply retry_register; reflexivity].
  apply (retry_next "home" home_helper (new_monitor, cache_wg (disconnect_clear home_helper "home") home_cfg true)).
  - apply (retry_next "home" home_helper (new_monitor, disconnect_clear home_helper "home")).
    + change (disconnect_clear home_helper "home") with (forget home_helper "home").
      apply (retry_next "home" home_helper (new_monitor, home_helper) (new_monitor, forget home_helper "home")); [apply retry_init|].
      apply retry_forget. vm_compute. reflexivity.
    + apply retry_outside. by exists (LCacheWg home_cfg true).
  - apply retry_outside. by exists (LDisconnect "work").
Defined.

Lemma holds_match_sequences_witness :
  let m := set_phase (register new_monitor "home" 0) 0 "home" (Suspended None) in
  holds (suspend home_helper "home") "home" = 1%nat /\ holding m "home" = 1%nat.
Proof.
  intros m. assert (Hr : retry_reachable "home" home_helper (m, suspend home_helper "home")).
  { apply (retry_next "home" home_helper (register new_monitor "home" 0, home_helper)).
    - apply (retry_next "home" home_helper (new_monitor, home_helper)); [apply retry_init|].
      apply retry_register; reflexivity.
    - apply (retry_suspend "home" (register new_monitor "home" 0) home_helper 0 "home" None). reflexivity. }
  assert (Hz : holds home_helper "home" = 0%nat) by reflexivity.
  destruct (holds_match_sequences "home" home_helper _ m Hz Hr) as [Hc _].
  assert (Hh : holding m "home" = 1%nat) by (vm_compute; reflexivity).
  split; [exact (eq_trans Hc Hh)|exact Hh].
Defined.
