(* ===== verification/OvpnManager.v ===== *)
(** * The OpenVPN manager: internal/ovpn/manager.go

    One [entry] per tunnel, reached through the map [m_tunnels] from names to entries; entries are
    kept by identity ([m_heap]), because a goroutine keeps the pointer it was started with.  A
    function on [Manager] is what the code does in one critical section; the calls it makes
    outside the lock (callbacks, the network adapter, the management socket) are the list of
    [Todo] it returns.  OvpnManagerSys.v runs them. *)

From S2P Require Import Prelude GoStrings GoText GoNet Domain Recovery OvpnParse OvpnAllowlist OvpnProfile OvpnMgmt HelperFirewall.

(** ** Scraping openvpn's output *)

Definition not_quote (c : ascii) : bool := negb (bool_decide (c = "'"%char)).

(** cipherLogRe at one position *)
Definition cipherLogRe (s : string) : option string :=
  match after_prefix "Data Channel: cipher '" s with
  | None => None
  | Some s =>
      let '(c, rest) := span not_quote s in
      if (c =s "") || (rest =s "") then None else Some c
  end.

(** [\S]: anything but tab, newline, form feed, carriage return and blank *)
Definition re_nonspace (c : ascii) : bool :=
  negb (byte_is c 9 || byte_is c 10 || byte_is c 12 || byte_is c 13 || byte_is c 32).

(** A literal under (?i); the letters used have no fold outside ASCII. *)
Definition after_fold (p s : string) : option string :=
  if has_prefix p (to_lower (string_take (String.length p) s))
  then Some (string_drop (String.length p) s) else None.

(** ifaceLogRe at one position *)
Definition ifaceLogRe (s : string) : option string :=
  match after_fold "opened " s with
  | None => None
  | Some s =>
      let '(kind, s) := span re_nonspace s in
      if kind =s "" then None
      else match after_fold " device " s with
           | None => None
           | Some s => let '(dev, _) := span re_nonspace s in
                       if dev =s "" then None else Some dev
           end
  end.

Definition contains_string (p s : string) : bool :=
  bool_decide (is_Some (find_first (after_prefix p) s)).

Inductive ScanEvent :=
| scCipher (c : string)
| scPush (msg : pushMessage)
| scComplete                      (** Initialization Sequence Completed *)
| scInterface (dev : string).

(** The switch of scanOutput. *)
Definition on_output (filters : list pullFilter) (line : string) : option ScanEvent :=
  if contains_string "Data Channel: cipher" line then
    match find_first cipherLogRe line with Some c => Some (scCipher c) | None => None end
  else if contains_string "Received control message: 'PUSH_" line then
    match parsePushLine line filters with Some msg => Some (scPush msg) | None => None end
  else if contains_string "Initialization Sequence Completed" line then Some scComplete
  else match find_first ifaceLogRe line with Some d => Some (scInterface d) | None => None end.

(** ** Entries *)

Record authReply := MkReply { ar_username : string; ar_password : string; ar_response : string }.

Record entry := MkEntry {
  e_cmd : bool;                           (** the process runs and is recorded *)
  e_mgmt : option mgmtClient;
  e_status : ConnectionStatus;
  e_prof : profile;
  e_authCh : option authReply;            (** the channel's one slot *)
  e_scanDone : bool;
  e_done : bool;
  e_active : bool;
  e_errMsg : string;
  e_dnsApplied : bool;
  e_pushDNS : option dnsConfig;
  e_pushMore : bool;
  e_awaitingCredentials : bool;
  e_lastUsername : string;
  e_pendingChallenge : option AuthChallenge;
  e_closeCh : bool;                       (** closed *)
  e_remoteAddr : string;
  e_remoteProto : string;
  e_userInitiated : bool
}.

#[export] Instance eta_entry : Eta entry := fun r =>
  MkEntry (e_cmd r) (e_mgmt r) (e_status r) (e_prof r) (e_authCh r) (e_scanDone r) (e_done r)
    (e_active r) (e_errMsg r) (e_dnsApplied r) (e_pushDNS r) (e_pushMore r)
    (e_awaitingCredentials r) (e_lastUsername r) (e_pendingChallenge r) (e_closeCh r)
    (e_remoteAddr r) (e_remoteProto r) (e_userInitiated r).

Definition newEntry (name : string) (prof : profile) : entry :=
  MkEntry false None
    (zero_status <| cs_State := StateConnecting |> <| cs_TunnelName := name |>
       <| cs_Protocol := ProtocolOpenVPN |>)
    prof None false false false "" false None false false "" None false "" "" false.

(** ** The manager *)

(** Which callbacks are set, and whether there is a network adapter. *)
Record Hooks := MkHooks {
  hk_onStatus : bool; hk_onAuthNeeded : bool; hk_onActiveChange : bool; hk_onDying : bool;
  hk_onDied : bool; hk_netMgr : bool }.

Record Manager := MkManager {
  m_tunnels : gmap string nat; m_heap : gmap nat entry; m_next : nat; m_hooks : Hooks }.

#[export] Instance eta_omanager : Eta Manager := fun r =>
  MkManager (m_tunnels r) (m_heap r) (m_next r) (m_hooks r).

Definition NewManager (hooks : Hooks) : Manager := MkManager ∅ ∅ 0 hooks.

(** Calls to the outside. *)
Inductive Call :=
| KStatus (st : ConnectionStatus)
| KAuthNeeded (name : string) (ch : option AuthChallenge)
| KActiveChange (name : string) (active : bool)
| KDying (name : string)
| KDied (name : string)
| KSetDNS (name : string) (entries : list string)
| KRestoreDNS (name : string)
| KStopMonitor
| KTerm (name : string)           (** SIGTERM through the management socket *)
| KKill (name : string)
| KWriteFiles (name : string)     (** the runtime config *)
| KStart (name : string)          (** openvpn is launched, its pid recorded *)
| KRemoveFiles (name : string).

(** What a goroutine still has to do before its next event. *)
Inductive Todo :=
| TCall (c : Call)
| TEmit                           (** emitStatus *)
| TDrain                          (** drop a reply waiting in authCh *)
| TSend (username password : string)
| TFail (msg : string) (terminate : bool)
| TStop (user : bool)
| TEndPrompt                      (** the deferred reset of awaitingCredentials *)
| TApplyDNS (entries : list string)
| TDNSApplied (ips : list string)
| TCloseMgmt
| TDone.                          (** close(e.done) *)

Definition find (m : Manager) (name : string) : option (nat * entry) :=
  match m_tunnels m !! name with
  | Some id => match m_heap m !! id with Some e => Some (id, e) | None => None end
  | None => None
  end.

Definition put (m : Manager) (id : nat) (e : entry) : Manager := m <| m_heap ::= fun h => <[id := e]> h |>.

Definition modify_at (m : Manager) (id : nat) (f : entry -> entry) : Manager :=
  match m_heap m !! id with Some e => put m id (f e) | None => m end.

Definition when {A} (b : bool) (l : list A) : list A := if b then l else [].

(** update, without its emitStatus; whether the tunnel is there *)
Definition update (m : Manager) (name : string) (f : entry -> entry) : bool * Manager :=
  match find m name with
  | Some (id, e) => (true, put m id (f e))
  | None => (false, m)
  end.

Definition update_emit (m : Manager) (name : string) (f : entry -> entry) : list Todo * Manager :=
  let '(ok, m') := update m name f in (when ok [TEmit], m').

(** emitStatus: what the callback is given *)
Definition emitStatus (m : Manager) (name : string) : list Call :=
  if hk_onStatus (m_hooks m) then
    match find m name with Some (_, e) => [KStatus (e_status e)] | None => [] end
  else [].

(** ** Connect *)

Section Lookup.
  (** net.LookupHost *)
Variable LookupHost : string -> option (list string).

Definition count_colons (s : string) : nat := length (split_byte ":" s) - 1.

Definition resolveRemoteForKillSwitch (cfg : OVPNConfig) : string * string :=
  if ocRemote cfg =s "" then ("", "")
  else
    let hp :=
      match split_host_port (ocRemote cfg) with
      | Some hp => Some hp
      | None =>
          if (2 <=? count_colons (ocRemote cfg))%nat && negb (has_prefix "[" (ocRemote cfg))
             && negb (ip_valid (ocRemote cfg))
          then None else Some (ocRemote cfg, "1194")
      end in
    match hp with
    | None => ("", "")
    | Some (host, port) =>
        match LookupHost host with
        | Some (ip :: _) =>
            (join_host_port ip port, if has_prefix "tcp" (ocProto cfg) then "tcp" else "udp")
        | _ => ("", "")
        end
    end.
End Lookup.

Definition persistRemoteIP (p : profile) : bool := (length (ocRemotes (p_cfg p)) =? 1)%nat.

Definition args (cfgPath sockPath : string) (p : profile) : list string :=
  ["--config"; cfgPath; "--management"; sockPath; "unix"; "--management-hold";
   "--management-query-passwords"; "--script-security"; "1"; "--dns-updown"; "disable";
   "--auth-retry"; "interact"; "--persist-tun"; "--verb"; runtimeVerb p]
  ++ when (persistRemoteIP p) ["--persist-remote-ip"]
  ++ when (negb (p_hasKeepalive p)) ["--ping"; "10"; "--ping-restart"; "60"]
  ++ when (negb (p_hasMTU p)) ["--mssfix"; "1300"]
  ++ when (negb (p_legacyCiphers p =s "")) ["--data-ciphers"; p_legacyCiphers p].

Inductive ConnectError :=
| InvalidName (e : NameError) | BadProfile (e : ProfileError) | NoBinary | ErrAlreadyActive.

(** Connect up to the reservation of the name; [binary] is whether the openvpn binary is there. *)
Definition connect_reserve (m : Manager) (binary : bool) (name content : string)
    : result ConnectError (nat * Manager) :=
  match ValidateTunnelName name with
  | Some e => Err (InvalidName e)
  | None =>
      match inspectProfile content with
      | Err e => Err (BadProfile e)
      | Ok prof =>
          if negb binary then Err NoBinary
          else if bool_decide (is_Some (m_tunnels m !! name)) then Err ErrAlreadyActive
          else
            let id := m_next m in
            Ok (id, m <| m_tunnels ::= fun t => <[name := id]> t |>
                      <| m_heap ::= fun h => <[id := newEntry name prof]> h |>
                      <| m_next := S id |>)
      end
  end.

(** start has resolved the first remote. *)
Definition start_resolved (m : Manager) (id : nat) (addr proto : string) : Manager :=
  modify_at m id (fun e => e <| e_remoteAddr := addr |> <| e_remoteProto := proto |>).

(** start has failed. *)
Definition start_failed (m : Manager) (name : string) (id : nat) : Manager :=
  modify_at (m <| m_tunnels ::= fun t => delete name t |>) id (fun e => e <| e_done := true |>).

(** Connect after start: the process is recorded, or killed when a Disconnect came first. *)
Definition connect_started (m : Manager) (name : string) (id : nat) : list Todo * Manager :=
  match m_heap m !! id with
  | Some e => (when (e_userInitiated e) [TCall (KKill name)] ++ [TEmit],
               put m id (e <| e_cmd := true |>))
  | None => ([], m)
  end.

(** ** Management notifications *)

Definition set_status (f : ConnectionStatus -> ConnectionStatus) (e : entry) : entry :=
  e <| e_status ::= f |>.

(** The switch of onMgmtState; [now] is time.Now(). *)
Definition state_switch (now : Z) (state localIP remoteAddr : string) (e : entry) : entry :=
  if state =s "CONNECTED" then
    let e := set_status (fun st => st <| cs_State := StateConnected |>) e in
    let e := e <| e_errMsg := "" |> in
    let e := set_status (fun st => st <| cs_ErrorMessage := "" |>) e in
    let e := if (cs_ConnectedAt (e_status e) =? 0)%Z
             then set_status (fun st => st <| cs_ConnectedAt := now |>) e else e in
    let e := set_status (fun st => st <| cs_HasHandshake := true |> <| cs_LastHandshakeTime := now |>) e in
    let e := if negb (localIP =s "") then set_status (fun st => st <| cs_Address := localIP |>) e else e in
    if negb (remoteAddr =s "") then e <| e_remoteAddr := remoteAddr |> else e
  else if state =s "EXITING" then set_status (fun st => st <| cs_State := StateDisconnected |>) e
  else if (state =s "RECONNECTING") || negb (bool_decide (cs_State (e_status e) = StateConnected))
  then set_status (fun st => st <| cs_State := StateConnecting |>) e
  else e.

Definition connected (e : entry) : bool := bool_decide (cs_State (e_status e) = StateConnected).

Definition state_section (now : Z) (state localIP remoteAddr : string) (e : entry) : bool * entry :=
  let wasConnected := connected e in
  let e := state_switch now state localIP remoteAddr e in
  let e := if negb (e_errMsg e =s "") && negb (connected e)
           then set_status (fun st => st <| cs_State := StateError |>) e else e in
  let becameActive := connected e && negb wasConnected in
  (becameActive, if becameActive then e <| e_active := true |> else e).

Definition onMgmtState (now : Z) (m : Manager) (name state localIP remoteAddr : string)
    : list Todo * Manager :=
  match find m name with
  | None => ([], m)
  | Some (id, e) =>
      let '(became, e') := state_section now state localIP remoteAddr e in
      (TEmit :: when (became && hk_onActiveChange (m_hooks m)) [TCall (KActiveChange name true)],
       put m id e')
  end.

Definition bytes_section (now rx tx : Z) (e : entry) : entry :=
  let e := set_status (fun st => st <| cs_RxBytes := rx |> <| cs_TxBytes := tx |>) e in
  let e := if negb (cs_ConnectedAt (e_status e) =? 0)%Z
           then set_status (fun st => st <| cs_Duration := FormatDuration (now - cs_ConnectedAt st) |>) e
           else e in
  if negb (cs_LastHandshakeTime (e_status e) =? 0)%Z
  then set_status (fun st => st <| cs_LastHandshake := FormatDuration (now - cs_LastHandshakeTime st) |>) e
  else e.

Definition onMgmtBytes (now : Z) (m : Manager) (name : string) (rx tx : Z) : list Todo * Manager :=
  update_emit m name (bytes_section now rx tx).

(** An error stops being the tunnel's state. *)
Definition leave_error (e : entry) : entry :=
  if bool_decide (cs_State (e_status e) = StateError)
  then set_status (fun st => st <| cs_State := StateConnecting |>) e else e.

Definition onMgmtAuthFailed (m : Manager) (name msg : string) : list Todo * Manager :=
  update_emit m name (fun e =>
    let e := set_status (fun st => st <| cs_ErrorMessage := msg |>) e in
    if (e_errMsg e =s "") then leave_error e else e).

(** ** Credentials *)

(** The challenge onMgmtAuthPrompt answers, and whether the user is asked. *)
Definition prompt_challenge (e : entry) (sc : option AuthChallenge) : option AuthChallenge * bool :=
  match sc, e_pendingChallenge e with
  | None, Some ch => (Some ch, false)
  | _, _ => (sc, true)
  end.

(** onMgmtAuthPrompt up to its select, for the entry the read loop was started with. *)
Definition prompt_begin (m : Manager) (name : string) (id : nat) (sc : option AuthChallenge)
    : option AuthChallenge * list Todo * Manager :=
  match m_heap m !! id with
  | None => (sc, [], m)
  | Some e =>
      let '(challenge, notifyGUI) := prompt_challenge e sc in
      let e := leave_error (e <| e_awaitingCredentials := true |> <| e_errMsg := "" |>) in
      (challenge,
       TEmit :: when notifyGUI
                  (TDrain :: when (hk_onAuthNeeded (m_hooks m)) [TCall (KAuthNeeded name challenge)]),
       put m id e)
  end.

Definition combineStaticChallenge (ch : AuthChallenge) (password response : string) : string :=
  if ch_Concat ch then password +:+ response
  else "SCRV1:" +:+ b64_encode password +:+ ":" +:+ b64_encode response.

Definition challengeKindOf (ch : option AuthChallenge) : ChallengeKind :=
  match ch with Some ch => ch_Kind ch | None => ChallengeNone end.

(** The username and password a reply becomes. *)
Definition reply_credentials (challenge : option AuthChallenge) (lastUsername : string) (r : authReply)
    : string * string :=
  match challenge with
  | Some ch =>
      match ch_Kind ch with
      | ChallengeDynamic =>
          (if ch_username ch =s "" then lastUsername else ch_username ch,
           "CRV1::" +:+ ch_StateID ch +:+ "::" +:+ ar_response r)
      | ChallengeStatic =>
          (ar_username r, combineStaticChallenge ch (ar_password r) (ar_response r))
      | ChallengeNone => (ar_username r, ar_password r)
      end
  | None => (ar_username r, ar_password r)
  end.

(** The three branches of the select: a reply, closeCh, the timeout. *)
Definition prompt_reply (m : Manager) (id : nat) (challenge : option AuthChallenge)
    : option (list Todo * Manager) :=
  match m_heap m !! id with
  | None => None
  | Some e =>
      match e_authCh e with
      | None => None
      | Some r =>
          let '(username, password) := reply_credentials challenge (e_lastUsername e) r in
          let e := e <| e_authCh := None |> <| e_pendingChallenge := None |> in
          let e := if negb (username =s "") then e <| e_lastUsername := username |> else e in
          let e := leave_error (set_status (fun st => st <| cs_ErrorMessage := "" |>)
                                  (e <| e_errMsg := "" |>)) in
          Some (TEmit :: when (bool_decide (is_Some (e_mgmt e))) [TSend username password]
                  ++ [TEndPrompt], put m id e)
      end
  end.

Definition prompt_closed (m : Manager) (id : nat) : option (list Todo * Manager) :=
  match m_heap m !! id with
  | Some e => if e_closeCh e then Some ([TEndPrompt], m) else None
  | None => None
  end.

Definition prompt_timeout (m : Manager) (id : nat) : list Todo * Manager :=
  ([TFail "timed out waiting for credentials" true; TEndPrompt], m).

Definition IsAwaitingCredentials (m : Manager) (name : string) : bool :=
  match find m name with Some (_, e) => e_awaitingCredentials e | None => false end.

Definition onMgmtDynamicChallenge (m : Manager) (name : string) (id : nat) (ch : AuthChallenge)
    : list Todo * Manager :=
  (TDrain :: when (hk_onAuthNeeded (m_hooks m)) [TCall (KAuthNeeded name (Some ch))],
   modify_at m id (fun e => e <| e_pendingChallenge := Some ch |>)).

(** FeedCredentials once it has found the entry: the channel takes one reply. *)
Definition feed (m : Manager) (id : nat) (r : authReply) : option Manager :=
  match m_heap m !! id with
  | Some e =>
      match e_authCh e with
      | None => Some (put m id (e <| e_authCh := Some r |>))
      | Some _ => None
      end
  | None => None
  end.

Inductive FeedError := NotActive | NotWaiting.

Definition FeedCredentials (m : Manager) (name username fullPassword response : string)
    : result FeedError Manager :=
  match find m name with
  | None => Err NotActive
  | Some (id, _) =>
      match feed m id (MkReply username fullPassword response) with
      | Some m' => Ok m'
      | None => Err NotWaiting
      end
  end.

(** ** Stopping *)

(** stop; [term_ok] is whether the management socket takes the command. *)
Definition stop (term_ok : bool) (m : Manager) (name : string) (user : bool)
    : option (list Call * Manager) :=
  match find m name with
  | None => None
  | Some (id, e) =>
      let e := if user then e <| e_userInitiated := true |> else e in
      let calls :=
        match e_mgmt e with
        | Some _ => KTerm name :: when (negb term_ok) [KKill name]
        | None => when (e_cmd e) [KKill name]
        end in
      Some (calls, put m id (e <| e_closeCh := true |>))
  end.

Definition Recycle (term_ok : bool) (m : Manager) (name : string) := stop term_ok m name false.
Definition Disconnect (term_ok : bool) (m : Manager) (name : string) := stop term_ok m name true.

(** Stop up to its wait: every tunnel is disconnected. *)
Definition Stop_begin (term_ok : string -> bool) (m : Manager) : list Call * Manager :=
  foldl (fun '(calls, m) name =>
           match Disconnect (term_ok name) m name with
           | Some (calls', m') => (calls ++ calls', m')
           | None => (calls, m)
           end) ([], m) (map_to_list (m_tunnels m)).*1.

(** Stop after its wait, over the entries it started with: whoever is not done is killed. *)
Definition Stop_end (m : Manager) (entries : list (string * nat)) : list Call :=
  concat ((fun '(name, id) =>
             match m_heap m !! id with
             | Some e => when (negb (e_done e) && e_cmd e) [KKill name]
             | None => []
             end) <$> entries)
  ++ when (hk_netMgr (m_hooks m)) [KStopMonitor].

(** fail, without the stop *)
Definition fail_section (msg : string) (e : entry) : entry :=
  set_status (fun st => st <| cs_State := StateError |> <| cs_ErrorMessage := msg |>)
    (e <| e_errMsg := msg |>).

Definition fail (m : Manager) (name msg : string) (terminate : bool) : list Todo * Manager :=
  let '(todo, m') := update_emit m name (fail_section msg) in
  (todo ++ when terminate [TStop false], m').

(** ** The interface and DNS *)

Definition setInterface (m : Manager) (name iface : string) : list Todo * Manager :=
  match find m name with
  | None => ([], m)
  | Some (id, e) =>
      let reapply := e_active e && (cs_InterfaceName (e_status e) =s "") in
      (TEmit :: when (reapply && hk_onActiveChange (m_hooks m)) [TCall (KActiveChange name true)],
       put m id (set_status (fun st => st <| cs_InterfaceName := iface |>) e))
  end.

Definition mergePtr (a b : dnsConfig) : dnsConfig :=
  (dns_merge a b) <| dns_touched := dns_touched a || dns_touched b |>.

(** The pushed DNS after a push message; [None] when the message changes nothing. *)
Definition push_section (msg : pushMessage) (e : entry) : option entry :=
  if push_rejected msg then None
  else if push_update msg && negb (dns_touched (push_dns msg)) then None
  else
    let d := if push_update msg then push_dns msg
             else match e_pushDNS e with
                  | None => push_dns msg
                  | Some old => if negb (e_pushMore e) then push_dns msg else mergePtr old (push_dns msg)
                  end in
    Some (e <| e_pushDNS := Some d |> <| e_pushMore := push_more msg |>).

Definition merged_dns (e : entry) : dnsConfig :=
  match e_pushDNS e with Some d => dns_merge (p_dns (e_prof e)) d | None => p_dns (e_prof e) end.

Definition onPush (m : Manager) (id : nat) (msg : pushMessage) : list Todo * Manager :=
  match m_heap m !! id with
  | None => ([], m)
  | Some e =>
      match push_section msg e with
      | None => ([], m)
      | Some e' => ([TApplyDNS (dns_entries (merged_dns e'))], put m id e')
      end
  end.

(** applyDNS up to SetDNS, and after it succeeded. *)
Definition applyDNS (m : Manager) (name : string) (set_ok : bool) (entries : list string)
    : list Todo * list Call :=
  if (length entries =? 0)%nat || negb (hk_netMgr (m_hooks m)) then ([], [])
  else (when set_ok [TDNSApplied (List.filter ip_valid entries)], [KSetDNS name entries]).

Definition dns_applied (m : Manager) (name : string) (ips : list string) : list Todo * Manager :=
  let '(ok, m') := update m name (fun e =>
    set_status (fun st => st <| cs_DNSServers := ips |>) (e <| e_dnsApplied := true |>)) in
  ([if ok : bool then TEmit else TCall (KRestoreDNS name)], m').

Definition initialization_complete (m : Manager) (id : nat) : list Todo :=
  match m_heap m !! id with
  | Some e => when (negb (e_dnsApplied e)) [TApplyDNS (dns_entries (p_dns (e_prof e)))]
  | None => []
  end.

Definition onCipher (m : Manager) (name c : string) : list Todo * Manager :=
  update_emit m name (set_status (fun st => st <| cs_Cipher := c |>)).

(** ** cleanup *)

(** The decision, up front. *)
Definition cleanup_decide (m : Manager) (name : string) : option (bool * list Todo) :=
  match find m name with
  | None => None
  | Some (_, e) =>
      let died := e_active e && negb (e_userInitiated e) && hk_onDied (m_hooks m) in
      Some (died, when (died && hk_onDying (m_hooks m)) [TCall (KDying name)])
  end.

Definition final_status (name : string) (e : entry) : ConnectionStatus :=
  let final := zero_status <| cs_State := StateDisconnected |> <| cs_TunnelName := name |>
                 <| cs_Protocol := ProtocolOpenVPN |> in
  if negb (e_errMsg e =s "")
  then final <| cs_State := StateError |> <| cs_ErrorMessage := e_errMsg e |> else final.

Definition other_dns (t : gmap string nat) (h : gmap nat entry) : bool :=
  existsb (fun '(_, id) => match h !! id with Some o => e_dnsApplied o | None => false end)
    (map_to_list t).

(** The removal of the entry and what follows it; [e] is the entry cleanup holds. *)
Definition cleanup_remove (m : Manager) (name : string) (id : nat) (died : bool)
    : list Todo * Manager :=
  match m_heap m !! id with
  | None => ([], m)
  | Some e =>
      let t := delete name (m_tunnels m) in
      let hk := m_hooks m in
      (when (e_active e && negb died && hk_onActiveChange hk) [TCall (KActiveChange name false)]
       ++ when (bool_decide (is_Some (e_mgmt e))) [TCloseMgmt]
       ++ when (e_dnsApplied e && hk_netMgr hk)
            (TCall (KRestoreDNS name) :: when (negb (other_dns t (m_heap m))) [TCall KStopMonitor])
       ++ [TCall (KRemoveFiles name)]
       ++ when (hk_onStatus hk) [TCall (KStatus (final_status name e))]
       ++ when died [TCall (KDied name)]
       ++ [TDone],
       m <| m_tunnels := t |>)
  end.

(** ** Queries *)

Definition GetStatus (m : Manager) (name : string) : option ConnectionStatus :=
  match find m name with Some (_, e) => Some (e_status e) | None => None end.

Definition ActiveTunnelNames (m : Manager) : list string := (map_to_list (m_tunnels m)).*1.

Definition entries_of (m : Manager) : list (string * entry) :=
  omap (fun '(name, id) => match m_heap m !! id with Some e => Some (name, e) | None => None end)
    (map_to_list (m_tunnels m)).

Definition AllStatuses (m : Manager) : list ConnectionStatus := (fun '(_, e) => e_status e) <$> entries_of m.

Definition remote_of_entry (ne : string * entry) : option RemoteEndpoint :=
  let '(name, e) := ne in
  if negb (e_active e) || (e_remoteAddr e =s "") || (cs_InterfaceName (e_status e) =s "") then None
  else Some (MkRemoteEndpoint name (cs_InterfaceName (e_status e)) (e_remoteProto e) (e_remoteAddr e)).

Definition ActiveRemotes (m : Manager) : list RemoteEndpoint := omap remote_of_entry (entries_of m).

(** The manager as the helper sees it. *)
Definition backend (m : Manager) : ovpnBackend :=
  MkBackend (GetStatus m) (IsAwaitingCredentials m) (ActiveTunnelNames m) (AllStatuses m) (ActiveRemotes m).
