(* ===== verification/OvpnManagerSys.v ===== *)
(** * The OpenVPN manager at work: the goroutines of internal/ovpn/manager.go

    Every tunnel has two goroutines: the one that runs Connect and then supervise ([pr_pc] is
    where it stands), and scanOutput.  A goroutine runs one critical section of OvpnManager.v at a
    time and does what is left in its [Todo] list before it takes its next step; between any two
    of these, every other goroutine and the callers of FeedCredentials, Disconnect and Recycle may
    run.  [act] executes one such step, so a run is a list of actions. *)

From S2P Require Import Prelude GoStrings GoText GoNet Domain Recovery OvpnParse OvpnAllowlist OvpnProfile OvpnMgmt HelperFirewall OvpnManager.

(** Where Connect and supervise stand. *)
Inductive Pc :=
| pcReserved | pcWritten | pcResolved | pcLaunched | pcAttaching
| pcReading
| pcPrompt (challenge : option AuthChallenge)      (** the select of onMgmtAuthPrompt *)
| pcEnding | pcReaped
| pcRemoving (died : bool)                         (** cleanup, the death decided *)
| pcFinished.

#[export] Instance challenge_eq_dec : EqDecision AuthChallenge.
Proof. solve_decision. Defined.
#[export] Instance pc_eq_dec : EqDecision Pc.
Proof. solve_decision. Defined.

Inductive ScanPc := scanIdle | scanRunning | scanEnded.

#[export] Instance scanpc_eq_dec : EqDecision ScanPc.
Proof. solve_decision. Defined.

Record Proc := MkProc {
  pr_name : string; pr_pc : Pc; pr_todo : list Todo; pr_scan : ScanPc; pr_stodo : list Todo }.

#[export] Instance eta_proc : Eta Proc := fun r =>
  MkProc (pr_name r) (pr_pc r) (pr_todo r) (pr_scan r) (pr_stodo r).

(** The log tags each call with the entry of the goroutine that made it. *)
Record Sys := MkSys { sy_mgr : Manager; sy_procs : gmap nat Proc; sy_log : list (nat * Call) }.

(** What the outside answers to one item: up to two booleans and an error text. *)
Record Answer := MkAnswer { an_ok : bool; an_ok2 : bool; an_text : string }.

Definition send_error (a : Answer) (e : CredentialError) : string :=
  "sending credentials failed: " +:+
  match e with
  | IllegalNewline => "credentials contain illegal newline characters"
  | WriteFailed => an_text a
  end.

(** One item of a goroutine's list: the items it turns into, the manager, the calls. *)
Definition exec_todo (a : Answer) (m : Manager) (name : string) (id : nat) (t : Todo)
    : list Todo * Manager * list Call :=
  match t with
  | TCall c => ([], m, [c])
  | TEmit => ([], m, emitStatus m name)
  | TDrain => ([], modify_at m id (fun e => e <| e_authCh := None |>), [])
  | TSend u p =>
      match m_heap m !! id with
      | Some e =>
          match e_mgmt e with
          | Some c =>
              let '(r, c') := sendCredentials (an_ok a) (an_ok2 a) c u p in
              (match r with Ok _ => [] | Err er => [TFail (send_error a er) false] end,
               put m id (e <| e_mgmt := Some c' |>), [])
          | None => ([], m, [])
          end
      | None => ([], m, [])
      end
  | TFail msg terminate => let '(todo, m') := fail m name msg terminate in (todo, m', [])
  | TStop user =>
      match stop (an_ok a) m name user with
      | Some (calls, m') => ([], m', calls)
      | None => ([], m, [])
      end
  | TEndPrompt => ([], modify_at m id (fun e => e <| e_awaitingCredentials := false |>), [])
  | TApplyDNS entries => let '(todo, calls) := applyDNS m name (an_ok a) entries in (todo, m, calls)
  | TDNSApplied ips => let '(todo, m') := dns_applied m name ips in (todo, m', [])
  | TCloseMgmt =>
      ([], modify_at m id (fun e => match e_mgmt e with Some c => e <| e_mgmt := Some (close c) |> | None => e end), [])
  | TDone => ([], modify_at m id (fun e => e <| e_done := true |>), [])
  end.

(** The next step of Connect and supervise. *)
Inductive ReaderAction :=
| raWritten | raResolved (addr proto : string) | raLaunched | raStartFailed | raStarted
| raAttached (ok1 ok2 : bool) | raAttachFailed (text : string)
| raEvent (now : Z) (ok : bool) (e : MgmtEvent)
| raReply | raClosed | raTimeout
| raLoopEnds | raReap | raCleanup | raRemove.

(** A notification, handled by the read loop of entry [id]. *)
Definition on_event (now : Z) (ok : bool) (m : Manager) (name : string) (id : nat) (ev : MgmtEvent)
    : list Todo * Manager :=
  match ev with
  | evState s ip r => onMgmtState now m name s ip r
  | evBytes rx tx => onMgmtBytes now m name rx tx
  | evAuthPrompt sc => let '(_, todo, m') := prompt_begin m name id sc in (todo, m')
  | evDynamicChallenge ch => onMgmtDynamicChallenge m name id ch
  | evAuthFailed msg => onMgmtAuthFailed m name msg
  | evFailure msg t => fail m name msg t
  | evHold w =>
      ([], modify_at m id (fun e =>
         match e_mgmt e with Some c => e <| e_mgmt := Some (releaseHold ok c w) |> | None => e end))
  end.

(** Where the read loop stands after a notification: in the prompt's select, or reading on. *)
Definition event_pc (m : Manager) (name : string) (id : nat) (ev : MgmtEvent) : Pc :=
  match ev with
  | evAuthPrompt sc => pcPrompt (fst (fst (prompt_begin m name id sc)))
  | _ => pcReading
  end.

(** A step of Connect or supervise from the entry's [pr_pc], nothing being left to do. *)
Definition reader_act (m : Manager) (id : nat) (p : Proc) (a : ReaderAction)
    : option (Pc * list Todo * Manager * list Call) :=
  let name := pr_name p in
  match pr_pc p, a with
  | pcReserved, raWritten => Some (pcWritten, [], m, [KWriteFiles name])
  | pcWritten, raResolved addr proto => Some (pcResolved, [], start_resolved m id addr proto, [])
  | pcResolved, raLaunched => Some (pcLaunched, [], m, [KStart name])
  | (pcReserved | pcWritten | pcResolved), raStartFailed =>
      Some (pcFinished, [], start_failed m name id, [])
  | pcLaunched, raStarted =>
      let '(todo, m') := connect_started m name id in Some (pcAttaching, todo, m', [])
  | pcAttaching, raAttached ok1 ok2 =>
      Some (pcReading, [], modify_at m id (fun e => e <| e_mgmt := Some (readLoop_start ok1 ok2 newMgmtClient) |>), [])
  | pcAttaching, raAttachFailed text =>
      match m_heap m !! id with
      | Some e => Some (pcEnding, when (negb (e_userInitiated e))
                                    [TFail ("management attach failed: " +:+ text) false], m, [])
      | None => None
      end
  | pcReading, raEvent now ok ev =>
      let '(todo, m') := on_event now ok m name id ev in Some (event_pc m name id ev, todo, m', [])
  | pcPrompt ch, raReply =>
      match prompt_reply m id ch with
      | Some (todo, m') => Some (pcReading, todo, m', [])
      | None => None
      end
  | pcPrompt _, raClosed =>
      match prompt_closed m id with
      | Some (todo, m') => Some (pcReading, todo, m', [])
      | None => None
      end
  | pcPrompt _, raTimeout => let '(todo, m') := prompt_timeout m id in Some (pcReading, todo, m', [])
  | pcReading, raLoopEnds => Some (pcEnding, [], m, [])
  | pcEnding, raReap => Some (pcReaped, [], m, [KKill name])
  | pcReaped, raCleanup =>
      if bool_decide (pr_scan p = scanEnded) then
        match cleanup_decide m name with
        | Some (died, todo) => Some (pcRemoving died, todo, m, [])
        | None => Some (pcFinished, [], m, [])
        end
      else None
  | pcRemoving died, raRemove =>
      let '(todo, m') := cleanup_remove m name id died in Some (pcFinished, todo, m', [])
  | _, _ => None
  end.

(** The next line scanOutput acts on, or the end of the output. *)
Inductive ScanAction := saEvent (e : ScanEvent) | saEnds.

Definition scan_act (m : Manager) (id : nat) (p : Proc) (a : ScanAction)
    : option (ScanPc * list Todo * Manager) :=
  let name := pr_name p in
  match pr_scan p, a with
  | scanRunning, saEvent (scCipher c) => let '(todo, m') := onCipher m name c in Some (scanRunning, todo, m')
  | scanRunning, saEvent (scPush msg) => let '(todo, m') := onPush m id msg in Some (scanRunning, todo, m')
  | scanRunning, saEvent scComplete => Some (scanRunning, initialization_complete m id, m)
  | scanRunning, saEvent (scInterface dev) =>
      let '(todo, m') := setInterface m name dev in Some (scanRunning, todo, m')
  | scanRunning, saEnds => Some (scanEnded, [], modify_at m id (fun e => e <| e_scanDone := true |>))
  | _, _ => None
  end.

Inductive Action :=
| aConnect (binary : bool) (name content : string)
| aReader (id : nat) (a : ReaderAction)
| aReaderTodo (id : nat) (a : Answer)
| aScan (id : nat) (a : ScanAction)
| aScanTodo (id : nat) (a : Answer)
| aFeed (id : nat) (r : authReply)         (** FeedCredentials, with the entry it found *)
| aStop (name : string) (user ok : bool)   (** Disconnect or Recycle *)
| aHoldFires (id : nat) (ok : bool).

Definition tag (id : nat) (calls : list Call) : list (nat * Call) := (fun c => (id, c)) <$> calls.

Definition move (s : Sys) (id : nat) (p : Proc) (m : Manager) (calls : list Call) : Sys :=
  MkSys m (<[id := p]> (sy_procs s)) (sy_log s ++ tag id calls).

(** The scanner starts with openvpn. *)
Definition scan_after (pc : Pc) (sc : ScanPc) : ScanPc :=
  match pc with pcLaunched => scanRunning | _ => sc end.

Definition act (s : Sys) (a : Action) : option Sys :=
  let m := sy_mgr s in
  match a with
  | aConnect binary name content =>
      match connect_reserve m binary name content with
      | Ok (id, m') => Some (move s id (MkProc name pcReserved [] scanIdle []) m' [])
      | Err _ => None
      end
  | aReader id ra =>
      match sy_procs s !! id with
      | Some p =>
          match pr_todo p, reader_act m id p ra with
          | [], Some (pc, todo, m', calls) =>
              Some (move s id (p <| pr_pc := pc |> <| pr_todo := todo |>
                                 <| pr_scan := scan_after pc (pr_scan p) |>) m' calls)
          | _, _ => None
          end
      | None => None
      end
  | aReaderTodo id an =>
      match sy_procs s !! id with
      | Some p =>
          match pr_todo p with
          | t :: rest =>
              let '(new, m', calls) := exec_todo an m (pr_name p) id t in
              Some (move s id (p <| pr_todo := new ++ rest |>) m' calls)
          | [] => None
          end
      | None => None
      end
  | aScan id sa =>
      match sy_procs s !! id with
      | Some p =>
          match pr_stodo p, scan_act m id p sa with
          | [], Some (sc, todo, m') =>
              Some (move s id (p <| pr_scan := sc |> <| pr_stodo := todo |>) m' [])
          | _, _ => None
          end
      | None => None
      end
  | aScanTodo id an =>
      match sy_procs s !! id with
      | Some p =>
          match pr_stodo p with
          | t :: rest =>
              let '(new, m', calls) := exec_todo an m (pr_name p) id t in
              Some (move s id (p <| pr_stodo := new ++ rest |>) m' calls)
          | [] => None
          end
      | None => None
      end
  | aFeed id r =>
      match feed m id r with
      | Some m' => Some (MkSys m' (sy_procs s) (sy_log s))
      | None => None
      end
  | aStop name user ok =>
      match find m name, stop ok m name user with
      | Some (id, _), Some (calls, m') => Some (MkSys m' (sy_procs s) (sy_log s ++ tag id calls))
      | _, _ => None
      end
  | aHoldFires id ok =>
      Some (MkSys (modify_at m id (fun e =>
                     match e_mgmt e with Some c => e <| e_mgmt := Some (hold_fires ok c) |> | None => e end))
              (sy_procs s) (sy_log s))
  end.

Definition start_sys (hooks : Hooks) : Sys := MkSys (NewManager hooks) ∅ [].

Fixpoint run_actions (s : Sys) (l : list Action) : option Sys :=
  match l with
  | [] => Some s
  | a :: l' => match act s a with Some s' => run_actions s' l' | None => None end
  end.

Inductive reachable (hooks : Hooks) : Sys -> Prop :=
| reach_start : reachable hooks (start_sys hooks)
| reach_step s a s' : reachable hooks s -> act s a = Some s' -> reachable hooks s'.
