(* ===== verification/OvpnManagerFacts.v ===== *)
(** * The OpenVPN manager: ownership, states and the order of its callbacks

    [manager_inv] holds in every reachable state of OvpnManagerSys.v.  Its main consequence is a
    refinement: what the helper is told of a tunnel follows the lifecycle machine [phase_step]
    ([callbacks_follow_lifecycle]).  The manager's queries are lawful in the sense of the helper's
    interface ([backend_lawful]). *)

From S2P Require Import Prelude GoStrings GoText GoNet Domain Recovery OvpnParse OvpnAllowlist OvpnProfile OvpnMgmt HelperFirewall OvpnManager OvpnManagerSys.

(** ** What the helper relies on *)

(** The lifecycle of a tunnel as its callbacks tell it: not announced, announced as active,
    announced as dying. *)
Inductive Phase := Quiet | Announced | Dying | Broken.

#[export] Instance phase_eq_dec : EqDecision Phase.
Proof. solve_decision. Defined.

Definition phase_step (ph : Phase) (c : Call) : Phase :=
  match c, ph with
  | KActiveChange _ true, (Quiet | Announced) => Announced
  | KActiveChange _ false, Announced => Quiet
  | KDying _, Announced => Dying
  | KDied _, Dying => Quiet
  | (KActiveChange _ _ | KDying _ | KDied _), _ => Broken
  | _, _ => ph
  end.

Definition phase_after (ph : Phase) (calls : list Call) : Phase := foldl phase_step ph calls.

(** The calls of one entry's goroutines. *)
Definition calls_of (id : nat) (log : list (nat * Call)) : list Call :=
  snd <$> List.filter (fun ic => (fst ic =? id)%nat) log.

Definition phase_of (id : nat) (log : list (nat * Call)) : Phase := phase_after Quiet (calls_of id log).

(** The phase once the items have been done. *)
Definition phase_todo (ph : Phase) (t : Todo) : Phase :=
  match t with TCall c => phase_step ph c | _ => ph end.

Definition future (ph : Phase) (todo : list Todo) : Phase := foldl phase_todo ph todo.

Lemma calls_of_app id log1 log2 : calls_of id (log1 ++ log2) = calls_of id log1 ++ calls_of id log2.
Proof. unfold calls_of. by rewrite List.filter_app, fmap_app. Qed.

Lemma calls_of_tag id id' calls :
  calls_of id (tag id' calls) = if (id' =? id)%nat then calls else [].
Proof.
  unfold calls_of, tag. induction calls as [|c calls IH]; [by destruct (_ =? _)%nat|].
  cbn [fmap list_fmap List.filter fst]. destruct (Nat.eqb_spec id' id) as [->|?].
  - cbn [fmap list_fmap snd]. f_equal. exact IH.
  - exact IH.
Qed.

Lemma phase_of_tag id log id' calls :
  phase_of id (log ++ tag id' calls)
  = if (id' =? id)%nat then phase_after (phase_of id log) calls else phase_of id log.
Proof.
  unfold phase_of, phase_after. rewrite calls_of_app, calls_of_tag, foldl_app.
  by destruct (_ =? _)%nat.
Qed.

Lemma future_app ph l1 l2 : future ph (l1 ++ l2) = future (future ph l1) l2.
Proof. apply foldl_app. Qed.

(** ** Entries *)

(** The state shown to the user agrees with the entry. *)
Definition entry_ok (e : entry) : Prop :=
  (cs_State (e_status e) = StateConnected -> e_active e = true)
  /\ (e_errMsg e <> "" -> cs_State (e_status e) = StateError)
  /\ cs_Protocol (e_status e) = ProtocolOpenVPN.

(** A change that is not a lifecycle step. *)
Record same_entry (e e' : entry) : Prop := {
  same_active : e_active e' = e_active e;
  same_name : cs_TunnelName (e_status e') = cs_TunnelName (e_status e);
  same_ok : entry_ok e -> entry_ok e' }.

#[export] Instance same_entry_preorder : PreOrder same_entry.
Proof. split; [by split|]. intros e1 e2 e3 [] []; split; [congruence..|auto]. Qed.

Record keeps (m m' : Manager) : Prop := {
  keeps_tunnels : m_tunnels m' = m_tunnels m;
  keeps_next : m_next m' = m_next m;
  keeps_hooks : m_hooks m' = m_hooks m;
  keeps_heap : forall id, option_Forall2 same_entry (m_heap m !! id) (m_heap m' !! id) }.

Lemma keeps_refl m : keeps m m.
Proof. by split. Qed.
#[export] Hint Resolve keeps_refl : core.

Lemma keeps_put m id e e' : m_heap m !! id = Some e -> same_entry e e' -> keeps m (put m id e').
Proof.
  intros He Hs. split; try done. intros i. unfold put. cbn.
  destruct (decide (i = id)) as [->|Hn].
  - rewrite lookup_insert_eq, He. by constructor.
  - rewrite lookup_insert_ne by done. destruct (m_heap m !! i); by constructor.
Qed.

Lemma keeps_modify m id f : (forall e, same_entry e (f e)) -> keeps m (modify_at m id f).
Proof.
  intros Hf. unfold modify_at. destruct (m_heap m !! id) as [e|] eqn:E; [|done]. by eapply keeps_put.
Qed.

Lemma find_heap m name id e : find m name = Some (id, e) -> m_heap m !! id = Some e /\ m_tunnels m !! name = Some id.
Proof. unfold find. intros H. repeat step_in H; by simplify_eq. Qed.

Lemma keeps_update m name f : (forall e, same_entry e (f e)) -> keeps m (snd (update m name f)).
Proof.
  intros Hf. unfold update. destruct (find m name) as [[id e]|] eqn:E; [|done].
  apply find_heap in E as [E _]. by eapply keeps_put.
Qed.

(** Decides [same_entry] for a function written with record updates. *)
Ltac solve_same :=
  intros; split; [done|done|unfold entry_ok; cbn; naive_solver].

Lemma same_status f e :
  (forall st, cs_State (f st) = cs_State st) -> (forall st, cs_TunnelName (f st) = cs_TunnelName st) ->
  (forall st, cs_Protocol (f st) = cs_Protocol st) -> same_entry e (set_status f e).
Proof.
  intros Hs Hn Hp. split; [done|apply Hn|]. unfold entry_ok, set_status. cbn. by rewrite Hs, Hp.
Qed.

Lemma same_status_if (b : bool) f e :
  (forall st, cs_State (f st) = cs_State st) -> (forall st, cs_TunnelName (f st) = cs_TunnelName st) ->
  (forall st, cs_Protocol (f st) = cs_Protocol st) -> same_entry e (if b then set_status f e else e).
Proof. intros. destruct b; [by apply same_status|reflexivity]. Qed.

Lemma same_leave_error e : e_errMsg e = "" -> same_entry e (leave_error e).
Proof.
  intros He. unfold leave_error. destruct (bool_decide _); [|reflexivity].
  split; [done|done|]. unfold entry_ok, set_status. cbn. rewrite He. intuition done.
Qed.

(** ** What each section does to the entries *)

Lemma same_bytes now rx tx e : same_entry e (bytes_section now rx tx e).
Proof.
  unfold bytes_section. cbv zeta.
  etransitivity; [|apply same_status_if; done]. etransitivity; [|apply same_status_if; done].
  by apply same_status.
Qed.

Lemma same_auth_failed msg e :
  same_entry e (let e := set_status (fun st => st <| cs_ErrorMessage := msg |>) e in
                if e_errMsg e =s "" then leave_error e else e).
Proof.
  cbv zeta. case_bool_decide; [|by apply same_status].
  etransitivity; [|by apply same_leave_error]. by apply same_status.
Qed.

Lemma same_fail msg e : same_entry e (fail_section msg e).
Proof. split; [done|done|]. unfold entry_ok, fail_section, set_status. cbn. intuition done. Qed.

Lemma keeps_update_emit m name f :
  (forall e, same_entry e (f e)) ->
  keeps m (snd (update_emit m name f)) /\ Forall (fun t => t = TEmit) (fst (update_emit m name f)).
Proof.
  intros Hf. unfold update_emit. pose proof (keeps_update m name f Hf) as Hk.
  destruct (update m name f) as [ok m']. split; [done|]. destruct ok; repeat constructor.
Qed.

(** Items that make no lifecycle call. *)
Definition mute (t : Todo) : Prop := match t with TCall c => forall ph, phase_step ph c = ph | _ => True end.

Lemma future_mute todo ph : Forall mute todo -> future ph todo = ph.
Proof.
  revert ph. induction todo as [|t todo IH]; intros ph; [done|]. intros [Ht Hr]%Forall_cons.
  cbn. rewrite IH by done. by destruct t; cbn in *.
Qed.

Lemma phase_after_mute calls ph : Forall (fun c => forall ph, phase_step ph c = ph) calls -> phase_after ph calls = ph.
Proof.
  revert ph. induction calls as [|c calls IH]; intros ph; [done|]. intros [Hc Hr]%Forall_cons.
  cbn. by rewrite Hc, IH.
Qed.

Lemma mute_emits todo : Forall (fun t => t = TEmit) todo -> Forall mute todo.
Proof. intros H. eapply Forall_impl; [exact H|]. by intros ? ->. Qed.

Lemma Forall_when {A} (P : A -> Prop) b l : (b = true -> Forall P l) -> Forall P (when b l).
Proof. destruct b; cbn; auto. Qed.

Lemma mute_status m name : Forall (fun c => forall ph, phase_step ph c = ph) (emitStatus m name).
Proof.
  unfold emitStatus. destruct (hk_onStatus (m_hooks m)); [|done].
  destruct (find m name) as [[id e]|]; repeat constructor.
Qed.

Lemma keeps_stop ok m name user calls m' :
  stop ok m name user = Some (calls, m') ->
  keeps m m' /\ Forall (fun c => forall ph, phase_step ph c = ph) calls.
Proof.
  unfold stop. destruct (find m name) as [[id e]|] eqn:E; [|done]. apply find_heap in E as [E _].
  intros [= <- <-]. split.
  - eapply keeps_put; [done|]. by destruct user.
  - destruct user; cbn; destruct (e_mgmt e), ok, (e_cmd e); repeat constructor.
Qed.

Lemma keeps_fail m name msg t :
  keeps m (snd (fail m name msg t)) /\ Forall mute (fst (fail m name msg t)).
Proof.
  unfold fail. destruct (keeps_update_emit m name (fail_section msg)) as [Hk Hm]; [apply same_fail|].
  destruct (update_emit _ _ _) as [todo m']. split; [done|]. apply Forall_app. split.
  - by apply mute_emits.
  - apply Forall_when. intros _. by repeat constructor.
Qed.

(** Every item but a call of a callback leaves the lifecycle alone. *)
Lemma exec_todo_keeps a m name id t new m' calls :
  exec_todo a m name id t = (new, m', calls) ->
  keeps m m' /\ Forall mute new /\ forall ph, phase_after ph calls = phase_todo ph t.
Proof.
  assert (Hnone : forall ph, phase_after ph [] = ph) by done.
  destruct t; cbn [exec_todo phase_todo].
  - by intros [= <- <- <-].
  - intros [= <- <- <-]. split; [done|]. split; [done|]. intros ph. apply phase_after_mute, mute_status.
  - intros [= <- <- <-]. split; [|done]. apply keeps_modify. intros e. by split.
  - destruct (m_heap m !! id) as [e|] eqn:E; [|by intros [= <- <- <-]].
    destruct (e_mgmt e) as [c|]; [|by intros [= <- <- <-]].
    destruct (sendCredentials _ _ _ _ _) as [r c']. intros [= <- <- <-]. split.
    + eapply keeps_put; [done|]. by split.
    + split; [|done]. destruct r; by repeat constructor.
  - destruct (keeps_fail m name msg terminate) as [Hk Hm]. destruct (fail _ _ _ _). by intros [= <- <- <-].
  - destruct (stop _ _ _ _) as [[cs m1]|] eqn:E; intros [= <- <- <-]; [|done].
    apply keeps_stop in E as [Hk Hc]. split; [done|]. split; [done|]. intros ph. by apply phase_after_mute.
  - intros [= <- <- <-]. split; [|done]. apply keeps_modify. intros e. by split.
  - unfold applyDNS. destruct (_ || _); intros [= <- <- <-]; [done|]. split; [done|].
    split; [|by intros []]. apply Forall_when. by repeat constructor.
  - unfold dns_applied. match goal with |- context [update m name ?f] =>
      pose proof (keeps_update m name f ltac:(intros e; by split)) as Hk; destruct (update m name f) as [ok m1] end.
    intros [= <- <- <-]. split; [done|]. split; [|done]. destruct ok; repeat constructor.
  - intros [= <- <- <-]. split; [|done]. apply keeps_modify. intros e. by destruct (e_mgmt e).
  - intros [= <- <- <-]. split; [|done]. apply keeps_modify. intros e. by split.
Qed.

(** ** The invariant *)

(** Items a goroutine may hold before the entry is removed: none but activations. *)
Definition benign (t : Todo) : Prop :=
  match t with TCall (KActiveChange _ true) => True | _ => mute t end.

(** Items left once the entry is removed. *)
Definition closing (t : Todo) : Prop :=
  match t with
  | TCall (KDying _ | KActiveChange _ true) => False
  | TCall _ | TCloseMgmt | TDone => True
  | _ => False
  end.

(** Items that turn into no others. *)
Definition plain (t : Todo) : Prop := match t with TCall _ | TCloseMgmt | TDone => True | _ => False end.

Definition activates (t : Todo) : bool :=
  match t with TCall (KActiveChange _ true) => true | _ => false end.

Definition rest_phase (e : entry) : Phase := if e_active e then Announced else Quiet.

Definition early (pc : Pc) : bool :=
  match pc with pcReserved | pcWritten | pcResolved => true | _ => false end.

(** The scanner's list: empty unless it runs, and an activation only for an active tunnel. *)
Definition scan_ok (e : entry) (p : Proc) : Prop :=
  Forall benign (pr_stodo p) /\ (existsb activates (pr_stodo p) = true -> e_active e = true)
  /\ (pr_scan p <> scanRunning -> pr_stodo p = []).

(** One tunnel: [ph] is the phase its calls so far have reached. *)
Definition proc_ok (e : entry) (p : Proc) (ph : Phase) : Prop :=
  match pr_pc p with
  | pcFinished => pr_stodo p = [] /\ Forall closing (pr_todo p) /\ future ph (pr_todo p) = Quiet
                  /\ pr_scan p <> scanRunning
  | pcRemoving died =>
      pr_stodo p = [] /\ pr_scan p = scanEnded
      /\ (pr_todo p = [] \/ pr_todo p = [TCall (KDying (pr_name p))])
      /\ (died = true -> e_active e = true)
      /\ future ph (pr_todo p) = if died then Dying else rest_phase e
  | pc => Forall benign (pr_todo p) /\ future ph (pr_todo p) = rest_phase e /\ scan_ok e p
          /\ (early pc = true -> e_active e = false /\ pr_scan p = scanIdle)
  end.

Record manager_inv (hooks : Hooks) (s : Sys) : Prop := {
  inv_hooks : m_hooks (sy_mgr s) = hooks;
  inv_fresh id p : sy_procs s !! id = Some p -> (id < m_next (sy_mgr s))%nat;
  inv_quiet id c : (id, c) ∈ sy_log s -> (id < m_next (sy_mgr s))%nat;
  inv_entry id p : sy_procs s !! id = Some p ->
    exists e, m_heap (sy_mgr s) !! id = Some e /\ cs_TunnelName (e_status e) = pr_name p
      /\ entry_ok e /\ proc_ok e p (phase_of id (sy_log s));
  inv_owns id p : sy_procs s !! id = Some p -> pr_pc p <> pcFinished ->
    m_tunnels (sy_mgr s) !! pr_name p = Some id;
  inv_owned name id : m_tunnels (sy_mgr s) !! name = Some id ->
    exists p, sy_procs s !! id = Some p /\ pr_name p = name /\ pr_pc p <> pcFinished }.

Lemma proc_ok_same e e' p ph : e_active e' = e_active e -> proc_ok e p ph -> proc_ok e' p ph.
Proof. intros H. unfold proc_ok, scan_ok, rest_phase. by rewrite H. Qed.

(** A step of one goroutine that keeps the table. *)
Lemma inv_move hooks s id p p' e e' m' calls :
  manager_inv hooks s -> sy_procs s !! id = Some p -> m_heap (sy_mgr s) !! id = Some e ->
  m_tunnels m' = m_tunnels (sy_mgr s) -> m_next m' = m_next (sy_mgr s) -> m_hooks m' = hooks ->
  (forall j, j <> id -> option_Forall2 same_entry (m_heap (sy_mgr s) !! j) (m_heap m' !! j)) ->
  m_heap m' !! id = Some e' -> cs_TunnelName (e_status e') = cs_TunnelName (e_status e) ->
  (entry_ok e -> entry_ok e') ->
  pr_name p' = pr_name p -> (pr_pc p' = pcFinished <-> pr_pc p = pcFinished) ->
  (proc_ok e p (phase_of id (sy_log s)) -> proc_ok e' p' (phase_after (phase_of id (sy_log s)) calls)) ->
  manager_inv hooks (move s id p' m' calls).
Proof.
  intros [Ihk Ifr Iq Ie Iow Iod] Hp He Ht Hn Hh Ho He' Hname Hok Hpn Hpc Hproc.
  split; cbn [move sy_mgr sy_procs sy_log].
  - done.
  - intros j q Hj. rewrite Hn. destruct (decide (j = id)) as [->|Hne]; [by apply Ifr in Hp|].
    rewrite lookup_insert_ne in Hj by done. by apply Ifr in Hj.
  - intros j c Hj. rewrite Hn. apply elem_of_app in Hj as [Hj|Hj]; [by apply Iq in Hj|].
    unfold tag in Hj. apply list_elem_of_fmap in Hj as (c' & [= -> ->] & _). by apply Ifr in Hp.
  - intros j q Hj. rewrite phase_of_tag. destruct (Nat.eqb_spec id j) as [<-|Hne].
    + rewrite lookup_insert_eq in Hj. injection Hj as <-. destruct (Ie id p Hp) as (e0 & E0 & Hn0 & Hok0 & Hp0).
      simplify_eq. exists e'. split_and!; auto. congruence.
    + rewrite lookup_insert_ne in Hj by done. destruct (Ie j q Hj) as (e0 & E0 & Hn0 & Hok0 & Hp0).
      specialize (Ho j ltac:(done)). rewrite E0 in Ho. inversion Ho as [? e1 [Ha Hb Hc] Heq1 Heq2|]; subst.
      exists e1. split_and!; auto; [congruence|]. by eapply proc_ok_same.
  - intros j q Hj Hf. rewrite Ht. destruct (decide (j = id)) as [->|Hne].
    + rewrite lookup_insert_eq in Hj. injection Hj as <-. rewrite Hpn. apply Iow; tauto.
    + rewrite lookup_insert_ne in Hj by done. by apply Iow.
  - intros n j. rewrite Ht. intros Hj. destruct (Iod n j Hj) as (q & Hq & Hqn & Hqf).
    destruct (decide (j = id)) as [->|Hne].
    + simplify_eq. exists p'. rewrite lookup_insert_eq. tauto.
    + exists q. by rewrite lookup_insert_ne.
Qed.

Lemma inv_move_keeps hooks s id p p' m' calls :
  manager_inv hooks s -> sy_procs s !! id = Some p -> keeps (sy_mgr s) m' ->
  pr_name p' = pr_name p -> (pr_pc p' = pcFinished <-> pr_pc p = pcFinished) ->
  (forall e e', e_active e' = e_active e ->
     proc_ok e p (phase_of id (sy_log s)) -> proc_ok e' p' (phase_after (phase_of id (sy_log s)) calls)) ->
  manager_inv hooks (move s id p' m' calls).
Proof.
  intros Hi Hp [Kt Kn Kh Kheap] Hpn Hpc Hproc.
  destruct (inv_entry _ _ Hi id p Hp) as (e & He & Hname & Hok & Hpo).
  pose proof (Kheap id) as K. rewrite He in K. inversion K as [? e' [Ha Hb Hc] Heq1 Heq2|]; subst.
  eapply (inv_move hooks s id p p' e e'); eauto. rewrite Kh. apply Hi.
Qed.

(** ** One item *)

Lemma future_benign ph todo :
  Forall benign todo -> ph = Quiet \/ ph = Announced ->
  future ph todo = if existsb activates todo then Announced else ph.
Proof.
  intros H. revert ph. induction H as [|t todo Ht H IH]; intros ph Hph; [done|].
  destruct t as [[]| | | | | | | | | |]; cbn in Ht |- *; try (by apply IH); try (by rewrite ?Ht, IH by auto).
  - destruct active; [|by rewrite Ht, IH by auto].
    destruct Hph as [-> | ->]; rewrite IH by auto; by destruct (existsb activates todo).
Qed.

Lemma exec_plain a m name id t new m' calls :
  plain t -> exec_todo a m name id t = (new, m', calls) -> new = [].
Proof. destruct t; try done; by intros _ [= <- <- <-]. Qed.

Lemma benign_mute t : mute t -> benign t.
Proof. destruct t as [[]| | | | | | | | | |]; try done. by destruct active. Qed.

Lemma proc_todo e e' p ph t rest new calls :
  proc_ok e p ph -> pr_todo p = t :: rest -> e_active e' = e_active e -> Forall mute new ->
  (plain t -> new = []) -> phase_after ph calls = phase_todo ph t ->
  proc_ok e' (p <| pr_todo := new ++ rest |>) (phase_after ph calls).
Proof.
  intros Hp Ht Ha Hm Hpl Hc. apply (proc_ok_same e); [done|]. rewrite Hc.
  assert (Hf : future (phase_todo ph t) (new ++ rest) = future ph (t :: rest)).
  { rewrite future_app, (future_mute new) by done. done. }
  unfold proc_ok in *. cbn -[future phase_todo app]. rewrite Ht in Hp.
  assert (Hb : Forall benign (t :: rest) -> Forall benign (new ++ rest)).
  { intros [_ Hr]%Forall_cons. apply Forall_app. split; [|done]. eapply Forall_impl; [done|apply benign_mute]. }
  assert (Hl : Forall closing (t :: rest) -> Forall closing (new ++ rest)).
  { intros [Hr1 Hr]%Forall_cons. rewrite Hpl; [done|]. destruct t as [[]| | | | | | | | | |]; done. }
  assert (Hd : t :: rest = [] \/ t :: rest = [TCall (KDying (pr_name p))] -> new ++ rest = []).
  { intros [?|[= -> ->]]; [done|]. by rewrite Hpl. }
  destruct (pr_pc p); rewrite Hf; unfold scan_ok in *; cbn; intuition eauto.
Qed.

Lemma future_back ph todo e :
  Forall benign todo -> future ph todo = rest_phase e -> ph = Quiet \/ ph = Announced.
Proof.
  assert (Hbad : forall todo ph, Forall benign todo -> ph = Dying \/ ph = Broken ->
            future ph todo = Dying \/ future ph todo = Broken).
  { clear. intros todo. induction todo as [|t todo IH]; intros ph H Hph; [done|].
    apply Forall_cons in H as [Ht H]. cbn. apply IH; [done|].
    destruct t as [c| | | | | | | | | |]; cbn in *; try done.
    destruct c; try (by rewrite Ht). destruct active; [|by rewrite Ht].
    destruct Hph as [-> | ->]; auto. }
  intros Hb Hf. destruct ph; auto; exfalso;
    (edestruct (Hbad todo) as [E|E]; [exact Hb| |rewrite E in Hf..]; [by auto| |]);
    unfold rest_phase in Hf; by destruct (e_active e).
Qed.

Lemma benign_cases t : benign t -> mute t \/ (exists name, t = TCall (KActiveChange name true)).
Proof. destruct t as [[]| | | | | | | | | |]; auto. destruct active; [by right; eexists|auto]. Qed.

Lemma activates_mute new : Forall mute new -> existsb activates new = false.
Proof.
  intros H. apply existsb_false_iff. intros t Ht. rewrite Forall_forall in H. specialize (H t Ht).
  destruct t as [[]| | | | | | | | | |]; try done. destruct active; [|done]. by specialize (H Quiet).
Qed.

(** The stage before cleanup decides. *)
Definition stage_ok (e : entry) (p : Proc) (ph : Phase) : Prop :=
  Forall benign (pr_todo p) /\ future ph (pr_todo p) = rest_phase e /\ scan_ok e p
  /\ (early (pr_pc p) = true -> e_active e = false /\ pr_scan p = scanIdle).

Definition before_cleanup (pc : Pc) : bool :=
  match pc with pcRemoving _ | pcFinished => false | _ => true end.

Lemma proc_ok_stage e p ph : before_cleanup (pr_pc p) = true -> proc_ok e p ph <-> stage_ok e p ph.
Proof. unfold proc_ok, stage_ok. by destruct (pr_pc p). Qed.

Lemma scanning_stage e p ph :
  proc_ok e p ph -> pr_scan p = scanRunning \/ pr_stodo p <> [] -> before_cleanup (pr_pc p) = true.
Proof.
  unfold proc_ok. intros H Hs. destruct (pr_pc p); try done.
  - destruct H as (H1 & H2 & _). destruct Hs as [Hs|Hs]; congruence.
  - destruct H as (H1 & _ & _ & H2). tauto.
Qed.

(** The scanner's items. *)
Lemma proc_stodo e e' p ph t rest new calls :
  proc_ok e p ph -> pr_stodo p = t :: rest -> e_active e' = e_active e -> Forall mute new ->
  phase_after ph calls = phase_todo ph t ->
  proc_ok e' (p <| pr_stodo := new ++ rest |>) (phase_after ph calls).
Proof.
  intros Hp Ht Ha Hm Hc. apply (proc_ok_same e); [done|]. rewrite Hc.
  assert (Hst : before_cleanup (pr_pc p) = true) by (apply (scanning_stage e p ph Hp); right; by rewrite Ht).
  apply proc_ok_stage in Hp; [|done]. apply proc_ok_stage; [done|].
  destruct Hp as (Hb & Hf & (Hsb & Hsa & Hsr) & He). unfold stage_ok, scan_ok.
  cbn -[future phase_todo app existsb activates]. rewrite Ht in Hsb, Hsa, Hsr.
  apply Forall_cons in Hsb as [Hbt Hbr].
  split; [done|]. split; [|split; [|done]].
  - pose proof (future_back ph _ e Hb Hf) as Hph.
    apply benign_cases in Hbt as [Hmt|[n ->]].
    { destruct t; cbn in *; try done. by rewrite Hmt. }
    specialize (Hsa eq_refl). unfold rest_phase in *. rewrite Hsa in *. cbn.
    assert (phase_step ph (KActiveChange n true) = Announced) as E by (by destruct Hph as [-> | ->]).
    cbn in E. rewrite E, future_benign by auto. by destruct (existsb _ _).
  - split_and!.
    + apply Forall_app. split; [|done]. eapply Forall_impl; [done|apply benign_mute].
    + rewrite existsb_app, activates_mute by done. cbn [orb]. intros Hr. apply Hsa. cbn. rewrite Hr. apply orb_true_r.
    + intros Hn. by specialize (Hsr Hn).
Qed.

(** ** The read loop's events *)

(** A section of entry [e] that leaves [e'] and [todo], nothing else touched. *)
Record section_ok (m : Manager) (id : nat) (e : entry) (m' : Manager) (todo : list Todo) : Prop := {
  so_tunnels : m_tunnels m' = m_tunnels m;
  so_next : m_next m' = m_next m;
  so_hooks : m_hooks m' = m_hooks m;
  so_others : forall j, j <> id -> option_Forall2 same_entry (m_heap m !! j) (m_heap m' !! j);
  so_entry : exists e', m_heap m' !! id = Some e' /\ cs_TunnelName (e_status e') = cs_TunnelName (e_status e)
      /\ (entry_ok e -> entry_ok e') /\ (e_active e = true -> e_active e' = true)
      /\ future (rest_phase e) todo = rest_phase e';
  so_benign : Forall benign todo }.

Lemma section_keeps m id e m' todo :
  m_heap m !! id = Some e -> keeps m m' -> Forall mute todo -> section_ok m id e m' todo.
Proof.
  intros He [Kt Kn Kh Kheap] Hm. split; auto.
  - pose proof (Kheap id) as K. rewrite He in K. inversion K as [? e' [Ha Hb Hc] Heq1 Heq2|]; subst.
    exists e'. split_and!; auto; [congruence|]. rewrite future_mute by done. unfold rest_phase. by rewrite Ha.
  - eapply Forall_impl; [done|apply benign_mute].
Qed.

Lemma section_put m id e e' todo :
  m_heap m !! id = Some e -> cs_TunnelName (e_status e') = cs_TunnelName (e_status e) ->
  (entry_ok e -> entry_ok e') -> (e_active e = true -> e_active e' = true) ->
  future (rest_phase e) todo = rest_phase e' -> Forall benign todo ->
  section_ok m id e (put m id e') todo.
Proof.
  intros He Hn Hok Ha Hf Hb. split; try done.
  - intros j Hj. unfold put. cbn. rewrite lookup_insert_ne by done. by destruct (m_heap m !! j); constructor.
  - exists e'. unfold put. cbn. rewrite lookup_insert_eq. by split_and!.
Qed.

Lemma find_own m name id e : m_tunnels m !! name = Some id -> m_heap m !! id = Some e -> find m name = Some (id, e).
Proof. intros H1 H2. unfold find. by rewrite H1, H2. Qed.

Lemma state_switch_active now s ip r e : e_active (state_switch now s ip r e) = e_active e
  /\ cs_TunnelName (e_status (state_switch now s ip r e)) = cs_TunnelName (e_status e)
  /\ cs_Protocol (e_status (state_switch now s ip r e)) = cs_Protocol (e_status e).
Proof. unfold state_switch, set_status. cbv zeta. repeat case_match; done. Qed.

(** The switch keeps an error, or clears it and connects. *)
Lemma state_switch_error now s ip r e :
  (e_errMsg (state_switch now s ip r e) = ""
   /\ cs_State (e_status (state_switch now s ip r e)) = StateConnected)
  \/ (e_errMsg (state_switch now s ip r e) = e_errMsg e
      /\ (cs_State (e_status (state_switch now s ip r e)) = StateConnected -> cs_State (e_status e) = StateConnected)).
Proof.
  unfold state_switch. destruct (s =s "CONNECTED").
  - left. unfold set_status. cbv zeta. repeat case_match; done.
  - right. unfold set_status. destruct (s =s "EXITING"); [done|].
    destruct (_ || _); [done|]. done.
Qed.

Lemma state_section_spec now s ip r e became e' :
  state_section now s ip r e = (became, e') ->
  cs_TunnelName (e_status e') = cs_TunnelName (e_status e)
  /\ (entry_ok e -> entry_ok e') /\ e_active e' = became || e_active e.
Proof.
  destruct (state_switch_active now s ip r e) as (Ha & Hn & Hp).
  destruct (state_switch_error now s ip r e) as [[Hm Hs]|[Hm Hs]]; unfold state_section;
    set (e1 := state_switch now s ip r e) in *; clearbody e1; cbv zeta; unfold connected.
  - rewrite Hm, Hs. cbn. intros [= <- <-].
    rewrite (bool_decide_eq_true_2 _ Hs). cbn [andb].
    destruct (bool_decide (cs_State (e_status e) = StateConnected)) eqn:Ew; cbn; bool_hyps.
    + split; [done|]. split; [|done]. intros (H1 & H2 & H3). split; [|split]; [|congruence..].
      intros _. rewrite Ha. auto.
    + split; [done|]. split; [|done]. intros (H1 & H2 & H3). split; [|split]; [done|cbn; congruence..].
  - rewrite Hm. intros H. injection H as <- <-.
    destruct (negb (e_errMsg e =s "") && _) eqn:Eg; cbn -[negb].
    + destruct (bool_decide (StateError = StateConnected)) eqn:F; [by bool_hyps|]. cbn.
      split; [done|]. split; [|done]. intros (H1 & H2 & H3). split; [done|]. split; [done|]. cbn. congruence.
    + destruct (bool_decide (cs_State (e_status e1) = StateConnected)) eqn:E1; cbn in *; bool_hyps.
      * specialize (Hs E1). rewrite (bool_decide_eq_true_2 _ Hs). cbn. split; [done|]. split; [|done].
        intros (H1 & H2 & H3). rewrite andb_false_r in Eg. split; [intros _; rewrite Ha; auto|].
        split; [|congruence]. rewrite Hm. intros Hne. specialize (H2 Hne). congruence.
      * split; [done|]. split; [|done]. intros (H1 & H2 & H3). split; [done|].
        rewrite andb_true_r in Eg. bool_hyps. split; [|congruence]. by rewrite Hm, Eg.
Qed.

Section Callbacks.
Context (hooks : Hooks) (Hact : hk_onActiveChange hooks = true) (Hdying : hk_onDying hooks = true)
  (Hdied : hk_onDied hooks = true).

Lemma active_section m id e e' name (fire : bool) :
  m_heap m !! id = Some e -> m_hooks m = hooks -> cs_TunnelName (e_status e') = cs_TunnelName (e_status e) ->
  (entry_ok e -> entry_ok e') -> e_active e' = fire || e_active e ->
  section_ok m id e (put m id e')
    (TEmit :: when (fire && hk_onActiveChange (m_hooks m)) [TCall (KActiveChange name true)]).
Proof.
  intros He Hh Hn Hok Ha. rewrite Hh, Hact, andb_true_r. apply section_put; auto.
  - rewrite Ha. intros ->. apply orb_true_r.
  - unfold rest_phase. rewrite Ha. destruct fire, (e_active e); done.
  - destruct fire; repeat constructor.
Qed.

Lemma on_state_section now m name id e s ip r :
  m_tunnels m !! name = Some id -> m_heap m !! id = Some e -> m_hooks m = hooks ->
  section_ok m id e (snd (onMgmtState now m name s ip r)) (fst (onMgmtState now m name s ip r)).
Proof.
  intros Ht He Hh. unfold onMgmtState. rewrite (find_own m name id e) by done.
  destruct (state_section now s ip r e) as [became e'] eqn:E. apply state_section_spec in E as (Hn & Hok & Ha).
  by apply active_section.
Qed.

Lemma set_interface_section m name id e dev :
  m_tunnels m !! name = Some id -> m_heap m !! id = Some e -> m_hooks m = hooks ->
  section_ok m id e (snd (setInterface m name dev)) (fst (setInterface m name dev)).
Proof.
  intros Ht He Hh. unfold setInterface. rewrite (find_own m name id e) by done. cbv zeta. cbn [fst snd].
  destruct (same_status (fun st => st <| cs_InterfaceName := dev |>) e) as [Ha Hn Hok]; try done.
  apply active_section; auto. rewrite Ha. by destruct (e_active e), (_ =s _).
Qed.

Lemma prompt_begin_section m name id e sc :
  m_heap m !! id = Some e ->
  section_ok m id e (snd (prompt_begin m name id sc)) (snd (fst (prompt_begin m name id sc))).
Proof.
  intros He. unfold prompt_begin. rewrite He. destruct (prompt_challenge e sc) as [ch ask]. cbn [fst snd].
  set (e1 := e <| e_awaitingCredentials := true |> <| e_errMsg := "" |>).
  assert (Hs : e_active (leave_error e1) = e_active e
    /\ cs_TunnelName (e_status (leave_error e1)) = cs_TunnelName (e_status e)
    /\ (entry_ok e -> entry_ok (leave_error e1))).
  { destruct (same_leave_error e1 eq_refl) as [Ha Hn Hok]. split; [done|]. split; [done|].
    intros Hk. apply Hok. destruct Hk as (H1 & H2 & H3). split_and!; done. }
  destruct Hs as (Ha & Hn & Hok). apply section_keeps; [done| |].
  - eapply keeps_put; [done|]. by split.
  - destruct ask, (hk_onAuthNeeded (m_hooks m)); by repeat constructor.
Qed.

Lemma on_event_section now ok m name id e ev :
  m_tunnels m !! name = Some id -> m_heap m !! id = Some e -> m_hooks m = hooks ->
  section_ok m id e (snd (on_event now ok m name id ev)) (fst (on_event now ok m name id ev)).
Proof.
  intros Ht He Hh.
  assert (Hemit : forall f, (forall e, same_entry e (f e)) ->
    section_ok m id e (snd (update_emit m name f)) (fst (update_emit m name f))).
  { intros f Hf. destruct (keeps_update_emit m name f Hf) as [Hk Hm]. apply section_keeps; auto. by apply mute_emits. }
  destruct ev; cbn [on_event].
  - by apply on_state_section.
  - apply Hemit. intros e0. apply same_bytes.
  - pose proof (prompt_begin_section m name id e sc He) as H. by destruct (prompt_begin _ _ _ _) as [[? ?] ?].
  - cbn. apply section_keeps; [done| |].
    + apply keeps_modify. intros e0. by split.
    + destruct (hk_onAuthNeeded (m_hooks m)); by repeat constructor.
  - apply Hemit. intros e0. apply same_auth_failed.
  - destruct (keeps_fail m name msg terminate) as [Hk Hm]. by apply section_keeps.
  - cbn. apply section_keeps; [done| |done]. apply keeps_modify. intros e0. by destruct (e_mgmt e0).
Qed.

(** ** Steps keep the invariant *)

Lemma proc_section e e' p ph todo pc :
  stage_ok e p ph -> pr_todo p = [] -> before_cleanup pc = true -> early pc = false ->
  (e_active e = true -> e_active e' = true) -> future (rest_phase e) todo = rest_phase e' ->
  Forall benign todo ->
  proc_ok e' (p <| pr_pc := pc |> <| pr_todo := todo |> <| pr_scan := scan_after pc (pr_scan p) |>) ph.
Proof.
  intros (Hb & Hf & (Hsb & Hsa & Hsr) & He) Ht Hpc Hea Ha Hfu Hbt. apply proc_ok_stage; [done|].
  rewrite Ht in Hf. cbn in Hf. unfold stage_ok, scan_ok. cbn -[future existsb activates early scan_after].
  split; [done|]. split; [by rewrite Hf|]. rewrite Hea. split; [|done]. split; [done|]. split; [by auto|].
  intros Hn. apply Hsr. intros Hr. apply Hn. rewrite Hr. by destruct pc.
Qed.

(** A step that moves on within the stage. *)
Lemma inv_section s id p e m' pc todo calls :
  manager_inv hooks s -> sy_procs s !! id = Some p -> m_heap (sy_mgr s) !! id = Some e ->
  pr_todo p = [] -> before_cleanup (pr_pc p) = true -> before_cleanup pc = true -> early pc = false ->
  section_ok (sy_mgr s) id e m' todo -> Forall (fun c => forall ph, phase_step ph c = ph) calls ->
  manager_inv hooks (move s id (p <| pr_pc := pc |> <| pr_todo := todo |>
                                  <| pr_scan := scan_after pc (pr_scan p) |>) m' calls).
Proof.
  intros Hi Hp He Ht Hst Hpc Hea [Kt Kn Kh Ko (e' & He' & Hn & Hok & Ha & Hf) Hb] Hc.
  eapply (inv_move hooks s id p _ e e'); eauto.
  - rewrite Kh. apply Hi.
  - cbn. split; intros E; [by rewrite E in Hpc|by rewrite E in Hst].
  - intros Hpo. rewrite phase_after_mute by done. apply proc_ok_stage in Hpo; [|done]. by eapply proc_section.
Qed.

Lemma inv_early s id p m' pc calls :
  manager_inv hooks s -> sy_procs s !! id = Some p -> pr_todo p = [] ->
  early (pr_pc p) = true -> early pc = true -> keeps (sy_mgr s) m' ->
  Forall (fun c => forall ph, phase_step ph c = ph) calls ->
  manager_inv hooks (move s id (p <| pr_pc := pc |> <| pr_todo := [] |>
                                  <| pr_scan := scan_after pc (pr_scan p) |>) m' calls).
Proof.
  intros Hi Hp Ht He Hpc Hk Hc. eapply inv_move_keeps; eauto.
  - cbn. split; intros E; [by rewrite E in Hpc|by rewrite E in He].
  - intros e e' Ha Hpo. rewrite phase_after_mute by done. apply (proc_ok_same e); [done|].
    apply proc_ok_stage in Hpo; [|by destruct (pr_pc p)]. apply proc_ok_stage; [by destruct pc|].
    destruct Hpo as (H1 & H2 & (H3 & H4 & H5) & H6). unfold stage_ok, scan_ok in *. rewrite Ht in *.
    specialize (H6 He) as [H6 H7]. rewrite H7 in *. cbn -[early scan_after existsb] in *.
    assert (Hs : scan_after pc scanIdle = scanIdle) by (by destruct pc).
    rewrite Hs. split_and!; auto.
Qed.

(** The step that takes the entry out of the table. *)
Lemma inv_gone s id p e e' m' todo sc calls :
  manager_inv hooks s -> sy_procs s !! id = Some p -> m_heap (sy_mgr s) !! id = Some e ->
  pr_pc p <> pcFinished -> m_tunnels m' = delete (pr_name p) (m_tunnels (sy_mgr s)) ->
  m_next m' = m_next (sy_mgr s) -> m_hooks m' = hooks ->
  (forall j, j <> id -> m_heap m' !! j = m_heap (sy_mgr s) !! j) ->
  m_heap m' !! id = Some e' -> same_entry e e' ->
  (proc_ok e p (phase_of id (sy_log s)) ->
   proc_ok e' (p <| pr_pc := pcFinished |> <| pr_todo := todo |> <| pr_scan := sc |>)
     (phase_after (phase_of id (sy_log s)) calls)) ->
  manager_inv hooks (move s id (p <| pr_pc := pcFinished |> <| pr_todo := todo |> <| pr_scan := sc |>) m' calls).
Proof.
  intros Hi Hp He Hnf Ht Hn Hh Ho He' [Ha Hb Hc] Hproc.
  pose proof (inv_owns _ _ Hi id p Hp Hnf) as Hown.
  destruct Hi as [Ihk Ifr Iq Ie Iow Iod]. split; cbn [move sy_mgr sy_procs sy_log].
  - done.
  - intros j q Hj. rewrite Hn. destruct (decide (j = id)) as [->|Hne]; [by apply Ifr in Hp|].
    rewrite lookup_insert_ne in Hj by done. by apply Ifr in Hj.
  - intros j c Hj. rewrite Hn. apply elem_of_app in Hj as [Hj|Hj]; [by apply Iq in Hj|].
    unfold tag in Hj. apply list_elem_of_fmap in Hj as (c' & [= -> ->] & _). by apply Ifr in Hp.
  - intros j q Hj. rewrite phase_of_tag. destruct (Nat.eqb_spec id j) as [<-|Hne].
    + rewrite lookup_insert_eq in Hj. injection Hj as <-. destruct (Ie id p Hp) as (e0 & E0 & Hn0 & Hok0 & Hp0).
      simplify_eq. exists e'. split_and!; auto. cbn. congruence.
    + rewrite lookup_insert_ne in Hj by done. destruct (Ie j q Hj) as (e0 & E0 & H).
      exists e0. rewrite Ho by done. auto.
  - intros j q Hj Hf. destruct (decide (j = id)) as [->|Hne].
    + rewrite lookup_insert_eq in Hj. by injection Hj as <-.
    + rewrite lookup_insert_ne in Hj by done. rewrite Ht. pose proof (Iow j q Hj Hf) as Hq.
      rewrite lookup_delete_ne; [done|]. congruence.
  - intros n j. rewrite Ht. intros [Hne Hj]%lookup_delete_Some.
    destruct (Iod n j Hj) as (q & Hq & Hqn & Hqf). exists q. rewrite lookup_insert_ne; [done|].
    intros <-. simplify_eq.
Qed.

Lemma prompt_reply_keeps m id challenge todo m' :
  prompt_reply m id challenge = Some (todo, m') -> keeps m m' /\ Forall mute todo.
Proof.
  unfold prompt_reply. destruct (m_heap m !! id) as [e|] eqn:He; [|done].
  destruct (e_authCh e) as [r|]; [|done]. destruct (reply_credentials _ _ r) as [u pw].
  intros [= <- <-]. split.
  - eapply keeps_put; [done|].
    match goal with |- same_entry _ (leave_error ?x) =>
      assert (Hs : same_entry e x) by
        (destruct (negb (u =s "")); (split; [done|done|intros (H1 & H2 & H3); split_and!; done]));
      assert (Hm : e_errMsg x = "") by (by destruct (negb (u =s "")));
      generalize dependent x end.
    intros x Hs Hm. etransitivity; [exact Hs|by apply same_leave_error].
  - destruct (bool_decide _); by repeat constructor.
Qed.

(** Every item list cleanup leaves ends the announced phase. *)
Lemma cleanup_remove_spec m name id died e todo m' :
  m_heap m !! id = Some e -> m_hooks m = hooks -> cleanup_remove m name id died = (todo, m') ->
  m' = m <| m_tunnels := delete name (m_tunnels m) |> /\ Forall closing todo
  /\ forall ph, ph = (if died then Dying else rest_phase e) -> future ph todo = Quiet.
Proof.
  intros He Hh. unfold cleanup_remove. rewrite He. cbv zeta. intros [= <- <-]. split; [done|]. split.
  - unfold when. rewrite !Forall_app. split_and!; repeat case_match; by repeat constructor.
  - intros ph ->. rewrite Hh, Hact. unfold rest_phase. repeat rewrite future_app.
    destruct died, (e_active e), (bool_decide (is_Some (e_mgmt e))), (e_dnsApplied e && hk_netMgr hooks),
      (hk_onStatus hooks); cbn; try done; by destruct (other_dns _ _).
Qed.

Lemma keeps_modify_at m id f : (forall e, same_entry e (f e)) -> keeps m (modify_at m id f).
Proof. apply keeps_modify. Qed.

Lemma cleanup_decide_inv s id p e pc todo m' calls :
  manager_inv hooks s -> sy_procs s !! id = Some p -> pr_todo p = [] -> pr_pc p = pcReaped ->
  m_heap (sy_mgr s) !! id = Some e -> pr_scan p = scanEnded ->
  match cleanup_decide (sy_mgr s) (pr_name p) with
  | Some (died, todo) => Some (pcRemoving died, todo, sy_mgr s, [])
  | None => Some (pcFinished, [], sy_mgr s, [])
  end = Some (pc, todo, m', calls) ->
  manager_inv hooks (move s id (p <| pr_pc := pc |> <| pr_todo := todo |>
                                  <| pr_scan := scan_after pc (pr_scan p) |>) m' calls).
Proof.
  intros Hi Hp Ht Epc He Es. pose proof (inv_hooks _ _ Hi) as Hh. unfold cleanup_decide.
  rewrite (find_own (sy_mgr s) (pr_name p) id e) by (first [done|apply (inv_owns _ _ Hi); [done|by rewrite Epc]]).
  cbv zeta. rewrite Hh, Hdied, Hdying, !andb_true_r. intros [= <- <- <- <-].
  eapply (inv_move hooks s id p _ e e); eauto.
  - intros j _. by destruct (m_heap (sy_mgr s) !! j); constructor.
  - cbn. split; intros E; [done|by rewrite E in Epc].
  - intros Hpo. apply proc_ok_stage in Hpo; [|by rewrite Epc].
    destruct Hpo as (H1 & H2 & (H3 & H4 & H5) & _). rewrite Ht in H2. cbn in H2.
    unfold proc_ok. cbn -[future]. rewrite Es in *. rewrite H2.
    split_and!; try done; [by apply H5| | |]; unfold rest_phase;
      destruct (e_active e) eqn:Ea, (e_userInitiated e); cbn; try done; by repeat constructor.
Qed.

Lemma cleanup_remove_inv s id p e died pc todo m' calls :
  manager_inv hooks s -> sy_procs s !! id = Some p -> pr_todo p = [] -> pr_pc p = pcRemoving died ->
  m_heap (sy_mgr s) !! id = Some e ->
  (let '(todo, m') := cleanup_remove (sy_mgr s) (pr_name p) id died in Some (pcFinished, todo, m', []))
    = Some (pc, todo, m', calls) ->
  manager_inv hooks (move s id (p <| pr_pc := pc |> <| pr_todo := todo |>
                                  <| pr_scan := scan_after pc (pr_scan p) |>) m' calls).
Proof.
  intros Hi Hp Ht Epc He. pose proof (inv_hooks _ _ Hi) as Hh.
  destruct (cleanup_remove _ _ _ _) as [td m1] eqn:E. intros [= <- <- <- <-].
  eapply cleanup_remove_spec in E as (-> & Hpl & Hf); [|done..].
  eapply (inv_gone s id p e e); eauto; try done; [by rewrite Epc|].
  unfold proc_ok. rewrite Epc. intros (H1 & H2 & H3 & H4 & H5). cbn -[future].
  rewrite Ht in H5. rewrite H2. split_and!; try done. by apply Hf.
Qed.

(** A start that fails before openvpn runs. *)
Lemma start_failed_inv s id p : manager_inv hooks s -> sy_procs s !! id = Some p -> pr_todo p = [] ->
  pr_pc p = pcReserved \/ pr_pc p = pcWritten \/ pr_pc p = pcResolved ->
  manager_inv hooks (move s id (p <| pr_pc := pcFinished |> <| pr_todo := [] |> <| pr_scan := pr_scan p |>)
                       (start_failed (sy_mgr s) (pr_name p) id) []).
Proof.
  intros Hi Hp Ht Hpc. pose proof (inv_hooks _ _ Hi) as Hh. destruct (inv_entry _ _ Hi id p Hp) as (e & He & Hname & Hok & Hpo).
  assert (Hnf : pr_pc p <> pcFinished) by (intros E; rewrite E in Hpc; by destruct Hpc as [|[|]]).
  assert (Hown : m_tunnels (sy_mgr s) !! pr_name p = Some id) by (by apply (inv_owns _ _ Hi)).
  assert (He' : m_heap (start_failed (sy_mgr s) (pr_name p) id) !! id = Some (e <| e_done := true |>)).
  { unfold start_failed, modify_at. cbn. rewrite He. cbn. by rewrite lookup_insert_eq. }
  eapply (inv_gone s id p e (e <| e_done := true |>)); eauto.
  1-3: unfold start_failed, modify_at; cbn; by rewrite He.
  - intros j Hj. unfold start_failed, modify_at. cbn. rewrite He. cbn. by rewrite lookup_insert_ne.
  - by split.
  - intros Hpo'. apply proc_ok_stage in Hpo'; [|by destruct Hpc as [-> | [-> | ->]]].
    destruct Hpo' as (H1 & H2 & (H3 & H4 & H5) & H6).
    destruct H6 as [H6 H7]; [by destruct Hpc as [-> | [-> | ->]]|].
    unfold proc_ok. cbn. rewrite H7 in *. rewrite Ht in H2. cbn in H2. unfold rest_phase in H2. rewrite H6 in H2.
    split_and!; auto.
Qed.

Lemma reader_inv s id p ra pc todo m' calls :
  manager_inv hooks s -> sy_procs s !! id = Some p -> pr_todo p = [] ->
  reader_act (sy_mgr s) id p ra = Some (pc, todo, m', calls) ->
  manager_inv hooks (move s id (p <| pr_pc := pc |> <| pr_todo := todo |>
                                  <| pr_scan := scan_after pc (pr_scan p) |>) m' calls).
Proof.
  intros Hi Hp Ht Hr.
  destruct (inv_entry _ _ Hi id p Hp) as (e & He & Hname & Hok & Hpo).
  pose proof (inv_hooks _ _ Hi) as Hh.
  assert (Hown : pr_pc p <> pcFinished -> m_tunnels (sy_mgr s) !! pr_name p = Some id).
  { intros. by apply (inv_owns _ _ Hi). }
  assert (Hmute : Forall (fun c => forall ph, phase_step ph c = ph) []) by done.
  pose proof (start_failed_inv s id p Hi Hp Ht) as Hfail.
  unfold reader_act in Hr. destruct (pr_pc p) eqn:Epc, ra; try done.
  - injection Hr as <- <- <- <-. eapply inv_early; eauto; try (by rewrite Epc); by repeat constructor.
  - injection Hr as <- <- <- <-. auto.
  - injection Hr as <- <- <- <-. eapply inv_early; eauto; try (by rewrite Epc).
    apply keeps_modify. intros e0. by split.
  - injection Hr as <- <- <- <-. auto.
  - injection Hr as <- <- <- <-. eapply inv_section; eauto; try (by rewrite Epc); try (by repeat constructor).
    by apply section_keeps.
  - injection Hr as <- <- <- <-. auto.
  - destruct (connect_started _ _ _) as [td m1] eqn:E. injection Hr as <- <- <- <-.
    eapply inv_section; eauto; try (by rewrite Epc). unfold connect_started in E. rewrite He in E.
    injection E as <- <-. apply section_keeps; [done| |].
    + eapply keeps_put; [done|]. by split.
    + destruct (e_userInitiated e); by repeat constructor.
  - injection Hr as <- <- <- <-. eapply inv_section; eauto; try (by rewrite Epc).
    apply section_keeps; [done| |done]. apply keeps_modify. intros e0. by split.
  - rewrite He in Hr. injection Hr as <- <- <- <-. eapply inv_section; eauto; try (by rewrite Epc).
    apply section_keeps; [done|done|]. destruct (e_userInitiated e); by repeat constructor.
  - pose proof (on_event_section now ok (sy_mgr s) (pr_name p) id e e0 (Hown ltac:(done)) He Hh) as Hs.
    destruct (on_event now ok (sy_mgr s) (pr_name p) id e0) as [td m1]. injection Hr as <- <- <- <-.
    eapply inv_section; eauto; try (by rewrite Epc); by destruct e0.
  - injection Hr as <- <- <- <-. eapply inv_section; eauto; try (by rewrite Epc). by apply section_keeps.
  - destruct (prompt_reply _ _ _) as [[td m1]|] eqn:E; [|done]. injection Hr as <- <- <- <-.
    apply prompt_reply_keeps in E as [Hk Hm]. eapply inv_section; eauto; try (by rewrite Epc). by apply section_keeps.
  - unfold prompt_closed in Hr. rewrite He in Hr. destruct (e_closeCh e); [|done]. injection Hr as <- <- <- <-.
    eapply inv_section; eauto; try (by rewrite Epc). apply section_keeps; [done|done|by repeat constructor].
  - injection Hr as <- <- <- <-.
    eapply inv_section; eauto; try (by rewrite Epc). apply section_keeps; [done|done|by repeat constructor].
  - injection Hr as <- <- <- <-. eapply inv_section; eauto; try (by rewrite Epc); try (by repeat constructor).
    by apply section_keeps.
  - destruct (bool_decide (pr_scan p = scanEnded)) eqn:Es; [|done]. bool_hyps.
    by apply (cleanup_decide_inv s id p e pc todo m' calls).
  - by apply (cleanup_remove_inv s id p e died pc todo m' calls).
Qed.

(** A step of the scanner. *)
Lemma proc_scan e e' p ph sc todo :
  proc_ok e p ph -> pr_scan p = scanRunning -> pr_stodo p = [] -> Forall benign todo ->
  (e_active e = true -> e_active e' = true) -> e_active e' = e_active e ->
  (existsb activates todo = true -> e_active e = true) -> (sc <> scanRunning -> todo = []) ->
  proc_ok e' (p <| pr_scan := sc |> <| pr_stodo := todo |>) ph.
Proof.
  intros Hp Hrun Hst Hb _ Ha Hact' Hsc. apply (proc_ok_same e); [done|].
  assert (Hst' : before_cleanup (pr_pc p) = true) by (apply (scanning_stage e p ph Hp); by left).
  apply proc_ok_stage in Hp; [|done]. apply proc_ok_stage; [done|].
  destruct Hp as (H1 & H2 & (H3 & H4 & H5) & H6). unfold stage_ok, scan_ok. cbn -[future existsb activates early].
  split_and!; try done. intros Hea. by destruct (H6 Hea) as [_ ?]; congruence.
Qed.

Lemma scan_act_spec m id p e sa sc todo m' :
  m_heap m !! id = Some e -> m_tunnels m !! pr_name p = Some id -> m_hooks m = hooks ->
  scan_act m id p sa = Some (sc, todo, m') ->
  pr_scan p = scanRunning /\ keeps m m' /\ Forall benign todo
  /\ (existsb activates todo = true -> e_active e = true) /\ (sc <> scanRunning -> todo = []).
Proof.
  intros He Ht Hh. unfold scan_act. cbv zeta. destruct (pr_scan p); try done. intros H. split; [done|]. revert H.
  assert (Hmute : forall l, Forall mute l -> Forall benign l /\ (existsb activates l = true -> e_active e = true)).
  { intros l Hl. split; [eapply Forall_impl; [done|apply benign_mute]|]. by rewrite activates_mute. }
  assert (Hfin : forall m1 l, keeps m m1 -> Forall mute l -> keeps m m1 /\ Forall benign l
            /\ (existsb activates l = true -> e_active e = true) /\ (scanRunning <> scanRunning -> l = [])).
  { intros m1 l Hk Hl. destruct (Hmute l Hl). by split_and!. }
  destruct sa as [[c|msg| |dev]|].
  - unfold onCipher. match goal with |- context [update_emit m ?n ?f] =>
      destruct (keeps_update_emit m n f) as [Hk Hm]; [intros e0; by apply same_status|];
      destruct (update_emit m n f) end. intros [= <- <- <-]. apply Hfin; [done|by apply mute_emits].
  - unfold onPush. rewrite He. destruct (push_section msg e) as [e'|] eqn:E; intros [= <- <- <-]; apply Hfin; try done.
    + eapply keeps_put; [done|]. unfold push_section in E. repeat step_in E; simplify_eq; by split.
    + by repeat constructor.
  - intros [= <- <- <-]. apply Hfin; [done|]. unfold initialization_complete. rewrite He.
    destruct (e_dnsApplied e); by repeat constructor.
  - destruct (setInterface _ _ _) as [l m1] eqn:E. intros [= <- <- <-].
    unfold setInterface in E. rewrite (find_own m (pr_name p) id e) in E by done. cbv zeta in E. injection E as <- <-.
    split; [eapply keeps_put; [done|by apply same_status]|].
    destruct (e_active e && (cs_InterfaceName (e_status e) =s "")) eqn:Ea.
    + apply andb_prop in Ea as [Ea _]. split_and!; [|done..].
      apply Forall_cons. split; [done|]. unfold when. case_match; by repeat constructor.
    + cbn. split_and!; by repeat constructor.
  - intros [= <- <- <-]. split; [|by split_and!]. apply keeps_modify. intros e0. by split.
Qed.

Lemma scan_inv s id p sa sc todo m' :
  manager_inv hooks s -> sy_procs s !! id = Some p -> pr_stodo p = [] ->
  scan_act (sy_mgr s) id p sa = Some (sc, todo, m') ->
  manager_inv hooks (move s id (p <| pr_scan := sc |> <| pr_stodo := todo |>) m' []).
Proof.
  intros Hi Hp Hst Hs. destruct (inv_entry _ _ Hi id p Hp) as (e & He & Hname & Hok & Hpo).
  assert (Hrun : pr_scan p = scanRunning).
  { unfold scan_act in Hs. by destruct (pr_scan p). }
  assert (Hstage : before_cleanup (pr_pc p) = true) by (apply (scanning_stage e p _ Hpo); by left).
  destruct (scan_act_spec (sy_mgr s) id p e sa sc todo m') as (_ & Hk & Hb & Ha & Hsc);
    [done|apply (inv_owns _ _ Hi); [done|by intros E; rewrite E in Hstage]|apply Hi|done|].
  pose proof (keeps_heap _ _ Hk id) as K. rewrite He in K. inversion K as [? e' Hse Heq1 Heq2|]; subst.
  destruct Hse as [Sa Sn So]. destruct Hk as [Kt Kn Kh Kheap].
  eapply (inv_move hooks s id p _ e e'); eauto; [rewrite Kh; apply Hi|].
  intros _. cbn. apply (proc_scan e); auto. by rewrite Sa.
Qed.

(** A change from outside that no goroutine's list depends on. *)
Lemma inv_outside s m' log id calls :
  manager_inv hooks s -> keeps (sy_mgr s) m' -> log = sy_log s ++ tag id calls ->
  (calls = [] \/ exists p, sy_procs s !! id = Some p) ->
  Forall (fun c => forall ph, phase_step ph c = ph) calls ->
  manager_inv hooks (MkSys m' (sy_procs s) log).
Proof.
  intros [Ihk Ifr Iq Ie Iow Iod] [Kt Kn Kh Kheap] -> Hid Hc. split; cbn [sy_mgr sy_procs sy_log].
  - congruence.
  - rewrite Kn. done.
  - intros j c. rewrite Kn. intros [Hj|Hj]%elem_of_app; [by apply Iq in Hj|].
    unfold tag in Hj. apply list_elem_of_fmap in Hj as (c' & [= -> ->] & Hc').
    destruct Hid as [-> |[p Hp]]; [by apply elem_of_nil in Hc'|]. by apply Ifr in Hp.
  - intros j q Hj. destruct (Ie j q Hj) as (e & He & Hn & Hok & Hpo).
    pose proof (Kheap j) as K. rewrite He in K. inversion K as [? e' [Ha Hb Hd] Heq1 Heq2|]; subst.
    exists e'. split_and!; auto; [congruence|]. rewrite phase_of_tag.
    assert (Hsame : (if (id =? j)%nat then phase_after (phase_of j (sy_log s)) calls else phase_of j (sy_log s))
              = phase_of j (sy_log s)).
    { destruct (id =? j)%nat; [|done]. by apply phase_after_mute. }
    rewrite Hsame. by eapply proc_ok_same.
  - rewrite Kt. done.
  - rewrite Kt. done.
Qed.

Lemma calls_of_fresh id log : (forall c, ~ (id, c) ∈ log) -> calls_of id log = [].
Proof.
  intros H. unfold calls_of. assert (List.filter (fun ic => (fst ic =? id)%nat) log = []) as ->; [|done].
  apply elem_of_nil_inv. intros [i c] Hin. apply list_elem_of_In, filter_In in Hin as [Hin Hi].
  apply Nat.eqb_eq in Hi. cbn in Hi. subst. apply (H c). by apply list_elem_of_In.
Qed.

Lemma connect_inv s binary name content id m' :
  manager_inv hooks s -> connect_reserve (sy_mgr s) binary name content = Ok (id, m') ->
  manager_inv hooks (move s id (MkProc name pcReserved [] scanIdle []) m' []).
Proof.
  intros [Ihk Ifr Iq Ie Iow Iod]. unfold connect_reserve. destruct (ValidateTunnelName name); [done|].
  destruct (inspectProfile content) as [prof|]; [|done]. destruct (negb binary); [done|].
  destruct (bool_decide (is_Some (m_tunnels (sy_mgr s) !! name))) eqn:Ef; [done|]. intros [= <- <-].
  apply bool_decide_eq_false in Ef. rewrite <- eq_None_not_Some in Ef.
  set (id := m_next (sy_mgr s)).
  assert (Hnew : sy_procs s !! id = None).
  { destruct (sy_procs s !! id) as [p|] eqn:E; [|done]. apply Ifr in E. unfold id in E. lia. }
  split; cbn -[phase_of]; rewrite ?app_nil_r.
  - done.
  - intros j q Hj. destruct (decide (j = id)) as [->|Hne]; [unfold id; lia|].
    rewrite lookup_insert_ne in Hj by done. apply Ifr in Hj. lia.
  - intros j c Hj. apply Iq in Hj. lia.
  - intros j q Hj. destruct (decide (j = id)) as [->|Hne].
    + rewrite lookup_insert_eq in Hj. injection Hj as <-. exists (newEntry name prof).
      rewrite lookup_insert_eq. split; [done|]. split; [done|]. split; [done|].
      unfold phase_of. rewrite calls_of_fresh.
      * unfold proc_ok, scan_ok. cbn. split_and!; done.
      * intros c Hin. apply Iq in Hin. unfold id in Hin. lia.
    + rewrite lookup_insert_ne in Hj by done. rewrite lookup_insert_ne by done. by apply Ie.
  - intros j q Hj Hf. destruct (decide (j = id)) as [->|Hne].
    + rewrite lookup_insert_eq in Hj. injection Hj as <-. cbn. by rewrite lookup_insert_eq.
    + rewrite lookup_insert_ne in Hj by done. pose proof (Iow j q Hj Hf) as Hq.
      rewrite lookup_insert_ne; [done|]. congruence.
  - intros n j Hj. destruct (decide (n = name)) as [->|Hne].
    + rewrite lookup_insert_eq in Hj. injection Hj as <-. eexists. rewrite lookup_insert_eq. by split_and!.
    + rewrite lookup_insert_ne in Hj by done. destruct (Iod n j Hj) as (q & Hq & H). exists q.
      rewrite lookup_insert_ne; [done|]. intros <-. congruence.
Qed.

Lemma act_inv s a s' : manager_inv hooks s -> act s a = Some s' -> manager_inv hooks s'.
Proof.
  intros Hi. destruct a as [binary name content|id ra|id an|id sa|id an|id r|name user ok|id ok]; cbn [act].
  - destruct (connect_reserve _ _ _ _) as [[id m']|] eqn:E; intros [= <-]. by eapply connect_inv.
  - destruct (sy_procs s !! id) as [p|] eqn:Hp; [|done]. destruct (pr_todo p) eqn:Ht; [|done].
    destruct (reader_act _ _ _ _) as [[[[pc todo] m'] calls]|] eqn:E; intros [= <-]. by eapply reader_inv.
  - destruct (sy_procs s !! id) as [p|] eqn:Hp; [|done]. destruct (pr_todo p) as [|t rest] eqn:Ht; [done|].
    destruct (exec_todo _ _ _ _ _) as [[new m'] calls] eqn:E. intros [= <-].
    destruct (exec_todo_keeps _ _ _ _ _ _ _ _ E) as (Hk & Hm & Hc).
    eapply (inv_move_keeps _ s id p); eauto; try done. intros e e' Ha Hpo. eapply proc_todo; eauto.
    intros Hpl. by eapply exec_plain.
  - destruct (sy_procs s !! id) as [p|] eqn:Hp; [|done]. destruct (pr_stodo p) eqn:Ht; [|done].
    destruct (scan_act _ _ _ _) as [[[sc todo] m']|] eqn:E; intros [= <-]. by eapply scan_inv.
  - destruct (sy_procs s !! id) as [p|] eqn:Hp; [|done]. destruct (pr_stodo p) as [|t rest] eqn:Ht; [done|].
    destruct (exec_todo _ _ _ _ _) as [[new m'] calls] eqn:E. intros [= <-].
    destruct (exec_todo_keeps _ _ _ _ _ _ _ _ E) as (Hk & Hm & Hc).
    eapply (inv_move_keeps _ s id p); eauto; try done. intros e e' Ha Hpo. by eapply proc_stodo.
  - unfold feed. destruct (m_heap (sy_mgr s) !! id) as [e|] eqn:He; [|done].
    destruct (e_authCh e); intros [= <-]. apply (inv_outside s _ _ id []); auto.
    + eapply keeps_put; [done|]. by split.
    + by rewrite app_nil_r.
  - destruct (find (sy_mgr s) name) as [[id e]|] eqn:Ef; [|done].
    destruct (stop _ _ _ _) as [[calls m']|] eqn:E; intros [= <-]. apply keeps_stop in E as [Hk Hc].
    apply (inv_outside s _ _ id calls); auto. right. apply find_heap in Ef as [_ Ht].
    destruct (inv_owned _ _ Hi name id Ht) as (p & Hp & _). by exists p.
  - intros [= <-]. apply (inv_outside s _ _ id []); auto; [|by rewrite app_nil_r].
    apply keeps_modify. intros e. by destruct (e_mgmt e).
Qed.

Lemma sys_reachable_inv s : reachable hooks s -> manager_inv hooks s.
Proof.
  induction 1 as [|s a s' _ IH Ha]; [|by eapply act_inv].
  split; try done; cbn; intros *; rewrite ?lookup_empty; try done. by intros ?%elem_of_nil.
Qed.
End Callbacks.

(** ** Properties *)

Lemma future_broken todo : future Broken todo = Broken.
Proof.
  induction todo as [|t todo IH]; [done|]. cbn. destruct t as [[]| | | | | | | | | |]; cbn; try done.
  by destruct active.
Qed.

Lemma proc_not_broken e p ph : proc_ok e p ph -> ph <> Broken.
Proof.
  intros Hp ->. unfold proc_ok in Hp. rewrite future_broken in Hp. unfold rest_phase in Hp.
  destruct (pr_pc p); try destruct died; destruct (e_active e); intuition congruence.
Qed.

Definition callbacks_set (hooks : Hooks) : Prop :=
  hk_onActiveChange hooks = true /\ hk_onDying hooks = true /\ hk_onDied hooks = true.

(** C9: what the helper is told of a tunnel refines the lifecycle it relies on, in every
    interleaving of the management loop, the output scanner, cleanup and the callers: a tunnel is
    announced active (perhaps several times), then either released once, or announced dying and
    last reported dead; nothing is reported out of that order, and a tunnel whose goroutines have
    finished is never left announced or dying. *)
Theorem callbacks_follow_lifecycle (hooks : Hooks) (s : Sys) (id : nat) (p : Proc) :
  callbacks_set hooks -> reachable hooks s -> sy_procs s !! id = Some p ->
  phase_of id (sy_log s) <> Broken
  /\ (pr_pc p = pcFinished -> pr_todo p = [] -> phase_of id (sy_log s) = Quiet).
Proof.
  intros (H1 & H2 & H3) Hr Hp. apply sys_reachable_inv in Hr; [|done..].
  destruct (inv_entry _ _ Hr id p Hp) as (e & He & Hn & Hok & Hpo).
  split; [by eapply proc_not_broken|]. intros Hf Ht. unfold proc_ok in Hpo. rewrite Hf, Ht in Hpo.
  by destruct Hpo as (_ & _ & ? & _).
Qed.

(** openvpn has been launched and not been reaped. *)
Definition openvpn_runs (pc : Pc) : bool :=
  match pc with pcLaunched | pcAttaching | pcReading | pcPrompt _ | pcEnding => true | _ => false end.

(** What is left of cleanup changes no entry but its own. *)
Lemma closing_step a m name id t new m' calls :
  closing t -> exec_todo a m name id t = (new, m', calls) ->
  m_tunnels m' = m_tunnels m /\ (forall j, j <> id -> m_heap m' !! j = m_heap m !! j) /\ new = [].
Proof.
  intros Hc. destruct t; cbn in Hc; try done; cbn [exec_todo]; intros [= <- <- <-]; (split; [|split]); try done.
  all: unfold modify_at; destruct (m_heap m !! id); [|done]; unfold put; cbn; try done.
  all: intros j Hj; by rewrite lookup_insert_ne.
Qed.

(** C17: Entries have one owner.  In every interleaving the table maps a name to the entry of the one goroutine under
    that name that has not removed it yet, from Connect's reservation to cleanup's removal: every lookup by name
    inside that goroutine finds its own entry, and at most one openvpn process runs under a name.  A goroutine
    whose entry is gone has only the calls of cleanup left (management, DNS, files, final status, onDied), which
    change neither the table nor any other entry; they do go out under the name, possibly while a later
    Connect owns it ([teardown_removes_new_files]). *)
Theorem entries_owned (hooks : Hooks) (s : Sys) :
  callbacks_set hooks -> reachable hooks s ->
  (forall id name, m_tunnels (sy_mgr s) !! name = Some id <->
     exists p, sy_procs s !! id = Some p /\ pr_name p = name /\ pr_pc p <> pcFinished)
  /\ (forall id1 id2 p1 p2, sy_procs s !! id1 = Some p1 -> sy_procs s !! id2 = Some p2 -> pr_name p1 = pr_name p2 ->
       openvpn_runs (pr_pc p1) = true -> openvpn_runs (pr_pc p2) = true -> id1 = id2)
  /\ (forall id p, sy_procs s !! id = Some p -> pr_pc p = pcFinished ->
       Forall closing (pr_todo p) /\ pr_stodo p = []
       /\ forall a s', act s (aReaderTodo id a) = Some s' ->
            m_tunnels (sy_mgr s') = m_tunnels (sy_mgr s)
            /\ forall j, j <> id -> m_heap (sy_mgr s') !! j = m_heap (sy_mgr s) !! j).
Proof.
  intros (H1 & H2 & H3) Hr. apply sys_reachable_inv in Hr; [|done..]. split_and!.
  - intros id name. split; [apply (inv_owned _ _ Hr)|]. intros (p & Hp & <- & Hf). by apply (inv_owns _ _ Hr).
  - intros id1 id2 p1 p2 Hp1 Hp2 Hn Ho1 Ho2.
    assert (m_tunnels (sy_mgr s) !! pr_name p1 = Some id1) as E1 by (apply (inv_owns _ _ Hr); [done|intros E; by rewrite E in Ho1]).
    assert (m_tunnels (sy_mgr s) !! pr_name p2 = Some id2) as E2 by (apply (inv_owns _ _ Hr); [done|intros E; by rewrite E in Ho2]).
    congruence.
  - intros id p Hp Hf. destruct (inv_entry _ _ Hr id p Hp) as (e & _ & _ & _ & Hok). unfold proc_ok in Hok. rewrite Hf in Hok.
    destruct Hok as (Hs & Hc & _). split; [done|]. split; [done|]. intros a s' Ha. cbn [act] in Ha. rewrite Hp in Ha.
    destruct (pr_todo p) as [|t rest]; [done|]. apply Forall_cons in Hc as [Hc _].
    destruct (exec_todo a (sy_mgr s) (pr_name p) id t) as [[new m'] calls] eqn:E. injection Ha as <-.
    by destruct (closing_step _ _ _ _ _ _ _ _ Hc E) as (? & ? & _).
Qed.

(** The death announcement of cleanup, about to be made. *)
Definition about_to_announce (s : Sys) (id : nat) (p : Proc) (name : string) : Prop :=
  sy_procs s !! id = Some p /\ exists rest, pr_todo p = TCall (KDying name) :: rest.

(** When onDying is called the tunnel is still listed and active. *)
Lemma dying_still_active hooks s id p name :
  callbacks_set hooks -> reachable hooks s -> about_to_announce s id p name ->
  name = pr_name p /\ pr_pc p = pcRemoving true /\ m_tunnels (sy_mgr s) !! name = Some id
  /\ exists e, m_heap (sy_mgr s) !! id = Some e /\ e_active e = true.
Proof.
  intros (H1 & H2 & H3) Hr [Hp [rest Ht]]. apply sys_reachable_inv in Hr; [|done..].
  destruct (inv_entry _ _ Hr id p Hp) as (e & He & Hn & Hok & Hpo).
  assert (Hbad : before_cleanup (pr_pc p) = false).
  { destruct (before_cleanup (pr_pc p)) eqn:E; [|done]. apply proc_ok_stage in Hpo as (Hb & _); [|done].
    rewrite Ht in Hb. apply Forall_cons in Hb as [Hb _]. by specialize (Hb Quiet). }
  unfold proc_ok in Hpo. destruct (pr_pc p) as [| | | | | | | | |died|] eqn:Epc; try done.
  - destruct Hpo as (_ & _ & [Ht'|Ht'] & Hd & Hf); rewrite Ht in *; [done|]. injection Ht' as -> ->.
    destruct died; [|by unfold rest_phase in Hf; cbn in Hf; destruct (phase_of id (sy_log s)), (e_active e)].
    split; [done|]. split; [done|]. split; [|by exists e; auto].
    apply (inv_owns _ _ Hr); [done|by rewrite Epc].
  - destruct Hpo as (_ & Hc & _). rewrite Ht in Hc. apply Forall_cons in Hc as [[] _].
Qed.

(** The state shown for a tunnel agrees with its entry in every reachable state: it is shown
    connected only while it counts as active (so its end is always reported), a recorded error is
    shown as the error state until the tunnel connects or new credentials are given, and every
    status carries the entry's name and the OpenVPN protocol. *)
Theorem status_agrees (hooks : Hooks) (s : Sys) (name : string) (st : ConnectionStatus) :
  callbacks_set hooks -> reachable hooks s -> GetStatus (sy_mgr s) name = Some st ->
  cs_TunnelName st = name /\ cs_Protocol st = ProtocolOpenVPN /\
  exists id e, find (sy_mgr s) name = Some (id, e) /\ st = e_status e /\
    (cs_State st = StateConnected -> e_active e = true /\ e_errMsg e = "") /\
    (e_errMsg e <> "" -> cs_State st = StateError).
Proof.
  intros (H1 & H2 & H3) Hr. apply sys_reachable_inv in Hr; [|done..]. unfold GetStatus.
  destruct (find (sy_mgr s) name) as [[id e]|] eqn:Ef; intros [= <-].
  pose proof (find_heap _ _ _ _ Ef) as [He Ht].
  destruct (inv_owned _ _ Hr name id Ht) as (p & Hp & Hpn & _).
  destruct (inv_entry _ _ Hr id p Hp) as (e0 & E0 & Hn & (O1 & O2 & O3) & _). simplify_eq.
  split; [congruence|]. split; [done|]. exists id, e. split_and!; auto.
  intros Hc. split; [auto|]. destruct (decide (e_errMsg e = "")) as [|Hne]; [done|].
  specialize (O2 Hne). congruence.
Qed.

(** ** A run *)

Definition all_hooks : Hooks := MkHooks true true true true true true.

Definition work_profile : string :=
  "client" +:+ nl +:+ "dev tun" +:+ nl +:+ "remote 192.0.2.1 1194" +:+ nl.

Definition yes : Answer := MkAnswer true true "".

(** Connected, then its openvpn dies. *)
Definition death_run : list Action :=
  [aConnect true "work" work_profile; aReader 0 raWritten; aReader 0 (raResolved "192.0.2.1:1194" "udp");
   aReader 0 raLaunched; aReader 0 raStarted; aReaderTodo 0 yes; aReader 0 (raAttached true true);
   aReader 0 (raEvent 1 true (evState "CONNECTED" "10.8.0.2" "192.0.2.1:1194"));
   aReaderTodo 0 yes; aReaderTodo 0 yes;
   aScan 0 (saEvent (scInterface "utun4")); aScanTodo 0 yes; aScanTodo 0 yes;
   aReader 0 raLoopEnds; aReader 0 raReap; aScan 0 saEnds; aReader 0 raCleanup].

(** Disconnected by the user; the removed entry's files are still there when Connect is called
    again. *)
Definition reconnect_run : list Action :=
  take 13 death_run ++
  [aStop "work" true true; aReader 0 raLoopEnds; aReader 0 raReap; aScan 0 saEnds; aReader 0 raCleanup;
   aReader 0 raRemove; aReaderTodo 0 yes; aReaderTodo 0 yes;
   aConnect true "work" work_profile; aReader 1 raWritten; aReader 1 (raResolved "192.0.2.1:1194" "udp");
   aReader 1 raLaunched; aReader 1 raStarted; aReaderTodo 0 yes].

Lemma run_reachable hooks s l s' : reachable hooks s -> run_actions s l = Some s' -> reachable hooks s'.
Proof.
  revert s. induction l as [|a l IH]; intros s Hr; cbn; [by intros [= <-]|].
  destruct (act s a) as [s1|] eqn:E; [|done]. apply IH. by eapply reach_step.
Qed.

Definition run_from_start (l : list Action) : Sys :=
  default (start_sys all_hooks) (run_actions (start_sys all_hooks) l).

Lemma run_start_reachable l : is_Some (run_actions (start_sys all_hooks) l) -> reachable all_hooks (run_from_start l).
Proof.
  intros [s Hs]. unfold run_from_start. rewrite Hs. eapply run_reachable; [apply reach_start|exact Hs].
Qed.

Definition is_some {A} (o : option A) : bool := match o with Some _ => true | None => false end.

Lemma is_some_true {A} (o : option A) : is_some o = true -> is_Some o.
Proof. by destruct o. Qed.

Lemma callbacks_follow_lifecycle_witness :
  exists p, sy_procs (run_from_start death_run) !! 0 = Some p /\
    (phase_of 0 (sy_log (run_from_start death_run)) <> Broken
     /\ (pr_pc p = pcFinished -> pr_todo p = [] -> phase_of 0 (sy_log (run_from_start death_run)) = Quiet)).
Proof.
  exists (MkProc "work" (pcRemoving true) [TCall (KDying "work")] scanEnded []).
  assert (H : sy_procs (run_from_start death_run) !! 0
              = Some (MkProc "work" (pcRemoving true) [TCall (KDying "work")] scanEnded []))
    by (vm_compute; reflexivity).
  split; [exact H|].
  refine (callbacks_follow_lifecycle all_hooks _ 0 _ (conj eq_refl (conj eq_refl eq_refl)) _ H).
  apply run_start_reachable, is_some_true. vm_compute. reflexivity.
Defined.

Lemma reconnect_run_ok : is_some (run_actions (start_sys all_hooks) reconnect_run) = true.
Proof. vm_compute. reflexivity. Qed.

(** The old goroutine is still tearing down while the new one attaches. *)
Lemma entries_owned_witness :
  m_tunnels (sy_mgr (run_from_start reconnect_run)) !! "work" = Some 1%nat
  /\ exists p, sy_procs (run_from_start reconnect_run) !! 0%nat = Some p /\ pr_todo p <> [] /\ Forall closing (pr_todo p).
Proof.
  assert (reachable all_hooks (run_from_start reconnect_run)) as Hr by (apply run_start_reachable, is_some_true, reconnect_run_ok).
  destruct (entries_owned all_hooks _ (conj eq_refl (conj eq_refl eq_refl)) Hr) as (Hown & _ & Hf). split.
  - apply Hown. exists (MkProc "work" pcAttaching [TEmit] scanRunning []).
    split; [vm_compute; reflexivity|]. split; [reflexivity|discriminate].
  - destruct (sy_procs (run_from_start reconnect_run) !! 0%nat) as [p|] eqn:Ep;
      [|exfalso; apply (f_equal is_some) in Ep; vm_compute in Ep; discriminate Ep].
    assert (H : match sy_procs (run_from_start reconnect_run) !! 0%nat with
                | Some p => bool_decide (pr_pc p = pcFinished) && negb (bool_decide (length (pr_todo p) = 0%nat)) | None => false end = true)
      by (vm_compute; reflexivity).
    rewrite Ep in H. apply andb_prop in H as [Hpc Htodo]. apply bool_decide_eq_true in Hpc.
    apply negb_true_iff, bool_decide_eq_false in Htodo. exists p. split; [reflexivity|].
    split; [intros E; apply Htodo; rewrite E; reflexivity|]. exact (proj1 (Hf 0%nat p Ep Hpc)).
Defined.

Lemma status_agrees_witness :
  exists st, GetStatus (sy_mgr (run_from_start death_run)) "work" = Some st /\ cs_TunnelName st = "work".
Proof.
  destruct (GetStatus (sy_mgr (run_from_start death_run)) "work") as [st|] eqn:E.
  - exists st. split; [reflexivity|].
    refine (proj1 (status_agrees all_hooks (run_from_start death_run) "work" st
                     (conj eq_refl (conj eq_refl eq_refl)) _ E)).
    apply run_start_reachable, is_some_true. vm_compute. reflexivity.
  - exfalso. apply (f_equal is_some) in E. vm_compute in E. discriminate E.
Defined.

(** Connect does not refuse a tunnel that is still tearing down: cleanup takes the entry out of
    the table before it removes the runtime files, so a Connect in between succeeds, and the files
    of the openvpn it has just launched are then removed by the old tunnel's cleanup. *)
Theorem teardown_removes_new_files :
  reachable all_hooks (run_from_start reconnect_run)
  /\ m_tunnels (sy_mgr (run_from_start reconnect_run)) !! "work" = Some 1%nat
  /\ (1%nat, KStart "work") ∈ sy_log (run_from_start reconnect_run)
  /\ last (sy_log (run_from_start reconnect_run)) = Some (0%nat, KRemoveFiles "work").
Proof.
  split; [|split; [|split]].
  - apply run_start_reachable, is_some_true, reconnect_run_ok.
  - vm_compute. reflexivity.
  - assert (H : existsb (fun '(i, c) => match c with KStart n => (i =? 1)%nat && (n =s "work") | _ => false end)
                  (sy_log (run_from_start reconnect_run)) = true) by (vm_compute; reflexivity).
    apply existsb_true_iff in H as ([i c] & Hin & Hc). destruct c; try done. bool_hyps.
    match goal with H : (_ =? _)%nat = true |- _ => apply Nat.eqb_eq in H end. by subst.
  - vm_compute. reflexivity.
Qed.

(** ** Credentials *)

(** The SCRV1 answer is unambiguous: its three colon-separated fields are the tag and the
    base64 of the password and of the response, whatever bytes these hold. *)
Theorem combineStaticChallenge_fields (ch : AuthChallenge) (password response : string) :
  ch_Concat ch = false ->
  match split_byte ":" (combineStaticChallenge ch password response) with
  | [tag; p; r] => tag = "SCRV1" /\ (of_byte_vals <$> b64_decode p) = Some password
                   /\ (of_byte_vals <$> b64_decode r) = Some response
  | _ => False
  end.
Proof.
  intros Hc. unfold combineStaticChallenge. rewrite Hc.
  change ("SCRV1:" +:+ b64_encode password +:+ ":" +:+ b64_encode response)
    with ("SCRV1" +:+ String ":" (b64_encode password +:+ String ":" (b64_encode response))).
  rewrite split_byte_app, split_byte_app, split_byte_no by (try done; apply b64_encode_no_colon).
  rewrite !b64_roundtrip. cbn [option_fmap fmap option_map]. by rewrite !of_byte_vals_bytes.
Qed.

Lemma combineStaticChallenge_fields_witness :
  match split_byte ":" (combineStaticChallenge (MkChallenge ChallengeStatic "PIN" false "" false "") "a:b" "1:2") with
  | [tag; p; r] => tag = "SCRV1" /\ (of_byte_vals <$> b64_decode p) = Some "a:b"
                   /\ (of_byte_vals <$> b64_decode r) = Some "1:2"
  | _ => False
  end.
Proof.
  exact (combineStaticChallenge_fields (MkChallenge ChallengeStatic "PIN" false "" false "") "a:b" "1:2" eq_refl).
Defined.

(** The reply that answers a prompt is one fed after the prompt was shown. *)
Lemma prompt_drains m name id sc challenge rest m1 a :
  prompt_begin m name id sc = (challenge, TEmit :: TDrain :: rest, m1) ->
  match exec_todo a m1 name id TDrain with
  | (_, m2, _) => forall e, m_heap m2 !! id = Some e -> e_authCh e = None
  end.
Proof.
  intros _. cbn. unfold modify_at. destruct (m_heap m1 !! id) as [e1|] eqn:E.
  - intros e. unfold put. cbn. rewrite lookup_insert_eq. by intros [= <-].
  - intros e. by rewrite E.
Qed.
