(* ===== verification/OvpnHelper.v ===== *)
(** * The OpenVPN manager under the helper

    The helper's theorems are about any [ovpnBackend]; here the backend is the manager of
    OvpnManagerSys.v in a reachable state.  It satisfies the helper's laws ([backend_lawful]), the kill
    switch sees exactly its live entries ([ovpn_live_exact]), and an OpenVPN tunnel's
    death leaves no moment without the kill switch ([ovpn_death_no_gap]). *)

From S2P Require Import Prelude GoStrings GoNet Domain OvpnProfile TunnelManager Firewall HelperFirewall HelperOps HelperFacts HelperOpsFacts HelperRequests OvpnMgmt OvpnManager OvpnManagerSys OvpnManagerFacts.

#[local] Set Warnings "-clear-no-such-hyp".

Section Reachable.
Context (hooks : Hooks) (Hset : callbacks_set hooks) (s : Sys) (Hr : reachable hooks s).

Lemma manager_invariant : manager_inv hooks s.
Proof. destruct Hset as (H1 & H2 & H3). by apply sys_reachable_inv. Qed.

(** The entries the queries range over. *)
Lemma elem_of_entries name e :
  (name, e) ∈ OvpnManager.entries_of (sy_mgr s) <-> exists id, find (sy_mgr s) name = Some (id, e).
Proof.
  unfold OvpnManager.entries_of. rewrite list_elem_of_omap. split.
  - intros ([n id] & Hin%elem_of_map_to_list & Hm). destruct (m_heap (sy_mgr s) !! id) as [e0|] eqn:E; [|done].
    injection Hm as -> ->. exists id. by apply find_own.
  - intros [id Hf]. apply find_heap in Hf as [He Ht]. exists (name, id). split; [by apply elem_of_map_to_list|].
    by rewrite He.
Qed.

Lemma entry_name name e : (name, e) ∈ OvpnManager.entries_of (sy_mgr s) -> cs_TunnelName (e_status e) = name.
Proof.
  rewrite elem_of_entries. intros [id Hf]. apply find_heap in Hf as [He Ht].
  destruct (inv_owned _ _ manager_invariant name id Ht) as (p & Hp & Hpn & _).
  destruct (inv_entry _ _ manager_invariant id p Hp) as (e0 & E0 & Hn & _). simplify_eq. congruence.
Qed.

Lemma listed name e : (name, e) ∈ OvpnManager.entries_of (sy_mgr s) -> name ∈ ActiveTunnelNames (sy_mgr s).
Proof.
  rewrite elem_of_entries. intros [id Hf]. apply find_heap in Hf as [_ Ht]. unfold ActiveTunnelNames.
  apply list_elem_of_fmap. exists (name, id). split; [done|]. by apply elem_of_map_to_list.
Qed.

Lemma elem_of_remotes r :
  r ∈ ActiveRemotes (sy_mgr s) <->
  exists name e, (name, e) ∈ OvpnManager.entries_of (sy_mgr s) /\ remote_of_entry (name, e) = Some r.
Proof.
  unfold ActiveRemotes. rewrite list_elem_of_omap. split.
  - intros ([name e] & Hin & Hm). by exists name, e.
  - intros (name & e & Hin & Hm). by exists (name, e).
Qed.

Lemma remote_of_entry_Some name e r :
  remote_of_entry (name, e) = Some r <->
  e_active e = true /\ e_remoteAddr e <> "" /\ cs_InterfaceName (e_status e) <> ""
  /\ r = MkRemoteEndpoint name (cs_InterfaceName (e_status e)) (e_remoteProto e) (e_remoteAddr e).
Proof.
  unfold remote_of_entry. destruct (e_active e); cbn [negb orb]; [|split; [done|by intros (? & _)]].
  destruct (bool_decide_reflect (e_remoteAddr e = "")); cbn [orb]; [split; [done|by intros (_ & ? & _)]|].
  destruct (bool_decide_reflect (cs_InterfaceName (e_status e) = "")); [split; [done|by intros (_ & _ & ? & _)]|].
  split; [by intros [= <-]|by intros (_ & _ & _ & ->)].
Qed.

Lemma backend_laws : BackendLaws (backend (sy_mgr s)).
Proof.
  split; cbn.
  - intros r (name & e & Hin & Hm)%elem_of_remotes. apply remote_of_entry_Some in Hm as (_ & _ & _ & ->).
    cbn. by eapply listed.
  - intros st. unfold AllStatuses. intros ([name e] & -> & Hin)%list_elem_of_fmap.
    rewrite (entry_name name e Hin). by eapply listed.
Qed.

Lemma status_map_fold sts : forall (m : gmap string ConnectionStatus) name,
  (forall st, foldl (fun m st => <[cs_TunnelName st := st]> m) m sts !! name = Some st ->
     (st ∈ sts /\ cs_TunnelName st = name) \/ m !! name = Some st)
  /\ (is_Some (m !! name) \/ (exists st, st ∈ sts /\ cs_TunnelName st = name) ->
      is_Some (foldl (fun m st => <[cs_TunnelName st := st]> m) m sts !! name)).
Proof.
  induction sts as [|a sts IH]; intros m name; cbn [foldl].
  { split; [by right|]. intros [?|(st & Hin%elem_of_nil & _)]; done. }
  destruct (IH (<[cs_TunnelName a := a]> m) name) as [IH1 IH2]. split.
  - intros st [[Hin Hn]|Hm]%IH1; [left; split; [by right|done]|].
    destruct (decide (cs_TunnelName a = name)) as [E|E].
    + rewrite E, lookup_insert_eq in Hm. injection Hm as ->. left. split; [by left|done].
    + rewrite lookup_insert_ne in Hm by done. by right.
  - intros H. apply IH2. destruct (decide (cs_TunnelName a = name)) as [E|E].
    + left. rewrite E, lookup_insert_eq. by eexists.
    + rewrite lookup_insert_ne by done. destruct H as [?|(st & [->|?]%elem_of_cons & Hn)]; [by left|done|].
      right. by exists st.
Qed.

Lemma status_map_entries name st :
  status_map (AllStatuses (sy_mgr s)) !! name = Some st <->
  exists e, (name, e) ∈ OvpnManager.entries_of (sy_mgr s) /\ st = e_status e.
Proof.
  destruct (status_map_fold (AllStatuses (sy_mgr s)) ∅ name) as [H1 H2].
  assert (Hto : forall st, status_map (AllStatuses (sy_mgr s)) !! name = Some st ->
            exists e, (name, e) ∈ OvpnManager.entries_of (sy_mgr s) /\ st = e_status e).
  { intros st0 [[Hin Hn]|Hm]%H1; [|by rewrite lookup_empty in Hm].
    unfold AllStatuses in Hin. apply list_elem_of_fmap in Hin as ([n e] & -> & Hin).
    pose proof (entry_name n e Hin) as Hn'. exists e. split; [|done]. congruence. }
  split; [apply Hto|]. intros (e & Hin & ->).
  assert (Hs : is_Some (status_map (AllStatuses (sy_mgr s)) !! name)).
  { apply H2. right. exists (e_status e). split; [|by apply entry_name].
    unfold AllStatuses. apply list_elem_of_fmap. by exists (name, e). }
  destruct Hs as [st0 Hs]. rewrite Hs. f_equal. apply Hto in Hs as (e0 & Hin0 & ->).
  apply elem_of_entries in Hin as [i Hf]. apply elem_of_entries in Hin0 as [i0 Hf0]. congruence.
Qed.

Lemma elem_of_remoteless name st :
  (name, st) ∈ remoteless_live (backend (sy_mgr s)) <->
  status_map (AllStatuses (sy_mgr s)) !! name = Some st /\ cs_State st = StateConnected
  /\ cs_InterfaceName st <> "" /\ ~ name ∈ re_TunnelName <$> ActiveRemotes (sy_mgr s).
Proof.
  unfold remoteless_live. rewrite list_elem_of_omap. cbn [backend ob_AllStatuses ob_ActiveRemotes].
  unfold remoteless, mem. split.
  - intros (n & Hin & Hm). repeat step_in Hm; simplify_eq. apply negb_true_iff in E0.
    bool_hyps. by split_and!.
  - intros (Hm & Hc & Hi & Hn). exists name. split; [apply elem_of_sorted_keys; by exists st|]. rewrite Hm.
    rewrite (bool_decide_eq_false_2 _ Hn), (bool_decide_eq_true_2 _ Hc), (bool_decide_eq_false_2 _ Hi). done.
Qed.

(** An entry the kill switch counts as a live tunnel. *)
Definition counts_live (e : entry) : Prop :=
  cs_InterfaceName (e_status e) <> "" /\ e_active e = true /\
  (e_remoteAddr e <> "" \/ cs_State (e_status e) = StateConnected).

Lemma remote_names name :
  name ∈ re_TunnelName <$> ActiveRemotes (sy_mgr s) <->
  exists e, (name, e) ∈ OvpnManager.entries_of (sy_mgr s) /\ e_active e = true
    /\ e_remoteAddr e <> "" /\ cs_InterfaceName (e_status e) <> "".
Proof.
  rewrite list_elem_of_fmap. split.
  - intros (r & -> & (n & e & Hin & Hm)%elem_of_remotes). apply remote_of_entry_Some in Hm as (H1 & H2 & H3 & ->).
    by exists e.
  - intros (e & Hin & H1 & H2 & H3).
    exists (MkRemoteEndpoint name (cs_InterfaceName (e_status e)) (e_remoteProto e) (e_remoteAddr e)).
    split; [done|]. apply elem_of_remotes. exists name, e. split; [done|]. by apply remote_of_entry_Some.
Qed.

Lemma live_names_split name :
  name ∈ (ovpn_live (backend (sy_mgr s))).*1 <->
  name ∈ re_TunnelName <$> ActiveRemotes (sy_mgr s)
  \/ exists st, (name, st) ∈ remoteless_live (backend (sy_mgr s)).
Proof.
  unfold ovpn_live, remote_live. rewrite fmap_app, elem_of_app, <- !list_fmap_compose.
  apply or_iff_compat_l. rewrite list_elem_of_fmap. split.
  - intros ([n st] & -> & Hin). by exists st.
  - intros [st Hin]. by exists (name, st).
Qed.

Lemma connected_active name e :
  (name, e) ∈ OvpnManager.entries_of (sy_mgr s) -> cs_State (e_status e) = StateConnected -> e_active e = true.
Proof.
  rewrite elem_of_entries. intros [id Hf]. apply find_heap in Hf as [He Ht].
  destruct (inv_owned _ _ manager_invariant name id Ht) as (p & Hp & _).
  destruct (inv_entry _ _ manager_invariant id p Hp) as (e0 & E0 & _ & (Ho & _) & _). by simplify_eq.
Qed.

Lemma live_entries name :
  name ∈ (ovpn_live (backend (sy_mgr s))).*1 <->
  exists e, (name, e) ∈ OvpnManager.entries_of (sy_mgr s) /\ counts_live e.
Proof.
  rewrite live_names_split. unfold counts_live. split.
  - intros [(e & Hin & H1 & H2 & H3)%remote_names|(st & (Hm & Hc & Hi & _)%elem_of_remoteless)].
    + exists e. auto.
    + apply status_map_entries in Hm as (e & Hin & ->). exists e. pose proof (connected_active name e Hin Hc). auto.
  - intros (e & Hin & Hi & Ha & Hor). destruct (decide (name ∈ re_TunnelName <$> ActiveRemotes (sy_mgr s))) as [|Hn];
      [by left|right]. exists (e_status e). apply elem_of_remoteless.
    destruct Hor as [Hrem|]; [destruct Hn; apply remote_names; by exists e|].
    split; [|done]. apply status_map_entries. by exists e.
Qed.
End Reachable.

(** The manager implements the interface the helper's shutdown is proved against, in every reachable state: it
    reports remotes and statuses only of tunnels it lists. *)
Theorem backend_lawful (hooks : Hooks) (s : Sys) (wg : TunnelManager.Manager) :
  callbacks_set hooks -> reachable hooks s -> tunnels wg !! "" = None ->
  lawful (MkView wg (Some (backend (sy_mgr s)))).
Proof. intros Hset Hr Hw. split; [done|]. intros o [= <-]. by eapply backend_laws. Qed.

Lemma callbacks_all : callbacks_set all_hooks.
Proof. by split_and!. Qed.

Lemma death_reachable : reachable all_hooks (run_from_start death_run).
Proof. apply run_start_reachable, is_some_true. vm_compute. reflexivity. Qed.

Lemma backend_lawful_witness :
  lawful (MkView TunnelManager.NewManager (Some (backend (sy_mgr (run_from_start death_run))))).
Proof.
  exact (backend_lawful all_hooks (run_from_start death_run) TunnelManager.NewManager callbacks_all death_reachable
           (lookup_empty _)).
Defined.

(** What the kill switch has to let through for an entry: its remote through its protocol and its interface; the
    interface alone of a connected tunnel whose remote is not known. *)
Definition live_entry (e : entry) : option KillSwitchTunnel :=
  if (cs_InterfaceName (e_status e) =s "") || negb (e_active e) then None
  else if negb (e_remoteAddr e =s "") then
    Some (MkKs (cs_InterfaceName (e_status e)) (e_remoteProto e) [e_remoteAddr e])
  else if bool_decide (cs_State (e_status e) = StateConnected) then Some (MkKs (cs_InterfaceName (e_status e)) "" [])
  else None.

Lemma live_entry_remote e t :
  e_remoteAddr e <> "" ->
  live_entry e = Some t <->
  e_active e = true /\ cs_InterfaceName (e_status e) <> ""
  /\ t = MkKs (cs_InterfaceName (e_status e)) (e_remoteProto e) [e_remoteAddr e].
Proof.
  intros Hr. unfold live_entry. rewrite (bool_decide_eq_false_2 _ Hr). cbn [negb].
  destruct (bool_decide_reflect (cs_InterfaceName (e_status e) = "")), (e_active e); cbn; naive_solver congruence.
Qed.

Lemma live_entry_bare e t :
  e_remoteAddr e = "" ->
  live_entry e = Some t <->
  e_active e = true /\ cs_InterfaceName (e_status e) <> "" /\ cs_State (e_status e) = StateConnected
  /\ t = MkKs (cs_InterfaceName (e_status e)) "" [].
Proof.
  intros Hr. unfold live_entry. rewrite (bool_decide_eq_true_2 _ Hr). cbn [negb].
  destruct (bool_decide_reflect (cs_InterfaceName (e_status e) = "")), (e_active e),
    (bool_decide_reflect (cs_State (e_status e) = StateConnected)); cbn; naive_solver congruence.
Qed.

Lemma elem_of_ovpn_live hooks s name t :
  callbacks_set hooks -> reachable hooks s ->
  (name, t) ∈ ovpn_live (backend (sy_mgr s)) <->
  exists id e, find (sy_mgr s) name = Some (id, e) /\ live_entry e = Some t.
Proof.
  intros Hset Hr. unfold ovpn_live, remote_live. rewrite elem_of_app, !list_elem_of_fmap. split.
  - intros [(r & [= -> ->] & (n & e & Hin & Hm)%elem_of_remotes)|([n st] & [= -> ->] & Hin)].
    + apply remote_of_entry_Some in Hm as (H1 & H2 & H3 & ->). apply elem_of_entries in Hin as [i Hf].
      exists i, e. split; [done|]. by apply live_entry_remote.
    + apply elem_of_remoteless in Hin as (Hm & Hc & Hi & Hn).
      apply (status_map_entries hooks) in Hm as (e & Hin & ->); [|done..].
      pose proof (connected_active hooks Hset s Hr n e Hin Hc) as Ha. pose proof Hin as [i Hf]%elem_of_entries.
      exists i, e. split; [done|]. apply live_entry_bare; [|done].
      destruct (decide (e_remoteAddr e = "")) as [|Hr']; [done|]. destruct Hn. apply remote_names. by exists e.
  - intros (i & e & Hf & Hl). assert ((name, e) ∈ OvpnManager.entries_of (sy_mgr s)) as Hin by (apply elem_of_entries; by exists i).
    destruct (decide (e_remoteAddr e = "")) as [Hr'|Hr'].
    + apply live_entry_bare in Hl as (Ha & Hi & Hc & ->); [|done]. right. exists (name, e_status e). split; [done|].
      apply elem_of_remoteless. split_and!; [|done|done|].
      * apply (status_map_entries hooks); [done..|]. by exists e.
      * intros (e0 & Hin0 & _ & H0 & _)%remote_names. apply elem_of_entries in Hin0 as [i0 Hf0]. congruence.
    + apply live_entry_remote in Hl as (Ha & Hi & ->); [|done]. left.
      exists (MkRemoteEndpoint name (cs_InterfaceName (e_status e)) (e_remoteProto e) (e_remoteAddr e)). split; [done|].
      apply elem_of_remotes. exists name, e. split; [done|]. by apply remote_of_entry_Some.
Qed.

(** C15: What the kill switch sees of the OpenVPN tunnels is exactly the manager's table, in every reachable state:
    an active entry with an interface is up with its remote's address and protocol, also while openvpn itself
    reconnects; one whose remote is not known is up, with its interface alone, while it is connected; nothing else
    is.  Whenever there is such an entry, the kill switch is loaded if the policy asks for it, and its interface and
    its remote are in the rules. *)
Theorem ovpn_live_exact (hooks : Hooks) (s : Sys) (wg : TunnelManager.Manager) (h : Helper) :
  callbacks_set hooks -> reachable hooks s ->
  let v := MkView wg (Some (backend (sy_mgr s))) in
  (forall name t, (name, t) ∈ ovpn_live (backend (sy_mgr s)) <->
     exists id e, find (sy_mgr s) name = Some (id, e) /\ live_entry e = Some t)
  /\ forall name id e t, find (sy_mgr s) name = Some (id, e) -> live_entry e = Some t ->
     rs_KillSwitch (fst (ruleset h v)) = killSwitch (policy h) /\ t ∈ rs_Tunnels (fst (ruleset h v)).
Proof.
  intros Hset Hr v. split; [intros name t; by apply (elem_of_ovpn_live hooks)|]. intros name id e t Hf Hl.
  assert ((name, t) ∈ fst (liveTunnels v)) as Hin.
  { apply elem_of_live. right. eexists. split; [done|]. apply (elem_of_ovpn_live hooks); [done..|]. by exists id, e. }
  assert (t ∈ HelperFacts.entries_of h v) as Ht.
  { unfold HelperFacts.entries_of. apply elem_of_app. left. apply list_elem_of_fmap. by exists (name, t). }
  rewrite ruleset_eq. cbv zeta. cbn [fst]. rewrite bool_decide_eq_false_2; [done|]. intros E. rewrite E in Ht. by apply elem_of_nil in Ht.
Qed.

Lemma ovpn_live_exact_witness :
  exists id e t, find (sy_mgr (run_from_start death_run)) "work" = Some (id, e) /\ live_entry e = Some t
  /\ ks_Endpoints t <> []
  /\ t ∈ rs_Tunnels (fst (ruleset ovpn_helper (MkView TunnelManager.NewManager (Some (backend (sy_mgr (run_from_start death_run))))))).
Proof.
  destruct (find (sy_mgr (run_from_start death_run)) "work") as [[id e]|] eqn:E;
    [|exfalso; apply (f_equal is_some) in E; vm_compute in E; discriminate E].
  assert (H : (match find (sy_mgr (run_from_start death_run)) "work" with
               | Some (_, e) => match live_entry e with Some t => negb (bool_decide (ks_Endpoints t = [])) | None => false end
               | None => false end) = true) by (vm_compute; reflexivity).
  rewrite E in H. destruct (live_entry e) as [t|] eqn:El; [|discriminate H]. apply negb_true_iff, bool_decide_eq_false in H.
  exists id, e, t. split; [reflexivity|]. split; [exact El|]. split; [exact H|].
  exact (proj2 (proj2 (ovpn_live_exact all_hooks (run_from_start death_run) TunnelManager.NewManager ovpn_helper
                         callbacks_all death_reachable) "work" id e t E El)).
Defined.

(** ** The death of a tunnel

    [onOVPNDying], [onOVPNDied] and what other goroutines of the helper do before, between and after their sections. *)

(** What the user does about this tunnel (connecting it again, disconnecting it), the end of a retry sequence of it,
    the announcement of its death itself, and turning the kill switch off. *)
Definition spares (name : string) (l : Locked) : bool :=
  match l with
  | LDisconnect n | LClearPending n | LRestore n _ | LRelease n _ | LLift n _ | LUncacheOvpn n
  | LDiedWg n | LDiedOvpn n | LDyingDone n => negb (n =s name)
  | LKillSwitch b | LReblock b _ => b
  | _ => true
  end.

(** A section after the manager has removed the tunnel: it does not see it up. *)
Definition spares_gone (name : string) (l : Locked) : Prop :=
  spares name l = true /\ match l with LApply v => ~ name ∈ live_names v | _ => True end.

(** The state between onOVPNDying and onOVPNDied, and the state from then on. *)
Definition dying (name : string) (h : Helper) : Prop :=
  killSwitch (policy h) = true /\ ~ name ∈ fwThrough h /\ name ∈ ovpnDying h
  /\ is_key (activeOVPNCfgs h) name = true /\ in_hold h name.

Definition guarded (name : string) (h : Helper) : Prop :=
  killSwitch (policy h) = true /\ ~ name ∈ fwThrough h /\ (in_hold h name \/ is_Some (fwBlocked h !! name)).

(** What a section does to one field of the state. *)
Ltac spared_field :=
  match goal with Hs : spares _ ?l = true |- _ =>
    destruct l; cbn [spares] in Hs; bool_hyps; cbn [locked];
    unfold HelperFirewall.hold, HelperFirewall.release, onOVPNDying, forgetOrHold, forget_wg, forget_ovpn, ovpn_gone, clear_pending, disconnect_clear, lift_block,
      restore_block, storeResolved, open_window, closeLookupWindow, recordOVPNStatus, cache_wg, uncache_wg, cache_ovpn,
      uncache_ovpn, timer_fires, watchdog, cancelShutdownTimer;
    try match goal with |- context [ruleset ?h ?v] => destruct (ruleset_frame h v) as (? & ? & -> & _) end;
    cbv zeta; repeat case_match; simplify_eq; cbn; rewrite ?lookup_insert_is_Some', ?lookup_delete_ne by done; try tauto; try set_solver
  end.

Section Spared.
Context (name : string) (l : Locked) (h : Helper) (Hs : spares name l = true).

Lemma spared_policy : killSwitch (policy h) = true -> killSwitch (policy (locked l h)) = true.
Proof using Hs.
  destruct l; cbn [spares] in Hs; try (intros Hk; rewrite <- Hk at 1; unchanged); cbn [locked]; try done.
  by destruct (ruleset_frame h v) as (b & e & -> & _).
Qed.
Lemma spared_through : ~ name ∈ fwThrough h -> ~ name ∈ fwThrough (locked l h).
Proof using Hs. spared_field. Qed.

Lemma spared_dying : name ∈ ovpnDying h -> name ∈ ovpnDying (locked l h).
Proof using Hs. spared_field. Qed.

Lemma spared_wanted : is_Some (activeOVPNCfgs h !! name) -> is_Some (activeOVPNCfgs (locked l h) !! name).
Proof using Hs. spared_field. Qed.

(** A pending hold stays, or becomes a counted one, or, once the death is over, a block. *)
Lemma spared_hold : ~ name ∈ fwThrough h -> killSwitch (policy h) = true -> in_hold h name ->
  in_hold (locked l h) name \/ ~ name ∈ ovpnDying h /\ is_Some (fwBlocked (locked l h) !! name).
Proof using Hs.
  unfold in_hold. intros Ht Hk Hin. revert Hin. spared_field; destruct (decide (name0 = name)) as [->|]; try set_solver.
  - intros _. bool_hyps. right. tauto.
  - bool_hyps. rewrite Hk, (bool_decide_eq_false_2 _ Ht) in *. done.
Qed.

Lemma spared_block : (match l with LApply v => ~ name ∈ live_names v | _ => True end) ->
  is_Some (fwBlocked h !! name) -> in_hold (locked l h) name \/ is_Some (fwBlocked (locked l h) !! name).
Proof using Hs.
  intros Hl. destruct (match l with LApply v => Some v | _ => None end) as [v|] eqn:El.
  - destruct l; try done. simplify_eq. cbn [locked]. destruct (ruleset_frame h v) as (b & e & -> & Hb). cbn. rewrite Hb.
    rewrite bool_decide_eq_false_2 by done. by right.
  - clear Hl. revert El. unfold in_hold. spared_field; intros _ Hb.
    + destruct (decide (name0 = name)) as [->|Hne]; [by left; left; left|right]. by rewrite lookup_delete_ne.
    + right. rewrite lookup_union. destruct Hb as [p ->]. destruct (unblocked !! name); by eexists.
Qed.
End Spared.

Lemma dying_section name l h : spares name l = true -> dying name h -> dying name (locked l h).
Proof.
  intros Hs (Hk & Ht & Hd & Hw & Hh). unfold is_key in *. apply bool_decide_eq_true in Hw. split_and!.
  - by apply (spared_policy name).
  - by apply spared_through.
  - by apply spared_dying.
  - by apply bool_decide_eq_true, spared_wanted.
  - by destruct (spared_hold name l h Hs Ht Hk Hh) as [|[? _]].
Qed.

Lemma guarded_section name l h : spares_gone name l -> guarded name h -> guarded name (locked l h).
Proof.
  intros [Hs Hl] (Hk & Ht & Hor). split_and!; [by apply (spared_policy name)|by apply spared_through|].
  destruct Hor as [Hh|Hb]; [|by apply spared_block].
  destruct (spared_hold name l h Hs Ht Hk Hh) as [|[_ ?]]; auto.
Qed.

Lemma guarded_loaded name h v : guarded name h -> rs_KillSwitch (fst (ruleset h v)) = true.
Proof.
  intros (Hk & _ & [Hh|Hb]); [by apply (in_hold_kill_switch _ _ name)|by apply (blocked_kill_switch _ _ name)].
Qed.

Lemma dying_guarded name h : dying name h -> guarded name h.
Proof. intros (Hk & Ht & _ & _ & Hh). split_and!; auto. Qed.

Lemma run_dying name ls : forall h, Forall (fun l => spares name l = true) ls -> dying name h -> dying name (run ls h).
Proof.
  induction ls as [|l ls IH]; intros h Hls Hd; [done|]. apply Forall_cons in Hls as [Hl Hls].
  apply IH; [done|by apply dying_section].
Qed.

Lemma run_guarded name ls : forall h, Forall (spares_gone name) ls -> guarded name h -> guarded name (run ls h).
Proof.
  induction ls as [|l ls IH]; intros h Hls Hg; [done|]. apply Forall_cons in Hls as [Hl Hls].
  apply IH; [done|by apply guarded_section].
Qed.

(** onOVPNDied's two sections, with others in between. *)
Definition after_done (name : string) (ls : list Locked) (h : Helper) : Helper := run ls (locked (LDyingDone name) h).
Definition after_died (name : string) (ls : list Locked) (h : Helper) : Helper := locked (LDiedOvpn name) (after_done name ls h).

Lemma run_wanted name ls : forall h, Forall (fun l => spares name l = true) ls ->
  is_Some (activeOVPNCfgs h !! name) -> is_Some (activeOVPNCfgs (run ls h) !! name).
Proof.
  induction ls as [|l ls IH]; intros h Hls Hd; [done|]. apply Forall_cons in Hls as [Hl Hls].
  apply IH; [done|by apply spared_wanted].
Qed.

Lemma done_guarded name ls h : Forall (spares_gone name) ls -> dying name h -> guarded name (after_done name ls h).
Proof.
  intros Hls Hd. apply run_guarded; [done|]. destruct (dying_guarded _ _ Hd) as (H1 & H2 & H3). by split_and!.
Qed.

Lemma died_guarded name ls h : Forall (spares_gone name) ls -> dying name h -> guarded name (after_died name ls h).
Proof.
  intros Hls Hd. pose proof (done_guarded name ls h Hls Hd) as (Hk & Ht & _).
  assert (is_key (activeOVPNCfgs (after_done name ls h)) name = true) as Hw.
  { destruct Hd as (_ & _ & _ & Hw & _). unfold is_key in *. apply bool_decide_eq_true in Hw. apply bool_decide_eq_true.
    apply run_wanted; [|exact Hw]. eapply Forall_impl; [exact Hls|]. by intros l [? _]. }
  unfold after_died. cbn [locked]. set (h1 := after_done name ls h) in *.
  set (h2 := forgetOrHold h1 name ProtocolOpenVPN (forget_ovpn name)).
  assert (killSwitch (policy h2) = true /\ ~ name ∈ fwThrough h2) as [Hk2 Ht2].
  { unfold h2, forgetOrHold. cbv zeta. repeat case_match; cbn; (split; [exact Hk|set_solver]). }
  split; [exact Hk2|]. split; [exact Ht2|]. unfold in_hold.
  destruct (forgetOrHold_protects h1 name ProtocolOpenVPN (forget_ovpn name)); [rewrite Hw; apply orb_true_r|exact Hk|..]; auto.
Qed.

Lemma dying_starts h name :
  killSwitch (policy h) = true -> is_key (activeOVPNCfgs h) name = true -> ~ name ∈ fwThrough h ->
  dying name (onOVPNDying h name).
Proof.
  intros Hk Hw Ht. unfold onOVPNDying. rewrite Hw, Hk. cbn [negb orb andb]. rewrite andb_false_r.
  split_and!; [done|done|set_solver|done|]. right. set_solver.
Qed.


(** A status arrives, a policy apply sees the tunnel already gone, and another tunnel is disconnected. *)
Definition meanwhile : list Locked :=
  [LGone "work"; LApply (MkView TunnelManager.NewManager None); LDisconnect "home"; LHold "home"; LRelease "home" false].

