(* ===== verification/NetDns.v ===== *)
(** * The system's DNS: internal/network/dns.go and dns_journal.go

    The package's variables guarded by dnsMu, the journal on disk and the settings of the
    machine's network services are one state [Dns]; what the helper does to the outside is a list
    of [Effect]s, so that a crash can strike between any two of them.  networksetup is the
    environment [Net]: which services it lists, which reads and writes it performs. *)

From S2P Require Import Prelude GoStrings GoNet.

(** ** Holders *)

Record dnsHolderSet := MkHolders { dh_order : list string; dh_entries : gmap string (list string) }.

Definition no_holders : dnsHolderSet := MkHolders [] ∅.

Definition holders_len (s : dnsHolderSet) : nat := length (dh_order s).

Definition holders_get (s : dnsHolderSet) (holder : string) : option (list string) := dh_entries s !! holder.

Definition holders_set (s : dnsHolderSet) (holder : string) (entries : list string) : dnsHolderSet :=
  MkHolders (match dh_entries s !! holder with Some _ => dh_order s | None => holder :: dh_order s end)
    (<[holder := entries]> (dh_entries s)).

Definition holders_remove (s : dnsHolderSet) (holder : string) : option dnsHolderSet :=
  match dh_entries s !! holder with
  | None => None
  | Some _ => Some (MkHolders (List.filter (fun h => negb (h =s holder)) (dh_order s))
                      (delete holder (dh_entries s)))
  end.

Definition splitDNSEntries (entries : list string) : list string * list string :=
  let es := List.filter (fun e => negb (e =s "")) (trim_space <$> entries) in
  (List.filter ip_valid es, List.filter (fun e => negb (ip_valid e)) es).

(** [if !slices.Contains(l, v) { l = append(l, v) }] *)
Definition add_new (l : list string) (v : string) : list string :=
  if bool_decide (v ∈ l) then l else l ++ [v].

Definition union (s : dnsHolderSet) : list string * list string :=
  foldl (fun '(servers, search) h =>
           let '(sv, sd) := splitDNSEntries (default [] (dh_entries s !! h)) in
           (foldl add_new servers sv, foldl add_new search sd)) ([], []) (dh_order s).

(** ** State *)

Abbreviation Settings := (gmap string (list string)).

Record dnsJournal := MkJournal { dj_DNS : Settings; dj_Search : Settings }.

(** The disk and the services: what survives a crash of the helper. *)
Record World := MkWorld { w_journal : option dnsJournal; w_DNS : Settings; w_Search : Settings }.

#[export] Instance eta_world : Eta World := fun r => MkWorld (w_journal r) (w_DNS r) (w_Search r).

Record Dns := MkDns_ {
  dnsHolders : dnsHolderSet; dnsSavedDNS : Settings; dnsSavedSearch : Settings; dnsWorld : World }.

#[export] Instance eta_dns_state : Eta Dns := fun r =>
  MkDns_ (dnsHolders r) (dnsSavedDNS r) (dnsSavedSearch r) (dnsWorld r).

(** What networksetup does: the services it lists; for each, whether a read succeeds, whether a write
    takes effect, and whether the reads that verify a change, of the first and of the second attempt,
    show it.  Writing the journal succeeds. *)
Record Net := MkNet {
  net_services : list string; net_reads : string -> bool; net_takes : string -> bool;
  net_answers : nat -> string -> bool }.

Definition setting (m : Settings) (svc : string) : list string := default [] (m !! svc).

(** What changes the outside. *)
Inductive Effect :=
| EWriteJournal (j : dnsJournal)
| ERemoveJournal
| ESetServers (svc : string) (values : list string)
| ESetSearch (svc : string) (values : list string).

Definition apply_effect (n : Net) (w : World) (e : Effect) : World :=
  match e with
  | EWriteJournal j => w <| w_journal := Some j |>
  | ERemoveJournal => w <| w_journal := None |>
  | ESetServers svc v => if net_takes n svc then w <| w_DNS ::= fun m => <[svc := v]> m |> else w
  | ESetSearch svc v => if net_takes n svc then w <| w_Search ::= fun m => <[svc := v]> m |> else w
  end.

Definition apply_effects (n : Net) (w : World) (l : list Effect) : World := foldl (apply_effect n) w l.

(** The effects of one operation: one, then many by parallel goroutines, then one when they are
    all done. *)
Record Plan := MkPlan { pl_first : list Effect; pl_parallel : list Effect; pl_last : list Effect }.

(** The plan run to its end, the parallel effects in the order listed. *)
Definition plan_effects (p : Plan) : list Effect := pl_first p ++ pl_parallel p ++ pl_last p.

(** The effects done when the plan is cut short: the parallel ones in any order. *)
Inductive cut_short (p : Plan) : list Effect -> Prop :=
| cut_before : cut_short p []
| cut_parallel l : l ⊆+ pl_parallel p -> cut_short p (pl_first p ++ l)
| cut_end l : l ≡ₚ pl_parallel p -> cut_short p (pl_first p ++ l ++ pl_last p).

(** ** Operations *)

(** What getCurrentDNS and getCurrentSearchDomains give; an error is an empty list. *)
Definition read_setting (n : Net) (m : Settings) (svc : string) : list string :=
  if net_reads n svc then setting m svc else [].

Definition missing_services (d : Dns) (services : list string) : list string :=
  List.filter (fun svc => negb (bool_decide (is_Some (dnsSavedDNS d !! svc)))) services.

(** captureBaselineLocked: the baseline and the journal write *)
Definition captureBaselineLocked (n : Net) (d : Dns) (services : list string) : Dns * list Effect :=
  let missing := missing_services d services in
  if (length missing =? 0)%nat then (d, [])
  else
    let w := dnsWorld d in
    let save (cur : Settings) (saved : Settings) :=
      foldl (fun m svc => <[svc := read_setting n cur svc]> m) saved missing in
    let d := d <| dnsSavedDNS ::= save (w_DNS w) |> <| dnsSavedSearch ::= save (w_Search w) |> in
    (d, [EWriteJournal (MkJournal (dnsSavedDNS d) (dnsSavedSearch d))]).

(** What one service is set to: the union, or its baseline where the union is empty. *)
Definition service_values (d : Dns) (svc : string) : list string * list string :=
  let '(servers, search) := union (dnsHolders d) in
  (if bool_decide (servers = []) then setting (dnsSavedDNS d) svc else servers,
   if bool_decide (search = []) then setting (dnsSavedSearch d) svc else search).

Definition set_service (d : Dns) (svc : string) : list Effect :=
  let '(sv, sd) := service_values d svc in [ESetServers svc sv; ESetSearch svc sd].

(** applyDNSUnionLocked; the services are set in parallel, in any order: as listed here *)
Definition applyDNSUnionLocked (n : Net) (d : Dns) (services : list string) : Dns * Plan :=
  let '(d, es) := captureBaselineLocked n d services in
  (d, MkPlan es (concat (set_service d <$> services)) []).

(** restoreDNSBaseline *)
Definition restoreDNSBaseline (savedDNS savedSearch : Settings) : list Effect :=
  ((fun '(svc, orig) => ESetServers svc orig) <$> map_to_list savedDNS)
  ++ ((fun '(svc, orig) => ESetSearch svc orig) <$> map_to_list savedSearch).

Definition releaseOrReapplyLocked (n : Net) (d : Dns) (services : list string) : Dns * Plan :=
  if (0 <? holders_len (dnsHolders d))%nat then applyDNSUnionLocked n d services
  else
    (d <| dnsSavedDNS := ∅ |> <| dnsSavedSearch := ∅ |>,
     MkPlan [] (restoreDNSBaseline (dnsSavedDNS d) (dnsSavedSearch d)) [ERemoveJournal]).

(** The effects done, in order. *)
Definition run_plan (n : Net) (r : Dns * Plan) : Dns :=
  let '(d, p) := r in d <| dnsWorld ::= fun w => apply_effects n w (plan_effects p) |>.

(** verifyDNS: two attempts *)
Definition verifyDNS (n : Net) (w : World) (services : list string) (expected : string) : bool :=
  existsb (fun attempt =>
    existsb (fun svc => let cur := if net_answers n attempt svc then setting (w_DNS w) svc else [] in
                        bool_decide (expected ∈ cur)) services) [0; 1]%nat.

Inductive DnsError := NoServices | VerifyFailed.

(** SetDNS: its effects before the check, the state after them, and the rest. *)
Definition SetDNS_apply (n : Net) (d : Dns) (holder : string) (entries : list string) : Dns * Plan :=
  applyDNSUnionLocked n (d <| dnsHolders ::= fun s => holders_set s holder entries |>) (net_services n).

Definition SetDNS_verified (n : Net) (d : Dns) : bool :=
  match fst (union (dnsHolders d)) with
  | expected :: _ => verifyDNS n (dnsWorld d) (net_services n) expected
  | [] => true
  end.

(** The holder as it was before. *)
Definition put_back (s : dnsHolderSet) (holder : string) (prev : option (list string)) : dnsHolderSet :=
  match prev with
  | Some e => holders_set s holder e
  | None => default s (holders_remove s holder)
  end.

Definition SetDNS (n : Net) (d : Dns) (holder : string) (entries : list string)
    : result DnsError unit * Dns :=
  if (length entries =? 0)%nat then (Ok tt, d)
  else if (length (net_services n) =? 0)%nat then (Err NoServices, d)
  else
    let prev := holders_get (dnsHolders d) holder in
    let d := run_plan n (SetDNS_apply n d holder entries) in
    if SetDNS_verified n d then (Ok tt, d)
    else
      (Err VerifyFailed,
       run_plan n (releaseOrReapplyLocked n
         (d <| dnsHolders ::= fun s => put_back s holder prev |>) (net_services n))).

Definition RestoreDNS (n : Net) (d : Dns) (holder : string) : Dns :=
  match holders_remove (dnsHolders d) holder with
  | None => d
  | Some s => run_plan n (releaseOrReapplyLocked n (d <| dnsHolders := s |>) (net_services n))
  end.

Definition drifted (n : Net) (d : Dns) (svc : string) : bool :=
  let want := fst (union (dnsHolders d)) in
  match dnsSavedDNS d !! svc with
  | None => true
  | Some _ => negb (net_reads n svc)
              || (negb (bool_decide (want = []))
                  && negb (bool_decide (setting (w_DNS (dnsWorld d)) svc = want)))
  end.

Definition reapplyDNSIfDrifted (n : Net) (d : Dns) : Dns :=
  if (holders_len (dnsHolders d) =? 0)%nat then d
  else if existsb (drifted n d) (net_services n)
       then run_plan n (applyDNSUnionLocked n d (net_services n)) else d.

(** ** The next start *)

(** What loadDNSJournal makes of the file: absent, refused, or read. *)
Inductive JournalFile := JAbsent | JRefused | JRead (j : dnsJournal).

(** [trusted] is its checks of owner, mode and syntax. *)
Definition loadDNSJournal (trusted : bool) (w : World) : JournalFile :=
  match w_journal w with
  | None => JAbsent
  | Some j => if trusted then JRead j else JRefused
  end.

Definition journal_plan (trusted : bool) (w : World) : Plan :=
  match loadDNSJournal trusted w with
  | JAbsent => MkPlan [] [] []
  | JRefused => MkPlan [] [] [ERemoveJournal]
  | JRead j => MkPlan [] (restoreDNSBaseline (dj_DNS j) (dj_Search j)) [ERemoveJournal]
  end.

Definition RestoreDNSFromJournal (n : Net) (trusted : bool) (w : World) : bool * World :=
  (match loadDNSJournal trusted w with JRead _ => true | _ => false end,
   apply_effects n w (plan_effects (journal_plan trusted w))).

(** ** Resolvers of a lookup *)

Section Resolvers.
(** net.IP.String *)
Variable ip_text : list Z -> string.

Definition add_ip (out : list string) (s : string) : list string :=
  match parse_ip s with Some ip => add_new out (ip_text ip) | None => out end.

(** [data] is [None] when the file cannot be read. *)
Definition parseResolvConf (data : option string) : list string :=
  match data with
  | None => []
  | Some data =>
      foldl (fun out line =>
               match fields line with
               | key :: value :: _ =>
                   if key =s "nameserver"
                   then add_ip out (match cut_byte "%" value with Some (host, _) => host | None => value end)
                   else out
               | _ => out
               end) [] (split_byte newline data)
  end.

Definition SystemResolvers (resolv_conf : option string) (d : Dns) : list string :=
  let out := parseResolvConf resolv_conf in
  if (0 <? length out)%nat then out
  else sort_strings (foldl add_ip [] (concat (map_to_list (dnsSavedDNS d)).*2)).
End Resolvers.
