(* ===== verification/NetDnsFacts.v ===== *)
(** * The system's DNS: holders, crashes and what the services show

    [dns_crash_restores]: whenever the helper dies, its next start brings the original settings
    back.  [dns_shows_union]: a refinement of the abstract view in which every service shows the
    union of the holders, newest first, or its original settings when there is none. *)

From S2P Require Import Prelude GoStrings GoNet NetDns.

(** ** The holder set *)

Definition holders_ok (s : dnsHolderSet) : Prop :=
  NoDup (dh_order s) /\ forall h, h ∈ dh_order s <-> is_Some (dh_entries s !! h).

Lemma no_holders_ok : holders_ok no_holders.
Proof. split; [apply NoDup_nil_2|]. intros h. cbn. rewrite lookup_empty, elem_of_nil. split; [done|by intros []]. Qed.

Lemma holders_set_ok s h e : holders_ok s -> holders_ok (holders_set s h e).
Proof.
  intros [Hn Hd]. unfold holders_set, holders_ok. cbn. destruct (dh_entries s !! h) eqn:E.
  - split; [done|]. intros k. rewrite lookup_insert_is_Some', <- Hd. split; [auto|].
    intros [->|?]; [apply Hd; by eexists|done].
  - split.
    + apply NoDup_cons. split; [|done]. rewrite Hd, E. by intros [].
    + intros k. rewrite lookup_insert_is_Some', elem_of_cons, Hd. split; intros [?|?]; auto.
Qed.

Lemma holders_remove_ok s h s' : holders_ok s -> holders_remove s h = Some s' -> holders_ok s'.
Proof.
  intros [Hn Hd]. unfold holders_remove. destruct (dh_entries s !! h) eqn:E; [|done]. intros [= <-].
  unfold holders_ok. cbn. split.
  - clear - Hn. induction Hn as [|x l Hx Hn IH]; [constructor|]. cbn. destruct (negb _); [|done].
    constructor; [|done]. intros Hin. apply Hx. by apply elem_of_filter_bool in Hin as [? _].
  - intros k. rewrite elem_of_filter_bool, Hd, negb_true_iff, bool_decide_eq_false, lookup_delete_is_Some. split; intros [??]; split; auto.
Qed.

(** Putting a holder back undoes setting it. *)
Lemma put_back_set s h e :
  holders_ok s -> put_back (holders_set s h e) h (holders_get s h) = s.
Proof.
  intros [Hn Hd]. unfold put_back, holders_get. destruct s as [order entries]. cbn in *.
  destruct (entries !! h) as [prev|] eqn:E.
  - unfold holders_set. cbn. rewrite E, lookup_insert_eq, insert_insert_eq, insert_id by done. done.
  - unfold holders_set, holders_remove. cbn. rewrite E, lookup_insert_eq. cbn.
    rewrite bool_decide_eq_true_2 by done. cbn. rewrite delete_insert_id by done. f_equal.
    assert (Hno : ~ h ∈ order) by (rewrite Hd, E; by intros []).
    clear - Hno. induction order as [|a l IH]; [done|]. cbn. apply not_elem_of_cons in Hno as [H1 H2].
    rewrite bool_decide_eq_false_2 by done. cbn. by rewrite IH.
Qed.

(** ** The union *)

Lemma add_new_spec vs : forall l,
  NoDup l -> NoDup (foldl add_new l vs) /\ (forall v, v ∈ foldl add_new l vs <-> v ∈ l \/ v ∈ vs)
  /\ exists more, foldl add_new l vs = l ++ more.
Proof.
  induction vs as [|a vs IH]; intros l Hn; cbn [foldl].
  { split_and!; [done| |exists []; by rewrite app_nil_r]. intros v. rewrite elem_of_nil. tauto. }
  assert (Ha : NoDup (add_new l a) /\ (forall v, v ∈ add_new l a <-> v ∈ l \/ v = a) /\ exists more, add_new l a = l ++ more).
  { unfold add_new. case_bool_decide as Hin.
    - split_and!; [done| |exists []; by rewrite app_nil_r]. intros v. split; [auto|by intros [?| ->]].
    - split_and!; [|intros v; rewrite elem_of_app, list_elem_of_singleton; tauto|by exists [a]].
      apply NoDup_app. split; [done|]. split; [|apply NoDup_singleton]. by intros v Hv ->%list_elem_of_singleton. }
  destruct Ha as (H1 & H2 & m1 & H3). destruct (IH _ H1) as (G1 & G2 & m2 & G3). split_and!; [done| |].
  - intros v. rewrite G2, H2, elem_of_cons. tauto.
  - exists (m1 ++ m2). by rewrite G3, H3, app_assoc.
Qed.

Definition holder_servers (s : dnsHolderSet) (h : string) : list string :=
  fst (splitDNSEntries (default [] (dh_entries s !! h))).
Definition holder_search (s : dnsHolderSet) (h : string) : list string :=
  snd (splitDNSEntries (default [] (dh_entries s !! h))).

Lemma union_fold s order : forall a b,
  foldl (fun '(servers, search) h =>
           let '(sv, sd) := splitDNSEntries (default [] (dh_entries s !! h)) in
           (foldl add_new servers sv, foldl add_new search sd)) (a, b) order
  = (foldl (fun l h => foldl add_new l (holder_servers s h)) a order,
     foldl (fun l h => foldl add_new l (holder_search s h)) b order).
Proof.
  induction order as [|h order IH]; intros a b; [done|]. cbn [foldl].
  rewrite (surjective_pairing (splitDNSEntries (default [] (dh_entries s !! h)))). apply IH.
Qed.

Lemma union_list_spec (f : string -> list string) order : forall l,
  NoDup l -> let r := foldl (fun l h => foldl add_new l (f h)) l order in
  NoDup r /\ (forall v, v ∈ r <-> v ∈ l \/ exists h, h ∈ order /\ v ∈ f h) /\ exists more, r = l ++ more.
Proof.
  induction order as [|h order IH]; intros l Hn; cbn [foldl].
  { split_and!; [done| |exists []; by rewrite app_nil_r]. intros v. split; [auto|].
    by intros [?|(h & Hin%elem_of_nil & _)]. }
  destruct (add_new_spec (f h) l Hn) as (H1 & H2 & m1 & H3).
  destruct (IH _ H1) as (G1 & G2 & m2 & G3). split_and!; [done| |].
  - intros v. rewrite G2, H2, exists_elem_of_cons. tauto.
  - exists (m1 ++ m2). by rewrite G3, H3, app_assoc.
Qed.

(** The union has no duplicates, holds exactly what the holders ask for, and begins with what the
    newest holder asks for. *)
Lemma union_spec s :
  let '(servers, search) := union s in
  NoDup servers /\ NoDup search
  /\ (forall v, v ∈ servers <-> exists h, h ∈ dh_order s /\ v ∈ holder_servers s h)
  /\ (forall v, v ∈ search <-> exists h, h ∈ dh_order s /\ v ∈ holder_search s h)
  /\ (forall newest rest, dh_order s = newest :: rest ->
        exists more, servers = foldl add_new [] (holder_servers s newest) ++ more).
Proof.
  unfold union. rewrite union_fold.
  destruct (union_list_spec (holder_servers s) (dh_order s) [] NoDup_nil_2) as (H1 & H2 & _).
  destruct (union_list_spec (holder_search s) (dh_order s) [] NoDup_nil_2) as (G1 & G2 & _).
  split_and!; [done|done| | |].
  - intros v. rewrite H2, elem_of_nil. tauto.
  - intros v. rewrite G2, elem_of_nil. tauto.
  - intros newest rest ->. cbn [foldl].
    destruct (add_new_spec (holder_servers s newest) [] NoDup_nil_2) as (N1 & _ & _).
    destruct (union_list_spec (holder_servers s) rest _ N1) as (_ & _ & more & E). by exists more.
Qed.

(** ** Effects *)

Lemma setting_insert m svc v k : setting (<[svc := v]> m) k = if decide (k = svc) then v else setting m k.
Proof.
  unfold setting. case_decide as E; [subst; by rewrite lookup_insert_eq|by rewrite lookup_insert_ne].
Qed.

Section Original.
(** The user's settings, and which services obey networksetup (a managed one ignores it). *)
Context (oD oS : Settings) (obeys : string -> bool).

(** A network tool whose reads work, on these services. *)
Definition good_net (n : Net) : Prop := (forall svc, net_reads n svc = true) /\ (forall svc, net_takes n svc = obeys svc).

(** The original settings of a service can be told from the journal, or are still in place. *)
Definition restorable (w : World) : Prop :=
  (forall svc, match w_journal w with
               | Some j => match dj_DNS j !! svc with
                           | Some v => v = setting oD svc
                           | None => setting (w_DNS w) svc = setting oD svc
                           end
               | None => setting (w_DNS w) svc = setting oD svc
               end)
  /\ (forall svc, match w_journal w with
               | Some j => match dj_Search j !! svc with
                           | Some v => v = setting oS svc
                           | None => setting (w_Search w) svc = setting oS svc
                           end
               | None => setting (w_Search w) svc = setting oS svc
               end)
  /\ (forall svc, obeys svc = false ->
        setting (w_DNS w) svc = setting oD svc /\ setting (w_Search w) svc = setting oS svc).

Lemma apply_effects_app n w l1 l2 : apply_effects n w (l1 ++ l2) = apply_effects n (apply_effects n w l1) l2.
Proof. apply foldl_app. Qed.

(** Writes to journaled services. *)
Definition covered (j : dnsJournal) (e : Effect) : Prop :=
  match e with
  | ESetServers svc _ => is_Some (dj_DNS j !! svc)
  | ESetSearch svc _ => is_Some (dj_Search j !! svc)
  | _ => False
  end.

Lemma covered_restorable n w j l :
  good_net n -> w_journal w = Some j -> restorable w -> Forall (covered j) l ->
  w_journal (apply_effects n w l) = Some j /\ restorable (apply_effects n w l).
Proof.
  intros [_ Ht] Hj Hr Hl. revert w Hj Hr. induction Hl as [|e l He Hl IH]; intros w Hj Hr; [done|].
  unfold apply_effects in *. cbn [foldl]. apply IH.
  - destruct e; try done; cbn; by destruct (net_takes n svc).
  - destruct Hr as (R1 & R2 & R3). rewrite Hj in R1, R2.
    destruct e as [| |svc v|svc v]; try done; cbn in He |- *; rewrite Ht; destruct (obeys svc) eqn:Eo;
      try (by split_and!; cbn; rewrite ?Hj); unfold restorable; cbn; rewrite Hj; destruct He as [old He].
    + split_and!; [intros k; specialize (R1 k)|done|intros k Hk; rewrite setting_insert; case_decide; [congruence|auto]].
      destruct (dj_DNS j !! k) eqn:Ek; [done|]. rewrite setting_insert. case_decide; [congruence|done].
    + split_and!; [done|intros k; specialize (R2 k)|intros k Hk; rewrite setting_insert; case_decide; [congruence|auto]].
      destruct (dj_Search j !! k) eqn:Ek; [done|]. rewrite setting_insert. case_decide; [congruence|done].
Qed.

(** What a service is set to by a list of writes that agree with [f] and [g]. *)
Definition agrees (f g : string -> list string) (e : Effect) : Prop :=
  match e with ESetServers svc v => v = f svc | ESetSearch svc v => v = g svc | _ => False end.

Definition sets_dns (svc : string) (e : Effect) : bool :=
  match e with ESetServers s _ => s =s svc | _ => false end.
Definition sets_search (svc : string) (e : Effect) : bool :=
  match e with ESetSearch s _ => s =s svc | _ => false end.

Lemma agrees_result n f g l : Forall (agrees f g) l -> forall w svc,
  setting (w_DNS (apply_effects n w l)) svc
    = (if existsb (sets_dns svc) l && net_takes n svc then f svc else setting (w_DNS w) svc)
  /\ setting (w_Search (apply_effects n w l)) svc
    = (if existsb (sets_search svc) l && net_takes n svc then g svc else setting (w_Search w) svc)
  /\ w_journal (apply_effects n w l) = w_journal w.
Proof.
  induction 1 as [|e l He Hl IH]; intros w svc; [done|]. unfold apply_effects in *. cbn [foldl existsb].
  destruct (IH (apply_effect n w e) svc) as (I1 & I2 & I3). rewrite I1, I2, I3. clear I1 I2 I3.
  destruct e as [| |s v|s v]; try done; cbn [agrees] in He; subst v; cbn [apply_effect sets_dns sets_search].
  - destruct (net_takes n s) eqn:Et; cbn; rewrite ?setting_insert; split_and!; try done.
    + case_decide as E; [subst s|rewrite (bool_decide_eq_false_2 (s = svc)) by congruence; done].
      rewrite bool_decide_eq_true_2 by done. cbn. rewrite Et. by destruct (existsb _ l).
    + destruct (bool_decide_reflect (s = svc)) as [->|]; cbn; [|done]. by rewrite Et, !andb_false_r.
  - destruct (net_takes n s) eqn:Et; cbn; rewrite ?setting_insert; split_and!; try done.
    + case_decide as E; [subst s|rewrite (bool_decide_eq_false_2 (s = svc)) by congruence; done].
      rewrite bool_decide_eq_true_2 by done. cbn. rewrite Et. by destruct (existsb _ l).
    + destruct (bool_decide_reflect (s = svc)) as [->|]; cbn; [|done]. by rewrite Et, !andb_false_r.
Qed.

(** ** The invariant *)

Record dns_inv (d : Dns) : Prop := {
  di_holders : holders_ok (dnsHolders d);
  di_saved svc v : dnsSavedDNS d !! svc = Some v -> v = setting oD svc;
  di_saved_search svc v : dnsSavedSearch d !! svc = Some v -> v = setting oS svc;
  di_dom svc : is_Some (dnsSavedDNS d !! svc) <-> is_Some (dnsSavedSearch d !! svc);
  di_journal : w_journal (dnsWorld d)
    = if bool_decide (dnsSavedDNS d = ∅) then None else Some (MkJournal (dnsSavedDNS d) (dnsSavedSearch d));
  di_world svc : dnsSavedDNS d !! svc = None ->
    setting (w_DNS (dnsWorld d)) svc = setting oD svc /\ setting (w_Search (dnsWorld d)) svc = setting oS svc;
  di_managed svc : obeys svc = false ->
    setting (w_DNS (dnsWorld d)) svc = setting oD svc /\ setting (w_Search (dnsWorld d)) svc = setting oS svc }.

Lemma dom_None d svc : dns_inv d -> dnsSavedSearch d !! svc = None <-> dnsSavedDNS d !! svc = None.
Proof. intros Hi. rewrite !eq_None_not_Some. by rewrite (di_dom d Hi). Qed.

Lemma inv_restorable d : dns_inv d -> restorable (dnsWorld d).
Proof.
  intros Hi. unfold restorable. rewrite (di_journal d Hi). case_bool_decide as E; cbn.
  - split_and!; try apply Hi; intros svc; apply (di_world d Hi); by rewrite E, lookup_empty.
  - split_and!; [| |apply Hi]; intros svc.
    + destruct (dnsSavedDNS d !! svc) eqn:Es; [by apply (di_saved d Hi)|by apply (di_world d Hi)].
    + destruct (dnsSavedSearch d !! svc) eqn:Es; [by apply (di_saved_search d Hi)|].
      apply (di_world d Hi). by apply (dom_None d).
Qed.

Lemma fold_save (f : string -> list string) l : forall (m : Settings) k,
  foldl (fun m svc => <[svc := f svc]> m) m l !! k = if bool_decide (k ∈ l) then Some (f k) else m !! k.
Proof.
  induction l as [|a l IH]; intros m k; [done|]. cbn [foldl]. rewrite IH.
  case_bool_decide as H1; [by rewrite bool_decide_eq_true_2 by (by right)|].
  destruct (decide (k = a)) as [->|Hne].
  - rewrite lookup_insert_eq, bool_decide_eq_true_2 by (by left). done.
  - rewrite lookup_insert_ne by done. rewrite bool_decide_eq_false_2; [done|]. by intros [?|?]%elem_of_cons.
Qed.

Lemma elem_of_missing d services svc :
  svc ∈ missing_services d services <-> svc ∈ services /\ dnsSavedDNS d !! svc = None.
Proof.
  unfold missing_services. rewrite elem_of_filter_bool, negb_true_iff, bool_decide_eq_false, eq_None_not_Some. done.
Qed.

(** Capturing: the baseline covers the services, the journal is written before anything is set. *)
Lemma capture_spec n d services d1 es :
  good_net n -> dns_inv d -> captureBaselineLocked n d services = (d1, es) ->
  dnsHolders d1 = dnsHolders d /\ dnsWorld d1 = dnsWorld d
  /\ (forall svc, svc ∈ services -> is_Some (dnsSavedDNS d1 !! svc))
  /\ dns_inv (d1 <| dnsWorld ::= fun w => apply_effects n w es |>)
  /\ (forall w, restorable w -> w = dnsWorld d -> restorable (apply_effects n w es)).
Proof.
  intros Hn Hi. unfold captureBaselineLocked.
  destruct (length (missing_services d services) =? 0)%nat eqn:E.
  { intros [= <- <-]. apply Nat.eqb_eq, length_zero_iff_nil in E.
    split; [done|]. split; [done|]. split; [|split; [by destruct d|by intros w]].
    intros svc Hs. destruct (dnsSavedDNS d !! svc) eqn:Es; [by eexists|].
    assert (Hin : svc ∈ missing_services d services) by (by apply elem_of_missing).
    rewrite E in Hin. by apply elem_of_nil in Hin. }
  intros [= <- <-]. apply Nat.eqb_neq in E.
  set (m := missing_services d services) in *. destruct Hn as [Hreads _].
  assert (Hm : forall svc, svc ∈ m -> dnsSavedDNS d !! svc = None) by (by intros svc [_ Hs]%elem_of_missing).
  assert (Hr : forall cur svc, read_setting n cur svc = setting cur svc).
  { intros cur svc. unfold read_setting. by rewrite Hreads. }
  match goal with |- context [dns_inv ?x] => assert (Hinv : dns_inv x) end.
  { split; cbn -[elem_of].
    - apply Hi.
    - intros svc v. rewrite fold_save. case_bool_decide as Hin; [|apply Hi].
      intros [= <-]. rewrite Hr. by apply (di_world d Hi), Hm.
    - intros svc v. rewrite fold_save. case_bool_decide as Hin; [|apply Hi].
      intros [= <-]. rewrite Hr. by apply (di_world d Hi), Hm.
    - intros svc. rewrite !fold_save. case_bool_decide; [split; intros; by eexists|apply Hi].
    - rewrite bool_decide_eq_false_2; [done|]. intros He.
      destruct m as [|svc m'] eqn:Em; [done|].
      assert (H : foldl (fun m svc => <[svc := read_setting n (w_DNS (dnsWorld d)) svc]> m) (dnsSavedDNS d) (svc :: m')
                    !! svc = None) by (rewrite He; apply lookup_empty).
      rewrite fold_save, bool_decide_eq_true_2 in H by (by left). done.
    - intros svc. rewrite fold_save. case_bool_decide; [done|apply Hi].
    - apply Hi. }
  split_and!; [done|done| |exact Hinv|].
  - intros svc Hs. cbn -[elem_of]. rewrite fold_save. case_bool_decide as Hin; [by eexists|].
    destruct (dnsSavedDNS d !! svc) eqn:Es; [by eexists|]. destruct Hin. by apply elem_of_missing.
  - intros w _ ->. exact (inv_restorable _ Hinv).
Qed.

Lemma parallel_sets d services :
  Forall (agrees (fun svc => fst (service_values d svc)) (fun svc => snd (service_values d svc)))
    (concat (set_service d <$> services)).
Proof.
  induction services as [|svc services IH]; [constructor|]. cbn. unfold set_service at 1.
  destruct (service_values d svc) as [sv sd] eqn:E.
  repeat (apply Forall_cons; split; [cbn; by rewrite E|]). done.
Qed.

Lemma parallel_covered d services j :
  (forall svc, svc ∈ services -> is_Some (dj_DNS j !! svc) /\ is_Some (dj_Search j !! svc)) ->
  Forall (covered j) (concat (set_service d <$> services)).
Proof.
  induction services as [|svc services IH]; intros H; [constructor|]. cbn. unfold set_service at 1.
  destruct (service_values d svc) as [sv sd].
  destruct (H svc) as [H1 H2]; [by left|]. repeat (apply Forall_cons; split; [done|]). apply IH.
  intros s Hs. apply H. by right.
Qed.

Lemma elem_sets d services svc :
  existsb (sets_dns svc) (concat (set_service d <$> services)) = bool_decide (svc ∈ services)
  /\ existsb (sets_search svc) (concat (set_service d <$> services)) = bool_decide (svc ∈ services).
Proof.
  induction services as [|s services [IH1 IH2]]; [done|]. cbn [fmap list_fmap concat].
  rewrite !existsb_app, IH1, IH2. unfold set_service. destruct (service_values d s) as [sv sd]. cbn.
  destruct (bool_decide_reflect (s = svc)) as [->|Hne]; cbn.
  - rewrite bool_decide_eq_true_2 by (by left). done.
  - split; apply bool_decide_ext; rewrite elem_of_cons; split; auto; by intros [?|?].
Qed.

(** What the holders make every service show. *)
Definition shown (s : dnsHolderSet) (svc : string) : list string * list string :=
  let '(servers, search) := union s in
  (if bool_decide (servers = []) then setting oD svc else servers,
   if bool_decide (search = []) then setting oS svc else search).

(** Only parallel writes to journaled services follow. *)
Lemma sets_keep_inv n d l f g :
  good_net n -> dns_inv d -> Forall (agrees f g) l ->
  (forall svc, existsb (sets_dns svc) l = true -> is_Some (dnsSavedDNS d !! svc)) ->
  (forall svc, existsb (sets_search svc) l = true -> is_Some (dnsSavedDNS d !! svc)) ->
  dns_inv (d <| dnsWorld ::= fun w => apply_effects n w l |>).
Proof.
  intros [_ Ht] Hi Hl H1 H2. split; cbn; try apply Hi.
  - rewrite <- (di_journal d Hi). by apply (agrees_result n f g l Hl (dnsWorld d) "").
  - intros svc Hs. destruct (agrees_result n f g l Hl (dnsWorld d) svc) as (-> & -> & _).
    destruct (existsb (sets_dns svc) l) eqn:E1; [destruct (H1 svc E1); congruence|].
    destruct (existsb (sets_search svc) l) eqn:E2; [destruct (H2 svc E2); congruence|]. by apply (di_world d Hi).
  - intros svc Ho. destruct (agrees_result n f g l Hl (dnsWorld d) svc) as (-> & -> & _).
    rewrite Ht, Ho, !andb_false_r. by apply (di_managed d Hi).
Qed.

Lemma service_values_shown d svc :
  dns_inv d -> is_Some (dnsSavedDNS d !! svc) -> service_values d svc = shown (dnsHolders d) svc.
Proof.
  intros Hi Hs. unfold service_values, shown. destruct (union (dnsHolders d)) as [servers search].
  pose proof Hs as [v Hv]. apply (di_dom d Hi) in Hs as [v' Hv'].
  unfold setting at 1 2. rewrite Hv, Hv'. cbn [default].
  rewrite (di_saved d Hi svc v Hv), (di_saved_search d Hi svc v' Hv') at 1. done.
Qed.

Lemma Forall_submseteq {A} (P : A -> Prop) l k : l ⊆+ k -> Forall P k -> Forall P l.
Proof. intros Hs. rewrite !Forall_forall. intros H x Hx. apply H. by eapply elem_of_submseteq. Qed.

Lemma apply_spec n d services :
  good_net n -> dns_inv d ->
  let r := applyDNSUnionLocked n d services in
  dns_inv (run_plan n r) /\ dnsHolders (run_plan n r) = dnsHolders d
  /\ (forall l, cut_short (snd r) l -> restorable (apply_effects n (dnsWorld d) l))
  /\ (forall svc, svc ∈ services -> obeys svc = true ->
        (setting (w_DNS (dnsWorld (run_plan n r))) svc, setting (w_Search (dnsWorld (run_plan n r))) svc)
        = shown (dnsHolders d) svc).
Proof.
  intros Hn Hi. unfold applyDNSUnionLocked. destruct (captureBaselineLocked n d services) as [d1 es] eqn:E.
  destruct (capture_spec n d services d1 es Hn Hi E) as (Hh & Hw & Hc & Hi1 & Hr1).
  set (par := concat (set_service d1 <$> services)) in *. cbv zeta.
  pose proof (parallel_sets d1 services : Forall _ par) as Hpar.
  assert (Heff : plan_effects (MkPlan es par []) = es ++ par) by (unfold plan_effects; cbn; by rewrite app_nil_r).
  assert (Hrun : run_plan n (d1, MkPlan es par [])
                 = (d1 <| dnsWorld ::= fun w => apply_effects n w es |>) <| dnsWorld ::= fun w => apply_effects n w par |>).
  { unfold run_plan. rewrite Heff. destruct d1; cbn. by rewrite apply_effects_app. }
  assert (Hsets : forall svc, existsb (sets_dns svc) par || existsb (sets_search svc) par = true -> svc ∈ services).
  { intros svc. destruct (elem_sets d1 services svc) as [E1 E2]. unfold par. rewrite E1, E2, orb_diag.
    apply bool_decide_eq_true. }
  rewrite Hrun. split_and!.
  - eapply sets_keep_inv; [done|exact Hi1|exact Hpar|..]; intros svc Hs; cbn; apply Hc, Hsets; rewrite Hs;
      [done|apply orb_true_r].
  - by cbn.
  - cbn [snd]. intros l Hl.
    assert (Hpr : forall l, l ⊆+ par -> restorable (apply_effects n (dnsWorld d) (es ++ l))).
    { intros l0 Hl0. rewrite apply_effects_app. pose proof (Hr1 (dnsWorld d) (inv_restorable d Hi) eq_refl) as Hr.
      pose proof (di_journal _ Hi1) as Hj. cbn in Hj. rewrite Hw in Hj. case_bool_decide as Es.
      - assert (par = []) as Hnil.
        { destruct services as [|svc services]; [done|]. destruct (Hc svc) as [v Hv]; [by left|].
          by rewrite Es, lookup_empty in Hv. }
        rewrite Hnil in Hl0. apply submseteq_nil_r in Hl0 as ->. exact Hr.
      - refine (proj2 (covered_restorable n _ _ l0 Hn Hj Hr _)). eapply Forall_submseteq; [exact Hl0|].
        apply parallel_covered. cbn. intros svc Hs. pose proof (Hc svc Hs) as Hsv. split; [done|].
        by apply (di_dom _ Hi1 svc). }
    inversion Hl as [|l0 Hl0|l0 Hl0]; subst; cbn [pl_first pl_last pl_parallel] in *.
    + by apply inv_restorable.
    + by apply Hpr.
    + rewrite app_nil_r. apply Hpr. by rewrite Hl0.
  - intros svc Hs Ho. cbn.
    destruct (agrees_result n _ _ par Hpar (apply_effects n (dnsWorld d1) es) svc) as (-> & -> & _).
    destruct (elem_sets d1 services svc) as [E1 E2]. fold par in E1, E2.
    destruct Hn as [_ Ht]. rewrite E1, E2, Ht, Ho, bool_decide_eq_true_2 by done. cbn [andb].
    rewrite <- surjective_pairing. rewrite <- Hh.
    pose proof (service_values_shown _ svc Hi1 (Hc svc Hs)) as Hv. exact Hv.
Qed.

Lemma restore_sets (sD sS : Settings) :
  Forall (agrees (setting sD) (setting sS)) (restoreDNSBaseline sD sS)
  /\ (forall svc, existsb (sets_dns svc) (restoreDNSBaseline sD sS) = bool_decide (is_Some (sD !! svc)))
  /\ (forall svc, existsb (sets_search svc) (restoreDNSBaseline sD sS) = bool_decide (is_Some (sS !! svc))).
Proof.
  unfold restoreDNSBaseline. split_and!.
  - apply Forall_app. split; apply Forall_fmap, Forall_forall; intros [svc v] Hin%elem_of_map_to_list; cbn;
      unfold setting; by rewrite Hin.
  - intros svc. apply eq_true_iff_eq. rewrite existsb_true_iff, bool_decide_eq_true. split.
    + intros (e & [Hin|Hin]%elem_of_app & He); apply list_elem_of_fmap in Hin as ([s v] & -> & Hin); [|done].
      cbn in He. bool_hyps. subst. apply elem_of_map_to_list in Hin. by eexists.
    + intros [v Hv]. exists (ESetServers svc v). split; [|cbn; by rewrite bool_decide_eq_true_2].
      apply elem_of_app. left. apply list_elem_of_fmap. exists (svc, v). split; [done|]. by apply elem_of_map_to_list.
  - intros svc. apply eq_true_iff_eq. rewrite existsb_true_iff, bool_decide_eq_true. split.
    + intros (e & [Hin|Hin]%elem_of_app & He); apply list_elem_of_fmap in Hin as ([s v] & -> & Hin); [done|].
      cbn in He. bool_hyps. subst. apply elem_of_map_to_list in Hin. by eexists.
    + intros [v Hv]. exists (ESetSearch svc v). split; [|cbn; by rewrite bool_decide_eq_true_2].
      apply elem_of_app. right. apply list_elem_of_fmap. exists (svc, v). split; [done|]. by apply elem_of_map_to_list.
Qed.

(** Replaying a complete baseline brings the original settings back. *)
Lemma replay_original n w sD sS l :
  good_net n -> l ≡ₚ restoreDNSBaseline sD sS ->
  (forall svc v, sD !! svc = Some v -> v = setting oD svc) ->
  (forall svc v, sS !! svc = Some v -> v = setting oS svc) ->
  (forall svc, sD !! svc = None -> setting (w_DNS w) svc = setting oD svc) ->
  (forall svc, sS !! svc = None -> setting (w_Search w) svc = setting oS svc) ->
  (forall svc, obeys svc = false -> setting (w_DNS w) svc = setting oD svc /\ setting (w_Search w) svc = setting oS svc) ->
  forall svc, setting (w_DNS (apply_effects n w l)) svc = setting oD svc
           /\ setting (w_Search (apply_effects n w l)) svc = setting oS svc.
Proof.
  intros [_ Ht] Hl HD HS ND NS Hm svc. destruct (restore_sets sD sS) as (Ha & H1 & H2).
  assert (Hl' : Forall (agrees (setting sD) (setting sS)) l) by (by rewrite Hl).
  assert (E : forall f, existsb f l = existsb f (restoreDNSBaseline sD sS)).
  { intros f. apply eq_true_iff_eq. rewrite !existsb_true_iff. by setoid_rewrite Hl. }
  destruct (agrees_result n _ _ l Hl' w svc) as (-> & -> & _). rewrite !E, H1, H2, Ht.
  destruct (obeys svc) eqn:Eo; [|rewrite !andb_false_r; by apply Hm]. rewrite !andb_true_r. split.
  - case_bool_decide as Es; [|apply ND; by rewrite eq_None_not_Some].
    destruct Es as [v Hv]. unfold setting at 1. rewrite Hv. by apply HD.
  - case_bool_decide as Es; [|apply NS; by rewrite eq_None_not_Some].
    destruct Es as [v Hv]. unfold setting at 1. rewrite Hv. by apply HS.
Qed.

Lemma original_restorable w :
  w_journal w = None ->
  (forall svc, setting (w_DNS w) svc = setting oD svc /\ setting (w_Search w) svc = setting oS svc) -> restorable w.
Proof. intros Hj H. unfold restorable. rewrite Hj. split_and!; intros svc; try intros _; apply H. Qed.

Lemma restore_covered sD sS : Forall (covered (MkJournal sD sS)) (restoreDNSBaseline sD sS).
Proof.
  unfold restoreDNSBaseline. apply Forall_app. split; apply Forall_fmap, Forall_forall;
    intros [svc v] Hin%elem_of_map_to_list; cbn; by eexists.
Qed.

(** Replaying a journal, cut short or not, keeps the settings restorable; to the end, they are
    the original ones. *)
Lemma replay_plan n w sD sS :
  good_net n -> restorable w ->
  (w_journal w = Some (MkJournal sD sS) \/ (w_journal w = None /\ sD = ∅ /\ sS = ∅)) ->
  let p := MkPlan [] (restoreDNSBaseline sD sS) [ERemoveJournal] in
  (forall l, cut_short p l -> restorable (apply_effects n w l))
  /\ forall svc, setting (w_DNS (apply_effects n w (plan_effects p))) svc = setting oD svc
              /\ setting (w_Search (apply_effects n w (plan_effects p))) svc = setting oS svc.
Proof.
  intros Hn Hr Hj p.
  assert (HR : forall l, l ≡ₚ restoreDNSBaseline sD sS -> forall svc,
            setting (w_DNS (apply_effects n w l)) svc = setting oD svc
            /\ setting (w_Search (apply_effects n w l)) svc = setting oS svc).
  { intros l Hl. destruct Hr as (R1 & R2 & R3).
    destruct Hj as [Hj|(Hj & -> & ->)]; rewrite Hj in R1, R2; cbn in R1, R2;
      (apply (replay_original n w _ _ l Hn Hl); [intros svc v Hv; specialize (R1 svc)|intros svc v Hv; specialize (R2 svc)
        |intros svc Hv; specialize (R1 svc)|intros svc Hv; specialize (R2 svc)|done]; rewrite ?Hv in R1; rewrite ?Hv in R2; done). }
  assert (Hlast : forall w0, w_DNS (apply_effects n w0 [ERemoveJournal]) = w_DNS w0
            /\ w_Search (apply_effects n w0 [ERemoveJournal]) = w_Search w0
            /\ w_journal (apply_effects n w0 [ERemoveJournal]) = None) by done.
  split.
  - intros l Hl. inversion Hl as [|l0 Hl0|l0 Hl0]; subst; cbn [p pl_first pl_last pl_parallel app] in *.
    + exact Hr.
    + destruct Hj as [Hj|(Hj & -> & ->)].
      * refine (proj2 (covered_restorable n w _ l0 Hn Hj Hr _)). eapply Forall_submseteq; [exact Hl0|apply restore_covered].
      * cbn in Hl0. apply submseteq_nil_r in Hl0 as ->. exact Hr.
    + rewrite apply_effects_app. destruct (Hlast (apply_effects n w l0)) as (E1 & E2 & E3).
      apply original_restorable; [done|]. rewrite E1, E2. by apply HR.
  - intros svc. unfold plan_effects, p. cbn [pl_first pl_last pl_parallel app]. rewrite apply_effects_app.
    destruct (Hlast (apply_effects n w (restoreDNSBaseline sD sS))) as (-> & -> & _). by apply HR.
Qed.

Lemma union_empty s : dh_order s = [] -> union s = ([], []).
Proof. intros H. unfold union. by rewrite H. Qed.

Lemma release_spec n d services :
  good_net n -> dns_inv d ->
  let r := releaseOrReapplyLocked n d services in
  dns_inv (run_plan n r) /\ dnsHolders (run_plan n r) = dnsHolders d
  /\ (forall l, cut_short (snd r) l -> restorable (apply_effects n (dnsWorld d) l))
  /\ (forall svc, (svc ∈ services \/ dh_order (dnsHolders d) = []) -> obeys svc = true ->
        (setting (w_DNS (dnsWorld (run_plan n r))) svc, setting (w_Search (dnsWorld (run_plan n r))) svc)
        = shown (dnsHolders d) svc).
Proof.
  intros Hn Hi. unfold releaseOrReapplyLocked, holders_len.
  destruct (Nat.ltb_spec 0 (length (dh_order (dnsHolders d)))) as [Hlen|Hlen].
  { cbv zeta. destruct (apply_spec n d services Hn Hi) as (A1 & A2 & A3 & A4). split_and!; auto.
    intros svc [Hs|He] Ho; [auto|]. rewrite He in Hlen. cbn in Hlen. lia. }
  assert (He : dh_order (dnsHolders d) = []) by (destruct (dh_order (dnsHolders d)); [done|cbn in Hlen; lia]).
  set (p := MkPlan [] (restoreDNSBaseline (dnsSavedDNS d) (dnsSavedSearch d)) [ERemoveJournal]).
  assert (Hj : w_journal (dnsWorld d) = Some (MkJournal (dnsSavedDNS d) (dnsSavedSearch d))
               \/ (w_journal (dnsWorld d) = None /\ dnsSavedDNS d = ∅ /\ dnsSavedSearch d = ∅)).
  { rewrite (di_journal d Hi). case_bool_decide as E; [right|by left]. split_and!; [done|done|].
    apply map_eq. intros svc. rewrite lookup_empty. apply (dom_None d svc Hi). by rewrite E, lookup_empty. }
  destruct (replay_plan n (dnsWorld d) _ _ Hn (inv_restorable d Hi) Hj) as [Hcut Horig]. fold p in Hcut, Horig.
  cbv zeta. cbn [snd]. split_and!.
  - split; cbn -[plan_effects]; try done; try (intros svc _; apply Horig); [apply Hi|].
    unfold plan_effects, p. cbn [pl_first pl_last pl_parallel app]. by rewrite apply_effects_app.
  - done.
  - exact Hcut.
  - intros svc _ _. unfold shown. rewrite union_empty by done. cbn -[plan_effects].
    by destruct (Horig svc) as [-> ->].
Qed.

(** ** Every state of a session *)

(** One call at a time (dnsMu), with whatever services networksetup lists; the system may rewrite
    a captured service that obeys. *)
Inductive dns_reach : Dns -> Prop :=
| dr_start w : w_journal w = None ->
    (forall svc, setting (w_DNS w) svc = setting oD svc /\ setting (w_Search w) svc = setting oS svc) ->
    dns_reach (MkDns_ no_holders ∅ ∅ w)
| dr_set n d holder entries : dns_reach d -> good_net n -> dns_reach (snd (SetDNS n d holder entries))
| dr_restore n d holder : dns_reach d -> good_net n -> dns_reach (RestoreDNS n d holder)
| dr_reapply n d : dns_reach d -> good_net n -> dns_reach (reapplyDNSIfDrifted n d)
| dr_rewrite d svc v : dns_reach d -> is_Some (dnsSavedDNS d !! svc) -> obeys svc = true ->
    dns_reach (d <| dnsWorld ::= fun w => w <| w_DNS ::= fun m => <[svc := v]> m |> |>).

Lemma inv_holders d s : dns_inv d -> holders_ok s -> dns_inv (d <| dnsHolders := s |>).
Proof. intros Hi Hs. split; cbn; try apply Hi. exact Hs. Qed.

Lemma put_back_ok s h prev : holders_ok s -> holders_ok (put_back s h prev).
Proof.
  intros Hs. unfold put_back. destruct prev; [by apply holders_set_ok|].
  destruct (holders_remove s h) eqn:E; [by eapply holders_remove_ok|done].
Qed.

Lemma SetDNS_inv n d holder entries : good_net n -> dns_inv d -> dns_inv (snd (SetDNS n d holder entries)).
Proof.
  intros Hn Hi. unfold SetDNS. destruct (_ =? _)%nat; [done|]. destruct (_ =? _)%nat; [done|]. cbv zeta.
  pose proof (inv_holders d _ Hi (holders_set_ok _ holder entries (di_holders d Hi))) as H1.
  destruct (apply_spec n _ (net_services n) Hn H1) as (A1 & A2 & _).
  unfold SetDNS_apply. destruct (SetDNS_verified n _); [exact A1|].
  refine (proj1 (release_spec n _ (net_services n) Hn _)). apply inv_holders; [exact A1|].
  apply put_back_ok. refine (eq_ind_r holders_ok _ A2). cbn. apply holders_set_ok, Hi.
Qed.

Lemma RestoreDNS_inv n d holder : good_net n -> dns_inv d -> dns_inv (RestoreDNS n d holder).
Proof.
  intros Hn Hi. unfold RestoreDNS. destruct (holders_remove _ _) as [s|] eqn:E; [|done].
  refine (proj1 (release_spec n _ (net_services n) Hn _)). apply inv_holders; [done|].
  eapply holders_remove_ok; [apply Hi|exact E].
Qed.

Lemma reapply_inv n d : good_net n -> dns_inv d -> dns_inv (reapplyDNSIfDrifted n d).
Proof.
  intros Hn Hi. unfold reapplyDNSIfDrifted. destruct (_ =? _)%nat; [done|]. destruct (existsb _ _); [|done].
  by apply apply_spec.
Qed.

Lemma reach_inv d : dns_reach d -> dns_inv d.
Proof.
  induction 1 as [w Hj Ho|n d h e _ IH Hn|n d h _ IH Hn|n d _ IH Hn|d svc v _ IH Hs Ho].
  - split; cbn; try done; try (intros svc _; apply Ho). apply no_holders_ok.
  - by apply SetDNS_inv.
  - by apply RestoreDNS_inv.
  - by apply reapply_inv.
  - split; cbn; try apply IH.
    + intros k Hk. rewrite setting_insert. case_decide; [subst; destruct Hs; congruence|by apply (di_world d IH)].
    + intros k Hk. rewrite setting_insert. case_decide; [subst; congruence|by apply (di_managed d IH)].
Qed.

(** ** Crashes *)

(** An operation cut short at any point. *)
Lemma operation_cut n d services s release l :
  dns_inv d -> good_net n -> holders_ok s ->
  cut_short (snd (if release : bool then releaseOrReapplyLocked n (d <| dnsHolders := s |>) services
                  else applyDNSUnionLocked n (d <| dnsHolders := s |>) services)) l ->
  restorable (apply_effects n (dnsWorld d) l).
Proof.
  intros Hd Hn Hs Hl. pose proof (inv_holders d s Hd Hs) as Hi.
  destruct release.
  - destruct (release_spec n (d <| dnsHolders := s |>) services Hn Hi) as (_ & _ & H & _). by apply H.
  - destruct (apply_spec n (d <| dnsHolders := s |>) services Hn Hi) as (_ & _ & H & _). by apply H.
Qed.

(** The next start cut short. *)
Lemma restart_cut n w l : good_net n -> restorable w -> cut_short (journal_plan true w) l -> restorable (apply_effects n w l).
Proof.
  unfold journal_plan, loadDNSJournal. intros Hn Hw. destruct (w_journal w) as [[sD sS]|] eqn:Ej; cbn [dj_DNS dj_Search].
  - destruct (replay_plan n w sD sS Hn Hw) as [Hc _]; [by left|]. apply Hc.
  - intros Hc. assert (l = []) as ->; [|done]. inversion Hc as [|l0 Hl0|l0 Hl0]; subst; cbn [pl_first pl_last pl_parallel app] in *; [done| |].
    + by apply submseteq_nil_r in Hl0.
    + symmetry in Hl0. by apply Permutation_nil in Hl0 as ->.
Qed.

Lemma restart_whole n w : good_net n -> restorable w ->
  let w' := snd (RestoreDNSFromJournal n true w) in
  w_journal w' = None
  /\ forall svc, setting (w_DNS w') svc = setting oD svc /\ setting (w_Search w') svc = setting oS svc.
Proof.
  unfold RestoreDNSFromJournal, journal_plan, loadDNSJournal. cbn [snd]. intros Hn Hw.
  destruct (w_journal w) as [[sD sS]|] eqn:Ej; cbn [dj_DNS dj_Search].
  - destruct (replay_plan n w sD sS Hn Hw) as [_ Ho]; [by left|]. split; [|exact Ho].
    unfold plan_effects. cbn [pl_first pl_last pl_parallel app]. by rewrite apply_effects_app.
  - destruct Hw as (R1 & R2 & R3). rewrite Ej in R1, R2. split; [done|]. intros svc. split; [apply R1|apply R2].
Qed.
End Original.

(** ** Properties *)

(** The user's DNS survives the helper.  After any session of SetDNS, RestoreDNS, drift checks
    and rewrites by the system, cut short at any point of a further operation (the parallel
    networksetup calls done in any order and number), replaying the journal at the next start sets
    every service back to its original servers and search domains and removes the journal; if that
    replay is itself cut short, the settings can still be restored. *)
Theorem dns_crash_restores (oD oS : Settings) (obeys : string -> bool) (d : Dns) (n n' : Net)
    (services : list string) (s : dnsHolderSet) (release : bool) (l : list Effect) :
  dns_reach oD oS obeys d -> good_net obeys n -> good_net obeys n' -> holders_ok s ->
  let d' := d <| dnsHolders := s |> in
  let plan := snd (if release then releaseOrReapplyLocked n d' services else applyDNSUnionLocked n d' services) in
  cut_short plan l ->
  let w := apply_effects n (dnsWorld d) l in
  (forall l', cut_short (journal_plan true w) l' -> restorable oD oS obeys (apply_effects n' w l'))
  /\ let w' := snd (RestoreDNSFromJournal n' true w) in
     w_journal w' = None
     /\ forall svc, setting (w_DNS w') svc = setting oD svc /\ setting (w_Search w') svc = setting oS svc.
Proof.
  intros Hd Hn Hn' Hs d' plan Hl w. apply reach_inv in Hd.
  assert (restorable oD oS obeys w) as Hw by (by eapply (operation_cut oD oS obeys n d services s release)).
  split; [|by apply restart_whole with obeys]. intros l' Hl'. by apply restart_cut.
Qed.

(** A machine with one service. *)
Definition one_net : Net := MkNet ["Wi-Fi"] (fun _ => true) (fun _ => true) (fun _ _ => true).
Definition home_dns : Settings := {["Wi-Fi" := ["192.168.1.1"]]}.
Definition home_world : World := MkWorld None home_dns ∅.
Definition home_start : Dns := MkDns_ no_holders ∅ ∅ home_world.

Lemma home_reach : dns_reach home_dns ∅ (fun _ => true) home_start.
Proof. by apply dr_start. Qed.

Lemma one_net_good : good_net (fun _ => true) one_net.
Proof. by split. Qed.

Lemma dns_crash_restores_witness :
  let plan := snd (applyDNSUnionLocked one_net (home_start <| dnsHolders := holders_set no_holders "utun4" ["1.1.1.1"] |>) ["Wi-Fi"]) in
  let w := apply_effects one_net home_world (pl_first plan ++ [ESetServers "Wi-Fi" ["1.1.1.1"]]) in
  setting (w_DNS w) "Wi-Fi" = ["1.1.1.1"]
  /\ setting (w_DNS (snd (RestoreDNSFromJournal one_net true w))) "Wi-Fi" = ["192.168.1.1"].
Proof.
  intros plan w. split; [vm_compute; reflexivity|].
  refine (proj1 (proj2 (proj2 (dns_crash_restores home_dns ∅ (fun _ => true) home_start one_net one_net ["Wi-Fi"]
     (holders_set no_holders "utun4" ["1.1.1.1"]) false (pl_first plan ++ [ESetServers "Wi-Fi" ["1.1.1.1"]])
     home_reach one_net_good one_net_good (holders_set_ok _ _ _ no_holders_ok) _)) "Wi-Fi")).
  apply (cut_parallel plan). apply submseteq_cons_l.
  exists [ESetSearch "Wi-Fi" []]. split; [vm_compute; reflexivity|apply submseteq_nil_l].
Defined.

(** The abstract DNS: the holders newest first, nothing else. *)
Definition abstract_holders (d : Dns) : list (string * list string) :=
  (fun h => (h, default [] (dh_entries (dnsHolders d) !! h))) <$> dh_order (dnsHolders d).

(** What SetDNS's check finds: a service that obeys, is listed and answers either time shows the union. *)
Lemma verified_by (oD oS : Settings) (obeys : string -> bool) n d holder entries svc attempt :
  good_net obeys n -> dns_inv oD oS obeys d -> svc ∈ net_services n -> obeys svc = true ->
  (attempt < 2)%nat -> net_answers n attempt svc = true ->
  SetDNS_verified n (run_plan n (SetDNS_apply n d holder entries)) = true.
Proof.
  intros Hn Hi Hsvc Ho Ha Hans. unfold SetDNS_verified, SetDNS_apply.
  pose proof (inv_holders oD oS obeys d _ Hi (holders_set_ok _ holder entries (di_holders _ _ _ d Hi))) as H1.
  destruct (apply_spec oD oS obeys n _ (net_services n) Hn H1) as (_ & A2 & _ & A4).
  set (d1 := run_plan n _) in *. assert (Hh : dnsHolders d1 = holders_set (dnsHolders d) holder entries) by exact A2.
  assert (Hv : setting (w_DNS (dnsWorld d1)) svc = fst (shown oD oS (holders_set (dnsHolders d) holder entries) svc))
    by exact (f_equal fst (A4 svc Hsvc Ho)).
  rewrite Hh. unfold shown in Hv. destruct (union (holders_set (dnsHolders d) holder entries)) as [[|x servers] search]; [done|].
  cbn [fst] in Hv |- *. unfold verifyDNS. apply existsb_true_iff.
  exists attempt. split; [destruct attempt as [|[|]]; [left|right; left|lia]|]. apply existsb_true_iff. exists svc.
  split; [done|]. rewrite Hans, Hv. apply bool_decide_eq_true. left.
Qed.

(** C23: SetDNS and RestoreDNS implement the abstract view, on a machine whose services could be read when they were
    first seen (a failed read of the baseline is taken for an empty setting, see [lost_baseline]).  When SetDNS
    succeeds the holder has the given entries, in front if it is new, and every listed service that obeys
    networksetup shows the union of all holders (a field nobody asks for keeps its original value).  It fails only if
    nothing is seen of the change in two looks; the holders are then as before, and so is what the services show,
    although they had taken the change.  When the last holder is released every service shows its original
    settings.  No entries or no services, and nothing is touched. *)
Theorem dns_shows_union (oD oS : Settings) (obeys : string -> bool) (d : Dns) (n : Net) (holder : string)
    (entries : list string) (svc : string) :
  dns_reach oD oS obeys d -> good_net obeys n -> obeys svc = true ->
  let shows (d : Dns) := (setting (w_DNS (dnsWorld d)) svc, setting (w_Search (dnsWorld d)) svc)
                         = shown oD oS (dnsHolders d) svc in
  (entries <> [] -> svc ∈ net_services n ->
     let '(r, d') := SetDNS n d holder entries in
     shows d' /\ dnsHolders d' = match r with
                                 | Ok _ => holders_set (dnsHolders d) holder entries
                                 | Err _ => dnsHolders d
                                 end
     /\ ((exists attempt, (attempt < 2)%nat /\ net_answers n attempt svc = true) -> r = Ok tt))
  /\ (forall s, holders_remove (dnsHolders d) holder = Some s -> svc ∈ net_services n \/ dh_order s = [] ->
        shows (RestoreDNS n d holder) /\ dnsHolders (RestoreDNS n d holder) = s)
  /\ SetDNS n d holder [] = (Ok tt, d)
  /\ (net_services n = [] -> entries <> [] -> SetDNS n d holder entries = (Err NoServices, d)).
Proof.
  intros Hd Hn Ho shows. apply reach_inv in Hd. split_and!.
  - intros He Hsvc. pose proof (fun a => verified_by oD oS obeys n d holder entries svc a Hn Hd Hsvc Ho) as Hver.
    unfold SetDNS. destruct (Nat.eqb_spec (length entries) 0) as [E|_]; [by apply length_zero_iff_nil in E|].
    destruct (Nat.eqb_spec (length (net_services n)) 0) as [E|_].
    { apply length_zero_iff_nil in E. rewrite E in Hsvc. by apply elem_of_nil in Hsvc. }
    cbv zeta. pose proof (di_holders _ _ _ d Hd) as Hok.
    pose proof (inv_holders oD oS obeys d _ Hd (holders_set_ok _ holder entries Hok)) as H1.
    destruct (apply_spec oD oS obeys n _ (net_services n) Hn H1) as (A1 & A2 & _ & A4).
    destruct (SetDNS_verified n _) eqn:Ev.
    + split_and!; [|exact A2|done]. unfold shows. refine (eq_trans (A4 svc Hsvc Ho) _). f_equal. symmetry. exact A2.
    + unfold SetDNS_apply in *. set (d1 := run_plan n _) in *.
      assert (Hpb : put_back (dnsHolders d1) holder (holders_get (dnsHolders d) holder) = dnsHolders d).
      { refine (eq_trans (f_equal (fun s => put_back s holder _) A2) _). by apply put_back_set. }
      assert (H2 : dns_inv oD oS obeys (d1 <| dnsHolders ::= fun s => put_back s holder (holders_get (dnsHolders d) holder) |>)).
      { apply (inv_holders oD oS obeys d1); [exact A1|]. by rewrite Hpb. }
      destruct (release_spec oD oS obeys n _ (net_services n) Hn H2) as (_ & B2 & _ & B4).
      pose proof (eq_trans B2 Hpb) as B2'.
      split_and!; [|exact B2'|intros (a & Ha & Hans); discriminate (Hver a Ha Hans)].
      unfold shows. refine (eq_trans (B4 svc (or_introl Hsvc) Ho) _). f_equal.
      refine (eq_trans _ (eq_sym B2')). exact Hpb.
  - intros s Hs Hin. unfold RestoreDNS, shows. rewrite Hs.
    assert (H1 : dns_inv oD oS obeys (d <| dnsHolders := s |>)).
    { apply inv_holders; [done|]. eapply holders_remove_ok; [apply Hd|exact Hs]. }
    destruct (release_spec oD oS obeys n _ (net_services n) Hn H1) as (_ & B2 & _ & B4).
    split; [|exact B2]. refine (eq_trans (B4 svc Hin Ho) _). f_equal. symmetry. exact B2.
  - done.
  - intros Hs He. unfold SetDNS. rewrite Hs. by destruct entries.
Qed.

(** A network tool that cannot be read after a change, though it makes it. *)
Definition blind_net : Net := MkNet ["Wi-Fi"] (fun _ => true) (fun _ => true) (fun _ _ => false).

Lemma dns_shows_union_witness :
  let entries := ["1.1.1.1"; "corp.example"] in
  setting (w_DNS (dnsWorld (snd (SetDNS one_net home_start "utun4" entries)))) "Wi-Fi" = ["1.1.1.1"]
  /\ setting (w_DNS (dnsWorld (run_plan blind_net (SetDNS_apply blind_net home_start "utun4" entries)))) "Wi-Fi" = ["1.1.1.1"]
  /\ SetDNS blind_net home_start "utun4" entries
     = (Err VerifyFailed, snd (SetDNS blind_net home_start "utun4" entries))
  /\ dnsHolders (snd (SetDNS blind_net home_start "utun4" entries)) = no_holders
  /\ (setting (w_DNS (dnsWorld (snd (SetDNS blind_net home_start "utun4" entries)))) "Wi-Fi",
      setting (w_Search (dnsWorld (snd (SetDNS blind_net home_start "utun4" entries)))) "Wi-Fi") = (["192.168.1.1"], []).
Proof.
  intros entries. split_and!; [vm_compute; reflexivity..| |].
  - exact (proj1 (proj2 (proj1 (dns_shows_union home_dns ∅ (fun _ => true) home_start blind_net "utun4" entries
       "Wi-Fi" home_reach ltac:(by split) eq_refl) ltac:(discriminate) ltac:(apply list_elem_of_here)))).
  - exact (proj1 (proj1 (dns_shows_union home_dns ∅ (fun _ => true) home_start blind_net "utun4" entries
       "Wi-Fi" home_reach ltac:(by split) eq_refl) ltac:(discriminate) ltac:(apply list_elem_of_here))).
Defined.

(** A network tool whose first read of a service fails. *)
Definition deaf_net : Net := MkNet ["Wi-Fi"] (fun _ => false) (fun _ => true) (fun _ _ => true).

(** A read that fails while the baseline is captured is taken for an empty setting: the user's
    servers are recorded as none, and releasing the last holder then clears them. *)
Theorem lost_baseline :
  setting (w_DNS (dnsWorld home_start)) "Wi-Fi" = ["192.168.1.1"]
  /\ let d := run_plan deaf_net (SetDNS_apply deaf_net home_start "utun4" ["1.1.1.1"]) in
     setting (w_DNS (dnsWorld d)) "Wi-Fi" = ["1.1.1.1"] /\ SetDNS_verified one_net d = true
     /\ setting (w_DNS (dnsWorld (RestoreDNS one_net d "utun4"))) "Wi-Fi" = []
     /\ w_journal (dnsWorld (RestoreDNS one_net d "utun4")) = None.
Proof. vm_compute. auto. Qed.
