(* ===== verification/NetRoutes.v ===== *)
(** * Addresses, routes and MTU: internal/network/darwin.go

    The output of a command that is parsed is an argument of the function that parses it; a
    command run for its effect is a list of words, appended to a log, and whether it succeeds is
    answered by an oracle that sees the log.  [DarwinManager] is the state guarded by m.mu. *)

From S2P Require Import Prelude GoStrings GoText GoNet.

(** ** Commands *)

Definition Cmd := list string.

(** Does this command succeed, after these? *)
Definition Oracle := list Cmd -> Cmd -> bool.

Definition cmdIfconfig : string := "/sbin/ifconfig".
Definition cmdRoute : string := "/sbin/route".

Definition run (ok : Oracle) (log : list Cmd) (c : Cmd) : bool * list Cmd := (ok log c, log ++ [c]).

(** ** Parsing *)

Definition lines (out : string) : list string := split_byte newline out.

(** fmt.Sscanf(s, "%d", &n), n being 0 before *)
Definition decimal_digit (c : ascii) : bool :=
  match digit_val c with Some d => (d <? 10)%Z | None => false end.

Definition scan_digits (s : string) : string := fst (span decimal_digit s).

Definition blank1 (c : ascii) : bool := byte_is c 32 || byte_is c 9.

Definition scan_int (s : string) : Z :=
  let s := snd (span blank1 s) in
  let '(sign, body) :=
    match s with
    | String "+" r => ("+", r)
    | String "-" r => ("-", r)
    | _ => ("", s)
    end in
  default 0%Z (parse_int 10 (sign +:+ scan_digits body)).

Definition prefixLen (cidr : string) : Z :=
  match cut_byte "/" cidr with
  | None => if contains_byte ":" cidr then 128 else 32
  | Some (_, bits) => scan_int bits
  end.

(** The insertion loop of sortAllowedIPs, on the sorted part reversed. *)
Fixpoint insert_back (cur : string) (sorted_rev : list string) : list string :=
  match sorted_rev with
  | x :: rest => if (prefixLen x <? prefixLen cur)%Z then x :: insert_back cur rest else cur :: sorted_rev
  | [] => [cur]
  end.

Definition sortAllowedIPs (cidrs : list string) : list string :=
  rev (foldl (fun acc cur => insert_back cur acc) [] cidrs).

Fixpoint routeUsesInterface_lines (ls : list string) (ifaceName : string) : bool :=
  match ls with
  | [] => false
  | l :: ls' =>
      let l := trim_space l in
      if has_prefix "interface:" l then trim_space (trim_prefix "interface:" l) =s ifaceName
      else routeUsesInterface_lines ls' ifaceName
  end.

Definition routeUsesInterface (out ifaceName : string) : bool := routeUsesInterface_lines (lines out) ifaceName.

(** The first default row of the routing table with a real gateway; [None] is an error. *)
Fixpoint gateway_lines (ls : list string) : option string :=
  match ls with
  | [] => None
  | l :: ls' =>
      match fields l with
      | dest :: gw :: _ =>
          if negb (dest =s "default") then gateway_lines ls'
          else if has_prefix "link#" gw then gateway_lines ls'
          else Some gw
      | _ => gateway_lines ls'
      end
  end.

(** [out] is [None] when netstat fails. *)
Definition getDefaultGatewayFor (out : option string) : option string :=
  match out with Some o => gateway_lines (lines o) | None => None end.

(** The last column with this title. *)
Definition column (title : string) (header : list string) (old : option nat) : option nat :=
  snd (foldl (fun '(i, r) f => (S i, if f =s title then Some i else r)) (O, old) header).

(** The Destination, Gateway and Netif columns: filled in until a row has Netif. *)
Record Header := MkHeader { hd_dest : option nat; hd_gw : option nat; hd_netif : option nat }.

Definition no_header : Header := MkHeader None None None.

Definition read_header_row (h : Header) (fs : list string) : Header :=
  MkHeader (column "Destination" fs (hd_dest h)) (column "Gateway" fs (hd_gw h)) (column "Netif" fs (hd_netif h)).

Fixpoint default_interface_lines (h : Header) (ls : list string) : string :=
  match ls with
  | [] => ""
  | l :: ls' =>
      let fs := fields l in
      if (length fs =? 0)%nat then default_interface_lines h ls'
      else match hd_netif h with
           | None => default_interface_lines (read_header_row h fs) ls'
           | Some n =>
               match hd_dest h with
               | Some d =>
                   if (length fs <=? Nat.max n d)%nat then default_interface_lines h ls'
                   else if default "" (fs !! d) =s "default" then default "" (fs !! n)
                   else default_interface_lines h ls'
               | None => default_interface_lines h ls'
               end
           end
  end.

Definition getDefaultInterface (out : option string) : string :=
  match out with Some o => default_interface_lines no_header (lines o) | None => "" end.

Definition getInterfaceMTU (out : option string) : Z :=
  match out with
  | Some o => match find_first (after_prefix "mtu ") o with Some rest => scan_int rest | None => 0 end
  | None => 0
  end.

(** The destinations deleteInterfaceRoutes deletes. *)
Fixpoint interface_routes (h : Header) (ifaceName family : string) (ls : list string) : list string :=
  match ls with
  | [] => []
  | l :: ls' =>
      let fs := fields l in
      match hd_netif h with
      | None => interface_routes (read_header_row h fs) ifaceName family ls'
      | Some n =>
          match hd_dest h, hd_gw h with
          | Some d, Some g =>
              if (length fs <=? Nat.max n (Nat.max d g))%nat then interface_routes h ifaceName family ls'
              else
                let netif := default "" (fs !! n) in
                let gw := default "" (fs !! g) in
                if (netif =s ifaceName)
                   || ((family =s "inet6") && has_prefix "lo" netif && (gw =s ifaceName))
                then default "" (fs !! d) :: interface_routes h ifaceName family ls'
                else interface_routes h ifaceName family ls'
          | _, _ => interface_routes h ifaceName family ls'
          end
      end
  end.

Fixpoint service_lines (first : bool) (ls : list string) : list string :=
  match ls with
  | [] => []
  | l :: ls' =>
      let l := trim_space l in
      if l =s "" then service_lines first ls'
      else if first then service_lines false ls'
      else
        let l := match l with String "*" r => trim_space r | _ => l end in
        (if l =s "" then [] else [l]) ++ service_lines false ls'
  end.

Definition getAllNetworkServices (out : option string) : list string :=
  match out with Some o => service_lines true (lines o) | None => [] end.

Definition getCurrentDNS (out : option string) : option (list string) :=
  match out with
  | None => None
  | Some o => Some (List.filter (fun s => negb (s =s "") && ip_valid s) (trim_space <$> lines (trim_space o)))
  end.

Definition getCurrentSearchDomains (out : option string) : option (list string) :=
  match out with
  | None => None
  | Some o => Some (List.filter (fun s => negb (s =s "") && negb (contains_byte " " s) && negb (contains_byte "009" s))
                      (trim_space <$> lines (trim_space o)))
  end.

(** The multiset comparison of stringSetEqual, with its map of counters. *)
Fixpoint count_down (set : gmap string Z) (b : list string) : bool :=
  match b with
  | [] => true
  | s :: b' =>
      let n := (default 0 (set !! s) - 1)%Z in
      if (n <? 0)%Z then false else count_down (<[s := n]> set) b'
  end.

Definition count_up (a : list string) : gmap string Z :=
  foldl (fun set s => <[s := (default 0 (set !! s) + 1)%Z]> set) ∅ a.

Definition stringSetEqual (a b : list string) : bool :=
  if negb (length a =? length b)%nat then false else count_down (count_up a) b.

(** ** The manager *)

Record DarwinManager := MkDarwin {
  bypassEndpoints : list string;
  lastIface : string;
  lastEndpoints : list string;
  lastMTU : Z;
  lastGatewayV4 : string;
  lastGatewayV6 : string;
  lastHasV4Default : bool;
  lastHasV6Default : bool;
  lastUpstreamIface : string;
  pinInterface : bool
}.

#[export] Instance eta_darwin : Eta DarwinManager := fun r =>
  MkDarwin (bypassEndpoints r) (lastIface r) (lastEndpoints r) (lastMTU r) (lastGatewayV4 r)
    (lastGatewayV6 r) (lastHasV4Default r) (lastHasV6Default r) (lastUpstreamIface r) (pinInterface r).

Definition new_darwin : DarwinManager := MkDarwin [] "" [] 0 "" "" false false "" false.

Definition SetPinInterface (m : DarwinManager) (enabled : bool) : DarwinManager :=
  let m := m <| pinInterface := enabled |> in
  if enabled then m else m <| lastUpstreamIface := "" |>.

Inductive NetError :=
| InvalidAddress (addr : string) | AssignFailed (addr : string) | MtuFailed
| RouteFailed (dest : string) | InvalidEndpoint (ip : string) | BypassFailed (ip : string).

(** [ip_text] is net.IP.String. *)
Section Ifconfig.
Variable ip_text : list Z -> string.

Fixpoint AssignAddress (ok : Oracle) (ifaceName : string) (addresses : list string) (log : list Cmd)
    : result NetError unit * list Cmd :=
  match addresses with
  | [] => (Ok tt, log)
  | addr :: rest =>
      match parse_cidr addr with
      | None => (Err (InvalidAddress addr), log)
      | Some (ip, _) =>
          let cmd := match to4 ip with
                     | Some _ => [cmdIfconfig; ifaceName; "inet"; addr; ip_text ip; "alias"]
                     | None => [cmdIfconfig; ifaceName; "inet6"; addr; "alias"]
                     end in
          let '(done_, log) := run ok log cmd in
          if done_ then AssignAddress ok ifaceName rest log else (Err (AssignFailed addr), log)
      end
  end.
End Ifconfig.

(** The MTU SetMTU aims at; [upstream] is the default interface's MTU when it has one. *)
Definition target_mtu (upstream : option Z) (mtu : Z) : Z :=
  if (mtu <=? 0)%Z then
    let up := match upstream with Some v => if (0 <? v)%Z then v else 1500 | None => 1500 end%Z in
    Z.max (up - 80) 1280
  else mtu.

Definition SetMTU (ok : Oracle) (upstream : option Z) (current : Z) (m : DarwinManager) (ifaceName : string)
    (mtu : Z) (log : list Cmd) : result NetError unit * DarwinManager * list Cmd :=
  let mtu := target_mtu upstream mtu in
  if (current =? mtu)%Z then (Ok tt, m <| lastMTU := mtu |>, log)
  else
    let '(done_, log) := run ok log [cmdIfconfig; ifaceName; "mtu"; itoa mtu] in
    if done_ then (Ok tt, m <| lastMTU := mtu |>, log) else (Err MtuFailed, m, log).

(** ** Bypass routes *)

Definition family_of (ip : string) : string := if contains_byte ":" ip then "-inet6" else "-inet".

(** [ip.To4() == nil]; [None] when [ip] is no address *)
Definition is_v6 (ip : string) : option bool :=
  match parse_ip ip with
  | Some a => Some (match to4 a with Some _ => false | None => true end)
  | None => None
  end.

(** [route add], else [route change]. *)
Definition add_or_change (ok : Oracle) (log : list Cmd) (rest : list string) : bool * list Cmd :=
  let '(r, log) := run ok log ([cmdRoute; "-q"; "-n"; "add"] ++ rest) in
  if r then (true, log) else run ok log ([cmdRoute; "-q"; "-n"; "change"] ++ rest).

(** The gateways of both families; [None] is a failed probe. *)
Record Gateways := MkGw { gw_v4 : option string; gw_v6 : option string }.

Definition addBypassForIP (ok : Oracle) (m : DarwinManager) (ipStr : string) (g : Gateways) (log : list Cmd)
    : result NetError unit * DarwinManager * list Cmd :=
  match is_v6 ipStr with
  | None => (Err (InvalidEndpoint ipStr), m, log)
  | Some v6 =>
      let gw := default "" (if v6 then gw_v6 g else gw_v4 g) in
      let family := if v6 then "-inet6" else "-inet" in
      let recorded := m <| bypassEndpoints ::= fun l => l ++ [ipStr] |> in
      if gw =s "" then
        let '(_, log) := run ok log [cmdRoute; "-q"; "-n"; "add"; family; ipStr;
                                     (if v6 then "::1" else "127.0.0.1"); "-blackhole"] in
        (Ok tt, recorded, log)
      else
        let plain := [family; ipStr; "-gateway"; gw] in
        let iface := lastUpstreamIface m in
        let '(r, log) :=
          if iface =s "" then add_or_change ok log plain
          else
            let '(r, log) := add_or_change ok log (plain ++ ["-ifscope"; iface]) in
            if r then (true, log) else add_or_change ok log plain in
        if r then (Ok tt, recorded, log) else (Err (BypassFailed ipStr), m, log)
  end.

(** An endpoint whose family was hijacked. *)
Definition hijacked (v4 v6 : bool) (ip : string) : bool :=
  match is_v6 ip with Some is6 => if is6 then v6 else v4 | None => false end.

(** The loops of AddRoutes and reapply: the errors are only logged. *)
Fixpoint bypass_all (ok : Oracle) (v4 v6 : bool) (skip : string -> bool) (g : Gateways) (eps : list string)
    (m : DarwinManager) (log : list Cmd) : DarwinManager * list Cmd :=
  match eps with
  | [] => (m, log)
  | ep :: rest =>
      if (ep =s "") || skip ep || negb (hijacked v4 v6 ep) then bypass_all ok v4 v6 skip g rest m log
      else let '(_, m, log) := addBypassForIP ok m ep g log in bypass_all ok v4 v6 skip g rest m log
  end.

(** ** AddRoutes *)

(** The routes of the allowed networks that are no default route; [in_place] is whether the route in
    place already uses the interface. *)
Fixpoint network_routes (ok : Oracle) (in_place : string -> bool) (ifaceName : string) (cidrs : list string)
    (log : list Cmd) : result NetError unit * list Cmd :=
  match cidrs with
  | [] => (Ok tt, log)
  | cidr :: rest =>
      if (cidr =s "0.0.0.0/0") || (cidr =s "::/0") || in_place cidr then network_routes ok in_place ifaceName rest log
      else
        let '(r, log) := run ok log [cmdRoute; "-q"; "-n"; "add"; family_of cidr; cidr; "-interface"; ifaceName] in
        if r then network_routes ok in_place ifaceName rest log else (Err (RouteFailed cidr), log)
  end.

(** The halves of a default route, each with its family. *)
Definition split_routes (v4 v6 : bool) : list (string * string) :=
  (if v4 then [("-inet", "0.0.0.0/1"); ("-inet", "128.0.0.0/1")] else [])
  ++ (if v6 then [("-inet6", "::/1"); ("-inet6", "8000::/1")] else []).

Fixpoint add_split (ok : Oracle) (ifaceName : string) (rs : list (string * string)) (log : list Cmd)
    : result NetError unit * list Cmd :=
  match rs with
  | [] => (Ok tt, log)
  | (fam, dest) :: rest =>
      let '(r, log) := run ok log [cmdRoute; "-q"; "-n"; "add"; fam; dest; "-interface"; ifaceName] in
      if r then add_split ok ifaceName rest log else (Err (RouteFailed dest), log)
  end.

(** What AddRoutes reads of the machine. *)
Record Probes := MkProbes {
  pb_using : string -> bool;       (** route get *)
  pb_upstream : string;            (** getDefaultInterface *)
  pb_gateways : Gateways;          (** for the bypass routes *)
  pb_snapshot : Gateways           (** after them *)
}.

Definition AddRoutes (ok : Oracle) (pb : Probes) (m : DarwinManager) (ifaceName : string)
    (allowedIPs endpoints : list string) (tableCfg : string) (log : list Cmd)
    : result NetError unit * DarwinManager * list Cmd :=
  if equal_fold tableCfg "off" then (Ok tt, m, log)
  else
    let sorted := sortAllowedIPs allowedIPs in
    let v4 := bool_decide ("0.0.0.0/0" ∈ sorted) in
    let v6 := bool_decide ("::/0" ∈ sorted) in
    match network_routes ok (pb_using pb) ifaceName sorted log with
    | (Err e, log) => (Err e, m, log)
    | (Ok _, log) =>
        let m := if pinInterface m then m <| lastUpstreamIface := pb_upstream pb |> else m in
        match add_split ok ifaceName (split_routes v4 v6) log with
        | (Err e, log) => (Err e, m, log)
        | (Ok _, log) =>
            let g := MkGw (if v4 then gw_v4 (pb_gateways pb) else None) (if v6 then gw_v6 (pb_gateways pb) else None) in
            let '(m, log) := bypass_all ok v4 v6 (fun _ => false) g endpoints m log in
            (Ok tt,
             m <| lastIface := ifaceName |> <| lastEndpoints := endpoints |>
               <| lastHasV4Default := v4 |> <| lastHasV6Default := v6 |>
               <| lastGatewayV4 := default "" (gw_v4 (pb_snapshot pb)) |>
               <| lastGatewayV6 := default "" (gw_v6 (pb_snapshot pb)) |>, log)
        end
    end.

(** ** reapply *)

(** The bypass routes deleted and the endpoints whose route stays. *)
Fixpoint drop_stale (ok : Oracle) (gatewayChanged : bool) (live : list string) (old : list string) (log : list Cmd)
    : list string * list Cmd :=
  match old with
  | [] => ([], log)
  | ip :: rest =>
      if gatewayChanged || negb (bool_decide (ip ∈ live)) then
        let '(_, log) := run ok log [cmdRoute; "-q"; "-n"; "delete"; family_of ip; ip] in
        drop_stale ok gatewayChanged live rest log
      else let '(kept, log) := drop_stale ok gatewayChanged live rest log in (ip :: kept, log)
  end.

(** What reapply reads: the peers' endpoints, the gateways, the upstream interface, the MTU. *)
Record Seen := MkSeen {
  sn_live : list string; sn_gateways : Gateways; sn_upstream : string; sn_mtu : Z }.

Definition reapply (ok : Oracle) (sn : Seen) (m : DarwinManager) (log : list Cmd) : DarwinManager * list Cmd :=
  if lastIface m =s "" then (m, log)
  else
    let old := lastEndpoints m in
    let live := match sn_live sn with [] => old | l => l end in
    let g4 := default "" (gw_v4 (sn_gateways sn)) in
    let g6 := default "" (gw_v6 (sn_gateways sn)) in
    let gatewayChanged := negb (g4 =s lastGatewayV4 m) || negb (g6 =s lastGatewayV6 m) in
    let endpointsChanged := negb (stringSetEqual old live) in
    let v4 := lastHasV4Default m in
    let v6 := lastHasV6Default m in
    if negb ((v4 || v6) && (gatewayChanged || endpointsChanged)) then (m, log)
    else
      let '(kept, log) := drop_stale ok gatewayChanged live (bypassEndpoints m) log in
      let m := m <| bypassEndpoints := kept |> in
      let '(m, log) := bypass_all ok v4 v6 (fun ep => negb gatewayChanged && bool_decide (ep ∈ old))
                         (sn_gateways sn) live m log in
      let m := m <| lastEndpoints := live |> <| lastGatewayV4 := g4 |> <| lastGatewayV6 := g6 |>
                 <| lastUpstreamIface := if pinInterface m then sn_upstream sn else "" |> in
      if (0 <? lastMTU m)%Z && negb (sn_mtu sn =? lastMTU m)%Z && (0 <? sn_mtu sn)%Z
      then (m, snd (run ok log [cmdIfconfig; lastIface m; "mtu"; itoa (lastMTU m)]))
      else (m, log).

(** ** Cleanup *)

Definition delete_routes (ok : Oracle) (family : string) (dests : list string) (log : list Cmd) : list Cmd :=
  foldl (fun log d => snd (run ok log [cmdRoute; "-q"; "-n"; "delete";
                                       (if family =s "inet6" then "-inet6" else "-inet"); d])) log dests.

(** [out] is [None] when netstat fails. *)
Definition deleteInterfaceRoutes (ok : Oracle) (ifaceName family : string) (out : option string) (log : list Cmd)
    : list Cmd :=
  match out with
  | Some o => delete_routes ok family (interface_routes no_header ifaceName family (lines o)) log
  | None => log
  end.

(** Cleanup without its RestoreDNS, see NetDns.v. *)
Definition Cleanup (ok : Oracle) (m : DarwinManager) (ifaceName : string) (inet inet6 : option string) (log : list Cmd)
    : DarwinManager * list Cmd :=
  let log := deleteInterfaceRoutes ok ifaceName "inet" inet log in
  let log := deleteInterfaceRoutes ok ifaceName "inet6" inet6 log in
  (m <| bypassEndpoints := [] |> <| lastIface := "" |> <| lastEndpoints := [] |>
     <| lastGatewayV4 := "" |> <| lastGatewayV6 := "" |>
     <| lastHasV4Default := false |> <| lastHasV6Default := false |>,
   foldl (fun log ip => snd (run ok log [cmdRoute; "-q"; "-n"; "delete"; family_of ip; ip])) log (bypassEndpoints m)).

(** ** collectLiveEndpoints: what reapply is told of the peers

    [dev]: the endpoint of each peer as wgctrl reads it, [None] when it cannot. *)

Fixpoint distinct_endpoints (seen : list string) (peers : list (option string)) : list string :=
  match peers with
  | [] => []
  | None :: peers => distinct_endpoints seen peers
  | Some ip :: peers =>
      if bool_decide (ip ∈ seen) then distinct_endpoints seen peers else ip :: distinct_endpoints (ip :: seen) peers
  end.

Definition collectLiveEndpoints (dev : option (list (option string))) : list string :=
  match dev with Some peers => distinct_endpoints [] peers | None => [] end.
