(* ===== verification/NetRoutesFacts.v ===== *)
(** * Routes: the order of routes, the endpoint comparison, and the bypass routes

    [bypass_tracks_endpoints]: on a routing table that obeys route(8), the host routes there and the recorded
    ones are those of the peers' current endpoints in the hijacked families, by the current gateways, after AddRoutes and
    after every reapply.  [failed_bypass_not_retried] and [pinned_to_the_old_interface] are about what goes wrong. *)

From S2P Require Import Prelude GoStrings GoText GoNet NetDnsFacts NetRoutes.

#[local] Set Warnings "-clear-no-such-hyp".

(** ** sortAllowedIPs *)

Definition of_length (n : Z) (cidr : string) : bool := (prefixLen cidr =? n)%Z.

Lemma insert_back_perm cur acc : insert_back cur acc ≡ₚ cur :: acc.
Proof.
  induction acc as [|x acc IH]; cbn; [done|]. destruct (_ <? _)%Z; [|done].
  rewrite IH. apply Permutation_swap.
Qed.

Lemma insert_back_stable n cur acc :
  List.filter (of_length n) (insert_back cur acc)
  = (if of_length n cur then [cur] else []) ++ List.filter (of_length n) acc.
Proof.
  unfold of_length. induction acc as [|x acc IH]; cbn [insert_back].
  { cbn. by destruct (_ =? _)%Z. }
  destruct (Z.ltb_spec (prefixLen x) (prefixLen cur)) as [Hlt|Hge]; cbn [List.filter].
  - rewrite IH. destruct (Z.eqb_spec (prefixLen x) n) as [Hx|]; [|done].
    destruct (Z.eqb_spec (prefixLen cur) n); [lia|done].
  - by destruct (Z.eqb_spec (prefixLen cur) n).
Qed.

Abbreviation ascending := (StronglySorted (fun x y => (prefixLen x <= prefixLen y)%Z)).

Lemma insert_back_sorted cur acc : ascending acc -> ascending (insert_back cur acc).
Proof.
  induction 1 as [|x acc Hs IH Hf]; cbn; [by repeat constructor|].
  destruct (Z.ltb_spec (prefixLen x) (prefixLen cur)) as [Hlt|Hge].
  - constructor; [done|]. rewrite insert_back_perm. constructor; [lia|done].
  - constructor; [by constructor|]. constructor; [lia|]. eapply Forall_impl; [exact Hf|]. cbn. intros y Hy. lia.
Qed.

Lemma sort_fold l : forall acc, ascending acc ->
  let r := foldl (fun acc cur => insert_back cur acc) acc l in
  ascending r /\ r ≡ₚ l ++ acc
  /\ forall n, List.filter (of_length n) r = rev (List.filter (of_length n) l) ++ List.filter (of_length n) acc.
Proof.
  induction l as [|x l IH]; intros acc Ha; cbn [foldl]; [done|].
  destruct (IH (insert_back x acc) (insert_back_sorted x acc Ha)) as (H1 & H2 & H3). split_and!; [done| |].
  - rewrite H2, insert_back_perm. cbn. by rewrite Permutation_middle.
  - intros n. rewrite H3, insert_back_stable. cbn [List.filter]. destruct (of_length n x); [|done].
    cbn [rev]. by rewrite <- app_assoc.
Qed.

Lemma StronglySorted_rev l : ascending l -> StronglySorted (fun x y => (prefixLen y <= prefixLen x)%Z) (rev l).
Proof.
  induction 1 as [|x l Hs IH Hf]; [constructor|]. cbn.
  enough (Happ : forall k, StronglySorted (fun x y => (prefixLen y <= prefixLen x)%Z) k ->
            Forall (fun y => (prefixLen x <= prefixLen y)%Z) k ->
            StronglySorted (fun x y => (prefixLen y <= prefixLen x)%Z) (k ++ [x])).
  { apply Happ; [exact IH|]. by apply Forall_rev. }
  clear. induction 1 as [|y k Hs IH Hf]; intros Hx; [by repeat constructor|].
  apply Forall_cons in Hx as [Hy Hx]. cbn. constructor; [auto|]. apply Forall_app. split; [done|]. by constructor.
Qed.

Lemma filter_rev_ {A} (f : A -> bool) l : List.filter f (rev l) = rev (List.filter f l).
Proof.
  induction l as [|x l IH]; [done|]. cbn. rewrite List.filter_app, IH. cbn.
  destruct (f x); cbn; by rewrite ?app_nil_r.
Qed.

Lemma sortAllowedIPs_spec (l : list string) :
  sortAllowedIPs l ≡ₚ l
  /\ StronglySorted (fun x y => (prefixLen y <= prefixLen x)%Z) (sortAllowedIPs l)
  /\ forall n, List.filter (of_length n) (sortAllowedIPs l) = List.filter (of_length n) l.
Proof.
  unfold sortAllowedIPs. destruct (sort_fold l [] (SSorted_nil _)) as (H1 & H2 & H3). split_and!.
  - rewrite <- Permutation_rev, H2. by rewrite app_nil_r.
  - by apply StronglySorted_rev.
  - intros n. rewrite filter_rev_, H3. cbn. by rewrite app_nil_r, rev_involutive.
Qed.

(** Routes are installed longest prefix first and otherwise in the order given: the insertion
    loop returns a permutation of its input, sorted by decreasing prefix length, in which networks of
    equal length keep their order.  These three determine the result. *)
Theorem sortAllowedIPs_stable (l : list string) :
  sortAllowedIPs l ≡ₚ l
  /\ StronglySorted (fun x y => (prefixLen y <= prefixLen x)%Z) (sortAllowedIPs l)
  /\ forall n, List.filter (of_length n) (sortAllowedIPs l) = List.filter (of_length n) l.
Proof. apply sortAllowedIPs_spec. Qed.

(** ** stringSetEqual *)

Definition occurrences (s : string) (l : list string) : Z := Z.of_nat (length (List.filter (fun x => x =s s) l)).

(** The counters of the multiset [l]. *)
Definition counts (set : gmap string Z) (l : list string) : Prop :=
  forall s, default 0%Z (set !! s) = occurrences s l.

Lemma occurrences_cons s x l : occurrences s (x :: l) = ((if x =s s then 1 else 0) + occurrences s l)%Z.
Proof. unfold occurrences. cbn. destruct (x =s s); cbn; lia. Qed.

Lemma occurrences_perm s l k : l ≡ₚ k -> occurrences s l = occurrences s k.
Proof. induction 1; rewrite ?occurrences_cons in *; lia. Qed.

Lemma occurrences_pos s l : (0 < occurrences s l)%Z <-> s ∈ l.
Proof.
  induction l as [|x l IH]; [unfold occurrences; cbn; rewrite elem_of_nil; lia|].
  rewrite occurrences_cons, elem_of_cons, <- IH. assert (0 <= occurrences s l)%Z by (unfold occurrences; lia).
  destruct (bool_decide_reflect (x = s)) as [->|Hne].
  - split; intros; [by left|lia].
  - split; [intros; right; lia|]. intros [->|?]; [done|lia].
Qed.

Lemma count_up_spec a : counts (count_up a) a.
Proof.
  unfold count_up. enough (H : forall set b, counts set b -> counts (foldl (fun set s =>
      <[s := (default 0 (set !! s) + 1)%Z]> set) set a) (a ++ b)).
  { specialize (H ∅ []). rewrite app_nil_r in H. apply H. intros s. by rewrite lookup_empty. }
  induction a as [|x a IH]; intros set b Hc; cbn [foldl]; [done|].
  assert (H : counts (<[x := (default 0 (set !! x) + 1)%Z]> set) (x :: b)).
  { intros s. rewrite occurrences_cons. destruct (bool_decide_reflect (x = s)) as [->|Hne].
    - rewrite lookup_insert_eq. cbn. rewrite Hc. lia.
    - rewrite lookup_insert_ne by done. rewrite Hc. lia. }
  specialize (IH _ _ H). intros s. rewrite IH. apply occurrences_perm. cbn. by rewrite Permutation_middle.
Qed.

Lemma count_down_spec b : forall set a, counts set a -> count_down set b = true <-> b ⊆+ a.
Proof.
  induction b as [|x b IH]; intros set a Hc; cbn [count_down].
  { split; [intros _; apply submseteq_nil_l|done]. }
  rewrite Hc. destruct (Z.ltb_spec (occurrences x a - 1) 0) as [Hlt|Hge].
  - split; [done|]. intros Hs. assert (Hin : x ∈ a) by (eapply elem_of_submseteq; [by left|exact Hs]).
    apply occurrences_pos in Hin. lia.
  - assert (Hin : x ∈ a) by (apply occurrences_pos; lia). apply elem_of_Permutation in Hin as [a' Ha].
    rewrite (IH _ a').
    + split; intros Hs.
      * rewrite Ha. by apply submseteq_skip.
      * rewrite Ha in Hs. by apply (submseteq_app_inv_l _ _ [x]) in Hs.
    + intros s. pose proof (occurrences_perm s _ _ Ha) as Hp. rewrite occurrences_cons in Hp.
      destruct (bool_decide_reflect (x = s)) as [->|Hne].
      * rewrite lookup_insert_eq. cbn [default from_option id]. rewrite Hc. lia.
      * rewrite lookup_insert_ne by done. rewrite Hc. lia.
Qed.

Lemma string_set_equal_perm (a b : list string) : stringSetEqual a b = true <-> a ≡ₚ b.
Proof.
  unfold stringSetEqual. destruct (Nat.eqb_spec (length a) (length b)) as [Hl|Hl]; cbn [negb].
  - rewrite (count_down_spec b _ a) by apply count_up_spec. split.
    + intros Hs. symmetry. by apply submseteq_length_Permutation; [|rewrite Hl].
    + intros Hp. by rewrite Hp.
  - split; [done|]. intros Hp. by rewrite Hp in Hl.
Qed.

(** ** Bypass routes *)

(** Endpoints that need a bypass route. *)
Definition wanted (v4 v6 : bool) (ip : string) : bool := negb (ip =s "") && hijacked v4 v6 ip.

Lemma wanted_family v4 v6 ip : wanted v4 v6 ip = true -> v4 || v6 = true.
Proof. unfold wanted, hijacked. destruct (is_v6 ip) as [[]|], v4, v6; cbn; rewrite ?andb_false_r; done. Qed.

(** *** The routing table, and what route(8) does to it *)

Inductive Hop := Via (gateway : string) | ViaScoped (gateway iface : string) | Through (iface : string) | Blackhole.

Abbreviation Table := (gmap string Hop).

(** A network of one host is its address. *)
Definition dest_key (dest : string) : string :=
  match cut_byte "/" dest with
  | Some (a, bits) => if bits =s (if contains_byte ":" a then "128" else "32") then a else dest
  | None => dest
  end.

Definition hop_of (words : list string) : option Hop :=
  match words with
  | [x; y] => if x =s "-gateway" then Some (Via y) else if x =s "-interface" then Some (Through y)
              else if y =s "-blackhole" then Some Blackhole else None
  | [_; gw; _; iface] => Some (ViaScoped gw iface)
  | _ => None
  end.

(** An add needs that there is no route, a change and a delete that there is one. *)
Definition route_exec (t : Table) (c : Cmd) : bool * Table :=
  match c with
  | prog :: _ :: _ :: verb :: _ :: dest :: words =>
      let key := dest_key dest in
      if negb (prog =s cmdRoute) then (true, t)
      else if verb =s "delete" then match t !! key with Some _ => (true, delete key t) | None => (false, t) end
      else match hop_of words with
           | None => (false, t)
           | Some h => if bool_decide (is_Some (t !! key) <-> verb = "change") then (true, <[key := h]> t) else (false, t)
           end
  | _ => (true, t)
  end.

(** The table after these commands, and the oracle of commands that do what they say. *)
Definition table_of (t0 : Table) (log : list Cmd) : Table := foldl (fun t c => snd (route_exec t c)) t0 log.

Definition route_ok (t0 : Table) : Oracle := fun log c => fst (route_exec (table_of t0 log) c).

Lemma table_of_snoc t0 log c : table_of t0 (log ++ [c]) = snd (route_exec (table_of t0 log) c).
Proof. unfold table_of. by rewrite foldl_app. Qed.

Lemma is_v6_key ip : is_Some (is_v6 ip) -> dest_key ip = ip.
Proof.
  intros H. assert (Hp : is_Some (parse_ip ip)) by (unfold is_v6 in H; by destruct (parse_ip ip)).
  apply parse_ip_chars in Hp. unfold dest_key. rewrite cut_byte_None; [done|].
  by apply (string_forall_contains addr_char).
Qed.

(** A route can be added, or changed where there is one. *)
Definition adds_work (ok : Oracle) : Prop :=
  forall log fam dest words, is_Some (hop_of words) ->
    ok log ([cmdRoute; "-q"; "-n"; "add"; fam; dest] ++ words) = true
    \/ ok (log ++ [[cmdRoute; "-q"; "-n"; "add"; fam; dest] ++ words]) ([cmdRoute; "-q"; "-n"; "change"; fam; dest] ++ words) = true.

Lemma route_ok_adds t0 : adds_work (route_ok t0).
Proof.
  intros log fam dest words [h Hh]. unfold route_ok. rewrite table_of_snoc. set (t := table_of t0 log).
  unfold route_exec. cbn [app]. rewrite Hh. cbn [negb]. rewrite (bool_decide_eq_true_2 (cmdRoute = cmdRoute)) by done. cbn [negb].
  rewrite !(bool_decide_eq_false_2 (_ = "delete")) by done.
  destruct (t !! dest_key dest) as [h'|] eqn:E.
  - right. rewrite (bool_decide_eq_false_2 (is_Some (Some h') <-> "add" = "change")) by (intros [H _]; by discriminate H).
    cbn [snd]. rewrite E, bool_decide_eq_true_2 by done. done.
  - left. rewrite bool_decide_eq_true_2; [done|]. split; [by intros [? ?]|discriminate].
Qed.

(** addBypassForIP records the endpoint or leaves the manager alone. *)
Lemma addBypassForIP_shape ok m ip g log :
  let '(r, m', _) := addBypassForIP ok m ip g log in
  match r with
  | Ok _ => m' = m <| bypassEndpoints ::= fun l => l ++ [ip] |>
  | Err _ => m' = m
  end.
Proof.
  unfold addBypassForIP. destruct (is_v6 ip) as [v6|]; [|done]. cbn zeta.
  by repeat (case_match; simplify_eq/=).
Qed.

Lemma add_or_change_works ok log fam dest words :
  adds_work ok -> is_Some (hop_of words) -> exists log', add_or_change ok log ([fam; dest] ++ words) = (true, log').
Proof.
  intros Hok Hw. unfold add_or_change, run. cbn [app]. destruct (Hok log fam dest words Hw) as [H|H]; cbn [app] in H.
  - rewrite H. by eexists.
  - destruct (ok log _); cbv beta iota; [by eexists|]. eexists. exact (f_equal2 pair H eq_refl).
Qed.

Lemma addBypassForIP_works ok m ip g log :
  adds_work ok -> is_Some (is_v6 ip) -> exists log', addBypassForIP ok m ip g log
    = (Ok tt, m <| bypassEndpoints ::= fun l => l ++ [ip] |>, log').
Proof.
  intros Hok [v6 Hv]. unfold addBypassForIP. rewrite Hv. cbn zeta.
  set (gw := default "" (if v6 then gw_v6 g else gw_v4 g)).
  destruct (gw =s ""); [unfold run; by eexists|]. set (fam := if v6 then "-inet6" else "-inet").
  destruct (lastUpstreamIface m =s "").
  - destruct (add_or_change_works ok log fam ip ["-gateway"; gw] Hok) as [log' E]; [by eexists|]. cbn [app] in E. rewrite E. by eexists.
  - destruct (add_or_change_works ok log fam ip ["-gateway"; gw; "-ifscope"; lastUpstreamIface m] Hok) as [log' E]; [by eexists|].
    cbn [app] in E |- *. rewrite E. by eexists.
Qed.

Lemma bypass_all_frame ok v4 v6 skip g eps : forall m log m' log',
  bypass_all ok v4 v6 skip g eps m log = (m', log') ->
  exists added, m' = m <| bypassEndpoints ::= fun l => l ++ added |>
    /\ forall ip, ip ∈ added -> ip ∈ eps /\ wanted v4 v6 ip = true /\ skip ip = false.
Proof.
  induction eps as [|ep eps IH]; intros m log m' log' H; cbn [bypass_all] in H.
  { simplify_eq. exists []. split; [destruct m'; cbn; by rewrite app_nil_r|set_solver]. }
  destruct ((ep =s "") || skip ep || negb (hijacked v4 v6 ep)) eqn:Hs.
  { destruct (IH _ _ _ _ H) as (added & -> & Ha). exists added. split; [done|].
    intros ip Hip. destruct (Ha ip Hip) as (? & ? & ?). split_and!; [by right|done..]. }
  pose proof (addBypassForIP_shape ok m ep g log) as Hshape.
  destruct (addBypassForIP ok m ep g log) as [[r m1] log1].
  destruct (IH _ _ _ _ H) as (added & -> & Ha).
  assert (Hrest : forall ip, ip ∈ added -> ip ∈ ep :: eps /\ wanted v4 v6 ip = true /\ skip ip = false).
  { intros ip Hip. destruct (Ha ip Hip) as (? & ? & ?). split_and!; [by right|done..]. }
  destruct r; subst m1; [|by exists added].
  exists (ep :: added). split; [destruct m; cbn; by rewrite <- app_assoc|].
  intros ip [->|Hip]%elem_of_cons; [|by apply Hrest].
  apply orb_false_iff in Hs as [[Hs1 Hs2]%orb_false_iff Hs3]. apply negb_false_iff in Hs3.
  split_and!; [by left| |done]. unfold wanted. by rewrite Hs1, Hs3.
Qed.

Lemma bypass_all_adds ok v4 v6 skip g eps : adds_work ok -> forall m log m' log',
  bypass_all ok v4 v6 skip g eps m log = (m', log') ->
  forall ip, ip ∈ eps -> wanted v4 v6 ip = true -> skip ip = false -> ip ∈ bypassEndpoints m'.
Proof.
  intros Hok. induction eps as [|ep eps IH]; intros m log m' log' H ip Hip Hw Hk; [set_solver|].
  cbn [bypass_all] in H. apply elem_of_cons in Hip as [<-|Hip].
  - unfold wanted in Hw. apply andb_prop in Hw as [Hne Hj]. apply negb_true_iff in Hne.
    rewrite Hne, Hk, Hj in H. cbn in H.
    assert (Hv : is_Some (is_v6 ip)) by (unfold hijacked in Hj; by destruct (is_v6 ip)).
    destruct (addBypassForIP_works ok m ip g log Hok Hv) as [log1 He]. rewrite He in H.
    destruct (bypass_all_frame _ _ _ _ _ _ _ _ _ _ H) as (added & -> & _). cbn. set_solver.
  - destruct (_ || _ || _); [by eapply IH|].
    destruct (addBypassForIP ok m ep g log) as [[r m1] log1]. by eapply IH.
Qed.

Lemma drop_stale_kept ok gc live old : forall log,
  fst (drop_stale ok gc live old log)
  = List.filter (fun ip => negb gc && bool_decide (ip ∈ live)) old.
Proof.
  induction old as [|ip old IH]; intros log; cbn [drop_stale List.filter]; [done|].
  destruct gc; cbn [orb negb andb].
  - unfold run. by rewrite IH.
  - destruct (bool_decide (ip ∈ live)); cbn [negb].
    + specialize (IH log). destruct (drop_stale _ _ _ _ log). cbn in *. by rewrite IH.
    + unfold run. by rewrite IH.
Qed.

(** The bypass routes are those of the recorded endpoints. *)
Definition tracks (m : DarwinManager) : Prop :=
  forall ip, ip ∈ bypassEndpoints m
    <-> ip ∈ lastEndpoints m /\ wanted (lastHasV4Default m) (lastHasV6Default m) ip = true.

(** The endpoints the monitor goes by: the interface's, or the last known when it reports none. *)
Definition live_of (old : list string) (sn : Seen) : list string :=
  match sn_live sn with [] => old | l => l end.

(** What reapply leaves when it acts. *)
Lemma reapply_acts ok sn m log :
  let live := live_of (lastEndpoints m) sn in
  let gc := negb (default "" (gw_v4 (sn_gateways sn)) =s lastGatewayV4 m)
            || negb (default "" (gw_v6 (sn_gateways sn)) =s lastGatewayV6 m) in
  let skip := fun ep => negb gc && bool_decide (ep ∈ lastEndpoints m) in
  let m' := fst (reapply ok sn m log) in
  (m' = m /\ ((lastIface m = "" \/ lastHasV4Default m || lastHasV6Default m = false)
              \/ gc = false /\ lastEndpoints m ≡ₚ live))
  \/ (exists log1 m2 log2,
        bypass_all ok (lastHasV4Default m) (lastHasV6Default m) skip (sn_gateways sn) live
          (m <| bypassEndpoints := List.filter (fun ip => negb gc && bool_decide (ip ∈ live)) (bypassEndpoints m) |>)
          log1 = (m2, log2)
        /\ bypassEndpoints m' = bypassEndpoints m2 /\ lastEndpoints m' = live
        /\ lastIface m' = lastIface m2
        /\ lastHasV4Default m' = lastHasV4Default m2 /\ lastHasV6Default m' = lastHasV6Default m2
        /\ lastGatewayV4 m' = default "" (gw_v4 (sn_gateways sn))
        /\ lastGatewayV6 m' = default "" (gw_v6 (sn_gateways sn))).
Proof.
  cbn zeta. unfold reapply. destruct (bool_decide_reflect (lastIface m = "")) as [He|He]; [by left; auto|].
  fold (live_of (lastEndpoints m) sn).
  set (gc := negb (_ =s _) || negb (_ =s _)). set (live := live_of _ _).
  destruct (lastHasV4Default m || lastHasV6Default m) eqn:Hd; cbn [andb negb]; [|by left; auto].
  destruct (gc || negb (stringSetEqual (lastEndpoints m) live)) eqn:Hc; cbn [negb].
  - right. pose proof (drop_stale_kept ok gc live (bypassEndpoints m) log) as Hk.
    destruct (drop_stale ok gc live (bypassEndpoints m) log) as [kept log1]. cbn in Hk. subst kept.
    destruct (bypass_all _ _ _ _ _ _ _ log1) as [m2 log2] eqn:Hb. exists log1, m2, log2.
    split; [done|]. by case_match.
  - left. split; [done|]. right. apply orb_false_iff in Hc as [-> Hs]. split; [done|].
    apply negb_false_iff in Hs. by apply string_set_equal_perm.
Qed.

(** With the gateway unchanged, a recorded endpoint without a route stays so. *)
Lemma reapply_skips ok sn m log ip :
  lastIface m <> "" -> ip ∉ bypassEndpoints m -> ip ∈ lastEndpoints m -> ip ∈ live_of [ip] sn ->
  default "" (gw_v4 (sn_gateways sn)) = lastGatewayV4 m ->
  default "" (gw_v6 (sn_gateways sn)) = lastGatewayV6 m ->
  let m' := fst (reapply ok sn m log) in
  lastIface m' <> "" /\ (ip ∉ bypassEndpoints m') /\ ip ∈ lastEndpoints m'
  /\ lastGatewayV4 m' = lastGatewayV4 m /\ lastGatewayV6 m' = lastGatewayV6 m.
Proof.
  intros Hi Hb Hl Hlive H4 H6. pose proof (reapply_acts ok sn m log) as Hr. cbn zeta in Hr.
  rewrite H4, H6, !bool_decide_eq_true_2 in Hr by done. cbn [negb orb andb] in Hr. cbn zeta.
  destruct Hr as [[-> _]|(log1 & m2 & log2 & Hba & Heb & Hel & Hei & He4 & He6 & Hg4 & Hg6)]; [done|].
  destruct (bypass_all_frame _ _ _ _ _ _ _ _ _ _ Hba) as (added & -> & Ha). cbn in *.
  rewrite Heb, Hel, Hei, Hg4, Hg6. split_and!; try done.
  - rewrite elem_of_app, elem_of_filter_bool. intros [[? _]|Hin]; [done|].
    destruct (Ha _ Hin) as (_ & _ & Hno%bool_decide_eq_false). done.
  - unfold live_of in *. by destruct (sn_live sn).
Qed.

Definition reapply_all (ok : Oracle) (sns : list Seen) (m : DarwinManager) (log : list Cmd) : DarwinManager * list Cmd :=
  foldl (fun '(m, log) sn => reapply ok sn m log) (m, log) sns.

(** The endpoints after these probes. *)
Definition last_live (eps : list string) (sns : list Seen) : list string := foldl live_of eps sns.

Lemma distinct_endpoints_spec peers : forall seen,
  NoDup (distinct_endpoints seen peers)
  /\ forall ip, ip ∈ distinct_endpoints seen peers <-> Some ip ∈ peers /\ ip ∉ seen.
Proof.
  induction peers as [|[x|] peers IH]; intros seen; cbn [distinct_endpoints].
  - split; [constructor|]. intros ip. rewrite !elem_of_nil. naive_solver.
  - case_bool_decide as Hx.
    + destruct (IH seen) as [H1 H2]. split; [done|]. intros ip. rewrite H2, elem_of_cons. naive_solver.
    + destruct (IH (x :: seen)) as [H1 H2]. split.
      * constructor; [|done]. rewrite H2. intros [_ H]. apply H. by left.
      * intros ip. rewrite elem_of_cons, H2, !elem_of_cons. destruct (decide (ip = x)) as [->|]; naive_solver.
  - destruct (IH seen) as [H1 H2]. split; [done|]. intros ip. rewrite H2, elem_of_cons. naive_solver.
Qed.

(** What the monitor goes by is each address of a peer once, or nothing when the interface cannot be read. *)
Theorem collectLiveEndpoints_spec dev : NoDup (collectLiveEndpoints dev)
  /\ forall ip, ip ∈ collectLiveEndpoints dev <-> exists peers, dev = Some peers /\ Some ip ∈ peers.
Proof.
  unfold collectLiveEndpoints. destruct dev as [peers|].
  - destruct (distinct_endpoints_spec peers []) as [H1 H2]. split; [done|]. intros ip. rewrite H2. split.
    + intros [H _]. by exists peers.
    + intros (l & [= <-] & H). split; [done|]. by intros ?%elem_of_nil.
  - split; [constructor|]. intros ip. rewrite elem_of_nil. naive_solver.
Qed.

(** The manager follows the endpoints [eps] of the interface. *)
Definition following (v4 v6 : bool) (eps : list string) (m : DarwinManager) : Prop :=
  lastIface m <> "" /\ lastHasV4Default m = v4 /\ lastHasV6Default m = v6 /\ tracks m
  /\ (v4 || v6 = true -> lastEndpoints m ≡ₚ eps).

Lemma live_of_perm old eps sn : old ≡ₚ eps -> live_of old sn ≡ₚ live_of eps sn.
Proof. unfold live_of. by destruct (sn_live sn). Qed.

Lemma reapply_following ok sn v4 v6 eps m log : adds_work ok -> following v4 v6 eps m ->
  following v4 v6 (live_of eps sn) (fst (reapply ok sn m log)).
Proof.
  intros Hok (Hi & H4 & H6 & Ht & Hp). pose proof (reapply_acts ok sn m log) as Hr. cbn zeta in Hr.
  destruct Hr as [[-> Hw]|(log1 & m2 & log2 & Hb & Heb & Hel & Hei & He4 & He6 & _)].
  - unfold following. split_and!; try done. intros Hd. specialize (Hp Hd). rewrite H4, H6 in Hw.
    destruct Hw as [[?|?]|[_ Hl]]; [done|congruence|]. by rewrite Hl, (live_of_perm _ _ _ Hp).
  - set (gc := negb _ || negb _) in Hb.
    pose proof (bypass_all_adds _ _ _ _ _ _ Hok _ _ _ _ Hb) as Hadd.
    destruct (bypass_all_frame _ _ _ _ _ _ _ _ _ _ Hb) as (added & -> & Ha). cbn in *.
    unfold following, tracks. rewrite Heb, Hel, Hei, He4, He6. split_and!; [done..| |].
    + intros ip. rewrite elem_of_app, elem_of_filter_bool. split.
      * intros [[Hin [Hgc Hl%bool_decide_eq_true]%andb_prop]|Hin].
        { apply Ht in Hin as [_ Hw]. done. }
        destruct (Ha _ Hin) as (? & ? & _). done.
      * intros [Hl Hw]. destruct (negb gc && bool_decide (ip ∈ lastEndpoints m)) eqn:Hs.
        { apply andb_prop in Hs as [Hgc Hin%bool_decide_eq_true]. left. rewrite Hgc. split; [by apply Ht|].
          by rewrite bool_decide_eq_true_2. }
        specialize (Hadd ip Hl Hw Hs). by rewrite elem_of_app, elem_of_filter_bool in Hadd.
    + intros Hd. apply live_of_perm, Hp, Hd.
Qed.

Lemma reapply_all_following ok sns : adds_work ok -> forall v4 v6 eps m log, following v4 v6 eps m ->
  following v4 v6 (last_live eps sns) (fst (reapply_all ok sns m log)).
Proof.
  intros Hok. induction sns as [|sn sns IH]; intros v4 v6 eps m log H; [done|].
  unfold reapply_all, last_live. cbn [foldl]. pose proof (reapply_following ok sn v4 v6 eps m log Hok H) as H1.
  destruct (reapply ok sn m log) as [m1 log1]. by apply IH.
Qed.

Lemma AddRoutes_following ok pb m ifaceName ips eps tbl log m1 log1 :
  adds_work ok -> ifaceName <> "" -> bypassEndpoints m = [] -> equal_fold tbl "off" = false ->
  AddRoutes ok pb m ifaceName ips eps tbl log = (Ok tt, m1, log1) ->
  following (bool_decide ("0.0.0.0/0" ∈ ips)) (bool_decide ("::/0" ∈ ips)) eps m1.
Proof.
  intros Hok Hi Hb Ht H. unfold AddRoutes in H. rewrite Ht in H.
  destruct (sortAllowedIPs_spec ips) as [Hs _].
  assert (Hin : forall x, bool_decide (x ∈ sortAllowedIPs ips) = bool_decide (x ∈ ips))
    by (intros x; apply bool_decide_ext; by rewrite Hs).
  rewrite !Hin in H. set (v4 := bool_decide _) in *. set (v6 := bool_decide _) in *.
  destruct (network_routes _ _ _ _ log) as [[[]|e] log2]; [|done].
  set (m' := if pinInterface m then _ else m) in H.
  assert (Hb' : bypassEndpoints m' = []) by (subst m'; by destruct (pinInterface m)).
  clearbody m'.
  destruct (add_split _ _ _ log2) as [[[]|e] log3]; [|done].
  destruct (bypass_all _ _ _ _ _ _ _ log3) as [m2 log4] eqn:Hba. simplify_eq.
  pose proof (bypass_all_adds _ _ _ _ _ _ Hok _ _ _ _ Hba) as Hadd.
  destruct (bypass_all_frame _ _ _ _ _ _ _ _ _ _ Hba) as (added & -> & Ha). cbn in *.
  setoid_rewrite Hb' in Hadd. unfold following, tracks. cbn. rewrite Hb'. split_and!; try done.
  intros ip. split; [|intros [? ?]; by apply Hadd]. intros Hin'. by destruct (Ha _ Hin') as (? & ? & _).
Qed.

(** *** The route of one address *)

(** The route the gateways ask for. *)
Definition bypass_hop (g : Gateways) (ip : string) : option Hop :=
  match is_v6 ip with
  | Some v6 => let gw := default "" (if v6 then gw_v6 g else gw_v4 g) in Some (if gw =s "" then Blackhole else Via gw)
  | None => None
  end.

Section OneAddress.
Context (t0 : Table) (ip : string).
Hypothesis Hip : is_Some (is_v6 ip).

Definition here (log : list Cmd) : option Hop := table_of t0 log !! ip.

Lemma route_exec_elsewhere t prog q n verb fam dest words :
  dest_key dest <> ip -> snd (route_exec t (prog :: q :: n :: verb :: fam :: dest :: words)) !! ip = t !! ip.
Proof using.
  intros H. unfold route_exec. destruct (negb _); [done|]. destruct (verb =s "delete").
  - destruct (t !! dest_key dest); [|done]. cbn. by rewrite lookup_delete_ne.
  - destruct (hop_of words); [|done]. case_bool_decide; [|done]. cbn. by rewrite lookup_insert_ne.
Qed.

Lemma here_elsewhere log prog q n verb fam dest words :
  dest_key dest <> ip -> here (log ++ [prog :: q :: n :: verb :: fam :: dest :: words]) = here log.
Proof using. intros H. unfold here. rewrite table_of_snoc. by apply route_exec_elsewhere. Qed.

Lemma add_here log fam words h : hop_of words = Some h ->
  let c := [cmdRoute; "-q"; "-n"; "add"; fam; ip] ++ words in
  route_ok t0 log c = bool_decide (here log = None)
  /\ here (log ++ [c]) = match here log with None => Some h | r => r end.
Proof using Hip.
  intros Hw c. unfold here, route_ok. rewrite table_of_snoc. set (t := table_of t0 log). unfold route_exec, c. cbn [app].
  rewrite Hw, is_v6_key by done. rewrite (bool_decide_eq_true_2 (cmdRoute = cmdRoute)) by done. cbn [negb].
  rewrite (bool_decide_eq_false_2 ("add" = "delete")) by done. destruct (t !! ip) as [h'|] eqn:E.
  - rewrite (bool_decide_eq_false_2 (is_Some _ <-> _)) by (intros [H _]; discriminate H; by eexists). done.
  - rewrite (bool_decide_eq_true_2 (is_Some _ <-> _)) by (split; [by intros [? ?]|discriminate]). cbn. by rewrite lookup_insert_eq.
Qed.

Lemma change_here log fam words h : hop_of words = Some h -> is_Some (here log) ->
  here (log ++ [[cmdRoute; "-q"; "-n"; "change"; fam; ip] ++ words]) = Some h.
Proof using Hip.
  intros Hw Hs. unfold here in *. rewrite table_of_snoc. set (t := table_of t0 log) in *. unfold route_exec. cbn [app].
  rewrite Hw, is_v6_key by done. rewrite (bool_decide_eq_true_2 (cmdRoute = cmdRoute)) by done. cbn [negb].
  rewrite (bool_decide_eq_false_2 ("change" = "delete")) by done. rewrite bool_decide_eq_true_2 by done. cbn. by rewrite lookup_insert_eq.
Qed.

Lemma add_or_change_here log fam words h : hop_of words = Some h ->
  here (snd (add_or_change (route_ok t0) log ([fam; ip] ++ words))) = Some h.
Proof using Hip.
  intros Hw. unfold add_or_change, run. destruct (add_here log fam words h Hw) as [H1 H2]. cbn [app] in *. rewrite H1.
  case_bool_decide as E; cbv beta iota; cbn [snd].
  - rewrite E in H2. exact H2.
  - apply (change_here _ fam words h Hw). destruct (here log) as [r|]; [|done]. eexists. exact H2.
Qed.

Lemma add_or_change_elsewhere log fam dest words : dest_key dest <> ip ->
  here (snd (add_or_change (route_ok t0) log ([fam; dest] ++ words))) = here log.
Proof using.
  intros H. unfold add_or_change, run. cbn [app]. destruct (route_ok t0 log _); cbv beta iota; cbn [snd];
    rewrite !here_elsewhere; done.
Qed.

Lemma addBypassForIP_table m ep g log : lastUpstreamIface m = "" -> is_Some (is_v6 ep) ->
  here log = None \/ here log = bypass_hop g ip ->
  here (snd (addBypassForIP (route_ok t0) m ep g log)) = if bool_decide (ep = ip) then bypass_hop g ip else here log.
Proof using Hip.
  intros Hu [v6 Hv] Hlog. unfold addBypassForIP. rewrite Hv, Hu. cbn zeta. rewrite (bool_decide_eq_true_2 ("" = "")) by done.
  set (gw := default "" (if v6 then gw_v6 g else gw_v4 g)). set (fam := if v6 then "-inet6" else "-inet").
  assert (Hk : ep <> ip -> dest_key ep <> ip) by (rewrite is_v6_key; [done|by eexists]).
  assert (Hh : ep = ip -> bypass_hop g ip = Some (if gw =s "" then Blackhole else Via gw)) by (intros ->; unfold bypass_hop; by rewrite Hv).
  destruct (bool_decide_reflect (gw = "")) as [Eg|Eg]; case_bool_decide as E.
  - subst ep. destruct (add_here log fam [(if v6 then "::1" else "127.0.0.1"); "-blackhole"] Blackhole) as [_ H]; [by destruct v6|].
    unfold run. cbn [snd]. rewrite (Hh eq_refl) in *. cbn [app] in H. refine (eq_trans H _). by destruct Hlog as [-> | ->].
  - unfold run. cbn [snd]. rewrite here_elsewhere; auto.
  - subst ep. pose proof (add_or_change_here log fam ["-gateway"; gw] (Via gw) eq_refl) as H. cbn [app] in H.
    rewrite (Hh eq_refl). destruct (add_or_change _ _ _) as [[] log']; exact H.
  - pose proof (add_or_change_elsewhere log fam ep ["-gateway"; gw] (Hk E)) as H. cbn [app] in H.
    destruct (add_or_change _ _ _) as [[] log']; exact H.
Qed.

Lemma bypass_all_table v4 v6 skip g eps : forall m log,
  lastUpstreamIface m = "" -> here log = None \/ here log = bypass_hop g ip ->
  here (snd (bypass_all (route_ok t0) v4 v6 skip g eps m log))
  = if bool_decide (ip ∈ eps) && wanted v4 v6 ip && negb (skip ip) then bypass_hop g ip else here log.
Proof using Hip.
  induction eps as [|ep eps IH]; intros m log Hu Hlog; cbn [bypass_all].
  { by rewrite bool_decide_eq_false_2 by apply not_elem_of_nil. }
  destruct ((ep =s "") || skip ep || negb (hijacked v4 v6 ep)) eqn:Es.
  - rewrite IH by done. destruct (decide (ep = ip)) as [->|Hne].
    + destruct (wanted v4 v6 ip && negb (skip ip)) eqn:Ew.
      * exfalso. unfold wanted in Ew. bool_hyps. destruct (ip =s "") eqn:E1, (skip ip), (hijacked v4 v6 ip); bool_hyps; done.
      * by rewrite <- !andb_assoc, Ew, !andb_false_r.
    + rewrite (bool_decide_ext (ip ∈ ep :: eps) (ip ∈ eps)); [done|]. rewrite elem_of_cons. intuition congruence.
  - apply orb_false_iff in Es as [[E1 E2]%orb_false_iff E3%negb_false_iff].
    assert (Hv : is_Some (is_v6 ep)) by (unfold hijacked in E3; by destruct (is_v6 ep)).
    pose proof (addBypassForIP_table m ep g log Hu Hv Hlog) as Ha.
    pose proof (addBypassForIP_shape (route_ok t0) m ep g log) as Hsh.
    destruct (addBypassForIP (route_ok t0) m ep g log) as [[r m1] log1]. cbn [snd] in Ha.
    assert (Hu1 : lastUpstreamIface m1 = "") by (destruct r; subst m1; done).
    case_bool_decide as Eq.
    + subst ep. rewrite IH by (done || (right; done)). rewrite Ha. unfold wanted. rewrite E1, E2, E3.
      rewrite (bool_decide_eq_true_2 (ip ∈ ip :: eps)) by left. cbn. by destruct (bool_decide _).
    + rewrite IH by (done || by rewrite Ha). rewrite Ha, (bool_decide_ext (ip ∈ ep :: eps) (ip ∈ eps)); [done|].
      rewrite elem_of_cons. intuition congruence.
Qed.

Lemma drop_stale_table gc live old : forall log, Forall (fun e => is_Some (is_v6 e)) old ->
  here (snd (drop_stale (route_ok t0) gc live old log))
  = if bool_decide (ip ∈ old) && (gc || negb (bool_decide (ip ∈ live))) then None else here log.
Proof using Hip.
  induction old as [|x old IH]; intros log Hf; cbn [drop_stale].
  { by rewrite bool_decide_eq_false_2 by apply not_elem_of_nil. }
  apply Forall_cons in Hf as [Hx Hf]. unfold run.
  destruct (decide (x = ip)) as [->|Hne].
  - rewrite (bool_decide_eq_true_2 (ip ∈ ip :: old)) by left. destruct (gc || negb (bool_decide (ip ∈ live))) eqn:Ed; cbn [andb].
    + rewrite IH by done. rewrite andb_true_r. destruct (bool_decide (ip ∈ old)); [done|].
      unfold here. rewrite table_of_snoc. unfold route_exec. rewrite is_v6_key by done.
      rewrite (bool_decide_eq_true_2 (cmdRoute = cmdRoute)), (bool_decide_eq_true_2 ("delete" = "delete")) by done. cbn [negb].
      destruct (table_of t0 log !! ip) eqn:E; cbn [snd]; [by rewrite lookup_delete_eq|done].
    + specialize (IH log Hf). destruct (drop_stale (route_ok t0) gc live old log). cbn [snd] in *. by rewrite IH, andb_false_r.
  - rewrite (bool_decide_ext (ip ∈ x :: old) (ip ∈ old)) by (rewrite elem_of_cons; intuition congruence).
    destruct (gc || negb (bool_decide (x ∈ live))).
    + rewrite IH by done. rewrite here_elsewhere; [done|]. by rewrite is_v6_key.
    + specialize (IH log Hf). by destruct (drop_stale (route_ok t0) gc live old log).
Qed.

Lemma other_route_table log fam dest : dest_key dest <> ip ->
  forall iface, here (log ++ [[cmdRoute; "-q"; "-n"; "add"; fam; dest; "-interface"; iface]]) = here log.
Proof using. intros H iface. by apply here_elsewhere. Qed.

Lemma network_routes_table in_place iface cidrs : ip ∉ dest_key <$> cidrs -> forall log,
  here (snd (network_routes (route_ok t0) in_place iface cidrs log)) = here log.
Proof using.
  induction cidrs as [|c cidrs IH]; intros Hn log; [done|]. rewrite fmap_cons, not_elem_of_cons in Hn. destruct Hn as [Hc Hn].
  cbn [network_routes]. destruct (_ || _ || _); [by apply IH|]. unfold run.
  destruct (route_ok t0 log _); [rewrite IH by done|cbn [snd]]; by apply other_route_table.
Qed.

Lemma add_split_table iface v4 v6 log : here (snd (add_split (route_ok t0) iface (split_routes v4 v6) log)) = here log.
Proof using Hip.
  assert (Hd : forall r, r ∈ split_routes v4 v6 -> dest_key (snd r) <> ip).
  { intros r Hr <-. destruct Hip as [x Hx]. revert Hr. unfold split_routes.
    destruct v4, v6; cbn [app]; rewrite ?elem_of_cons, ?elem_of_nil; intros Hr; repeat destruct Hr as [->|Hr]; done. }
  revert log. induction (split_routes v4 v6) as [|[fam d] l IH]; intros log; [done|]. cbn [add_split]. unfold run.
  pose proof (Hd (fam, d) ltac:(left)) as H1. cbn [snd] in H1.
  destruct (route_ok t0 log _); [rewrite IH by (intros r Hr; apply Hd; by right)|cbn [snd]]; by apply other_route_table.
Qed.

(** The route is in the table exactly if it is recorded, and leads where the gateways last seen say. *)
Definition placed (m : DarwinManager) (log : list Cmd) : Prop :=
  pinInterface m = false /\ lastUpstreamIface m = ""
  /\ here log = if bool_decide (ip ∈ bypassEndpoints m)
                then bypass_hop (MkGw (Some (lastGatewayV4 m)) (Some (lastGatewayV6 m))) ip else None.

Lemma bypass_hop_default g : bypass_hop (MkGw (Some (default "" (gw_v4 g))) (Some (default "" (gw_v6 g)))) ip = bypass_hop g ip.
Proof using Hip. unfold bypass_hop. destruct (is_v6 ip) as [[]|]; done. Qed.

(** The bypass routes dropped and added again. *)
Lemma update_placed v4 v6 gc skip live g old_hop m log :
  Forall (fun e => is_Some (is_v6 e)) (bypassEndpoints m) -> lastUpstreamIface m = "" ->
  here log = (if bool_decide (ip ∈ bypassEndpoints m) then old_hop else None) -> (gc = false -> old_hop = bypass_hop g ip) ->
  let '(kept, log1) := drop_stale (route_ok t0) gc live (bypassEndpoints m) log in
  let '(m2, log2) := bypass_all (route_ok t0) v4 v6 skip g live (m <| bypassEndpoints := kept |>) log1 in
  here log2 = if bool_decide (ip ∈ bypassEndpoints m2) then bypass_hop g ip else None.
Proof using Hip.
  intros Hf Hu Hh Hold. pose proof (drop_stale_kept (route_ok t0) gc live (bypassEndpoints m) log) as Hk.
  pose proof (drop_stale_table gc live (bypassEndpoints m) log Hf) as Ht.
  destruct (drop_stale (route_ok t0) gc live (bypassEndpoints m) log) as [kept log1]. cbn [fst snd] in Hk, Ht.
  assert (H1 : here log1 = if bool_decide (ip ∈ kept) then bypass_hop g ip else None).
  { rewrite Ht, Hh, Hk, (bool_decide_ext _ _ (elem_of_filter_bool _ _ _)).
    destruct (bool_decide_reflect (ip ∈ bypassEndpoints m)) as [Hin|Hin]; cbn [andb].
    - destruct gc; cbn [orb negb andb]; [by rewrite bool_decide_eq_false_2 by (intros [_ ?]; done)|].
      rewrite Hold by done. destruct (bool_decide (ip ∈ live)); cbn [negb];
        [by rewrite bool_decide_eq_true_2|by rewrite bool_decide_eq_false_2 by (intros [_ ?]; done)].
    - rewrite bool_decide_eq_false_2; [done|]. by intros [? _]. }
  set (m1 := m <| bypassEndpoints := kept |>). pose proof (bypass_all_table v4 v6 skip g live m1 log1 Hu) as H2.
  destruct (bypass_all _ v4 v6 skip g live m1 log1) as [m2 log2] eqn:Hb. cbn [snd] in H2.
  pose proof (bypass_all_adds _ _ _ _ _ _ (route_ok_adds t0) _ _ _ _ Hb ip) as Hadd.
  destruct (bypass_all_frame _ _ _ _ _ _ _ _ _ _ Hb) as (added & -> & Ha). cbn -[here] in *.
  rewrite H2 by (rewrite H1; destruct (bool_decide (ip ∈ kept)); [by right|by left]).
  destruct (bool_decide (ip ∈ live) && wanted v4 v6 ip && negb (skip ip)) eqn:Eb.
  - bool_hyps. by rewrite bool_decide_eq_true_2 by auto.
  - rewrite H1. rewrite (bool_decide_ext (ip ∈ kept ++ added) (ip ∈ kept)); [done|]. rewrite elem_of_app. split; [|by left].
    intros [?|Hin]; [done|]. destruct (Ha _ Hin) as (A1 & A2 & A3). by rewrite A2, A3, (bool_decide_eq_true_2 _ A1) in Eb.
Qed.

Lemma reapply_placed sn v4 v6 eps m log : following v4 v6 eps m -> placed m log ->
  placed (fst (reapply (route_ok t0) sn m log)) (snd (reapply (route_ok t0) sn m log)).
Proof using Hip.
  intros (Hi & H4 & H6 & Ht & _) (Hpin & Hup & Hh). unfold reapply. rewrite (bool_decide_eq_false_2 _ Hi).
  fold (live_of (lastEndpoints m) sn). cbv zeta. set (live := live_of (lastEndpoints m) sn).
  set (gc := negb (default "" (gw_v4 _) =s lastGatewayV4 m) || negb (default "" (gw_v6 _) =s lastGatewayV6 m)).
  destruct (negb (_ && _)); [done|].
  assert (Hf : Forall (fun e => is_Some (is_v6 e)) (bypassEndpoints m)).
  { apply Forall_forall. intros e [_ He]%Ht. unfold wanted, hijacked in He. bool_hyps. by destruct (is_v6 e). }
  assert (Hold : gc = false -> bypass_hop (MkGw (Some (lastGatewayV4 m)) (Some (lastGatewayV6 m))) ip = bypass_hop (sn_gateways sn) ip).
  { intros Hg. apply orb_false_iff in Hg as [E4 E6]. apply negb_false_iff, bool_decide_eq_true in E4.
    apply negb_false_iff, bool_decide_eq_true in E6. rewrite <- E4, <- E6. apply bypass_hop_default. }
  pose proof (update_placed (lastHasV4Default m) (lastHasV6Default m) gc
    (fun ep => negb gc && bool_decide (ep ∈ lastEndpoints m)) live (sn_gateways sn) _ m log Hf Hup Hh Hold) as Hnew.
  destruct (drop_stale _ gc live _ log) as [kept log1].
  destruct (bypass_all _ _ _ _ _ _ _ log1) as [m2 log2] eqn:Hb.
  destruct (bypass_all_frame _ _ _ _ _ _ _ _ _ _ Hb) as (added & -> & _). cbn -[here] in Hnew |- *. rewrite Hpin.
  destruct (_ && (0 <? sn_mtu sn)%Z); (split; [done|split; [done|]]); cbn -[here]; rewrite bypass_hop_default; [|exact Hnew].
  unfold here in *. by rewrite table_of_snoc.
Qed.

Lemma reapply_all_placed sns v4 v6 : forall eps m log, following v4 v6 eps m -> placed m log ->
  let '(m', log') := reapply_all (route_ok t0) sns m log in placed m' log'.
Proof using Hip.
  unfold reapply_all. induction sns as [|sn sns IH]; intros eps m log Hf Hp; cbn [foldl]; [done|].
  pose proof (reapply_placed sn _ _ _ _ _ Hf Hp) as Hp1.
  pose proof (reapply_following (route_ok t0) sn v4 v6 eps m log (route_ok_adds t0) Hf) as Hf1.
  destruct (reapply (route_ok t0) sn m log) as [m1 log1]. by apply (IH (live_of eps sn)).
Qed.

(** AddRoutes, on a table without a route to the address. *)
Lemma AddRoutes_placed pb m iface ips eps tbl m1 log1 :
  t0 !! ip = None -> ip ∉ dest_key <$> ips -> pb_gateways pb = pb_snapshot pb ->
  pinInterface m = false -> lastUpstreamIface m = "" -> bypassEndpoints m = [] -> equal_fold tbl "off" = false ->
  AddRoutes (route_ok t0) pb m iface ips eps tbl [] = (Ok tt, m1, log1) -> placed m1 log1.
Proof using Hip.
  intros Hnone Hn Hpb Hpin Hup Hb Ht H. unfold AddRoutes in H. rewrite Ht in H.
  destruct (sortAllowedIPs_spec ips) as [Hs _]. rewrite <- Hs in Hn.
  pose proof (network_routes_table (pb_using pb) iface _ Hn []) as H1.
  destruct (network_routes _ _ _ _ []) as [[[]|e] log2]; [|done]. rewrite Hpin in H. cbv zeta in H.
  set (v4 := bool_decide ("0.0.0.0/0" ∈ sortAllowedIPs ips)) in *. set (v6 := bool_decide ("::/0" ∈ sortAllowedIPs ips)) in *.
  pose proof (add_split_table iface v4 v6 log2) as H2.
  destruct (add_split _ _ _ log2) as [[[]|e] log3]; [|done]. cbn [snd] in H1, H2.
  assert (H3 : here log3 = None) by (rewrite H2, H1; exact Hnone).
  set (g := MkGw (if v4 then _ else _) _) in H.
  pose proof (bypass_all_table v4 v6 (fun _ => false) g eps m log3 Hup (or_introl H3)) as H4.
  destruct (bypass_all _ _ _ _ _ _ _ log3) as [m2 log4] eqn:Hba. injection H as <- <-.
  pose proof (bypass_all_adds _ _ _ _ _ _ (route_ok_adds t0) _ _ _ _ Hba ip) as Hadd.
  destruct (bypass_all_frame _ _ _ _ _ _ _ _ _ _ Hba) as (added & -> & Ha). cbn -[here] in *. rewrite Hb in *.
  split; [exact Hpin|split; [exact Hup|]]. cbn -[here]. rewrite ?Hb, H4, <- Hpb, bypass_hop_default, andb_true_r, H3. cbn -[here].
  destruct (bool_decide (ip ∈ eps) && wanted v4 v6 ip) eqn:Eb.
  - bool_hyps. rewrite bool_decide_eq_true_2 by auto. unfold bypass_hop, wanted, hijacked in *. bool_hyps.
    destruct (is_v6 ip) as [[]|]; [| |done]; cbn; subst g; cbn; by match goal with E : ?v = true |- _ => rewrite E end.
  - rewrite bool_decide_eq_false_2; [done|]. intros Hin. destruct (Ha _ Hin) as (A1 & A2 & _).
    by rewrite A2, (bool_decide_eq_true_2 _ A1) in Eb.
Qed.
End OneAddress.

(** The gateways seen last. *)
Definition last_gateways (g : Gateways) (sns : list Seen) : Gateways := foldl (fun _ sn => sn_gateways sn) g sns.

Definition knows_gateways (m : DarwinManager) (g : Gateways) : Prop :=
  lastGatewayV4 m = default "" (gw_v4 g) /\ lastGatewayV6 m = default "" (gw_v6 g).

Lemma reapply_all_gateways ok sns v4 v6 : adds_work ok -> v4 || v6 = true -> forall eps g m log, following v4 v6 eps m ->
  knows_gateways m g -> knows_gateways (fst (reapply_all ok sns m log)) (last_gateways g sns).
Proof.
  intros Hok Hd. unfold reapply_all, last_gateways. induction sns as [|sn sns IH]; intros eps g m log Hf Hg; cbn [foldl]; [done|].
  pose proof (reapply_following ok sn v4 v6 eps m log Hok Hf) as Hf1. pose proof (reapply_acts ok sn m log) as Hr. cbn zeta in Hr.
  destruct (reapply ok sn m log) as [m1 log1]. apply (IH (live_of eps sn)); [done|]. cbn [fst] in Hr.
  destruct Hf as (Hi & H4 & H6 & _). rewrite H4, H6 in Hr.
  destruct Hr as [[-> [[Hw|Hw]|[Hw _]]]|(? & ? & ? & _ & _ & _ & _ & _ & _ & E4 & E6)]; [done|congruence| |by split].
  apply orb_false_iff in Hw as [E4 E6]. apply negb_false_iff, bool_decide_eq_true in E4.
  apply negb_false_iff, bool_decide_eq_true in E6. by split.
Qed.


(** *** A full tunnel whose peer roams *)

Definition peer_a : string := "203.0.113.5".
Definition peer_b : string := "198.51.100.7".
Definition router : Gateways := MkGw (Some "192.168.1.1") None.
Definition probes1 : Probes := MkProbes (fun _ => false) "en0" router router.
Definition sees (live : list string) (g : Gateways) : Seen := MkSeen live g "en0" 1420.

(** AddRoutes with these commands, then the monitor's probes. *)
Definition full_tunnel (ok : Oracle) (sns : list Seen) : DarwinManager * list Cmd :=
  let '(_, m, log) := AddRoutes ok probes1 new_darwin "utun4" ["0.0.0.0/0"] [peer_a] "" [] in
  reapply_all ok sns m log.


(** With pinning, a gateway change leads the routes to the new gateway over the interface of the old one: the upstream
    interface is refreshed only after they have been added. *)
Theorem pinned_to_the_old_interface :
  let m0 := SetPinInterface new_darwin true in
  let '(r, m1, log1) := AddRoutes (route_ok ∅) probes1 m0 "utun4" ["0.0.0.0/0"] [peer_a] "" [] in
  let '(m2, log2) := reapply (route_ok ∅) (MkSeen [peer_a] (MkGw (Some "10.0.0.1") None) "en5" 1420) m1 log1 in
  r = Ok tt /\ table_of ∅ log2 !! peer_a = Some (ViaScoped "10.0.0.1" "en0") /\ lastUpstreamIface m2 = "en5".
Proof. vm_compute. auto. Qed.

(** "this endpoint already had a valid bypass route (preserved above). Skip." (darwin.go:403-405)
    is decided from the endpoints recorded, not from the routes: an endpoint whose route could not be
    added is recorded all the same, and while the gateway stays it is skipped by every run of the
    monitor, whichever peers come and go and whatever the commands now answer. *)
Theorem failed_bypass_not_retried ok sns m log ip :
  lastIface m <> "" -> ip ∉ bypassEndpoints m -> ip ∈ lastEndpoints m ->
  Forall (fun sn => ip ∈ live_of [ip] sn
                    /\ default "" (gw_v4 (sn_gateways sn)) = lastGatewayV4 m
                    /\ default "" (gw_v6 (sn_gateways sn)) = lastGatewayV6 m) sns ->
  ip ∉ bypassEndpoints (fst (reapply_all ok sns m log)).
Proof.
  intros Hi Hb Hl Hs. revert m log Hi Hb Hl Hs. induction sns as [|sn sns IH]; intros m log Hi Hb Hl Hs; [done|].
  apply Forall_cons in Hs as [(Hlive & H4 & H6) Hs]. unfold reapply_all. cbn [foldl].
  pose proof (reapply_skips ok sn m log ip Hi Hb Hl Hlive H4 H6) as (Hi' & Hb' & Hl' & H4' & H6').
  destruct (reapply ok sn m log) as [m1 log1]. cbn [fst] in *. apply IH; [done..|]. by rewrite H4', H6'.
Qed.

(** The first two commands for the peer's route fail, everything after works. *)
Definition first_bypass_fails : Oracle := fun log _ =>
  (length log <? 2)%nat || (3 <? length log)%nat.

Lemma failed_bypass_not_retried_witness :
  let '(m, log) := full_tunnel first_bypass_fails [] in
  bypassEndpoints m = []
  /\ wanted (lastHasV4Default m) (lastHasV6Default m) peer_a = true
  /\ let m' := fst (reapply_all first_bypass_fails [sees [peer_a; peer_b] router; sees [peer_a] router] m log) in
     peer_a ∉ bypassEndpoints m'.
Proof.
  split; [vm_compute; reflexivity|]. split; [vm_compute; reflexivity|].
  apply (failed_bypass_not_retried first_bypass_fails [sees [peer_a; peer_b] router; sees [peer_a] router]
           (fst (full_tunnel first_bypass_fails [])) (snd (full_tunnel first_bypass_fails [])) peer_a).
  - vm_compute. discriminate.
  - assert (H : bypassEndpoints (fst (full_tunnel first_bypass_fails [])) = []) by (vm_compute; reflexivity).
    rewrite H. apply not_elem_of_nil.
  - by apply (bool_decide_unpack _).
  - repeat constructor; split_and!; by apply (bool_decide_unpack _) || (vm_compute; reflexivity).
Defined.
