(* ===== verification/NetMonitor.v ===== *)
(** * The route monitor: internal/network/monitor_darwin.go

    The state guarded by rm.mu, the debounce timers with their callbacks, the WaitGroup's counter
    and the callers of Stop, as a step relation: each step is one critical section, or one event of
    the runtime.  [stop_quiesces] is what Stop promises to the caller that tears the network down.
    Then its owners in internal/network/darwin.go, which keep one monitor each ([one_route_monitor]), and the OpenVPN
    tunnels that share one for their DNS (internal/ovpn/manager.go, [DnsUse]). *)

From S2P Require Import Prelude.

(** ** State *)

(** A debounce timer: counting; its callback started; in reapply; returned; stopped in time. *)
Inductive Timer := Armed | Fired | Reapplying | Returned | Cancelled.

#[export] Instance timer_eq : EqDecision Timer.
Proof. solve_decision. Defined.

(** A caller of Stop: in pending.Wait, past it, or back without having waited. *)
Inductive Stopper := Waiting | Waited | Early.

Record routeMonitor := MkMonitor {
  running : bool;
  stopped : bool;
  debounce : option nat;
  pending : Z;
  timers : list Timer;
  stoppers : list Stopper
}.

#[export] Instance eta_route_monitor : Eta routeMonitor := fun r =>
  MkMonitor (running r) (stopped r) (debounce r) (pending r) (timers r) (stoppers r).

Definition newRouteMonitor : routeMonitor := MkMonitor false false None 0 [] [].

(** ** Operations *)

(** [spawned]: the pipe and the process could be made *)
Definition monitor_Start (spawned : bool) (rm : routeMonitor) : routeMonitor :=
  if running rm || stopped rm then rm
  else if spawned then rm <| running := true |> else rm.

(** [if rm.debounce != nil { if rm.debounce.Stop() { rm.pending.Done() } }] *)
Definition stop_timer (rm : routeMonitor) : routeMonitor :=
  match debounce rm with
  | Some t =>
      match timers rm !! t with
      | Some Armed => rm <| timers ::= fun l => <[t := Cancelled]> l |> <| pending ::= fun n => (n - 1)%Z |>
      | _ => rm
      end
  | None => rm
  end.

(** Stop under the lock; then the caller waits, or is back. *)
Definition Stop_locked (rm : routeMonitor) : routeMonitor :=
  let rm := rm <| stopped := true |> in
  if running rm
  then (stop_timer rm) <| running := false |> <| stoppers ::= fun l => l ++ [Waiting] |>
  else rm <| stoppers ::= fun l => l ++ [Early] |>.

Definition trigger (rm : routeMonitor) : routeMonitor :=
  if running rm then
    let rm := (stop_timer rm) <| pending ::= fun n => (n + 1)%Z |> in
    rm <| debounce := Some (length (timers rm)) |> <| timers ::= fun l => l ++ [Armed] |>
  else rm.

(** The callback's look at [running]. *)
Definition callback_checks (t : nat) (rm : routeMonitor) : routeMonitor :=
  if running rm then rm <| timers ::= fun l => <[t := Reapplying]> l |>
  else rm <| timers ::= fun l => <[t := Returned]> l |> <| pending ::= fun n => (n - 1)%Z |>.

(** reapply is done, and the deferred pending.Done. *)
Definition callback_returns (t : nat) (rm : routeMonitor) : routeMonitor :=
  rm <| timers ::= fun l => <[t := Returned]> l |> <| pending ::= fun n => (n - 1)%Z |>.

(** ** Steps *)

Inductive monitor_step (rm : routeMonitor) : routeMonitor -> Prop :=
| ms_start spawned : monitor_step rm (monitor_Start spawned rm)
| ms_trigger : monitor_step rm (trigger rm)
| ms_fire t : timers rm !! t = Some Armed -> monitor_step rm (rm <| timers ::= fun l => <[t := Fired]> l |>)
| ms_check t : timers rm !! t = Some Fired -> monitor_step rm (callback_checks t rm)
| ms_return t : timers rm !! t = Some Reapplying -> monitor_step rm (callback_returns t rm)
| ms_stop : monitor_step rm (Stop_locked rm)
| ms_wait i : stoppers rm !! i = Some Waiting -> pending rm = 0%Z ->
    monitor_step rm (rm <| stoppers ::= fun l => <[i := Waited]> l |>).

Abbreviation monitor_reachable := (rtc monitor_step newRouteMonitor).

(** ** Invariant *)

(** Callbacks the WaitGroup waits for. *)
Definition outstanding (t : Timer) : bool :=
  match t with Armed | Fired | Reapplying => true | Returned | Cancelled => false end.

Definition count_outstanding (l : list Timer) : Z := Z.of_nat (length (List.filter outstanding l)).

Record monitor_inv (rm : routeMonitor) : Prop := {
  mi_pending : pending rm = count_outstanding (timers rm);
  mi_debounce : forall t, timers rm !! t = Some Armed -> debounce rm = Some t;
  mi_armed : running rm = false -> Armed ∉ timers rm;
  mi_stopped : stoppers rm <> [] -> stopped rm = true;
  mi_down : stopped rm = true -> running rm = false;
  mi_waited : Waited ∈ stoppers rm -> pending rm = 0%Z
}.

Lemma count_outstanding_app l k : count_outstanding (l ++ k) = (count_outstanding l + count_outstanding k)%Z.
Proof. unfold count_outstanding. rewrite List.filter_app, length_app. lia. Qed.

Lemma count_outstanding_insert l t x y : l !! t = Some x ->
  count_outstanding (<[t := y]> l)
  = (count_outstanding l - (if outstanding x then 1 else 0) + (if outstanding y then 1 else 0))%Z.
Proof.
  intros H. rewrite insert_take_drop by (by apply lookup_lt_Some in H).
  rewrite <- (take_drop_middle l t x H) at 3. rewrite !count_outstanding_app.
  change (y :: ?k) with ([y] ++ k). change (x :: ?k) with ([x] ++ k). rewrite !count_outstanding_app.
  enough (Hc : forall z, count_outstanding [z] = if outstanding z then 1%Z else 0%Z) by (rewrite !Hc; lia).
  by intros [].
Qed.

Lemma count_outstanding_zero l t x : count_outstanding l = 0%Z -> l !! t = Some x -> outstanding x = false.
Proof.
  intros H Hx. destruct (outstanding x) eqn:Ho; [|done]. exfalso.
  pose proof (count_outstanding_insert l t x Returned Hx) as Hc. rewrite Ho in Hc. cbn [outstanding] in Hc.
  unfold count_outstanding in *. lia.
Qed.

Lemma stop_timer_frame rm :
  let rm' := stop_timer rm in
  running rm' = running rm /\ stopped rm' = stopped rm /\ stoppers rm' = stoppers rm /\ debounce rm' = debounce rm.
Proof. unfold stop_timer. by repeat case_match. Qed.

Lemma stop_timer_inv rm :
  pending rm = count_outstanding (timers rm) ->
  (forall t, timers rm !! t = Some Armed -> debounce rm = Some t) ->
  pending (stop_timer rm) = count_outstanding (timers (stop_timer rm)) /\ Armed ∉ timers (stop_timer rm).
Proof.
  intros Hp Hd.
  assert (Hno : (forall t, timers rm !! t <> Some Armed) -> Armed ∉ timers rm).
  { intros H [t Ht]%list_elem_of_lookup. by apply (H t). }
  unfold stop_timer. destruct (debounce rm) as [t|].
  2: { split; [done|]. apply Hno. intros t Ht. by apply Hd in Ht. }
  destruct (timers rm !! t) as [x|] eqn:Ht.
  2: { split; [done|]. apply Hno. intros t' Ht'. pose proof (Hd _ Ht'). congruence. }
  destruct x; try (split; [done|]; apply Hno; intros t' Ht'; pose proof (Hd _ Ht'); congruence).
  cbn. split; [rewrite (count_outstanding_insert _ _ _ _ Ht), Hp; cbn; lia|].
  intros [t' Ht']%list_elem_of_lookup. destruct (decide (t' = t)) as [->|Hne].
  - rewrite list_lookup_insert_eq in Ht' by (by apply lookup_lt_Some in Ht). done.
  - rewrite list_lookup_insert_ne in Ht' by done. pose proof (Hd _ Ht'). congruence.
Qed.

(** A timer leaves one state for another that is not Armed. *)
Lemma move_timer rm t x y : monitor_inv rm -> timers rm !! t = Some x -> y <> Armed ->
  let l := <[t := y]> (timers rm) in
  count_outstanding l = (pending rm - (if outstanding x then 1 else 0) + (if outstanding y then 1 else 0))%Z
  /\ (forall t', l !! t' = Some Armed -> debounce rm = Some t')
  /\ (running rm = false -> Armed ∉ l).
Proof.
  intros [Hp Hd Ha _ _ _] Ht Hy l.
  assert (Hl : forall t', l !! t' = Some Armed -> timers rm !! t' = Some Armed).
  { intros t' H. unfold l in H. destruct (decide (t' = t)) as [->|Hne].
    - rewrite list_lookup_insert_eq in H by (by apply lookup_lt_Some in Ht). congruence.
    - by rewrite list_lookup_insert_ne in H. }
  split_and!.
  - unfold l. by rewrite (count_outstanding_insert _ _ _ _ Ht), Hp.
  - intros t' H. by apply Hd, Hl.
  - intros Hr [t' H]%list_elem_of_lookup. apply (Ha Hr). apply list_elem_of_lookup. exists t'. by apply Hl.
Qed.

(** The callbacks cannot move once a caller has waited. *)
Lemma waited_frozen rm t x : monitor_inv rm -> Waited ∈ stoppers rm -> timers rm !! t = Some x -> outstanding x = false.
Proof. intros Hi Hw Ht. eapply count_outstanding_zero; [|done]. by rewrite <- (mi_pending _ Hi), (mi_waited _ Hi Hw). Qed.

Lemma running_not_waited rm : monitor_inv rm -> running rm = true -> Waited ∉ stoppers rm.
Proof.
  intros Hi Hr Hw. assert (Hne : stoppers rm <> []) by (intros E; rewrite E in Hw; by apply elem_of_nil in Hw).
  pose proof (mi_down _ Hi (mi_stopped _ Hi Hne)). congruence.
Qed.

Lemma monitor_step_inv rm rm' : monitor_inv rm -> monitor_step rm rm' -> monitor_inv rm'.
Proof.
  intros Hi Hs. pose proof Hi as [Hp Hd Ha Hst Hdn Hw]. destruct Hs as [sp| |t Ht|t Ht|t Ht| |i Hi' H0].
  - unfold monitor_Start. destruct (running rm || stopped rm) eqn:Hr; [done|].
    apply orb_false_iff in Hr as [Hr Hs]. destruct sp; [|done]. split; cbn; try done. congruence.
  - unfold trigger. destruct (running rm) eqn:Hr; [|done].
    pose proof (running_not_waited rm Hi Hr) as Hnw.
    destruct (stop_timer_inv rm Hp Hd) as [Hp' Ha'].
    destruct (stop_timer_frame rm) as (Hr1 & Hs1 & Hst1 & Hd1). split; cbn.
    + rewrite Hp', count_outstanding_app. reflexivity.
    + intros t Ht. apply lookup_app_Some in Ht as [Ht|[Hge Ht]].
      * exfalso. apply Ha'. apply list_elem_of_lookup. by exists t.
      * apply list_lookup_singleton_Some in Ht as [Ht _]. f_equal. lia.
    + congruence.
    + rewrite Hst1, Hs1. done.
    + rewrite Hs1. intros H. pose proof (Hdn H). congruence.
    + rewrite Hst1. intros H. by destruct Hnw.
  - destruct (move_timer rm t Armed Fired Hi Ht) as (Hc & H1 & H2); [done|]. split; cbn; try done.
    rewrite Hc. cbn. lia.
  - unfold callback_checks. destruct (running rm) eqn:Hr.
    + destruct (move_timer rm t Fired Reapplying Hi Ht) as (Hc & H1 & H2); [done|].
      split; cbn; rewrite ?Hr; try done. rewrite Hc. cbn. lia.
    + destruct (move_timer rm t Fired Returned Hi Ht) as (Hc & H1 & H2); [done|].
      split; cbn; rewrite ?Hr; try done; [rewrite Hc; cbn; lia|intros _; by apply H2|].
      intros H. discriminate (waited_frozen _ _ _ Hi H Ht).
  - destruct (move_timer rm t Reapplying Returned Hi Ht) as (Hc & H1 & H2); [done|].
    split; cbn; try done; [rewrite Hc; cbn; lia|].
    intros H. discriminate (waited_frozen _ _ _ Hi H Ht).
  - unfold Stop_locked. cbn zeta. set (rm1 := rm <| stopped := true |>). change (running rm1) with (running rm).
    destruct (running rm) eqn:Hr.
    + destruct (stop_timer_inv rm1 Hp Hd) as [Hp' Ha'].
      destruct (stop_timer_frame rm1) as (Hr1 & Hs1 & Hst1 & Hd1).
      change (stopped rm1) with true in Hs1. change (stoppers rm1) with (stoppers rm) in Hst1. clearbody rm1.
      pose proof (running_not_waited rm Hi Hr) as Hnw.
      split; cbn; rewrite ?Hst1, ?Hs1; try done.
      * intros t Ht. exfalso. apply Ha'. apply list_elem_of_lookup. by exists t.
      * rewrite elem_of_app, list_elem_of_singleton. intros [H|H]; [done|discriminate].
    + split; cbn; rewrite ?Hr; try done.
      rewrite elem_of_app, list_elem_of_singleton. intros [H|H]; [by apply Hw|discriminate].
  - split; cbn; try done. intros _. apply Hst. intros E. by rewrite E in Hi'.
Qed.

Lemma monitor_reachable_inv rm : monitor_reachable rm -> monitor_inv rm.
Proof.
  enough (H : forall rm rm', rtc monitor_step rm rm' -> monitor_inv rm -> monitor_inv rm').
  { intros Hr. apply (H _ _ Hr). split; cbn; try done; intros; set_solver. }
  clear. induction 1 as [|x y z Hs _ IH]; [done|]. intros Hi. by eapply IH, monitor_step_inv.
Qed.

Lemma waited_stays rm rm' : monitor_step rm rm' -> Waited ∈ stoppers rm -> Waited ∈ stoppers rm'.
Proof.
  intros Hs Hw. destruct Hs as [sp| |t Ht|t Ht|t Ht| |i Hi H0]; try done.
  - unfold monitor_Start. by destruct (_ || _), sp.
  - unfold trigger. destruct (running rm); [|done]. cbn.
    destruct (stop_timer_frame rm) as (_ & _ & -> & _). done.
  - unfold callback_checks. by destruct (running rm).
  - unfold Stop_locked. set (rm1 := rm <| stopped := true |>). change (stoppers rm) with (stoppers rm1) in Hw.
    clearbody rm1. destruct (stop_timer_frame rm1) as (_ & _ & Hst & _).
    destruct (running rm1); cbn; rewrite ?Hst; apply elem_of_app; by left.
  - cbn. apply list_elem_of_lookup in Hw as [j Hj]. apply list_elem_of_lookup. exists j.
    rewrite list_lookup_insert_ne; [done|]. intros ->. congruence.
Qed.

(** "This guarantees that after Stop() returns no further reapply() calls will occur, so the caller
    can safely tear down shared state" (monitor_darwin.go:71-72): after the Stop that took the monitor
    down has returned, in every interleaving of events, timers, late Starts and other Stops, no debounce
    timer is counting, no callback is under way and none will be.  The WaitGroup's counter, which panics
    below zero and would block Stop for ever above the callbacks, is their number at every step. *)
Theorem stop_quiesces rm rm' : monitor_reachable rm ->
  pending rm = count_outstanding (timers rm)
  /\ (Waited ∈ stoppers rm -> rtc monitor_step rm rm' ->
      forall t x, timers rm' !! t = Some x -> x = Returned \/ x = Cancelled).
Proof.
  intros Hr. split; [apply mi_pending, monitor_reachable_inv, Hr|]. intros Hw Hs t x Hx.
  assert (Hw' : Waited ∈ stoppers rm').
  { clear Hr Hx. induction Hs as [|a b c Hs _ IH]; [done|]. by eapply IH, waited_stays. }
  assert (Hr' : monitor_reachable rm') by (by transitivity rm).
  pose proof (waited_frozen rm' t x (monitor_reachable_inv rm' Hr') Hw' Hx) as Ho.
  destruct x; try discriminate; auto.
Qed.

(** An event, its timer fires, Stop waits for the callback, a second Stop does not. *)
Definition stop_run : list (routeMonitor -> routeMonitor) :=
  [monitor_Start true; trigger; trigger; fun rm => rm <| timers ::= fun l => <[1%nat := Fired]> l |>;
   callback_checks 1; Stop_locked; Stop_locked].

Definition after_run (fs : list (routeMonitor -> routeMonitor)) : routeMonitor :=
  foldl (fun rm f => f rm) newRouteMonitor fs.

Lemma stop_run_reachable : monitor_reachable (after_run stop_run).
Proof.
  unfold after_run, stop_run. cbn [foldl].
  eapply rtc_l; [apply (ms_start _ true)|]. eapply rtc_l; [apply ms_trigger|]. eapply rtc_l; [apply ms_trigger|].
  eapply rtc_l; [by apply (ms_fire _ 1)|]. eapply rtc_l; [by apply (ms_check _ 1)|].
  eapply rtc_l; [apply ms_stop|]. eapply rtc_l; [apply ms_stop|]. apply rtc_refl.
Qed.

(** The first Stop past its wait. *)
Definition stop_run_waited : routeMonitor :=
  let rm := callback_returns 1 (after_run stop_run) in rm <| stoppers ::= fun l => <[0%nat := Waited]> l |>.

Lemma stop_run_waited_reachable : monitor_reachable stop_run_waited.
Proof.
  transitivity (after_run stop_run); [exact stop_run_reachable|].
  eapply rtc_l; [by apply (ms_return _ 1)|]. eapply rtc_l; [by apply (ms_wait _ 0)|]. apply rtc_refl.
Qed.

Lemma stop_quiesces_witness :
  pending stop_run_waited = count_outstanding (timers stop_run_waited)
  /\ forall t x, timers (trigger stop_run_waited) !! t = Some x -> x = Returned \/ x = Cancelled.
Proof.
  destruct (stop_quiesces stop_run_waited (trigger stop_run_waited) stop_run_waited_reachable) as [H1 H2].
  split; [exact H1|]. apply H2; [left|]. apply rtc_once, ms_trigger.
Defined.

(** The guarantee is for the caller that found the monitor running only: a second Stop returns at
    once, here while the callback is inside reapply. *)
Theorem second_stop_early :
  exists rm, monitor_reachable rm /\ stoppers rm = [Waiting; Early] /\ Reapplying ∈ timers rm.
Proof.
  exists (after_run stop_run). split; [exact stop_run_reachable|]. split; [reflexivity|].
  by apply (bool_decide_unpack _).
Qed.

(** * The monitors of a manager: startMonitor, StopMonitor and Cleanup of internal/network/darwin.go

    A manager has at most one route monitor at a time; a goroutine starts it two seconds after it was made, and
    Stop is called outside the manager's lock. *)

(** [mo_delayed]: the monitors whose delayed Start is to come; [mo_stopping]: those whose Stop is. *)
Record Monitors := MkMonitors {
  mo_current : option nat; mo_all : list routeMonitor; mo_delayed : list nat; mo_stopping : list nat }.

#[export] Instance eta_monitors : Eta Monitors := fun r => MkMonitors (mo_current r) (mo_all r) (mo_delayed r) (mo_stopping r).

Definition no_monitors : Monitors := MkMonitors None [] [] [].

Definition startMonitor (m : Monitors) : Monitors :=
  match mo_current m with
  | Some i => m <| mo_delayed ::= cons i |>
  | None =>
      let i := length (mo_all m) in
      m <| mo_current := Some i |> <| mo_all ::= fun l => l ++ [newRouteMonitor] |> <| mo_delayed ::= cons i |>
  end.

(** Under the lock; the monitor's own Stop follows. *)
Definition stop_current (m : Monitors) : Monitors :=
  match mo_current m with Some i => m <| mo_current := None |> <| mo_stopping ::= cons i |> | None => m end.

(** What Cleanup does of it: the manager keeps the monitor. *)
Definition cleanup_current (m : Monitors) : Monitors :=
  match mo_current m with Some i => m <| mo_stopping ::= cons i |> | None => m end.

Definition delayed_start (spawned : bool) (k i : nat) (m : Monitors) : Monitors :=
  m <| mo_all ::= alter (monitor_Start spawned) i |> <| mo_delayed ::= delete k |>.

Definition call_stop (k i : nat) (m : Monitors) : Monitors :=
  m <| mo_all ::= alter Stop_locked i |> <| mo_stopping ::= delete k |>.

(** [mt_own]: events, timers and callbacks of a monitor, and the end of a Stop's wait. *)
Inductive monitors_step (m : Monitors) : Monitors -> Prop :=
| mt_start : monitors_step m (startMonitor m)
| mt_stop : monitors_step m (stop_current m)
| mt_cleanup : monitors_step m (cleanup_current m)
| mt_delayed spawned k i : mo_delayed m !! k = Some i -> monitors_step m (delayed_start spawned k i m)
| mt_stops k i : mo_stopping m !! k = Some i -> monitors_step m (call_stop k i m)
| mt_own i rm rm' : mo_all m !! i = Some rm -> monitor_step rm rm' -> running rm' = running rm -> stopped rm' = stopped rm ->
    monitors_step m (m <| mo_all ::= alter (fun _ => rm') i |>).

Abbreviation monitors_reachable := (rtc monitors_step no_monitors).

Record monitors_inv (m : Monitors) : Prop := {
  mt_reached i rm : mo_all m !! i = Some rm -> monitor_reachable rm;
  mt_range i : mo_current m = Some i -> is_Some (mo_all m !! i);
  mt_kept i rm : mo_all m !! i = Some rm -> mo_current m = Some i \/ i ∈ mo_stopping m \/ stopped rm = true
}.

(** A step of one monitor that keeps its tombstone. *)
Lemma monitor_moves m i (f : routeMonitor -> routeMonitor) : monitors_inv m ->
  (forall rm, mo_all m !! i = Some rm -> monitor_reachable (f rm) /\ (stopped rm = true -> stopped (f rm) = true)) ->
  monitors_inv (m <| mo_all ::= alter f i |>).
Proof.
  intros [H1 H2 H3] Hf. split; cbn.
  - intros j rm Hj. destruct (decide (i = j)) as [->|Hne]; [|by rewrite list_lookup_alter_ne in Hj; eauto].
    rewrite list_lookup_alter_eq in Hj. destruct (mo_all m !! j) as [rm0|] eqn:E; [|done]. injection Hj as <-. by apply Hf.
  - intros j Hj. destruct (decide (i = j)) as [->|Hne]; [rewrite list_lookup_alter_eq; by apply fmap_is_Some, H2|].
    rewrite list_lookup_alter_ne by done. by apply H2.
  - intros j rm Hj. destruct (decide (i = j)) as [->|Hne]; [|by rewrite list_lookup_alter_ne in Hj; eauto].
    rewrite list_lookup_alter_eq in Hj. destruct (mo_all m !! j) as [rm0|] eqn:E; [|done]. injection Hj as <-.
    destruct (H3 j rm0 E) as [H|[H|H]]; [by left|by right; left|]. right; right. by apply Hf.
Qed.

Lemma start_stopped spawned rm : stopped (monitor_Start spawned rm) = stopped rm.
Proof. unfold monitor_Start. by destruct (_ || _), spawned. Qed.

Lemma Stop_locked_stopped rm : stopped (Stop_locked rm) = true.
Proof.
  unfold Stop_locked. set (rm1 := rm <| stopped := true |>). destruct (stop_timer_frame rm1) as (_ & H & _).
  destruct (running rm1); [cbn; by rewrite H|done].
Qed.

Lemma elem_of_delete_ne {A} (l : list A) k x y : l !! k = Some y -> x ∈ l -> x = y \/ x ∈ delete k l.
Proof.
  intros Hk [j Hj]%list_elem_of_lookup. rewrite delete_take_drop. destruct (Nat.lt_trichotomy j k) as [H|[->|H]]; [| |].
  - right. apply elem_of_app. left. apply (list_elem_of_lookup_2 _ j). by rewrite lookup_take_lt.
  - left. congruence.
  - right. apply elem_of_app. right. apply (list_elem_of_lookup_2 _ (j - S k)). rewrite lookup_drop. by replace (S k + (j - S k))%nat with j by lia.
Qed.

Lemma monitors_step_inv m m' : monitors_step m m' -> monitors_inv m -> monitors_inv m'.
Proof.
  intros Hs Hi. pose proof Hi as [H1 H2 H3]. destruct Hs as [ | | |sp k i Hk|k i Hk|i rm rm' Hrm Hst Hr Hd].
  - unfold startMonitor. destruct (mo_current m) as [c|] eqn:Ec; [by split; cbn; rewrite ?Ec|]. split; cbn.
    + intros j r [Hj|[_ Hj]]%lookup_app_Some; [by apply (H1 j)|]. apply list_lookup_singleton_Some in Hj as [_ <-]. apply rtc_refl.
    + intros j [= <-]. rewrite lookup_app_r, Nat.sub_diag by lia. by eexists.
    + intros j r [Hj|[Hl Hj]]%lookup_app_Some; [destruct (H3 j r Hj); [done|by right]|].
      apply list_lookup_singleton_Some in Hj as [Hj _]. left. f_equal. lia.
  - unfold stop_current. destruct (mo_current m) as [c|] eqn:Ec; [|done]. split; cbn; [done..|].
    intros j r Hj. destruct (H3 j r Hj) as [[= ->]|[H|H]]; [right; left; by left|right; left; by right|by right; right].
  - unfold cleanup_current. destruct (mo_current m) as [c|] eqn:Ec; [|done]. split; cbn; rewrite ?Ec; [done..|].
    intros j r Hj. destruct (H3 j r Hj) as [H|[H|H]]; [by left|right; left; by right|by right; right].
  - destruct (monitor_moves m i (monitor_Start sp) Hi) as [G1 G2 G3]; [|by split].
    intros r Hr. split; [|by rewrite start_stopped]. eapply rtc_r; [by apply (H1 i)|apply ms_start].
  - destruct (monitor_moves m i Stop_locked Hi) as [G1 G2 G3].
    { intros r Hr. split; [|by rewrite Stop_locked_stopped]. eapply rtc_r; [by apply (H1 i)|apply ms_stop]. }
    split; cbn in *; [done..|]. intros j r Hj. destruct (decide (j = i)) as [->|Hne].
    + right; right. rewrite list_lookup_alter_eq in Hj. destruct (mo_all m !! i); [|done]. injection Hj as <-. apply Stop_locked_stopped.
    + destruct (G3 j r Hj) as [H|[H|H]]; [by left| |by right; right]. destruct (elem_of_delete_ne _ k _ i Hk H) as [|]; [done|]. by right; left.
  - apply (monitor_moves m i (fun _ => rm') Hi). intros r Hr'. assert (r = rm) as -> by congruence. split; [|congruence].
    eapply rtc_r; [by apply (H1 i)|done].
Qed.

Lemma monitors_reachable_inv m : monitors_reachable m -> monitors_inv m.
Proof.
  revert m. apply (rtc_ind_r (fun m => monitors_inv m) no_monitors); [by split|]. intros m m' _ Hs Hi. by apply (monitors_step_inv m).
Qed.

(** However starts, late starts, stops and cleanups interleave: a monitor runs only while it is the manager's own or
    its Stop is on the way, and once the manager has let its monitor go and the Stops are done none runs, nor will
    a Start that comes late make one run. *)
Theorem one_route_monitor m : monitors_reachable m ->
  (forall i rm, mo_all m !! i = Some rm -> running rm = true -> mo_current m = Some i \/ i ∈ mo_stopping m)
  /\ (mo_current m = None -> mo_stopping m = [] ->
      forall i rm spawned, mo_all m !! i = Some rm -> running rm = false /\ monitor_Start spawned rm = rm).
Proof.
  intros Hr. pose proof (monitors_reachable_inv m Hr) as [H1 H2 H3].
  assert (Hd : forall i rm, mo_all m !! i = Some rm -> stopped rm = true -> running rm = false).
  { intros i rm Hi. by apply mi_down, monitor_reachable_inv, (H1 i). }
  split.
  - intros i rm Hi Hrun. destruct (H3 i rm Hi) as [H|[H|H]]; [by left|by right|]. apply (Hd i) in H; [congruence|done].
  - intros Hc Hs i rm spawned Hi. destruct (H3 i rm Hi) as [H|[H|H]]; [congruence|rewrite Hs in H; by apply elem_of_nil in H|].
    split; [by apply (Hd i)|]. unfold monitor_Start. rewrite H. by rewrite orb_true_r.
Qed.

(** ** The OpenVPN manager's use of it: applyDNS and cleanup of internal/ovpn/manager.go

    Its tunnels share one network manager.  [du_setting]: SetDNS has returned and the entry is not updated yet;
    [du_leaving]: a cleanup past its look at the other tunnels, with what it saw. *)

Record DnsUse := MkDnsUse { du_mons : Monitors; du_setting : list string; du_applied : gset string; du_leaving : list bool }.

#[export] Instance eta_dns_use : Eta DnsUse := fun r => MkDnsUse (du_mons r) (du_setting r) (du_applied r) (du_leaving r).

Definition no_dns : DnsUse := MkDnsUse no_monitors [] ∅ [].

Definition dns_leave (name : string) (u : DnsUse) : DnsUse :=
  let others := du_applied u ∖ {[name]} in u <| du_applied := others |> <| du_leaving ::= cons (negb (bool_decide (others = ∅))) |>.

Inductive dns_use_step (u : DnsUse) : DnsUse -> Prop :=
| du_set name : dns_use_step u (u <| du_mons ::= startMonitor |> <| du_setting ::= cons name |>)
| du_updated (k : nat) name : du_setting u !! k = Some name ->
    dns_use_step u (u <| du_setting ::= fun l => delete k l |> <| du_applied ::= fun s => {[name]} ∪ s |>)
| du_leaves name : name ∈ du_applied u -> dns_use_step u (dns_leave name u)
| du_left (k : nat) (otherDNS : bool) : du_leaving u !! k = Some otherDNS ->
    dns_use_step u (u <| du_leaving ::= fun l => delete k l |> <| du_mons ::= if otherDNS then id else stop_current |>)
| du_monitor mons' : monitors_step (du_mons u) mons' -> dns_use_step u (u <| du_mons := mons' |>).

(** A tunnel's DNS is watched: a monitor runs, or will. *)
Definition watched (u : DnsUse) : bool :=
  existsb running (mo_all (du_mons u)) || bool_decide (mo_delayed (du_mons u) <> []).

(** One tunnel takes its DNS away while another sets its own: the cleanup saw no other, SetDNS found the monitor it
    was about to stop, and the tunnel that is left is not watched, with everything at rest. *)
Definition unwatched : DnsUse :=
  let u := no_dns <| du_mons ::= startMonitor |> <| du_applied := {["a"]} |> <| du_mons ::= delayed_start true 0 0 |> in
  let u := (dns_leave "a" u) <| du_mons ::= startMonitor |> <| du_applied ::= fun s => {["b"]} ∪ s |> in
  u <| du_leaving := [] |> <| du_mons ::= stop_current |> <| du_mons ::= call_stop 0 0 |> <| du_mons ::= delayed_start true 0 0 |>.

Theorem dns_left_unwatched :
  exists u, rtc dns_use_step no_dns u /\ du_applied u = {["b"]} /\ du_setting u = [] /\ du_leaving u = []
            /\ mo_stopping (du_mons u) = [] /\ watched u = false.
Proof.
  exists unwatched. split; [|by vm_compute].
  eapply rtc_l; [apply (du_set _ "a")|]. eapply rtc_l; [by apply (du_updated _ 0 "a")|].
  eapply rtc_l; [apply du_monitor, (mt_delayed _ true 0 0); reflexivity|]. eapply rtc_l; [apply (du_leaves _ "a"); set_solver|].
  eapply rtc_l; [apply (du_set _ "b")|]. eapply rtc_l; [by apply (du_updated _ 0 "b")|].
  eapply rtc_l; [by apply (du_left _ 0 false)|].
  eapply rtc_l; [apply du_monitor, (mt_stops _ 0 0); reflexivity|].
  eapply rtc_l; [apply du_monitor, (mt_delayed _ true 0 0); reflexivity|]. vm_compute. apply rtc_refl.
Qed.

Lemma one_route_monitor_witness :
  let m := call_stop 0 0 (stop_current (delayed_start true 0 0 (startMonitor no_monitors))) in
  forall i rm spawned, mo_all m !! i = Some rm -> running rm = false /\ monitor_Start spawned rm = rm.
Proof.
  intros m. apply (one_route_monitor m); [|reflexivity..].
  eapply rtc_l; [apply mt_start|]. eapply rtc_l; [apply (mt_delayed _ true 0 0); reflexivity|].
  eapply rtc_l; [apply mt_stop|]. eapply rtc_l; [apply (mt_stops _ 0 0); reflexivity|]. apply rtc_refl.
Defined.
