(* ===== verification/Engine.v ===== *)
(** * The WireGuard engine: internal/tunnel/engine.go

    What NewEngine checks, resolves and sends to the wireguard-go device, with everything it
    closes again; the watcher that tells a device that died from one that was closed; and the
    throttle of its error log.  The resolver, the device and the TUN driver are arguments. *)

From S2P Require Import Prelude GoStrings GoText GoNet Domain TunnelManager.

(** ** Keys *)

Inductive KeyError := EmptyKey | BadBase64 | BadLength (n : nat).

Definition validateWireGuardKey (b64Key : string) : option KeyError :=
  if b64Key =s "" then Some EmptyKey
  else match b64_decode b64Key with
       | None => Some BadBase64
       | Some raw => if (length raw =? 32)%nat then None else Some (BadLength (length raw))
       end.

(** hex.EncodeToString *)
Definition hex_digit (n : Z) : ascii :=
  ascii_of_nat (Z.to_nat (if (n <? 10)%Z then n + 48 else n + 87)%Z).

Fixpoint hex_encode (l : list Z) : string :=
  match l with
  | [] => ""
  | b :: l' => String (hex_digit (b / 16)) (String (hex_digit (b mod 16)) (hex_encode l'))
  end.

Definition keyToHex (b64Key : string) : result KeyError string :=
  match b64_decode b64Key with
  | None => Err BadBase64
  | Some raw => if (length raw =? 32)%nat then Ok (hex_encode raw) else Err (BadLength (length raw))
  end.

(** ** Endpoints *)

(** An address that is IPv6 and nothing else. *)
Definition only_v6 (s : string) : bool :=
  match parse_ip s with
  | Some ip => match to4 ip with None => true | Some _ => false end
  | None => false
  end.

Definition orderIPsV4First (ips : list string) : list string :=
  List.filter (fun s => negb (only_v6 s)) ips ++ List.filter only_v6 ips.

Inductive EngineError :=
| BadPrivateKey (e : KeyError) | BadPublicKey (i : nat) (e : KeyError) | BadPresharedKey (i : nat) (e : KeyError)
| BadEndpointFormat (i : nat) | ResolveFailed (i : nat) | NoAddresses (i : nat)
| TunFailed | TunNameFailed | ConfigText (i : nat) | IpcSetFailed | UpFailed.

(** The key checks of the peers, in order. *)
Fixpoint check_peer_keys (i : nat) (peers : list PeerConfig) : option EngineError :=
  match peers with
  | [] => None
  | p :: rest =>
      match validateWireGuardKey (PublicKey p) with
      | Some e => Some (BadPublicKey i e)
      | None =>
          match (if PresharedKey p =s "" then None else validateWireGuardKey (PresharedKey p)) with
          | Some e => Some (BadPresharedKey i e)
          | None => check_peer_keys (S i) rest
          end
      end
  end.

Section Resolve.
(** LookupHost: [None] is an error. *)
Variable lookupHost : string -> option (list string).

(** One peer: with its resolved endpoint, and every address it resolved to. *)
Definition resolve_peer (i : nat) (p : PeerConfig)
    : result EngineError (PeerConfig * list string * list string) :=
  if Endpoint p =s "" then Ok (p, [], [])
  else match split_host_port (Endpoint p) with
       | None => Err (BadEndpointFormat i)
       | Some (host, port) =>
           match lookupHost host with
           | None => Err (ResolveFailed i)
           | Some ips =>
               match orderIPsV4First ips with
               | [] => Err (NoAddresses i)
               | (primary :: _) as ordered =>
                   Ok (p <| Endpoint := join_host_port primary port |>, ordered,
                       (fun ip => join_host_port ip port) <$> ordered)
               end
           end
       end.

Fixpoint resolve_peers (i : nat) (peers : list PeerConfig)
    : result EngineError (list PeerConfig * list string * list string) :=
  match peers with
  | [] => Ok ([], [], [])
  | p :: rest =>
      let? (p', ips, eps) := resolve_peer i p in
      let? (rest', ips', eps') := resolve_peers (S i) rest in
      Ok (p' :: rest', ips ++ ips', eps ++ eps')
  end.
End Resolve.

(** ** The configuration text *)

Definition nl_ : string := String newline "".

Definition setting_line (key value : string) : string := key +:+ "=" +:+ value +:+ nl_.

Section Text.
(** net.ResolveUDPAddr of a literal address, written by String; [None] is an error. *)
Variable resolveUDPAddr : string -> option string.

Definition peer_text (i : nat) (p : PeerConfig) : result EngineError string :=
  let? pk := map_err (BadPublicKey i) (keyToHex (PublicKey p)) in
  let? psk := (if PresharedKey p =s "" then Ok ""
               else let? k := map_err (BadPresharedKey i) (keyToHex (PresharedKey p)) in
                    Ok (setting_line "preshared_key" k)) in
  let? ep := (if Endpoint p =s "" then Ok ""
              else match resolveUDPAddr (Endpoint p) with
                   | None => Err (ConfigText i)
                   | Some a => Ok (setting_line "endpoint" a)
                   end) in
  Ok (setting_line "public_key" pk +:+ psk +:+ ep
      +:+ setting_line "replace_allowed_ips" "true"
      +:+ join "" (setting_line "allowed_ip" <$> AllowedIPs p)
      +:+ (if (0 <? PersistentKeepalive p)%Z
           then setting_line "persistent_keepalive_interval" (itoa (PersistentKeepalive p)) else "")).

Fixpoint peers_text (i : nat) (peers : list PeerConfig) : result EngineError string :=
  match peers with
  | [] => Ok ""
  | p :: rest =>
      let? a := peer_text i p in
      let? b := peers_text (S i) rest in
      Ok (a +:+ b)
  end.

Definition buildIpcConfig (cfg : WireGuardConfig) : result EngineError string :=
  let? pk := map_err BadPrivateKey (keyToHex (PrivateKey (Interface cfg))) in
  let? peers := peers_text 0 (Peers cfg) in
  Ok (setting_line "private_key" pk
      +:+ (if (0 <? ListenPort (Interface cfg))%Z
           then setting_line "listen_port" (itoa (ListenPort (Interface cfg))) else "")
      +:+ setting_line "replace_peers" "true" +:+ peers).
End Text.

(** ** NewEngine *)

Inductive DevEffect :=
| DCreateTUN (mtu : Z) | DCloseTUN | DNewDevice (iface : string) | DIpcSet (text : string) | DUp
| DListenUAPI (iface : string) | DCloseDevice.

#[export] Instance dev_effect_eq : EqDecision DevEffect.
Proof. solve_decision. Defined.

(** What the system makes of them. *)
Record Host := MkHost_ {
  ho_lookup : string -> option (list string);
  ho_udp : string -> option string;
  ho_create : Z -> bool;
  ho_name : option string;
  ho_ipcset : string -> bool;
  ho_up : bool
}.

Definition engine_mtu (cfg : WireGuardConfig) : Z :=
  if (MTU (Interface cfg) <=? 0)%Z then 1420 else MTU (Interface cfg).

Definition check_keys (cfg : WireGuardConfig) : option EngineError :=
  match validateWireGuardKey (PrivateKey (Interface cfg)) with
  | Some e => Some (BadPrivateKey e)
  | None => check_peer_keys 0 (Peers cfg)
  end.

(** From wgDev on; [e] is the engine built.  The UAPI listener's failure is only logged. *)
Definition start_device (h : Host) (resolved : WireGuardConfig) (e : Engine)
    : result EngineError Engine * list DevEffect :=
  match buildIpcConfig (ho_udp h) resolved with
  | Err err => (Err err, [DCloseDevice])
  | Ok text =>
      if negb (ho_ipcset h text) then (Err IpcSetFailed, [DIpcSet text; DCloseDevice])
      else if negb (ho_up h) then (Err UpFailed, [DIpcSet text; DUp; DCloseDevice])
      else (Ok e, [DIpcSet text; DUp; DListenUAPI (eng_iface e)])
  end.

(** [id] is the new engine's identity. *)
Definition NewEngine (h : Host) (id : nat) (cfg : WireGuardConfig) : result EngineError Engine * list DevEffect :=
  match check_keys cfg with
  | Some e => (Err e, [])
  | None =>
      match resolve_peers (ho_lookup h) 0 (Peers cfg) with
      | Err e => (Err e, [])
      | Ok (peers, ips, eps) =>
          let mtu := engine_mtu cfg in
          if negb (ho_create h mtu) then (Err TunFailed, [DCreateTUN mtu])
          else match ho_name h with
               | None => (Err TunNameFailed, [DCreateTUN mtu; DCloseTUN])
               | Some iface =>
                   let '(r, effs) := start_device h (cfg <| Peers := peers |>) (MkEngine id iface ips eps) in
                   (r, [DCreateTUN mtu; DNewDevice iface] ++ effs)
               end
      end
  end.

(** ** Close and the death watcher *)

(** [lf_down]: the device's Wait channel is closed; [lf_self]: it closed itself; [lf_seen]: the watcher
    is past its look at [closing]. *)
Record Life := MkLife {
  lf_once : bool; lf_closing : bool; lf_down : bool; lf_self : bool;
  lf_seen : bool; lf_died : bool; lf_stopped : bool }.

#[export] Instance eta_life : Eta Life := fun r =>
  MkLife (lf_once r) (lf_closing r) (lf_down r) (lf_self r) (lf_seen r) (lf_died r) (lf_stopped r).

Definition born : Life := MkLife false false false false false false false.

(** The body of closeOnce up to wgDevice.Close; nothing the second time. *)
Definition Close_begin (l : Life) : Life := if lf_once l then l else l <| lf_once := true |> <| lf_closing := true |>.

(** The watcher after Wait: died, then stopped. *)
Definition watch_died (l : Life) : Life := l <| lf_seen := true |> <| lf_died := negb (lf_closing l) |>.
Definition watch_stopped (l : Life) : Life := l <| lf_stopped := true |>.

(** wgDevice.Close returns; the device closes itself, on a fatal error of the TUN driver. *)
Inductive life_step (l : Life) : Life -> Prop :=
| ls_close : life_step l (Close_begin l)
| ls_closed : lf_closing l = true -> life_step l (l <| lf_down := true |>)
| ls_dies : lf_down l = false -> life_step l (l <| lf_down := true |> <| lf_self := true |>)
| ls_died : lf_down l = true -> lf_seen l = false -> life_step l (watch_died l)
| ls_stopped : lf_seen l = true -> lf_stopped l = false -> life_step l (watch_stopped l).

(** ** The log throttle *)

Definition dataPathErrorSubstrings : list string :=
  ["Failed to send data packets"; "Failed to read packet from TUN device"; "Failed to write packets to TUN device"].

(** Nanoseconds. *)
Definition errorThrottleWindow : Z := 5000000000.

Record errorThrottle := MkThrottle { th_lastSeen : gmap string Z; th_dropped : gmap string Z }.

Definition dropped (t : errorThrottle) (key : string) : Z := default 0%Z (th_dropped t !! key).

Definition allow (t : errorThrottle) (now : Z) (key : string) : bool * Z * errorThrottle :=
  let pass := (true, dropped t key,
               MkThrottle (<[key := now]> (th_lastSeen t)) (<[key := 0%Z]> (th_dropped t))) in
  match th_lastSeen t !! key with
  | Some last =>
      if (now - last <? errorThrottleWindow)%Z
      then (false, 0%Z, MkThrottle (th_lastSeen t) (<[key := (dropped t key + 1)%Z]> (th_dropped t)))
      else pass
  | None => pass
  end.

(** Errorf: whether the message is logged, and how many similar ones it mentions. *)
Definition Errorf (t : errorThrottle) (now : Z) (msg : string) : option Z * errorThrottle :=
  match List.find (fun sub => contains sub msg) dataPathErrorSubstrings with
  | Some sub =>
      let '(ok, suppressed, t') := allow t now sub in (if ok : bool then Some suppressed else None, t')
  | None => (Some 0%Z, t)
  end.
