(* ===== verification/EngineFacts.v ===== *)
(** * What the WireGuard device is told, what a failed NewEngine leaves, and when a death is reported

    [uapi_read] is a reader of the device's configuration protocol, in which a public key that occurs again selects its
    peer again and an allowed IP moves from the peer that has it; [uapi_roundtrip] shows that it
    gives back the configuration. *)

From S2P Require Import Prelude GoStrings GoText GoNet Domain ConfigRoundtrip Validator ValidatorFacts TunnelManager Engine.

(** ** Hex *)

Fixpoint hex_decode (s : string) : option (list Z) :=
  match s with
  | EmptyString => Some []
  | String a (String b s') =>
      match digit_val a, digit_val b, hex_decode s' with
      | Some x, Some y, Some l => Some ((16 * x + y)%Z :: l)
      | _, _, _ => None
      end
  | _ => None
  end.

Abbreviation octet := (fun b => 0 <= b < 256)%Z.

Lemma hex_digit_val n : (0 <= n < 16)%Z -> digit_val (hex_digit n) = Some n /\ hex_char (hex_digit n) = true.
Proof.
  intros H. pose proof (upto_forall 16 (fun n => bool_decide (digit_val (hex_digit n) = Some n) && hex_char (hex_digit n))) as Hu.
  specialize (Hu n). apply andb_prop in Hu as [Hu Hc]; [|vm_compute; reflexivity|lia].
  by apply bool_decide_eq_true in Hu.
Qed.

Lemma hex_roundtrip l : Forall octet l -> hex_decode (hex_encode l) = Some l.
Proof.
  induction 1 as [|b l Hb _ IH]; [done|]. cbn [hex_encode hex_decode].
  pose proof (Z.div_mod b 16). pose proof (Z.mod_pos_bound b 16).
  assert (0 <= b / 16 < 16)%Z by (split; [apply Z.div_pos; lia|apply Z.div_lt_upper_bound; lia]).
  destruct (hex_digit_val (b / 16)) as [-> _]; [lia|]. destruct (hex_digit_val (b mod 16)) as [-> _]; [lia|].
  rewrite IH. do 2 f_equal. lia.
Qed.

Lemma hex_encode_chars l : Forall octet l -> string_forall hex_char (hex_encode l) = true.
Proof.
  induction 1 as [|b l Hb _ IH]; [done|]. cbn [hex_encode string_forall].
  pose proof (Z.mod_pos_bound b 16).
  assert (0 <= b / 16 < 16)%Z by (split; [apply Z.div_pos; lia|apply Z.div_lt_upper_bound; lia]).
  destruct (hex_digit_val (b / 16)) as [_ ->]; [lia|]. destruct (hex_digit_val (b mod 16)) as [_ ->]; [lia|]. done.
Qed.

Lemma b64_val_range c v : b64_val c = Some v -> (0 <= v < 64)%Z.
Proof. unfold b64_val. intros H. repeat step_in H; simplify_eq; bool_hyps; lia. Qed.

Lemma b64_first_octet x y : (0 <= x < 64)%Z -> (0 <= y < 64)%Z -> octet (Z.lor (Z.shiftl x 2) (Z.shiftr y 4)).
Proof.
  intros Hx Hy.
  pose proof (upto_forall 64 (fun x => forallb (fun y => let o := Z.lor (Z.shiftl x 2) (Z.shiftr y 4) in
                                                       (0 <=? o)%Z && (o <? 256)%Z) (upto 64))) as Hu.
  specialize (Hu x ltac:(vm_compute; reflexivity) ltac:(lia)). cbn zeta in Hu.
  pose proof (upto_forall 64 (fun y => let o := Z.lor (Z.shiftl x 2) (Z.shiftr y 4) in (0 <=? o)%Z && (o <? 256)%Z) y Hu) as Hv.
  cbn zeta in Hv. specialize (Hv ltac:(lia)). bool_hyps. lia.
Qed.

Lemma land_octet z : octet (Z.land 255 z).
Proof. rewrite Z.land_comm. change 255%Z with (Z.ones 8). rewrite Z.land_ones by lia. apply Z.mod_pos_bound. lia. Qed.

Lemma b64_octets n : forall s l, (String.length s <= n)%nat -> b64_quanta s = Some l -> Forall octet l.
Proof.
  induction n as [|n IH]; intros s l Hn H.
  { destruct s; [cbn in H; simplify_eq; constructor|cbn in Hn; lia]. }
  destruct s as [|a [|b [|c [|d rest]]]]; cbn [b64_quanta] in H; simplify_eq; [constructor|].
  cbn [String.length] in Hn.
  destruct (b64_val a) as [x|] eqn:Ea; [|done]. destruct (b64_val b) as [y|] eqn:Eb; [|done].
  pose proof (b64_first_octet x y (b64_val_range _ _ Ea) (b64_val_range _ _ Eb)) as H1.
  repeat (step_in H; try discriminate); simplify_eq; repeat constructor; try apply H1; try apply land_octet.
  eapply IH; [|done]. lia.
Qed.

Lemma key_octets k raw : b64_decode k = Some raw -> Forall octet raw.
Proof. by apply (b64_octets (String.length (drop_newlines k))). Qed.

(** ** The configuration protocol of the device: https://www.wireguard.com/xplatform/ *)

Record DevPeer := MkDevPeer {
  dp_key : list Z; dp_psk : option (list Z); dp_endpoint : option string;
  dp_allowed : list string; dp_keepalive : Z }.

Record DevConf := MkDevConf { dc_key : list Z; dc_port : option Z; dc_peers : list DevPeer }.

#[export] Instance eta_dev_peer : Eta DevPeer := fun r =>
  MkDevPeer (dp_key r) (dp_psk r) (dp_endpoint r) (dp_allowed r) (dp_keepalive r).
#[export] Instance eta_dev_conf : Eta DevConf := fun r => MkDevConf (dc_key r) (dc_port r) (dc_peers r).

(** A setting of the peer being read, the first of [dc_peers] while reading. *)
Definition on_peer (f : DevPeer -> DevPeer) (c : DevConf) : option DevConf :=
  match dc_peers c with
  | p :: ps => Some (c <| dc_peers := f p :: ps |>)
  | [] => None
  end.

(** The entry of a public key, a new one or the one it has already, to be read first. *)
Definition select_peer (key : list Z) (ps : list DevPeer) : list DevPeer :=
  match List.filter (fun p => bool_decide (dp_key p = key)) ps with
  | p :: _ => p :: List.filter (fun p => negb (bool_decide (dp_key p = key))) ps
  | [] => MkDevPeer key None None [] 0 :: ps
  end.

(** Which network a text denotes: the host bits are masked off. *)
Definition network_of (s : string) : list Z * list Z + string :=
  match parse_cidr s with Some (_, n) => inl (net_ip n, net_mask n) | None => inr s end.

Definition drop_network (v : string) (p : DevPeer) : DevPeer :=
  p <| dp_allowed ::= List.filter (fun w => negb (bool_decide (network_of w = network_of v))) |>.

(** An allowed IP is removed from the peer that has it and added to the current one. *)
Definition claim (v : string) (c : DevConf) : option DevConf :=
  match dc_peers c with
  | p :: ps => Some (c <| dc_peers := ((drop_network v p) <| dp_allowed ::= fun l => l ++ [v] |>) :: (drop_network v <$> ps) |>)
  | [] => None
  end.

Definition uapi_step (c : DevConf) (kv : string * string) : option DevConf :=
  let '(k, v) := kv in
  if k =s "private_key" then raw ← hex_decode v; Some (c <| dc_key := raw |>)
  else if k =s "listen_port" then n ← atoi v; Some (c <| dc_port := Some n |>)
  else if k =s "replace_peers" then if v =s "true" then Some (c <| dc_peers := [] |>) else None
  else if k =s "public_key" then
    raw ← hex_decode v; Some (c <| dc_peers ::= select_peer raw |>)
  else if k =s "preshared_key" then raw ← hex_decode v; on_peer (fun p => p <| dp_psk := Some raw |>) c
  else if k =s "endpoint" then on_peer (fun p => p <| dp_endpoint := Some v |>) c
  else if k =s "replace_allowed_ips" then
    if v =s "true" then on_peer (fun p => p <| dp_allowed := [] |>) c else None
  else if k =s "allowed_ip" then claim v c
  else if k =s "persistent_keepalive_interval" then
    n ← atoi v; on_peer (fun p => p <| dp_keepalive := n |>) c
  else None.

Fixpoint uapi_run (c : DevConf) (l : list (string * string)) : option DevConf :=
  match l with
  | [] => Some c
  | kv :: l' => c' ← uapi_step c kv; uapi_run c' l'
  end.

(** The settings of a text: every line ends in a newline. *)
Fixpoint settings_of (ls : list string) : option (list (string * string)) :=
  match ls with
  | [] => None
  | [l] => if l =s "" then Some [] else None
  | l :: ls' => kv ← cut_byte "=" l; rest ← settings_of ls'; Some (kv :: rest)
  end.

Definition uapi_read (text : string) : option DevConf :=
  l ← settings_of (split_byte newline text);
  c ← uapi_run (MkDevConf [] None []) l;
  Some (c <| dc_peers ::= rev (A:=_) |>).

(** ** What a configuration means to the device *)

Section Meaning.
Variable udp : string -> option string.

Definition dev_peer (p : PeerConfig) : option DevPeer :=
  key ← b64_decode (PublicKey p);
  psk ← (if PresharedKey p =s "" then Some None else Some <$> b64_decode (PresharedKey p));
  ep ← (if Endpoint p =s "" then Some None else Some <$> udp (Endpoint p));
  Some (MkDevPeer key psk ep (AllowedIPs p) (Z.max 0 (PersistentKeepalive p))).

Definition dev_conf (cfg : WireGuardConfig) : option DevConf :=
  key ← b64_decode (PrivateKey (Interface cfg));
  peers ← mapM dev_peer (Peers cfg);
  let port := ListenPort (Interface cfg) in
  Some (MkDevConf key (if (0 <? port)%Z then Some port else None) peers).
End Meaning.

(** *** The settings, as pairs *)

Definition peer_settings (p : DevPeer) : list (string * string) :=
  [("public_key", hex_encode (dp_key p))]
  ++ (match dp_psk p with Some k => [("preshared_key", hex_encode k)] | None => [] end)
  ++ (match dp_endpoint p with Some e => [("endpoint", e)] | None => [] end)
  ++ [("replace_allowed_ips", "true")]
  ++ (pair "allowed_ip" <$> dp_allowed p)
  ++ (if (0 <? dp_keepalive p)%Z then [("persistent_keepalive_interval", itoa (dp_keepalive p))] else []).

Definition conf_settings (c : DevConf) : list (string * string) :=
  [("private_key", hex_encode (dc_key c))]
  ++ (match dc_port c with Some n => [("listen_port", itoa n)] | None => [] end)
  ++ [("replace_peers", "true")] ++ concat (peer_settings <$> dc_peers c).

Fixpoint settings_text (l : list (string * string)) : string :=
  match l with
  | [] => ""
  | (k, v) :: l' => setting_line k v +:+ settings_text l'
  end.

Lemma settings_text_app l k : settings_text (l ++ k) = settings_text l +:+ settings_text k.
Proof. induction l as [|[x y] l IH]; [done|]. cbn [app settings_text]. by rewrite IH, string_app_assoc. Qed.

Lemma settings_text_single k v : settings_text [(k, v)] = setting_line k v.
Proof. cbn. apply string_app_nil_r. Qed.

(** *** Reading the pairs *)

Definition good_setting (kv : string * string) : Prop :=
  contains_byte "=" kv.1 = false /\ contains_byte newline kv.1 = false /\ contains_byte newline kv.2 = false.

Lemma settings_of_cons l ls : ls <> [] ->
  settings_of (l :: ls) = (kv ← cut_byte "=" l; rest ← settings_of ls; Some (kv :: rest)).
Proof. by destruct ls. Qed.

Lemma settings_of_text l : Forall good_setting l -> settings_of (split_byte newline (settings_text l)) = Some l.
Proof.
  induction 1 as [|[k v] l (H1 & H2 & H3) _ IH]; [done|]. cbn [fst snd settings_text] in *.
  unfold setting_line, nl_.
  assert (E : (k +:+ "=" +:+ v +:+ String newline "") +:+ settings_text l
              = (k +:+ String "=" v) +:+ String newline (settings_text l)).
  { rewrite !string_app_assoc. f_equal. }
  rewrite E, split_byte_app.
  - rewrite settings_of_cons by apply split_byte_ne. rewrite cut_byte_app by done. cbn [mbind option_bind].
    by rewrite IH.
  - rewrite contains_byte_app, H2. cbn [orb contains_byte]. by rewrite H3.
Qed.

Lemma uapi_run_app c l k : uapi_run c (l ++ k) = (c' ← uapi_run c l; uapi_run c' k).
Proof.
  revert c. induction l as [|kv l IH]; intros c; [done|]. cbn [app uapi_run].
  destruct (uapi_step c kv); cbn; [apply IH|done].
Qed.

Record good_peer (p : DevPeer) : Prop := {
  gp_key : Forall octet (dp_key p);
  gp_psk : forall k, dp_psk p = Some k -> Forall octet k;
  gp_endpoint : forall e, dp_endpoint p = Some e -> contains_byte newline e = false;
  gp_allowed : Forall (fun a => contains_byte newline a = false) (dp_allowed p);
  gp_keepalive : (0 <= dp_keepalive p < 2 ^ 63)%Z
}.

Record good_conf (c : DevConf) : Prop := {
  gc_key : Forall octet (dc_key c);
  gc_port : forall n, dc_port c = Some n -> (0 < n < 2 ^ 63)%Z;
  gc_peers : Forall good_peer (dc_peers c)
}.

Lemma hex_no_newline l : Forall octet l -> contains_byte newline (hex_encode l) = false.
Proof. intros H. apply (string_forall_contains hex_char); [by apply hex_encode_chars|done]. Qed.

Lemma itoa_no_newline n : (0 < n)%Z -> contains_byte newline (itoa n) = false.
Proof. intros H. apply (string_forall_contains decimal); [by apply itoa_decimal|done]. Qed.

Lemma good_peer_settings p : good_peer p -> Forall good_setting (peer_settings p).
Proof.
  intros [Hk Hp He Ha Hn]. unfold peer_settings. repeat apply Forall_app_2.
  - repeat constructor. by apply hex_no_newline.
  - destruct (dp_psk p); repeat constructor. by apply hex_no_newline, Hp.
  - destruct (dp_endpoint p); repeat constructor. by apply He.
  - repeat constructor.
  - apply Forall_fmap. eapply Forall_impl; [exact Ha|]. intros a H. by repeat split.
  - destruct (Z.ltb_spec 0 (dp_keepalive p)); repeat constructor. by apply itoa_no_newline.
Qed.

Lemma good_conf_settings c : good_conf c -> Forall good_setting (conf_settings c).
Proof.
  intros [Hk Hp Hs]. unfold conf_settings. repeat apply Forall_app_2.
  - repeat constructor. by apply hex_no_newline.
  - destruct (dc_port c) as [n|]; repeat constructor. apply itoa_no_newline. by destruct (Hp n eq_refl).
  - repeat constructor.
  - apply Forall_concat, Forall_fmap. eapply Forall_impl; [exact Hs|]. apply good_peer_settings.
Qed.

(** Peers and networks that nobody has yet. *)
Definition distinct_peers (ps : list DevPeer) : Prop :=
  NoDup (dp_key <$> ps) /\ NoDup (network_of <$> (ps ≫= dp_allowed)).

#[export] Instance distinct_peers_proper : Proper ((≡ₚ) ==> iff) distinct_peers.
Proof. intros l k H. unfold distinct_peers. by rewrite H. Qed.

Lemma select_new key ps : key ∉ dp_key <$> ps -> select_peer key ps = MkDevPeer key None None [] 0 :: ps.
Proof.
  intros H. unfold select_peer. destruct (List.filter _ ps) as [|p l] eqn:E; [done|]. exfalso. apply H.
  assert (Hp : p ∈ List.filter (fun p => bool_decide (dp_key p = key)) ps) by (rewrite E; left).
  apply elem_of_filter_bool in Hp as [Hp Hk]. bool_hyps. subst. by apply list_elem_of_fmap_2.
Qed.

Lemma drop_network_new v p : network_of v ∉ network_of <$> dp_allowed p -> drop_network v p = p.
Proof.
  destruct p as [k psk e al n]. unfold drop_network. cbn. intros H. f_equal.
  induction al as [|w al IH]; [done|]. rewrite fmap_cons, not_elem_of_cons in H. destruct H as [Hw H].
  cbn. rewrite bool_decide_eq_false_2 by congruence. cbn. by rewrite IH.
Qed.

Lemma drop_network_others v ps : network_of v ∉ network_of <$> (ps ≫= dp_allowed) -> drop_network v <$> ps = ps.
Proof.
  induction ps as [|q ps IH]; [done|]. rewrite bind_cons, fmap_app, not_elem_of_app. intros [Hq Hs].
  rewrite fmap_cons. by rewrite drop_network_new, IH.
Qed.

Lemma claim_new v ck cp p ps :
  network_of v ∉ network_of <$> ((p :: ps) ≫= dp_allowed) ->
  claim v (MkDevConf ck cp (p :: ps)) = Some (MkDevConf ck cp ((p <| dp_allowed ::= fun l => l ++ [v] |>) :: ps)).
Proof.
  rewrite bind_cons, fmap_app, not_elem_of_app. intros [Hp Hs].
  change (Some (MkDevConf ck cp (((drop_network v p) <| dp_allowed ::= fun l => l ++ [v] |>) :: (drop_network v <$> ps)))
          = Some (MkDevConf ck cp ((p <| dp_allowed ::= fun l => l ++ [v] |>) :: ps))).
  by rewrite (drop_network_new v p Hp), (drop_network_others v ps Hs).
Qed.

Lemma run_allowed l : forall ck cp p ps,
  NoDup (network_of <$> ((p :: ps) ≫= dp_allowed) ++ l) ->
  uapi_run (MkDevConf ck cp (p :: ps)) (pair "allowed_ip" <$> l)
  = Some (MkDevConf ck cp ((p <| dp_allowed ::= fun a => a ++ l |>) :: ps)).
Proof.
  induction l as [|a l IH]; intros ck cp p ps Hn.
  { destruct p. cbn. by rewrite app_nil_r. }
  rewrite fmap_cons. cbn [uapi_run].
  assert (E : uapi_step (MkDevConf ck cp (p :: ps)) ("allowed_ip", a) = claim a (MkDevConf ck cp (p :: ps))) by done.
  rewrite E, claim_new.
  - cbn [mbind option_bind]. rewrite IH; [cbn; by rewrite <- app_assoc|].
    revert Hn. apply NoDup_Permutation_proper, fmap_Permutation. rewrite !bind_cons. cbn. solve_Permutation.
  - rewrite fmap_app, fmap_cons in Hn. apply NoDup_app in Hn as (_ & Hd & _). intros H. apply (Hd _ H). left.
Qed.

(** One setting, and then the rest. *)
Lemma uapi_run_step c c' kv l : uapi_step c kv = Some c' -> uapi_run c (kv :: l) = uapi_run c' l.
Proof. intros H. cbn [uapi_run]. by rewrite H. Qed.

Lemma step_public_key c k : Forall octet k -> k ∉ dp_key <$> dc_peers c ->
  uapi_step c ("public_key", hex_encode k) = Some (c <| dc_peers ::= cons (MkDevPeer k None None [] 0) |>).
Proof.
  intros H Hk. unfold uapi_step. cbn -[hex_decode select_peer]. rewrite hex_roundtrip by done. cbn [mbind option_bind].
  destruct c as [ck cp ps]. cbn in *. by rewrite select_new.
Qed.

Lemma step_psk ck cp p ps k : Forall octet k ->
  uapi_step (MkDevConf ck cp (p :: ps)) ("preshared_key", hex_encode k)
  = Some (MkDevConf ck cp (p <| dp_psk := Some k |> :: ps)).
Proof. intros H. unfold uapi_step. cbn -[hex_decode]. by rewrite hex_roundtrip. Qed.

Lemma step_keepalive ck cp p ps n : (0 < n < 2 ^ 63)%Z ->
  uapi_step (MkDevConf ck cp (p :: ps)) ("persistent_keepalive_interval", itoa n)
  = Some (MkDevConf ck cp (p <| dp_keepalive := n |> :: ps)).
Proof. intros H. unfold uapi_step. cbn -[atoi itoa]. by rewrite atoi_itoa. Qed.

Lemma run_peer c p : good_peer p -> distinct_peers (p :: dc_peers c) ->
  uapi_run c (peer_settings p) = Some (c <| dc_peers ::= cons p |>).
Proof.
  destruct c as [ck cp ps], p as [k psk e al n]. intros [Hk Hp He Ha Hn] [Hd1 Hd2].
  cbn in Hk, Hp, He, Ha, Hn, Hd1. apply NoDup_cons in Hd1 as [Hnew _]. rewrite bind_cons in Hd2. unfold peer_settings.
  cbn [dp_key dp_psk dp_endpoint dp_allowed dp_keepalive app].
  rewrite (uapi_run_step _ _ _ _ (step_public_key (MkDevConf ck cp ps) _ Hk Hnew)). cbn [update eta dc_key dc_port dc_peers].
  rewrite uapi_run_app.
  assert (E1 : uapi_run (MkDevConf ck cp (MkDevPeer k None None [] 0 :: ps))
                 (match psk with Some k => [("preshared_key", hex_encode k)] | None => [] end)
               = Some (MkDevConf ck cp (MkDevPeer k psk None [] 0 :: ps))).
  { destruct psk as [l|]; [|done]. by rewrite (uapi_run_step _ _ _ _ (step_psk _ _ _ _ _ (Hp l eq_refl))). }
  rewrite E1. cbn [mbind option_bind]. rewrite uapi_run_app.
  assert (E2 : uapi_run (MkDevConf ck cp (MkDevPeer k psk None [] 0 :: ps))
                 (match e with Some e => [("endpoint", e)] | None => [] end)
               = Some (MkDevConf ck cp (MkDevPeer k psk e [] 0 :: ps))).
  { by destruct e. }
  rewrite E2. cbn [mbind option_bind].
  rewrite (uapi_run_step _ (MkDevConf ck cp (MkDevPeer k psk e [] 0 :: ps))) by done.
  rewrite uapi_run_app, run_allowed by (rewrite bind_cons; cbn; by rewrite (Permutation_app_comm _ al)).
  cbn [mbind option_bind update eta dc_key dc_port dc_peers dp_key dp_psk dp_endpoint dp_allowed dp_keepalive app].
  destruct (Z.ltb_spec 0 n) as [Hpos|Hz].
  - assert (Hn' : (0 < n < 2 ^ 63)%Z) by lia. by rewrite (uapi_run_step _ _ _ _ (step_keepalive _ _ _ _ _ Hn')).
  - assert (n = 0%Z) as -> by lia. done.
Qed.

Lemma run_peers l : Forall good_peer l -> forall c, distinct_peers (dc_peers c ++ l) ->
  uapi_run c (concat (peer_settings <$> l)) = Some (c <| dc_peers ::= fun ps => rev l ++ ps |>).
Proof.
  induction 1 as [|p l Hp _ IH]; intros c Hd; [by destruct c|].
  rewrite <- Permutation_middle in Hd. cbn [fmap list_fmap concat]. rewrite uapi_run_app, run_peer; [|done|].
  - cbn [mbind option_bind]. rewrite IH by done. cbn. by rewrite <- app_assoc.
  - destruct Hd as [H1 H2]. rewrite app_comm_cons, fmap_app in H1. rewrite app_comm_cons, bind_app, fmap_app in H2.
    split; [by apply NoDup_app in H1 as [H1 _]|by apply NoDup_app in H2 as [H2 _]].
Qed.

(** Reading the settings of a configuration gives it back. *)
Lemma read_settings c : good_conf c -> distinct_peers (dc_peers c) -> uapi_read (settings_text (conf_settings c)) = Some c.
Proof.
  intros Hc Hd. unfold uapi_read. rewrite settings_of_text by by apply good_conf_settings.
  cbn [mbind option_bind]. destruct c as [k port ps], Hc as [Hk Hp Hs]. cbn in Hk, Hp, Hs, Hd.
  unfold conf_settings. cbn [dc_key dc_port dc_peers app].
  assert (E1 : uapi_step (MkDevConf [] None []) ("private_key", hex_encode k) = Some (MkDevConf k None [])).
  { unfold uapi_step. cbn -[hex_decode]. by rewrite hex_roundtrip. }
  rewrite (uapi_run_step _ _ _ _ E1), uapi_run_app.
  assert (E2 : uapi_run (MkDevConf k None []) (match port with Some n => [("listen_port", itoa n)] | None => [] end)
               = Some (MkDevConf k port [])).
  { destruct port as [n|]; [|done]. cbn [uapi_run]. unfold uapi_step. cbn -[atoi itoa].
    by rewrite atoi_itoa by (by apply Hp). }
  rewrite E2. cbn [mbind option_bind]. rewrite (uapi_run_step _ (MkDevConf k port [])) by done.
  rewrite run_peers by done. cbn. by rewrite app_nil_r, rev_involutive.
Qed.

(** *** The text is that of the configuration's settings *)

Lemma keyToHex_ok k h : keyToHex k = Ok h ->
  exists raw, b64_decode k = Some raw /\ h = hex_encode raw /\ Forall octet raw.
Proof.
  unfold keyToHex. destruct (b64_decode k) as [raw|] eqn:E; [|done]. destruct (_ =? _)%nat; [|done].
  intros [= <-]. exists raw. split_and!; [done..|by eapply key_octets].
Qed.

Lemma allowed_text l : join "" (setting_line "allowed_ip" <$> l) = settings_text (pair "allowed_ip" <$> l).
Proof.
  induction l as [|a l IH]; [done|]. rewrite !fmap_cons. cbn [settings_text]. rewrite <- IH.
  destruct l as [|b l]; [cbn; by rewrite string_app_nil_r|]. rewrite fmap_cons at 1. by rewrite join_cons.
Qed.

(** What ResolveUDPAddr writes is on one line. *)
Definition udp_one_line (udp : string -> option string) : Prop :=
  forall e a, udp e = Some a -> contains_byte newline a = false.

(** Fields that fit the protocol: no line break in a network, numbers in range. *)
Definition fits_peer (p : PeerConfig) : Prop :=
  Forall (fun a => contains_byte newline a = false) (AllowedIPs p) /\ (PersistentKeepalive p < 2 ^ 63)%Z.

Lemma peer_text_meaning udp i p t : udp_one_line udp -> fits_peer p -> peer_text udp i p = Ok t ->
  exists d, dev_peer udp p = Some d /\ t = settings_text (peer_settings d) /\ good_peer d.
Proof.
  intros Hu [Ha Hk] H. unfold peer_text in H.
  apply result_bind_ok in H as (pk & Hpk & H). apply map_err_ok, keyToHex_ok in Hpk as (raw & Er & -> & Ho).
  apply result_bind_ok in H as (psk & Hpsk & H). apply result_bind_ok in H as (ep & Hep & [= <-]).
  assert (Hpsk' : exists k, (if PresharedKey p =s "" then Some None else Some <$> b64_decode (PresharedKey p)) = Some k
            /\ psk = settings_text (match k with Some k => [("preshared_key", hex_encode k)] | None => [] end)
            /\ forall l, k = Some l -> Forall octet l).
  { destruct (PresharedKey p =s ""); [injection Hpsk as <-; by exists None|].
    apply result_bind_ok in Hpsk as (h & Hh & [= <-]). apply map_err_ok, keyToHex_ok in Hh as (l & El & -> & Hl).
    exists (Some l). rewrite El, settings_text_single. split_and!; [done..|]. by intros ? [= <-]. }
  assert (Hep' : exists e, (if Endpoint p =s "" then Some None else Some <$> udp (Endpoint p)) = Some e
            /\ ep = settings_text (match e with Some e => [("endpoint", e)] | None => [] end)
            /\ forall a, e = Some a -> contains_byte newline a = false).
  { destruct (Endpoint p =s ""); [injection Hep as <-; by exists None|].
    destruct (udp (Endpoint p)) as [a|] eqn:Ea; [|done]. injection Hep as <-.
    exists (Some a). rewrite settings_text_single. split_and!; [done..|]. intros ? [= <-]. by eapply Hu. }
  destruct Hpsk' as (k & Ek & -> & Hko), Hep' as (e & Ee & -> & Heo).
  exists (MkDevPeer raw k e (AllowedIPs p) (Z.max 0 (PersistentKeepalive p))). split_and!.
  - unfold dev_peer. rewrite Er, Ek, Ee. done.
  - unfold peer_settings. cbn [dp_key dp_psk dp_endpoint dp_allowed dp_keepalive].
    rewrite !settings_text_app, !settings_text_single, allowed_text.
    assert (En : (if (0 <? PersistentKeepalive p)%Z
                  then setting_line "persistent_keepalive_interval" (itoa (PersistentKeepalive p)) else "")
             = settings_text (if (0 <? Z.max 0 (PersistentKeepalive p))%Z
                 then [("persistent_keepalive_interval", itoa (Z.max 0 (PersistentKeepalive p)))] else [])).
    { destruct (Z.ltb_spec 0 (PersistentKeepalive p)) as [Hp|Hp].
      - rewrite Z.max_r by lia. rewrite (proj2 (Z.ltb_lt _ _) Hp). by rewrite settings_text_single.
      - rewrite Z.max_l by lia. done. }
    by rewrite En.
  - split; cbn; try done. lia.
Qed.

Lemma peers_text_meaning udp peers : udp_one_line udp -> Forall fits_peer peers ->
  forall i t, peers_text udp i peers = Ok t ->
  exists ds, mapM (dev_peer udp) peers = Some ds /\ t = settings_text (concat (peer_settings <$> ds))
             /\ Forall good_peer ds.
Proof.
  intros Hu. induction 1 as [|p peers Hp _ IH]; intros i t H; cbn [peers_text] in H.
  { injection H as <-. by exists []. }
  apply result_bind_ok in H as (a & Ha & H). apply result_bind_ok in H as (b & Hb & [= <-]).
  destruct (peer_text_meaning _ _ _ _ Hu Hp Ha) as (d & Ed & -> & Hd).
  destruct (IH _ _ Hb) as (ds & Eds & -> & Hds). exists (d :: ds).
  cbn [mapM]. rewrite Ed. cbn [mbind option_bind]. rewrite Eds. split_and!; [done| |by constructor].
  rewrite fmap_cons. cbn [concat]. by rewrite settings_text_app.
Qed.

(** No two peers with the same key, no network listed twice. *)
Definition distinct_config (peers : list PeerConfig) : Prop :=
  NoDup ((fun p => b64_decode (PublicKey p)) <$> peers) /\ NoDup (network_of <$> (peers ≫= AllowedIPs)).

Lemma dev_peers_distinct udp peers : forall ds, mapM (dev_peer udp) peers = Some ds -> distinct_config peers -> distinct_peers ds.
Proof.
  assert (H : forall ds, mapM (dev_peer udp) peers = Some ds ->
    Some <$> (dp_key <$> ds) = (fun p => b64_decode (PublicKey p)) <$> peers /\ ds ≫= dp_allowed = peers ≫= AllowedIPs).
  { induction peers as [|p peers IH]; intros ds H; cbn [mapM] in H.
    { injection H as <-. done. }
    apply bind_Some in H as (d & Hd & (ds' & Hs & [= <-])%bind_Some). destruct (IH _ Hs) as [E1 E2].
    unfold dev_peer in Hd. apply bind_Some in Hd as (k & Hk & (psk & _ & (ep & _ & [= <-])%bind_Some)%bind_Some).
    rewrite !fmap_cons, !bind_cons, E1, E2, Hk. done. }
  intros ds Hm [H1 H2]. destruct (H ds Hm) as [E1 E2]. rewrite <- E1 in H1. rewrite <- E2 in H2.
  split; [by apply NoDup_fmap_1 in H1|done].
Qed.

Lemma buildIpcConfig_meaning udp cfg text :
  udp_one_line udp -> distinct_config (Peers cfg) -> Forall fits_peer (Peers cfg) -> (ListenPort (Interface cfg) < 2 ^ 63)%Z ->
  buildIpcConfig udp cfg = Ok text ->
  exists c, dev_conf udp cfg = Some c /\ uapi_read text = Some c.
Proof.
  intros Hu Hd Hf Hl H. unfold buildIpcConfig in H.
  apply result_bind_ok in H as (pk & Hpk & H). apply map_err_ok, keyToHex_ok in Hpk as (raw & Er & -> & Ho).
  apply result_bind_ok in H as (ps & Hps & [= <-]).
  destruct (peers_text_meaning _ _ Hu Hf _ _ Hps) as (ds & Eds & -> & Hds).
  set (c := MkDevConf raw (if (0 <? ListenPort (Interface cfg))%Z then Some (ListenPort (Interface cfg)) else None) ds).
  exists c. split; [unfold dev_conf; rewrite Er; cbn [mbind option_bind]; rewrite Eds; reflexivity|].
  assert (Hc : good_conf c).
  { split; cbn; [done| |done]. intros n. destruct (Z.ltb_spec 0 (ListenPort (Interface cfg))); [|done].
    intros [= <-]. lia. }
  rewrite <- (read_settings c Hc (dev_peers_distinct _ _ _ Eds Hd)). f_equal. unfold conf_settings, c. cbn [dc_key dc_port dc_peers].
  by destruct (0 <? ListenPort (Interface cfg))%Z; rewrite !settings_text_app, !settings_text_single.
Qed.

(** *** A validated configuration *)

Lemma check_cidrs_lines f l : check_cidrs f l = [] -> Forall (fun a => contains_byte newline a = false) l.
Proof.
  unfold check_cidrs. destruct (length l =? 0)%nat eqn:El; [done|]. intros H. apply Forall_forall. intros x Hx.
  pose proof (concat_nil_inv (fun a => add_if (bool_decide (parse_cidr a = None)) f (InvalidCIDR a)) l H x Hx) as Ha.
  apply add_if_nil, bool_decide_eq_false in Ha. apply cidr_plain in Ha as [Ha _].
  by apply (string_forall_contains plain).
Qed.

Lemma Validate_fits cfg : IsValid (Validate cfg) = true ->
  Forall fits_peer (Peers cfg) /\ (ListenPort (Interface cfg) < 2 ^ 63)%Z.
Proof.
  intros H%IsValid_nil. unfold Validate in H. apply app_nil in H as [Hi H]. apply app_nil in H as [_ Hp]. split.
  - apply Forall_lookup. intros i p Hip. pose proof (concat_imap_nil _ _ Hp i p Hip) as H. unfold validatePeer in H.
    apply app_nil in H as [_ H]. apply app_nil in H as [_ H]. apply app_nil in H as [_ H].
    apply app_nil in H as [Ha H]. apply app_nil in H as [Hk _]. apply add_if_nil in Hk.
    split; [by eapply check_cidrs_lines|]. lia.
  - unfold validateInterface in Hi. do 4 apply app_nil in Hi as [_ Hi]. apply app_nil in Hi as [Hl _].
    apply add_if_nil in Hl. lia.
Qed.

(** *** Resolution *)

(** [p'] is [p] with an address of its endpoint's host in place of the host: an IPv4 one if there is
    any.  Every address is known to the bypass routes and the firewall. *)
Definition resolved_peer (lookup : string -> option (list string)) (ips eps : list string) (p p' : PeerConfig) : Prop :=
  p' = p <| Endpoint := Endpoint p' |>
  /\ (Endpoint p = "" /\ Endpoint p' = ""
      \/ exists host port addrs ip,
           split_host_port (Endpoint p) = Some (host, port) /\ lookup host = Some addrs /\ ip ∈ addrs
           /\ Endpoint p' = join_host_port ip port
           /\ (only_v6 ip = true -> forall a, a ∈ addrs -> only_v6 a = true)
           /\ forall a, a ∈ addrs -> a ∈ ips /\ join_host_port a port ∈ eps).

Lemma elem_of_orderIPsV4First a ips : a ∈ orderIPsV4First ips <-> a ∈ ips.
Proof. unfold orderIPsV4First. rewrite elem_of_app, !elem_of_filter_bool. destruct (only_v6 a); cbn; intuition congruence. Qed.

Lemma orderIPsV4First_head ips ip rest : orderIPsV4First ips = ip :: rest -> only_v6 ip = true ->
  forall a, a ∈ ips -> only_v6 a = true.
Proof.
  unfold orderIPsV4First. intros H Hip a Ha. destruct (only_v6 a) eqn:E; [done|].
  assert (Hf : a ∈ List.filter (fun s => negb (only_v6 s)) ips) by (apply elem_of_filter_bool; by rewrite E).
  destruct (List.filter (fun s => negb (only_v6 s)) ips) as [|x l] eqn:El; [by apply elem_of_nil in Hf|].
  cbn in H. injection H as -> _.
  assert (Hx : ip ∈ List.filter (fun s => negb (only_v6 s)) ips) by (rewrite El; left).
  apply elem_of_filter_bool in Hx as [_ Hx]. by rewrite Hip in Hx.
Qed.

Lemma resolve_peer_spec lookup i p p' ips eps : resolve_peer lookup i p = Ok (p', ips, eps) ->
  resolved_peer lookup ips eps p p'.
Proof.
  unfold resolve_peer. destruct (bool_decide_reflect (Endpoint p = "")) as [He|He].
  { intros [= <- <- <-]. split; [by destruct p|by left]. }
  destruct (split_host_port (Endpoint p)) as [[host port]|] eqn:Es; [|done].
  destruct (lookup host) as [addrs|] eqn:El; [|done].
  destruct (orderIPsV4First addrs) as [|ip rest] eqn:Eo; [done|]. intros [= <- <- <-].
  split; [done|]. right. exists host, port, addrs, ip.
  assert (Hin : forall a, a ∈ addrs <-> a ∈ ip :: rest) by (intros a; by rewrite <- Eo, elem_of_orderIPsV4First).
  split_and!; [done|done|apply Hin; left|done|by eapply orderIPsV4First_head|].
  intros a Ha%Hin. split; [done|]. change (join_host_port a port ∈ (fun ip => join_host_port ip port) <$> ip :: rest).
  apply list_elem_of_fmap. by exists a.
Qed.

Lemma resolved_peer_more lookup ips eps ips' eps' p p' : ips ⊆ ips' -> eps ⊆ eps' ->
  resolved_peer lookup ips eps p p' -> resolved_peer lookup ips' eps' p p'.
Proof.
  intros Hi He [Hp [H|(host & port & addrs & ip & H1 & H2 & H3 & H4 & H5 & H6)]]; (split; [done|]); [by left|].
  right. exists host, port, addrs, ip. split_and!; try done. intros a Ha. destruct (H6 a Ha). auto.
Qed.

Lemma resolve_peers_spec lookup peers : forall i peers' ips eps,
  resolve_peers lookup i peers = Ok (peers', ips, eps) -> Forall2 (resolved_peer lookup ips eps) peers peers'.
Proof.
  induction peers as [|p peers IH]; intros i peers' ips eps H; cbn [resolve_peers] in H.
  { injection H as <- <- <-. constructor. }
  apply result_bind_ok in H as ([[p' ips1] eps1] & H1 & H). apply result_bind_ok in H as ([[ps' ips2] eps2] & H2 & [= <- <- <-]).
  constructor.
  - eapply resolved_peer_more; [| |by eapply resolve_peer_spec]; apply list_subseteq_app_l; done.
  - eapply Forall2_impl; [by eapply IH|]. intros q q'. apply resolved_peer_more; apply list_subseteq_app_r; done.
Qed.

Lemma resolved_fits lookup ips eps peers peers' :
  Forall2 (resolved_peer lookup ips eps) peers peers' -> Forall fits_peer peers -> Forall fits_peer peers'.
Proof.
  induction 1 as [|p p' ps ps' [-> _] _ IH]; [done|]. intros [Hp Hps]%Forall_cons. constructor; [exact Hp|auto].
Qed.

Lemma resolved_distinct lookup ips eps peers peers' :
  Forall2 (resolved_peer lookup ips eps) peers peers' -> distinct_config peers -> distinct_config peers'.
Proof.
  intros H. assert (E : (fun p => b64_decode (PublicKey p)) <$> peers' = (fun p => b64_decode (PublicKey p)) <$> peers
                        /\ peers' ≫= AllowedIPs = peers ≫= AllowedIPs).
  { induction H as [|p p' ps ps' [-> _] _ [E1 E2]]; [done|]. by rewrite !fmap_cons, !bind_cons, E1, E2. }
  unfold distinct_config. by destruct E as [-> ->].
Qed.

(** ** Properties *)

(** C27: The device gets the configuration.  When NewEngine succeeds on a validated configuration whose peers have
    different keys and share no network, the text it sends to wireguard-go, read by the device's configuration
    protocol, is exactly the configuration's meaning (the validator also accepts a key or a network that occurs
    twice, and the protocol then gives it to one peer only, see [shared_network_moves]): the same keys byte for byte, the port, every peer with its networks and
    keepalive in order, nothing added by a line hidden in a value; each endpoint is an address its host
    resolved to, IPv4 if there is one, and every such address is handed to the bypass routes and the
    firewall. *)
Theorem uapi_roundtrip (h : Host) (id : nat) (cfg : WireGuardConfig) (e : Engine) (effs : list DevEffect) :
  IsValid (Validate cfg) = true -> distinct_config (Peers cfg) -> udp_one_line (ho_udp h) -> NewEngine h id cfg = (Ok e, effs) ->
  exists text peers c,
    DIpcSet text ∈ effs
    /\ Forall2 (resolved_peer (ho_lookup h) (eng_endpointIPs e) (eng_endpoints e)) (Peers cfg) peers
    /\ dev_conf (ho_udp h) (cfg <| Peers := peers |>) = Some c
    /\ uapi_read text = Some c.
Proof.
  intros Hv Hd Hu H. destruct (Validate_fits cfg Hv) as [Hf Hl]. unfold NewEngine in H.
  destruct (check_keys cfg); [done|].
  destruct (resolve_peers (ho_lookup h) 0 (Peers cfg)) as [[[peers ips] eps]|] eqn:Er; [|done]. cbn zeta in H.
  destruct (ho_create h (engine_mtu cfg)); [|done]. cbn [negb] in H. destruct (ho_name h) as [iface|]; [|done].
  unfold start_device in H. destruct (buildIpcConfig (ho_udp h) _) as [text|] eqn:Et; [|done].
  destruct (ho_ipcset h text); [|done]. destruct (ho_up h); [|done]. cbn in H. injection H as <- <-.
  apply resolve_peers_spec in Er.
  pose proof (resolved_fits _ _ _ _ _ Er Hf) as Hf'.
  destruct (buildIpcConfig_meaning _ _ _ Hu (resolved_distinct _ _ _ _ _ Er Hd : distinct_config (Peers (MkConfig (Name cfg) (Interface cfg) peers))) (Hf' : Forall fits_peer (Peers (MkConfig (Name cfg) (Interface cfg) peers))) Hl Et) as (c & Hc & Hr).
  exists text, peers, c. split_and!; try done. right. right. left.
Qed.

(** A network with one peer behind a dual-stack name. *)
Definition key32 (b : string) : string := b64_encode (b +:+ "0123456789abcdef0123456789abcde").

Definition office : WireGuardConfig :=
  MkConfig "office"
    (zero_interface <| PrivateKey := key32 "p" |> <| Address := ["10.0.0.2/32"] |> <| ListenPort := 51820%Z |>)
    [zero_peer <| PublicKey := key32 "q" |> <| Endpoint := "vpn.example.com:51820" |>
       <| AllowedIPs := ["10.0.0.0/24"; "fd00::/64"] |> <| PersistentKeepalive := 25%Z |>].

Definition one_line (e : string) : option string := if contains_byte newline e then None else Some e.

Definition office_host : Host :=
  MkHost_ (fun _ => Some ["2001:db8::1"; "203.0.113.5"]) one_line (fun _ => true) (Some "utun4") (fun _ => true) true.

Definition office_engine : Engine :=
  MkEngine 0 "utun4" ["203.0.113.5"; "2001:db8::1"] ["203.0.113.5:51820"; "[2001:db8::1]:51820"].

Lemma uapi_roundtrip_witness :
  exists text peers c,
    DIpcSet text ∈ snd (NewEngine office_host 0 office)
    /\ Forall2 (resolved_peer (ho_lookup office_host) (eng_endpointIPs office_engine) (eng_endpoints office_engine))
         (Peers office) peers
    /\ dev_conf one_line (office <| Peers := peers |>) = Some c
    /\ uapi_read text = Some c.
Proof.
  apply (uapi_roundtrip office_host 0 office office_engine).
  - vm_compute. reflexivity.
  - split; apply (bool_decide_unpack _); vm_compute; exact I.
  - intros e a. unfold office_host, one_line. cbn [ho_udp]. destruct (contains_byte newline e) eqn:E; congruence.
  - vm_compute. reflexivity.
Defined.

(** Two peers with one network, which the validator accepts: the device gives it to the second only. *)
Definition shared : WireGuardConfig :=
  office <| Peers ::= fun ps => ps ++ [zero_peer <| PublicKey := key32 "r" |> <| AllowedIPs := ["10.0.0.7/24"] |>] |>.

Example shared_network_moves :
  IsValid (Validate shared) = true
  /\ match buildIpcConfig one_line (shared <| Peers ::= fmap (fun p => p <| Endpoint := "" |>) |>) with
     | Ok text => ((fun c => dp_allowed <$> dc_peers c) <$> uapi_read text) = Some [["fd00::/64"]; ["10.0.0.7/24"]]
     | Err _ => False
     end.
Proof. split; vm_compute; reflexivity. Qed.

(** What is still open after these effects. *)
Definition left_open (h : Host) (effs : list DevEffect) : bool :=
  foldl (fun open eff => match eff with
                         | DCreateTUN mtu => ho_create h mtu
                         | DCloseTUN | DCloseDevice => false
                         | _ => open
                         end) false effs.

(** A refused NewEngine leaves nothing open, and touches nothing when it is a key or an address that
    is wrong; a successful one leaves its device open. *)
Lemma NewEngine_releases h id cfg :
  let '(r, effs) := NewEngine h id cfg in
  left_open h effs = is_ok r
  /\ (is_Some (check_keys cfg) \/ is_ok (resolve_peers (ho_lookup h) 0 (Peers cfg)) = false -> effs = []).
Proof.
  unfold NewEngine. destruct (check_keys cfg) as [err|]; [done|].
  destruct (resolve_peers (ho_lookup h) 0 (Peers cfg)) as [[[peers ips] eps]|]; [|done]. cbn zeta.
  assert (Hno : is_Some (@None EngineError) \/ is_ok (@Ok EngineError _ (peers, ips, eps)) = false -> False)
    by (intros [[? ?]|?]; done).
  destruct (ho_create h (engine_mtu cfg)) eqn:Ec; cbn [negb].
  2: { split; [unfold left_open; cbn; by rewrite Ec|]. by intros ?%Hno. }
  destruct (ho_name h) as [iface|]; [|split; [done|by intros ?%Hno]].
  destruct (start_device h _ _) as [r effs] eqn:Es. split; [|by intros ?%Hno].
  unfold start_device in Es. unfold left_open. cbn [foldl app]. rewrite Ec.
  destruct (buildIpcConfig _ _); [|by simplify_eq]. destruct (ho_ipcset h a); [|by simplify_eq/=].
  destruct (ho_up h); by simplify_eq/=.
Qed.

(** ** The death of a device *)

Record life_inv (l : Life) : Prop := {
  li_died : lf_died l = true -> lf_self l = true /\ lf_seen l = true;
  li_seen : lf_seen l = true -> lf_down l = true /\ (lf_died l = true \/ lf_closing l = true);
  li_stopped : lf_stopped l = true -> lf_seen l = true;
  li_once : lf_closing l = true -> lf_once l = true;
  li_down : lf_down l = true -> lf_self l = true \/ lf_closing l = true
}.

Lemma life_step_inv l l' : life_inv l -> life_step l l' -> life_inv l'.
Proof.
  intros [H1 H2 H3 H4 H5] Hs. destruct l as [o c d s n i t]. cbn in *.
  destruct Hs; unfold Close_begin, watch_died, watch_stopped in *; cbn in *; subst;
    try (destruct o); try (destruct c); split; cbn; intuition congruence.
Qed.

Abbreviation life_reachable := (rtc life_step born).

Lemma life_reachable_inv l : life_reachable l -> life_inv l.
Proof.
  enough (H : forall l l', rtc life_step l l' -> life_inv l -> life_inv l').
  { intros Hr. apply (H _ _ Hr). by split. }
  induction 1 as [|x y z Hs _ IH]; [done|]. intros Hi. by eapply IH, life_step_inv.
Qed.

Lemma seen_frozen l l' : life_step l l' -> lf_seen l = true -> lf_seen l' = true /\ lf_died l' = lf_died l.
Proof.
  intros Hs H. destruct Hs; cbn in *; try done; [|congruence].
  unfold Close_begin. by destruct (lf_once l).
Qed.

(** A death is told from a shutdown.  Died fires only for a device that closed itself, never for a
    normal shutdown; by the time Stopped fires it is decided for good, and it has fired unless Close was
    called: whatever the order of Close (any number of them), the device and the watcher, a device that
    dies on its own is reported. *)
Theorem engine_death_reported (l l' : Life) : life_reachable l -> rtc life_step l l' ->
  (lf_died l = true -> lf_self l = true)
  /\ (lf_stopped l = true -> lf_died l' = lf_died l /\ (lf_closing l = false -> lf_died l = true)).
Proof.
  intros Hr Hs. pose proof (life_reachable_inv l Hr) as Hi. split.
  { intros Hd. by destruct (li_died l Hi Hd). }
  intros Ht. pose proof (li_stopped l Hi Ht) as Hn. split.
  - assert (Hgo : lf_seen l' = true /\ lf_died l' = lf_died l); [|apply Hgo].
    clear Hr Hi Ht. induction Hs as [|a b c Hs _ IH]; [done|].
    destruct (seen_frozen _ _ Hs Hn) as [Hn' Hd]. destruct (IH Hn') as [? ->]. done.
  - intros Hc. destruct (li_seen l Hi Hn) as [_ [?|?]]; [done|congruence].
Qed.

Definition dead_device : Life :=
  watch_stopped (watch_died (born <| lf_down := true |> <| lf_self := true |>)).

Lemma engine_death_reported_witness :
  lf_died dead_device = true /\ lf_died (Close_begin dead_device) = true.
Proof.
  assert (Hr : life_reachable dead_device).
  { eapply rtc_l; [by apply ls_dies|]. eapply rtc_l; [by apply ls_died|]. apply rtc_once. by apply ls_stopped. }
  destruct (engine_death_reported dead_device (Close_begin dead_device) Hr) as [_ H].
  { apply rtc_once, ls_close. }
  destruct (H eq_refl) as [H1 H2]. split; [by apply H2|]. rewrite H1. by apply H2.
Defined.

(** ** The throttle *)

Fixpoint throttle (t : errorThrottle) (calls : list (Z * string)) : list (string * option Z) * errorThrottle :=
  match calls with
  | [] => ([], t)
  | (now, key) :: rest =>
      let '(ok, suppressed, t') := allow t now key in
      let '(log, t'') := throttle t' rest in
      ((key, if ok : bool then Some suppressed else None) :: log, t'')
  end.

(** The messages a log accounts for. *)
Definition told (key : string) (log : list (string * option Z)) : Z :=
  foldr (fun '(k, o) n => match o with Some s => if k =s key then 1 + s + n else n | None => n end)%Z 0%Z log.

Lemma allow_dropped t now k key :
  let '(ok, s, t') := allow t now k in
  (dropped t key + (if k =s key then 1 else 0)
   = dropped t' key + (if (ok : bool) && (k =s key) then 1 + s else 0))%Z.
Proof.
  assert (Hpass : forall m, (dropped t key + (if k =s key then 1 else 0)
     = dropped (MkThrottle m (<[k := 0%Z]> (th_dropped t))) key + (if k =s key then 1 + dropped t k else 0))%Z).
  { intros m. unfold dropped. cbn. destruct (bool_decide_reflect (k = key)) as [->|Hne].
    - rewrite lookup_insert_eq. cbn. lia.
    - rewrite lookup_insert_ne by done. lia. }
  unfold allow. destruct (th_lastSeen t !! k); [|apply Hpass]. destruct (_ <? _)%Z; [|apply Hpass].
  unfold dropped. cbn. destruct (bool_decide_reflect (k = key)) as [->|Hne].
  - rewrite lookup_insert_eq. cbn. lia.
  - rewrite lookup_insert_ne by done. lia.
Qed.

(** No message goes unaccounted for: every one is logged, folded into a later line, or still counted. *)
Lemma throttle_accounts calls : forall t key,
  let '(log, t') := throttle t calls in
  (dropped t key + Z.of_nat (length (List.filter (fun c => c.2 =s key) calls)) = told key log + dropped t' key)%Z.
Proof.
  induction calls as [|[now k] calls IH]; intros t key; cbn [throttle]; [cbn; lia|].
  pose proof (allow_dropped t now k key) as Ha. destruct (allow t now k) as [[ok s] t'].
  specialize (IH t' key). destruct (throttle t' calls) as [log t'']. cbn [List.filter snd told foldr].
  fold (told key log). destruct ok; cbn [andb] in Ha; destruct (k =s key); cbn [length] in *; lia.
Qed.
