(* ===== verification/IpcFraming.v ===== *)
(** * Message framing: internal/ipc/framing.go

    A message is its length in four bytes, most significant first, and its body.  A connection
    delivers the bytes written to it in pieces of any size, so the reader's state is the list of
    the pieces still to come; [frames_roundtrip] shows that their boundaries do not matter. *)

From S2P Require Import Prelude GoStrings GoText.

Definition maxFrameSize : Z := 1024 * 1024.

Definition byte_of (z : Z) : ascii := ascii_of_N (Z.to_N z).

(** binary.BigEndian.PutUint32 and Uint32 *)
Definition put_uint32 (n : Z) : string :=
  String (byte_of (Z.land 255 (Z.shiftr n 24)))
    (String (byte_of (Z.land 255 (Z.shiftr n 16)))
       (String (byte_of (Z.land 255 (Z.shiftr n 8))) (String (byte_of (Z.land 255 n)) ""))).

Definition get_uint32 (s : string) : Z :=
  match s with
  | String a (String b (String c (String d _))) =>
      Z.lor (byte_val d) (Z.lor (Z.shiftl (byte_val c) 8) (Z.lor (Z.shiftl (byte_val b) 16) (Z.shiftl (byte_val a) 24)))
  | _ => 0
  end.

Definition size (s : string) : Z := Z.of_nat (String.length s).

Inductive FrameError := TooLarge (n : Z) | EmptyFrame | ShortRead.

(** The one Write of writeRawFrame. *)
Definition writeRawFrame (data : string) : result FrameError string :=
  if (maxFrameSize <? size data)%Z then Err (TooLarge (size data)) else Ok (put_uint32 (size data) +:+ data).

(** io.ReadFull of [n] bytes from the pieces; [None] when the connection ends first. *)
Fixpoint read_full (n : nat) (pieces : list string) : option (string * list string) :=
  match pieces with
  | [] => if (n =? 0)%nat then Some ("", []) else None
  | p :: rest =>
      if (n <=? String.length p)%nat then Some (string_take n p, string_drop n p :: rest)
      else match read_full (n - String.length p) rest with
           | Some (s, rest') => Some (p +:+ s, rest')
           | None => None
           end
  end.

Definition ReadFrameRaw (pieces : list string) : result FrameError (string * list string) :=
  match read_full 4 pieces with
  | None => Err ShortRead
  | Some (header, rest) =>
      let length := get_uint32 header in
      if (maxFrameSize <? length)%Z then Err (TooLarge length)
      else if (length =? 0)%Z then Err EmptyFrame
      else match read_full (Z.to_nat length) rest with
           | None => Err ShortRead
           | Some r => Ok r
           end
  end.

(** ** Facts *)

(** The text of the pieces. *)
Definition flat (pieces : list string) : string := String.concat "" pieces.

Lemma flat_cons p ps : flat (p :: ps) = p +:+ flat ps.
Proof. destruct ps; cbn; by rewrite ?string_app_nil_r. Qed.

Lemma string_app_split (a b c d : string) :
  a +:+ b = c +:+ d -> String.length a = String.length c -> a = c /\ b = d.
Proof.
  revert c. induction a as [|x a IH]; intros [|y c] H Hl; cbn in Hl; try lia; [done|].
  rewrite !string_app_cons in H. injection H as -> H. destruct (IH c H) as [-> ->]; [lia|done].
Qed.

(** Whatever the pieces, ReadFull gives the first bytes and leaves the others. *)
Lemma read_full_spec pieces : forall u v,
  flat pieces = u +:+ v -> exists rest, read_full (String.length u) pieces = Some (u, rest) /\ flat rest = v.
Proof.
  induction pieces as [|p ps IH]; intros u v H.
  { destruct u; [|done]. exists []. by rewrite string_app_nil in H. }
  rewrite flat_cons in H. cbn [read_full]. destruct (Nat.leb_spec (String.length u) (String.length p)) as [Hl|Hl].
  - rewrite <- (string_take_drop (String.length u) p), string_app_assoc in H.
    destruct (string_app_split _ _ _ _ H) as [Hu Hv]; [by rewrite string_take_length|].
    exists (string_drop (String.length u) p :: ps). rewrite Hu, flat_cons. done.
  - rewrite <- (string_take_drop (String.length p) u), string_app_assoc in H.
    destruct (string_app_split _ _ _ _ H) as [Hp Hv]; [by rewrite string_take_length by lia|].
    destruct (IH _ _ Hv) as (rest & Hr & Hf). exists rest. split; [|done].
    assert (Hlen : String.length (string_drop (String.length p) u) = (String.length u - String.length p)%nat).
    { pose proof (string_length_app (string_take (String.length p) u) (string_drop (String.length p) u)) as E.
      rewrite string_take_drop, string_take_length in E by lia. lia. }
    rewrite <- Hlen, Hr. rewrite <- (string_take_drop (String.length p) u) at 2. by rewrite <- Hp.
Qed.

Lemma byte_val_of z : (0 <= z < 256)%Z -> byte_val (byte_of z) = z.
Proof.
  intros H. unfold byte_val, byte_of. rewrite N_ascii_embedding by lia. lia.
Qed.

Lemma land255 z : (0 <= z)%Z -> (0 <= Z.land 255 z < 256)%Z.
Proof. intros H. rewrite Z.land_comm. change 255%Z with (Z.ones 8). rewrite Z.land_ones by lia. apply Z.mod_pos_bound. lia. Qed.

Lemma lor_add a y k : (0 <= k)%Z -> (0 <= a < 2 ^ k)%Z -> Z.lor a (y * 2 ^ k) = (a + y * 2 ^ k)%Z.
Proof.
  intros Hk Ha. rewrite <- Z.shiftl_mul_pow2 by done.
  assert (Hd : Z.land a (Z.shiftl y k) = 0%Z).
  { apply Z.bits_inj'. intros i Hi. rewrite Z.land_spec, Z.bits_0. destruct (Z.ltb_spec i k) as [Hl|Hl].
    - rewrite (Z.shiftl_spec_low y k i) by done. apply andb_false_r.
    - assert (E : Z.testbit a i = false); [|by rewrite E].
      destruct (decide (a = 0)%Z) as [->|Hne]; [apply Z.bits_0|].
      apply Z.bits_above_log2; [lia|]. assert (Z.log2 a < k)%Z by (apply Z.log2_lt_pow2; lia). lia. }
  rewrite Z.add_nocarry_lxor by done. symmetry. by apply Z.lxor_lor.
Qed.

Lemma uint32_bytes a b c d :
  (0 <= a < 256)%Z -> (0 <= b < 256)%Z -> (0 <= c < 256)%Z -> (0 <= d < 256)%Z ->
  Z.lor d (Z.lor (Z.shiftl c 8) (Z.lor (Z.shiftl b 16) (Z.shiftl a 24)))
  = (d + c * 256 + b * 65536 + a * 16777216)%Z.
Proof.
  intros Ha Hb Hc Hd. rewrite !Z.shiftl_mul_pow2 by lia.
  rewrite (lor_add (b * 2 ^ 16) a 24) by lia.
  replace (b * 2 ^ 16 + a * 2 ^ 24)%Z with ((b + a * 256) * 2 ^ 16)%Z by lia. rewrite (lor_add (c * 2 ^ 8) _ 16) by lia.
  replace (c * 2 ^ 8 + (b + a * 256) * 2 ^ 16)%Z with ((c + (b + a * 256) * 256) * 2 ^ 8)%Z by lia.
  rewrite lor_add by lia. lia.
Qed.

Lemma land255_mod z : Z.land 255 z = (z mod 256)%Z.
Proof. rewrite Z.land_comm. change 255%Z with (Z.ones 8). by rewrite Z.land_ones by lia. Qed.

Lemma uint32_roundtrip n : (0 <= n < 2 ^ 32)%Z -> get_uint32 (put_uint32 n) = n.
Proof.
  intros H. unfold put_uint32, get_uint32. rewrite !land255_mod.
  rewrite !byte_val_of by (apply Z.mod_pos_bound; lia).
  rewrite uint32_bytes by (apply Z.mod_pos_bound; lia). rewrite !Z.shiftr_div_pow2 by lia.
  Z.to_euclidean_division_equations. lia.
Qed.

(** The frames of these messages one after the other. *)
Fixpoint frames (msgs : list string) : result FrameError string :=
  match msgs with
  | [] => Ok ""
  | m :: ms => let? f := writeRawFrame m in let? fs := frames ms in Ok (f +:+ fs)
  end.

Fixpoint read_frames (n : nat) (pieces : list string) : result FrameError (list string * list string) :=
  match n with
  | O => Ok ([], pieces)
  | S n => let? (m, rest) := ReadFrameRaw pieces in
           let? (ms, rest') := read_frames n rest in Ok (m :: ms, rest')
  end.

Lemma read_one m f pieces v : m <> "" -> writeRawFrame m = Ok f -> flat pieces = f +:+ v ->
  exists rest, ReadFrameRaw pieces = Ok (m, rest) /\ flat rest = v.
Proof.
  intros Hne Hw Hf. unfold writeRawFrame in Hw. destruct (Z.ltb_spec maxFrameSize (size m)) as [Hb|Hb]; [done|].
  injection Hw as <-. rewrite string_app_assoc in Hf. unfold ReadFrameRaw.
  destruct (read_full_spec pieces (put_uint32 (size m)) _ Hf) as (rest & Hr & Hfr).
  change (String.length (put_uint32 (size m))) with 4%nat in Hr. rewrite Hr.
  assert (Hs : (0 < size m)%Z) by (unfold size; destruct m; [done|cbn; lia]).
  rewrite uint32_roundtrip by (unfold maxFrameSize in Hb; lia).
  rewrite (proj2 (Z.ltb_ge _ _) Hb), (proj2 (Z.eqb_neq _ _)) by lia.
  destruct (read_full_spec rest m v Hfr) as (rest' & Hr' & Hf').
  exists rest'. unfold size. rewrite Nat2Z.id, Hr'. done.
Qed.

(** What is framed is read back.  Any sequence of messages written to a connection, however the
    connection cuts its bytes into pieces, is read back message by message, and what follows is left
    for the next read.  A message that could not be read back (longer than the reader allows) is
    refused by the writer; only the empty one, which no JSON value is, is accepted by the writer and
    refused by the reader. *)
Theorem frames_roundtrip (msgs : list string) (text tail : string) (pieces : list string) :
  Forall (fun m => m <> "") msgs -> frames msgs = Ok text -> flat pieces = text +:+ tail ->
  exists rest, read_frames (length msgs) pieces = Ok (msgs, rest) /\ flat rest = tail.
Proof.
  intros Hne. revert text pieces. induction Hne as [|m msgs Hm _ IH]; intros text pieces Hw Hf.
  { injection Hw as <-. rewrite string_app_nil in Hf. by exists pieces. }
  cbn [frames] in Hw. apply result_bind_ok in Hw as (f & Ef & Hw). apply result_bind_ok in Hw as (fs & Efs & [= <-]).
  rewrite string_app_assoc in Hf. destruct (read_one _ _ _ _ Hm Ef Hf) as (rest & Hr & Hrest).
  destruct (IH _ _ Efs Hrest) as (rest' & Hr' & Htail). exists rest'. split; [|done].
  cbn [length read_frames]. rewrite Hr. cbn [result_bind]. by rewrite Hr'.
Qed.

(** Two frames in five pieces. *)
Lemma frames_roundtrip_witness :
  exists rest, read_frames 2 ["" +:+ String nul (String nul ""); String nul (String "002" "{"); "}"; put_uint32 1; "7ab"]
               = Ok (["{}"; "7"], rest) /\ flat rest = "ab".
Proof.
  apply (frames_roundtrip ["{}"; "7"] (put_uint32 2 +:+ "{}" +:+ put_uint32 1 +:+ "7") "ab").
  - repeat constructor; discriminate.
  - vm_compute. reflexivity.
  - vm_compute. reflexivity.
Defined.

(** A frame is never read past the limit, so no more than it is allocated. *)
Lemma ReadFrameRaw_bound pieces m rest : ReadFrameRaw pieces = Ok (m, rest) -> (0 < size m <= maxFrameSize)%Z.
Proof.
  unfold ReadFrameRaw. destruct (read_full 4 pieces) as [[h r]|]; [|done].
  destruct (Z.ltb_spec maxFrameSize (get_uint32 h)) as [|Hb]; [done|].
  destruct (Z.eqb_spec (get_uint32 h) 0) as [|Hz]; [done|]. intros H.
  destruct (read_full (Z.to_nat (get_uint32 h)) r) as [[m' r']|] eqn:E; [|done]. injection H as <- <-.
  assert (Hl : forall ps n u r', read_full n ps = Some (u, r') -> String.length u = n).
  { clear. induction ps as [|p ps IH]; intros n u r' H; cbn [read_full] in H.
    - destruct (Nat.eqb_spec n 0) as [->|]; [|done]. by injection H as <- <-.
    - destruct (Nat.leb_spec n (String.length p)).
      + injection H as <- <-. by apply string_take_length.
      + destruct (read_full (n - String.length p) ps) as [[s r]|] eqn:E; [|done]. injection H as <- <-.
        rewrite string_length_app, (IH _ _ _ E). lia. }
  unfold size. rewrite (Hl _ _ _ _ E).
  assert (0 <= get_uint32 h)%Z.
  { unfold get_uint32. repeat (case_match; try lia). subst. pose proof byte_val_range.
    rewrite uint32_bytes by apply byte_val_range.
    pose proof (byte_val_range a). pose proof (byte_val_range a0). pose proof (byte_val_range a1). pose proof (byte_val_range a2). lia. }
  lia.
Qed.
