(* ===== verification/IpcServer.v ===== *)
(** * The helper's server: internal/ipc/server.go and protocol.go

    Each connection has a goroutine; what it does between two of its blocking operations (a read, a
    handler, a callback, a write) is one step, and the steps of the connections interleave.  The
    map of control connections is guarded by s.mu, the callbacks are called outside it.
    [gone_noticed] and [disconnect_overtaken] are about what the helper is told of its clients. *)

From S2P Require Import Prelude GoStrings.

(** ** protocol.go *)

Record Request := MkRequest { rq_ID : Z; rq_Method : string; rq_Params : string }.

Inductive RespBody := RResult (result : string) | RError (code : Z) (message : string).

Record Response := MkResponse { rs_ID : Z; rs_Body : RespBody }.

Definition ErrCodeMethodNotFound : Z := -32601.
Definition ErrCodeInternalError : Z := -32603.
Definition ErrCodeAppError : Z := -32000.

Definition MethodSubscribe : string := "Helper.Subscribe".

Definition NewErrorResponse (id code : Z) (message : string) : Response := MkResponse id (RError code message).

Definition IsNotification (r : Request) : bool := (rq_ID r =? 0)%Z.

(** What a handler returns: a result, encoded or not, or an error with its code if it has one. *)
Inductive Handled := HResult (encoded : string + string) | HError (code : option Z) (message : string).

Definition dispatch (handlers : gmap string (string -> Handled)) (req : Request) : Response :=
  match handlers !! rq_Method req with
  | None => NewErrorResponse (rq_ID req) ErrCodeMethodNotFound ("method not found: " +:+ rq_Method req)
  | Some handler =>
      match handler (rq_Params req) with
      | HError code message => NewErrorResponse (rq_ID req) (default ErrCodeAppError code) message
      | HResult (inl encoded) => MkResponse (rq_ID req) (RResult encoded)
      | HResult (inr marshalErr) => NewErrorResponse (rq_ID req) ErrCodeInternalError marshalErr
      end
  end.

(** ** State *)

(** Where a connection's goroutine is. *)
Inductive Pc :=
| pcAccepted                    (* before verifyPeerUID *)
| pcReading (isControl : bool)  (* in ReadFrame *)
| pcAttached                    (* recorded; onConnect is to be called *)
| pcDispatch                    (* in the handler, or writing its response *)
| pcStream (isControl : bool)   (* handleSubscribe took over *)
| pcLast                        (* the last control connection is gone; onDisconnect is to be called *)
| pcGone.

#[export] Instance pc_eq : EqDecision Pc.
Proof. solve_decision. Defined.

Record Conn := MkConn { cn_uid : option Z; cn_pc : Pc }.

#[export] Instance eta_conn : Eta Conn := fun r => MkConn (cn_uid r) (cn_pc r).

Inductive Callback := OnConnect | OnDisconnect.

#[export] Instance callback_eq : EqDecision Callback.
Proof. solve_decision. Defined.

Record Server := MkServer {
  ownerUID : Z;
  conns : list Conn;
  controlConns : gset nat;
  eventSubs : gset nat;
  called : list (nat * Callback);  (* the callbacks called and by whose goroutine, newest first *)
  served : list (nat * string)     (* methods dispatched or subscribed to, newest first *)
}.

#[export] Instance eta_server : Eta Server := fun r =>
  MkServer (ownerUID r) (conns r) (controlConns r) (eventSubs r) (called r) (served r).

Definition NewServer (uid : Z) : Server := MkServer uid [] ∅ ∅ [] [].

(** ** handleConn *)

(** [uid] is the peer's, [None] when it cannot be told. *)
Definition verifyPeerUID (uid : option Z) (expectedUID : Z) : bool :=
  if (expectedUID <? 0)%Z then true
  else match uid with
       | None => false
       | Some u => (u =? expectedUID mod 2 ^ 32)%Z
       end.

Definition set_pc (i : nat) (pc : Pc) (s : Server) : Server :=
  s <| conns ::= fun l => alter (fun c => c <| cn_pc := pc |>) i l |>.

Definition verify (i : nat) (uid : option Z) (s : Server) : Server :=
  set_pc i (if verifyPeerUID uid (ownerUID s) then pcReading false else pcGone) s.

(** A frame was read from connection [i]. *)
Definition on_request (i : nat) (isControl : bool) (method : string) (s : Server) : Server :=
  let s := s <| served ::= cons (i, method) |> in
  if method =s MethodSubscribe then (set_pc i (pcStream isControl) s) <| eventSubs ::= fun m => {[i]} ∪ m |>
  else if isControl then set_pc i pcDispatch s
  else (set_pc i pcAttached s) <| controlConns ::= fun m => {[i]} ∪ m |>.

(** The deferred function of handleConn: under the lock. *)
Definition leave (i : nat) (isControl : bool) (s : Server) : Server :=
  if isControl then
    let s := s <| controlConns ::= fun m => m ∖ {[i]} |> in
    if bool_decide (controlConns s = ∅) then set_pc i pcLast s else set_pc i pcGone s
  else set_pc i pcGone s.

Definition call (i : nat) (cb : Callback) (pc : Pc) (s : Server) : Server :=
  (set_pc i pc s) <| called ::= cons (i, cb) |>.

(** A connection is accepted; its goroutine runs to its end.  A read or write that fails, and a handler
    that panics, leave. *)
Inductive server_step (s : Server) : Server -> Prop :=
| ss_accept uid : server_step s (s <| conns ::= fun l => l ++ [MkConn uid pcAccepted] |>)
| ss_verify i uid : conns s !! i = Some (MkConn uid pcAccepted) -> server_step s (verify i uid s)
| ss_request i uid b method : conns s !! i = Some (MkConn uid (pcReading b)) -> server_step s (on_request i b method s)
| ss_read_fails i uid b : conns s !! i = Some (MkConn uid (pcReading b)) -> server_step s (leave i b s)
| ss_on_connect i uid : conns s !! i = Some (MkConn uid pcAttached) -> server_step s (call i OnConnect pcDispatch s)
| ss_answered i uid : conns s !! i = Some (MkConn uid pcDispatch) -> server_step s (set_pc i (pcReading true) s)
| ss_dispatch_fails i uid : conns s !! i = Some (MkConn uid pcDispatch) -> server_step s (leave i true s)
| ss_stream_ends i uid b : conns s !! i = Some (MkConn uid (pcStream b)) ->
    server_step s ((leave i b s) <| eventSubs ::= fun m => m ∖ {[i]} |>)
| ss_on_disconnect i uid : conns s !! i = Some (MkConn uid pcLast) -> server_step s (call i OnDisconnect pcGone s).

Abbreviation served_by uid := (rtc server_step (NewServer uid)).

(** ** Broadcast *)

(** A subscriber's channel, and what its goroutine has written. *)
Record subscriber := MkSub { sub_ch : list string; sub_written : list string }.

#[export] Instance eta_subscriber : Eta subscriber := fun r => MkSub (sub_ch r) (sub_written r).

Definition channel_size : nat := 32.

Definition send (data : string) (sub : subscriber) : subscriber :=
  if (length (sub_ch sub) <? channel_size)%nat then sub <| sub_ch ::= fun l => l ++ [data] |> else sub.

Definition pump (sub : subscriber) : subscriber :=
  match sub_ch sub with
  | [] => sub
  | data :: rest => MkSub rest (sub_written sub ++ [data])
  end.

Definition Broadcast (data : string) (subs : gmap nat subscriber) : gmap nat subscriber := send data <$> subs.
