(* ===== verification/IpcServerFacts.v ===== *)
(** * Who the helper serves, and what it is told of its clients *)

From S2P Require Import Prelude GoStrings IpcServer.

(** ** Invariant *)

(** Connections counted as control connections. *)
Definition counted (pc : Pc) : bool :=
  match pc with pcAttached | pcDispatch | pcReading true | pcStream true => true | _ => false end.

(** Past the check of the peer. *)
Definition admitted (pc : Pc) : bool := match pc with pcAccepted | pcGone => false | _ => true end.

Record server_inv (s : Server) : Prop := {
  si_control : forall i, i ∈ controlConns s <-> exists c, conns s !! i = Some c /\ counted (cn_pc c) = true;
  si_admitted : forall i c, conns s !! i = Some c -> admitted (cn_pc c) = true ->
    verifyPeerUID (cn_uid c) (ownerUID s) = true;
  si_served : forall i m, (i, m) ∈ served s -> exists c, conns s !! i = Some c /\ verifyPeerUID (cn_uid c) (ownerUID s) = true;
  si_gone : controlConns s = ∅ -> called s = [] \/ snd <$> head (called s) = Some OnDisconnect
              \/ exists i c, conns s !! i = Some c /\ cn_pc c = pcLast
}.

Lemma set_pc_lookup i pc s j : conns (set_pc i pc s) !! j
  = (if decide (i = j) then (fun c => c <| cn_pc := pc |>) <$> conns s !! j else conns s !! j).
Proof.
  unfold set_pc. cbn. destruct (decide (i = j)) as [->|Hne]; [apply list_lookup_alter_eq|by apply list_lookup_alter_ne].
Qed.

Section Move.
Context (s s' : Server) (i : nat) (uid : option Z) (pc pc' : Pc).
Hypothesis Hinv : server_inv s.
Hypothesis Hi : conns s !! i = Some (MkConn uid pc).
Hypothesis Howner : ownerUID s' = ownerUID s.
Hypothesis Hconns : conns s' = conns (set_pc i pc' s).

Lemma moved : conns s' !! i = Some (MkConn uid pc').
Proof. rewrite Hconns, set_pc_lookup, decide_True by done. by rewrite Hi. Qed.

Lemma others j : j <> i -> conns s' !! j = conns s !! j.
Proof. intros H. by rewrite Hconns, set_pc_lookup, decide_False by congruence. Qed.

(** Connection [i] moves: the invariant follows from what happens to the map and the callbacks. *)
Lemma move_inv :
  (admitted pc' = true -> verifyPeerUID uid (ownerUID s) = true) ->
  (forall j, j ∈ controlConns s' <-> (if decide (j = i) then counted pc' = true else j ∈ controlConns s)) ->
  (forall j m, (j, m) ∈ served s' -> (j, m) ∈ served s \/ (j = i /\ verifyPeerUID uid (ownerUID s) = true)) ->
  (controlConns s' = ∅ -> called s' = [] \/ snd <$> head (called s') = Some OnDisconnect \/ pc' = pcLast
     \/ exists j c, j <> i /\ conns s !! j = Some c /\ cn_pc c = pcLast) ->
  server_inv s'.
Proof.
  intros Hadm Hcc Hserved Hgone. pose proof moved as Hm. pose proof others as Ho.
  destruct Hinv as [H1 H2 H3 H4]. split.
  - intros j. rewrite (Hcc j). destruct (decide (j = i)) as [->|Hne].
    + rewrite Hm. split; [intros H; by eexists|]. by intros (c & [= <-] & ?).
    + by rewrite Ho, H1.
  - intros j c Hj Ha. rewrite Howner. destruct (decide (j = i)) as [->|Hne].
    + rewrite Hm in Hj. injection Hj as <-. by apply Hadm.
    + rewrite Ho in Hj by done. by apply (H2 j).
  - intros j m Hj. rewrite Howner. apply Hserved in Hj as [Hj|[-> Hv]].
    + destruct (H3 _ _ Hj) as (c & Hc & Hv). destruct (decide (j = i)) as [->|Hne].
      * rewrite Hi in Hc. injection Hc as <-. exists (MkConn uid pc'). by rewrite Hm.
      * exists c. by rewrite Ho.
    + exists (MkConn uid pc'). by rewrite Hm.
  - intros He. destruct (Hgone He) as [?|[?|[->|(j & c & Hne & Hj & Hc)]]]; [by left|by right; left|..].
    + right. right. exists i, (MkConn uid pcLast). by rewrite Hm.
    + right. right. exists j, c. by rewrite Ho.
Qed.
End Move.

Lemma leave_inv s i uid pc b : server_inv s -> conns s !! i = Some (MkConn uid pc) ->
  admitted pc = true -> counted pc = b -> pc <> pcLast -> server_inv (leave i b s).
Proof.
  intros Hinv Hi Ha Hc Hl. pose proof (si_admitted s Hinv i _ Hi Ha) as Hv. cbn in Hv.
  assert (Hothers : forall j c, conns s !! j = Some c -> cn_pc c = pcLast -> j <> i).
  { intros j c Hj Hp ->. rewrite Hi in Hj. injection Hj as <-. done. }
  assert (Hdiff : forall j, j ∈ controlConns s ∖ {[i]} <-> (if decide (j = i) then false = true else j ∈ controlConns s)).
  { intros j. rewrite elem_of_difference, elem_of_singleton. destruct (decide (j = i)); intuition done. }
  unfold leave. destruct b.
  - set (s1 := s <| controlConns ::= fun m => m ∖ {[i]} |>).
    destruct (bool_decide_reflect (controlConns s1 = ∅)) as [He|He].
    + apply (move_inv s _ i uid pc pcLast Hinv Hi); [done|done|by intros _|exact Hdiff|intros; by left|].
      intros _. right. right. by left.
    + apply (move_inv s _ i uid pc pcGone Hinv Hi); [done|done|done|exact Hdiff|intros; by left|].
      intros He'. by destruct He.
  - apply (move_inv s _ i uid pc pcGone Hinv Hi); [done|done|done| |intros; by left|].
    + intros j. change (controlConns (set_pc i pcGone s)) with (controlConns s).
      destruct (decide (j = i)) as [->|]; [|done]. cbn. split; [|done].
      intros (c & Hic & Hcc)%(si_control s Hinv). rewrite Hi in Hic. injection Hic as <-. cbn in Hcc. congruence.
    + intros He. destruct (si_gone s Hinv He) as [?|[?|(j & c & Hj & Hp)]]; [by left|by right; left|].
      right. right. right. exists j, c. split; [by eapply Hothers|done].
Qed.

Lemma same_control s i uid pc pc' : server_inv s -> conns s !! i = Some (MkConn uid pc) ->
  counted pc' = counted pc ->
  forall j, j ∈ controlConns s <-> (if decide (j = i) then counted pc' = true else j ∈ controlConns s).
Proof.
  intros Hinv Hi Hc j. destruct (decide (j = i)) as [->|]; [|done]. rewrite Hc, (si_control s Hinv). split.
  - intros (c & Hic & Hcc). rewrite Hi in Hic. by injection Hic as <-.
  - intros H. by exists (MkConn uid pc).
Qed.

Lemma same_gone s i uid pc (P : Prop) : server_inv s -> conns s !! i = Some (MkConn uid pc) -> pc <> pcLast ->
  controlConns s = ∅ -> called s = [] \/ snd <$> head (called s) = Some OnDisconnect \/ P
     \/ exists j c, j <> i /\ conns s !! j = Some c /\ cn_pc c = pcLast.
Proof.
  intros Hinv Hi Hl He. destruct (si_gone s Hinv He) as [?|[?|(j & c & Hj & Hp)]]; [by left|by right; left|].
  right. right. right. exists j, c. split; [|done]. intros ->. rewrite Hi in Hj. by injection Hj as <-.
Qed.

Lemma accept_inv s uid : server_inv s -> server_inv (s <| conns ::= fun l => l ++ [MkConn uid pcAccepted] |>).
Proof.
  intros [H1 H2 H3 H4].
  assert (Hold : forall j c, conns s !! j = Some c -> (conns s ++ [MkConn uid pcAccepted]) !! j = Some c)
    by (intros j c Hj; by apply lookup_app_l_Some).
  assert (Hnew : forall j c, (conns s ++ [MkConn uid pcAccepted]) !! j = Some c ->
            conns s !! j = Some c \/ c = MkConn uid pcAccepted).
  { intros j c [Hj|[_ Hj]]%lookup_app_Some; [by left|]. right. by apply list_lookup_singleton_Some in Hj as [_ <-]. }
  split; cbn.
  - intros j. rewrite H1. split; intros (c & Hj & Hc); [exists c; auto|].
    destruct (Hnew _ _ Hj) as [Hj'| ->]; [by exists c|discriminate Hc].
  - intros j c Hj Ha. destruct (Hnew _ _ Hj) as [Hj'| ->]; [by apply (H2 j)|discriminate Ha].
  - intros j m (c & Hj & Hv)%H3. exists c. auto.
  - intros He. destruct (H4 He) as [?|[?|(j & c & Hj & Hc)]]; [by left|by right; left|]. right. right. exists j, c. auto.
Qed.

Lemma server_step_inv s s' : server_inv s -> server_step s s' -> server_inv s'.
Proof.
  intros Hinv Hs. destruct Hs as [uid|i uid Hi|i uid b m Hi|i uid b Hi|i uid Hi|i uid Hi|i uid Hi|i uid b Hi|i uid Hi].
  - by apply accept_inv.
  - unfold verify. destruct (verifyPeerUID uid (ownerUID s)) eqn:Ev.
    + apply (move_inv s _ i uid pcAccepted (pcReading false) Hinv Hi); try done;
        [exact (same_control s i _ _ _ Hinv Hi eq_refl)|by left|exact (same_gone s i _ _ _ Hinv Hi ltac:(discriminate))].
    + apply (move_inv s _ i uid pcAccepted pcGone Hinv Hi); try done; [exact (same_control s i _ _ _ Hinv Hi eq_refl)|by left|exact (same_gone s i _ _ _ Hinv Hi ltac:(discriminate))].
  - pose proof (si_admitted s Hinv i _ Hi eq_refl) as Hv. cbn in Hv.
    assert (Hserved : forall j m', (j, m') ∈ (i, m) :: served s -> (j, m') ∈ served s \/ (j = i /\ verifyPeerUID uid (ownerUID s) = true)).
    { intros j m' [[= -> ->]|?]%elem_of_cons; auto. }
    unfold on_request. destruct (m =s MethodSubscribe); [|destruct b].
    + apply (move_inv s _ i uid (pcReading b) (pcStream b) Hinv Hi); try done;
        [apply (same_control s i _ _ _ Hinv Hi); by destruct b|exact (same_gone s i _ _ _ Hinv Hi ltac:(discriminate))].
    + apply (move_inv s _ i uid (pcReading true) pcDispatch Hinv Hi); try done;
        [exact (same_control s i _ _ _ Hinv Hi eq_refl)|exact (same_gone s i _ _ _ Hinv Hi ltac:(discriminate))].
    + apply (move_inv s _ i uid (pcReading false) pcAttached Hinv Hi); try done.
      * intros j. cbn. rewrite elem_of_union, elem_of_singleton. destruct (decide (j = i)); intuition done.
      * cbn. intros He. exfalso. assert (i ∈ (∅ : gset nat)) by (rewrite <- He; set_solver). set_solver.
  - by apply (leave_inv s i uid (pcReading b)); destruct b.
  - apply (move_inv s _ i uid pcAttached pcDispatch Hinv Hi); try done.
    + by apply (si_admitted s Hinv i _ Hi).
    + exact (same_control s i _ _ _ Hinv Hi eq_refl).
    + by left.
    + intros He. cbn in He. exfalso. assert (Hin : i ∈ controlConns s) by (apply (si_control s Hinv); by eexists).
      rewrite He in Hin. by apply elem_of_empty in Hin.
  - apply (move_inv s _ i uid pcDispatch (pcReading true) Hinv Hi); try done.
    + by apply (si_admitted s Hinv i _ Hi).
    + exact (same_control s i _ _ _ Hinv Hi eq_refl).
    + by left.
    + exact (same_gone s i _ _ _ Hinv Hi ltac:(discriminate)).
  - by apply (leave_inv s i uid pcDispatch).
  - assert (Hl : server_inv (leave i b s)) by (apply (leave_inv s i uid (pcStream b)); destruct b; done).
    destruct Hl. by split.
  - apply (move_inv s _ i uid pcLast pcGone Hinv Hi); try done.
    + exact (same_control s i _ _ _ Hinv Hi eq_refl).
    + by left.
    + intros _. right. by left.
Qed.

Lemma served_inv uid s : served_by uid s -> server_inv s.
Proof.
  enough (H : forall s s', rtc server_step s s' -> server_inv s -> server_inv s').
  { intros Hr. apply (H _ _ Hr). split; cbn; try done.
    - intros i. split; [intros Hi; by apply elem_of_empty in Hi|by intros (c & ? & _)].
    - intros i m Hi. by apply elem_of_nil in Hi.
    - intros _. by left. }
  induction 1 as [|x y z Hs _ IH]; [done|]. intros Hi. by eapply IH, server_step_inv.
Qed.

Lemma owner_stays s s' : server_step s s' -> ownerUID s' = ownerUID s.
Proof.
  destruct 1; try done; unfold on_request, leave; repeat case_match; done.
Qed.

Lemma served_owner uid s : served_by uid s -> ownerUID s = uid.
Proof.
  intros H. change uid with (ownerUID (NewServer uid)). induction H as [|x y z Hs _ IH]; [done|].
  by rewrite IH, (owner_stays _ _ Hs).
Qed.

(** *** Verified connections *)

Definition verified (s : Server) (i : nat) : Prop :=
  exists c, conns s !! i = Some c /\ verifyPeerUID (cn_uid c) (ownerUID s) = true.

Lemma set_pc_verified i pc s j : verified s j -> verified (set_pc i pc s) j.
Proof.
  intros (c & Hc & Hv). unfold verified. rewrite set_pc_lookup. destruct (decide (i = j)); [|by exists c].
  rewrite Hc. by exists (c <| cn_pc := pc |>).
Qed.

Lemma step_verified s s' j : server_step s s' -> verified s j -> verified s' j.
Proof.
  intros H Hv. destruct H as [uid|i uid Hi|i uid b m Hi|i uid b Hi|i uid Hi|i uid Hi|i uid Hi|i uid b Hi|i uid Hi].
  - destruct Hv as (c & Hc & Hv). exists c. split; [by apply lookup_app_l_Some|done].
  - by apply set_pc_verified.
  - unfold on_request. repeat case_match; by apply (set_pc_verified i _ s).
  - unfold leave. repeat case_match; by apply (set_pc_verified i _ s).
  - by apply (set_pc_verified i _ s).
  - by apply set_pc_verified.
  - unfold leave. repeat case_match; by apply (set_pc_verified i _ s).
  - unfold leave. repeat case_match; by apply (set_pc_verified i _ s).
  - by apply (set_pc_verified i _ s).
Qed.

(** Whoever causes a callback or subscribes to events has been verified. *)
Definition heard (s : Server) (i : nat) : Prop := i ∈ (called s).*1 \/ i ∈ eventSubs s.

Lemma step_heard s s' j : server_inv s -> server_step s s' -> heard s' j -> heard s j \/ verified s j.
Proof.
  intros Hinv H. assert (Ha : forall i c, conns s !! i = Some c -> admitted (cn_pc c) = true -> verified s i).
  { intros i c Hi Hc. exists c. split; [done|]. by apply (si_admitted s Hinv i). }
  unfold heard. destruct H as [uid|i uid Hi|i uid b m Hi|i uid b Hi|i uid Hi|i uid Hi|i uid Hi|i uid b Hi|i uid Hi]; cbn; try tauto.
  - unfold on_request. case_match; [|case_match; cbn; tauto]. cbn. rewrite elem_of_union, elem_of_singleton.
    intros [?|[->|?]]; [tauto| |tauto]. right. by eapply Ha.
  - unfold leave. repeat case_match; cbn; tauto.
  - rewrite elem_of_cons. intros [[->|?]|?]; [right; by eapply Ha|tauto..].
  - unfold leave. repeat case_match; cbn; tauto.
  - assert (E : called (leave i b s) = called s /\ eventSubs (leave i b s) = eventSubs s) by (unfold leave; repeat case_match; done).
    destruct E as [-> ->]. rewrite elem_of_difference. tauto.
  - rewrite elem_of_cons. intros [[->|?]|?]; [right; by eapply Ha|tauto..].
Qed.

Lemma heard_verified uid s : served_by uid s -> forall i, heard s i -> verified s i.
Proof.
  intros H. refine (rtc_ind_r (fun s => forall i, heard s i -> verified s i) (NewServer uid) _ _ s H).
  - intros i [Hi|Hi]; [by apply elem_of_nil in Hi|by apply elem_of_empty in Hi].
  - intros y z Hy Hz IH i Hi. apply (step_verified y z i Hz).
    destruct (step_heard y z i (served_inv uid y Hy) Hz Hi); auto.
Qed.

(** ** Properties *)

(** C28: Only the owner is served: in every interleaving, a connection on which any method was dispatched or
    subscribed, for which a callback of the helper was called, or to which events are sent, belongs to a process of
    the user the server was started for; and a connection counts as a client from its first request to its end. *)
Theorem only_owner_served (uid : Z) (s : Server) :
  (0 <= uid < 2 ^ 32)%Z -> served_by uid s ->
  (forall i, (exists m, (i, m) ∈ served s) \/ (exists cb, (i, cb) ∈ called s) \/ i ∈ eventSubs s ->
     exists c, conns s !! i = Some c /\ cn_uid c = Some uid)
  /\ (forall i, i ∈ controlConns s <-> exists c, conns s !! i = Some c /\ counted (cn_pc c) = true).
Proof.
  intros Hu Hr. pose proof (served_inv uid s Hr) as Hinv. split; [|apply si_control, Hinv].
  intros i Hi. assert (Hv : verified s i).
  { destruct Hi as [[m Hi]|[[cb Hi]|Hi]]; [by eapply si_served|..]; apply (heard_verified uid s Hr); [left|by right].
    by apply (list_elem_of_fmap_2 fst) in Hi. }
  destruct Hv as (c & Hc & Hv). exists c. split; [done|].
  rewrite (served_owner uid s Hr) in Hv. unfold verifyPeerUID in Hv.
  destruct (Z.ltb_spec uid 0); [lia|]. destruct (cn_uid c) as [u|]; [|done].
  apply Z.eqb_eq in Hv. rewrite Z.mod_small in Hv by done. by subst.
Qed.

(** A departure does not go unnoticed: in every interleaving, when no client is left and no
    callback is outstanding, the last the helper heard, if anything, is that its last client is gone,
    so the grace period of an idle helper always starts. *)
Theorem gone_noticed (uid : Z) (s : Server) :
  served_by uid s -> controlConns s = ∅ -> (forall i c, conns s !! i = Some c -> cn_pc c <> pcLast) ->
  called s = [] \/ snd <$> head (called s) = Some OnDisconnect.
Proof.
  intros Hr He Hn. destruct (si_gone s (served_inv uid s Hr) He) as [?|[?|(i & c & Hi & Hc)]]; [by left|by right|].
  by destruct (Hn i c Hi).
Qed.

(** *** A departure and an arrival at the same time *)

Definition two_clients : Server :=
  let owner := MkConn (Some 501%Z) pcAccepted in
  let s := (NewServer 501) <| conns := [owner; owner] |> in
  let s := on_request 0 false "Helper.Ping" (verify 0 (Some 501%Z) s) in
  let s := set_pc 0 (pcReading true) (call 0 OnConnect pcDispatch s) in
  let s := leave 0 true (verify 1 (Some 501%Z) s) in
  let s := call 1 OnConnect pcDispatch (on_request 1 false "Helper.Ping" s) in
  call 0 OnDisconnect pcGone s.

Lemma two_clients_served : served_by 501 two_clients.
Proof.
  eapply rtc_l; [apply (ss_accept _ (Some 501%Z))|]. eapply rtc_l; [apply (ss_accept _ (Some 501%Z))|].
  eapply rtc_l; [by apply (ss_verify _ 0)|]. eapply rtc_l; [by apply (ss_request _ 0 (Some 501%Z) false "Helper.Ping")|].
  eapply rtc_l; [by apply (ss_on_connect _ 0 (Some 501%Z))|]. eapply rtc_l; [by apply (ss_answered _ 0 (Some 501%Z))|].
  eapply rtc_l; [by apply (ss_verify _ 1)|]. eapply rtc_l; [by apply (ss_read_fails _ 0 (Some 501%Z) true)|].
  eapply rtc_l; [by apply (ss_request _ 1 (Some 501%Z) false "Helper.Ping")|].
  eapply rtc_l; [by apply (ss_on_connect _ 1 (Some 501%Z))|].
  eapply rtc_l; [by apply (ss_on_disconnect _ 0 (Some 501%Z))|]. apply rtc_refl.
Qed.

Lemma only_owner_served_witness :
  exists c, conns two_clients !! 1%nat = Some c /\ cn_uid c = Some 501%Z.
Proof.
  apply (proj1 (only_owner_served 501 two_clients ltac:(lia) two_clients_served) 1%nat).
  right. left. exists OnConnect. vm_compute. right. left.
Defined.

(** Both clients leave. *)
Definition both_left : Server := call 1 OnDisconnect pcGone (leave 1 true two_clients).

Lemma both_left_served : served_by 501 both_left.
Proof.
  transitivity two_clients; [exact two_clients_served|].
  eapply rtc_l; [by apply (ss_dispatch_fails _ 1 (Some 501%Z))|].
  apply rtc_once. by apply (ss_on_disconnect _ 1 (Some 501%Z)).
Qed.

Lemma gone_noticed_witness : called both_left = [] \/ snd <$> head (called both_left) = Some OnDisconnect.
Proof.
  apply (gone_noticed 501 both_left both_left_served); [vm_compute; reflexivity|].
  intros [|[|i]] c H; vm_compute in H; simplify_eq; done.
Defined.

(** ** Broadcast *)

(** What a subscriber was sent and got. *)
Inductive sub_run : list string -> subscriber -> Prop :=
| sr_start : sub_run [] (MkSub [] [])
| sr_send sent sub data : sub_run sent sub -> sub_run (sent ++ [data]) (send data sub)
| sr_pump sent sub : sub_run sent sub -> sub_run sent (pump sub).

(** Events reach a subscriber in order and once; only a slow subscriber misses some, and its queue
    never holds more than the channel. *)
Lemma events_in_order sent sub : sub_run sent sub ->
  sub_written sub ++ sub_ch sub `sublist_of` sent /\ (length (sub_ch sub) <= channel_size)%nat.
Proof.
  induction 1 as [|sent sub data _ [IH Hl]|sent sub _ [IH Hl]]; [by split; [|cbn; lia]|..].
  - unfold send. destruct (Nat.ltb_spec (length (sub_ch sub)) channel_size) as [Hlt|Hge]; cbn.
    + split; [|rewrite length_app; cbn; lia]. rewrite app_assoc. by apply sublist_app.
    + split; [|done]. by apply sublist_inserts_r.
  - unfold pump. destruct (sub_ch sub) as [|data rest] eqn:E; [by rewrite E|]. cbn in *. split; [|lia].
    by rewrite <- app_assoc.
Qed.
