(* ===== verification/IpcHelper.v ===== *)
(** * The helper behind its server: what the callbacks of internal/ipc/server.go do to helper.go

    server.OnConnect is cancelShutdownTimer and server.OnDisconnect is startShutdownTimer
    (helper.go:237-238) unless the helper runs as a LaunchDaemon; the callbacks the server calls are run
    on the helper in the order called. *)

From S2P Require Import Prelude GoStrings Domain TunnelManager HelperFirewall HelperOps HelperOpsFacts IpcServer IpcServerFacts.

Section Hears.
Context (env : Env).

Definition hears (cb : Callback) : M unit :=
  match cb with
  | OnConnect => modify cancelShutdownTimer
  | OnDisconnect => startShutdownTimer env
  end.

Fixpoint hears_all (cbs : list Callback) : M unit :=
  match cbs with
  | [] => ret tt
  | cb :: cbs' => hears cb >> hears_all cbs'
  end.

(** The helper after the callbacks of [s], oldest first. *)
Definition helper_of (s : Server) : Helper := fst (snd (hears_all (rev (called s).*2) (new_helper, []))).
End Hears.

(** An arrival can be overtaken by the departure before it: handleConn decides under the lock that
    the last client is gone but calls onDisconnect after releasing it, so a client that connects in
    between has its onConnect called first.  The helper then takes a connected client for gone: the
    timer it arms is current when it fires, and the helper shuts down under that client. *)
Theorem disconnect_overtaken :
  exists s t,
    served_by 501 s /\ controlConns s <> ∅
    /\ (forall i c, conns s !! i = Some c -> cn_pc c <> pcLast /\ cn_pc c <> pcAttached)
    /\ shutdownTimer (helper_of quiet_env s) = Some t
    /\ fst (timer_fires t (helper_of quiet_env s) (MkView NewManager None)) = true.
Proof.
  exists two_clients, 0%nat. split; [exact two_clients_served|]. split; [vm_compute; discriminate|]. split.
  - intros [|[|i]] c H; vm_compute in H; simplify_eq; done.
  - vm_compute. done.
Qed.
