(* ===== verification/IpcClient.v ===== *)
(** * The GUI's client: internal/ipc/client.go and holder.go

    The callers of CallWithContext, the reader goroutine and Close interleave: one step is one critical
    section, one frame written or read, or one of a caller's three ways out of its select.  A channel
    of capacity one is an option that is also closed or not. *)

From S2P Require Import Prelude GoStrings IpcServer.

(** ** State *)

Inductive CallError := ErrClientClosed | ErrWrite | ErrContext | ErrRemote (code : Z) (message : string).

(** Where a call is: its request is to be written; it waits in the select; it returned (its deferred
    function has taken it out of the map). *)
Inductive CallPc := cpWriting | cpWaiting | cpReturned (r : result CallError string).

Record CallState := MkCall { cl_id : Z; cl_pc : CallPc }.

(** A response channel. *)
Record Chan := MkChan { ch_value : option Response; ch_closed : bool }.

Record Client := MkClient {
  nextID : Z;
  calls : list CallState;
  pending : gmap Z nat;            (* the call waiting under an id *)
  chans : gmap nat Chan;           (* the channel of a call *)
  wire : list (Z * nat);           (* requests written: id and call, oldest first *)
  closed : bool;
  reading : bool                   (* readLoop runs *)
}.

#[export] Instance eta_call : Eta CallState := fun r => MkCall (cl_id r) (cl_pc r).
#[export] Instance eta_client : Eta Client := fun r =>
  MkClient (nextID r) (calls r) (pending r) (chans r) (wire r) (closed r) (reading r).

Definition new_client : Client := MkClient 0 [] ∅ ∅ [] false true.

(** ** CallWithContext *)

(** atomic.AddUint64 *)
Definition next_id (c : Client) : Z := ((nextID c + 1) mod 2 ^ 64)%Z.

(** Up to the registration under pendingMu: the id, the channel, the registration; or the call returns
    at once.  Only the order of the ids and that of the registrations could differ if another goroutine
    ran in between, and a Close in between is a Close right after. *)
Definition call_start (c : Client) : Client :=
  let k := length (calls c) in
  if closed c then c <| calls ::= fun l => l ++ [MkCall 0 (cpReturned (Err ErrClientClosed))] |>
  else
    let id := next_id c in
    c <| nextID := id |> <| calls ::= fun l => l ++ [MkCall id cpWriting] |>
      <| pending ::= fun m => <[id := k]> m |> <| chans ::= fun m => <[k := MkChan None false]> m |>.

Definition set_call (k : nat) (pc : CallPc) (c : Client) : Client :=
  c <| calls ::= fun l => alter (fun s => s <| cl_pc := pc |>) k l |>.

(** The deferred [delete(c.pending, id)] and the return. *)
Definition call_return (k : nat) (id : Z) (r : result CallError string) (c : Client) : Client :=
  (set_call k (cpReturned r) c) <| pending ::= fun m => delete id m |>.

Definition call_write (k : nat) (id : Z) (c : Client) : Client :=
  (set_call k cpWaiting c) <| wire ::= fun l => l ++ [(id, k)] |>.

(** What a call makes of the response it received. *)
Definition result_of (r : Response) : result CallError string :=
  match rs_Body r with
  | RResult s => Ok s
  | RError code msg => Err (ErrRemote code msg)
  end.

(** ** readLoop *)

Definition deliver (resp : Response) (c : Client) : Client :=
  match pending c !! rs_ID resp with
  | None => c
  | Some k =>
      c <| chans ::= fun m => alter (fun ch => match ch_value ch with
                                               | None => MkChan (Some resp) (ch_closed ch)
                                               | Some _ => ch
                                               end) k m |>
  end.

(** Its deferred function: every pending channel is closed, then the client. *)
Definition reader_exits (c : Client) : Client :=
  c <| chans ::= fun m => map_imap (fun k ch => Some (if existsb (fun '(_, j) => (j =? k)%nat) (map_to_list (pending c))
                                                      then MkChan (ch_value ch) true else ch)) m |>
    <| pending := ∅ |> <| reading := false |>.

Definition Close (c : Client) : Client := c <| closed := true |>.

(** ** Steps

    [answers id k resp] is what the server can answer to the request [id] of call [k]. *)

Section Steps.
Variable answers : nat -> RespBody -> Prop.

Inductive client_step (c : Client) : Client -> Prop :=
| cs_start : client_step c (call_start c)
| cs_write k id : calls c !! k = Some (MkCall id cpWriting) -> client_step c (call_write k id c)
| cs_write_fails k id : calls c !! k = Some (MkCall id cpWriting) -> client_step c (call_return k id (Err ErrWrite) c)
| cs_timeout k id : calls c !! k = Some (MkCall id cpWaiting) -> client_step c (call_return k id (Err ErrContext) c)
| cs_closed k id : calls c !! k = Some (MkCall id cpWaiting) -> closed c = true ->
    client_step c (call_return k id (Err ErrClientClosed) c)
| cs_received k id resp b : calls c !! k = Some (MkCall id cpWaiting) -> chans c !! k = Some (MkChan (Some resp) b) ->
    client_step c (call_return k id (result_of resp) c)
| cs_chan_closed k id : calls c !! k = Some (MkCall id cpWaiting) -> chans c !! k = Some (MkChan None true) ->
    client_step c (call_return k id (Err ErrClientClosed) c)
| cs_response id k body : reading c = true -> (id, k) ∈ wire c -> answers k body ->
    client_step c (deliver (MkResponse id body) c)
| cs_reader_exits : reading c = true -> client_step c (reader_exits c)
| cs_close : client_step c (Close c).

Abbreviation client_reachable := (rtc client_step new_client).

(** ** Invariant *)

(** The id of the [k]-th call made: ids are given in order. *)
Record client_inv (c : Client) : Prop := {
  ci_next : (0 <= nextID c <= Z.of_nat (length (calls c)))%Z;
  ci_wire : forall id k, (id, k) ∈ wire c -> exists s, calls c !! k = Some s /\ cl_id s = id /\ (0 < id <= nextID c)%Z;
  ci_pending : forall id k, pending c !! id = Some k -> exists s, calls c !! k = Some s /\ cl_id s = id;
  ci_ids : forall k s, calls c !! k = Some s -> (0 <= cl_id s <= nextID c)%Z;
  ci_active : forall k s, calls c !! k = Some s -> cl_pc s = cpWriting \/ cl_pc s = cpWaiting -> (0 < cl_id s)%Z;
  ci_unique : forall k k' s s', calls c !! k = Some s -> calls c !! k' = Some s' ->
    (0 < cl_id s)%Z -> cl_id s = cl_id s' -> k = k';
  ci_chans : forall k ch resp, chans c !! k = Some ch -> ch_value ch = Some resp -> answers k (rs_Body resp);
  ci_range : forall k ch, chans c !! k = Some ch -> (k < length (calls c))%nat;
  ci_done : forall k id r, calls c !! k = Some (MkCall id (cpReturned r)) ->
    match r with
    | Ok body => answers k (RResult body)
    | Err (ErrRemote code msg) => answers k (RError code msg)
    | Err _ => True
    end
}.

Lemma set_call_lookup k pc c j : calls (set_call k pc c) !! j
  = (if decide (k = j) then (fun s => s <| cl_pc := pc |>) <$> calls c !! j else calls c !! j).
Proof.
  unfold set_call. cbn. destruct (decide (k = j)) as [->|Hne]; [apply list_lookup_alter_eq|by apply list_lookup_alter_ne].
Qed.

Definition good_result (k : nat) (r : result CallError string) : Prop :=
  match r with
  | Ok body => answers k (RResult body)
  | Err (ErrRemote code msg) => answers k (RError code msg)
  | Err _ => True
  end.

(** A call changes its place only. *)
Lemma set_call_inv k id pc pc' c : client_inv c -> calls c !! k = Some (MkCall id pc) -> pc = cpWriting \/ pc = cpWaiting ->
  (forall r, pc' = cpReturned r -> good_result k r) -> client_inv (set_call k pc' c).
Proof.
  intros [H1 H2 H3 H4 Hact H5 H6 H7 H8] Hk Hpc Hr.
  assert (Hl : forall j s, calls (set_call k pc' c) !! j = Some s ->
            exists s', calls c !! j = Some s' /\ cl_id s = cl_id s' /\ (j = k -> cl_pc s = pc')).
  { intros j s. rewrite set_call_lookup. destruct (decide (k = j)) as [<-|Hne]; [|by exists s].
    rewrite Hk. intros [= <-]. by eexists. }
  assert (Hb : forall j s, calls c !! j = Some s -> exists s', calls (set_call k pc' c) !! j = Some s' /\ cl_id s' = cl_id s).
  { intros j s Hj. rewrite set_call_lookup. destruct (decide (k = j)) as [<-|]; [|by exists s]. rewrite Hj. by eexists. }
  assert (Hlen : length (calls (set_call k pc' c)) = length (calls c)) by apply length_alter.
  split; rewrite ?Hlen; try done.
  - intros i j (s & Hj & Hid & Hle)%H2. destruct (Hb _ _ Hj) as (s' & Hs' & E). exists s'. by rewrite E.
  - intros i j (s & Hj & Hid)%H3. destruct (Hb _ _ Hj) as (s' & Hs' & E). exists s'. by rewrite E.
  - intros j s (s' & Hj & -> & _)%Hl. by apply (H4 j).
  - intros j s Hj Ha. rewrite set_call_lookup in Hj. destruct (decide (k = j)) as [<-|]; [|by apply (Hact j)].
    rewrite Hk in Hj. injection Hj as <-. by apply (Hact k (MkCall id pc)).
  - intros j j' s s' (t & Ht & -> & _)%Hl (t' & Ht' & -> & _)%Hl. by apply H5.
  - intros j i r Hj. destruct (decide (j = k)) as [->|Hne].
    + destruct (Hl _ _ Hj) as (_ & _ & _ & E). specialize (E eq_refl). cbn in E. by apply (Hr r).
    + rewrite set_call_lookup, decide_False in Hj by congruence. by apply (H8 j i r).
Qed.

Lemma call_return_inv k id pc r c : client_inv c -> calls c !! k = Some (MkCall id pc) ->
  pc = cpWriting \/ pc = cpWaiting -> good_result k r ->
  client_inv (call_return k id r c).
Proof.
  intros Hi Hk Hpc Hr. assert (Hs : client_inv (set_call k (cpReturned r) c)).
  { eapply set_call_inv; [done|done|done|]. by intros r' [= <-]. }
  destruct Hs as [H1 H2 H3 H4 Hact H5 H6 H7 H8]. split; try done.
  intros i j Hij. cbn in Hij. apply lookup_delete_Some in Hij as [_ Hij]. by apply (H3 i j).
Qed.

Lemma call_start_inv c : client_inv c -> (Z.of_nat (length (calls (call_start c))) < 2 ^ 64)%Z -> client_inv (call_start c).
Proof.
  intros [H1 H2 H3 H4 Hact H5 H6 H7 H8] Hb. unfold call_start in *.
  assert (Hnew : forall x j s, (calls c ++ [x]) !! j = Some s -> calls c !! j = Some s \/ j = length (calls c) /\ s = x).
  { intros x j s [Hj|[Hge Hj]]%lookup_app_Some; [by left|]. apply list_lookup_singleton_Some in Hj as [E <-]. right. split; [lia|done]. }
  assert (Hold : forall x j s, calls c !! j = Some s -> (calls c ++ [x]) !! j = Some s)
    by (intros x j s Hj; by apply lookup_app_l_Some).
  destruct (closed c).
  - split; cbn in *; rewrite ?length_app; cbn; try lia.
    + intros i j (s & Hj & Hid)%H2. exists s. auto.
    + intros i j (s & Hj & Hid)%H3. exists s. auto.
    + intros j s [Hj|[_ ->]]%Hnew; [by apply (H4 j)|cbn; lia].
    + intros j s [Hj|[_ ->]]%Hnew Ha; [by apply (Hact j)|]. by destruct Ha.
    + intros j j' s s' [Hj|[-> ->]]%Hnew [Hj'|[-> ->]]%Hnew Hp E; cbn in *; try lia. by apply (H5 _ _ s s').
    + done.
    + intros j ch Hj%H7. lia.
    + intros j i r [Hj|[_ [= -> ->]]]%Hnew; [by apply (H8 j i)|done].
  - cbn in Hb. rewrite length_app in Hb. cbn in Hb.
    assert (Hid : next_id c = (nextID c + 1)%Z) by (unfold next_id; apply Z.mod_small; lia).
    split; cbn; rewrite ?length_app, ?Hid; cbn; try lia.
    + intros i j (s & Hj & E & Hle)%H2. exists s. split; [by apply Hold|]. split; [done|lia].
    + intros i j Hij. destruct (decide (i = nextID c + 1)%Z) as [->|Hne].
      * rewrite lookup_insert_eq in Hij. injection Hij as <-. exists (MkCall (nextID c + 1) cpWriting).
        split; [|done]. by rewrite list_lookup_middle.
      * rewrite lookup_insert_ne in Hij by done. apply H3 in Hij as (s & Hj & E). exists s. auto.
    + intros j s [Hj|[_ ->]]%Hnew; [|cbn; lia]. specialize (H4 _ _ Hj). lia.
    + intros j s [Hj|[_ ->]]%Hnew Ha; [by apply (Hact j)|cbn; lia].
    + intros j j' s s' [Hj|[-> ->]]%Hnew [Hj'|[-> ->]]%Hnew Hp E; cbn in *.
      * by apply (H5 _ _ s s').
      * specialize (H4 _ _ Hj). lia.
      * specialize (H4 _ _ Hj'). lia.
      * done.
    + intros j ch resp Hj Hv. destruct (decide (j = length (calls c))) as [->|Hne].
      * rewrite lookup_insert_eq in Hj. by injection Hj as <-.
      * rewrite lookup_insert_ne in Hj by done. by apply (H6 j ch).
    + intros j ch Hj. destruct (decide (j = length (calls c))) as [->|Hne]; [lia|].
      rewrite lookup_insert_ne in Hj by done. apply H7 in Hj. lia.
    + intros j i r [Hj|[_ [= -> ]]]%Hnew. by apply (H8 j i).
Qed.

Lemma deliver_inv c id k body : client_inv c -> (id, k) ∈ wire c -> answers k body ->
  client_inv (deliver (MkResponse id body) c).
Proof.
  intros Hi Hw Ha. unfold deliver. cbn [rs_ID]. destruct (pending c !! id) as [k'|] eqn:Hp; [|done].
  destruct Hi as [H1 H2 H3 H4 Hact H5 H6 H7 H8].
  assert (k' = k) as ->.
  { destruct (H2 _ _ Hw) as (s & Hs & E & Hpos). destruct (H3 _ _ Hp) as (s' & Hs' & E').
    apply (H5 k' k s' s); [done|done|lia|congruence]. }
  split; try done.
  - intros j ch resp Hj Hv. cbn in Hj. destruct (decide (j = k)) as [->|Hne].
    + rewrite lookup_alter_eq in Hj. destruct (chans c !! k) as [ch0|] eqn:Ec; [|done]. cbn in Hj.
      destruct (ch_value ch0) as [v|] eqn:Ev; simplify_eq; [by apply (H6 k ch)|]. cbn in Hv. by injection Hv as <-.
    + rewrite lookup_alter_ne in Hj by done. by apply (H6 j ch).
  - intros j ch Hj. cbn in Hj |- *. destruct (decide (j = k)) as [->|Hne].
    + rewrite lookup_alter_eq in Hj. destruct (chans c !! k) as [ch0|] eqn:Ec; [|done]. by eapply H7.
    + rewrite lookup_alter_ne in Hj by done. by eapply H7.
Qed.

Lemma reader_exits_inv c : client_inv c -> client_inv (reader_exits c).
Proof.
  intros [H1 H2 H3 H4 Hact H5 H6 H7 H8].
  assert (Hl : forall k ch, chans (reader_exits c) !! k = Some ch -> exists ch0, chans c !! k = Some ch0 /\ ch_value ch = ch_value ch0).
  { intros k ch Hk. cbn in Hk. rewrite map_lookup_imap in Hk. destruct (chans c !! k) as [ch0|]; [|done].
    cbn in Hk. injection Hk as <-. exists ch0. split; [done|]. by destruct (existsb _ _). }
  split; try done.
  - intros k ch resp (ch0 & Hk & E)%Hl Hv. rewrite E in Hv. by apply (H6 k ch0).
  - intros k ch (ch0 & Hk & _)%Hl. by eapply H7.
Qed.

Lemma call_write_inv k id c : client_inv c -> calls c !! k = Some (MkCall id cpWriting) -> client_inv (call_write k id c).
Proof.
  intros Hi Hk. pose proof (ci_active c Hi k _ Hk (or_introl eq_refl)) as Hpos. pose proof (ci_ids c Hi k _ Hk) as Hid.
  assert (Hs : client_inv (set_call k cpWaiting c)) by (apply (set_call_inv k id cpWriting); [done|done|by left|intros; discriminate]).
  destruct Hs as [H1 H2 H3 H4 Hact H5 H6 H7 H8]. split; try done.
  intros i j [Hij|[= -> ->]%list_elem_of_singleton]%elem_of_app; [by apply (H2 i j)|].
  exists (MkCall id cpWaiting). split; [|cbn in *; split; [done|lia]]. change (calls (set_call k cpWaiting c) !! k = Some (MkCall id cpWaiting)).
  by rewrite set_call_lookup, decide_True, Hk.
Qed.

Lemma client_step_inv c c' : client_inv c -> client_step c c' -> (Z.of_nat (length (calls c')) < 2 ^ 64)%Z -> client_inv c'.
Proof.
  intros Hi Hs Hb.
  destruct Hs as [|k id Hk|k id Hk|k id Hk|k id Hk _|k id resp b Hk Hc|k id Hk _|id k body _ Hw Ha|_|].
  - by apply call_start_inv.
  - by apply call_write_inv.
  - by eapply call_return_inv; [..|left|].
  - by eapply call_return_inv; [..|right|].
  - by eapply call_return_inv; [..|right|].
  - eapply call_return_inv; [done|done|by right|]. pose proof (ci_chans c Hi k _ resp Hc eq_refl) as Hr.
    unfold result_of. by destruct (rs_Body resp).
  - by eapply call_return_inv; [..|right|].
  - by eapply deliver_inv.
  - by apply reader_exits_inv.
  - destruct Hi. by split.
Qed.

(** Calls are only added. *)
Lemma calls_grow c c' : client_step c c' -> (length (calls c) <= length (calls c'))%nat.
Proof.
  destruct 1; unfold call_start, call_return, call_write, set_call, deliver, reader_exits, Close; repeat case_match;
    cbn; rewrite ?length_app, ?length_alter; cbn; lia.
Qed.

Lemma client_reachable_inv c : client_reachable c -> (Z.of_nat (length (calls c)) < 2 ^ 64)%Z -> client_inv c.
Proof.
  revert c. apply (rtc_ind_r (fun c => (Z.of_nat (length (calls c)) < 2 ^ 64)%Z -> client_inv c) new_client).
  - intros _. split; cbn; try done; intros; set_solver.
  - intros c c' _ Hs IH Hb. pose proof (calls_grow _ _ Hs). eapply client_step_inv; [apply IH; lia|done|done].
Qed.

(** C29: answers do not cross.  In every interleaving of callers, timeouts, the reader, Close and
    failures, a call that returns a result or a remote error returns what the server answered to that
    call's own request; responses that come late, to a call that gave up, go nowhere.  (For fewer than
    2^64 calls on one connection: ids are unsigned 64-bit.) *)
Theorem answers_matched (c : Client) (k : nat) (id : Z) (r : result CallError string) :
  client_reachable c -> (Z.of_nat (length (calls c)) < 2 ^ 64)%Z ->
  calls c !! k = Some (MkCall id (cpReturned r)) ->
  match r with
  | Ok body => answers k (RResult body)
  | Err (ErrRemote code msg) => answers k (RError code msg)
  | Err _ => True
  end.
Proof. intros Hr Hb Hk. by apply (ci_done c (client_reachable_inv c Hr Hb) k id r). Qed.
End Steps.

(** Two calls answered in the other order. *)
Definition echo (k : nat) (b : RespBody) : Prop := b = RResult (if (k =? 0)%nat then "first" else "second").

Definition crossed : Client :=
  let c := call_write 1 2 (call_write 0 1 (call_start (call_start new_client))) in
  let c := deliver (MkResponse 1 (RResult "first")) (deliver (MkResponse 2 (RResult "second")) c) in
  call_return 0 1 (Ok "first") c.

Lemma crossed_reachable : rtc (client_step echo) new_client crossed.
Proof.
  eapply rtc_l; [apply cs_start|]. eapply rtc_l; [apply cs_start|].
  eapply rtc_l; [by apply (cs_write _ _ 0 1)|]. eapply rtc_l; [by apply (cs_write _ _ 1 2)|].
  eapply rtc_l; [apply (cs_response _ _ 2 1 (RResult "second")); [done|right; left|done]|].
  eapply rtc_l; [apply (cs_response _ _ 1 0 (RResult "first")); [done|left|done]|].
  apply rtc_once. by apply (cs_received _ _ 0 1 (MkResponse 1 (RResult "first")) false).
Qed.

Lemma answers_matched_witness : echo 0 (RResult "first").
Proof.
  exact (answers_matched echo crossed 0 1 (Ok "first") crossed_reachable ltac:(vm_compute; reflexivity) eq_refl).
Defined.

(** ** NewClient *)

Definition ProtocolVersion : string := "1".

Inductive DialError := DialFailed | PingFailed (e : CallError) | VersionMismatch (helper : string).

(** [c]: the client by the time the first ping returned, [ping]: the protocol version answered.  With the client that
    was made, if one was. *)
Definition NewClient (dialled : bool) (c : Client) (ping : result CallError string) : result DialError Client * option Client :=
  if negb dialled then (Err DialFailed, None)
  else match ping with
       | Err e => (Err (PingFailed e), Some (Close c))
       | Ok v => if v =s ProtocolVersion then (Ok c, Some c) else (Err (VersionMismatch v), Some (Close c))
       end.

(** A client is handed out only to a helper that speaks this protocol; otherwise what was opened is closed. *)
Lemma NewClient_spec dialled c ping :
  match NewClient dialled c ping with
  | (Ok c', _) => c' = c /\ ping = Ok ProtocolVersion
  | (Err e, made) => match made with Some c' => closed c' = true /\ ping <> Ok ProtocolVersion | None => e = DialFailed end
  end.
Proof.
  unfold NewClient. destruct dialled; [|done]. destruct ping as [v|e]; cbn; [|done]. by case_bool_decide as Hv; [subst v|split; [|congruence]].
Qed.

(** ** holder.go *)

(** [Some k] is the client of number [k]; the second component is the clients closed. *)
Definition holder_Set (k : nat) (h : option nat * list nat) : option nat * list nat :=
  let '(prev, cl) := h in
  (Some k, match prev with Some p => if (p =? k)%nat then cl else cl ++ [p] | None => cl end).

Definition holder_Close (h : option nat * list nat) : option nat * list nat :=
  let '(prev, cl) := h in (None, match prev with Some p => cl ++ [p] | None => cl end).
