(* ===== verification/Update.v ===== *)
(** * Updates: internal/update/checker.go

    Looking up the latest release, choosing its asset, downloading and verifying it.  The network,
    URL parsing, SHA-256 and Ed25519 are arguments, and so are the downloaded bytes, of which only the
    size, LimitReader's prefix and the hash matter.  [update_authentic] is what an installed update
    guarantees. *)

From S2P Require Import Prelude GoStrings GoText Domain ConfigRoundtrip ValidatorFacts.

(** ** Versions *)

Definition parse_parts (v : string) : option (list Z) := mapM atoi (split_byte "." v).

Fixpoint newer_parts (lp cp : list Z) : bool :=
  match lp, cp with
  | l :: lp', c :: cp' => if (c <? l)%Z then true else if (l <? c)%Z then false else newer_parts lp' cp'
  | _ :: _, [] => true
  | [], _ => false
  end.

Definition isNewerVersion (latest current : string) : bool :=
  match parse_parts latest, parse_parts current with
  | Some lp, Some cp => newer_parts lp cp
  | _, _ => false
  end.

(** ** Releases *)

Record Asset := MkAsset { as_Name : string; as_URL : string; as_Size : Z }.

Record Release := MkRelease { rl_TagName : string; rl_Assets : list Asset }.

Record UpdateInfo := MkInfo {
  Available : bool; Version : string; CurrentVer : string; DownloadURL : string; AssetName : string;
  AssetSize : Z; ChecksumURL : string; ExpectedHash : string; SignatureURL : string }.

Definition no_update (cur : string) : UpdateInfo := MkInfo false "" cur "" "" 0 "" "" "".

(** runtime.GOARCH *)
Definition wanted_asset (arch : string) (a : Asset) : bool :=
  let name := to_lower (as_Name a) in
  has_suffix ".zip" name
  && existsb (fun osn => existsb (fun an => contains osn name && contains an name) [arch; "universal"])
       ["darwin"; "macos"; "osx"].

Definition matchAsset (arch : string) (assets : list Asset) : string :=
  match List.find (wanted_asset arch) assets with Some a => as_Name a | None => "" end.

Definition minAssetSize : Z := 1048576.
Definition maxSignatureSize : Z := 1024.

(** The asset, checksum and signature of the scan: the last of each kind. *)
Record Found := MkFound { fd_url : string; fd_size : Z; fd_checksum : string; fd_signature : string }.

Inductive CheckError := NoTrustedURL | SizeZero | SizeSmall (n : Z).

Inductive UpdateError :=
| NoDownloadURL | UntrustedURL (url : string) | UntrustedSignatureURL (url : string) | RequestFailed
| BadStatus (code : Z) | LengthMismatch (cl : Z) | CopyFailed | FileSmall (n : Z) | SizeMismatch (n : Z)
| ChecksumMismatch | BadEmbeddedKey | NoSignature | SignatureFetch | SignatureSize (n : nat)
| SignatureInvalid | QuarantineFailed.

Section Trust.
(** url.Parse: the scheme and the host name without the port. *)
Variable url_parse : string -> option (string * string).

Definition isTrustedAssetURL (rawURL : string) : bool :=
  match url_parse rawURL with
  | None => false
  | Some (scheme, hostname) =>
      if negb (scheme =s "https") then false
      else
        let host := to_lower hostname in
        (host =s "github.com") || has_suffix ".github.com" host || has_suffix ".githubusercontent.com" host
  end.

Definition scan_asset (assetName : string) (f : Found) (a : Asset) : Found :=
  if negb (isTrustedAssetURL (as_URL a)) then f
  else
    let lower := to_lower (as_Name a) in
    let '(MkFound url size checksum signature) := f in
    let '(url, size) := if as_Name a =s assetName then (as_URL a, as_Size a) else (url, size) in
    MkFound url size
      (if contains "sha256" lower || contains "checksum" lower then as_URL a else checksum)
      (if lower =s to_lower (assetName +:+ ".sig") then as_URL a else signature).

(** CheckForUpdate after the release was read; [expected] is fetchExpectedHash. *)
Definition check_release (arch cur : string) (expected : string -> string -> string) (release : Release)
    : result CheckError UpdateInfo :=
  let latestVer := trim_prefix "v" (rl_TagName release) in
  if negb (isNewerVersion latestVer cur) then Ok (no_update cur)
  else
    let assetName := matchAsset arch (rl_Assets release) in
    if assetName =s "" then Ok (no_update cur)
    else
      let f := foldl (scan_asset assetName) (MkFound "" 0 "" "") (rl_Assets release) in
      if fd_url f =s "" then Err NoTrustedURL
      else if (fd_size f <=? 0)%Z then Err SizeZero
      else if (fd_size f <? minAssetSize)%Z then Err (SizeSmall (fd_size f))
      else Ok (MkInfo true latestVer cur (fd_url f) assetName (fd_size f) (fd_checksum f)
                 (if fd_checksum f =s "" then "" else expected (fd_checksum f) assetName) (fd_signature f)).
End Trust.

(** The line of the checksum file that names the asset; strings.EqualFold of a name without the letter
    U+017F. *)
Definition fetchExpectedHash (body : option string) (assetName : string) : string :=
  match body with
  | None => ""
  | Some b =>
      match List.find (fun line => match fields line with
                                   | [_; name] => to_lower name =s to_lower assetName
                                   | _ => false
                                   end) (split_byte newline b) with
      | Some line => hd "" (fields line)
      | None => ""
      end
  end.

(** ** Downloading *)

(** A server's answer to a GET: the redirects on the way, the status, the Content-Length, the body, and
    whether it could be read to its end. *)
Record Answer (B : Type) := MkAnswer {
  an_redirects : list string; an_status : Z; an_length : Z; an_body : B; an_complete : bool }.
Arguments MkAnswer {B}.
Arguments an_redirects {B}.
Arguments an_status {B}.
Arguments an_length {B}.
Arguments an_body {B}.
Arguments an_complete {B}.

Section Download.
Context {Bytes : Type}.
Context (size : Bytes -> Z) (limit : Z -> Bytes -> Bytes) (sha256_hex : Bytes -> string).
Context (url_parse : string -> option (string * string)).
(** The embedded key, decoded; Ed25519's verification. *)
Context (publicKey : option string) (ed25519_Verify : string -> string -> string -> bool).

(** CheckRedirect on the [k]-th redirect: [len(via)] is [k]. *)
Definition redirect_allowed (k : nat) (url : string) : bool :=
  (k <? 10)%nat && isTrustedAssetURL url_parse url.

(** client.Get: [None] when the connection or a redirect fails. *)
Definition client_Get {B} (answer : option (Answer B)) : option (Answer B) :=
  match answer with
  | Some a => if forallb (fun '(k, u) => redirect_allowed k u) (imap (fun i u => (S i, u)) (an_redirects a))
              then Some a else None
  | None => None
  end.

Definition signedMessage (version assetHashHex : string) : string := version +:+ String newline "" +:+ assetHashHex.

Definition fetchSignature (answer : option (Answer string)) : option string :=
  match client_Get answer with
  | None => None
  | Some a =>
      if negb (an_status a =? 200)%Z then None
      else if negb (an_complete a) then None
      else Some (string_take (Z.to_nat maxSignatureSize) (an_body a))
  end.

(** requireSignature is true. *)
Definition verifySignature (assetHashHex : string) (info : UpdateInfo) (get : string -> option (Answer string))
    : option UpdateError :=
  match publicKey with
  | None => Some BadEmbeddedKey
  | Some pub =>
      if SignatureURL info =s "" then Some NoSignature
      else match fetchSignature (get (SignatureURL info)) with
           | None => Some SignatureFetch
           | Some sig =>
               if negb (String.length sig =? 64)%nat then Some (SignatureSize (String.length sig))
               else if ed25519_Verify pub (signedMessage (Version info) assetHashHex) sig then None
                    else Some SignatureInvalid
           end
  end.

(** Effects on the downloaded file. *)
Inductive FileEffect := FCreate | FRemove | FQuarantine.

Definition maxSize (info : UpdateInfo) : Z :=
  Z.max (wrap64 (AssetSize info + Z.quot (AssetSize info) 10)) (100 * 1024 * 1024).

(** The checks of the file once it is written. *)
Definition check_download (info : UpdateInfo) (content : Bytes) (get_sig : string -> option (Answer string))
    : option UpdateError :=
  let written := size content in
  if (written <? minAssetSize)%Z then Some (FileSmall written)
  else if (0 <? AssetSize info)%Z && negb (written =? AssetSize info)%Z then Some (SizeMismatch written)
  else if negb (ExpectedHash info =s "") && negb (equal_fold (ExpectedHash info) (sha256_hex content))
       then Some ChecksumMismatch
  else verifySignature (sha256_hex content) info get_sig.

Definition DownloadUpdate (info : UpdateInfo) (get : string -> option (Answer Bytes))
    (get_sig : string -> option (Answer string)) (quarantined : bool)
    : result UpdateError Bytes * list FileEffect :=
  if DownloadURL info =s "" then (Err NoDownloadURL, [])
  else if negb (isTrustedAssetURL url_parse (DownloadURL info)) then (Err (UntrustedURL (DownloadURL info)), [])
  else if negb (SignatureURL info =s "") && negb (isTrustedAssetURL url_parse (SignatureURL info))
       then (Err (UntrustedSignatureURL (SignatureURL info)), [])
  else match client_Get (get (DownloadURL info)) with
       | None => (Err RequestFailed, [])
       | Some a =>
           if negb (an_status a =? 200)%Z then (Err (BadStatus (an_status a)), [])
           else if (0 <? an_length a)%Z && (0 <? AssetSize info)%Z && negb (an_length a =? AssetSize info)%Z
                then (Err (LengthMismatch (an_length a)), [])
           else
             let content := limit (maxSize info) (an_body a) in
             if negb (an_complete a) then (Err CopyFailed, [FCreate; FRemove])
             else match check_download info content get_sig with
                  | Some e => (Err e, [FCreate; FRemove])
                  | None => if quarantined then (Ok content, [FCreate; FQuarantine])
                            else (Err QuarantineFailed, [FCreate; FRemove])
                  end
       end.
End Download.

(** ** What an installed update guarantees *)

(** ** The order of versions *)

Lemma newer_parts_irrefl l : newer_parts l l = false.
Proof. induction l as [|x l IH]; cbn; [done|]. by rewrite Z.ltb_irrefl. Qed.

Lemma newer_parts_trans a : forall b c, newer_parts a b = true -> newer_parts b c = true -> newer_parts a c = true.
Proof.
  induction a as [|x a IH]; intros [|y b] [|z c] H1 H2; cbn in *; try done.
  destruct (Z.ltb_spec y x), (Z.ltb_spec x y); try done; try lia;
    destruct (Z.ltb_spec z y), (Z.ltb_spec y z); try done; try lia;
    destruct (Z.ltb_spec z x), (Z.ltb_spec x z); try done; try lia. by eapply IH.
Qed.

(** The latest version is compared by a strict order, number by number, so no chain of updates comes
    back to a version it left. *)
Lemma isNewerVersion_order :
  (forall v, isNewerVersion v v = false)
  /\ forall u v w, isNewerVersion u v = true -> isNewerVersion v w = true -> isNewerVersion u w = true.
Proof.
  unfold isNewerVersion. split.
  - intros v. destruct (parse_parts v); [apply newer_parts_irrefl|done].
  - intros u v w. destruct (parse_parts u), (parse_parts v), (parse_parts w); try done. apply newer_parts_trans.
Qed.

Lemma parse_parts_line v l : parse_parts v = Some l -> contains_byte newline v = false.
Proof.
  unfold parse_parts. intros H. rewrite <- (join_split "." v). apply join_contains; [done|].
  apply mapM_Some in H. intros p Hp. apply list_elem_of_lookup in Hp as [i Hi].
  destruct (Forall2_lookup_l _ _ _ _ _ H Hi) as (n & _ & Hn). apply parse_int_plain in Hn.
  by apply (string_forall_contains plain).
Qed.

Lemma newer_line v cur : isNewerVersion v cur = true -> contains_byte newline v = false.
Proof. unfold isNewerVersion. destruct (parse_parts v) eqn:E; [|done]. intros _. by eapply parse_parts_line. Qed.

Lemma signedMessage_inj v h v' h' :
  contains_byte newline v = false -> contains_byte newline v' = false ->
  signedMessage v h = signedMessage v' h' -> v = v' /\ h = h'.
Proof.
  unfold signedMessage. intros Hv Hv' H. apply (f_equal (cut_byte newline)) in H.
  change (String newline "" +:+ h) with (String newline h) in H. change (String newline "" +:+ h') with (String newline h') in H.
  rewrite !cut_byte_app in H by done. by injection H as -> ->.
Qed.

(** ** The asset chosen *)

Section Check.
Variable url_parse : string -> option (string * string).

Lemma scan_found assetName assets : forall f0,
  let f := foldl (scan_asset url_parse assetName) f0 assets in
  (fd_url f = fd_url f0 /\ fd_size f = fd_size f0)
  \/ exists a, a ∈ assets /\ as_Name a = assetName /\ isTrustedAssetURL url_parse (as_URL a) = true
       /\ fd_url f = as_URL a /\ fd_size f = as_Size a.
Proof.
  induction assets as [|a assets IH]; intros f0; cbn [foldl]; [by left|].
  destruct (IH (scan_asset url_parse assetName f0 a)) as [[E1 E2]|(b & Hb & H)].
  - cbn zeta in *. rewrite E1, E2. unfold scan_asset. destruct (isTrustedAssetURL url_parse (as_URL a)) eqn:Et; [|by left].
    destruct f0 as [u s c g]. cbn [negb]. destruct (bool_decide_reflect (as_Name a = assetName)) as [En|_]; cbn; [|by left].
    right. exists a. split_and!; try done. left.
  - right. exists b. split; [by right|done].
Qed.

Lemma check_release_available arch cur expected rel info :
  check_release url_parse arch cur expected rel = Ok info -> Available info = true ->
  isNewerVersion (Version info) cur = true
  /\ exists a, a ∈ rl_Assets rel /\ as_Name a = matchAsset arch (rl_Assets rel) /\ as_URL a = DownloadURL info
       /\ isTrustedAssetURL url_parse (as_URL a) = true
       /\ as_Size a = AssetSize info /\ (minAssetSize <= as_Size a)%Z.
Proof.
  unfold check_release. cbn zeta.
  destruct (isNewerVersion (trim_prefix "v" (rl_TagName rel)) cur) eqn:En; cbn [negb]; [|by intros [= <-]].
  destruct (bool_decide_reflect (matchAsset arch (rl_Assets rel) = "")) as [|Hname]; [by intros [= <-]|].
  pose proof (scan_found (matchAsset arch (rl_Assets rel)) (rl_Assets rel) (MkFound "" 0 "" "")) as Hf.
  set (f := foldl _ _ _) in *. cbn zeta in Hf. destruct (bool_decide_reflect (fd_url f = "")) as [|Hu]; [done|].
  destruct (Z.leb_spec (fd_size f) 0); [done|]. destruct (Z.ltb_spec (fd_size f) minAssetSize) as [|Hs]; [done|].
  intros [= <-] _. cbn. split; [done|]. destruct Hf as [[E _]|(a & Ha & H1 & H2 & H3 & H4)]; [by cbn in E|].
  exists a. rewrite <- H4. by rewrite H3.
Qed.
End Check.

(** ** The download *)

Section Download.
Context {Bytes : Type}.
Context (size : Bytes -> Z) (limit : Z -> Bytes -> Bytes) (sha256_hex : Bytes -> string).
Context (url_parse : string -> option (string * string)).
Context (publicKey : option string) (ed25519_Verify : string -> string -> string -> bool).

Abbreviation download := (DownloadUpdate size limit sha256_hex url_parse publicKey ed25519_Verify).

(** Every successful download was verified; a failed one leaves no file behind. *)
Lemma DownloadUpdate_spec info get get_sig q :
  match download info get get_sig q with
  | (Ok content, effs) =>
      effs = [FCreate; FQuarantine]
      /\ isTrustedAssetURL url_parse (DownloadURL info) = true
      /\ (exists a, get (DownloadURL info) = Some a /\ content = limit (maxSize info) (an_body a)
            /\ an_status a = 200%Z /\ an_complete a = true
            /\ Forall (fun u => isTrustedAssetURL url_parse u = true) (an_redirects a))
      /\ (minAssetSize <= size content)%Z
      /\ ((0 < AssetSize info)%Z -> size content = AssetSize info)
      /\ (ExpectedHash info <> "" -> equal_fold (ExpectedHash info) (sha256_hex content) = true)
      /\ exists pub sig, publicKey = Some pub
           /\ ed25519_Verify pub (signedMessage (Version info) (sha256_hex content)) sig = true
  | (Err _, effs) => effs = [] \/ effs = [FCreate; FRemove]
  end.
Proof.
  unfold DownloadUpdate. destruct (DownloadURL info =s ""); [by left|].
  destruct (isTrustedAssetURL url_parse (DownloadURL info)) eqn:Ht; cbn [negb]; [|by left].
  destruct (negb (SignatureURL info =s "") && _); [by left|].
  destruct (client_Get url_parse (get (DownloadURL info))) as [a|] eqn:Eg; [|by left].
  destruct (Z.eqb_spec (an_status a) 200) as [Hst|]; cbn [negb]; [|by left]. destruct (_ && _ && _); [by left|]. cbn zeta.
  destruct (an_complete a) eqn:Hcm; cbn [negb]; [|by right].
  destruct (check_download _ _ _ _ _ _ _ _) as [e|] eqn:Ec; [by right|]. destruct q; [|by right].
  split; [done|]. split; [done|]. unfold client_Get in Eg.
  destruct (get (DownloadURL info)) as [a'|]; [|done].
  destruct (forallb _ _) eqn:Ef; [|done]. injection Eg as <-. split.
  { exists a'. do 4 (split; [done|]). apply Forall_lookup. intros i u Hi.
    rewrite forallb_true_iff in Ef. specialize (Ef (S i, u)). unfold redirect_allowed in Ef.
    apply andb_prop in Ef as [_ Hu]; [done|]. apply list_elem_of_lookup. exists i. by rewrite list_lookup_imap, Hi. }
  unfold check_download in Ec. destruct (Z.ltb_spec (size (limit (maxSize info) (an_body a'))) minAssetSize); [done|].
  destruct (_ && negb (_ =? _)%Z) eqn:Es; [done|]. destruct (_ && negb (equal_fold _ _)) eqn:Eh; [done|].
  split; [lia|]. split; [intros; lia|]. split.
  { intros Hne. rewrite (bool_decide_eq_false_2 (ExpectedHash info = "")) in Eh by done. cbn in Eh.
    by apply negb_false_iff in Eh. }
  unfold verifySignature in Ec. destruct publicKey as [pub|]; [|done].
  destruct (SignatureURL info =s ""); [done|]. destruct (fetchSignature _ _) as [sig|]; [|done].
  destruct (String.length sig =? 64)%nat; cbn [negb] in Ec; [|done]. destruct (ed25519_Verify pub _ sig) eqn:Ev; [|done]. by exists pub, sig.
Qed.

(** What was downloaded: the bytes an asset's own URL answered, up to the limit, through trusted redirects only. *)
Definition fetched_from (get : string -> option (Answer Bytes)) (a : Asset) (content : Bytes) : Prop :=
  isTrustedAssetURL url_parse (as_URL a) = true
  /\ exists ans n, get (as_URL a) = Some ans /\ content = limit n (an_body ans) /\ size content = as_Size a
       /\ an_status ans = 200%Z /\ an_complete ans = true
       /\ Forall (fun u => isTrustedAssetURL url_parse u = true) (an_redirects ans).

(** An update that is installed is the project's and is newer.  When a release is found to be newer
    and its download succeeds, the version and the SHA-256 of the very bytes installed were signed
    together by the release key, so neither a forged file nor an old signed file under a new tag gets
    in; the bytes come, through trusted redirects only, from a GitHub URL of an asset of that release and
    have its size, and the file is quarantined.  [released] is what the key's owner signed; the last
    hypothesis is the unforgeability of Ed25519 signatures. *)
Theorem update_authentic (released : string -> string -> Prop) arch cur expected rel info get get_sig q content effs :
  check_release url_parse arch cur expected rel = Ok info -> Available info = true ->
  download info get get_sig q = (Ok content, effs) ->
  (forall pub m sig, publicKey = Some pub -> ed25519_Verify pub m sig = true ->
     exists v h, m = signedMessage v h /\ released v h /\ contains_byte newline v = false) ->
  released (Version info) (sha256_hex content)
  /\ isNewerVersion (Version info) cur = true
  /\ (exists a, a ∈ rl_Assets rel /\ as_Name a = matchAsset arch (rl_Assets rel) /\ fetched_from get a content)
  /\ effs = [FCreate; FQuarantine].
Proof.
  intros Hc Ha Hd Hsigner. destruct (check_release_available _ _ _ _ _ _ Hc Ha) as (Hn & a & H1 & H2 & H3 & H4 & H5 & H6).
  pose proof (DownloadUpdate_spec info get get_sig q) as H. rewrite Hd in H.
  destruct H as (He & _ & (ans & Hg & Hb & Ho & Hcm & Hrd) & _ & Hs & _ & pub & sig & Hp & Hv).
  destruct (Hsigner _ _ _ Hp Hv) as (v & h & Hm & Hr & Hl).
  destruct (signedMessage_inj _ _ _ _ (newer_line _ _ Hn) Hl Hm) as [<- <-]. split; [done|]. split; [done|]. split; [|done].
  exists a. do 2 (split; [done|]). split; [done|]. exists ans, (maxSize info). rewrite H3. split_and!; try done.
  rewrite Hs; [done|]. rewrite <- H5. unfold minAssetSize in H6. lia.
Qed.
End Download.

(** *** A release *)

Definition github (u : string) : option (string * string) :=
  if has_prefix "https://github.com/" u then Some ("https", "github.com") else None.

Definition zip_name : string := "lockplus-v1.2.0-darwin-arm64.zip".

Definition release_1_2 : Release :=
  MkRelease "v1.2.0"
    [MkAsset (zip_name +:+ ".sig") "https://github.com/r/sig" 64;
     MkAsset "lockplus-v1.2.0-darwin-arm64.zip" "https://evil.example/zip" 9000000;
     MkAsset zip_name "https://github.com/r/zip" 9000000].

Definition info_1_2 : UpdateInfo :=
  MkInfo true "1.2.0" "1.1.0" "https://github.com/r/zip" zip_name 9000000 "" "" "https://github.com/r/sig".

(** Bytes are their size here, and the signature of a message is fixed by its length. *)
Definition sig64 : string := String.concat "" (repeat "0123456789abcdef" 4).

Definition knows (pub m sig : string) : bool := (m =s signedMessage "1.2.0" "9000000") && (sig =s sig64).

Definition zip_answer (u : string) : option (Answer Z) :=
  if u =s "https://github.com/r/zip" then Some (MkAnswer ["https://github.com/cdn"] 200 9000000 9000000%Z true) else None.

Definition sig_answer (u : string) : option (Answer string) :=
  if u =s "https://github.com/r/sig" then Some (MkAnswer [] 200 64 sig64 true) else None.

Lemma update_authentic_witness :
  DownloadUpdate (fun n => n) Z.min itoa github (Some "key") knows info_1_2 zip_answer sig_answer true
    = (Ok 9000000%Z, [FCreate; FQuarantine])
  /\ isNewerVersion "1.2.0" "1.1.0" = true.
Proof.
  assert (H : DownloadUpdate (fun n => n) Z.min itoa github (Some "key") knows info_1_2 zip_answer sig_answer true
              = (Ok 9000000%Z, [FCreate; FQuarantine])) by (vm_compute; reflexivity).
  split; [exact H|].
  refine (proj1 (proj2 (update_authentic (fun n => n) Z.min itoa github (Some "key") knows
     (fun v h => v = "1.2.0" /\ h = "9000000") "arm64" "1.1.0" (fun _ _ => "") release_1_2 info_1_2
     zip_answer sig_answer true 9000000%Z _ _ _ H _))); [vm_compute; reflexivity|vm_compute; reflexivity|].
  intros pub m sig _ Hv. apply andb_prop in Hv as [Hm%bool_decide_eq_true _]. exists "1.2.0", "9000000". by rewrite Hm.
Defined.
