(* ===== verification/AppUpdate.v ===== *)
(** * Running an update: the update part of internal/app/settings_ops.go

    The result of the last check is kept on the Go side, and an update is run for the version the user confirmed
    only if it is that one. *)

From S2P Require Import Prelude GoStrings GoText Update.

Abbreviation Cache := (option UpdateInfo).

(** TunnelService.CheckForUpdate after update.CheckForUpdate returned. *)
Definition cache_check (res : result CheckError UpdateInfo) (c : Cache) : Cache :=
  match res with
  | Err _ => c
  | Ok info => if Available info then Some info else None
  end.

Inductive RunError := RuNone | RuMismatch | RuBrewFailed | RuDownload (e : UpdateError) | RuInstall.

Definition cachedUpdate (version : string) (c : Cache) : result RunError UpdateInfo :=
  match c with
  | None => Err RuNone
  | Some info =>
      if negb (Available info) then Err RuNone
      else if (version =s "") || negb (Version info =s version) then Err RuMismatch
      else Ok info
  end.

(** What is run or revealed. *)
Inductive Updated (B : Type) := UpBrew | UpFile (content : B).
Arguments UpBrew {B}.
Arguments UpFile {B}.

Section Run.
Context {Bytes : Type}.
Context (size : Bytes -> Z) (limit : Z -> Bytes -> Bytes) (sha256_hex : Bytes -> string).
Context (url_parse : string -> option (string * string)).
Context (publicKey : option string) (ed25519_Verify : string -> string -> string -> bool).

(** [brew]: a Homebrew installation, and whether its upgrade succeeds; [reveal]: showing the file succeeds.  A
    failed download opens the releases page. *)
Definition RunUpdate (version : string) (brew : option bool) (get : string -> option (Answer Bytes))
    (get_sig : string -> option (Answer string)) (quarantined reveal : bool) (c : Cache) : result RunError (Updated Bytes) :=
  let? info := cachedUpdate version c in
  match brew with
  | Some ok => if ok then Ok UpBrew else Err RuBrewFailed
  | None =>
      match DownloadUpdate size limit sha256_hex url_parse publicKey ed25519_Verify info get get_sig quarantined with
      | (Err e, _) => Err (RuDownload e)
      | (Ok content, _) => if reveal then Ok (UpFile content) else Err RuInstall
      end
  end.

(** A check: the architecture, the checksum lookup and the release that was read, [None] when the request failed. *)
Record Check_ := MkCheck { ck_arch : string; ck_expected : string -> string -> string; ck_release : option Release }.

Definition check_result (cur : string) (ck : Check_) : result CheckError UpdateInfo :=
  match ck_release ck with
  | None => Err NoTrustedURL
  | Some rel => check_release url_parse (ck_arch ck) cur (ck_expected ck) rel
  end.

Definition cache_after (cur : string) (cks : list Check_) : Cache :=
  foldl (fun c ck => cache_check (check_result cur ck) c) None cks.

(** What is cached is what some check found, and no later one found another. *)
Lemma cache_found cur cks info :
  cache_after cur cks = Some info ->
  exists before ck after, cks = before ++ ck :: after /\ check_result cur ck = Ok info /\ Available info = true
  /\ forall ck', ck' ∈ after -> exists e, check_result cur ck' = Err e.
Proof.
  unfold cache_after. induction cks as [|ck cks IH] using rev_ind; [done|]. rewrite foldl_app. cbn [foldl].
  destruct (check_result cur ck) as [info'|e] eqn:E; cbn [cache_check].
  - destruct (Available info') eqn:Ea; [|done]. intros [= <-]. exists cks, ck, [].
    split; [done|split; [done|split; [done|]]]. intros ck' H. by apply not_elem_of_nil in H.
  - intros H. destruct (IH H) as (before & ck0 & after & -> & H1 & H2 & H3). exists before, ck0, (after ++ [ck]).
    rewrite <- app_assoc. split; [done|split; [done|split; [done|]]]. intros ck' [Hin|Hin]%elem_of_app; [by apply H3|].
    apply list_elem_of_singleton in Hin as ->. by eexists.
Qed.

Lemma cachedUpdate_ok version c info : cachedUpdate version c = Ok info ->
  c = Some info /\ Version info = version /\ version <> "".
Proof.
  unfold cachedUpdate. destruct c as [i|]; [|done]. destruct (negb (Available i)); [done|].
  destruct ((version =s "") || negb (Version i =s version)) eqn:E; [done|]. intros [= ->].
  apply orb_false_iff in E as [Hv%bool_decide_eq_false Hi]. apply negb_false_iff, bool_decide_eq_true in Hi. done.
Qed.

(** C31: The update that is handed to the user is the one that was confirmed.  After any sequence of checks, the
    file RunUpdate reveals for a version holds what the URL of an asset answered: of the asset for this machine in the
    release the last successful check found, a GitHub URL with no redirect elsewhere, in the size listed there; the
    very bytes were signed, for exactly this version, by the release key, and the version is newer than the running
    one: neither the frontend nor the network can name another file or an older version.  [released] is what
    the key's owner signed; the last hypothesis is the unforgeability of Ed25519 signatures. *)
Theorem RunUpdate_confirmed (released : string -> string -> Prop) cur cks version get get_sig q content :
  RunUpdate version None get get_sig q true (cache_after cur cks) = Ok (UpFile content) ->
  (forall pub m sig, publicKey = Some pub -> ed25519_Verify pub m sig = true ->
     exists v h, m = signedMessage v h /\ released v h /\ contains_byte newline v = false) ->
  released version (sha256_hex content) /\ isNewerVersion version cur = true
  /\ exists before ck after rel a, cks = before ++ ck :: after
     /\ (forall ck', ck' ∈ after -> exists e, check_result cur ck' = Err e)
     /\ ck_release ck = Some rel /\ a ∈ rl_Assets rel /\ as_Name a = matchAsset (ck_arch ck) (rl_Assets rel)
     /\ fetched_from size limit url_parse get a content.
Proof.
  intros H Hsigner. unfold RunUpdate in H. apply result_bind_ok in H as (info & Hc & H).
  apply cachedUpdate_ok in Hc as (Hc & <- & _).
  destruct (DownloadUpdate _ _ _ _ _ _ info get get_sig q) as [[c|e] effs] eqn:Ed; [|done]. injection H as ->.
  apply cache_found in Hc as (before & ck & after & -> & Hck & Ha & Hlater).
  unfold check_result in Hck. destruct (ck_release ck) as [rel|] eqn:Er; [|done].
  destruct (update_authentic size limit sha256_hex url_parse publicKey ed25519_Verify released
              _ _ _ _ _ _ _ _ _ _ Hck Ha Ed Hsigner) as (H1 & H2 & (a & H3 & H4 & H5) & _).
  split; [done|split; [done|]]. exists before, ck, after, rel, a. done.
Qed.
End Run.

(** A check fails after the one that found the release; the user confirms the release. *)
Definition checks_1_2 : list Check_ := [MkCheck "arm64" (fun _ _ => "") (Some release_1_2); MkCheck "arm64" (fun _ _ => "") None].

Lemma RunUpdate_confirmed_witness :
  RunUpdate (fun n => n) Z.min itoa github (Some "key") knows "1.2.0" None zip_answer sig_answer true true
    (cache_after github "1.1.0" checks_1_2) = Ok (UpFile 9000000%Z)
  /\ isNewerVersion "1.2.0" "1.1.0" = true.
Proof.
  assert (H : RunUpdate (fun n => n) Z.min itoa github (Some "key") knows "1.2.0" None zip_answer sig_answer true true
    (cache_after github "1.1.0" checks_1_2) = Ok (UpFile 9000000%Z)) by (vm_compute; reflexivity).
  split; [exact H|].
  refine (proj1 (proj2 (RunUpdate_confirmed (fun n => n) Z.min itoa github (Some "key") knows
    (fun v h => v = "1.2.0" /\ h = "9000000") "1.1.0" checks_1_2 "1.2.0" zip_answer sig_answer true 9000000%Z H _))).
  intros pub m sig _ Hv. apply andb_prop in Hv as [Hm%bool_decide_eq_true _]. exists "1.2.0", "9000000". rewrite Hm. clear.
  split; [reflexivity|split; [split; reflexivity|reflexivity]].
Defined.
