(* ===== verification/Elevate.v ===== *)
(** * Installing the helper: internal/elevate/spawn_darwin.go

    The script that root runs is a list of commands; [cmd_text] is what each is written as and
    [cmd_run] what it does to the files it names.  The bundle the binaries come from belongs to the
    user, so what is at the source path is a function of time.  codesign is an argument. *)

From S2P Require Import Prelude GoStrings GoText.

(** ** Texts *)

Definition dq : string := String dquote "".

Definition daemonLabel : string := "io.github.steiale.lockplus.helper".
Definition daemonPlist : string := "/Library/LaunchDaemons/" +:+ daemonLabel +:+ ".plist".
Definition daemonBinary : string := "/Library/PrivilegedHelperTools/" +:+ daemonLabel.
Definition ovpnDst : string := "/Library/PrivilegedHelperTools/openvpn".
Definition helperLogPath : string := "/var/log/lockplus-helper.log".

Definition teamRequirement : string :=
  "anchor apple generic and certificate leaf[subject.OU] = " +:+ dq +:+ "M53GHX9FAY" +:+ dq.
Definition helperIdentifier : string := "lockplus-helper".
Definition openvpnIdentifier : string := "openvpn".

Definition codeSignRequirement (identifier : string) : string :=
  teamRequirement +:+ " and identifier " +:+ dq +:+ identifier +:+ dq.

Definition shellQuote (s : string) : string := "'" +:+ replace_byte "'" "'\''" s +:+ "'".

(** ** The commands *)

Inductive Cmd :=
| CRefuseSymlink (src : string)
| CRemove (path : string)
| CCopyPrivate (src dst : string)
| CChownRoot (path : string)
| CUnquarantine (path : string)
| CVerify (path identifier : string)
| CExecutable (path : string)
| CMove (src dst : string).

Definition verifySignatureSnippet (path identifier : string) : string :=
  "CSERR=$(/usr/bin/codesign --verify --strict -R=" +:+ shellQuote (codeSignRequirement identifier) +:+ " "
  +:+ shellQuote path +:+ " 2>&1) || { /bin/rm -f " +:+ shellQuote path +:+ "; echo SIGNATURE_INVALID: "
  +:+ shellQuote path +:+ ": " +:+ dq +:+ "$CSERR" +:+ dq +:+ "; exit 5; }; ".

Definition cmd_text (c : Cmd) : string :=
  match c with
  | CRefuseSymlink src =>
      "if [ -L " +:+ shellQuote src +:+ " ]; then echo " +:+ dq +:+ "SIGNATURE_INVALID: source binary is a symlink"
      +:+ dq +:+ "; exit 5; fi; "
  | CRemove path => "rm -f " +:+ shellQuote path +:+ "; "
  | CCopyPrivate src dst => "(umask 077 && cp " +:+ shellQuote src +:+ " " +:+ shellQuote dst +:+ "); "
  | CChownRoot path => "chown root:wheel " +:+ shellQuote path +:+ "; "
  | CUnquarantine path => "xattr -d com.apple.quarantine " +:+ shellQuote path +:+ " 2>/dev/null || true; "
  | CVerify path identifier => verifySignatureSnippet path identifier
  | CExecutable path => "chmod 755 " +:+ shellQuote path +:+ "; "
  | CMove src dst => "mv -f " +:+ shellQuote src +:+ " " +:+ shellQuote dst +:+ "; "
  end.

Definition install_cmds (src dst identifier : string) : list Cmd :=
  let tmp := dst +:+ ".new" in
  [CRefuseSymlink src; CRemove tmp; CCopyPrivate src tmp; CChownRoot tmp; CUnquarantine tmp;
   CVerify tmp identifier; CExecutable tmp; CMove tmp dst].

Definition installBinarySnippet (src dst identifier : string) : string :=
  join "" (cmd_text <$> install_cmds src dst identifier).

Definition openvpn_of (exe : string) : string := path_join (path_dir exe) "openvpn".

Definition ovpnSnippet (exe : string) : string :=
  "if [ -e " +:+ shellQuote (openvpn_of exe) +:+ " ] || [ -L " +:+ shellQuote (openvpn_of exe) +:+ " ]; then "
  +:+ installBinarySnippet (openvpn_of exe) ovpnDst openvpnIdentifier +:+ "fi; ".

Definition buildInstallScript (exe plistB64 : string) : string :=
  "set -e; "
  +:+ "export PATH=" +:+ dq +:+ "/usr/bin:/bin:/usr/sbin:/sbin" +:+ dq +:+ "; "
  +:+ "launchctl bootout system/" +:+ daemonLabel +:+ " 2>/dev/null || true; "
  +:+ "launchctl bootout system/com.wireguide.helper 2>/dev/null || true; "
  +:+ "rm -f /Library/LaunchDaemons/com.wireguide.helper.plist; "
  +:+ "rm -f /Library/PrivilegedHelperTools/com.wireguide.helper; "
  +:+ "mkdir -p /Library/PrivilegedHelperTools; "
  +:+ installBinarySnippet exe daemonBinary helperIdentifier
  +:+ "printf '%s' " +:+ shellQuote plistB64 +:+ " | base64 -d > " +:+ shellQuote daemonPlist +:+ "; "
  +:+ "chown root:wheel " +:+ shellQuote daemonPlist +:+ "; "
  +:+ "chmod 644 " +:+ shellQuote daemonPlist +:+ "; "
  +:+ ovpnSnippet exe
  +:+ "/usr/bin/touch " +:+ shellQuote helperLogPath +:+ "; /usr/sbin/chown root:wheel " +:+ shellQuote helperLogPath
  +:+ "; /bin/chmod 600 " +:+ shellQuote helperLogPath +:+ "; "
  +:+ "launchctl enable system/" +:+ daemonLabel +:+ " 2>/dev/null || true; "
  +:+ "if launchctl kickstart -k system/" +:+ daemonLabel +:+ " 2>/dev/null; then :; "
  +:+ "else BOOTERR=$(launchctl bootstrap system " +:+ shellQuote daemonPlist +:+ " 2>&1) || { echo " +:+ dq
  +:+ "BOOTSTRAP_FAILED: $BOOTERR" +:+ dq +:+ "; exit 3; }; fi; "
  +:+ "if launchctl print system/" +:+ daemonLabel +:+ " >/dev/null 2>&1; then echo INSTALL_OK; "
  +:+ "else echo " +:+ dq +:+ "BOOTSTRAP_FAILED: service not registered after load" +:+ dq +:+ "; exit 4; fi".

(** ** The plist and the AppleScript *)

(** xml.EscapeText of valid UTF-8 in XML's character range, without control characters but for these. *)
Definition xml_escape_byte (c : ascii) : string :=
  if byte_is c 34 then "&#34;" else if byte_is c 39 then "&#39;" else if byte_is c 38 then "&amp;"
  else if byte_is c 60 then "&lt;" else if byte_is c 62 then "&gt;" else if byte_is c 9 then "&#x9;"
  else if byte_is c 10 then "&#xA;" else if byte_is c 13 then "&#xD;" else String c "".

Fixpoint xmlEscape (s : string) : string :=
  match s with
  | EmptyString => ""
  | String c s' => xml_escape_byte c +:+ xmlEscape s'
  end.

Record Args := MkArgs { SocketPath : string; SocketUID : Z; DataDir : string; ForceReinstall : bool }.

Definition ln (s : string) : string := s +:+ String newline "".

(** [uid] is the user's, from os.Getuid. *)
Definition plist (args : Args) (uid : Z) : string :=
  ln ("<?xml version=" +:+ dq +:+ "1.0" +:+ dq +:+ " encoding=" +:+ dq +:+ "UTF-8" +:+ dq +:+ "?>")
  +:+ ln ("<!DOCTYPE plist PUBLIC " +:+ dq +:+ "-//Apple//DTD PLIST 1.0//EN" +:+ dq +:+ " " +:+ dq
          +:+ "http://www.apple.com/DTDs/PropertyList-1.0.dtd" +:+ dq +:+ ">")
  +:+ ln ("<plist version=" +:+ dq +:+ "1.0" +:+ dq +:+ ">")
  +:+ ln "<dict>"
  +:+ ln "    <key>Label</key>"
  +:+ ln ("    <string>" +:+ xmlEscape daemonLabel +:+ "</string>")
  +:+ ln "    <key>ProgramArguments</key>"
  +:+ ln "    <array>"
  +:+ ln ("        <string>" +:+ xmlEscape daemonBinary +:+ "</string>")
  +:+ ln "        <string>--helper</string>"
  +:+ ln ("        <string>--socket=" +:+ xmlEscape (SocketPath args) +:+ "</string>")
  +:+ ln ("        <string>--uid=" +:+ itoa uid +:+ "</string>")
  +:+ ln ("        <string>--data-dir=" +:+ xmlEscape (DataDir args) +:+ "</string>")
  +:+ ln "    </array>"
  +:+ ln "    <key>RunAtLoad</key>"
  +:+ ln "    <true/>"
  +:+ ln "    <key>KeepAlive</key>"
  +:+ ln "    <true/>"
  +:+ ln "    <key>StandardErrorPath</key>"
  +:+ ln ("    <string>" +:+ xmlEscape helperLogPath +:+ "</string>")
  +:+ ln "    <key>StandardOutPath</key>"
  +:+ ln ("    <string>" +:+ xmlEscape helperLogPath +:+ "</string>")
  +:+ ln "</dict>"
  +:+ ln "</plist>".

Definition install_prompt : string :=
  "LockPlus needs administrator access to install its VPN helper service.\n\n"
  +:+ "The helper runs as a background service to manage VPN tunnels, firewall rules, and network configuration. "
  +:+ "This prompt appears on first launch or after an app update.".

Definition osascriptCmd (shellScript : string) : string :=
  let escaped := replace_byte dquote ("\" +:+ dq) (replace_byte "\" "\\" shellScript) in
  "do shell script " +:+ dq +:+ escaped +:+ dq +:+ " with administrator privileges with prompt " +:+ dq
  +:+ install_prompt +:+ dq.

(** ** What the script does to the binaries *)

(** A file at a path of the bundle; a symbolic link with the content of what it leads to. *)
Inductive Source (B : Type) := SAbsent | SFile (content : B) | SLink (target : option B).
Arguments SAbsent {B}.
Arguments SFile {B}.
Arguments SLink {B}.

(** A file in root's directory: content, and whether anybody but root may read or run it. *)
Record Binary (B : Type) := MkBinary { bn_content : B; bn_public : bool }.
Arguments MkBinary {B}.
Arguments bn_content {B}.
Arguments bn_public {B}.

Section Run.
Context {B : Type}.
(** codesign --verify: the content satisfies the requirement of the identifier. *)
Context (signed : string -> B -> bool).
(** What the user has at the path of the bundle, at each moment. *)
Context (bundle : nat -> string -> Source B).

Abbreviation Disk := (gmap string (Binary B)).

Definition copied (s : Source B) : option B :=
  match s with SFile c => Some c | SLink t => t | SAbsent => None end.

(** One command at time [t], under set -e: [Err] ends the script. *)
Definition cmd_run (t : nat) (c : Cmd) (d : Disk) : result Disk Disk :=
  match c with
  | CRefuseSymlink src => match bundle t src with SLink _ => Err d | _ => Ok d end
  | CRemove path => Ok (delete path d)
  | CCopyPrivate src dst =>
      match copied (bundle t src) with
      | Some content =>
          Ok (<[dst := MkBinary content (match d !! dst with Some f => bn_public f | None => false end)]> d)
      | None => Err d
      end
  | CChownRoot path => match d !! path with Some _ => Ok d | None => Err d end
  | CUnquarantine _ => Ok d
  | CVerify path identifier =>
      match d !! path with
      | Some f => if signed identifier (bn_content f) then Ok d else Err (delete path d)
      | None => Err d
      end
  | CExecutable path =>
      match d !! path with Some f => Ok (<[path := MkBinary (bn_content f) true]> d) | None => Err d end
  | CMove src dst => match d !! src with Some f => Ok (<[dst := f]> (delete src d)) | None => Err d end
  end.

(** The disk after each command, the last one where the script stops. *)
Fixpoint cmds_run (t : nat) (cs : list Cmd) (d : Disk) : list Disk :=
  match cs with
  | [] => []
  | c :: cs' =>
      match cmd_run t c d with
      | Ok d' => d' :: cmds_run (S t) cs' d'
      | Err d' => [d']
      end
  end.
End Run.

(** ** Outcomes *)

Inductive SpawnError := SignatureError (output : string) | BootstrapError (output : string) | ErrUserCancelled
| OtherError (output : string).

(** [failed]: osascript exited with an error. *)
Definition interpretInstallOutput (outStr : string) (failed : bool) : option SpawnError :=
  if failed then
    if contains "SIGNATURE_INVALID" outStr then Some (SignatureError outStr)
    else if contains "BOOTSTRAP_FAILED" outStr then Some (BootstrapError outStr)
    else if contains "-128" outStr || contains "cancel" (to_lower outStr) then Some ErrUserCancelled
    else Some (OtherError outStr)
  else if negb (contains "INSTALL_OK" outStr) then Some (BootstrapError outStr)
  else None.

(** helperBinaryPath: [self] is os.Executable, [resolve] EvalSymlinks, [present] whether a file is there. *)
Definition helperBinaryPath (self : option string) (resolve : string -> option string) (present : string -> bool) : option string :=
  match self with
  | None => None
  | Some self =>
      let self := match resolve self with Some resolved => resolved | None => self end in
      let candidate := path_join (path_dir self) "lockplus-helper" in
      if present candidate then Some candidate else None
  end.

(** One osascript with its prompt, if any.  [exe] is helperBinaryPath, [lint_ok] the plist's file and check,
    [osascript] the output and failure. *)
Definition installAndLoadDaemon (args : Args) (uid : Z) (exe : option string) (lint_ok : bool)
    (osascript : string -> string * bool) : option SpawnError * list string :=
  match exe with
  | None => (Some (OtherError "helper binary missing"), [])
  | Some exe =>
      if negb lint_ok then (Some (OtherError "plist validation failed"), [])
      else
        let cmd := osascriptCmd (buildInstallScript exe (b64_encode (plist args uid))) in
        let '(out, failed) := osascript cmd in
        (interpretInstallOutput (trim_space out) failed, [cmd])
  end.

(** [socketLive]: isSocketLive, something accepts on the socket. *)
Definition SpawnHelper (args : Args) (uid : Z) (socketLive : bool) (exe : option string) (lint_ok : bool)
    (osascript : string -> string * bool) : option SpawnError * list string :=
  if negb (ForceReinstall args) && socketLive then (None, []) else installAndLoadDaemon args uid exe lint_ok osascript.
