(* ===== verification/ElevateFacts.v ===== *)
(** * What root is given to run

    [root_script_fixed]: the shell that osascript starts as root reads the same commands whatever the
    bundle's path, which occurs in literal words only.  [install_verified]: whatever the user does to the
    bundle meanwhile, no binary that codesign did not accept is ever in place or public. *)

From S2P Require Import Prelude GoStrings GoText Elevate.

(** ** The shell's quoting

    Each character is read as syntax ([false]) or for itself ([true]).  Inside double quotes the dollar
    sign and the backquote are syntax. *)

Inductive Quoting := Bare (start : bool) | EscBare | Single | Double | EscDouble | Comment.

#[export] Instance quoting_eq : EqDecision Quoting.
Proof. solve_decision. Defined.

Definition separator (c : ascii) : bool :=
  existsb (fun d => bool_decide (c = d)) [" "; "009"; newline; ";"; "&"; "|"; "("; ")"; "<"; ">"]%char.

Abbreviation Read := (list (ascii * bool)).

Definition lex1 (q : Quoting) (c : ascii) : Quoting * Read :=
  match q with
  | Bare start =>
      if bool_decide (c = "'"%char) then (Single, []) else if bool_decide (c = dquote) then (Double, [])
      else if bool_decide (c = "\"%char) then (EscBare, [])
      else if start && bool_decide (c = "#"%char) then (Comment, [])
      else (Bare (separator c), [(c, false)])
  | EscBare => if bool_decide (c = newline) then (Bare false, []) else (Bare false, [(c, true)])
  | Single => if bool_decide (c = "'"%char) then (Bare false, []) else (Single, [(c, true)])
  | Double =>
      if bool_decide (c = dquote) then (Bare false, []) else if bool_decide (c = "\"%char) then (EscDouble, [])
      else (Double, [(c, negb (bool_decide (c = "$"%char) || bool_decide (c = "`"%char)))])
  | EscDouble =>
      if existsb (fun d => bool_decide (c = d)) ["$"; "`"; dquote; "\"]%char then (Double, [(c, true)])
      else if bool_decide (c = newline) then (Double, []) else (Double, [("\"%char, true); (c, true)])
  | Comment => if bool_decide (c = newline) then (Bare true, [(c, false)]) else (Comment, [])
  end.

Fixpoint lex (q : Quoting) (s : string) : Quoting * Read :=
  match s with
  | EmptyString => (q, [])
  | String c s' => let '(q', o) := lex1 q c in let '(q'', o') := lex q' s' in (q'', o ++ o')
  end.

Definition literal (s : string) : Read := (fun c => (c, true)) <$> bytes_of s.

(** The characters read as syntax. *)
Definition syntax (r : Read) : list ascii := fst <$> List.filter (fun x => negb (snd x)) r.

Lemma lex_app q s t : lex q (s +:+ t) = (let '(q', o) := lex q s in let '(q'', o') := lex q' t in (q'', o ++ o')).
Proof.
  revert q. induction s as [|c s IH]; intros q; [rewrite string_app_nil; cbn; by destruct (lex q t)|]. rewrite string_app_cons. cbn [lex].
  destruct (lex1 q c) as [q1 o1]. rewrite IH. destruct (lex q1 s) as [q2 o2]. destruct (lex q2 t) as [q3 o3].
  by rewrite app_assoc.
Qed.

Lemma lex_single s : lex Single (replace_byte "'" "'\''" s +:+ "'") = (Bare false, literal s).
Proof.
  induction s as [|c s IH]; [done|]. cbn [replace_byte]. destruct (decide (c = "'"%char)) as [->|Hc].
  - rewrite bool_decide_true by done. rewrite string_app_assoc, lex_app.
    change (lex Single "'\''") with (Single, [("'"%char, true)]). cbv beta iota. by rewrite IH.
  - rewrite bool_decide_false by done. rewrite !string_app_cons, string_app_nil. cbn [lex]. unfold lex1 at 1.
    rewrite bool_decide_false by done. by rewrite IH.
Qed.

(** A quoted value is read for itself. *)
Lemma lex_quote b s : lex (Bare b) (shellQuote s) = (Bare false, literal s).
Proof. unfold shellQuote. rewrite string_app_cons, string_app_nil. cbn [lex]. unfold lex1 at 1.
  rewrite bool_decide_true by done. by rewrite lex_single. Qed.

(** ** Scripts with values in them *)

Inductive Part := Fixed (s : string) | Value (s : string).

Definition part_text (p : Part) : string := match p with Fixed s => s | Value v => shellQuote v end.

Definition render (ps : list Part) : string := join "" (part_text <$> ps).

Lemma join_empty_cons s l : join "" (s :: l) = s +:+ join "" l.
Proof. unfold join. destruct l as [|t l]; cbn; [by rewrite string_app_nil_r|done]. Qed.

Lemma join_empty_app l k : join "" (l ++ k) = join "" l +:+ join "" k.
Proof. induction l as [|s l IH]; [done|]. rewrite <- app_comm_cons, !join_empty_cons, IH. by rewrite string_app_assoc. Qed.

Lemma render_cons p ps : render (p :: ps) = part_text p +:+ render ps.
Proof. apply join_empty_cons. Qed.

Lemma render_app ps qs : render (ps ++ qs) = render ps +:+ render qs.
Proof. unfold render. by rewrite fmap_app, join_empty_app. Qed.

Fixpoint read_parts (q : Quoting) (ps : list Part) : Quoting * Read :=
  match ps with
  | [] => (q, [])
  | Fixed s :: ps' => let '(q', o) := lex q s in let '(q'', o') := read_parts q' ps' in (q'', o ++ o')
  | Value v :: ps' => let '(q'', o') := read_parts (Bare false) ps' in (q'', literal v ++ o')
  end.

(** No value inside quotes. *)
Fixpoint values_bare (q : Quoting) (ps : list Part) : bool :=
  match ps with
  | [] => true
  | Fixed s :: ps' => values_bare (fst (lex q s)) ps'
  | Value _ :: ps' => match q with Bare _ => values_bare (Bare false) ps' | _ => false end
  end.

Lemma lex_render ps : forall q, values_bare q ps = true -> lex q (render ps) = read_parts q ps.
Proof.
  induction ps as [|[s|v] ps IH]; intros q Hq; [done|..]; rewrite render_cons, lex_app; cbn [part_text read_parts values_bare] in *.
  - destruct (lex q s) as [q' o]. by rewrite IH.
  - destruct q as [b| | | | |]; try done. by rewrite lex_quote, IH.
Qed.

(** The same parts with other values. *)
Definition same_shape (p p' : Part) : Prop :=
  match p, p' with Fixed s, Fixed s' => s = s' | Value _, Value _ => True | _, _ => False end.

Lemma syntax_app r r' : syntax (r ++ r') = syntax r ++ syntax r'.
Proof. unfold syntax. by rewrite List.filter_app, fmap_app. Qed.

Lemma syntax_literal s : syntax (literal s) = [].
Proof. unfold syntax, literal. by induction s. Qed.

Lemma read_parts_syntax ps ps' : Forall2 same_shape ps ps' -> forall q,
  fst (read_parts q ps) = fst (read_parts q ps') /\ syntax (snd (read_parts q ps)) = syntax (snd (read_parts q ps')).
Proof.
  induction 1 as [|p p' ps ps' Hp _ IH]; intros q; [done|].
  destruct p as [s|v], p' as [s'|v']; try done; cbn [read_parts].
  - cbn in Hp. subst s'. destruct (lex q s) as [q' o]. specialize (IH q').
    destruct (read_parts q' ps), (read_parts q' ps'). cbn [fst snd] in *. rewrite !syntax_app. by destruct IH as [-> ->].
  - specialize (IH (Bare false)). destruct (read_parts (Bare false) ps), (read_parts (Bare false) ps').
    cbn [fst snd] in *. by rewrite !syntax_app, !syntax_literal.
Qed.

(** ** The script's parts *)

Definition verify_parts (path identifier : string) : list Part :=
  [Fixed "CSERR=$(/usr/bin/codesign --verify --strict -R="; Value (codeSignRequirement identifier); Fixed " ";
   Value path; Fixed " 2>&1) || { /bin/rm -f "; Value path; Fixed "; echo SIGNATURE_INVALID: "; Value path;
   Fixed (": " +:+ dq +:+ "$CSERR" +:+ dq +:+ "; exit 5; }; ")].

Definition cmd_parts (c : Cmd) : list Part :=
  match c with
  | CRefuseSymlink src =>
      [Fixed "if [ -L "; Value src; Fixed (" ]; then echo " +:+ dq +:+ "SIGNATURE_INVALID: source binary is a symlink"
       +:+ dq +:+ "; exit 5; fi; ")]
  | CRemove path => [Fixed "rm -f "; Value path; Fixed "; "]
  | CCopyPrivate src dst => [Fixed "(umask 077 && cp "; Value src; Fixed " "; Value dst; Fixed "); "]
  | CChownRoot path => [Fixed "chown root:wheel "; Value path; Fixed "; "]
  | CUnquarantine path => [Fixed "xattr -d com.apple.quarantine "; Value path; Fixed " 2>/dev/null || true; "]
  | CVerify path identifier => verify_parts path identifier
  | CExecutable path => [Fixed "chmod 755 "; Value path; Fixed "; "]
  | CMove src dst => [Fixed "mv -f "; Value src; Fixed " "; Value dst; Fixed "; "]
  end.

Definition binary_parts (src dst identifier : string) : list Part := install_cmds src dst identifier ≫= cmd_parts.

Definition script_parts (exe plistB64 : string) : list Part :=
  [Fixed ("set -e; " +:+ "export PATH=" +:+ dq +:+ "/usr/bin:/bin:/usr/sbin:/sbin" +:+ dq +:+ "; "
    +:+ "launchctl bootout system/" +:+ daemonLabel +:+ " 2>/dev/null || true; "
    +:+ "launchctl bootout system/com.wireguide.helper 2>/dev/null || true; "
    +:+ "rm -f /Library/LaunchDaemons/com.wireguide.helper.plist; "
    +:+ "rm -f /Library/PrivilegedHelperTools/com.wireguide.helper; "
    +:+ "mkdir -p /Library/PrivilegedHelperTools; ")]
  ++ binary_parts exe daemonBinary helperIdentifier
  ++ [Fixed "printf '%s' "; Value plistB64; Fixed " | base64 -d > "; Value daemonPlist; Fixed "; ";
      Fixed "chown root:wheel "; Value daemonPlist; Fixed "; "; Fixed "chmod 644 "; Value daemonPlist; Fixed "; ";
      Fixed "if [ -e "; Value (openvpn_of exe); Fixed " ] || [ -L "; Value (openvpn_of exe); Fixed " ]; then "]
  ++ binary_parts (openvpn_of exe) ovpnDst openvpnIdentifier
  ++ [Fixed "fi; ";
      Fixed "/usr/bin/touch "; Value helperLogPath; Fixed "; /usr/sbin/chown root:wheel "; Value helperLogPath;
      Fixed "; /bin/chmod 600 "; Value helperLogPath; Fixed "; ";
      Fixed ("launchctl enable system/" +:+ daemonLabel +:+ " 2>/dev/null || true; "
        +:+ "if launchctl kickstart -k system/" +:+ daemonLabel +:+ " 2>/dev/null; then :; "
        +:+ "else BOOTERR=$(launchctl bootstrap system "); Value daemonPlist;
      Fixed (" 2>&1) || { echo " +:+ dq +:+ "BOOTSTRAP_FAILED: $BOOTERR" +:+ dq +:+ "; exit 3; }; fi; "
        +:+ "if launchctl print system/" +:+ daemonLabel +:+ " >/dev/null 2>&1; then echo INSTALL_OK; "
        +:+ "else echo " +:+ dq +:+ "BOOTSTRAP_FAILED: service not registered after load" +:+ dq +:+ "; exit 4; fi")].

Ltac render_text := unfold render; cbn [fmap list_fmap app part_text]; rewrite ?join_empty_cons; cbn [join String.concat]; rewrite ?string_app_assoc, ?string_app_nil_r.

Lemma cmd_text_parts c : cmd_text c = render (cmd_parts c).
Proof.
  destruct c; cbn [cmd_text cmd_parts]; unfold verify_parts, verifySignatureSnippet, render; cbn [fmap list_fmap part_text];
    rewrite ?join_empty_cons; unfold join; cbn [String.concat]; by rewrite ?string_app_nil_r, ?string_app_assoc.
Qed.

Lemma cmds_text_parts cs : join "" (cmd_text <$> cs) = render (cs ≫= cmd_parts).
Proof. induction cs as [|c cs IH]; [done|]. rewrite fmap_cons, join_empty_cons, IH, bind_cons, render_app, cmd_text_parts. done. Qed.

Lemma script_render exe b64 : buildInstallScript exe b64 = render (script_parts exe b64).
Proof.
  unfold script_parts. rewrite !render_app. unfold binary_parts. rewrite <- !cmds_text_parts.
  fold (installBinarySnippet exe daemonBinary helperIdentifier) (installBinarySnippet (openvpn_of exe) ovpnDst openvpnIdentifier).
  unfold buildInstallScript, ovpnSnippet.
  generalize (installBinarySnippet exe daemonBinary helperIdentifier) (installBinarySnippet (openvpn_of exe) ovpnDst openvpnIdentifier).
  intros a b. unfold render. cbn [fmap list_fmap part_text]. rewrite ?join_empty_cons. unfold join. cbn [String.concat].
  by rewrite ?string_app_nil_r, ?string_app_assoc.
Qed.

Lemma script_values exe b64 : values_bare (Bare true) (script_parts exe b64) = true /\ fst (read_parts (Bare true) (script_parts exe b64)) = Bare false.
Proof. split; vm_compute; reflexivity. Qed.

Lemma script_shape exe b64 exe' b64' : Forall2 same_shape (script_parts exe b64) (script_parts exe' b64').
Proof.
  unfold script_parts, binary_parts, install_cmds. cbn [mbind list_bind app cmd_parts verify_parts].
  repeat (apply List.Forall2_cons; [first [exact I|reflexivity]|]). constructor.
Qed.

(** ** The AppleScript literal *)

(** The string after its opening quote, and what follows the closing one. *)
Fixpoint as_literal (s : string) : option (string * string) :=
  match s with
  | EmptyString => None
  | String c s1 =>
      if bool_decide (c = dquote) then Some ("", s1)
      else if bool_decide (c = "\"%char) then
        match s1 with
        | String d s2 =>
            let escaped := if bool_decide (d = "n"%char) then Some newline
                           else if bool_decide (d = "r"%char) then Some carriage_return
                           else if bool_decide (d = "t"%char) then Some "009"%char
                           else if bool_decide (d = dquote) || bool_decide (d = "\"%char) then Some d else None in
            match escaped, as_literal s2 with
            | Some e, Some (v, rest) => Some (String e v, rest)
            | _, _ => None
            end
        | EmptyString => None
        end
      else match as_literal s1 with Some (v, rest) => Some (String c v, rest) | None => None end
  end.

Definition as_escape (s : string) : string := replace_byte dquote ("\" +:+ dq) (replace_byte "\" "\\" s).

Lemma as_escape_cons c s : as_escape (String c s)
  = (if bool_decide (c = "\"%char) then "\\" else if bool_decide (c = dquote) then "\" +:+ dq else String c "") +:+ as_escape s.
Proof.
  unfold as_escape at 1. cbn [replace_byte]. destruct (decide (c = "\"%char)) as [->|Hc].
  - rewrite !bool_decide_true by done. by rewrite replace_byte_app.
  - rewrite !(bool_decide_false (c = "\"%char)) by done. rewrite replace_byte_app. cbn [replace_byte].
    destruct (decide (c = dquote)) as [->|Hd]; [rewrite !bool_decide_true by done|rewrite !bool_decide_false by done];
      rewrite ?string_app_nil_r; done.
Qed.

Lemma as_literal_escape s rest : as_literal (as_escape s +:+ dq +:+ rest) = Some (s, rest).
Proof.
  induction s as [|c s IH]; [done|]. rewrite as_escape_cons, string_app_assoc.
  destruct (decide (c = "\"%char)) as [->|Hc]; [|destruct (decide (c = dquote)) as [->|Hd]].
  - rewrite bool_decide_true by done. rewrite !string_app_cons, string_app_nil. cbn [as_literal].
    by rewrite IH.
  - rewrite bool_decide_false, bool_decide_true by done. unfold dq at 1. rewrite !string_app_cons, string_app_nil.
    rewrite !string_app_cons, string_app_nil. cbn [as_literal]. by rewrite IH.
  - rewrite !bool_decide_false by done. rewrite string_app_cons, string_app_nil. cbn [as_literal].
    rewrite !bool_decide_false by done. by rewrite IH.
Qed.

(** C26: the commands root runs are fixed.  Whatever the path of the bundle and the text of the plist, the
    AppleScript hands exactly the script to the shell and nothing else to AppleScript, the shell reads the
    script as the intended commands with the path in literal words, and the characters it reads as syntax
    are the same for every path. *)
Theorem root_script_fixed (exe b64 exe' b64' : string) :
  let script := buildInstallScript exe b64 in
  (exists cmd, osascriptCmd script = "do shell script " +:+ dq +:+ cmd
     /\ as_literal cmd = Some (script, " with administrator privileges with prompt " +:+ dq +:+ install_prompt +:+ dq))
  /\ exists reading, lex (Bare true) script = (Bare false, reading)
     /\ reading = snd (read_parts (Bare true) (script_parts exe b64))
     /\ syntax reading = syntax (snd (lex (Bare true) (buildInstallScript exe' b64'))).
Proof.
  cbv zeta. split.
  - eexists. split; [reflexivity|]. apply as_literal_escape.
  - rewrite !script_render, !lex_render by apply script_values. exists (snd (read_parts (Bare true) (script_parts exe b64))).
    split; [|split; [done|]].
    + rewrite <- (proj2 (script_values exe b64)). by destruct (read_parts _ _).
    + apply (read_parts_syntax _ _ (script_shape exe b64 exe' b64') (Bare true)).
Qed.

(** ** What is in place *)

Section Verified.
Context {B : Type} (signed : string -> B -> bool) (bundle : nat -> string -> Source B).
Implicit Types d : gmap string (Binary B).

(** The disk after any number of commands: what the target and the temporary file can be. *)
Record safe_disk (dst identifier : string) (d0 d : gmap string (Binary B)) : Prop := {
  sd_dst : d !! dst = d0 !! dst \/ exists f, d !! dst = Some f /\ signed identifier (bn_content f) = true;
  sd_tmp : forall f, d !! (dst +:+ ".new") = Some f ->
    d0 !! (dst +:+ ".new") = Some f \/ bn_public f = false \/ signed identifier (bn_content f) = true;
  sd_rest : forall p, p <> dst -> p <> dst +:+ ".new" -> d !! p = d0 !! p
}.

Lemma new_ne dst : dst +:+ ".new" <> dst.
Proof. intros H. apply (f_equal String.length) in H. rewrite string_length_app in H. cbn in H. lia. Qed.

Lemma safe_refl dst identifier d : safe_disk dst identifier d d.
Proof. split; auto. Qed.

Lemma safe_delete dst identifier d0 d : safe_disk dst identifier d0 d -> safe_disk dst identifier d0 (delete (dst +:+ ".new") d).
Proof.
  pose proof (new_ne dst) as Hne. intros [H1 H2 H3]. split.
  - by rewrite lookup_delete_ne.
  - intros f. by rewrite lookup_delete_eq.
  - intros p Hp Hq. rewrite lookup_delete_ne by done. by apply H3.
Qed.

Lemma safe_insert dst identifier d0 d f : safe_disk dst identifier d0 d ->
  bn_public f = false \/ signed identifier (bn_content f) = true ->
  safe_disk dst identifier d0 (<[dst +:+ ".new" := f]> d).
Proof.
  pose proof (new_ne dst) as Hne. intros [H1 H2 H3] Hf. split.
  - by rewrite lookup_insert_ne.
  - intros g. rewrite lookup_insert_eq. intros [= <-]. by right.
  - intros p Hp Hq. rewrite lookup_insert_ne by done. by apply H3.
Qed.

Lemma safe_move dst identifier d0 d f : safe_disk dst identifier d0 d -> signed identifier (bn_content f) = true ->
  safe_disk dst identifier d0 (<[dst := f]> (delete (dst +:+ ".new") d)).
Proof.
  pose proof (new_ne dst) as Hne. intros [H1 H2 H3] Hf. split.
  - right. exists f. by rewrite lookup_insert_eq.
  - intros g. rewrite lookup_insert_ne, lookup_delete_eq by done. done.
  - intros p Hp Hq. rewrite lookup_insert_ne, lookup_delete_ne by done. by apply H3.
Qed.

(** The disks the commands go through. *)
Lemma install_run t src dst identifier d :
  let tmp := dst +:+ ".new" in
  cmds_run signed bundle t (install_cmds src dst identifier) d
  = match bundle t src with
    | SLink _ => [d]
    | _ => d :: delete tmp d ::
        match copied (bundle (S (S t)) src) with
        | None => [delete tmp d]
        | Some content =>
            let d2 := <[tmp := MkBinary content false]> d in
            d2 :: d2 :: d2 :: (if signed identifier content
                               then [d2; <[tmp := MkBinary content true]> d; <[dst := MkBinary content true]> (delete tmp d)]
                               else [delete tmp d])
        end
    end.
Proof.
  cbv zeta. unfold install_cmds. cbn [cmds_run cmd_run].
  destruct (bundle t src) as [|c|target]; [| |done]; cbn [cmds_run cmd_run]; do 2 f_equal;
    (destruct (copied (bundle (S (S t)) src)) as [content|]; [|done]); rewrite lookup_delete_eq, insert_delete_eq;
    rewrite lookup_insert_eq; f_equal; cbn [cmds_run cmd_run]; do 2 f_equal; rewrite lookup_insert_eq; cbn [bn_content];
    (destruct (signed identifier content); [cbn [cmds_run cmd_run]|by rewrite delete_insert_eq]);
    rewrite lookup_insert_eq; cbn [cmds_run cmd_run]; rewrite insert_insert_eq, lookup_insert_eq, delete_insert_eq; done.
Qed.

(** C25: nothing unverified is installed.  Whatever the user does to the bundle while the script runs (swaps
    the binary, makes it a link, after any check), and wherever the script stops or the machine crashes,
    the installed binary is the old one or one that codesign accepted for exactly this identifier; the
    copy is readable by root only until then; and no other file is touched. *)
Theorem install_verified (t : nat) (src dst identifier : string) (d d' : gmap string (Binary B)) :
  d' ∈ cmds_run signed bundle t (install_cmds src dst identifier) d -> safe_disk dst identifier d d'.
Proof.
  pose proof (safe_refl dst identifier d) as S0. rewrite install_run. cbv zeta.
  assert (S1 : safe_disk dst identifier d (delete (dst +:+ ".new") d)) by by apply safe_delete.
  destruct (bundle t src) as [|c0|target]; [| |by intros ->%list_elem_of_singleton];
    (destruct (copied (bundle (S (S t)) src)) as [content|]; [|rewrite !elem_of_cons; intros [->|[->|[->|[]%not_elem_of_nil]]]; done]);
    assert (S2 : safe_disk dst identifier d (<[dst +:+ ".new" := MkBinary content false]> d)) by (apply safe_insert; [done|by left]);
    (destruct (signed identifier content) eqn:E; rewrite !elem_of_cons, elem_of_nil; intros H; destruct_or? H; subst; try done);
    first [by apply safe_move|apply safe_insert; [done|by right]].
Qed.

(** A signed regular file that stays where it is gets installed, readable and executable. *)
Lemma install_honest t src dst identifier d content :
  (forall t, bundle t src = SFile content) -> signed identifier content = true ->
  last (cmds_run signed bundle t (install_cmds src dst identifier) d)
  = Some (<[dst := MkBinary content true]> (delete (dst +:+ ".new") d)).
Proof. intros Hb Hs. rewrite install_run, !Hb. cbn [copied]. by rewrite Hs. Qed.
End Verified.

(** The binary is swapped for a link to a secret between the test and the copy. *)
Definition swapped (t : nat) (_ : string) : Source string :=
  if (t <? 2)%nat then SFile "helper, signed" else SLink (Some "shadow passwords").

Definition our_signature (identifier content : string) : bool := content =s "helper, signed".

Definition old_install : gmap string (Binary string) := {[ daemonBinary := MkBinary "old helper, signed" true ]}.

Lemma install_verified_witness :
  safe_disk our_signature daemonBinary helperIdentifier old_install
    (<[daemonBinary +:+ ".new" := MkBinary "shadow passwords" false]> old_install).
Proof.
  apply (install_verified our_signature swapped 0 "/A.app/lockplus-helper").
  rewrite install_run. right. right. left.
Defined.
