(* ===== verification/Store.v ===== *)
(** * Tunnel files: internal/storage/tunnels.go and paths.go

    A directory maps the key under which the file system finds a name ([fold]: the name itself, or the
    name in lower case on a case-insensitive volume) to the name and the content.  Which accesses fail is
    an oracle.  A .meta.json file is kept decoded ([Json]).  The operations run under the store's lock, so
    each is one function. *)

From S2P Require Import Prelude GoStrings GoText GoNet Domain Config Validator Recovery.

(** ** Files *)

Record TunnelMeta := MkMeta { AutoReconnect : bool; Notes : string; tm_Protocol : Protocol }.

#[export] Instance eta_meta : Eta TunnelMeta := fun r => MkMeta (AutoReconnect r) (Notes r) (tm_Protocol r).

Definition zero_meta : TunnelMeta := MkMeta false "" "".

Inductive Content := Text (s : string) | Json (m : TunnelMeta).

Record File := MkFile { fl_name : string; fl_content : Content }.

Abbreviation Dir := (gmap string File).

(** An access to the disk, for the oracle. *)
Inductive Access := AWrite (file : string) | ARead (file : string) | ARemove (file : string) | ARename (file file' : string) | AList.

Inductive FsError := NotExist | IoError.

Inductive StoreError :=
| SEName (e : NameError) | SEFs (e : FsError) | SEParse | SEInvalid | SEEscapes | SENotThere | SEThere | SENoConfig.

Section Fs.
Context (fold : string -> string) (io : Access -> bool).

Definition fs_exists (d : Dir) (f : string) : bool := bool_decide (is_Some (d !! fold f)).

Definition fs_read (d : Dir) (f : string) : result FsError Content :=
  match d !! fold f with
  | None => Err NotExist
  | Some e => if io (ARead f) then Ok (fl_content e) else Err IoError
  end.

(** storage.WriteFileAtomic: the new content entirely, or nothing. *)
Definition fs_write (d : Dir) (f : string) (c : Content) : result FsError Dir :=
  if io (AWrite f) then Ok (<[fold f := MkFile f c]> d) else Err IoError.

Definition fs_remove (d : Dir) (f : string) : result FsError Dir :=
  match d !! fold f with
  | None => Err NotExist
  | Some _ => if io (ARemove f) then Ok (delete (fold f) d) else Err IoError
  end.

Definition fs_rename (d : Dir) (f f' : string) : result FsError Dir :=
  match d !! fold f with
  | None => Err NotExist
  | Some e => if io (ARename f f') then Ok (<[fold f' := MkFile f' (fl_content e)]> (delete (fold f) d)) else Err IoError
  end.

(** What is left when the result is ignored. *)
Definition best_effort (d : Dir) (r : result FsError Dir) : Dir := match r with Ok d' => d' | Err _ => d end.

(** os.SameFile: no hard links. *)
Definition same_file (d : Dir) (f f' : string) : bool := fs_exists d f && fs_exists d f' && (fold f =s fold f').

(** ** The store *)

Definition path (name : string) : string := name +:+ ".conf".
Definition ovpnPath (name : string) : string := name +:+ ".ovpn".
Definition metaPath (name : string) : string := name +:+ ".meta.json".

Definition check_name (name : string) : result StoreError unit :=
  match ValidateTunnelName name with Some e => Err (SEName e) | None => Ok tt end.

Definition Save (d : Dir) (cfg : WireGuardConfig) : result StoreError Dir :=
  let? _ := check_name (Name cfg) in
  map_err SEFs (fs_write d (path (Name cfg)) (Text (Serialize cfg))).

Definition Load (d : Dir) (name : string) : result StoreError WireGuardConfig :=
  let? _ := check_name name in
  let? c := map_err SEFs (fs_read d (path name)) in
  match c with
  | Text s => match Parse s with Ok cfg => Ok (cfg <| Name := name |>) | Err _ => Err SEParse end
  | Json _ => Err SEParse
  end.

Definition SaveOVPN (d : Dir) (name content : string) : result StoreError Dir :=
  let? _ := check_name name in
  map_err SEFs (fs_write d (ovpnPath name) (Text content)).

Definition LoadOVPN (d : Dir) (name : string) : result StoreError string :=
  let? _ := check_name name in
  let? c := map_err SEFs (fs_read d (ovpnPath name)) in
  match c with Text s => Ok s | Json _ => Err SEParse end.

Definition IsOVPN (d : Dir) (name : string) : bool := fs_exists d (ovpnPath name).

Definition exists_ (d : Dir) (name : string) : bool := fs_exists d (path name) || fs_exists d (ovpnPath name).

Definition Exists (d : Dir) (name : string) : bool :=
  match ValidateTunnelName name with Some _ => false | None => exists_ d name end.

(** The new directory, and the error that is returned after whatever was done. *)
Definition Delete (d : Dir) (name : string) : Dir * option StoreError :=
  match ValidateTunnelName name with
  | Some e => (d, Some (SEName e))
  | None =>
      let '(d1, err) :=
        match fs_remove d (path name) with
        | Err NotExist => match fs_remove d (ovpnPath name) with Ok d1 => (d1, None) | Err e => (d, Some (SEFs e)) end
        | r => let d0 := best_effort d r in
               (best_effort d0 (fs_remove d0 (ovpnPath name)), match r with Ok _ => None | Err e => Some (SEFs e) end)
        end in
      (best_effort d1 (fs_remove d1 (metaPath name)), err)
  end.

Definition sameTunnel (d : Dir) (a b : string) : bool :=
  (ascii_lower a =s ascii_lower b) && (same_file d (path a) (path b) || same_file d (ovpnPath a) (ovpnPath b)).

Definition escapes (name : string) : bool :=
  (name =s "") || (name =s ".") || (name =s "..") || contains_byte "/" name || contains_byte nul name.

Definition Rename (d : Dir) (oldName newName : string) : Dir * option StoreError :=
  match ValidateTunnelName newName with
  | Some e => (d, Some (SEName e))
  | None =>
      if oldName =s newName then (d, None)
      else if escapes oldName then (d, Some SEEscapes)
      else if negb (exists_ d oldName) then (d, Some SENotThere)
      else if exists_ d newName && negb (sameTunnel d oldName newName) then (d, Some SEThere)
      else
        let ovpnExists := fs_exists d (ovpnPath oldName) in
        let confExists := fs_exists d (path oldName) in
        if negb ovpnExists && negb confExists then (d, Some SENoConfig)
        else match (if ovpnExists then fs_rename d (ovpnPath oldName) (ovpnPath newName) else Ok d) with
             | Err e => (d, Some (SEFs e))
             | Ok d1 =>
                 match (if confExists then fs_rename d1 (path oldName) (path newName) else Ok d1) with
                 | Err e => (d1, Some (SEFs e))
                 | Ok d2 => (best_effort d2 (fs_rename d2 (metaPath oldName) (metaPath newName)), None)
                 end
             end
  end.

(** The name of the tunnel a file belongs to. *)
Definition tunnel_base (file : string) : option string :=
  if has_suffix ".conf" file then Some (string_take (String.length file - 5) file)
  else if has_suffix ".ovpn" file then Some (string_take (String.length file - 5) file)
  else None.

(** os.ReadDir lists by file name; the first of each base name. *)
Definition add_base (names : list string) (file : string) : list string :=
  match tunnel_base file with
  | Some b => if bool_decide (b ∈ names) then names else names ++ [b]
  | None => names
  end.

Definition List_ (d : Dir) : result StoreError (list string) :=
  if io AList then Ok (foldl add_base [] (sort_strings (fl_name <$> (snd <$> map_to_list d)))) else Err (SEFs IoError).

Definition LoadMeta (d : Dir) (name : string) : result StoreError TunnelMeta :=
  let? m := match fs_read d (metaPath name) with
            | Ok (Json m) => Ok m
            | Ok (Text _) => Ok zero_meta
            | Err NotExist => Ok zero_meta
            | Err e => Err (SEFs e)
            end in
  let m := m <| tm_Protocol ::= NormalizeProtocol |> in
  Ok (if IsOVPN d name then m <| tm_Protocol := ProtocolOpenVPN |> else m).

Definition SaveMeta (d : Dir) (name : string) (m : TunnelMeta) : result StoreError Dir :=
  let? _ := check_name name in
  map_err SEFs (fs_write d (metaPath name) (Json m)).

Definition ImportFromContent (d : Dir) (name content : string) : result StoreError (WireGuardConfig * Dir) :=
  match Parse content with
  | Err _ => Err SEParse
  | Ok cfg =>
      let cfg := cfg <| Name := name |> in
      if negb (IsValid (Validate cfg)) then Err SEInvalid
      else let? d' := Save d cfg in Ok (cfg, d')
  end.
End Fs.

(** ** paths.go: tunnels of the older application

    [legacy]: the regular files of the old directory, [None] for one that cannot be read; [fails]: the files
    that cannot be created; [stop]: the process dies after that many files, with what it had written of
    the next one. *)

Definition migratedMarker : string := ".legacy-migrated".

Definition migrates (name : string) : bool := negb (has_suffix ".tmp" name) && negb (has_prefix "." name).

Definition migrate_file (fold : string -> string) (fails : string -> bool) (st : Dir * bool) (f : string * option Content) : Dir * bool :=
  let '(d, clean) := st in
  let '(name, content) := f in
  if negb (migrates name) then st
  else if fs_exists fold d name then st
  else match content with
       | None => (d, false)
       | Some c => if fails name then (d, false) else (<[fold name := MkFile name c]> d, clean)
       end.

Definition migrateTunnels (fold : string -> string) (fails : string -> bool) (stop : option (nat * Content))
    (legacy : list (string * option Content)) (d : Dir) : Dir :=
  if fs_exists fold d migratedMarker then d
  else match stop with
       | Some (n, partial) =>
           let st := foldl (migrate_file fold fails) (d, true) (take n legacy) in
           match legacy !! n with
           | Some (name, Some _) => fst (migrate_file fold fails st (name, Some partial))
           | _ => fst st
           end
       | None =>
           let '(d', clean) := foldl (migrate_file fold fails) (d, true) legacy in
           if clean then <[fold migratedMarker := MkFile migratedMarker (Text "")]> d' else d'
       end.
