(* ===== verification/StoreFacts.v ===== *)
(** * The store as a map from names to tunnels

    [store_refines]: each operation of the store does to the tunnels, as the file system tells them apart,
    what its specification does to an abstract map, and nothing to any other tunnel.  [import_load]: an
    imported configuration is loaded back as it was accepted. *)

From S2P Require Import Prelude GoStrings GoText GoNet Domain Config ConfigRoundtrip Validator ValidatorFacts Recovery Store.

(** ** File systems that tell names apart by case or do not *)

Class Folding (fold : string -> string) : Prop := {
  fold_app s t : fold (s +:+ t) = fold s +:+ fold t;
  fold_suffix s : s ∈ [".conf"; ".ovpn"; ".meta.json"; migratedMarker] -> fold s = s;
  fold_case s t : fold s = fold t -> ascii_lower s = ascii_lower t
}.

#[export] Instance folding_id : Folding id.
Proof. split; [done|done|]. intros s t H. unfold id in H. by subst. Qed.

#[export] Instance folding_case : Folding ascii_lower.
Proof.
  split; [|intros s H; repeat (apply elem_of_cons in H as [->|H]; [reflexivity|]); by apply elem_of_nil in H|done].
  intros s t. induction s as [|c s IH]; [done|]. rewrite !string_app_cons. cbn [ascii_lower]. by rewrite IH, string_app_cons.
Qed.

(** ** Abstract tunnels *)

Record Tunnel := MkTunnel { tn_conf : option Content; tn_ovpn : option Content; tn_meta : option Content }.

#[export] Instance eta_tunnel : Eta Tunnel := fun r => MkTunnel (tn_conf r) (tn_ovpn r) (tn_meta r).

(** A tunnel is there when it has a configuration file. *)
Definition present (t : Tunnel) : bool := bool_decide (is_Some (tn_conf t)) || bool_decide (is_Some (tn_ovpn t)).

Definition Tunnels := string -> Tunnel.

Definition upd (k : string) (f : Tunnel -> Tunnel) (m : Tunnels) : Tunnels := fun j => if j =s k then f (m j) else m j.

(** The meta file of a renamed tunnel, [moved] when its own could be renamed. *)
Definition spec_rename (a b : string) (moved : bool) (m : Tunnels) : Tunnels := fun j =>
  if a =s b then m j
  else if j =s b then MkTunnel (tn_conf (m a)) (tn_ovpn (m a)) (if moved then tn_meta (m a) else tn_meta (m b))
  else if j =s a then MkTunnel None None (if moved then None else tn_meta (m a))
  else m j.

Section Store.
Context (fold : string -> string) (io : Access -> bool).

Definition content_at (d : Dir) (key : string) : option Content := fl_content <$> d !! key.

(** The tunnel of a folded name. *)
Definition tunnels (d : Dir) : Tunnels := fun k =>
  MkTunnel (content_at d (k +:+ ".conf")) (content_at d (k +:+ ".ovpn")) (content_at d (k +:+ ".meta.json")).

Context `{Hf : !Folding fold}.

Lemma suffix_ne (s t x y : string) : (String.length y <= String.length x)%nat ->
  string_drop (String.length x - String.length y) x <> y -> s +:+ x <> t +:+ y.
Proof.
  intros Hl Hne H. apply Hne. apply bytes_of_inj.
  assert (Hlen : forall u, String.length u = length (bytes_of u)) by (intros u; induction u as [|c u IH]; [done|cbn; by rewrite IH]).
  assert (Hd : forall n u, bytes_of (string_drop n u) = drop n (bytes_of u)).
  { intros n u. revert n. induction u as [|c u IH]; intros [|n]; [done..|]. cbn. apply IH. }
  rewrite Hd, !Hlen in *. apply (f_equal bytes_of) in H. rewrite !bytes_of_app in H.
  pose proof (f_equal length H) as El. rewrite !length_app in El.
  apply (f_equal (drop (length (bytes_of t)))) in H. rewrite drop_app_length, drop_app_ge in H by lia.
  etransitivity; [|exact H]. f_equal. lia.
Qed.

Lemma fold_path n : fold (path n) = fold n +:+ ".conf".
Proof. unfold path. rewrite fold_app. f_equal. apply fold_suffix. by left. Qed.
Lemma fold_ovpnPath n : fold (ovpnPath n) = fold n +:+ ".ovpn".
Proof. unfold ovpnPath. rewrite fold_app. f_equal. apply fold_suffix. right. by left. Qed.
Lemma fold_metaPath n : fold (metaPath n) = fold n +:+ ".meta.json".
Proof. unfold metaPath. rewrite fold_app. f_equal. apply fold_suffix. right. right. by left. Qed.

Lemma conf_ovpn s t : s +:+ ".conf" <> t +:+ ".ovpn". Proof. apply suffix_ne; [cbn; lia|done]. Qed.
Lemma meta_conf s t : s +:+ ".meta.json" <> t +:+ ".conf". Proof. apply suffix_ne; [cbn; lia|done]. Qed.
Lemma meta_ovpn s t : s +:+ ".meta.json" <> t +:+ ".ovpn". Proof. apply suffix_ne; [cbn; lia|done]. Qed.

(** ** Changing one file changes one field of one tunnel *)

Lemma at_insert d k e j : content_at (<[k := e]> d) j = if j =s k then Some (fl_content e) else content_at d j.
Proof.
  unfold content_at. case_bool_decide as E; [by rewrite E, lookup_insert_eq|]. by rewrite lookup_insert_ne by congruence.
Qed.

Lemma at_delete d k j : content_at (delete k d) j = if j =s k then None else content_at d j.
Proof.
  unfold content_at. case_bool_decide as E; [by rewrite E, lookup_delete_eq|]. by rewrite lookup_delete_ne by congruence.
Qed.

(** One field of one tunnel. *)
Definition set_file (f : string) (k : string) (c : option Content) : Tunnels -> Tunnels :=
  upd k (fun t => if f =s ".conf" then t <| tn_conf := c |> else if f =s ".ovpn" then t <| tn_ovpn := c |> else t <| tn_meta := c |>).

Lemma set_file_ext f k c m m' j : (forall i, m i = m' i) -> set_file f k c m j = set_file f k c m' j.
Proof. intros H. unfold set_file, upd. by rewrite H. Qed.

Lemma suffix_eq f g s t : f ∈ [".conf"; ".ovpn"; ".meta.json"] -> g ∈ [".conf"; ".ovpn"; ".meta.json"] ->
  bool_decide (s +:+ f = t +:+ g) = bool_decide (s = t) && bool_decide (f = g).
Proof.
  intros Hf1 Hg. apply eq_true_iff_eq. rewrite andb_true_iff, !bool_decide_eq_true. split; [|by intros [-> ->]].
  repeat (apply elem_of_cons in Hf1 as [->|Hf1]; [|try by apply elem_of_nil in Hf1]);
    repeat (apply elem_of_cons in Hg as [->|Hg]; [|try by apply elem_of_nil in Hg]); intros H;
    first [by apply string_app_inj_r in H|by apply conf_ovpn in H|by apply meta_conf in H|by apply meta_ovpn in H
          |symmetry in H; first [by apply conf_ovpn in H|by apply meta_conf in H|by apply meta_ovpn in H]].
Qed.

Lemma tunnels_set f k c d d' : f ∈ [".conf"; ".ovpn"; ".meta.json"] ->
  (forall j, content_at d' j = if j =s k +:+ f then c else content_at d j) ->
  forall j, tunnels d' j = set_file f k c (tunnels d) j.
Proof.
  intros Hf1 H j. unfold tunnels at 1. rewrite !H, !suffix_eq by (done || (rewrite !elem_of_cons; tauto)).
  unfold set_file, upd. destruct (decide (j = k)) as [->|Hjk].
  - rewrite !(bool_decide_true (k = k)) by done. cbn [andb].
    repeat (apply elem_of_cons in Hf1 as [->|Hf1]; [done|]). by apply elem_of_nil in Hf1.
  - rewrite !(bool_decide_false (j = k)) by done. done.
Qed.

Lemma write_spec d d' n f c : f ∈ [".conf"; ".ovpn"; ".meta.json"] -> fold (n +:+ f) = fold n +:+ f ->
  fs_write fold io d (n +:+ f) c = Ok d' -> forall j, tunnels d' j = set_file f (fold n) (Some c) (tunnels d) j.
Proof.
  intros Hf1 Hn. unfold fs_write. destruct (io _); [|done]. intros [= <-]. apply tunnels_set; [done|].
  intros j. rewrite at_insert, Hn. done.
Qed.

Lemma remove_spec d d' n f : f ∈ [".conf"; ".ovpn"; ".meta.json"] -> fold (n +:+ f) = fold n +:+ f ->
  fs_remove fold io d (n +:+ f) = Ok d' -> forall j, tunnels d' j = set_file f (fold n) None (tunnels d) j.
Proof.
  intros Hf1 Hn. unfold fs_remove. destruct (_ !! _); [|done]. destruct (io _); [|done]. intros [= <-].
  apply tunnels_set; [done|]. intros j. by rewrite at_delete, Hn.
Qed.

Lemma rename_spec d d' a b f : f ∈ [".conf"; ".ovpn"; ".meta.json"] -> fold (a +:+ f) = fold a +:+ f -> fold (b +:+ f) = fold b +:+ f ->
  fs_rename fold io d (a +:+ f) (b +:+ f) = Ok d' ->
  exists c, content_at d (fold a +:+ f) = Some c
    /\ forall j, tunnels d' j = set_file f (fold b) (Some c) (set_file f (fold a) None (tunnels d)) j.
Proof.
  intros Hf1 Ha Hb. unfold fs_rename. rewrite Ha, Hb. destruct (_ !! _) as [e|] eqn:E; [|done]. destruct (io _); [|done]. intros [= <-].
  exists (fl_content e). split; [unfold content_at; by rewrite E|]. intros j.
  rewrite (tunnels_set f (fold b) (Some (fl_content e)) (delete (fold a +:+ f) d)); [|done|].
  - apply set_file_ext. apply tunnels_set; [done|]. intros i. apply at_delete.
  - intros i. by rewrite at_insert.
Qed.

(** ** Operations and their specification *)

Inductive Op :=
| OpSave (cfg : WireGuardConfig) | OpSaveOVPN (name content : string) | OpSaveMeta (name : string) (m : TunnelMeta)
| OpDelete (name : string) | OpRename (oldName newName : string).

Definition result_dir (d : Dir) (r : result StoreError Dir) : Dir * option StoreError :=
  match r with Ok d' => (d', None) | Err e => (d, Some e) end.

Definition exec (op : Op) (d : Dir) : Dir * option StoreError :=
  match op with
  | OpSave cfg => result_dir d (Save fold io d cfg)
  | OpSaveOVPN n c => result_dir d (SaveOVPN fold io d n c)
  | OpSaveMeta n m => result_dir d (SaveMeta fold io d n m)
  | OpDelete n => Delete fold io d n
  | OpRename a b => Rename fold io d a b
  end.

Definition spec_write (name suffix : string) (c : Content) (m : Tunnels) : Tunnels * option StoreError :=
  match ValidateTunnelName name with
  | Some e => (m, Some (SEName e))
  | None => (set_file suffix (fold name) (Some c) m, None)
  end.

(** What each does to the tunnels when no access fails. *)
Definition spec_exec (op : Op) (m : Tunnels) : Tunnels * option StoreError :=
  match op with
  | OpSave cfg => spec_write (Name cfg) ".conf" (Text (Serialize cfg)) m
  | OpSaveOVPN n c => spec_write n ".ovpn" (Text c) m
  | OpSaveMeta n x => spec_write n ".meta.json" (Json x) m
  | OpDelete n =>
      match ValidateTunnelName n with
      | Some e => (m, Some (SEName e))
      | None => (upd (fold n) (fun _ => MkTunnel None None None) m,
                 if present (m (fold n)) then None else Some (SEFs NotExist))
      end
  | OpRename a b =>
      match ValidateTunnelName b with
      | Some e => (m, Some (SEName e))
      | None =>
          if a =s b then (m, None)
          else if escapes a then (m, Some SEEscapes)
          else if negb (present (m (fold a))) then (m, Some SENotThere)
          else if present (m (fold b)) && negb (fold a =s fold b) then (m, Some SEThere)
          else (spec_rename (fold a) (fold b) (bool_decide (is_Some (tn_meta (m (fold a))))) m, None)
      end
  end.

Lemma exists_conf d n : fs_exists fold d (path n) = bool_decide (is_Some (tn_conf (tunnels d (fold n)))).
Proof. unfold fs_exists. rewrite fold_path. cbn. unfold content_at. apply bool_decide_ext. by rewrite fmap_is_Some. Qed.
Lemma exists_ovpn d n : fs_exists fold d (ovpnPath n) = bool_decide (is_Some (tn_ovpn (tunnels d (fold n)))).
Proof. unfold fs_exists. rewrite fold_ovpnPath. cbn. unfold content_at. apply bool_decide_ext. by rewrite fmap_is_Some. Qed.

Lemma exists_present d n : exists_ fold d n = present (tunnels d (fold n)).
Proof. unfold exists_, present. by rewrite exists_conf, exists_ovpn. Qed.

Lemma sameTunnel_fold d a b : exists_ fold d a = true -> sameTunnel fold d a b = (fold a =s fold b).
Proof.
  intros He. unfold sameTunnel, same_file. rewrite !exists_conf, !exists_ovpn, !fold_path, !fold_ovpnPath.
  destruct (decide (fold a = fold b)) as [Hab|Hab].
  - rewrite <- Hab, (bool_decide_true (ascii_lower a = ascii_lower b)) by (by apply fold_case).
    rewrite !(bool_decide_true (_ +:+ _ = _ +:+ _)), (bool_decide_true (fold a = fold a)) by done.
    rewrite exists_present in He. unfold present in He.
    by destruct (bool_decide (is_Some (tn_conf _))), (bool_decide (is_Some (tn_ovpn _))).
  - rewrite !(bool_decide_false (fold a = fold b)) by done.
    rewrite !(bool_decide_false (_ +:+ _ = _ +:+ _)) by (intros H; by apply string_app_inj_r in H). rewrite !andb_false_r. done.
Qed.

Lemma conf_suffix : ".conf" ∈ [".conf"; ".ovpn"; ".meta.json"]. Proof. by left. Qed.
Lemma ovpn_suffix : ".ovpn" ∈ [".conf"; ".ovpn"; ".meta.json"]. Proof. right. by left. Qed.
Lemma meta_suffix : ".meta.json" ∈ [".conf"; ".ovpn"; ".meta.json"]. Proof. right. right. by left. Qed.

Lemma write_refines d name suffix c : suffix ∈ [".conf"; ".ovpn"; ".meta.json"] -> fold (name +:+ suffix) = fold name +:+ suffix ->
  (forall a, io a = true) ->
  let '(d', err) := result_dir d (let? _ := check_name name in map_err SEFs (fs_write fold io d (name +:+ suffix) c)) in
  (forall j, tunnels d' j = fst (spec_write name suffix c (tunnels d)) j) /\ err = snd (spec_write name suffix c (tunnels d)).
Proof.
  intros Hs Hn Hio. unfold check_name, spec_write. destruct (ValidateTunnelName name); [done|]. cbn [result_bind].
  destruct (fs_write fold io d (name +:+ suffix) c) as [d'|] eqn:E.
  - cbn. split; [|done]. by eapply write_spec.
  - unfold fs_write in E. by rewrite Hio in E.
Qed.

Lemma remove_ok d f : (forall a, io a = true) ->
  fs_remove fold io d f = if fs_exists fold d f then Ok (delete (fold f) d) else Err NotExist.
Proof.
  intros Hio. unfold fs_remove, fs_exists. destruct (d !! fold f); [by rewrite Hio, bool_decide_true|].
  by rewrite bool_decide_false by (by intros [? ?]).
Qed.

Lemma rename_ok d a b e : (forall x, io x = true) -> d !! fold a = Some e ->
  fs_rename fold io d a b = Ok (<[fold b := MkFile b (fl_content e)]> (delete (fold a) d)).
Proof. intros Hio He. unfold fs_rename. by rewrite He, Hio. Qed.

(** Deleting a file that may be missing. *)
Lemma discard_spec d n f : f ∈ [".conf"; ".ovpn"; ".meta.json"] -> fold (n +:+ f) = fold n +:+ f -> (forall a, io a = true) ->
  forall j, tunnels (best_effort d (fs_remove fold io d (n +:+ f))) j = set_file f (fold n) None (tunnels d) j.
Proof.
  intros Hf1 Hn Hio j. destruct (fs_remove fold io d (n +:+ f)) as [d'|e] eqn:E; [by eapply remove_spec|].
  cbn [best_effort]. rewrite remove_ok in E by done. unfold fs_exists in E. rewrite Hn in E.
  destruct (d !! _) eqn:El; [by rewrite bool_decide_true in E by eauto|]. apply tunnels_set; [done|]. intros i.
  clear E. case_bool_decide as Hi; [|done]. subst. unfold content_at. by rewrite El.
Qed.

Lemma set_all k m j :
  set_file ".meta.json" k None (set_file ".ovpn" k None (set_file ".conf" k None m)) j = upd k (fun _ => MkTunnel None None None) m j.
Proof. unfold set_file, upd. by destruct (bool_decide (j = k)). Qed.

Lemma delete_refines d n : (forall a, io a = true) ->
  let '(d', err) := Delete fold io d n in
  (forall j, tunnels d' j = fst (spec_exec (OpDelete n) (tunnels d)) j) /\ err = snd (spec_exec (OpDelete n) (tunnels d)).
Proof.
  intros Hio. unfold Delete. cbn [spec_exec]. destruct (ValidateTunnelName n); [done|]. cbn [fst snd].
  rewrite <- exists_present. unfold exists_.
  assert (Hgone : forall d1, (forall j, tunnels d1 j = set_file ".ovpn" (fold n) None (set_file ".conf" (fold n) None (tunnels d)) j) ->
    forall j, tunnels (best_effort d1 (fs_remove fold io d1 (metaPath n))) j = upd (fold n) (fun _ => MkTunnel None None None) (tunnels d) j).
  { intros d1 H j. rewrite <- set_all. unfold metaPath. rewrite discard_spec by (apply meta_suffix || apply fold_metaPath || done).
    by apply set_file_ext. }
  assert (Hconf : forall j, tunnels (best_effort d (fs_remove fold io d (path n))) j = set_file ".conf" (fold n) None (tunnels d) j).
  { apply discard_spec; [apply conf_suffix|apply fold_path|done]. }
  assert (Hovpn : forall d0 j, tunnels (best_effort d0 (fs_remove fold io d0 (ovpnPath n))) j = set_file ".ovpn" (fold n) None (tunnels d0) j).
  { intros d0. apply discard_spec; [apply ovpn_suffix|apply fold_ovpnPath|done]. }
  revert Hconf. rewrite (remove_ok d (path n)) by done. destruct (fs_exists fold d (path n)); cbn [best_effort]; intros Hconf.
  - split; [|done]. apply Hgone. intros j. rewrite Hovpn. by apply set_file_ext.
  - specialize (Hovpn d). revert Hovpn. rewrite (remove_ok d (ovpnPath n)) by done.
    destruct (fs_exists fold d (ovpnPath n)); cbn [best_effort orb]; intros Hovpn; (split; [|done]); apply Hgone;
      intros j; rewrite Hovpn; by apply set_file_ext.
Qed.

Definition get_file (f : string) (t : Tunnel) : option Content :=
  if f =s ".conf" then tn_conf t else if f =s ".ovpn" then tn_ovpn t else tn_meta t.

Definition spec_move (f a b : string) (m : Tunnels) : Tunnels :=
  match get_file f (m a) with Some c => set_file f b (Some c) (set_file f a None m) | None => m end.

Lemma spec_move_ext f a b m m' j : (forall i, m i = m' i) -> spec_move f a b m j = spec_move f a b m' j.
Proof. intros H. unfold spec_move. rewrite H. destruct (get_file f (m' a)); [|apply H]. by do 2 (apply set_file_ext; intros). Qed.

Lemma get_content f d k : f ∈ [".conf"; ".ovpn"; ".meta.json"] -> get_file f (tunnels d k) = content_at d (k +:+ f).
Proof. intros H. repeat (apply elem_of_cons in H as [->|H]; [done|]). by apply elem_of_nil in H. Qed.

(** Moving a file if it is there. *)
Lemma move_ok f d a b : f ∈ [".conf"; ".ovpn"; ".meta.json"] -> (forall n, fold (n +:+ f) = fold n +:+ f) -> (forall x, io x = true) ->
  exists d1, (if fs_exists fold d (a +:+ f) then fs_rename fold io d (a +:+ f) (b +:+ f) else Ok d) = Ok d1
    /\ best_effort d (fs_rename fold io d (a +:+ f) (b +:+ f)) = d1
    /\ forall j, tunnels d1 j = spec_move f (fold a) (fold b) (tunnels d) j.
Proof.
  intros Hs Hn Hio. unfold fs_exists. destruct (d !! fold (a +:+ f)) as [e|] eqn:E.
  - rewrite bool_decide_true by eauto. rewrite (rename_ok d _ _ e) by done. eexists. split; [done|]. split; [done|].
    destruct (rename_spec d _ a b f Hs (Hn a) (Hn b) (rename_ok d _ _ e Hio E)) as (c & Hc & Hj). intros j. rewrite Hj. unfold spec_move. by rewrite get_content, Hc.
  - rewrite bool_decide_false by (by intros [? ?]). exists d. unfold fs_rename. rewrite E. split; [done|]. split; [done|].
    intros j. unfold spec_move. rewrite get_content by done. unfold content_at. by rewrite <- Hn, E.
Qed.

Lemma get_put f g k c m j : f ∈ [".conf"; ".ovpn"; ".meta.json"] -> g ∈ [".conf"; ".ovpn"; ".meta.json"] ->
  get_file g (set_file f k c m j) = if (j =s k) && (f =s g) then c else get_file g (m j).
Proof.
  intros Hs Hg. unfold set_file, upd. destruct (bool_decide (j = k)); [|done].
  repeat (apply elem_of_cons in Hs as [->|Hs]; [|try by apply elem_of_nil in Hs]);
    repeat (apply elem_of_cons in Hg as [->|Hg]; [reflexivity|try by apply elem_of_nil in Hg]).
Qed.

Lemma get_move f g a b m j : f ∈ [".conf"; ".ovpn"; ".meta.json"] -> g ∈ [".conf"; ".ovpn"; ".meta.json"] ->
  get_file g (spec_move f a b m j)
  = if f =s g then match get_file f (m a) with
                   | Some c => if j =s b then Some c else if j =s a then None else get_file g (m j)
                   | None => get_file g (m j)
                   end
    else get_file g (m j).
Proof.
  intros Hs Hg. unfold spec_move. destruct (get_file f (m a)) as [c|]; [|by destruct (bool_decide (f = g))].
  rewrite !get_put by done. by destruct (bool_decide (f = g)), (bool_decide (j = b)), (bool_decide (j = a)).
Qed.

Lemma tunnel_ext t t' : (forall g, g ∈ [".conf"; ".ovpn"; ".meta.json"] -> get_file g t = get_file g t') -> t = t'.
Proof.
  intros H. pose proof (H _ conf_suffix) as H1. pose proof (H _ ovpn_suffix) as H2. pose proof (H _ meta_suffix) as H3.
  change (tn_conf t = tn_conf t') in H1. change (tn_ovpn t = tn_ovpn t') in H2. change (tn_meta t = tn_meta t') in H3.
  destruct t, t'. cbn in *. by subst.
Qed.

Lemma moves_rename a b m j : (a <> b -> present (m b) = false) ->
  spec_move ".meta.json" a b (spec_move ".conf" a b (spec_move ".ovpn" a b m)) j
  = spec_rename a b (bool_decide (is_Some (tn_meta (m a)))) m j.
Proof.
  intros Hb. apply tunnel_ext. intros g Hg. pose proof conf_suffix. pose proof ovpn_suffix. pose proof meta_suffix.
  rewrite !get_move by done. unfold spec_rename.
  assert (Hna : forall x, a <> b -> x ∈ [".conf"; ".ovpn"] -> get_file x (m b) = None).
  { intros x Hab%Hb Hx. unfold present in Hab. apply orb_false_iff in Hab as [H4 H5].
    apply bool_decide_eq_false, eq_None_not_Some in H4. apply bool_decide_eq_false, eq_None_not_Some in H5.
    repeat (apply elem_of_cons in Hx as [->|Hx]; [done|]). by apply elem_of_nil in Hx. }
  repeat (apply elem_of_cons in Hg as [->|Hg]; [|try by apply elem_of_nil in Hg]).
  all: repeat match goal with
         | |- context [bool_decide (String ?x ?s = String ?y ?t)] =>
             let r := eval vm_compute in (bool_decide (String x s = String y t)) in
             change (bool_decide (String x s = String y t)) with r; cbv beta iota
         end.
  all: destruct (decide (a = b)) as [<-|Hab].
  1,3,5: rewrite ?(bool_decide_true (a = a)) by done; destruct (decide (j = a)) as [->|Hja];
    [rewrite ?(bool_decide_true (a = a)) by done|rewrite ?(bool_decide_false (j = a)) by done];
    match goal with |- match ?x with _ => _ end = _ => destruct x eqn:?; congruence end.
  all: rewrite ?(bool_decide_false (a = b)) by done; destruct (decide (j = b)) as [->|Hjb];
    [rewrite ?(bool_decide_true (b = b)) by done|rewrite ?(bool_decide_false (j = b)) by done;
     destruct (decide (j = a)) as [->|Hja];
     [rewrite ?(bool_decide_true (a = a)) by done|rewrite ?(bool_decide_false (j = a)) by done]].
  all: try (match goal with |- match ?x with _ => _ end = _ => destruct x eqn:E end; cbn; try done; cbn in E).
  1,2: rewrite (Hna _ Hab) by (rewrite !elem_of_cons; tauto); symmetry; exact E.
  all: change (get_file ".meta.json" (m a)) with (tn_meta (m a)) in E; by rewrite E.
Qed.

Lemma rename_refines d a b : (forall x, io x = true) ->
  let '(d', err) := Rename fold io d a b in
  (forall j, tunnels d' j = fst (spec_exec (OpRename a b) (tunnels d)) j) /\ err = snd (spec_exec (OpRename a b) (tunnels d)).
Proof.
  intros Hio. unfold Rename. cbn [spec_exec]. destruct (ValidateTunnelName b); [done|].
  case_bool_decide; [done|]. destruct (escapes a); [done|]. rewrite !exists_present.
  destruct (present (tunnels d (fold a))) eqn:Ha; [|done]. cbn [negb].
  rewrite sameTunnel_fold by (by rewrite exists_present).
  destruct (present (tunnels d (fold b)) && negb (fold a =s fold b)) eqn:Hb; [done|].
  rewrite exists_conf, exists_ovpn. unfold present in Ha. rewrite <- negb_orb, orb_comm, Ha. cbn [negb].
  rewrite <- exists_conf, <- exists_ovpn.
  destruct (move_ok ".ovpn" d a b ovpn_suffix fold_ovpnPath Hio) as (d1 & E1 & _ & H1).
  change (a +:+ ".ovpn") with (ovpnPath a) in *. change (b +:+ ".ovpn") with (ovpnPath b) in *. rewrite E1.
  destruct (move_ok ".conf" d1 a b conf_suffix fold_path Hio) as (d2 & E2 & _ & H2).
  change (a +:+ ".conf") with (path a) in *. change (b +:+ ".conf") with (path b) in *.
  assert (Ec : fs_exists fold d1 (path a) = fs_exists fold d (path a)).
  { rewrite !exists_conf. f_equal. change (tn_conf (tunnels d1 (fold a))) with (get_file ".conf" (tunnels d1 (fold a))).
    rewrite H1, get_move by (apply conf_suffix || apply ovpn_suffix). done. }
  rewrite <- Ec, E2. destruct (move_ok ".meta.json" d2 a b meta_suffix fold_metaPath Hio) as (d3 & _ & E3 & H3).
  change (a +:+ ".meta.json") with (metaPath a) in *. change (b +:+ ".meta.json") with (metaPath b) in *. rewrite E3.
  cbn [fst snd]. split; [|done]. intros j. rewrite H3, <- moves_rename.
  - apply spec_move_ext. intros i. rewrite H2. apply spec_move_ext. apply H1.
  - intros Hab. apply andb_false_iff in Hb as [Hb|Hb]; [done|]. by apply negb_false_iff, bool_decide_eq_true in Hb.
Qed.

(** C24: the store is a map from names to tunnels.  With every access succeeding, Save, SaveOVPN, SaveMeta,
    Delete and Rename do to the tunnels, under the identity the file system gives their names, exactly
    what they specify and return exactly the errors they specify: a rename moves the two configurations
    and the settings together, never over another tunnel, and a change of case is a rename onto itself
    where the file system says so; whatever is done to one tunnel, every other one keeps its files. *)
Theorem store_refines (op : Op) (d : Dir) : (forall x, io x = true) ->
  let '(d', err) := exec op d in
  (forall j, tunnels d' j = fst (spec_exec op (tunnels d)) j) /\ err = snd (spec_exec op (tunnels d)).
Proof.
  intros Hio. destruct op as [cfg|n c|n x|n|a b].
  - by apply (write_refines d (Name cfg)); [apply conf_suffix|apply fold_path|].
  - by apply (write_refines d n); [apply ovpn_suffix|apply fold_ovpnPath|].
  - by apply (write_refines d n); [apply meta_suffix|apply fold_metaPath|].
  - by apply delete_refines.
  - by apply rename_refines.
Qed.

(** ** Failing accesses lose nothing *)

Lemma rename_content d d' x y k : fs_rename fold io d x y = Ok d' ->
  content_at d' k = if k =s fold y then content_at d (fold x) else if k =s fold x then None else content_at d k.
Proof.
  unfold fs_rename. destruct (d !! fold x) as [e|] eqn:E; [|done]. destruct (io _); [|done]. intros [= <-].
  rewrite at_insert, at_delete. unfold content_at. by rewrite E.
Qed.

(** A rename that fails on the way leaves every configuration under one name or the other. *)
Lemma rename_keeps d a b f c : f ∈ [".conf"; ".ovpn"] -> content_at d (fold a +:+ f) = Some c ->
  let d' := fst (Rename fold io d a b) in
  content_at d' (fold a +:+ f) = Some c \/ content_at d' (fold b +:+ f) = Some c.
Proof.
  intros Hs Hc. cbv zeta. unfold Rename. destruct (ValidateTunnelName b); [by left|].
  destruct (bool_decide (a = b)); [by left|]. destruct (escapes a); [by left|].
  destruct (negb (exists_ fold d a)); [by left|]. destruct (exists_ fold d b && _); [by left|].
  destruct (negb (fs_exists fold d (ovpnPath a)) && _); [by left|].
  assert (Hm : forall d1 n, content_at (best_effort d1 (fs_rename fold io d1 (metaPath a) (metaPath b))) (fold n +:+ f) = content_at d1 (fold n +:+ f)).
  { intros d1 n. destruct (fs_rename fold io d1 (metaPath a) (metaPath b)) as [d2|] eqn:E; [|done]. cbn [best_effort].
    rewrite (rename_content _ _ _ _ _ E), !fold_metaPath.
    repeat (apply elem_of_cons in Hs as [->|Hs]; [rewrite !bool_decide_false by
      (intros H'; symmetry in H'; first [by apply meta_conf in H'|by apply meta_ovpn in H']); done|]). by apply elem_of_nil in Hs. }
  destruct (if fs_exists fold d (ovpnPath a) then _ else _) as [d1|] eqn:E1; [|by left].
  assert (H1 : forall n, content_at d1 (fold n +:+ ".conf") = content_at d (fold n +:+ ".conf")).
  { intros n. destruct (fs_exists fold d (ovpnPath a)); [|by injection E1 as <-]. rewrite (rename_content _ _ _ _ _ E1), !fold_ovpnPath.
    by rewrite !bool_decide_false by apply conf_ovpn. }
  assert (H1' : content_at d (fold a +:+ ".ovpn") = Some c -> content_at d1 (fold b +:+ ".ovpn") = Some c).
  { intros Ha. destruct (fs_exists fold d (ovpnPath a)) eqn:Ee.
    - rewrite (rename_content _ _ _ _ _ E1), !fold_ovpnPath. by rewrite bool_decide_true.
    - unfold fs_exists in Ee. rewrite fold_ovpnPath in Ee. unfold content_at in Ha.
      destruct (d !! (fold a +:+ ".ovpn")); [|done]. by rewrite bool_decide_true in Ee by eauto. }
  destruct (if fs_exists fold d (path a) then _ else _) as [d2|] eqn:E2; cbn [fst].
  - rewrite !Hm. apply elem_of_cons in Hs as [->|Hs]; [|apply list_elem_of_singleton in Hs as ->].
    + right. destruct (fs_exists fold d (path a)) eqn:Ee.
      * rewrite (rename_content _ _ _ _ _ E2), !fold_path, bool_decide_true by done. by rewrite H1.
      * unfold fs_exists in Ee. rewrite fold_path in Ee. unfold content_at in Hc.
        destruct (d !! (fold a +:+ ".conf")); [|done]. by rewrite bool_decide_true in Ee by eauto.
    + right. destruct (fs_exists fold d (path a)); [|injection E2 as <-; by apply H1'].
      rewrite (rename_content _ _ _ _ _ E2), !fold_path. rewrite !bool_decide_false by (intros H'; symmetry in H'; by apply conf_ovpn in H').
      by apply H1'.
  - apply elem_of_cons in Hs as [->|Hs]; [|apply list_elem_of_singleton in Hs as ->].
    + left. by rewrite H1.
    + right. by apply H1'.
Qed.

(** ** Imported configurations *)

Lemma read_back d f c : io (ARead f) = true -> fs_read fold io (<[fold f := MkFile f c]> d) f = Ok c.
Proof. intros Hr. unfold fs_read. by rewrite lookup_insert_eq, Hr. Qed.

(** An imported tunnel is the one that was accepted.  What ImportFromContent parsed and the validator
    accepted is what Load gives back under the tunnel's name, through the written file; for a text without
    NUL whose configuration has no unknown key with an empty value and no over-long line. *)
Theorem import_load (d d' : Dir) (name content : string) (cfg : WireGuardConfig) :
  ImportFromContent fold io d name content = Ok (cfg, d') ->
  contains_byte nul content = false -> no_losses cfg = true -> lines_fit cfg = true ->
  io (ARead (path name)) = true ->
  Load fold io d' name = Ok cfg /\ IsValid (Validate cfg) = true.
Proof.
  intros H Hz Hl Hfit Hr. unfold ImportFromContent in H. destruct (Parse content) as [cfg0|] eqn:Ep; [|done].
  destruct (IsValid (Validate (cfg0 <| Name := name |>))) eqn:Ev; [|done]. cbn [negb] in H.
  apply result_bind_ok in H as (d1 & Hs & [= <- <-]). split; [|done].
  unfold Save in Hs. apply result_bind_ok in Hs as ([] & Hn & Hw). apply map_err_ok in Hw.
  change (Name (cfg0 <| Name := name |>)) with name in *. unfold fs_write in Hw. destruct (io _); [|done]. injection Hw as <-.
  unfold Load. rewrite Hn. cbn [result_bind]. rewrite read_back by done. cbn [map_err result_bind].
  change (Serialize _) with (Serialize cfg0).
  by rewrite (parse_of_lines_wf cfg0) by (by apply (Parse_wf content)).
Qed.
End Store.

(** ** Migration *)

Section Migrate.
Context (fold : string -> string) `{Hf : !Folding fold} (fails : string -> bool).

Definition same_at (d d' : Dir) (k : string) : Prop := is_Some (d !! k) -> d' !! k = d !! k.

Lemma migrate_file_keeps st f k : same_at (fst st) (fst (migrate_file fold fails st f)) k.
Proof.
  destruct st as [d clean], f as [name content]. unfold migrate_file, same_at. cbn [fst]. intros [e He].
  destruct (negb (migrates name)); [done|]. destruct (fs_exists fold d name) eqn:Ee; [done|].
  destruct content as [c|]; [|done]. destruct (fails name); [done|]. cbn [fst]. rewrite lookup_insert_ne; [done|].
  intros <-. unfold fs_exists in Ee. by rewrite He, bool_decide_true in Ee by eauto.
Qed.

Lemma migrate_all_keeps l : forall st k, same_at (fst st) (fst (foldl (migrate_file fold fails) st l)) k.
Proof.
  induction l as [|f l IH]; intros st k; [done|]. intros Hk. cbn [foldl]. pose proof (migrate_file_keeps st f k Hk) as H1.
  rewrite IH; [done|]. by rewrite H1.
Qed.

(** Nothing that is there is changed, wherever the migration stops. *)
Lemma migration_keeps stop legacy d k : same_at d (migrateTunnels fold fails stop legacy d) k.
Proof.
  unfold migrateTunnels. destruct (fs_exists fold d migratedMarker) eqn:Em; [done|].
  destruct stop as [[n partial]|].
  - intros Hk. pose proof (migrate_all_keeps (take n legacy) (d, true) k Hk) as H1. cbn [fst] in H1.
    destruct (legacy !! n) as [[name [c|]]|]; [|done..].
    rewrite migrate_file_keeps; [done|by rewrite H1].
  - intros Hk. pose proof (migrate_all_keeps legacy (d, true) k Hk) as H1. destruct (foldl _ _ _) as [d' clean]. cbn [fst] in H1.
    destruct clean; [|done]. rewrite lookup_insert_ne; [done|]. intros <-. unfold fs_exists in Em.
    destruct Hk as [e He]. by rewrite He, bool_decide_true in Em by eauto.
Qed.
End Migrate.

(** An interrupted migration is not resumed file by file.  The copy is written under its final name, so a
    process that dies in the middle of a write leaves the beginning of the file there, and the next start,
    which copies what is missing, takes it for the tunnel and marks the migration complete. *)
Theorem migration_keeps_a_torn_file :
  let legacy := [("home.conf", Some (Text "[Interface]...[Peer]..."))] in
  let crashed := migrateTunnels id (fun _ => false) (Some (0%nat, Text "[Interf")) legacy ∅ in
  let after := migrateTunnels id (fun _ => false) None legacy crashed in
  fl_content <$> after !! "home.conf" = Some (Text "[Interf") /\ is_Some (after !! migratedMarker).
Proof. vm_compute. split; [done|]. eauto. Qed.

(** ** Witnesses *)

Definition laptop : Dir :=
  list_to_map [("work.conf", MkFile "Work.conf" (Text "c")); ("work.meta.json", MkFile "Work.meta.json" (Json zero_meta));
               ("home.ovpn", MkFile "home.ovpn" (Text "o"))].

(** A change of case on a volume that does not tell cases apart. *)
Lemma store_refines_witness :
  let '(d', err) := exec ascii_lower (fun _ => true) (OpRename "Work" "WORK") laptop in
  (forall j, tunnels d' j = fst (spec_exec ascii_lower (OpRename "Work" "WORK") (tunnels laptop)) j) /\ err = None.
Proof. exact (store_refines ascii_lower (fun _ => true) (OpRename "Work" "WORK") laptop (fun _ => eq_refl)). Defined.

Definition conf_text : string := Serialize sample_config.

Definition imported : WireGuardConfig := sample_config <| Name := "work" |>.

Lemma import_load_witness :
  Load id (fun _ => true) (<["work.conf" := MkFile "work.conf" (Text conf_text)]> ∅) "work" = Ok imported.
Proof.
  refine (proj1 (import_load id (fun _ => true) ∅ _ "work" conf_text imported _ _ _ _ _)); vm_compute; reflexivity.
Defined.
