(* ===== verification/FileOps.v ===== *)
(** * Importing and editing tunnels: internal/app/file_ops.go, tunnel_ops.go and internal_api.go

    The operations of the Wails-bound service on the tunnel files, and the paths the frontend may have
    opened.  What the helper answers is an argument; file names are bytes, so a character outside ASCII is
    two to four bytes that are each replaced, and the runs collapse as they do for characters. *)

From S2P Require Import Prelude GoStrings GoText GoNet Domain Config Validator Recovery OvpnParse OvpnProfile Store.

(** ** Names *)

Definition stripKnownTunnelExt (name : string) : string * string :=
  let lower := to_lower name in
  if has_suffix ".conf" lower then (string_take (String.length name - 5) name, ".conf")
  else if has_suffix ".ovpn" lower then (string_take (String.length name - 5) name, ".ovpn")
  else (name, "").

Definition dash : ascii := "-"%char.

Definition name_byte (c : ascii) : ascii := if name_char c then c else dash.

Fixpoint replace_bad (lastDash : bool) (s : list ascii) : list ascii :=
  match s with
  | [] => []
  | c :: s' =>
      let r := name_byte c in
      let d := bool_decide (r = dash) in
      if d && lastDash then replace_bad lastDash s' else r :: replace_bad d s'
  end.

Definition trimmed_byte (c : ascii) : bool := bool_decide (c = dash) || bool_decide (c = " "%char).

Fixpoint drop_while (p : ascii -> bool) (s : list ascii) : list ascii :=
  match s with
  | c :: s' => if p c then drop_while p s' else s
  | [] => []
  end.

(** strings.Trim(v, "- ") *)
Definition trim_name (s : list ascii) : list ascii := rev (drop_while trimmed_byte (rev (drop_while trimmed_byte s))).

Definition sanitizeTunnelName (raw : string) : string :=
  let name := trim_name (replace_bad false (bytes_of raw)) in
  let name := string_of (if (56 <? length name)%nat then trim_name (take 56 name) else name) in
  if (name =s "") || negb (bool_decide (ValidateTunnelName name = None)) then "tunnel" else name.

Record TunnelInfo := MkTunnelInfo { ti_Name : string; ti_Endpoint : string; ti_Protocol : Protocol }.

Definition maxReadFileSize : Z := 10485760.
Definition maxZipEntries : nat := 500.

Definition numbered (base : string) (i : nat) : string := base +:+ "-" +:+ itoa (Z.of_nat i).

Inductive ImportError := IEStore (e : StoreError) | IEProfile (e : ProfileError) | IEMeta | IEOpen | IETooLarge | IESkipped (n : nat).

(** An entry of an archive: its name and what reading at most one byte past the limit gives, [None] for an
    error. *)
Abbreviation ZipEntry := (string * option string)%type.

(** The answer of Tunnel.ActiveTunnels, names and protected; [None] when the helper cannot be reached. *)
Abbreviation ActiveTunnels := (option (list string * list string)).

Section Ops.
Context (fold : string -> string) (io : Access -> bool).
(** time.Now().UnixMilli() *)
Context (now : Z).

Definition zipUniqueName (d : Dir) (base : string) : string :=
  if negb (Exists fold d base) then base
  else match List.find (fun i => negb (Exists fold d (numbered base i))) (seq 1 999) with
       | Some i => numbered base i
       | None => base +:+ "-" +:+ itoa now
       end.

Definition first_endpoint (cfg : WireGuardConfig) : string :=
  match Peers cfg with p :: _ => Endpoint p | [] => "" end.

Definition ImportConfig (d : Dir) (name content : string) : result ImportError (TunnelInfo * Dir) :=
  let? (cfg, d') := map_err IEStore (ImportFromContent fold io d name content) in
  Ok (MkTunnelInfo (Name cfg) (first_endpoint cfg) ProtocolWireGuard, d').

(** The second component is what is on disk afterwards, whatever the first. *)
Definition importOVPN (d : Dir) (name content : string) : result ImportError TunnelInfo * Dir :=
  match ValidateTunnelName name with
  | Some e => (Err (IEStore (SEName e)), d)
  | None =>
      match ValidateOVPN content with
      | Some e => (Err (IEProfile e), d)
      | None =>
          match SaveOVPN fold io d name content with
          | Err e => (Err (IEStore e), d)
          | Ok d1 =>
              let meta := match LoadMeta fold io d1 name with Ok m => m | Err _ => zero_meta end in
              match SaveMeta fold io d1 name (meta <| tm_Protocol := ProtocolOpenVPN |>) with
              | Err _ => (Err IEMeta, fst (Delete fold io d1 name))
              | Ok d2 =>
                  (Ok (MkTunnelInfo name (match ParseOVPN content with Ok cfg => ocRemote cfg | Err _ => "" end) ProtocolOpenVPN), d2)
              end
          end
      end
  end.

Definition importNamed (d : Dir) (base ext content : string) : result ImportError TunnelInfo * Dir :=
  let name := zipUniqueName d (sanitizeTunnelName base) in
  if ext =s ".ovpn" then importOVPN d name content
  else match ImportConfig d name content with
       | Ok (info, d') => (Ok info, d')
       | Err e => (Err e, d)
       end.

Definition ImportFile (d : Dir) (filename content : string) : result ImportError TunnelInfo * Dir :=
  let '(base, ext) := stripKnownTunnelExt (path_base filename) in importNamed d base ext content.

(** ** Archives *)

Record ZipState := MkZip { z_dir : Dir; z_results : list (string * option ImportError); z_seen : nat; z_skipped : nat }.

Definition zip_entry (z : ZipState) (f : ZipEntry) : ZipState :=
  let '(fname, data) := f in
  let '(baseName, ext) := stripKnownTunnelExt (path_base fname) in
  if ext =s "" then z
  else if (maxZipEntries <=? z_seen z)%nat then MkZip (z_dir z) (z_results z) (z_seen z) (S (z_skipped z))
  else
    let add d r := MkZip d (z_results z ++ [r]) (S (z_seen z)) (z_skipped z) in
    match data with
    | None => add (z_dir z) (path_base fname, Some IEOpen)
    | Some s =>
        if (maxReadFileSize <? Z.of_nat (String.length s))%Z then add (z_dir z) (path_base fname, Some IETooLarge)
        else match importNamed (z_dir z) baseName ext s with
             | (Ok info, d') => add d' (ti_Name info, None)
             | (Err e, d') => add d' (baseName, Some e)
             end
    end.

Definition importZipReader (d : Dir) (entries : list ZipEntry) : option (list (string * option ImportError)) * Dir :=
  let z := foldl zip_entry (MkZip d [] 0 0) entries in
  let results := z_results z ++ (if (0 <? z_skipped z)%nat
                                 then [(itoa (Z.of_nat (z_skipped z)) +:+ " more entries", Some (IESkipped (z_skipped z)))] else []) in
  (if (length results =? 0)%nat then None else Some results, z_dir z).

(** The names of the entries of an export; the loop over the suffix ends within [length used + 1] rounds. *)
Definition entry_name (d : Dir) (used : list string) (name : string) : string :=
  let ext := if IsOVPN fold d name then ".ovpn" else ".conf" in
  default (name +:+ ext)
    (List.find (fun e => negb (bool_decide (e ∈ used)))
       ((name +:+ ext) :: ((fun i => numbered name i +:+ ext) <$> seq 1 (S (length used))))).

(** ** Operations that ask the helper

    [disconnect]: whether Tunnel.Disconnect succeeds. *)

Inductive OpError := OEUnreachable | OEActive | OETracked | OEDisconnect | OEStore (e : StoreError) | OEParse | OEInvalid | OEProfile (e : ProfileError).

Definition DeleteTunnel (active : ActiveTunnels) (disconnect : bool) (d : Dir) (name : string) : Dir * option OpError :=
  match active with
  | None => (d, Some OEUnreachable)
  | Some (names, _) =>
      if bool_decide (name ∈ names) then (d, Some OEActive)
      else if negb disconnect then (d, Some OEDisconnect)
      else let '(d', err) := Delete fold io d name in (d', OEStore <$> err)
  end.

Definition isTunnelTracked (active : list string * list string) (name : string) : bool :=
  bool_decide (name ∈ fst active) || bool_decide (name ∈ snd active).

(** [creds]: whether the keychain holds credentials under a name; only the store is shown. *)
Definition RenameTunnel (active : ActiveTunnels) (d : Dir) (oldName newName : string) : Dir * option OpError :=
  match ValidateTunnelName newName with
  | Some e => (d, Some (OEStore (SEName e)))
  | None =>
      match active with
      | None => (d, Some OEUnreachable)
      | Some a =>
          if isTunnelTracked a oldName then (d, Some OETracked)
          else let '(d', err) := Rename fold io d oldName newName in (d', OEStore <$> err)
      end
  end.

Definition UpdateConfig (active : ActiveTunnels) (d : Dir) (name content : string) : result OpError Dir :=
  match active with
  | None => Err OEUnreachable
  | Some a =>
      if isTunnelTracked a name then Err OETracked
      else if IsOVPN fold d name then
        match ValidateOVPN content with
        | Some e => Err (OEProfile e)
        | None => map_err OEStore (SaveOVPN fold io d name content)
        end
      else match Parse content with
           | Err _ => Err OEParse
           | Ok cfg =>
               if negb (IsValid (Validate cfg)) then Err OEInvalid
               else map_err OEStore (Save fold io d (cfg <| Name := name |>))
           end
  end.

Definition GetConfigText (d : Dir) (name : string) : result StoreError string :=
  if IsOVPN fold d name then LoadOVPN fold io d name
  else let? cfg := Load fold io d name in Ok (Serialize cfg).
End Ops.

(** ** Path grants

    Times in nanoseconds. *)

Definition pathGrantTTL : Z := 300000000000.

Abbreviation Grants := (gmap string Z).

Definition grantPaths (now : Z) (paths : list string) (g : Grants) : Grants :=
  foldl (fun g p => if (p =s "") || negb (is_abs p) then g else <[path_clean p := (now + pathGrantTTL)%Z]> g)
    (filter (fun '(_, exp) => (now <= exp)%Z) g) paths.

Definition consumePath (now : Z) (path : string) (g : Grants) : bool * Grants :=
  match g !! path_clean path with
  | Some exp => ((now <=? exp)%Z, delete (path_clean path) g)
  | None => (false, g)
  end.
