(* ===== verification/FileOpsFacts.v ===== *)
(** * Imported names, and the paths the frontend may open

    [imports_keep_tunnels]: an import never changes a tunnel that is there, and what it stores has an
    accepted name.  [grants_single_use]: every path opened was handed out by the Go side before. *)

From S2P Require Import Prelude GoStrings GoText GoNet Domain Config ConfigRoundtrip Validator ValidatorFacts Recovery OvpnParse OvpnProfile Store StoreFacts FileOps.

(** ** Sanitized names *)

Lemma name_byte_char c : name_char (name_byte c) = true.
Proof. unfold name_byte. by destruct (name_char c) eqn:E. Qed.

Lemma replace_bad_chars s : forall b c, c ∈ replace_bad b s -> name_char c = true.
Proof.
  induction s as [|x s IH]; intros b c H; cbn in H; [by apply elem_of_nil in H|].
  destruct (bool_decide (name_byte x = dash) && b); [by eapply IH|].
  apply elem_of_cons in H as [->|H]; [apply name_byte_char|by eapply IH].
Qed.

Lemma drop_while_suffix p s : exists t, s = t ++ drop_while p s.
Proof. induction s as [|c s [t IH]]; cbn; [by exists []|]. destruct (p c); [exists (c :: t); cbn; by rewrite <- IH|by exists []]. Qed.

Lemma drop_while_head p s c s' : drop_while p s = c :: s' -> p c = false.
Proof. induction s as [|d s IH]; cbn; [done|]. destruct (p d) eqn:E; [done|]. by intros [= <- _]. Qed.

Lemma trim_name_infix s : exists a b, s = a ++ trim_name s ++ b.
Proof.
  unfold trim_name. destruct (drop_while_suffix trimmed_byte s) as [a Ha]. set (u := drop_while trimmed_byte s) in *.
  destruct (drop_while_suffix trimmed_byte (rev u)) as [b Hb]. exists a, (rev b). rewrite Ha at 1. f_equal.
  apply (f_equal (@rev ascii)) in Hb. by rewrite rev_app_distr, rev_involutive in Hb.
Qed.

Lemma trim_name_elem s c : c ∈ trim_name s -> c ∈ s.
Proof. destruct (trim_name_infix s) as (a & b & E). intros H. rewrite E, !elem_of_app. tauto. Qed.

Lemma trim_name_length s : (length (trim_name s) <= length s)%nat.
Proof. destruct (trim_name_infix s) as (a & b & E). rewrite E at 2. rewrite !length_app. lia. Qed.

Lemma trim_name_last s c : last (trim_name s) = Some c -> trimmed_byte c = false.
Proof.
  unfold trim_name. set (u := drop_while trimmed_byte s). destruct (drop_while trimmed_byte (rev u)) as [|x l] eqn:E; [done|].
  cbn [rev]. rewrite last_snoc. intros [= <-]. by eapply drop_while_head.
Qed.

Lemma trim_name_head s c : head (trim_name s) = Some c -> trimmed_byte c = false.
Proof.
  unfold trim_name. destruct (drop_while trimmed_byte s) as [|x l] eqn:E; [done|].
  destruct (drop_while_suffix trimmed_byte (rev (x :: l))) as [t Ht]. apply (f_equal (@rev ascii)) in Ht.
  rewrite rev_app_distr, rev_involutive in Ht. destruct (rev (drop_while trimmed_byte (rev (x :: l)))) as [|y m]; [done|].
  cbn. intros [= <-]. injection Ht as <- _. by eapply drop_while_head.
Qed.

Lemma string_length_bytes s : String.length s = length (bytes_of s).
Proof. induction s as [|c s IH]; cbn; [done|by rewrite IH]. Qed.

(** The names the validator accepts, by bytes. *)
Lemma valid_name_spec name : name <> "" -> (String.length name <= 64)%nat -> string_forall name_char name = true ->
  (forall c, head (bytes_of name) = Some c \/ last (bytes_of name) = Some c -> c <> " "%char) ->
  ValidateTunnelName name = None.
Proof.
  intros Hne Hl Hc Hs. unfold ValidateTunnelName. rewrite bool_decide_false by done.
  destruct (Nat.ltb_spec 64 (String.length name)); [lia|]. unfold first_byte, last_byte.
  rewrite !bool_decide_false by (intros E; eapply Hs; eauto). cbn [orb]. by rewrite Hc.
Qed.

(** Whatever the file was called, the name of its tunnel is accepted, and short enough for a number. *)
Lemma sanitizeTunnelName_valid raw :
  ValidateTunnelName (sanitizeTunnelName raw) = None /\ (String.length (sanitizeTunnelName raw) <= 56)%nat.
Proof.
  unfold sanitizeTunnelName. set (name := trim_name (replace_bad false (bytes_of raw))).
  set (n := if (56 <? length name)%nat then trim_name (take 56 name) else name).
  assert (Hl : (length n <= 56)%nat).
  { unfold n. destruct (Nat.ltb_spec 56 (length name)); [|lia]. etransitivity; [apply trim_name_length|]. rewrite length_take. lia. }
  assert (Hcs : forall c, c ∈ n -> name_char c = true).
  { assert (H : forall c, c ∈ name -> name_char c = true) by (intros c Hc%trim_name_elem; by eapply replace_bad_chars).
    intros c. unfold n. destruct (56 <? length name)%nat; [|apply H]. intros Hc%trim_name_elem. apply H.
    apply elem_of_take in Hc as (i & Hi & _). by eapply list_elem_of_lookup_2. }
  assert (Hend : forall c, head n = Some c \/ last n = Some c -> c <> " "%char).
  { assert (H : exists s, n = trim_name s) by (unfold n; destruct (56 <? length name)%nat; [by eexists|unfold name; by eexists]).
    destruct H as [s ->]. intros c [Hc|Hc] ->; [by apply trim_name_head in Hc|by apply trim_name_last in Hc]. }
  case_bool_decide as E0; [split; [done|cbn; lia]|]. cbn [orb].
  rewrite bool_decide_true; [cbn [negb]; split|].
  2: { rewrite string_length_bytes, bytes_of_string. lia. }
  all: apply valid_name_spec; rewrite ?string_length_bytes, ?string_forall_bytes, ?bytes_of_string; [done|lia| |done];
    apply forallb_true_iff; done.
Qed.

(** ** Free names *)

Section Ops.
Context (fold : string -> string) (io : Access -> bool) (now : Z) `{Hf : !Folding fold}.

Definition candidates (base : string) : list string := base :: (numbered base <$> seq 1 999).

Lemma decimal_name c : decimal c = true -> name_char c = true.
Proof. revert c. all_bytes. Qed.

Lemma itoa_999 i : (1 <= i <= 999)%nat ->
  (String.length (itoa (Z.of_nat i)) <= 3)%nat /\ itoa (Z.of_nat i) <> "" /\ string_forall decimal (itoa (Z.of_nat i)) = true.
Proof.
  intros Hi. assert (H : forallb (fun j => (String.length (itoa (Z.of_nat j)) <=? 3)%nat && negb (itoa (Z.of_nat j) =s "")) (seq 1 999) = true)
    by (vm_compute; reflexivity).
  rewrite forallb_true_iff in H. specialize (H i). rewrite elem_of_seq in H. specialize (H ltac:(lia)).
  apply andb_true_iff in H as [H1%Nat.leb_le H2%negb_true_iff%bool_decide_eq_false]. split; [done|]. split; [done|]. apply itoa_decimal. lia.
Qed.

Lemma numbered_valid base i : ValidateTunnelName base = None -> (String.length base <= 56)%nat -> (1 <= i <= 999)%nat ->
  ValidateTunnelName (numbered base i) = None.
Proof.
  intros Hv Hl Hi. destruct (itoa_999 i Hi) as (H3 & Hne & Hd). unfold numbered.
  pose proof (valid_name_chars base Hv) as Hc. apply valid_name_spec.
  - intros E. apply (f_equal String.length) in E. rewrite !string_length_app in E. cbn in E. lia.
  - rewrite !string_length_app. cbn. lia.
  - rewrite !string_forall_app, Hc. cbn. by apply (string_forall_impl decimal); [apply decimal_name|].
  - rewrite !bytes_of_app. intros c [H|H] ->.
    + unfold ValidateTunnelName in Hv. unfold first_byte in Hv. destruct base as [|x base]; [done|]. cbn in H. injection H as ->.
      rewrite bool_decide_false in Hv by done. destruct (_ <? _)%nat; [done|]. by rewrite bool_decide_true in Hv.
    + rewrite string_forall_bytes in Hd. rewrite forallb_true_iff in Hd.
      destruct (last (bytes_of (itoa (Z.of_nat i)))) as [y|] eqn:E.
      * rewrite !last_app, E in H. injection H as ->. apply last_Some_elem_of, Hd in E. done.
      * apply last_None in E. destruct (itoa (Z.of_nat i)); done.
Qed.

Lemma ascii_lower_app s t : ascii_lower (s +:+ t) = ascii_lower s +:+ ascii_lower t.
Proof. apply (fold_app (fold := ascii_lower)). Qed.

Lemma ascii_lower_length s : String.length (ascii_lower s) = String.length s.
Proof. induction s as [|c s IH]; cbn; [done|by rewrite IH]. Qed.

Lemma lower_decimal c : decimal c = true -> lower_byte c = c.
Proof. revert c. intros [[] [] [] [] [] [] [] []]; vm_compute; congruence. Qed.

Lemma lower_digits s : string_forall decimal s = true -> ascii_lower s = s.
Proof. induction s as [|c s IH]; cbn; [done|]. intros [H1 H2]%andb_true_iff. by rewrite IH, lower_decimal. Qed.

Lemma numbered_fold base i j : (1 <= i <= 999)%nat -> (1 <= j <= 999)%nat ->
  fold (numbered base i) = fold (numbered base j) -> i = j.
Proof.
  intros Hi Hj H%fold_case. unfold numbered in H. rewrite !ascii_lower_app in H.
  rewrite !(lower_digits (itoa _)) in H by apply itoa_999, Hi || apply itoa_999, Hj.
  apply (f_equal bytes_of) in H. rewrite !bytes_of_app in H. apply app_inv_head, app_inv_head in H. apply bytes_of_inj in H.
  apply (f_equal atoi) in H. rewrite !atoi_itoa in H by lia. injection H. lia.
Qed.

Lemma numbered_base base i : fold base <> fold (numbered base i).
Proof.
  intros H%fold_case. apply (f_equal String.length) in H. rewrite !ascii_lower_length in H. unfold numbered in H.
  rewrite !string_length_app in H. cbn in H. lia.
Qed.

Lemma candidates_fold base : NoDup (fold <$> candidates base).
Proof.
  unfold candidates. rewrite fmap_cons. apply NoDup_cons. split.
  - rewrite <- list_fmap_compose, list_elem_of_fmap. intros (i & H & _). by apply numbered_base in H.
  - rewrite <- list_fmap_compose. apply NoDup_fmap_2_strong; [|apply NoDup_seq].
    intros i j Hi Hj. rewrite elem_of_seq in Hi, Hj. apply numbered_fold; lia.
Qed.

(** The file that makes a tunnel present. *)
Definition file_key (d : Dir) (k : string) : string :=
  if bool_decide (is_Some (tn_conf (tunnels d k))) then k +:+ ".conf" else k +:+ ".ovpn".

Lemma file_key_inj d k l : file_key d k = file_key d l -> k = l.
Proof.
  unfold file_key. repeat case_bool_decide; intros E; try (by apply string_app_inj_r in E);
    [|symmetry in E]; by apply conf_ovpn in E.
Qed.

Lemma file_key_there d k : present (tunnels d k) = true -> is_Some (d !! file_key d k).
Proof.
  intros [H|H]%orb_true_iff; apply bool_decide_eq_true in H; cbn in H; unfold content_at in H; rewrite fmap_is_Some in H;
    unfold file_key; cbn; unfold content_at; case_bool_decide as E; rewrite fmap_is_Some in E; tauto.
Qed.

(** A directory with fewer than a thousand files has a free candidate. *)
Lemma candidates_free d base : (size d < 1000)%nat -> exists c, c ∈ candidates base /\ present (tunnels d (fold c)) = false.
Proof.
  intros Hs. destruct (decide (List.Exists (fun c => present (tunnels d (fold c)) = false) (candidates base))) as [H|H].
  { apply List.Exists_exists in H as (c & Hc & Hp). exists c. by rewrite list_elem_of_In. }
  exfalso. assert (Hsub : list_to_set (file_key d <$> (fold <$> candidates base)) ⊆ dom d).
  { intros k Hk. apply elem_of_list_to_set in Hk. apply list_elem_of_fmap in Hk as (l & -> & Hk). apply list_elem_of_fmap in Hk as (c & -> & Hc).
    apply elem_of_dom, file_key_there. apply not_false_is_true. intros E. apply H, List.Exists_exists. exists c. split; [by apply list_elem_of_In|done]. }
  apply subseteq_size in Hsub. rewrite size_list_to_set in Hsub.
  - rewrite !length_fmap in Hsub. rewrite size_dom in Hsub. unfold candidates in Hsub. cbn [length] in Hsub. rewrite length_fmap, length_seq in Hsub. lia.
  - apply NoDup_fmap_2_strong; [|apply candidates_fold]. intros k l _ _. apply file_key_inj.
Qed.

Lemma Exists_valid d n : ValidateTunnelName n = None -> Exists fold d n = present (tunnels d (fold n)).
Proof. intros Hv. unfold Exists. rewrite Hv. by apply exists_present. Qed.

Lemma zipUniqueName_free d base : ValidateTunnelName base = None -> (String.length base <= 56)%nat -> (size d < 1000)%nat ->
  let n := zipUniqueName fold now d base in ValidateTunnelName n = None /\ present (tunnels d (fold n)) = false.
Proof.
  intros Hv Hl Hs. cbv zeta. unfold zipUniqueName. destruct (Exists fold d base) eqn:Eb; cbn [negb].
  2: { split; [done|]. by rewrite <- Exists_valid. }
  destruct (List.find _ _) as [i|] eqn:Ef.
  - apply List.find_some in Ef as [Hi He%negb_true_iff]. apply list_elem_of_In, elem_of_seq in Hi.
    assert (Hn : ValidateTunnelName (numbered base i) = None) by (apply numbered_valid; [done|done|lia]).
    split; [done|]. by rewrite <- Exists_valid.
  - exfalso. destruct (candidates_free d base Hs) as (c & Hc & Hp). unfold candidates in Hc. apply elem_of_cons in Hc as [->|Hc].
    + by rewrite Exists_valid, Hp in Eb.
    + apply list_elem_of_fmap in Hc as (i & -> & Hi). apply list_elem_of_In in Hi as Hi'. pose proof (List.find_none _ _ Ef i Hi') as H.
      apply elem_of_seq in Hi. apply negb_false_iff in H. rewrite Exists_valid in H by (apply numbered_valid; [done|done|lia]). congruence.
Qed.

(** ** What an import changes *)

(** Every other tunnel is as it was; at most [k] more files. *)
Record frame (n : string) (k : nat) (d d' : Dir) : Prop := {
  fr_other : forall j, j <> fold n -> tunnels d' j = tunnels d j;
  fr_size : (size d' <= size d + k)%nat
}.

Lemma frame_refl n k d : frame n k d d.
Proof. split; [done|lia]. Qed.

Lemma frame_trans n k l d d1 d2 : frame n k d d1 -> frame n l d1 d2 -> frame n (k + l) d d2.
Proof. intros [H1 S1] [H2 S2]. split; [intros j Hj; by rewrite H2, H1|lia]. Qed.

Lemma frame_weaken n k l d d' : frame n k d d' -> (k <= l)%nat -> frame n l d d'.
Proof. intros [H S] Hl. split; [done|lia]. Qed.

Lemma set_file_other f k c m j : j <> k -> set_file f k c m j = m j.
Proof. intros H. unfold set_file, upd. by rewrite bool_decide_false. Qed.

Lemma write_frame d d' n f c : f ∈ [".conf"; ".ovpn"; ".meta.json"] -> fold (n +:+ f) = fold n +:+ f ->
  fs_write fold io d (n +:+ f) c = Ok d' -> frame n 1 d d'.
Proof.
  intros Hs Hn H. split.
  - intros j Hj. rewrite (write_spec fold io d d' n f c) by done. by apply set_file_other.
  - unfold fs_write in H. destruct (io _); [|done]. injection H as <-. rewrite map_size_insert. case_match; cbn; lia.
Qed.

Lemma remove_frame d n f : f ∈ [".conf"; ".ovpn"; ".meta.json"] -> fold (n +:+ f) = fold n +:+ f ->
  frame n 0 d (best_effort d (fs_remove fold io d (n +:+ f))).
Proof.
  intros Hs Hn. destruct (fs_remove fold io d (n +:+ f)) as [d'|] eqn:E; [|apply frame_refl]. cbn [best_effort]. split.
  - intros j Hj. rewrite (remove_spec fold io d d' n f) by done. by apply set_file_other.
  - unfold fs_remove in E. destruct (_ !! _) eqn:El; [|done]. destruct (io _); [|done]. injection E as <-.
    rewrite map_size_delete. case_match; cbn; lia.
Qed.

Lemma delete_frame d n : frame n 0 d (fst (Delete fold io d n)).
Proof.
  unfold Delete. destruct (ValidateTunnelName n); [apply frame_refl|].
  pose proof (fun d => remove_frame d n ".conf" conf_suffix (fold_path fold n)) as Hc. pose proof (fun d => remove_frame d n ".ovpn" ovpn_suffix (fold_ovpnPath fold n)) as Ho.
  pose proof (fun d => remove_frame d n ".meta.json" meta_suffix (fold_metaPath fold n)) as Hm.
  change (n +:+ ".conf") with (path n) in Hc. change (n +:+ ".ovpn") with (ovpnPath n) in Ho. change (n +:+ ".meta.json") with (metaPath n) in Hm.
  destruct (match fs_remove fold io d (path n) with Ok _ => _ | Err _ => _ end) as [d1 err] eqn:E. cbn [fst].
  apply (frame_trans n 0 0 d d1); [|apply Hm]. specialize (Hc d). destruct (fs_remove fold io d (path n)) as [d0|[]].
  - injection E as <- _. by apply (frame_trans n 0 0 d d0).
  - specialize (Ho d). destruct (fs_remove fold io d (ovpnPath n)); by injection E as <- _.
  - injection E as <- _. apply Ho.
Qed.

Lemma written_present d d' n f c : f ∈ [".conf"; ".ovpn"] -> fold (n +:+ f) = fold n +:+ f ->
  fs_write fold io d (n +:+ f) c = Ok d' -> present (tunnels d' (fold n)) = true.
Proof.
  intros Hs Hn H. rewrite (write_spec fold io d d' n f c) by (done || (rewrite !elem_of_cons in *; tauto)).
  unfold set_file, upd. rewrite bool_decide_true by done. unfold present.
  repeat (apply elem_of_cons in Hs as [->|Hs]; [cbn; by rewrite ?orb_true_r|]). by apply elem_of_nil in Hs.
Qed.

Lemma importOVPN_frame d n content :
  frame n 2 d (snd (importOVPN fold io d n content))
  /\ forall info, fst (importOVPN fold io d n content) = Ok info ->
       ti_Name info = n /\ present (tunnels (snd (importOVPN fold io d n content)) (fold n)) = true.
Proof.
  unfold importOVPN. destruct (ValidateTunnelName n) eqn:Ev; [split; [apply (frame_weaken n 0); [apply frame_refl|lia]|done]|].
  destruct (ValidateOVPN content); [split; [apply (frame_weaken n 0); [apply frame_refl|lia]|done]|].
  destruct (SaveOVPN fold io d n content) as [d1|] eqn:Es; [|split; [apply (frame_weaken n 0); [apply frame_refl|lia]|done]].
  unfold SaveOVPN, check_name in Es. rewrite Ev in Es. cbn [result_bind] in Es. apply map_err_ok in Es.
  pose proof (write_frame d d1 n ".ovpn" _ ovpn_suffix (fold_ovpnPath fold n) Es) as H1.
  destruct (SaveMeta fold io d1 n _) as [d2|] eqn:Em; cbn [fst snd].
  - unfold SaveMeta, check_name in Em. rewrite Ev in Em. cbn [result_bind] in Em. apply map_err_ok in Em.
    pose proof (write_frame d1 d2 n ".meta.json" _ meta_suffix (fold_metaPath fold n) Em) as H2.
    split; [by apply (frame_trans n 1 1 d d1)|]. intros info [= <-]. split; [done|].
    rewrite (write_spec fold io d1 d2 n ".meta.json" _ meta_suffix (fold_metaPath fold n) Em). unfold set_file, upd.
    rewrite bool_decide_true by done.
    pose proof (written_present d d1 n ".ovpn" _ ltac:(right; by left) (fold_ovpnPath fold n) Es) as Hp. done.
  - split; [|done]. apply (frame_weaken n (1 + 0)); [|lia]. eapply frame_trans; [exact H1|apply delete_frame].
Qed.

Lemma ImportConfig_frame d d' n content info : ImportConfig fold io d n content = Ok (info, d') ->
  frame n 2 d d' /\ ti_Name info = n /\ present (tunnels d' (fold n)) = true.
Proof.
  unfold ImportConfig. intros H. apply result_bind_ok in H as ([cfg d1] & H & [= <- <-]). apply map_err_ok in H.
  unfold ImportFromContent in H. destruct (Parse content) as [cfg0|]; [|done]. destruct (IsValid _); [|done]. cbn [negb] in H.
  apply result_bind_ok in H as (d2 & Hs & [= <- <-]). unfold Save in Hs. apply result_bind_ok in Hs as (_ & _ & Hw). apply map_err_ok in Hw.
  split; [|split; [done|]].
  - apply (frame_weaken n 1); [|lia]. by eapply (write_frame d d2 n ".conf" _ conf_suffix (fold_path fold n)).
  - by apply (written_present d d2 n ".conf" _ ltac:(by left) (fold_path fold n) Hw).
Qed.

Lemma importNamed_spec d base ext content : (size d < 1000)%nat ->
  exists n, ValidateTunnelName n = None /\ present (tunnels d (fold n)) = false
    /\ frame n 2 d (snd (importNamed fold io now d base ext content))
    /\ forall info, fst (importNamed fold io now d base ext content) = Ok info ->
         ti_Name info = n /\ present (tunnels (snd (importNamed fold io now d base ext content)) (fold n)) = true.
Proof.
  intros Hs. destruct (sanitizeTunnelName_valid base) as [Hv Hl].
  destruct (zipUniqueName_free d _ Hv Hl Hs) as [Hn Hp]. unfold importNamed.
  set (n := zipUniqueName fold now d (sanitizeTunnelName base)) in *. exists n. split; [done|]. split; [done|].
  case_bool_decide; [apply importOVPN_frame|].
  destruct (ImportConfig fold io d n content) as [[info d']|] eqn:E.
  - destruct (ImportConfig_frame _ _ _ _ _ E) as (H1 & H2 & H3). split; [done|]. by intros i [= <-].
  - split; [|done]. apply (frame_weaken n 0); [apply frame_refl|lia].
Qed.

(** ** Archives *)

Definition imported_names (rs : list (string * option ImportError)) : list string :=
  omap (fun '(n, e) => match e with None => Some n | Some _ => None end) rs.

Record zip_inv (d0 : Dir) (seen : nat) (z : ZipState) : Prop := {
  zi_keeps : forall k, present (tunnels d0 k) = true -> tunnels (z_dir z) k = tunnels d0 k;
  zi_size : (size (z_dir z) <= size d0 + 2 * seen)%nat;
  zi_seen : (z_seen z <= maxZipEntries)%nat;
  zi_count : (length (imported_names (z_results z)) <= z_seen z)%nat;
  zi_names : forall n, n ∈ imported_names (z_results z) ->
    ValidateTunnelName n = None /\ present (tunnels d0 (fold n)) = false /\ present (tunnels (z_dir z) (fold n)) = true;
  zi_distinct : NoDup (fold <$> imported_names (z_results z))
}.

Lemma imported_app rs r : imported_names (rs ++ [r]) = imported_names rs ++ imported_names [r].
Proof. unfold imported_names. apply omap_app. Qed.

Lemma zip_entry_inv d0 seen z f : (size d0 + 2 * seen < 1000)%nat -> zip_inv d0 seen z -> zip_inv d0 (S seen) (zip_entry fold io now z f).
Proof.
  intros Hs [H1 H2 H3 H4 H5 H6]. unfold zip_entry. destruct f as [fname data].
  destruct (stripKnownTunnelExt (path_base fname)) as [base ext]. case_bool_decide; [split; try done; lia|].
  destruct (Nat.leb_spec maxZipEntries (z_seen z)) as [|Hm]; [split; try done; cbn; lia|].
  assert (Hfail : forall n e d', d' = z_dir z -> zip_inv d0 (S seen) (MkZip d' (z_results z ++ [(n, Some e)]) (S (z_seen z)) (z_skipped z))).
  { intros n e d' ->. split; cbn; rewrite ?imported_app, ?app_nil_r; try done; try lia. }
  destruct data as [s|]; [|by apply Hfail]. destruct (_ <? _)%Z; [by apply Hfail|].
  destruct (importNamed_spec (z_dir z) base ext s) as (n & Hv & Hp & [Hfr Hfs] & Hok); [lia|].
  destruct (importNamed fold io now (z_dir z) base ext s) as [r d']. cbn [fst snd] in *.
  assert (Hd0 : present (tunnels d0 (fold n)) = false).
  { apply not_true_iff_false. intros E. rewrite <- H1 in E by done. congruence. }
  assert (Hk : forall k, present (tunnels d0 k) = true -> tunnels d' k = tunnels d0 k).
  { intros k Hk. rewrite Hfr; [by apply H1|]. intros ->. congruence. }
  assert (Hne : forall m, m ∈ imported_names (z_results z) -> fold m <> fold n).
  { intros m (_ & _ & Hm')%H5 E. rewrite E in Hm'. congruence. }
  destruct r as [info|e].
  - destruct (Hok info eq_refl) as [En Hpn]. rewrite En. split; cbn; rewrite ?imported_app, ?length_app; cbn; try lia; try done.
    + intros m Hm'. apply elem_of_app in Hm' as [Hm'|Hm']; [|apply list_elem_of_singleton in Hm' as ->; done]. destruct (H5 m Hm') as (? & ? & Hmp).
      split; [done|]. split; [done|]. rewrite Hfr; [done|by apply Hne].
    + rewrite fmap_app. apply NoDup_app. split; [done|]. split; [|apply NoDup_singleton].
      intros k Hkm Hkn. apply list_elem_of_singleton in Hkn as ->. apply list_elem_of_fmap in Hkm as (m & E & Hm'). by apply (Hne m Hm').
  - split; cbn; rewrite ?imported_app, ?app_nil_r; cbn; try lia; try done.
    intros m Hm'. destruct (H5 m Hm') as (? & ? & Hmp). split; [done|]. split; [done|]. rewrite Hfr; [done|by apply Hne].
Qed.

Lemma zip_all_inv d0 entries : forall seen z, (size d0 + 2 * (seen + length entries) < 1000)%nat -> zip_inv d0 seen z ->
  zip_inv d0 (seen + length entries) (foldl (zip_entry fold io now) z entries).
Proof.
  induction entries as [|f entries IH]; intros seen z Hs Hz; [by rewrite Nat.add_0_r|]. cbn [foldl length] in *.
  replace (seen + S (length entries))%nat with (S seen + length entries)%nat by lia. apply IH; [lia|]. apply zip_entry_inv; [lia|done].
Qed.

(** An import touches no tunnel that is there.  Whatever an archive holds (hostile names, bad or huge
    entries, the same name many times), and whichever writes fail, every tunnel of the store keeps its
    files; at most 500 tunnels are added, each under an accepted name that was free, no two of them the
    same to the file system, and each of them is there afterwards.  (For a directory with room for a free
    name: fewer than a thousand files with those added.) *)
Theorem imports_keep_tunnels (d : Dir) (entries : list ZipEntry) :
  (size d + 2 * length entries < 1000)%nat ->
  let '(results, d') := importZipReader fold io now d entries in
  let names := imported_names (default [] results) in
  (forall k, present (tunnels d k) = true -> tunnels d' k = tunnels d k)
  /\ (length names <= 500)%nat /\ NoDup (fold <$> names)
  /\ forall n, n ∈ names -> ValidateTunnelName n = None /\ present (tunnels d (fold n)) = false /\ present (tunnels d' (fold n)) = true.
Proof.
  intros Hs. destruct (zip_all_inv d entries 0 (MkZip d [] 0 0)) as [H1 H2 H3 H4 H5 H6]; [lia|split; cbn;
    [done|lia|lia|lia|intros n Hn; by apply elem_of_nil in Hn|by apply NoDup_nil]|].
  unfold importZipReader. set (z := foldl _ _ _) in *.
  set (more := if (0 <? z_skipped z)%nat then _ else _).
  assert (Em : imported_names (z_results z ++ more) = imported_names (z_results z)).
  { unfold imported_names. rewrite omap_app. unfold more. destruct (0 <? z_skipped z)%nat; by rewrite app_nil_r. }
  assert (En : imported_names (default [] (if (length (z_results z ++ more) =? 0)%nat then None else Some (z_results z ++ more))) = imported_names (z_results z)).
  { destruct (Nat.eqb_spec (length (z_results z ++ more)) 0) as [E|]; [|done]. apply length_zero_iff_nil in E. by rewrite <- Em, E. }
  cbv zeta. rewrite En. unfold maxZipEntries in *. split_and!; try done. lia.
Qed.
End Ops.

(** ** Operations behind the helper's back *)

(** The files of a tunnel change only while the helper answers and does not run or hold it: an edit or a
    rename while it is tracked, or while the helper cannot be reached, changes nothing, and a tunnel is
    deleted only after the helper let go of it. *)
Lemma guarded_ops fold io d (active : ActiveTunnels) (dc : bool) n m content :
  (fst (DeleteTunnel fold io active dc d n) <> d -> dc = true /\ (exists names p, active = Some (names, p) /\ n ∉ names))
  /\ (fst (RenameTunnel fold io active d n m) <> d -> exists a, active = Some a /\ (n ∉ fst a) /\ (n ∉ snd a))
  /\ (is_ok (UpdateConfig fold io active d n content) = true -> exists a, active = Some a /\ (n ∉ fst a) /\ (n ∉ snd a)).
Proof.
  assert (Ht : forall a, isTunnelTracked a n = false -> (n ∉ fst a) /\ (n ∉ snd a)).
  { intros a H. unfold isTunnelTracked in H. apply orb_false_iff in H as [H1 H2]. by rewrite !bool_decide_eq_false in *. }
  split_and!.
  - unfold DeleteTunnel. destruct active as [[names p]|]; [|done]. case_bool_decide; [done|]. destruct dc; [|done]. intros _. eauto.
  - unfold RenameTunnel. destruct (ValidateTunnelName m); [done|]. destruct active as [a|]; [|done].
    destruct (isTunnelTracked a n) eqn:E; [done|]. intros _. exists a. split; [done|]. by apply Ht.
  - unfold UpdateConfig. destruct active as [a|]; [|done]. destruct (isTunnelTracked a n) eqn:E; [done|]. intros _. exists a. split; [done|]. by apply Ht.
Qed.

(** ** Path grants *)

(** What happens to the grants: the Go side hands out paths, the frontend asks for one to be opened. *)
Inductive GrantEvent := Granted (now : Z) (paths : list string) | Asked (now : Z) (path : string).

Definition grant_event (g : Grants) (e : GrantEvent) : Grants :=
  match e with
  | Granted now paths => grantPaths now paths g
  | Asked now path => snd (consumePath now path g)
  end.

Definition grants_after (evs : list GrantEvent) : Grants := foldl grant_event ∅ evs.

(** Whether the [i]-th event opens its path. *)
Definition opens (evs : list GrantEvent) (i : nat) : bool :=
  match evs !! i with Some (Asked now path) => fst (consumePath now path (grants_after (take i evs))) | _ => false end.

(** The [j]-th event hands out the path with the clean form [k] until [exp], and it was not asked for since. *)
Definition granted_at (evs : list GrantEvent) (j : nat) (k : string) (exp : Z) : Prop :=
  (exists now paths p, evs !! j = Some (Granted now paths) /\ p ∈ paths /\ is_abs p = true /\ path_clean p = k
     /\ exp = (now + pathGrantTTL)%Z)
  /\ forall m now p, (j < m)%nat -> evs !! m = Some (Asked now p) -> path_clean p <> k.

Lemma grantPaths_lookup now paths : forall (g : Grants) k exp,
  foldl (fun g p => if (p =s "") || negb (is_abs p) then g else <[path_clean p := (now + pathGrantTTL)%Z]> g) g paths !! k = Some exp ->
  (exists p, p ∈ paths /\ is_abs p = true /\ path_clean p = k /\ exp = (now + pathGrantTTL)%Z) \/ g !! k = Some exp.
Proof.
  induction paths as [|p paths IH]; intros g k exp H; [by right|]. cbn [foldl] in H. apply IH in H as [(q & Hq & H)|H].
  - left. exists q. split; [by right|done].
  - destruct ((p =s "") || negb (is_abs p)) eqn:E; [by right|]. apply orb_false_iff in E as [_ Ha%negb_false_iff].
    destruct (decide (path_clean p = k)) as [<-|Hne].
    + rewrite lookup_insert_eq in H. injection H as <-. left. exists p. split; [by left|done].
    + rewrite lookup_insert_ne in H by done. by right.
Qed.

Lemma granted_snoc evs e j k exp : (forall now p, e = Asked now p -> path_clean p <> k) -> granted_at evs j k exp -> granted_at (evs ++ [e]) j k exp.
Proof.
  intros He [(now & paths & p & Hj & H) Hm]. split.
  - exists now, paths, p. split; [by apply lookup_app_l_Some|done].
  - intros m t q Hjm Hq. apply lookup_app_Some in Hq as [Hq|[Hl Hq]]; [by apply (Hm m t)|].
    apply list_lookup_singleton_Some in Hq as [_ ->]. by apply (He t).
Qed.

Lemma grants_inv evs : forall k exp, grants_after evs !! k = Some exp -> exists j, granted_at evs j k exp.
Proof.
  induction evs as [|e evs IH] using rev_ind; intros k exp H; [done|]. unfold grants_after in *. rewrite foldl_snoc in H.
  destruct e as [now paths|now path]; cbn [grant_event] in H.
  - unfold grantPaths in H. apply grantPaths_lookup in H as [(p & Hp & Ha & Hc & ->)|H].
    + exists (length evs). split.
      * exists now, paths, p. by rewrite list_lookup_middle.
      * intros m t q Hm Hq. apply lookup_lt_Some in Hq. rewrite length_app in Hq. cbn in Hq. lia.
    + apply map_lookup_filter_Some in H as [H _]. apply IH in H as [j Hj]. exists j. by apply granted_snoc.
  - unfold consumePath in H. destruct (foldl grant_event ∅ evs !! path_clean path) as [x|] eqn:E; cbn [snd] in H.
    + apply lookup_delete_Some in H as [Hne H]. apply IH in H as [j Hj]. exists j. apply granted_snoc; [|done]. by intros t p [= _ <-].
    + apply IH in H as H'. destruct H' as [j Hj]. exists j. apply granted_snoc; [|done]. intros t p [= _ <-] E'. congruence.
Qed.

(** The frontend names no file by itself.  In every sequence of grants and requests, a path that is
    opened is one the Go side handed out before (the same file after cleaning the path), at most five
    minutes ago, and it was not asked for between: each grant opens one file once. *)
Theorem grants_single_use (evs : list GrantEvent) (i : nat) (now : Z) (path : string) :
  evs !! i = Some (Asked now path) -> opens evs i = true ->
  exists j exp, (j < i)%nat /\ granted_at (take i evs) j (path_clean path) exp /\ (now <= exp)%Z.
Proof.
  intros Hi Ho. unfold opens in Ho. rewrite Hi in Ho. unfold consumePath in Ho.
  destruct (grants_after (take i evs) !! path_clean path) as [exp|] eqn:E; [|done]. cbn [fst] in Ho. apply Z.leb_le in Ho.
  destruct (grants_inv _ _ _ E) as [j Hj]. exists j, exp. split; [|done].
  destruct Hj as [(t & paths & p & Hl & _) _]. apply lookup_lt_Some in Hl. rewrite length_take in Hl. lia.
Qed.

(** ** Witnesses *)

Definition dropped_file : list GrantEvent :=
  [Granted 0 ["/Users/me/./office.conf"; "relative.conf"]; Asked 10 "/Users/me/office.conf"; Asked 11 "/Users/me/office.conf"].

Lemma grants_single_use_witness :
  opens dropped_file 2 = false
  /\ exists j exp, (j < 1)%nat /\ granted_at (take 1 dropped_file) j "/Users/me/office.conf" exp /\ (10 <= exp)%Z.
Proof.
  split; [vm_compute; reflexivity|].
  exact (grants_single_use dropped_file 1 10 "/Users/me/office.conf" eq_refl ltac:(vm_compute; reflexivity)).
Defined.

(** Two entries of the same name, next to a tunnel that has it. *)
Definition archive : list ZipEntry := [("dir/Work.conf", Some conf_text); ("../../work.CONF", Some conf_text); ("x.txt", Some "")].

Lemma imports_keep_tunnels_witness :
  imported_names (default [] (fst (importZipReader ascii_lower (fun _ => true) 0 laptop archive))) = ["Work-1"; "work-2"]
  /\ tunnels (snd (importZipReader ascii_lower (fun _ => true) 0 laptop archive)) "work" = tunnels laptop "work".
Proof.
  split; [vm_compute; reflexivity|].
  pose proof (imports_keep_tunnels ascii_lower (fun _ => true) 0 laptop archive ltac:(vm_compute; lia)) as H.
  destruct (importZipReader ascii_lower (fun _ => true) 0 laptop archive) as [r d']. apply H. vm_compute. reflexivity.
Defined.
