(* ===== verification/Wifi.v ===== *)
(** * Wi-Fi rules: internal/wifi/rules.go, monitor.go and internal/gui/wifi_lifecycle.go

    The rules, what the monitor does with a reading, and what a change of network makes of the tunnels.
    The lifecycle talks to the helper: [WifiEnv] is what the helper, the clock and the other Wi-Fi actions
    answer, as a function of the calls made so far. *)

From S2P Require Import Prelude GoStrings Domain.

(** ** rules.go *)

Record Rules := MkRules {
  Enabled : bool; DefaultTunnel : string; AutoConnectUntrusted : bool; TrustedSSIDs : list string;
  SSIDTunnelMap : gmap string string }.

Definition DefaultRules : Rules := MkRules false "" false [] ∅.

Inductive WifiAction := ActNone | ActDisconnect | ActConnect (tunnel : string).

Definition Action (r : Rules) (ssid : string) : WifiAction :=
  if negb (Enabled r) || (ssid =s "") then ActNone
  else if bool_decide (ssid ∈ TrustedSSIDs r) then ActDisconnect
  else match SSIDTunnelMap r !! ssid with
       | Some tunnel => ActConnect tunnel
       | None => if AutoConnectUntrusted r && negb (DefaultTunnel r =s "") then ActConnect (DefaultTunnel r) else ActNone
       end.

Definition HasActiveRules (r : option Rules) : bool :=
  match r with
  | None => false
  | Some r =>
      Enabled r && (negb (length (TrustedSSIDs r) =? 0)%nat || negb (size (SSIDTunnelMap r) =? 0)%nat
                    || (AutoConnectUntrusted r && negb (DefaultTunnel r =s "")))
  end.

(** ** monitor.go

    Pollers are numbered; [mo_stop] are those whose stop channel is closed.  [pReading]: in readSSID, of the
    first reading or of a check; [pCalling]: outside the lock, onChanged is to be called. *)

Inductive Poller := pReading (initial : bool) | pWaiting | pCalling (old new : string) | pEnded.

Record Monitor := MkMonitor {
  lastSSID : string; mo_running : bool; mo_pollers : list Poller; mo_stop : gset nat; mo_recheck : bool;
  mo_calls : list (string * string) }.

#[export] Instance eta_monitor : Eta Monitor := fun r =>
  MkMonitor (lastSSID r) (mo_running r) (mo_pollers r) (mo_stop r) (mo_recheck r) (mo_calls r).

Definition new_monitor : Monitor := MkMonitor "" false [] ∅ false [].

Definition Recheck (m : Monitor) : Monitor := m <| mo_recheck := true |>.

Definition Start (m : Monitor) : Monitor :=
  if mo_running m then m else m <| mo_running := true |> <| mo_pollers ::= fun l => l ++ [pReading true] |>.

(** stopCh is the channel of the poller started last. *)
Definition Stop (m : Monitor) : Monitor :=
  if negb (mo_running m) then m
  else m <| mo_running := false |> <| mo_stop ::= fun s => {[pred (length (mo_pollers m))]} ∪ s |>.

Definition set_poller (k : nat) (p : Poller) (m : Monitor) : Monitor := m <| mo_pollers ::= fun l => <[k := p]> l |>.

(** The locked section after a reading. *)
Definition after_read (k : nat) (initial : bool) (current : string) (m : Monitor) : Monitor :=
  if initial then (set_poller k pWaiting m) <| lastSSID := current |>
  else if current =s lastSSID m then set_poller k pWaiting m
  else (set_poller k (pCalling (lastSSID m) current) m) <| lastSSID := current |>.

Inductive monitor_step (m : Monitor) : Monitor -> Prop :=
| ms_recheck : monitor_step m (Recheck m)
| ms_start : monitor_step m (Start m)
| ms_stop : monitor_step m (Stop m)
| ms_read k b current : mo_pollers m !! k = Some (pReading b) -> monitor_step m (after_read k b current m)
| ms_tick k : mo_pollers m !! k = Some pWaiting -> monitor_step m (set_poller k (pReading false) m)
| ms_rechecked k : mo_pollers m !! k = Some pWaiting -> mo_recheck m = true ->
    monitor_step m ((set_poller k (pReading false) m) <| mo_recheck := false |>)
| ms_stopped k : mo_pollers m !! k = Some pWaiting -> k ∈ mo_stop m -> monitor_step m (set_poller k pEnded m)
| ms_call k old new : mo_pollers m !! k = Some (pCalling old new) ->
    monitor_step m ((set_poller k pWaiting m) <| mo_calls ::= cons (old, new) |>).

(** ** wifi_lifecycle.go *)

(** A call of the lifecycle, and what a query answered. *)
Inductive WifiCall :=
| WActive | WDisconnect (name : string) | WConnect (name : string) | WStatus (connected : bool) | WSleep.

Record WifiEnv := MkWifiEnv {
  we_active : list WifiCall -> option (list string * list string);  (* RunningAndProtectedTunnels *)
  we_connect : list WifiCall -> string -> bool;
  we_status : list WifiCall -> option ConnectionStatus;             (* GetStatus *)
  we_gen : list WifiCall -> Z;                                      (* currentGen *)
  we_now : list WifiCall -> Z
}.

Definition tunnelConnected (st : ConnectionStatus) (name : string) : bool :=
  let shows t := (cs_TunnelName t =s name) && bool_decide (cs_State t = StateConnected) in
  shows st || existsb shows (cs_Tunnels st).

Definition wifiReleaseWait : Z := 180000000000.
Definition one_second : Z := 1000000000.

Section Lifecycle.
Context (env : WifiEnv).

(** The calls are the log, oldest first. *)
Definition disconnect_each (names : list string) : list WifiCall := WDisconnect <$> names.

(** What is to be released once the new tunnel is up, with the log. *)
Definition connectTunnel (name : string) (log : list WifiCall) : list WifiCall * option (list string) :=
  let log := log ++ [WActive] in
  match we_active env log with
  | None => (log, None)
  | Some (running, protected) =>
      let log := log ++ disconnect_each (List.filter (fun n => negb (n =s name)) running) in
      let log := log ++ [WConnect name] in
      if negb (we_connect env log name) then (log, None)
      else let release := List.filter (fun n => negb (n =s name)) protected in
           (log, if (length release =? 0)%nat then None else Some release)
  end.

(** The waiting loop: the log when the tunnel is connected, [inl] when it gave up. *)
Fixpoint release_loop (fuel : nat) (gen : Z) (name : string) (deadline : Z) (log : list WifiCall)
    : option (list WifiCall + list WifiCall) :=
  match fuel with
  | O => None
  | S fuel =>
      if negb (we_gen env log =? gen)%Z then Some (inl log)
      else
        let connected := match we_status env log with Some st => tunnelConnected st name | None => false end in
        let log := log ++ [WStatus connected] in
        if connected then Some (inr log)
        else if (deadline <? we_now env log)%Z then Some (inl log)
        else release_loop fuel gen name deadline (log ++ [WSleep])
  end.

Definition releaseAfterConnected (fuel : nat) (gen : Z) (name : string) (release : list string) (log : list WifiCall)
    : option (list WifiCall) :=
  match release_loop fuel gen name (we_now env log + wifiReleaseWait) log with
  | None => None
  | Some (inl log) => Some log
  | Some (inr log) =>
      let log := log ++ [WActive] in
      match we_active env log with
      | None => Some log
      | Some (running, protected) =>
          if negb (we_gen env log =? gen)%Z then Some log
          else Some (log ++ disconnect_each (List.filter (fun n => bool_decide (n ∈ running) || bool_decide (n ∈ protected)) release))
      end
  end.

(** trackedTunnelNames: the running ones, then the protected ones that are not among them. *)
Definition trackedTunnelNames (active : list string * list string) : list string :=
  foldl (fun names n => if bool_decide (n ∈ names) then names else names ++ [n]) (fst active) (snd active).

Definition disconnectAll (log : list WifiCall) : list WifiCall :=
  let log := log ++ [WActive] in
  match we_active env log with
  | None => log
  | Some active => log ++ disconnect_each (trackedTunnelNames active)
  end.

(** [rules]: what the store loads, [None] when it fails; the second component is the release that goes on in
    the background. *)
Definition handleSSIDChange (rules : option Rules) (newSSID : string) (log : list WifiCall) : list WifiCall * option (string * list string) :=
  match rules with
  | None => (log, None)
  | Some r =>
      match Action r newSSID with
      | ActNone => (log, None)
      | ActDisconnect => (disconnectAll log, None)
      | ActConnect name => let '(log, release) := connectTunnel name log in (log, (fun l => (name, l)) <$> release)
      end
  end.
End Lifecycle.

(** * Facts: what the Wi-Fi rules do

    A tunnel that the kill switch protects is only given up once the tunnel that replaces it is connected; the
    rules fire only when the permission to read the SSID is asked for; one poller is left at any time. *)

(** ** The rules *)

Lemma Action_active (r : Rules) (ssid : string) : Action r ssid <> ActNone -> HasActiveRules (Some r) = true.
Proof.
  unfold Action, HasActiveRules. destruct (Enabled r); cbn [negb andb orb]; [|congruence].
  destruct (ssid =s ""); [congruence|].
  case_bool_decide as Ht.
  - intros _. by destruct (TrustedSSIDs r); [set_solver|].
  - destruct (SSIDTunnelMap r !! ssid) as [t|] eqn:Em.
    + intros _. assert (size (SSIDTunnelMap r) <> 0%nat) as Hs.
      { intros H0. apply map_size_empty_inv in H0. by rewrite H0, lookup_empty in Em. }
      apply Nat.eqb_neq in Hs. rewrite Hs. cbn. by rewrite orb_true_r.
    + destruct (AutoConnectUntrusted r && negb (DefaultTunnel r =s "")) eqn:Ed; [|congruence].
      intros _. by rewrite orb_true_r.
Qed.

(** A trusted network wins over a mapping of the same network. *)
Lemma Action_trusted (r : Rules) (ssid : string) :
  Enabled r = true -> ssid <> "" -> ssid ∈ TrustedSSIDs r -> Action r ssid = ActDisconnect.
Proof.
  intros He Hs Ht. unfold Action. rewrite He.
  rewrite (bool_decide_false _ Hs), (bool_decide_true _ Ht). done.
Qed.

(** ** The monitor *)

(** Every poller is stopped, but for the last one while the monitor runs; a callback reports a change. *)
Definition monitor_ok (m : Monitor) : Prop :=
  (forall k, (k < length (mo_pollers m))%nat -> k ∈ mo_stop m \/ (mo_running m = true /\ S k = length (mo_pollers m)))
  /\ (mo_running m = true -> mo_pollers m <> [])
  /\ (forall k old new, mo_pollers m !! k = Some (pCalling old new) -> old <> new)
  /\ Forall (fun c => fst c <> snd c) (mo_calls m).

Lemma monitor_ok_set k p m :
  monitor_ok m -> (forall old new, p = pCalling old new -> old <> new) -> monitor_ok (set_poller k p m).
Proof.
  intros (Hs & Hr & Hc & Hf) Hp. unfold set_poller. split; [|split; [|split]]; cbn.
  - intros j. rewrite length_insert. apply Hs.
  - intros H E. apply (Hr H). apply (f_equal length) in E. rewrite length_insert in E.
    by apply nil_length_inv.
  - intros j old new. rewrite list_lookup_insert. case_decide; [intros [= ->]; by apply Hp | apply Hc].
  - exact Hf.
Qed.

Lemma monitor_ok_step m m' : monitor_ok m -> monitor_step m m' -> monitor_ok m'.
Proof.
  intros Hm Hst. pose proof Hm as (Hs & Hr & Hc & Hf).
  destruct Hst as [| | |k b current Hk|k Hk|k Hk Hre|k Hk Hin|k old new Hk]; [exact Hm| | | | | | |].
  - unfold Start. destruct (mo_running m) eqn:E; [exact Hm|]. split; [|split; [|split]]; cbn.
    + intros k. rewrite length_app. cbn. intros Hk.
      destruct (decide (k = length (mo_pollers m))) as [->|]; [right; split; [done|lia]|].
      destruct (Hs k) as [?|[? ?]]; [lia|by left|congruence].
    + intros _ H. by destruct (mo_pollers m).
    + intros k old new H. apply lookup_app_Some in H as [H|[_ H]]; [by eapply Hc|].
      by apply list_lookup_singleton_Some in H as [_ [=]].
    + exact Hf.
  - unfold Stop. destruct (mo_running m) eqn:E; cbn [negb]; [|exact Hm]. split; [|split; [|split]]; cbn; try done.
    intros k Hk. left. destruct (Hs k Hk) as [?|[_ Hl]]; [set_solver|].
    replace (pred (length (mo_pollers m))) with k by lia. set_solver.
  - unfold after_read. destruct b; [|destruct (current =s lastSSID m) eqn:E].
    + by apply (monitor_ok_set k pWaiting).
    + by apply monitor_ok_set.
    + apply (monitor_ok_set k (pCalling (lastSSID m) current)); [exact Hm|].
      intros o n [= <- <-] Heq. apply bool_decide_eq_false in E. congruence.
  - by apply monitor_ok_set.
  - by apply (monitor_ok_set k (pReading false)).
  - by apply monitor_ok_set.
  - assert (monitor_ok (set_poller k pWaiting m)) as (Hs' & Hr' & Hc' & Hf') by (by apply monitor_ok_set).
    split; [exact Hs'|split; [exact Hr'|split; [exact Hc'|]]]. cbn. constructor; [by eapply Hc|exact Hf].
Qed.

(** At any time at most one poller is left that no Stop has ended, the one started last. *)
Lemma one_poller m :
  rtc monitor_step new_monitor m ->
  (forall k, (k < length (mo_pollers m))%nat -> k ∉ mo_stop m -> mo_running m = true /\ S k = length (mo_pollers m))
  /\ Forall (fun c => fst c <> snd c) (mo_calls m).
Proof.
  intros Hr. enough (monitor_ok m) as (Hs & _ & _ & Hf).
  { split; [|exact Hf]. intros k Hk Hn. by destruct (Hs k Hk) as [?|?]. }
  assert (monitor_ok new_monitor) as H0.
  { split; [|split; [|split]]; cbn; try done; intros; lia. }
  induction Hr as [|m1 m2 m3 Hst _ IH]; [done|]. apply IH. by eapply monitor_ok_step.
Qed.

(** ** The lifecycle *)

(** What is asked of the clock: it never goes back, and a sleep takes its second. *)
Definition clock_runs (env : WifiEnv) : Prop :=
  (forall log c, we_now env log <= we_now env (log ++ [c]))%Z
  /\ (forall log, we_now env log + one_second <= we_now env (log ++ [WSleep]))%Z.

(** The tunnel is shown connected after the calls [log], and no newer Wi-Fi action has started. *)
Definition replaced (env : WifiEnv) (gen : Z) (name : string) (log : list WifiCall) : Prop :=
  we_gen env log = gen /\ exists st, we_status env log = Some st /\ tunnelConnected st name = true.

Definition never_disconnects (l : list WifiCall) : Prop := forall n, WDisconnect n ∉ l.

Ltac no_disconnect :=
  let n := fresh "n" in let H := fresh "H" in
  intros n H; repeat (apply elem_of_cons in H as [H|H]; [done|]); by apply not_elem_of_nil in H.

Lemma elem_of_middle {A} (x : A) before after : x ∈ before ++ x :: after.
Proof. apply elem_of_app. right. apply elem_of_cons. by left. Qed.

Lemma never_disconnects_app l1 l2 : never_disconnects l1 -> never_disconnects l2 -> never_disconnects (l1 ++ l2).
Proof. intros H1 H2 n [H|H]%elem_of_app; [by eapply H1|by eapply H2]. Qed.

(** What the waiting loop adds to the log. *)
Lemma release_loop_log env fuel gen name deadline log res :
  release_loop env fuel gen name deadline log = Some res ->
  exists tail, never_disconnects tail
  /\ match res with
     | inl log' => log' = log ++ tail
     | inr log' => exists before, tail = before ++ [WStatus true] /\ log' = log ++ tail /\ replaced env gen name (log ++ before)
     end.
Proof.
  revert log. induction fuel as [|fuel IH]; intros log; [done|]. cbn [release_loop].
  destruct (we_gen env log =? gen)%Z eqn:Eg; cbn [negb].
  2:{ intros [= <-]. exists []. split; [no_disconnect|by rewrite app_nil_r]. }
  apply Z.eqb_eq in Eg.
  destruct (match we_status env log with Some st => tunnelConnected st name | None => false end) eqn:Ec.
  - intros [= <-]. exists [WStatus true]. split; [no_disconnect|].
    exists []. rewrite app_nil_r. split; [done|split; [done|]]. split; [done|].
    destruct (we_status env log) as [st|]; [|done]. by exists st.
  - destruct (deadline <? we_now env (log ++ [WStatus false]))%Z.
    + intros [= <-]. exists [WStatus false]. split; [no_disconnect|done].
    + intros H. apply IH in H as (tail & Hn & H). exists ([WStatus false; WSleep] ++ tail).
      split; [apply never_disconnects_app; [no_disconnect|done]|].
      destruct res as [log'|log'].
      * by rewrite H, <- !app_assoc.
      * destruct H as (before & -> & -> & Hr). exists ([WStatus false; WSleep] ++ before).
        split; [by rewrite app_assoc|split; [by rewrite <- !app_assoc|]].
        rewrite (app_assoc log). by rewrite <- (app_assoc log [WStatus false] [WSleep]) in Hr.
Qed.

(** The loop ends: a round takes a second. *)
Lemma release_loop_ends env (Hc : clock_runs env) fuel gen name deadline log :
  (deadline < we_now env log + (Z.of_nat fuel - 1) * one_second)%Z -> (0 < fuel)%nat ->
  is_Some (release_loop env fuel gen name deadline log).
Proof.
  destruct Hc as [Hm Hs]. revert log. induction fuel as [|fuel IH]; intros log Hd Hf; [lia|]. cbn [release_loop].
  destruct (negb _); [by eexists|].
  set (c := match we_status env log with Some _ => _ | None => _ end).
  destruct c; [by eexists|]. destruct (deadline <? _)%Z eqn:Ed; [by eexists|].
  apply Z.ltb_ge in Ed. specialize (Hm log (WStatus false)). specialize (Hs (log ++ [WStatus false])).
  unfold one_second in *. apply IH; lia.
Qed.

Lemma disconnect_each_elem names n : WDisconnect n ∈ disconnect_each names <-> n ∈ names.
Proof. unfold disconnect_each. rewrite list_elem_of_fmap. split; [by intros (x & [= <-] & H)|by exists n]. Qed.

Lemma others_elem (name n : string) l : n ∈ List.filter (fun n => negb (n =s name)) l -> n ∈ l /\ n <> name.
Proof.
  rewrite !list_elem_of_In, filter_In, negb_true_iff, bool_decide_eq_false. done.
Qed.

(** The tunnels taken down before the new one is connected are running ones. *)
Lemma connectTunnel_log env name log log' release :
  connectTunnel env name log = (log', release) ->
  exists tail, log' = log ++ tail
  /\ (forall n, WDisconnect n ∈ tail -> n <> name /\ exists running protected,
        we_active env (log ++ [WActive]) = Some (running, protected) /\ n ∈ running)
  /\ (forall rel n, release = Some rel -> n ∈ rel -> n <> name /\ exists running protected,
        we_active env (log ++ [WActive]) = Some (running, protected) /\ n ∈ protected).
Proof.
  unfold connectTunnel. destruct (we_active env (log ++ [WActive])) as [[running protected]|] eqn:Ea.
  - set (run := disconnect_each _). set (t := [WActive] ++ run ++ [WConnect name]).
    assert (forall n, WDisconnect n ∈ t -> n <> name /\ n ∈ running) as Ht.
    { unfold t, run. intros n Hin. rewrite !elem_of_app, disconnect_each_elem in Hin.
      destruct Hin as [Hin|[Hin|Hin]]; [by apply list_elem_of_singleton in Hin| |by apply list_elem_of_singleton in Hin].
      by apply others_elem in Hin as [? ?]. }
    replace (((log ++ [WActive]) ++ run) ++ [WConnect name]) with (log ++ t) by (unfold t; by rewrite <- !app_assoc).
    destruct (negb _); [|destruct (_ =? 0)%nat]; intros [= <- <-]; exists t; (split; [done|split]);
      try (intros n Hin; destruct (Ht n Hin); split; [done|by eexists _, _]); try done.
    intros rel n [= <-] Hin. apply others_elem in Hin as [? ?]. split; [done|by eexists _, _].
  - intros [= <- <-]. exists [WActive]. split; [done|split; [no_disconnect|done]].
Qed.

(** When a change of network brings up a tunnel, the tunnels the kill switch only protects (reconnecting,
    or blocked) are not touched before the new tunnel is connected: what is disconnected first was running, and
    the release that follows ends within 182 rounds of the waiting loop and disconnects a protected tunnel only
    after a status that shows the new tunnel connected, at a time when no newer Wi-Fi action had started. *)
Theorem wifi_releases_after_connect (env : WifiEnv) (r : Rules) (ssid name : string) (gen : Z) (log : list WifiCall)
    (release : list string) (Hclock : clock_runs env)
    (Hh : handleSSIDChange env (Some r) ssid [] = (log, Some (name, release))) :
  (forall n, WDisconnect n ∈ log -> n <> name /\ exists running protected,
     we_active env [WActive] = Some (running, protected) /\ n ∈ running)
  /\ exists tail, releaseAfterConnected env 182 gen name release log = Some (log ++ tail)
  /\ forall before n after, tail = before ++ WDisconnect n :: after ->
       n <> name /\ n ∈ release
       /\ exists b1 b2, before = b1 ++ WStatus true :: b2 /\ replaced env gen name (log ++ b1).
Proof.
  unfold handleSSIDChange in Hh. destruct (Action r ssid) as [| |t]; [done|done|].
  destruct (connectTunnel env t []) as [log0 rel0] eqn:Ec. apply connectTunnel_log in Ec as (tl & -> & Hd & Hrel).
  destruct rel0 as [rel|]; [|done]. cbn in Hh. injection Hh as Hlog -> ->. subst log. split; [exact Hd|].
  set (log := tl). unfold releaseAfterConnected.
  destruct (release_loop_ends env Hclock 182 gen name (we_now env log + wifiReleaseWait) log) as [res Hres];
    [unfold wifiReleaseWait, one_second; lia|lia|].
  rewrite Hres. apply release_loop_log in Hres as (tail & Hn & Hres).
  destruct res as [log'|log'].
  - subst log'. exists tail. split; [done|]. intros before n after ->. destruct (Hn n). apply elem_of_middle.
  - destruct Hres as (b1 & -> & -> & Hr).
    assert (forall l, never_disconnects l -> forall before n after, l = before ++ WDisconnect n :: after -> False) as Hno.
    { intros l Hl before n after ->. apply (Hl n), elem_of_middle. }
    assert (never_disconnects ((b1 ++ [WStatus true]) ++ [WActive])) as Hn'.
    { apply never_disconnects_app; [done|no_disconnect]. }
    destruct (we_active env ((log ++ b1 ++ [WStatus true]) ++ [WActive])) as [[running protected]|].
    2:{ rewrite <- app_assoc. eexists. split; [done|]. intros before n after E. by destruct (Hno _ Hn' _ _ _ E). }
    destruct (negb _).
    { rewrite <- app_assoc. eexists. split; [done|]. intros before n after E. by destruct (Hno _ Hn' _ _ _ E). }
    rewrite <- !app_assoc. eexists. split; [done|]. intros before n after E.
    rewrite (app_assoc b1) in E. rewrite (app_assoc (b1 ++ _)) in E.
    assert (n ∈ release) as Hin.
    { assert (WDisconnect n ∈ ((b1 ++ [WStatus true]) ++ [WActive])
               ++ disconnect_each (List.filter (fun n => bool_decide (n ∈ running) || bool_decide (n ∈ protected)) release))
        as [H|H]%elem_of_app by (rewrite E; apply elem_of_middle); [by destruct (Hn' n)|].
      rewrite disconnect_each_elem, list_elem_of_In, filter_In in H. apply list_elem_of_In, H. }
    split; [by eapply Hrel|split; [done|]].
    symmetry in E. apply app_eq_app in E as (l & [[-> E]|[E E']]).
    + exists b1, (WActive :: l). split; [by rewrite <- !app_assoc|done].
    + destruct l as [|c l]; cbn in E'.
      * rewrite app_nil_r in E. exists b1, [WActive]. split; [by rewrite <- E, <- app_assoc|done].
      * injection E' as <- ->. destruct (Hn' n). rewrite E. apply elem_of_middle.
Qed.

(** A network mapped to "new", while "old" runs and "blocked" is protected; "new" is up after a second. *)
Definition sleeps (log : list WifiCall) : Z :=
  Z.of_nat (length (List.filter (fun c => match c with WSleep => true | _ => false end) log)).

Definition example_rules : Rules := MkRules true "" false ["home"] {["cafe" := "new"]}.

Definition example_status (name : string) : ConnectionStatus := zero_status <| cs_State := StateConnected |> <| cs_TunnelName := name |>.

Definition example_env : WifiEnv :=
  MkWifiEnv (fun _ => Some (["old"], ["blocked"])) (fun _ _ => true)
    (fun log => Some (example_status (if (sleeps log =? 0)%Z then "old" else "new"))) (fun _ => 1%Z)
    (fun log => (sleeps log * one_second)%Z).

Lemma sleeps_app l1 l2 : sleeps (l1 ++ l2) = (sleeps l1 + sleeps l2)%Z.
Proof. unfold sleeps. rewrite List.filter_app, length_app. lia. Qed.

Lemma example_clock : clock_runs example_env.
Proof.
  split; cbn; intros log; [intros c|]; rewrite sleeps_app.
  - unfold sleeps at 3. pose proof one_second. unfold one_second. destruct c; cbn; lia.
  - unfold sleeps at 3, one_second. cbn. lia.
Qed.

Example example_run :
  (let '(log, release) := handleSSIDChange example_env (Some example_rules) "cafe" [] in
   (log, release, releaseAfterConnected example_env 182 1 "new" ["blocked"] log))
  = ([WActive; WDisconnect "old"; WConnect "new"], Some ("new", ["blocked"]),
     Some [WActive; WDisconnect "old"; WConnect "new"; WStatus false; WSleep; WStatus true; WActive; WDisconnect "blocked"]).
Proof. vm_compute. reflexivity. Qed.

Lemma wifi_releases_after_connect_witness :
  exists tail, releaseAfterConnected example_env 182 1 "new" ["blocked"] [WActive; WDisconnect "old"; WConnect "new"]
    = Some ([WActive; WDisconnect "old"; WConnect "new"] ++ tail)
  /\ forall before n after, tail = before ++ WDisconnect n :: after ->
       n <> "new" /\ n ∈ ["blocked"]
       /\ exists b1 b2, before = b1 ++ WStatus true :: b2
          /\ replaced example_env 1 "new" ([WActive; WDisconnect "old"; WConnect "new"] ++ b1).
Proof.
  refine (proj2 (wifi_releases_after_connect example_env example_rules "cafe" "new" 1 _ _ example_clock _)).
  vm_compute. reflexivity.
Defined.
