(* ===== verification/AtomicWrite.v ===== *)
(** * Writing a file whole: WriteFileAtomic of internal/storage/rename.go, the DNS journal's own of internal/network

    What [Store] takes as one step, call by call: several writers of one path at once, and a crash at any moment.
    A directory maps names to files; what a crash leaves of it is one of the versions since it was last synced,
    and of a file what was synced. *)

From S2P Require Import Prelude GoStrings.

#[local] Set Warnings "-clear-no-such-hyp".

(** ** The disk *)

Record Disk := MkDisk { dk_dir : gmap string nat; dk_data : gmap nat string; dk_synced : gset nat; dk_past : list (gmap string nat) }.

#[export] Instance eta_disk : Eta Disk := fun r => MkDisk (dk_dir r) (dk_data r) (dk_synced r) (dk_past r).

Definition set_dir (dir : gmap string nat) (d : Disk) : Disk := d <| dk_dir := dir |> <| dk_past ::= cons dir |>.

(** What the name may hold after a crash. *)
Definition crash_content (d : Disk) (path : string) (c : option string) : Prop :=
  exists dir (read : nat -> option string),
    dir ∈ dk_past d /\ (forall i, i ∈ dk_synced d -> read i = dk_data d !! i) /\ c = (dir !! path) ≫= read.

(** What a reader finds. *)
Definition content (d : Disk) (path : string) : option string := (dk_dir d !! path) ≫= fun i => dk_data d !! i.

(** ** A writer: WriteFileAtomic between its calls *)

Inductive WriterPc := WpOpen | WpWritten | WpSynced | WpFailed | WpRemoved | WpDone.

#[export] Instance writer_pc_eq_dec : EqDecision WriterPc.
Proof. solve_decision. Defined.

Record FileWriter := MkWriter { wr_data : string; wr_tmp : string; wr_inode : nat; wr_pc : WriterPc }.

#[export] Instance eta_writer : Eta FileWriter := fun r => MkWriter (wr_data r) (wr_tmp r) (wr_inode r) (wr_pc r).

Record Writing := MkWriting { ws_disk : Disk; ws_writers : list FileWriter }.

Section Write.
Context (path : string).

Definition at_pc (w : FileWriter) (j : nat) (pc : WriterPc) (s : Writing) (d : Disk) : Writing :=
  MkWriting d (<[j := w <| wr_pc := pc |>]> (ws_writers s)).

(** A call of a writer, or the directory reaching the disk (the best-effort sync at the end, or on its own). *)
Inductive write_step (s : Writing) : Writing -> Prop :=
| wt_create data tmp i : dk_dir (ws_disk s) !! tmp = None -> dk_data (ws_disk s) !! i = None -> tmp <> path ->
    write_step s (MkWriting ((set_dir (<[tmp := i]> (dk_dir (ws_disk s))) (ws_disk s)) <| dk_data ::= <[i := ""]> |>)
                    (ws_writers s ++ [MkWriter data tmp i WpOpen]))
| wt_write j w : ws_writers s !! j = Some w -> wr_pc w = WpOpen ->
    write_step s (at_pc w j WpWritten s ((ws_disk s) <| dk_data ::= <[wr_inode w := wr_data w]> |>))
| wt_write_fails j w k : ws_writers s !! j = Some w -> wr_pc w = WpOpen ->
    write_step s (at_pc w j WpFailed s ((ws_disk s) <| dk_data ::= <[wr_inode w := string_take k (wr_data w)]> |>))
| wt_sync j w : ws_writers s !! j = Some w -> wr_pc w = WpWritten ->
    write_step s (at_pc w j WpSynced s ((ws_disk s) <| dk_synced ::= fun m => {[wr_inode w]} ∪ m |>))
| wt_fails j w : ws_writers s !! j = Some w -> wr_pc w = WpWritten \/ wr_pc w = WpSynced ->   (* chmod, sync; close, rename *)
    write_step s (at_pc w j WpFailed s (ws_disk s))
| wt_rename j w i : ws_writers s !! j = Some w -> wr_pc w = WpSynced -> dk_dir (ws_disk s) !! wr_tmp w = Some i ->
    write_step s (at_pc w j WpDone s (set_dir (<[path := i]> (delete (wr_tmp w) (dk_dir (ws_disk s)))) (ws_disk s)))
| wt_remove j w : ws_writers s !! j = Some w -> wr_pc w = WpFailed ->
    write_step s (at_pc w j WpRemoved s (set_dir (delete (wr_tmp w) (dk_dir (ws_disk s))) (ws_disk s)))
| wt_dir_sync : write_step s (MkWriting ((ws_disk s) <| dk_past := [dk_dir (ws_disk s)] |>) (ws_writers s)).

(** A directory at rest: its files are there and on the disk. *)
Definition settled (d : Disk) : Prop :=
  dk_past d = [dk_dir d] /\ forall f i, dk_dir d !! f = Some i -> is_Some (dk_data d !! i) /\ i ∈ dk_synced d.

Definition live (w : FileWriter) : Prop := wr_pc w <> WpDone /\ wr_pc w <> WpRemoved.

Definition whole (w : FileWriter) : Prop := wr_pc w = WpSynced \/ wr_pc w = WpDone.

(** ** Facts *)

(** What holds of the writers that run on a disk that was [d0]. *)
Definition writer_ok (d0 : Disk) (d : Disk) (w : FileWriter) : Prop :=
  (live w -> dk_dir d !! wr_tmp w = Some (wr_inode w) /\ wr_tmp w <> path)
  /\ is_Some (dk_data d !! wr_inode w) /\ dk_data d0 !! wr_inode w = None
  /\ (wr_pc w = WpWritten \/ whole w -> dk_data d !! wr_inode w = Some (wr_data w))
  /\ (whole w -> wr_inode w ∈ dk_synced d).

Definition version_ok (d0 : Disk) (ws : list FileWriter) (dir : gmap string nat) : Prop :=
  dir !! path = dk_dir d0 !! path \/ exists j w, ws !! j = Some w /\ wr_pc w = WpDone /\ dir !! path = Some (wr_inode w).

Record write_inv (d0 : Disk) (s : Writing) : Prop := {
  wi_writers j w : ws_writers s !! j = Some w -> writer_ok d0 (ws_disk s) w;
  wi_apart j k w v : ws_writers s !! j = Some w -> ws_writers s !! k = Some v -> wr_inode w = wr_inode v -> j = k;
  wi_past dir : dir ∈ dk_past (ws_disk s) -> version_ok d0 (ws_writers s) dir;
  wi_now : dk_dir (ws_disk s) ∈ dk_past (ws_disk s);
  wi_data i : is_Some (dk_data d0 !! i) -> dk_data (ws_disk s) !! i = dk_data d0 !! i;
  wi_synced : dk_synced d0 ⊆ dk_synced (ws_disk s)
}.

Lemma start_inv d0 : settled d0 -> write_inv d0 (MkWriting d0 []).
Proof.
  intros [Hp _]. split; cbn; try done.
  - rewrite Hp. intros dir ->%list_elem_of_singleton. by left.
  - rewrite Hp. by apply list_elem_of_singleton.
Qed.

(** Two live writers have different temporary names. *)
Lemma tmp_apart d0 s j k w v : write_inv d0 s -> ws_writers s !! j = Some w -> ws_writers s !! k = Some v ->
  live w -> live v -> j <> k -> wr_tmp w <> wr_tmp v.
Proof.
  intros Hi Hw Hv Lw Lv Hjk E. destruct (wi_writers _ _ Hi _ _ Hw) as [Tw _]. destruct (wi_writers _ _ Hi _ _ Hv) as [Tv _].
  destruct (Tw Lw) as [H1 _], (Tv Lv) as [H2 _]. rewrite E, H2 in H1. injection H1 as H1. by apply Hjk, (wi_apart _ _ Hi j k w v).
Qed.

(** A step of writer [j]: what the disk must keep. *)
Lemma writer_step d0 s j w pc d' : write_inv d0 s -> ws_writers s !! j = Some w -> wr_pc w <> WpDone ->
  (forall k v, k <> j -> ws_writers s !! k = Some v -> live v -> dk_dir d' !! wr_tmp v = Some (wr_inode v)) ->
  (forall i, i <> wr_inode w -> dk_data d' !! i = dk_data (ws_disk s) !! i) ->
  dk_synced (ws_disk s) ⊆ dk_synced d' ->
  writer_ok d0 d' (w <| wr_pc := pc |>) ->
  (forall dir, dir ∈ dk_past d' -> dir ∈ dk_past (ws_disk s)
     \/ dir !! path = dk_dir (ws_disk s) !! path \/ pc = WpDone /\ dir !! path = Some (wr_inode w)) ->
  dk_dir d' ∈ dk_past d' ->
  write_inv d0 (at_pc w j pc s d').
Proof.
  intros Hi Hw Hpc Hdir Hdata Hsync Hok Hpast Hnow.
  assert (Hlt : (j < length (ws_writers s))%nat) by (by apply lookup_lt_Some in Hw).
  assert (Hkeep : forall dir, version_ok d0 (ws_writers s) dir -> version_ok d0 (<[j := w <| wr_pc := pc |>]> (ws_writers s)) dir).
  { intros dir [H|(k & v & Hv & Hd & H)]; [by left|]. right. exists k, v. split_and!; [|done..].
    rewrite list_lookup_insert_ne; [done|]. intros <-. by simplify_eq. }
  split; cbn [at_pc ws_disk ws_writers].
  - intros k v Hv. destruct (decide (k = j)) as [->|Hne].
    + rewrite list_lookup_insert_eq in Hv by done. by injection Hv as <-.
    + rewrite list_lookup_insert_ne in Hv by done. destruct (wi_writers _ _ Hi _ _ Hv) as (H1 & H2 & H3 & H4 & H5).
      assert (wr_inode v <> wr_inode w) as Hn by (intros E; by apply Hne, (wi_apart _ _ Hi k j v w)).
      unfold writer_ok. rewrite Hdata by done. split_and!; [|done..|].
      * intros Hl. split; [by apply (Hdir k)|]. by apply H1.
      * intros Hl. specialize (H5 Hl). set_solver.
  - intros k k' v v' Hv Hv' E.
    assert (Hx : forall k v, <[j := w <| wr_pc := pc |>]> (ws_writers s) !! k = Some v ->
              exists v0, ws_writers s !! k = Some v0 /\ wr_inode v0 = wr_inode v).
    { intros x y Hy. destruct (decide (x = j)) as [->|Hne]; [rewrite list_lookup_insert_eq in Hy by done; injection Hy as <-; eauto|].
      rewrite list_lookup_insert_ne in Hy by done. eauto. }
    destruct (Hx _ _ Hv) as (v0 & Hv0 & E0), (Hx _ _ Hv') as (v1 & Hv1 & E1). apply (wi_apart _ _ Hi _ _ _ _ Hv0 Hv1). congruence.
  - intros dir Hd. destruct (Hpast dir Hd) as [H|[H|[-> H]]].
    + by apply Hkeep, (wi_past _ _ Hi).
    + destruct (Hkeep _ (wi_past _ _ Hi _ (wi_now _ _ Hi))) as [H'|(k & v & H1 & H2 & H3)]; [left|right; exists k, v]; rewrite H; done.
    + right. exists j, (w <| wr_pc := WpDone |>). split_and!; [by rewrite list_lookup_insert_eq|done..].
  - done.
  - intros i Hs. rewrite Hdata; [by apply (wi_data _ _ Hi)|]. intros ->. destruct (wi_writers _ _ Hi _ _ Hw) as (_ & _ & H & _).
    rewrite H in Hs. by destruct Hs.
  - etrans; [apply (wi_synced _ _ Hi)|done].
Qed.

(** A new temporary file. *)
Lemma create_inv d0 s data tmp i : write_inv d0 s ->
  dk_dir (ws_disk s) !! tmp = None -> dk_data (ws_disk s) !! i = None -> tmp <> path ->
  write_inv d0 (MkWriting ((set_dir (<[tmp := i]> (dk_dir (ws_disk s))) (ws_disk s)) <| dk_data ::= <[i := ""]> |>)
                  (ws_writers s ++ [MkWriter data tmp i WpOpen])).
Proof.
  intros Hi Ht Hf Hp.
  assert (Hnone : dk_data d0 !! i = None).
  { destruct (dk_data d0 !! i) eqn:E; [|done]. rewrite (wi_data _ _ Hi) in Hf by (rewrite E; by eexists). congruence. }
  assert (Hnew : forall k v, ws_writers s !! k = Some v -> wr_inode v <> i).
  { intros k v Hv E. destruct (wi_writers _ _ Hi _ _ Hv) as (_ & [? H] & _). congruence. }
  split; cbn [ws_disk ws_writers].
  - intros j w Hw. apply lookup_app_Some in Hw as [Hw|[_ Hw]].
    + destruct (wi_writers _ _ Hi _ _ Hw) as (H1 & H2 & H3 & H4 & H5). pose proof (Hnew _ _ Hw) as Hne. unfold writer_ok. cbn.
      rewrite !(lookup_insert_ne (dk_data (ws_disk s))) by done. split_and!; [|done..]. intros Hl. destruct (H1 Hl) as [H6 H7]. split; [|done].
      rewrite lookup_insert_ne; [done|]. intros E. congruence.
    + apply list_lookup_singleton_Some in Hw as [_ <-]. unfold writer_ok. cbn. rewrite !lookup_insert_eq.
      split_and!; [done|by eexists|done|by intros [|[|]]|by intros [|]].
  - intros j k w v Hw Hv E. apply lookup_app_Some in Hw as [Hw|[Hj Hw]]; apply lookup_app_Some in Hv as [Hv'|[Hk Hv']].
    + by apply (wi_apart _ _ Hi j k w v).
    + apply list_lookup_singleton_Some in Hv' as [_ <-]. by destruct (Hnew _ _ Hw).
    + apply list_lookup_singleton_Some in Hw as [_ <-]. cbn in E. by destruct (Hnew _ _ Hv').
    + apply list_lookup_singleton_Some in Hw as [Hw _]. apply list_lookup_singleton_Some in Hv' as [Hv' _]. lia.
  - assert (Hkeep : forall dir, version_ok d0 (ws_writers s) dir -> version_ok d0 (ws_writers s ++ [MkWriter data tmp i WpOpen]) dir).
    { intros dir [H|(k & v & Hv & Hd & H)]; [by left|right]. exists k, v. split; [by apply lookup_app_l_Some|done]. }
    intros dir [->|Hd]%elem_of_cons; [|by apply Hkeep, (wi_past _ _ Hi)].
    destruct (Hkeep _ (wi_past _ _ Hi _ (wi_now _ _ Hi))) as [H|(k & v & H1 & H2 & H3)].
    + left. by rewrite lookup_insert_ne.
    + right. exists k, v. by rewrite lookup_insert_ne.
  - by left.
  - intros x Hx. cbn. rewrite lookup_insert_ne; [by apply (wi_data _ _ Hi)|]. intros <-. rewrite Hnone in Hx. by destruct Hx.
  - apply (wi_synced _ _ Hi).
Qed.

(** A call on the writer's own file. *)
Lemma advance_inv d0 s j w pc d' : write_inv d0 s -> ws_writers s !! j = Some w -> live w -> pc <> WpDone ->
  dk_dir d' = dk_dir (ws_disk s) -> dk_past d' = dk_past (ws_disk s) ->
  (forall i, i <> wr_inode w -> dk_data d' !! i = dk_data (ws_disk s) !! i) -> is_Some (dk_data d' !! wr_inode w) ->
  dk_synced (ws_disk s) ⊆ dk_synced d' ->
  (pc = WpWritten \/ pc = WpSynced -> dk_data d' !! wr_inode w = Some (wr_data w)) ->
  (pc = WpSynced -> wr_inode w ∈ dk_synced d') ->
  write_inv d0 (at_pc w j pc s d').
Proof.
  intros Hi Hw Hl Hpc Hdir Hpast Hdata Hsome Hsync Hwhole Hsynced. destruct (wi_writers _ _ Hi _ _ Hw) as (H1 & H2 & H3 & _).
  apply (writer_step d0 s j w); [done..|by destruct Hl| |done|done| | |].
  - intros k v _ Hv Hlv. rewrite Hdir. by apply (wi_writers _ _ Hi _ _ Hv).
  - unfold writer_ok, whole. cbn. rewrite Hdir. split_and!; [intros _; by apply H1|done..| |].
    + intros [E|[E|E]]; [apply Hwhole; by left|apply Hwhole; by right|done].
    + intros [E|E]; [by apply Hsynced|done].
  - intros dir Hd. left. by rewrite <- Hpast.
  - rewrite Hdir, Hpast. apply (wi_now _ _ Hi).
Qed.

Lemma write_step_inv d0 s s' : write_step s s' -> write_inv d0 s -> write_inv d0 s'.
Proof.
  intros Hs Hi. destruct Hs as [data tmp i Ht Hf Hp|j w Hw Hpc|j w k Hw Hpc|j w Hw Hpc|j w Hw Hpc|j w i Hw Hpc Hn|j w Hw Hpc| ];
    [by apply create_inv| | | | | | | ].
  7: { (* the directory is synced *)
    destruct Hi as [I1 I2 I3 I4 I5 I6]. split; cbn; try done; [|by apply list_elem_of_singleton].
    intros dir ->%list_elem_of_singleton. by apply I3. }
  all: assert (Hl : live w) by (split; destruct_or? Hpc; congruence).
  all: destruct (wi_writers _ _ Hi _ _ Hw) as (H1 & H2 & H3 & H4 & H5); destruct (H1 Hl) as [Htmp Hne].
  - apply (advance_inv d0 s j w); cbn; try done; [|by rewrite lookup_insert_eq..]. intros x Hx. by rewrite lookup_insert_ne.
  - apply (advance_inv d0 s j w); cbn; try done; [|by rewrite lookup_insert_eq|by intros [|]]. intros x Hx. by rewrite lookup_insert_ne.
  - apply (advance_inv d0 s j w); cbn; try done; [set_solver| |set_solver]. intros _. apply H4. by left.
  - apply (advance_inv d0 s j w); cbn; try done. by intros [|].
  - (* rename *)
    assert (i = wr_inode w) as -> by congruence. apply (writer_step d0 s j w); try done; cbn.
    + by destruct Hl.
    + intros k v Hk Hv Hlv. destruct (wi_writers _ _ Hi _ _ Hv) as (G & _). destruct (G Hlv) as [G1 G2].
      rewrite lookup_insert_ne by done. rewrite lookup_delete_ne; [done|]. exact (tmp_apart d0 s j k w v Hi Hw Hv Hl Hlv (not_eq_sym Hk)).
    + unfold writer_ok. cbn. split_and!; [by intros []|done..| |]; intros _; [apply H4; by right; left|apply H5; by left].
    + intros dir [->|Hd]%elem_of_cons; [|by left]. right; right. split; [done|]. by rewrite lookup_insert_eq.
    + by left.
  - (* the removal after a failure *)
    apply (writer_step d0 s j w); try done; cbn.
    + by destruct Hl.
    + intros k v Hk Hv Hlv. destruct (wi_writers _ _ Hi _ _ Hv) as (G & _). destruct (G Hlv) as [G1 G2].
      rewrite lookup_delete_ne; [done|]. exact (tmp_apart d0 s j k w v Hi Hw Hv Hl Hlv (not_eq_sym Hk)).
    + unfold writer_ok. cbn. split_and!; [by intros []|done..|by intros [|[|]]|by intros [|]].
    + intros dir [->|Hd]%elem_of_cons; [|by left]. right; left. by rewrite lookup_delete_ne.
    + by left.
Qed.

Lemma writing_inv d0 s : settled d0 -> rtc write_step (MkWriting d0 []) s -> write_inv d0 s.
Proof.
  intros H0 Hr. revert s Hr. apply (rtc_ind_r (fun s => write_inv d0 s) (MkWriting d0 [])); [by apply start_inv|].
  intros s s' _ Hs Hi. by apply (write_step_inv d0 s).
Qed.

(** What a version of the directory shows of the file, where what was synced reads back. *)
Lemma version_content d0 s dir read : settled d0 -> write_inv d0 s -> version_ok d0 (ws_writers s) dir ->
  (forall i, i ∈ dk_synced (ws_disk s) -> read i = dk_data (ws_disk s) !! i) ->
  (dir !! path) ≫= read = content d0 path \/ exists w, w ∈ ws_writers s /\ wr_pc w = WpDone /\ (dir !! path) ≫= read = Some (wr_data w).
Proof.
  intros [_ Hrest] Hi [H|(j & w & Hw & Hd & H)] Hr; rewrite H; [left|right].
  - unfold content. destruct (dk_dir d0 !! path) as [i|] eqn:E; [|done]. cbn. destruct (Hrest _ _ E) as [H1 H2].
    rewrite Hr by (by apply (wi_synced _ _ Hi)). by apply (wi_data _ _ Hi).
  - exists w. destruct (wi_writers _ _ Hi _ _ Hw) as (_ & _ & _ & H4 & H5). assert (Hh : whole w) by (by right).
    split_and!; [by eapply list_elem_of_lookup_2|done|]. cbn. rewrite Hr by auto. auto.
Qed.

(** C36: However many writers of the path there are, whatever fails and whenever the machine stops, a reader and
    whoever looks after the crash find what was there before or the whole data of one writer whose rename was made:
    never a part of a file, never two writes mixed. *)
Theorem written_whole d0 s c : settled d0 -> rtc write_step (MkWriting d0 []) s ->
  c = content (ws_disk s) path \/ crash_content (ws_disk s) path c ->
  c = content d0 path \/ exists w, w ∈ ws_writers s /\ wr_pc w = WpDone /\ c = Some (wr_data w).
Proof.
  intros H0 Hr Hc. pose proof (writing_inv _ _ H0 Hr) as Hi. destruct Hc as [->|(dir & read & Hd & Hread & ->)].
  - apply (version_content d0 s (dk_dir (ws_disk s)) (fun i => dk_data (ws_disk s) !! i)); [done..| |done].
    by apply (wi_past _ _ Hi), (wi_now _ _ Hi).
  - apply (version_content d0 s dir read); [done..| |done]. by apply (wi_past _ _ Hi).
Qed.

(** The last rename is what a reader finds. *)
Lemma rename_shows d0 s j w : settled d0 -> rtc write_step (MkWriting d0 []) s -> ws_writers s !! j = Some w -> wr_pc w = WpSynced ->
  exists s', write_step s s' /\ content (ws_disk s') path = Some (wr_data w).
Proof.
  intros H0 Hr Hw Hpc. destruct (wi_writers _ _ (writing_inv _ _ H0 Hr) _ _ Hw) as (H1 & _ & _ & H4 & _).
  destruct H1 as [H1 _]; [split; congruence|]. eexists. split; [by eapply wt_rename|]. unfold content. cbn.
  rewrite lookup_insert_eq. cbn. apply H4. by right; left.
Qed.

(** Once the directory is synced, a crash leaves what a reader finds. *)
Lemma synced_durable d0 s c : settled d0 -> rtc write_step (MkWriting d0 []) s ->
  crash_content ((ws_disk s) <| dk_past := [dk_dir (ws_disk s)] |>) path c -> c = content (ws_disk s) path.
Proof.
  intros H0 Hr (dir & read & Hd & Hread & ->). pose proof (writing_inv _ _ H0 Hr) as Hi. unfold content. cbn in *.
  apply list_elem_of_singleton in Hd as ->. destruct (wi_past _ _ Hi _ (wi_now _ _ Hi)) as [H|(j & w & Hw & Hd & H)]; rewrite H.
  - destruct (dk_dir d0 !! path) as [i|] eqn:E; [|done]. cbn. apply Hread. destruct H0 as [_ H0]. by apply (wi_synced _ _ Hi), (H0 path).
  - cbn. apply Hread. destruct (wi_writers _ _ Hi _ _ Hw) as (_ & _ & _ & _ & H5). apply H5. by right.
Qed.

(** ** What is left beside the file *)

Record tidy_inv (d0 : Disk) (s : Writing) : Prop := {
  ti_new w : w ∈ ws_writers s -> live w -> dk_dir d0 !! wr_tmp w = None;
  ti_names f : f <> path -> dk_dir (ws_disk s) !! f = dk_dir d0 !! f \/ exists w, w ∈ ws_writers s /\ live w /\ wr_tmp w = f
}.

Lemma advance_elem (ws : list FileWriter) j w w' v : ws !! j = Some w -> v ∈ <[j := w']> ws -> v = w' \/ v ∈ ws.
Proof.
  intros Hw [k Hk]%list_elem_of_lookup. destruct (decide (k = j)) as [->|Hne].
  - rewrite list_lookup_insert_eq in Hk by (by apply lookup_lt_Some in Hw). left. congruence.
  - rewrite list_lookup_insert_ne in Hk by done. right. by eapply list_elem_of_lookup_2.
Qed.

Lemma advance_keep (ws : list FileWriter) j w w' v : ws !! j = Some w -> v ∈ ws -> v = w \/ v ∈ <[j := w']> ws.
Proof.
  intros Hw [k Hk]%list_elem_of_lookup. destruct (decide (k = j)) as [->|Hne]; [left; congruence|].
  right. apply (list_elem_of_lookup_2 _ k). by rewrite list_lookup_insert_ne.
Qed.

(** A step that leaves the writer running and the directory alone, or ends it and takes its name away. *)
Lemma tidy_advance d0 s j w pc d' : tidy_inv d0 s -> ws_writers s !! j = Some w -> live w ->
  (forall f, f <> path -> f <> wr_tmp w -> dk_dir d' !! f = dk_dir (ws_disk s) !! f) ->
  live (w <| wr_pc := pc |>) \/ (wr_tmp w <> path -> dk_dir d' !! wr_tmp w = None) ->
  tidy_inv d0 (at_pc w j pc s d').
Proof.
  intros [T1 T2] Hw Hl Hdir Hend. assert (Hin : w ∈ ws_writers s) by (by eapply list_elem_of_lookup_2). split; cbn.
  - intros v Hv Hlv. destruct (advance_elem _ _ _ _ _ Hw Hv) as [->|H]; [|by apply T1]. by apply (T1 w).
  - intros f Hf. destruct (decide (f = wr_tmp w)) as [->|Hne].
    + destruct Hend as [Hlive|Hgone].
      * right. exists (w <| wr_pc := pc |>). split_and!; [|done..]. apply (list_elem_of_lookup_2 _ j).
        by rewrite list_lookup_insert_eq by (by apply lookup_lt_Some in Hw).
      * left. rewrite (T1 w) by done. by apply Hgone.
    + rewrite Hdir by done. destruct (T2 f Hf) as [H|(v & Hv & Hlv & E)]; [by left|]. right. exists v.
      destruct (advance_keep _ _ _ (w <| wr_pc := pc |>) _ Hw Hv) as [->|H]; [by destruct Hne|done].
Qed.

Lemma write_step_tidy d0 s s' : write_step s s' -> write_inv d0 s -> tidy_inv d0 s -> tidy_inv d0 s'.
Proof.
  intros Hs Hi Ht.
  destruct Hs as [data tmp i Hn Hf Hp|j w Hw Hpc|j w k Hw Hpc|j w Hw Hpc|j w Hw Hpc|j w i Hw Hpc Hn|j w Hw Hpc| ];
    try (apply (tidy_advance d0 s j w); [done|done| |done| ]; [by split; destruct_or?; congruence|left; by split]).
  - destruct Ht as [T1 T2]. split; cbn.
    + intros v [Hv|Hv]%elem_of_app Hlv; [by apply T1|]. apply list_elem_of_singleton in Hv as ->. cbn.
      destruct (T2 tmp Hp) as [H|(w & [j Hw]%list_elem_of_lookup & Hlw & E)]; [congruence|].
      destruct (wi_writers _ _ Hi _ _ Hw) as [H _]. destruct (H Hlw) as [H1 _]. congruence.
    + intros f Hne. destruct (decide (f = tmp)) as [->|Hd].
      * right. exists (MkWriter data tmp i WpOpen). split_and!; [|by split|done]. apply elem_of_app. right. by apply list_elem_of_singleton.
      * rewrite lookup_insert_ne by done. destruct (T2 f Hne) as [H|(w & Hw & H)]; [by left|]. right. exists w. split; [|done]. apply elem_of_app. by left.
  - apply (tidy_advance d0 s j w); [done|done|split; congruence| |]; cbn.
    + intros f H1 H2. by rewrite lookup_insert_ne, lookup_delete_ne.
    + right. intros H. by rewrite lookup_insert_ne, lookup_delete_eq.
  - apply (tidy_advance d0 s j w); [done|done|split; congruence| |]; cbn.
    + intros f H1 H2. by rewrite lookup_delete_ne.
    + right. intros _. by rewrite lookup_delete_eq.
  - by destruct Ht.
Qed.

(** When every writer has returned, the directory is as it was but for the file: no temporary name is left, and no
    other file is touched. *)
Theorem nothing_left d0 s : settled d0 -> rtc write_step (MkWriting d0 []) s ->
  (forall w, w ∈ ws_writers s -> wr_pc w = WpDone \/ wr_pc w = WpRemoved) ->
  forall f, f <> path -> dk_dir (ws_disk s) !! f = dk_dir d0 !! f.
Proof.
  intros H0 Hr Hall f Hf. assert (Ht : write_inv d0 s /\ tidy_inv d0 s).
  { clear Hall. revert s Hr. apply (rtc_ind_r (fun s => write_inv d0 s /\ tidy_inv d0 s) (MkWriting d0 [])).
    - split; [by apply start_inv|]. split; cbn; [by intros w ?%elem_of_nil|by left].
    - intros s s' _ Hs [H1 H2]. split; [by apply (write_step_inv d0 s)|by apply (write_step_tidy d0 s)]. }
  destruct Ht as [_ [_ T2]]. destruct (T2 f Hf) as [H|(w & Hw & [L1 L2] & _)]; [done|]. by destruct (Hall w Hw).
Qed.
End Write.

(** ** The DNS journal's write: writeFileAtomic0600 of internal/network/dns_journal.go

    One writer at a time (dnsMu), under a fixed temporary name that a dead helper may have left behind. *)

(** What fails; [jo_write]: the write, after that many bytes. *)
Record JournalOutcome := MkJournalOutcome {
  jo_mkdir : bool; jo_open : bool; jo_write : option nat; jo_sync : bool; jo_close : bool; jo_rename : bool }.

Definition drop_name (name : string) (d : Disk) : Disk :=
  match dk_dir d !! name with Some _ => set_dir (delete name (dk_dir d)) d | None => d end.

(** The states of the disk from call to call, oldest first, and whether nil is returned; [i] is the new file. *)
Definition writeFileAtomic0600 (path data : string) (i : nat) (o : JournalOutcome) (d : Disk) : bool * list Disk :=
  if jo_mkdir o then (false, [d])
  else
    let tmp := path +:+ ".tmp" in
    let cleared := drop_name tmp d in
    if jo_open o then (false, [d; cleared])
    else
      let created := (set_dir (<[tmp := i]> (dk_dir cleared)) cleared) <| dk_data ::= <[i := ""]> |> in
      let text := match jo_write o with Some k => string_take k data | None => data end in
      let written := created <| dk_data ::= <[i := text]> |> in
      let synced := if jo_sync o then written else written <| dk_synced ::= fun m => {[i]} ∪ m |> in
      let before := [d; cleared; created; written; synced] in
      if bool_decide (is_Some (jo_write o)) || jo_sync o || jo_close o then (false, before ++ [drop_name tmp synced])
      else if jo_rename o then (false, before)
      else (true, before ++ [set_dir (<[path := i]> (delete tmp (dk_dir synced))) synced]).

Section Journal.
Context (path data : string) (i : nat) (d : Disk).

(** The file is at rest: every version of the directory a crash could leave has it, and it is on the disk. *)
Definition at_rest (d : Disk) : Prop :=
  (forall dir, dir ∈ dk_past d -> dir !! path = dk_dir d !! path) /\ dk_dir d ∈ dk_past d
  /\ forall x, dk_dir d !! path = Some x -> x ∈ dk_synced d.

(** The file is as it was. *)
Record untouched (d' : Disk) : Prop := {
  un_past dir : dir ∈ dk_past d' -> dir !! path = dk_dir d !! path;
  un_dir : dk_dir d' !! path = dk_dir d !! path;
  un_data x : dk_dir d !! path = Some x -> dk_data d' !! x = dk_data d !! x;
  un_synced : dk_synced d ⊆ dk_synced d'
}.

Lemma untouched_crash d' c : at_rest d -> untouched d' -> crash_content d' path c \/ c = content d' path -> c = content d path.
Proof.
  intros (_ & _ & Hs) [U1 U2 U3 U4] [(dir & read & Hd & Hr & ->)| ->]; unfold content.
  - rewrite (U1 _ Hd). destruct (dk_dir d !! path) as [x|] eqn:E; [|done]. cbn. rewrite Hr by set_solver. by apply U3.
  - rewrite U2. destruct (dk_dir d !! path) as [x|] eqn:E; [|done]. cbn. by apply U3.
Qed.

Lemma untouched_set_dir d' dir : untouched d' -> dir !! path = dk_dir d !! path -> untouched (set_dir dir d').
Proof. intros [U1 U2 U3 U4] H. split; cbn; try done. intros x [->|Hx]%elem_of_cons; [done|by apply U1]. Qed.

Lemma untouched_drop d' name : name <> path -> untouched d' -> untouched (drop_name name d').
Proof.
  intros Hn U. unfold drop_name. destruct (_ !! name); [|done]. apply untouched_set_dir; [done|]. rewrite lookup_delete_ne by done. apply (un_dir _ U).
Qed.

Lemma untouched_data d' text : dk_dir d !! path <> Some i -> untouched d' -> untouched (d' <| dk_data ::= <[i := text]> |>).
Proof.
  intros Hi [U1 U2 U3 U4]. split; cbn; try done. intros x Hx. rewrite lookup_insert_ne by congruence. by apply U3.
Qed.

Ltac all_untouched := repeat apply Forall_cons_2; first [apply Forall_nil_2 | done].

(** Wherever it stops and whatever fails, the journal on the disk is the old one or the whole new one; nil means that
    the new one is found, an error that the old one is. *)
Theorem journal_whole o : at_rest d -> dk_dir d !! path <> Some i ->
  let '(ok, states) := writeFileAtomic0600 path data i o d in
  (forall d' c, d' ∈ states -> crash_content d' path c \/ c = content d' path -> c = content d path \/ c = Some data)
  /\ forall d', last states = Some d' -> content d' path = if ok then Some data else content d path.
Proof.
  intros Hrest Hi. assert (Ht : path +:+ ".tmp" <> path).
  { intros E. apply (f_equal String.length) in E. rewrite string_length_app in E. cbn in E. lia. }
  pose proof Hrest as (R1 & R2 & R3). assert (U0 : untouched d) by (split; done).
  pose proof (untouched_drop d (path +:+ ".tmp") Ht U0) as U1. unfold writeFileAtomic0600.
  set (tmp := path +:+ ".tmp") in *. set (cleared := drop_name tmp d) in *. clearbody cleared.
  assert (Uc : untouched ((set_dir (<[tmp := i]> (dk_dir cleared)) cleared) <| dk_data ::= <[i := ""]> |>)).
  { apply untouched_data, untouched_set_dir; [done..|]. rewrite lookup_insert_ne by done. apply (un_dir _ U1). }
  set (created := (set_dir _ cleared) <| dk_data ::= _ |>) in *. clearbody created.
  set (text := match jo_write o with Some k => _ | None => data end).
  pose proof (untouched_data created text Hi Uc) as Uw. set (written := created <| dk_data ::= _ |>) in *.
  assert (Us : untouched (if jo_sync o then written else written <| dk_synced ::= fun m => {[i]} ∪ m |>)).
  { destruct (jo_sync o); [done|]. destruct Uw as [V1 V2 V3 V4]. split; cbn; [done..|]. set_solver. }
  assert (Hall : forall l, Forall untouched l -> forall d' c, d' ∈ l -> crash_content d' path c \/ c = content d' path -> c = content d path \/ c = Some data).
  { intros l Hl d' c Hd' Hc. left. rewrite Forall_forall in Hl. by apply (untouched_crash d'), Hc; [|apply Hl]. }
  assert (Hold : forall d', untouched d' -> content d' path = content d path) by (intros d' U; apply (untouched_crash d'); auto).
  destruct (jo_mkdir o); [split; [apply Hall; by all_untouched|intros d' [= <-]; done]|].
  destruct (jo_open o); [split; [apply Hall; by all_untouched|intros d' [= <-]; by apply Hold]|].
  destruct (bool_decide _ || _ || _) eqn:Ef.
  { set (synced := if jo_sync o then written else _) in *. clearbody synced. pose proof (untouched_drop synced tmp Ht Us) as Ud.
    split; [apply Hall; by all_untouched|]. intros d' [= <-]. by apply Hold. }
  destruct (jo_rename o).
  { set (synced := if jo_sync o then written else _) in *. clearbody synced.
    split; [apply Hall; by all_untouched|]. intros d' [= <-]. by apply Hold. }
  apply orb_false_iff in Ef as [Ef Hclose]. apply orb_false_iff in Ef as [Hwrite Hsync]. rewrite Hsync in *.
  assert (text = data) as Htext by (unfold text; by destruct (jo_write o)). split.
  - intros d' c [Hd|Hd]%elem_of_app Hc; [revert d' c Hd Hc; apply Hall; by all_untouched|].
    apply list_elem_of_singleton in Hd as ->. destruct Us as [V1 V2 V3 V4]. destruct Hc as [(dir & read & Hd & Hr & ->)| ->].
    + cbn in Hd. apply elem_of_cons in Hd as [->|Hd].
      * right. rewrite lookup_insert_eq. cbn. rewrite Hr by (cbn; set_solver). cbn. by rewrite lookup_insert_eq, Htext.
      * left. rewrite (V1 _ Hd). unfold content. destruct (dk_dir d !! path) as [x|] eqn:E; [|done]. cbn. rewrite Hr.
        -- by apply V3.
        -- apply V4, R3, eq_refl.
    + right. unfold content. cbn. rewrite lookup_insert_eq. cbn. by rewrite lookup_insert_eq, Htext.
  - intros d'. rewrite last_snoc. intros [= <-]. unfold content. cbn. rewrite lookup_insert_eq. cbn. by rewrite lookup_insert_eq, Htext.
Qed.
End Journal.

(** ** Witness: a crash between the rename and the sync of the directory *)

#[local] Definition rest : Disk := MkDisk {["s.json" := 1%nat]} {[1%nat := "old"]} {[1%nat]} [{["s.json" := 1%nat]}].

#[local] Definition renamed : Writing :=
  let w := MkWriter "new" "t" 2 WpDone in
  MkWriting (MkDisk {["s.json" := 2%nat]} {[1%nat := "old"; 2%nat := "new"]} {[1%nat; 2%nat]}
               [{["s.json" := 2%nat]}; {["s.json" := 1%nat; "t" := 2%nat]}; {["s.json" := 1%nat]}]) [w].

Lemma rest_settled : settled rest.
Proof. split; [done|]. intros f i H. cbn in H. apply lookup_singleton_Some in H as [<- <-]. split; [by eexists|]. cbn. set_solver. Qed.

Lemma renamed_reached : rtc (write_step "s.json") (MkWriting rest []) renamed.
Proof.
  eapply rtc_l; [apply (wt_create _ _ "new" "t" 2); done|].
  eapply rtc_l; [by apply (wt_write _ _ 0 (MkWriter "new" "t" 2 WpOpen))|].
  eapply rtc_l; [by apply (wt_sync _ _ 0 (MkWriter "new" "t" 2 WpWritten))|].
  eapply rtc_l; [by apply (wt_rename _ _ 0 (MkWriter "new" "t" 2 WpSynced) 2)|].
  vm_compute. apply rtc_refl.
Qed.

(** Before the directory is synced, a crash may leave either version. *)
Example either_after_a_crash : crash_content (ws_disk renamed) "s.json" (Some "old") /\ crash_content (ws_disk renamed) "s.json" (Some "new").
Proof.
  split.
  - exists {["s.json" := 1%nat]}, (fun i => dk_data (ws_disk renamed) !! i). split_and!; [set_solver|done|reflexivity].
  - exists {["s.json" := 2%nat]}, (fun i => dk_data (ws_disk renamed) !! i). split_and!; [set_solver|done|reflexivity].
Qed.

Lemma written_whole_witness :
  Some "old" = content rest "s.json" \/ exists w, w ∈ ws_writers renamed /\ wr_pc w = WpDone /\ Some "old" = Some (wr_data w).
Proof.
  apply (written_whole "s.json" rest renamed); [exact rest_settled|exact renamed_reached|]. right. exact (proj1 either_after_a_crash).
Defined.

Lemma journal_whole_witness : content (MkDisk {["s.json" := 1%nat]} {[1%nat := "old"]} {[1%nat]} [{["s.json" := 1%nat]}]) "s.json" = Some "old"
  /\ forall d', last (snd (writeFileAtomic0600 "s.json" "new" 2 (MkJournalOutcome false false None false false false) rest)) = Some d' ->
     content d' "s.json" = Some "new".
Proof.
  split; [reflexivity|]. apply (journal_whole "s.json" "new" 2 rest (MkJournalOutcome false false None false false false)).
  - split_and!; [by intros dir ->%list_elem_of_singleton|by apply list_elem_of_singleton|].
    intros x Hx. cbn in Hx. apply lookup_singleton_Some in Hx as [_ <-]. cbn. set_solver.
  - vm_compute. discriminate.
Defined.
