(* ===== verification/Settings.v ===== *)
(** * Settings: internal/storage/settings.go and wifi_rules.go, the settings part of internal/app/settings_ops.go

    The two JSON stores, and how the app keeps the helper's firewall policy equal to the persisted one.  A file
    is kept decoded: what Unmarshal makes of it on top of the defaults. *)

From S2P Require Import Prelude GoStrings Wifi.

(** ** The stores *)

Inductive JsonFile (A : Type) := JMissing | JUnreadable | JCorrupt | JStored (a : A).
Arguments JMissing {A}.
Arguments JUnreadable {A}.
Arguments JCorrupt {A}.
Arguments JStored {A}.

Section JsonStore.
Context {A : Type} (defaults : A).

(** [renamed]: the backup of a corrupt file succeeds, and the file is gone. *)
Definition json_load (renamed : bool) (f : JsonFile A) : option A * JsonFile A :=
  match f with
  | JMissing => (Some defaults, f)
  | JUnreadable => (None, f)
  | JCorrupt => (Some defaults, if renamed then JMissing else JCorrupt)
  | JStored a => (Some a, f)
  end.

(** [written]: the outcome of WriteFileAtomic. *)
Definition json_save (written : bool) (a : A) (f : JsonFile A) : option (JsonFile A) :=
  if written then Some (JStored a) else None.
End JsonStore.

Record Settings := MkSettings {
  Language : string; Theme : string; TrayIconStyle : string; AutoStart : bool; KillSwitch : bool; DNSProtection : bool;
  HealthCheck : bool; PinInterface : bool; LogLevel : string; OnboardingComplete : bool; KofiDismissed : bool }.

#[export] Instance eta_settings : Eta Settings := fun s =>
  MkSettings (Language s) (Theme s) (TrayIconStyle s) (AutoStart s) (KillSwitch s) (DNSProtection s)
    (HealthCheck s) (PinInterface s) (LogLevel s) (OnboardingComplete s) (KofiDismissed s).

Definition DefaultSettings : Settings :=
  MkSettings "auto" "system" "color" false false false false false "info" false false.

Definition settings_Load (renamed : bool) (f : JsonFile Settings) : option Settings * JsonFile Settings :=
  json_load DefaultSettings renamed f.

Definition settings_Save (written : bool) (s : Settings) (f : JsonFile Settings) : option (JsonFile Settings) :=
  json_save written s f.

Definition wifiRules_Load (renamed : bool) (f : JsonFile Rules) : option Rules * JsonFile Rules :=
  json_load DefaultRules renamed f.

Definition wifiRules_Save (written : bool) (r : option Rules) (f : JsonFile Rules) : option (JsonFile Rules) :=
  match r with None => None | Some r => json_save written r f end.

(** ** What a new helper is sent *)

(** The requests pushPersistedSettings makes, whether or not they succeed. *)
Inductive PolicyCall :=
| PSetLogLevel (level : string) | PSetKillSwitch (enabled : bool) | PSetDNSProtection (enabled : bool)
| PSetHealthCheck (enabled : bool) | PSetPinInterface (enabled : bool).

Definition PushFirewallPolicy (s : Settings) : list PolicyCall := [PSetKillSwitch (KillSwitch s); PSetDNSProtection (DNSProtection s)].

Definition pushPersistedSettings (s : option Settings) : list PolicyCall :=
  match s with
  | None => []
  | Some s => (if LogLevel s =s "" then [] else [PSetLogLevel (LogLevel s)]) ++ PushFirewallPolicy s
              ++ [PSetHealthCheck (HealthCheck s); PSetPinInterface (PinInterface s)]
  end.

(** ** Changing the policy

    [w_helper] is the policy of the helper behind the installed client, [None] before there is one. *)

Record HelperPolicy := MkPolicy { hp_killSwitch : bool; hp_dnsProtection : bool }.

Record World := MkWorld { w_file : JsonFile Settings; w_helper : option HelperPolicy }.

#[export] Instance eta_world : Eta World := fun w => MkWorld (w_file w) (w_helper w).

Inductive PolicyKind := KKillSwitch | KDNSProtection.

Definition set_policy (k : PolicyKind) (b : bool) (p : HelperPolicy) : HelperPolicy :=
  match k with KKillSwitch => MkPolicy b (hp_dnsProtection p) | KDNSProtection => MkPolicy (hp_killSwitch p) b end.

(** The [apply] functions of SetKillSwitch and SetDNSProtection. *)
Definition apply_setting (k : PolicyKind) (b : bool) (s : Settings) : Settings :=
  match k with KKillSwitch => s <| KillSwitch := b |> | KDNSProtection => s <| DNSProtection := b |> end.

Inductive SettingsError := SeHelper | SeLoad | SeSave | SeAutostart.

(** What a call to the helper came to: it took effect, and the answer says so. *)
Record Rpc := MkRpc { rpc_applied : bool; rpc_ok : bool }.

(** s.call(method, req, nil), [None] to go on. *)
Definition policy_push (k : PolicyKind) (b : bool) (r : Rpc) (w : World) : World * option SettingsError :=
  match w_helper w with
  | None => (w, None)
  | Some p => (if rpc_applied r then w <| w_helper := Some (set_policy k b p) |> else w, if rpc_ok r then None else Some SeHelper)
  end.

Definition policy_load (renamed : bool) (w : World) : World * option Settings :=
  let '(s, f) := settings_Load renamed (w_file w) in (w <| w_file := f |>, s).

Definition policy_save (written : bool) (s : Settings) (w : World) : World * option SettingsError :=
  match settings_Save written s (w_file w) with
  | Some f => (w <| w_file := f |>, None)
  | None => (w, Some SeSave)
  end.

Definition setFirewallPolicy (k : PolicyKind) (b : bool) (r : Rpc) (renamed written : bool) (w : World)
    : World * option SettingsError :=
  match policy_push k b r w with
  | (w, Some e) => (w, Some e)
  | (w, None) =>
      match policy_load renamed w with
      | (w, None) => (w, Some SeLoad)
      | (w, Some st) => policy_save written (apply_setting k b st) w
      end
  end.

(** The log level that is pushed afterwards is not part of the state; [autostart] is the login item's outcome. *)
Definition SaveSettings (s : Settings) (renamed autostart written : bool) (w : World) : World * option SettingsError :=
  let '(w, prev) := policy_load renamed w in
  if match prev with Some p => negb (Bool.eqb (AutoStart p) (AutoStart s)) | None => true end && negb autostart
  then (w, Some SeAutostart)
  else policy_save written s w.

Definition CompleteOnboarding (renamed written : bool) (w : World) : World * option SettingsError :=
  match policy_load renamed w with
  | (w, None) => (w, Some SeLoad)
  | (w, Some s) => policy_save written (s <| OnboardingComplete := true |>) w
  end.

(** A helper takes over with its defaults: the persisted policy is pushed, then its client installed. *)
Definition push_call (p : HelperPolicy) (c : PolicyCall * bool) : HelperPolicy :=
  match c with
  | (PSetKillSwitch b, true) => set_policy KKillSwitch b p
  | (PSetDNSProtection b, true) => set_policy KDNSProtection b p
  | _ => p
  end.

(** [applied k]: the [k]-th call takes effect. *)
Definition install_helper (renamed : bool) (applied : nat -> bool) (w : World) : World :=
  let '(w, s) := policy_load renamed w in
  w <| w_helper := Some (foldl push_call (MkPolicy false false) (imap (fun k c => (c, applied k)) (pushPersistedSettings s))) |>.

(** ** Links *)

Definition allowedOpenURLs : list string :=
  ["https://github.com/steiale/wireguide/releases/latest"; "https://github.com/steiale/wireguide";
   "https://github.com/steiale/wireguide/issues"; "https://github.com/steiale/wireguide/blob/main/LICENSE";
   "https://ko-fi.com/steiale"].

(** [None] for an error, else what is opened. *)
Definition OpenURL (app : bool) (url : string) : option string :=
  if negb (bool_decide (url ∈ allowedOpenURLs)) then None else if app then Some url else None.

(** * Facts: the helper's policy is the persisted one

    For operations made one after the other; [toggles_lose_a_policy] is what two at once can do. *)

Inductive SettingsOp :=
| OSet (k : PolicyKind) (b : bool) (r : Rpc) (renamed written : bool)
| OSave (s : Settings) (renamed autostart written : bool)
| OOnboarding (renamed written : bool)
| OInstall (renamed : bool) (applied : nat -> bool).

Definition exec (op : SettingsOp) (w : World) : World * option SettingsError :=
  match op with
  | OSet k b r renamed written => setFirewallPolicy k b r renamed written w
  | OSave s renamed autostart written => SaveSettings s renamed autostart written w
  | OOnboarding renamed written => CompleteOnboarding renamed written w
  | OInstall renamed applied => (install_helper renamed applied w, None)
  end.

Definition run_settings (ops : list SettingsOp) (w : World) : World := foldl (fun w op => fst (exec op w)) w ops.

Definition policy_in (s : Settings) : HelperPolicy := MkPolicy (KillSwitch s) (DNSProtection s).

(** What the next load shows. *)
Definition persisted (f : JsonFile Settings) : option HelperPolicy := policy_in <$> fst (settings_Load true f).

(** What is asked of the outside: an answer of the helper is the truth, a changed policy can be written, the
    frontend saves the policy as it is persisted, and a new helper takes what it is sent. *)
Definition lawful (op : SettingsOp) (w : World) : Prop :=
  match op with
  | OSet _ _ r _ written => rpc_applied r = rpc_ok r /\ written = true
  | OSave s _ _ _ => Some (policy_in s) = persisted (w_file w)
  | OOnboarding _ _ => True
  | OInstall _ applied => forall k, applied k = true
  end.

Fixpoint lawful_run (ops : list SettingsOp) (w : World) : Prop :=
  match ops with
  | [] => True
  | op :: ops' => lawful op w /\ lawful_run ops' (fst (exec op w))
  end.

(** The file can be read, and the helper's policy is the one it holds. *)
Definition synced (w : World) : Prop :=
  w_file w <> JUnreadable /\ forall p, w_helper w = Some p -> persisted (w_file w) = Some p.

Lemma load_persisted renamed f s f' : settings_Load renamed f = (s, f') ->
  s = fst (settings_Load true f) /\ persisted f' = persisted f /\ (f <> JUnreadable -> is_Some s /\ f' <> JUnreadable).
Proof.
  unfold settings_Load, json_load, persisted. destruct f; [| |destruct renamed|]; intros [= <- <-]; (split; [done|split; [done|]]);
    intros H; first [by destruct H|split; [eauto|done]].
Qed.

Lemma load_world renamed w : w_file w <> JUnreadable ->
  exists s f, policy_load renamed w = (w <| w_file := f |>, Some s)
  /\ persisted (w_file w) = Some (policy_in s) /\ persisted f = Some (policy_in s) /\ f <> JUnreadable.
Proof.
  intros Hf. unfold policy_load. destruct (settings_Load renamed (w_file w)) as [s f] eqn:E.
  apply load_persisted in E as (-> & Hp & Hs). destruct (Hs Hf) as [[st Est] Hf']. rewrite Est. exists st, f.
  split; [done|]. rewrite Hp. unfold persisted. by rewrite Est.
Qed.

Lemma policy_in_apply k b s : policy_in (apply_setting k b s) = set_policy k b (policy_in s).
Proof. by destruct k. Qed.

(** A change of policy, made on its own. *)
Lemma set_spec k b r renamed w p0 :
  w_file w <> JUnreadable -> persisted (w_file w) = Some p0 -> rpc_applied r = rpc_ok r ->
  match setFirewallPolicy k b r renamed true w with
  | (w', None) =>
      persisted (w_file w') = Some (set_policy k b p0) /\ w_file w' <> JUnreadable
      /\ w_helper w' = set_policy k b <$> w_helper w
  | (w', Some e) => e = SeHelper /\ w' = w
  end.
Proof.
  intros Hf Hp Hr. unfold setFirewallPolicy, policy_push.
  assert (forall w1, w_file w1 = w_file w -> match policy_load renamed w1 with
            | (w2, None) => (w2, Some SeLoad) | (w2, Some st) => policy_save true (apply_setting k b st) w2 end
          = (MkWorld (JStored (apply_setting k b (default DefaultSettings (fst (settings_Load true (w_file w)))))) (w_helper w1), None)) as Hs.
  { intros w1 E. unfold policy_load. rewrite E. destruct (settings_Load renamed (w_file w)) as [s f] eqn:El.
    apply load_persisted in El as (-> & _ & Hs). destruct (Hs Hf) as [[st ->] _]. done. }
  assert (persisted (JStored (apply_setting k b (default DefaultSettings (fst (settings_Load true (w_file w)))))) = Some (set_policy k b p0)) as Hq.
  { unfold persisted in *. destruct (fst (settings_Load true (w_file w))) as [st|]; [|done]. injection Hp as <-. cbn.
    by rewrite policy_in_apply. }
  destruct (w_helper w) as [p|] eqn:Eh.
  - rewrite Hr. destruct (rpc_ok r); [|done]. rewrite Hs by done. split; [exact Hq|done].
  - rewrite Hs by done. split; [exact Hq|split; [done|]]. by rewrite Eh.
Qed.

(** A new helper ends with what is persisted. *)
Lemma install_spec renamed applied w : w_file w <> JUnreadable -> (forall k, applied k = true) ->
  w_helper (install_helper renamed applied w) = persisted (w_file w)
  /\ persisted (w_file (install_helper renamed applied w)) = persisted (w_file w)
  /\ w_file (install_helper renamed applied w) <> JUnreadable.
Proof.
  intros Hf Ha. unfold install_helper. destruct (load_world renamed w Hf) as (s & f & -> & Hp & Hf' & Hne).
  rewrite Hp. cbn. rewrite Hf'. split; [|done]. unfold pushPersistedSettings.
  by destruct (LogLevel s =s ""); cbn; rewrite !Ha.
Qed.

Lemma lawful_synced op w : synced w -> lawful op w -> synced (fst (exec op w)).
Proof.
  intros [Hf Hs] Hl. destruct op as [k b r renamed written|s renamed autostart written|renamed written|renamed applied]; cbn [exec fst].
  - destruct Hl as [Hr ->]. destruct (load_world true w Hf) as (st & f & _ & Hp & _).
    pose proof (set_spec k b r renamed w _ Hf Hp Hr) as H. destruct (setFirewallPolicy k b r renamed true w) as [w' [e|]]; cbn.
    + by destruct H as [_ ->].
    + destruct H as (H1 & H2 & H3). split; [done|]. intros p. rewrite H3, H1. destruct (w_helper w) as [q|]; [|done].
      cbn. intros [= <-]. specialize (Hs q eq_refl). congruence.
  - cbn in Hl. unfold SaveSettings. destruct (load_world renamed w Hf) as (st & f & -> & Hp & Hf' & Hne).
    assert (synced (w <| w_file := f |>)) as Hsy by (split; [done|]; cbn; intros p Hw; rewrite Hf', <- Hp; by apply Hs).
    destruct (_ && _); [exact Hsy|]. unfold policy_save, settings_Save, json_save. destruct written; [|exact Hsy].
    split; [done|]. cbn. intros p Hw. rewrite <- (Hs p Hw), <- Hl. done.
  - unfold CompleteOnboarding. destruct (load_world renamed w Hf) as (st & f & -> & Hp & Hf' & Hne).
    assert (synced (w <| w_file := f |>)) as Hsy by (split; [done|]; cbn; intros p Hw; rewrite Hf', <- Hp; by apply Hs).
    unfold policy_save, settings_Save, json_save. destruct written; [|exact Hsy].
    split; [done|]. cbn. intros p Hw. by rewrite <- (Hs p Hw), Hp.
  - destruct (install_spec renamed applied w Hf Hl) as (H1 & H2 & H3). split; [done|]. intros p. by rewrite H1, H2.
Qed.

Lemma run_synced ops : forall w, synced w -> lawful_run ops w -> synced (run_settings ops w).
Proof.
  induction ops as [|op ops IH]; intros w Hs Hl; [done|]. destruct Hl as [H1 H2]. apply IH; [by apply lawful_synced|done].
Qed.

(** The helper enforces the policy that is persisted.  Whatever is toggled, saved and restarted, one after
    the other, the kill switch and the DNS protection of the helper in use are those of the settings file; and
    a toggle then either takes effect in the helper and in the file and leaves the other one alone, or was
    refused by the helper and changes nothing. *)
Theorem policy_persisted (ops : list SettingsOp) (w0 : World) :
  w_file w0 <> JUnreadable -> w_helper w0 = None -> lawful_run ops w0 ->
  let w := run_settings ops w0 in
  exists p0, persisted (w_file w) = Some p0 /\ (forall p, w_helper w = Some p -> p = p0)
  /\ forall k b r renamed, rpc_applied r = rpc_ok r ->
     match setFirewallPolicy k b r renamed true w with
     | (w', None) => persisted (w_file w') = Some (set_policy k b p0) /\ w_helper w' = set_policy k b <$> w_helper w
     | (w', Some e) => e = SeHelper /\ w' = w
     end.
Proof.
  intros Hf Hn Hl w. assert (synced w) as [Hfw Hs] by (apply run_synced; [split; [done|by rewrite Hn]|done]).
  destruct (load_world true w Hfw) as (st & f & _ & Hp & _). exists (policy_in st). split; [exact Hp|split].
  - intros p Hw. specialize (Hs p Hw). congruence.
  - intros k b r renamed Hr. pose proof (set_spec k b r renamed w _ Hfw Hp Hr) as H.
    destruct (setFirewallPolicy k b r renamed true w) as [w' [e|]]; [exact H|]. by destruct H as (? & _ & ?).
Qed.

(** ** Two toggles at once

    The store locks each access, not the load and the save of a toggle together: of two toggles the second to
    save writes the other's old value back.  Both report success and the helper enforces both, but the next
    helper is sent only one. *)

Definition both_off : World := MkWorld (JStored DefaultSettings) (Some (MkPolicy false false)).

Example toggles_lose_a_policy :
  let ok := MkRpc true true in
  let w1 := fst (policy_push KKillSwitch true ok both_off) in
  let w2 := fst (policy_push KDNSProtection true ok w1) in
  let '(w3, s1) := policy_load true w2 in
  let '(w4, s2) := policy_load true w3 in
  let '(w5, e1) := policy_save true (apply_setting KKillSwitch true (default DefaultSettings s1)) w4 in
  let '(w6, e2) := policy_save true (apply_setting KDNSProtection true (default DefaultSettings s2)) w5 in
  e1 = None /\ e2 = None /\ w_helper w6 = Some (MkPolicy true true)
  /\ persisted (w_file w6) = Some (MkPolicy false true)
  /\ w_helper (install_helper true (fun _ => true) w6) = Some (MkPolicy false true).
Proof. vm_compute. auto. Qed.

(** ** Witness *)

Definition first_day : list SettingsOp :=
  [OInstall true (fun _ => true); OSet KKillSwitch true (MkRpc true true) true true;
   OSave (DefaultSettings <| KillSwitch := true |> <| Theme := "dark" |>) true true true;
   OSet KDNSProtection true (MkRpc false false) true true; OInstall true (fun _ => true)].

Lemma policy_persisted_witness :
  let w := run_settings first_day (MkWorld JCorrupt None) in
  w_helper w = Some (MkPolicy true false)
  /\ exists p0, persisted (w_file w) = Some p0 /\ (forall p, w_helper w = Some p -> p = p0)
  /\ forall k b r renamed, rpc_applied r = rpc_ok r ->
     match setFirewallPolicy k b r renamed true w with
     | (w', None) => persisted (w_file w') = Some (set_policy k b p0) /\ w_helper w' = set_policy k b <$> w_helper w
     | (w', Some e) => e = SeHelper /\ w' = w
     end.
Proof.
  split; [vm_compute; reflexivity|]. apply (policy_persisted first_day (MkWorld JCorrupt None)); [discriminate|reflexivity|].
  vm_compute. repeat split.
Defined.
