(* ===== verification/HelperLife.v ===== *)
(** * The helper as the app sees it: internal/gui/helper_lifecycle.go and bootstrapHelper of gui.go

    Reaching a helper or installing one, the health monitor with its recovery, and the first start.  What the
    socket, the installer and the user answer is given; the outcome is the events in their order. *)

From S2P Require Import Prelude GoStrings Elevate Settings.

(** ** ensureHelper *)

Record PingResponse := MkPing { AppVersion : string; BinaryPath : string }.

Definition expectedDaemonBinary : string := "/Library/PrivilegedHelperTools/io.github.steiale.lockplus.helper".

(** What NewClient and the ping give: no connection, no answer, or an answer. *)
Abbreviation Contact := (option (option PingResponse)).

(** [ee_polls] is what the polls find until the context is done, one every 200 ms for 60 s; [ee_settings] what
    the store then loads, [None] when it fails. *)
Record EnsureEnv := MkEnsureEnv {
  ee_first : Contact; ee_live : bool; ee_exe : option string; ee_lint : bool; ee_osascript : string -> string * bool;
  ee_polls : list Contact; ee_settings : option Settings }.

Inductive EnsureError := EESpawn (e : SpawnError) | EEDone.

Definition path_mismatch (r : PingResponse) : bool :=
  negb (BinaryPath r =s "") && negb (BinaryPath r =s expectedDaemonBinary).

Section Life.
(** update.CurrentVersion, and the arguments that do not change. *)
Context (version : string) (socket dataDir : string) (uid : Z).

(** The existing helper can be used as it is. *)
Definition usable (r : PingResponse) : bool :=
  ((if AppVersion r =s "" then "unknown" else AppVersion r) =s version) && negb (path_mismatch r).

(** The poll after a spawn accepts the answer. *)
Definition poll_accepts (forceReinstall : bool) (r : PingResponse) : bool :=
  negb (forceReinstall && negb (AppVersion r =s "") && negb (AppVersion r =s version))
  && negb (forceReinstall && path_mismatch r).

Fixpoint poll_helper (forceReinstall : bool) (polls : list Contact) : result EnsureError PingResponse :=
  match polls with
  | [] => Err EEDone
  | Some (Some r) :: polls' => if poll_accepts forceReinstall r then Ok r else poll_helper forceReinstall polls'
  | _ :: polls' => poll_helper forceReinstall polls'
  end.

(** With the commands osascript was run on, each a password prompt. *)
Definition spawn_and_poll (env : EnsureEnv) (forceReinstall : bool) : result EnsureError PingResponse * list string :=
  let '(err, prompts) :=
    SpawnHelper (MkArgs socket uid dataDir forceReinstall) uid (ee_live env) (ee_exe env) (ee_lint env) (ee_osascript env) in
  match err with
  | Some e => (Err (EESpawn e), prompts)
  | None => (poll_helper forceReinstall (ee_polls env), prompts)
  end.

Definition ensureHelper (env : EnsureEnv) : result EnsureError PingResponse * list string :=
  match ee_first env with
  | Some (Some r) => if usable r then (Ok r, []) else spawn_and_poll env true
  | _ => spawn_and_poll env false
  end.

(** ** Events *)

Inductive GaveUp := GaveUpSignature | GaveUpBootstrap | GaveUpDeclined | GaveUpAttempts.

(** [LPush r calls]: the calls to the helper that answered [r]; [LSet r]: its client installed. *)
Inductive LifeEvent :=
| LPrompt (cmd : string) | LPush (r : PingResponse) (calls : list PolicyCall) | LSet (r : PingResponse) | LResubscribe
| LAlive | LDead | LGaveUp (why : GaveUp) | LConnecting | LDialog | LQuit.

(** ** The health monitor *)

Record Health := MkHealth { wasAlive : bool; consecutiveFailures : nat; gaveUp : bool }.

#[export] Instance eta_health : Eta Health := fun h => MkHealth (wasAlive h) (consecutiveFailures h) (gaveUp h).

Definition new_health : Health := MkHealth true 0 false.

Definition maxAutoRecoveryAttempts : nat := 6.

Definition install (settings : option Settings) (r : PingResponse) : list LifeEvent :=
  [LPush r (pushPersistedSettings settings); LSet r; LResubscribe].

Definition recoverHelper (env : EnsureEnv) : result EnsureError unit * list LifeEvent :=
  match ensureHelper env with
  | (Err e, prompts) => (Err e, LPrompt <$> prompts)
  | (Ok r, prompts) => (Ok tt, (LPrompt <$> prompts) ++ install (ee_settings env) r)
  end.

(** An error after which retrying is pointless, or not wanted by the user. *)
Definition terminal (e : EnsureError) : option GaveUp :=
  match e with
  | EESpawn (SignatureError _) => Some GaveUpSignature
  | EESpawn (BootstrapError _) => Some GaveUpBootstrap
  | EESpawn ErrUserCancelled => Some GaveUpDeclined
  | _ => None
  end.

Definition attemptHelperRecovery (env : EnsureEnv) (h : Health) : bool * Health * list LifeEvent :=
  match recoverHelper env with
  | (Ok _, evs) => (true, h <| consecutiveFailures := 0%nat |>, evs)
  | (Err e, evs) =>
      match terminal e with
      | Some why => (false, h <| gaveUp := true |>, evs ++ [LGaveUp why])
      | None =>
          let h := h <| consecutiveFailures ::= S |> in
          if (maxAutoRecoveryAttempts <=? consecutiveFailures h)%nat
          then (false, h <| gaveUp := true |>, evs ++ [LGaveUp GaveUpAttempts])
          else (false, h, evs)
      end
  end.

(** A tick: whether a client is installed, its ping succeeds, a long call is in flight when it does not, the
    bridge is subscribed on it, and what a recovery finds; [tk_client] is the answering helper. *)
Record Tick := MkTick {
  tk_client : option PingResponse; tk_alive : bool; tk_inflight : bool; tk_subscribed : bool; tk_env : EnsureEnv }.

Definition recover (env : EnsureEnv) (h : Health) : Health * list LifeEvent :=
  let '(ok, h, evs) := attemptHelperRecovery env h in
  if ok then (h <| wasAlive := true |>, evs ++ [LAlive]) else (h, evs).

Definition health_tick (h : Health) (t : Tick) : Health * list LifeEvent :=
  match tk_client t with
  | None => (h, [])
  | Some c =>
      if negb (tk_alive t) && tk_inflight t then (h, [])
      else
        let resub := if tk_alive t && negb (tk_subscribed t) then [LResubscribe] else [] in
        if negb (tk_alive t) then
          if wasAlive h then
            let '(h', evs) := recover (tk_env t) (MkHealth false 0 false) in (h', LDead :: evs)
          else if gaveUp h then (h, []) else recover (tk_env t) h
        else if wasAlive h then (h, resub)
        else (h <| wasAlive := true |>, resub ++ [LPush c (pushPersistedSettings (ee_settings (tk_env t))); LAlive])
  end.

Fixpoint health_run (h : Health) (ts : list Tick) : Health * list LifeEvent :=
  match ts with
  | [] => (h, [])
  | t :: ts' => let '(h1, e1) := health_tick h t in let '(h2, e2) := health_run h1 ts' in (h2, e1 ++ e2)
  end.

(** ** The first start

    [envs k] is what attempt [k] finds, [retry k] whether the user then asks for another one, [settings] what
    the store loads at the end. *)

Fixpoint bootstrap_loop (left : nat) (k : nat) (envs : nat -> EnsureEnv) (retry : nat -> bool)
    : option PingResponse * list LifeEvent :=
  match left with
  | O => (None, [])
  | S left' =>
      let '(res, prompts) := ensureHelper (envs k) in
      match res with
      | Ok r => (Some r, LPrompt <$> prompts)
      | Err (EESpawn (SignatureError _)) | Err (EESpawn (BootstrapError _)) => (None, (LPrompt <$> prompts) ++ [LDialog; LQuit])
      | Err _ =>
          if (k <? 2)%nat && retry k then
            let '(res, evs) := bootstrap_loop left' (S k) envs retry in (res, (LPrompt <$> prompts) ++ LDialog :: evs)
          else (None, (LPrompt <$> prompts) ++ [LDialog; LQuit])
      end
  end.

Definition bootstrapHelper (envs : nat -> EnsureEnv) (retry : nat -> bool) (settings : option Settings) : list LifeEvent :=
  let '(res, evs) := bootstrap_loop 3 0 envs retry in
  LConnecting :: evs ++ match res with Some r => install settings r ++ [LAlive] | None => [] end.
End Life.
