(* ===== verification/HelperLifeFacts.v ===== *)
(** * Reaching and recovering the helper: facts about HelperLife.v

    Prompts are bounded and stop when the user has declined; a password is asked for only when no usable helper
    answers; a client is installed only after the policy has been sent to its helper. *)

From S2P Require Import Prelude GoStrings Elevate Settings HelperLife.

Definition is_prompt (e : LifeEvent) : bool := match e with LPrompt _ => true | _ => false end.
Definition is_set (e : LifeEvent) : bool := match e with LSet _ => true | _ => false end.
Definition is_giveup (e : LifeEvent) : bool := match e with LGaveUp _ => true | _ => false end.

Definition count (p : LifeEvent -> bool) (l : list LifeEvent) : nat := length (List.filter p l).

Lemma count_app p l1 l2 : count p (l1 ++ l2) = (count p l1 + count p l2)%nat.
Proof. unfold count. by rewrite List.filter_app, length_app. Qed.

Lemma count_prompts p l : (forall c, p (LPrompt c) = false) -> count p (LPrompt <$> l) = 0%nat.
Proof. intros Hp. unfold count. induction l as [|c l IH]; [done|]. cbn. by rewrite Hp. Qed.

Lemma count_prompt_prompts l : count is_prompt (LPrompt <$> l) = length l.
Proof. unfold count. induction l as [|c l IH]; [done|]. cbn. by rewrite <- IH. Qed.

Section Life.
Context (version socket dataDir : string) (uid : Z).

Abbreviation ensure := (ensureHelper version socket dataDir uid).
Abbreviation run := (health_run version socket dataDir uid).
Abbreviation tick := (health_tick version socket dataDir uid).
Abbreviation recov := (recover version socket dataDir uid).

(** ** One attempt *)

Lemma SpawnHelper_prompts args live exe lint osa : (length (snd (SpawnHelper args uid live exe lint osa)) <= 1)%nat.
Proof.
  unfold SpawnHelper, installAndLoadDaemon. destruct (_ && _); [cbn; lia|]. destruct exe as [exe|]; [|cbn; lia].
  destruct (negb lint); [cbn; lia|]. destruct (osa _). cbn. lia.
Qed.

(** Nothing is run as long as something answers at the socket, unless a reinstallation is forced. *)
Lemma SpawnHelper_live args exe lint osa :
  ForceReinstall args = false -> SpawnHelper args uid true exe lint osa = (None, []).
Proof. intros H. unfold SpawnHelper. by rewrite H. Qed.

Lemma spawn_prompts env force : (length (snd (spawn_and_poll version socket dataDir uid env force)) <= 1)%nat.
Proof.
  unfold spawn_and_poll. pose proof (SpawnHelper_prompts (MkArgs socket uid dataDir force) (ee_live env) (ee_exe env) (ee_lint env) (ee_osascript env)) as H.
  destruct (SpawnHelper _ _ _ _ _ _) as [[e|] prompts]; exact H.
Qed.

Lemma ensure_prompts env : (length (snd (ensure env)) <= 1)%nat.
Proof.
  unfold ensureHelper. destruct (ee_first env) as [[r|]|]; try apply spawn_prompts.
  destruct (usable version r); [cbn; lia|apply spawn_prompts].
Qed.

Lemma poll_helper_ok force polls r : poll_helper version force polls = Ok r -> Some (Some r) ∈ polls /\ poll_accepts version force r = true.
Proof.
  induction polls as [|[[r'|]|] polls IH]; cbn [poll_helper]; [done| | |].
  - destruct (poll_accepts version force r') eqn:E.
    + intros [= <-]. split; [apply elem_of_cons; by left|done].
    + intros H. destruct (IH H). split; [apply elem_of_cons; by right|done].
  - intros H. destruct (IH H). split; [apply elem_of_cons; by right|done].
  - intros H. destruct (IH H). split; [apply elem_of_cons; by right|done].
Qed.

(** The answer is of this version and from the expected binary, as far as it says. *)
Definition up_to_date (r : PingResponse) : Prop :=
  (AppVersion r = "" \/ AppVersion r = version) /\ (BinaryPath r = "" \/ BinaryPath r = expectedDaemonBinary).

Lemma path_mismatch_false r : path_mismatch r = false -> BinaryPath r = "" \/ BinaryPath r = expectedDaemonBinary.
Proof.
  unfold path_mismatch. rewrite andb_false_iff, !negb_false_iff, !bool_decide_eq_true. done.
Qed.

Lemma usable_up_to_date r : version <> "unknown" -> usable version r = true -> AppVersion r = version /\ up_to_date r.
Proof.
  unfold usable, up_to_date. intros Hv [H Hp]%andb_prop. apply bool_decide_eq_true in H. apply negb_true_iff in Hp.
  apply path_mismatch_false in Hp. destruct (AppVersion r =s "") eqn:E; [congruence|]. auto.
Qed.

Lemma accepts_up_to_date r : poll_accepts version true r = true -> up_to_date r.
Proof.
  unfold poll_accepts, up_to_date. intros [Hv Hp]%andb_prop. apply negb_true_iff in Hv, Hp. cbn [andb] in Hv, Hp.
  split; [|by apply path_mismatch_false].
  rewrite andb_false_iff, !negb_false_iff, !bool_decide_eq_true in Hv. done.
Qed.

(** The administrator is asked for a password at most once per attempt, and only when no helper listens on
    the socket or the one that answered first is of another version or from another place; the helper that is
    used in the end answered, and it is the one that was found usable or, when one was found that was not,
    says neither another version nor another binary than expected. *)
Theorem ensureHelper_spec (env : EnsureEnv) : version <> "unknown" ->
  let '(res, prompts) := ensure env in
  (length prompts <= 1)%nat
  /\ (prompts <> [] -> ee_live env = false \/ exists r, ee_first env = Some (Some r) /\ usable version r = false)
  /\ forall r, res = Ok r ->
       (ee_first env = Some (Some r) /\ prompts = [] /\ AppVersion r = version /\ up_to_date r)
       \/ (Some (Some r) ∈ ee_polls env /\ forall r0, ee_first env = Some (Some r0) -> usable version r0 = false /\ up_to_date r).
Proof.
  intros Hv. destruct (ensure env) as [res prompts] eqn:E.
  split; [pose proof (ensure_prompts env) as H; by rewrite E in H|].
  assert (forall force, spawn_and_poll version socket dataDir uid env force = (res, prompts) ->
    (prompts <> [] -> ee_live env = false \/ force = true)
    /\ forall r, res = Ok r -> Some (Some r) ∈ ee_polls env /\ poll_accepts version force r = true) as Hs.
  { intros force. unfold spawn_and_poll. destruct (SpawnHelper _ _ _ _ _ _) as [[e|] p] eqn:Es; intros [= <- <-]; split.
    2, 4: intros r Hr; by try apply poll_helper_ok in Hr.
    all: intros Hp; destruct force; [by right|]; destruct (ee_live env); [|by left];
      rewrite SpawnHelper_live in Es by done; congruence. }
  unfold ensureHelper in E. destruct (ee_first env) as [[r0|]|].
  1: destruct (usable version r0) eqn:Eu.
  { injection E as <- <-. split; [done|]. intros r [= <-]. left. by destruct (usable_up_to_date _ Hv Eu). }
  all: apply Hs in E as [Hp Hr]; split.
  1: intros H; right; by exists r0.
  1: intros r ->; right; destruct (Hr r eq_refl) as [? ?]; split; [done|]; intros ? [= <-]; split; [done|by apply accepts_up_to_date].
  1, 3: intros H; destruct (Hp H); [by left|done].
  all: intros r ->; right; destruct (Hr r eq_refl); by split.
Qed.

(** ** Recovery *)

(** What is left of the attempts. *)
Definition budget (h : Health) : nat := if wasAlive h then 6 else if gaveUp h then 0 else 6 - consecutiveFailures h.

Definition health_ok (h : Health) : Prop := wasAlive h = false -> gaveUp h = false -> (consecutiveFailures h < 6)%nat.

Lemma recoverHelper_err env e evs :
  recoverHelper version socket dataDir uid env = (Err e, evs) ->
  exists prompts, evs = LPrompt <$> prompts /\ (length prompts <= 1)%nat.
Proof.
  unfold recoverHelper. pose proof (ensure_prompts env) as H. destruct (ensure env) as [[r|e'] prompts]; [done|].
  intros [= <- <-]. by exists prompts.
Qed.

(** An attempt that installs no client prompts at most once, uses up some of the budget, and speaks up last
    when it gives up. *)
Lemma recover_fails env h :
  wasAlive h = false -> gaveUp h = false -> (consecutiveFailures h < 6)%nat ->
  let '(h', evs) := recov env h in
  health_ok h' /\ (count is_set evs = 0%nat ->
    wasAlive h' = false /\ (budget h' < budget h)%nat
    /\ exists prompts, (length prompts <= 1)%nat
       /\ evs = (LPrompt <$> prompts) ++ (if gaveUp h' then [LGaveUp (default GaveUpAttempts
                   (match ensure env with (Err e, _) => terminal e | _ => None end))] else [])
       /\ (match ensure env with (Err e, _) => terminal e | _ => None end <> None -> gaveUp h' = true)).
Proof.
  intros Hw Hg Hc. unfold recover, attemptHelperRecovery.
  destruct (recoverHelper version socket dataDir uid env) as [[u|e] evs] eqn:E.
  - split; [intros H; by cbn in H|]. intros H. exfalso. revert H. unfold recoverHelper in E.
    destruct (ensure env) as [[r|e'] prompts]; [|done]. injection E as _ <-. rewrite !count_app. cbn. lia.
  - pose proof E as E'. apply recoverHelper_err in E as (prompts & -> & Hp).
    assert (exists ps, ensure env = (Err e, ps)) as [ps He].
    { unfold recoverHelper in E'. destruct (ensure env) as [[r|e'] ps]; [done|]. injection E' as -> _. by exists ps. }
    rewrite He. unfold budget. rewrite Hw, Hg.
    destruct (terminal e) as [why|] eqn:Et; [|destruct (_ <=? _)%nat eqn:El]; cbn.
    + rewrite Hw. split; [done|]. intros _. split; [done|split; [lia|]]. by exists prompts.
    + rewrite Hw. split; [done|]. intros _. split; [done|split; [lia|]]. by exists prompts.
    + rewrite Hw, Hg. unfold health_ok. cbn. apply Nat.leb_gt in El. cbn in El. unfold maxAutoRecoveryAttempts in El.
      split; [lia|]. intros _. split; [done|split; [lia|]]. exists prompts. by rewrite app_nil_r.
Qed.

Lemma tick_ok h t : health_ok h -> health_ok (fst (tick h t)).
Proof.
  intros Hok. unfold health_tick. destruct (tk_client t) as [c|]; [|done].
  destruct (_ && _); [done|]. destruct (tk_alive t); cbn [negb].
  - destruct (wasAlive h) eqn:Ew; [done|]. by intros H.
  - destruct (wasAlive h) eqn:Ew.
    + pose proof (recover_fails (tk_env t) (MkHealth false 0 false) eq_refl eq_refl ltac:(cbn; lia)) as H.
      destruct (recov _ _) as [h' evs]. apply H.
    + destruct (gaveUp h) eqn:Eg; [done|].
      pose proof (recover_fails (tk_env t) h Ew Eg (Hok Ew Eg)) as H. destruct (recov _ _) as [h' evs]. apply H.
Qed.

Lemma run_ok ts : forall h, health_ok h -> health_ok (fst (run h ts)).
Proof.
  induction ts as [|t ts IH]; intros h Hok; [done|]. cbn [health_run].
  pose proof (tick_ok h t Hok) as H1. destruct (tick h t) as [h1 e1].
  specialize (IH h1 H1). by destruct (run h1 ts) as [h2 e2].
Qed.

(** A tick of an outage: the helper does not answer. *)
Definition down (t : Tick) : Prop := tk_alive t = false.

(** The user declined, or the signature check or launchd refused. *)
Definition hopeless (e : EnsureError) : Prop :=
  match e with EESpawn (SignatureError _) | EESpawn (BootstrapError _) | EESpawn ErrUserCancelled => True | _ => False end.

Lemma hopeless_terminal e : hopeless e -> terminal e <> None.
Proof. by destruct e as [[]|]. Qed.

(** A tick at which a recovery is due and ends like that. *)
Definition refused (t : Tick) : Prop :=
  is_Some (tk_client t) /\ tk_inflight t = false
  /\ match ensure (tk_env t) with (Err e, _) => hopeless e | _ => False end.

Lemma giveup_last pre g w e1 why e2 :
  count is_giveup pre = 0%nat -> pre ++ (if g : bool then [LGaveUp w] else []) = e1 ++ LGaveUp why :: e2 -> e2 = [] /\ g = true.
Proof.
  intros Hpre E. assert (count is_giveup (e1 ++ LGaveUp why :: e2) = (count is_giveup e1 + S (count is_giveup e2))%nat) as Hc
    by (rewrite count_app; done).
  rewrite <- E, count_app, Hpre in Hc. destruct g; [|cbn in Hc; lia]. split; [|done]. cbn in Hc.
  destruct e2 as [|x e2' _] using rev_ind; [done|]. exfalso.
  rewrite app_comm_cons, app_assoc in E. apply app_inj_tail in E as [E _]. subst pre.
  rewrite count_app in Hpre. cbn in Hpre. lia.
Qed.

(** A tick of an outage that installs no client. *)
Lemma down_tick h t : down t -> health_ok h -> count is_set (snd (tick h t)) = 0%nat ->
  let '(h', evs) := tick h t in
  (count is_prompt evs + budget h' <= budget h)%nat
  /\ (forall e1 why e2, evs = e1 ++ LGaveUp why :: e2 -> e2 = [] /\ budget h' = 0%nat)
  /\ (refused t -> budget h' = 0%nat)
  /\ (budget h = 0%nat -> h' = h /\ evs = []).
Proof.
  intros Hd Hok. unfold health_tick, refused. rewrite Hd. cbn [negb andb].
  assert (forall e1 why e2, [] = e1 ++ LGaveUp why :: e2 -> e2 = [] /\ budget h = 0%nat) as Hnil.
  { intros e1 why e2 H. by destruct e1. }
  destruct (tk_client t) as [c|]; [|intros _; cbn; split; [lia|split; [done|split; [intros [[? H] _]; discriminate H|done]]]].
  destruct (tk_inflight t); [intros _; cbn; split; [lia|split; [done|split; [intros (_ & H & _); discriminate H|done]]]|].
  set (h0 := MkHealth false 0 false).
  assert (forall h1 pre, count is_prompt pre = 0%nat -> count is_giveup pre = 0%nat -> count is_set pre = 0%nat ->
    wasAlive h1 = false -> gaveUp h1 = false -> (consecutiveFailures h1 < 6)%nat ->
    count is_set (pre ++ snd (recov (tk_env t) h1)) = 0%nat ->
    let '(h', evs) := recov (tk_env t) h1 in
    (count is_prompt (pre ++ evs) + budget h' <= budget h1)%nat
    /\ (forall e1 why e2, pre ++ evs = e1 ++ LGaveUp why :: e2 -> e2 = [] /\ budget h' = 0%nat)
    /\ (is_Some (Some c) /\ false = false /\ match ensure (tk_env t) with (Err e, _) => hopeless e | _ => False end -> budget h' = 0%nat)) as Hrec.
  { intros h1 pre Hp1 Hp2 Hp3 Hw Hg Hc Hs. pose proof (recover_fails (tk_env t) h1 Hw Hg Hc) as H; revert H.
    destruct (recov (tk_env t) h1) as [h' evs]. intros [_ H]. cbn [snd] in Hs. rewrite count_app, Hp3 in Hs.
    destruct (H Hs) as (Hw' & Hb & prompts & Hl & -> & Ht).
    assert (forall g w, count is_prompt (if g : bool then [LGaveUp w] else []) = 0%nat) as Hz by by intros [].
    rewrite !count_app, Hp1, count_prompt_prompts, Hz. split; [lia|split].
    - intros e1 why e2 E. rewrite app_assoc in E. apply giveup_last in E as [-> Hg'].
      + unfold budget. by rewrite Hw', Hg'.
      + by rewrite count_app, Hp2, count_prompts.
    - intros (_ & _ & Hr). unfold budget. rewrite Hw', Ht; [done|].
      destruct (ensure (tk_env t)) as [[u|e] ps]; [done|by apply hopeless_terminal]. }
  destruct (wasAlive h) eqn:Ew.
  - intros Hs. specialize (Hrec h0 [LDead] eq_refl eq_refl eq_refl eq_refl eq_refl ltac:(cbn; lia)).
    destruct (recov (tk_env t) h0) as [h' evs]. cbn [snd] in *. destruct (Hrec Hs) as (H1 & H2 & H3).
    assert (budget h = 6%nat) as Hb by (unfold budget; by rewrite Ew).
    change (budget h0) with 6%nat in H1. rewrite Hb. split; [exact H1|split; [exact H2|split; [exact H3|done]]].
  - destruct (gaveUp h) eqn:Eg.
    { intros _. assert (budget h = 0%nat) as Hb by (unfold budget; by rewrite Ew, Eg). rewrite Hb.
      split; [cbn; lia|split; [|done]]. intros e1 why e2 H. by destruct e1. }
    intros Hs. specialize (Hrec h [] eq_refl eq_refl eq_refl Ew Eg (Hok Ew Eg) Hs).
    destruct (recov (tk_env t) h) as [h' evs]. destruct Hrec as (H1 & H2 & H3). cbn [app] in *.
    split; [exact H1|split; [exact H2|split; [exact H3|]]].
    intros H. exfalso. unfold budget in H. rewrite Ew, Eg in H. specialize (Hok Ew Eg). lia.
Qed.
(** Nothing happens any more once the budget is used up, as long as the helper does not answer. *)
Lemma quiet_run ts : forall h, Forall down ts -> health_ok h -> budget h = 0%nat -> run h ts = (h, []).
Proof.
  induction ts as [|t ts IH]; intros h Hd Hok Hb; [done|]. inversion Hd as [|? ? Ht Hts]; subst. cbn [health_run].
  assert (tick h t = (h, [])) as ->; [|by rewrite (IH h)].
  assert (wasAlive h = false) as Hw by (unfold budget in Hb; by destruct (wasAlive h)).
  assert (gaveUp h = true) as Hg.
  { unfold budget in Hb. rewrite Hw in Hb. destruct (gaveUp h) eqn:Eg; [done|]. specialize (Hok Hw Eg). lia. }
  unfold health_tick. rewrite Ht, Hw, Hg. cbn. destruct (tk_client t); [|done]. by destruct (tk_inflight t).
Qed.

Lemma run_cons h t ts : run h (t :: ts) =
  (fst (run (fst (tick h t)) ts), snd (tick h t) ++ snd (run (fst (tick h t)) ts)).
Proof. cbn [health_run]. destruct (tick h t) as [h1 e1]. cbn [fst snd]. by destruct (run h1 ts). Qed.

Lemma outage_run ts : forall h, Forall down ts -> health_ok h -> count is_set (snd (run h ts)) = 0%nat ->
  (count is_prompt (snd (run h ts)) <= budget h)%nat
  /\ (forall e1 why e2, snd (run h ts) = e1 ++ LGaveUp why :: e2 -> e2 = [])
  /\ (forall o1 t o2, ts = o1 ++ t :: o2 -> refused t -> snd (run (fst (run h (o1 ++ [t]))) o2) = []).
Proof.
  induction ts as [|t ts IH]; intros h Hd Hok Hs.
  { split; [cbn; lia|split]; [intros [] ? ? H; discriminate H|intros [] ? ? H; discriminate H]. }
  inversion Hd as [|? ? Ht Hts]; subst. rewrite run_cons in *. cbn [fst snd] in *. rewrite count_app in Hs.
  pose proof (down_tick h t Ht Hok ltac:(lia)) as Htick. pose proof (tick_ok h t Hok) as Hok1.
  destruct (tick h t) as [h1 ev1] eqn:Et. cbn [fst snd] in *. destruct Htick as (T1 & T2 & T3 & T4).
  destruct (IH h1 Hts Hok1 ltac:(lia)) as (I1 & I2 & I3). split; [rewrite count_app; lia|split].
  - intros e1 why e2 E. symmetry in E. apply app_eq_app in E as (l & [[-> E]|[E E']]).
    + by eapply I2.
    + destruct l as [|x l]; [cbn in E'; symmetry in E'; rewrite app_nil_r in E; by eapply (I2 [] why)|].
      cbn in E'. injection E' as <- ->. destruct (T2 _ _ _ E) as [-> Hb]. cbn. by rewrite (quiet_run ts h1 Hts Hok1 Hb).
  - intros o1 t' o2 E Hr. destruct o1 as [|t0 o1]; cbn in E; injection E as <- ->.
    + cbn [app]. rewrite run_cons. cbn [health_run fst snd]. rewrite Et. cbn [fst].
      by rewrite quiet_run; auto.
    + cbn [app]. rewrite run_cons, Et. cbn [fst]. by apply I3.
Qed.

(** C37: While the helper cannot be reached, the user is not flooded with password prompts.  However the app got
    there, a stretch of ticks in which no ping is answered and no new helper is reached asks for the password
    at most six times and announces that it gives up at most once, as the last thing it does; and after a tick
    at which the user declined, or the signature check or launchd refused, it does nothing more. *)
Theorem recovery_bounded (before outage : list Tick) :
  let h := fst (run new_health before) in
  Forall down outage -> count is_set (snd (run h outage)) = 0%nat ->
  (count is_prompt (snd (run h outage)) <= 6)%nat
  /\ (forall e1 why e2, snd (run h outage) = e1 ++ LGaveUp why :: e2 -> e2 = [])
  /\ (forall o1 t o2, outage = o1 ++ t :: o2 -> refused t -> snd (run (fst (run h (o1 ++ [t]))) o2) = []).
Proof.
  intros h Hd Hs. assert (health_ok h) as Hok by (by apply run_ok).
  destruct (outage_run outage h Hd Hok Hs) as (H1 & H2). split; [|exact H2].
  enough (budget h <= 6)%nat by lia. unfold budget. repeat case_match; lia.
Qed.

(** ** Installing a client *)

(** The calls set the kill switch and the DNS protection as they are persisted, if they could be read. *)
Definition policy_calls (calls : list PolicyCall) : Prop :=
  exists s, calls = pushPersistedSettings s
  /\ forall p, s = Some p -> PSetKillSwitch (KillSwitch p) ∈ calls /\ PSetDNSProtection (DNSProtection p) ∈ calls.

Lemma push_policy s : policy_calls (pushPersistedSettings s).
Proof.
  exists s. split; [done|]. intros p ->. unfold pushPersistedSettings, PushFirewallPolicy. rewrite !elem_of_app.
  split; right; left; repeat (rewrite elem_of_cons; first [by left|right]).
Qed.

(** Each client is installed right after the settings were sent to its helper, and events are subscribed next. *)
Definition policy_first (evs : list LifeEvent) : Prop :=
  forall e1 r e2, evs = e1 ++ LSet r :: e2 ->
    (exists e1' calls, e1 = e1' ++ [LPush r calls] /\ policy_calls calls) /\ exists e2', e2 = LResubscribe :: e2'.

Lemma policy_first_app l1 l2 : policy_first l1 -> policy_first l2 -> policy_first (l1 ++ l2).
Proof.
  intros H1 H2 e1 r e2 E. symmetry in E. apply app_eq_app in E as (l & [[-> E]|[E E']]).
  - destruct (H2 _ _ _ E) as [(e1' & calls & -> & Hc) He]. split; [|exact He]. exists (l1 ++ e1'), calls. by rewrite app_assoc.
  - destruct l as [|x l]; cbn in E'.
    + destruct (H2 [] r e2 (eq_sym E')) as [(e1' & calls & He & _) _]. by destruct e1'.
    + injection E' as <- ->. destruct (H1 _ _ _ E) as [He [e2' ->]]. split; [exact He|by eexists].
Qed.

Lemma policy_first_plain l : Forall (fun e => is_set e = false) l -> policy_first l.
Proof. intros H e1 r e2 ->. apply Forall_app in H as [_ H]. by inversion H. Qed.

Lemma policy_first_prompts prompts : policy_first (LPrompt <$> prompts).
Proof. apply policy_first_plain, Forall_fmap, Forall_true. done. Qed.

Lemma policy_first_install s r : policy_first (install s r).
Proof.
  intros e1 r' e2 E. unfold install in E. destruct e1 as [|x [|y [|z e1]]]; try discriminate E.
  - injection E as <- <- <-. split; [|by eexists]. exists [], (pushPersistedSettings s). split; [done|apply push_policy].
  - injection E as _ _ _ E. by destruct e1.
Qed.

Lemma policy_first_recover env h : policy_first (snd (recov env h)).
Proof.
  unfold recover, attemptHelperRecovery, recoverHelper. destruct (ensure env) as [[r|e] prompts]; cbn [snd].
  - repeat apply policy_first_app; [apply policy_first_prompts|apply policy_first_install|by apply policy_first_plain; repeat constructor].
  - destruct (terminal e); [|destruct (_ <=? _)%nat]; cbn [snd]; try (apply policy_first_app; [|by apply policy_first_plain; repeat constructor]);
      apply policy_first_prompts.
Qed.

Lemma policy_first_tick h t : policy_first (snd (tick h t)).
Proof.
  assert (policy_first []) as Hnil by by apply policy_first_plain.
  unfold health_tick. destruct (tk_client t) as [c|]; [|done]. destruct (_ && _); [done|].
  destruct (tk_alive t); cbn [negb andb].
  - destruct (wasAlive h); destruct (tk_subscribed t); cbn; try done; by apply policy_first_plain; repeat constructor.
  - destruct (wasAlive h); [|destruct (gaveUp h); [done|apply policy_first_recover]].
    pose proof (policy_first_recover (tk_env t) (MkHealth false 0 false)) as H. destruct (recov _ _) as [h' evs].
    apply (policy_first_app [LDead]); [by apply policy_first_plain; repeat constructor|exact H].
Qed.

Lemma policy_first_run ts : forall h, policy_first (snd (run h ts)).
Proof.
  induction ts as [|t ts IH]; intros h; [by apply policy_first_plain|]. rewrite run_cons.
  apply policy_first_app; [apply policy_first_tick|apply IH].
Qed.

(** The first start ends: with a client, or by quitting; after at most three prompts. *)
Lemma bootstrap_loop_ends left k envs retry : (k + left = 3)%nat ->
  let '(res, evs) := bootstrap_loop version socket dataDir uid left k envs retry in
  (count is_prompt evs <= left)%nat /\ count is_set evs = 0%nat
  /\ ((0 < left)%nat -> res = None -> exists evs', evs = evs' ++ [LDialog; LQuit]).
Proof.
  revert k. induction left as [|left IH]; intros k Hk; cbn [bootstrap_loop]; [repeat split; [cbn; lia|lia]|].
  pose proof (ensure_prompts (envs k)) as Hp. destruct (ensure (envs k)) as [[r|e] prompts]; cbn [snd] in Hp.
  { rewrite count_prompt_prompts, count_prompts by done. repeat split; [lia|done]. }
  assert ((count is_prompt ((LPrompt <$> prompts) ++ [LDialog; LQuit]) <= S left)%nat
    /\ count is_set ((LPrompt <$> prompts) ++ [LDialog; LQuit]) = 0%nat
    /\ ((0 < S left)%nat -> @None PingResponse = None -> exists evs', (LPrompt <$> prompts) ++ [LDialog; LQuit] = evs' ++ [LDialog; LQuit])) as Hq.
  { rewrite !count_app, count_prompt_prompts, count_prompts by done. cbn. repeat split; [lia|]. by eexists. }
  assert (let '(res, evs) := (if (k <? 2)%nat && retry k
            then let '(res, evs) := bootstrap_loop version socket dataDir uid left (S k) envs retry in (res, (LPrompt <$> prompts) ++ LDialog :: evs)
            else (None, (LPrompt <$> prompts) ++ [LDialog; LQuit])) in
          (count is_prompt evs <= S left)%nat /\ count is_set evs = 0%nat
          /\ ((0 < S left)%nat -> res = None -> exists evs', evs = evs' ++ [LDialog; LQuit])) as Hr.
  { destruct (k <? 2)%nat eqn:Ek; cbn [andb]; [|exact Hq]. destruct (retry k); [|exact Hq]. apply Nat.ltb_lt in Ek.
    specialize (IH (S k) ltac:(lia)). destruct (bootstrap_loop _ _ _ _ left _ _ _) as [res evs]. destruct IH as (I1 & I2 & I3).
    rewrite !count_app, count_prompt_prompts, count_prompts by done. cbn. unfold count in *. cbn. repeat split; [lia|done|].
    intros _ Hres. destruct (I3 ltac:(lia) Hres) as [evs' ->]. exists ((LPrompt <$> prompts) ++ LDialog :: evs'). by rewrite <- app_assoc. }
  destruct e as [[]|]; first [exact Hq|exact Hr].
Qed.

(** The policy is sent before the app can use a helper.  From the first start on, through every recovery, a
    client is installed for the rest of the app only right after the kill switch and the DNS protection, as
    persisted if the settings can be read, were sent to its helper, and its events are subscribed next; the
    first start ends with such a client or with the app quitting, after at most three password prompts. *)
Theorem policy_before_use (envs : nat -> EnsureEnv) (retry : nat -> bool) (settings : option Settings) (ts : list Tick) :
  let start := bootstrapHelper version socket dataDir uid envs retry settings in
  policy_first (start ++ snd (run new_health ts))
  /\ (count is_prompt start <= 3)%nat
  /\ ((exists r, LSet r ∈ start) \/ exists evs, start = evs ++ [LQuit]).
Proof.
  cbv zeta. unfold bootstrapHelper. pose proof (bootstrap_loop_ends 3 0 envs retry eq_refl) as H.
  destruct (bootstrap_loop _ _ _ _ 3 0 envs retry) as [res evs]. destruct H as (Hp & Hs & Hq).
  assert (policy_first evs) as Hevs.
  { intros e1 r e2 ->. rewrite count_app in Hs. unfold count in Hs. cbn in Hs. lia. }
  split; [|split].
  - apply policy_first_app; [|apply policy_first_run]. apply (policy_first_app [LConnecting]); [by apply policy_first_plain; repeat constructor|].
    apply policy_first_app; [exact Hevs|]. destruct res as [r|]; [|by apply policy_first_plain].
    apply policy_first_app; [apply policy_first_install|by apply policy_first_plain; repeat constructor].
  - change (LConnecting :: evs ++ ?l) with ([LConnecting] ++ evs ++ l). rewrite !count_app.
    destruct res; cbn [count]; unfold count in *; cbn in *; lia.
  - destruct res as [r|].
    + left. exists r. rewrite elem_of_cons, !elem_of_app. right. right. left. unfold install. set_solver.
    + right. destruct (Hq ltac:(lia) eq_refl) as [evs' ->]. exists (LConnecting :: evs' ++ [LDialog]).
      rewrite app_nil_r. cbn. by rewrite <- app_assoc.
Qed.
End Life.

(** ** A stale helper gets in

    The version is checked on the first answer and after a forced reinstallation, but not when the first
    connection fails and another process restarts the helper meanwhile: nothing is installed then, and
    whatever answers is used. *)

Example stale_helper_used :
  let old := MkPing "1.0.1" "/Applications/Old.app/Contents/MacOS/lockplus" in
  ensureHelper "1.2.0" "/var/run/s.sock" "/data" 501 (MkEnsureEnv None true None true (fun _ => ("", true)) [Some (Some old)] None)
  = (Ok old, []).
Proof. reflexivity. Qed.

(** ** Witnesses *)

(** Nothing listens, and the user declines. *)
Definition declining : EnsureEnv :=
  MkEnsureEnv None false (Some "/Applications/LockPlus.app/Contents/MacOS/lockplus-helper") true
    (fun _ => ("execution error: User canceled. (-128)", true)) [] None.

Definition dead_tick (env : EnsureEnv) : Tick := MkTick (Some (MkPing "1.2.0" expectedDaemonBinary)) false false true env.

Lemma recovery_bounded_witness :
  let h := fst (health_run "1.2.0" "/s" "/d" 501 new_health []) in
  let outage := [dead_tick declining; dead_tick declining] in
  snd (health_run "1.2.0" "/s" "/d" 501 (fst (health_run "1.2.0" "/s" "/d" 501 h [dead_tick declining])) [dead_tick declining]) = [].
Proof.
  cbv zeta. refine (proj2 (proj2 (recovery_bounded "1.2.0" "/s" "/d" 501 [] [dead_tick declining; dead_tick declining] _ _))
    [] (dead_tick declining) [dead_tick declining] eq_refl _).
  - repeat constructor.
  - vm_compute. reflexivity.
  - split; [by eexists|split; [done|]]. vm_compute. exact I.
Defined.

Definition fresh_helper : PingResponse := MkPing "1.2.0" expectedDaemonBinary.

(** An old helper answers, the reinstallation succeeds and the new one answers. *)
Definition upgrading : EnsureEnv :=
  MkEnsureEnv (Some (Some (MkPing "" ""))) true (Some "/Applications/LockPlus.app/Contents/MacOS/lockplus-helper") true
    (fun _ => ("INSTALL_OK", false)) [None; Some None; Some (Some (MkPing "1.0.1" "")); Some (Some fresh_helper)] None.

Lemma ensureHelper_spec_witness :
  let '(res, prompts) := ensureHelper "1.2.0" "/s" "/d" 501 upgrading in
  (length prompts <= 1)%nat
  /\ (prompts <> [] -> ee_live upgrading = false \/ exists r, ee_first upgrading = Some (Some r) /\ usable "1.2.0" r = false)
  /\ forall r, res = Ok r ->
       (ee_first upgrading = Some (Some r) /\ prompts = [] /\ AppVersion r = "1.2.0" /\ up_to_date "1.2.0" r)
       \/ (Some (Some r) ∈ ee_polls upgrading /\ forall r0, ee_first upgrading = Some (Some r0) -> usable "1.2.0" r0 = false /\ up_to_date "1.2.0" r).
Proof. apply (ensureHelper_spec "1.2.0" "/s" "/d" 501 upgrading). intros H. discriminate H. Defined.

Example upgrading_run :
  fst (ensureHelper "1.2.0" "/s" "/d" 501 upgrading) = Ok fresh_helper
  /\ length (snd (ensureHelper "1.2.0" "/s" "/d" 501 upgrading)) = 1%nat.
Proof. vm_compute. done. Qed.
