(* ===== verification/History.v ===== *)
(** * The session log: internal/history/history.go and the history part of internal/app/tunnel_ops.go

    The file is kept decoded, [None] for a file that is missing or cannot be read or parsed; the store runs under
    its lock, so each operation is one function.  Times are in nanoseconds; a session's seconds are the exact
    quotient, where Go goes through a float64. *)

From S2P Require Import Prelude GoStrings.

(** ** The store *)

Definition MaxSessions : nat := 200.

Record Session := MkSession {
  ID : string; TunnelName : string; StartTime : Z; EndTime : option Z; DurationSec : Z; RxBytes : Z; TxBytes : Z;
  DisconnectReason : string }.

#[export] Instance eta_session : Eta Session := fun s =>
  MkSession (ID s) (TunnelName s) (StartTime s) (EndTime s) (DurationSec s) (RxBytes s) (TxBytes s) (DisconnectReason s).

Abbreviation HistoryFile := (option (list Session)).

Definition loadLocked (f : HistoryFile) : list Session := default [] f.

(** [ok]: WriteFileAtomic succeeds; a failure is logged only. *)
Definition saveLocked (ok : bool) (sessions : list Session) (f : HistoryFile) : HistoryFile :=
  if ok then Some sessions else f.

Definition trim (sessions : list Session) : list Session := drop (length sessions - MaxSessions) sessions.

(** [id] is newID's. *)
Definition RecordConnect (ok : bool) (now : Z) (id tunnelName : string) (f : HistoryFile) : HistoryFile :=
  saveLocked ok (trim (loadLocked f ++ [MkSession id tunnelName now None 0 0 0 ""])) f.

Definition is_open (s : Session) : bool := match EndTime s with None => true | Some _ => false end.

Definition seconds (now : Z) (s : Session) : Z := Z.max 0 (Z.quot (now - StartTime s) 1000000000).

Definition closed (now : Z) (rx tx : Z) (reason : string) (s : Session) : Session :=
  s <| EndTime := Some now |> <| DurationSec := seconds now s |> <| RxBytes := rx |> <| TxBytes := tx |>
    <| DisconnectReason := reason |>.

(** The loop: the sessions after it, [None] when nothing changed. *)
Fixpoint close_first (now : Z) (id : string) (rx tx : Z) (reason : string) (l : list Session) : option (list Session) :=
  match l with
  | [] => None
  | s :: l' =>
      if (ID s =s id) && is_open s then
        if (seconds now s =? 0)%Z && (rx =? 0)%Z && (tx =? 0)%Z then Some l'
        else Some (closed now rx tx reason s :: l')
      else cons s <$> close_first now id rx tx reason l'
  end.

Definition RecordDisconnect (ok : bool) (now : Z) (id : string) (rx tx : Z) (reason : string) (f : HistoryFile) : HistoryFile :=
  if id =s "" then f
  else match close_first now id rx tx reason (loadLocked f) with
       | Some sessions => saveLocked ok sessions f
       | None => f
       end.

Definition close_open (now : Z) (reason : string) (s : Session) : list Session :=
  if is_open s then
    if (seconds now s =? 0)%Z then []
    else [s <| EndTime := Some now |> <| DurationSec := seconds now s |> <| DisconnectReason := reason |>]
  else [s].

Definition CloseOpenSessions (ok : bool) (now : Z) (reason : string) (f : HistoryFile) : HistoryFile :=
  let sessions := loadLocked f in
  if existsb is_open sessions then saveLocked ok (sessions ≫= close_open now reason) f else f.

Definition phantom (s : Session) : bool :=
  negb (is_open s) && (DurationSec s =? 0)%Z && (RxBytes s =? 0)%Z && (TxBytes s =? 0)%Z.

Definition GetAll (f : HistoryFile) : list Session := List.filter (fun s => negb (phantom s)) (rev (loadLocked f)).

(** [None] when the file cannot be removed. *)
Definition Clear (ok : bool) (f : HistoryFile) : option HistoryFile :=
  match f with None => Some None | Some _ => if ok then Some None else None end.

(** ** The service

    [activeSessions]: the id of the session opened last for each tunnel. *)

Record Hist := MkHist { h_file : HistoryFile; activeSessions : gmap string string }.

#[export] Instance eta_hist : Eta Hist := fun h => MkHist (h_file h) (activeSessions h).

(** recordConnectStart in its accesses: what is taken from the map is closed, then the new session is recorded
    and stored. *)
Definition start_take (name : string) (h : Hist) : Hist * option string :=
  (h <| activeSessions ::= delete name |>, activeSessions h !! name).

Definition start_close (ok : bool) (now : Z) (prev : option string) (h : Hist) : Hist :=
  match prev with
  | Some id => h <| h_file ::= RecordDisconnect ok now id 0 0 "reconnect" |>
  | None => h
  end.

Definition open_record (ok : bool) (now : Z) (id name : string) (h : Hist) : Hist :=
  h <| h_file ::= RecordConnect ok now id name |>.

Definition open_store (id name : string) (h : Hist) : Hist := h <| activeSessions ::= <[name := id]> |>.

Definition recordConnectStart (ok : bool) (now : Z) (id name : string) (h : Hist) : Hist :=
  if name =s "" then h
  else let '(h, prev) := start_take name h in
       open_store id name (open_record ok now id name (start_close ok now prev h)).

Definition recordDisconnectEnd (ok : bool) (now : Z) (name : string) (rx tx : Z) (reason : string) (h : Hist) : Hist :=
  if name =s "" then h
  else let '(h, prev) := start_take name h in
       match prev with
       | Some id => h <| h_file ::= RecordDisconnect ok now id rx tx reason |>
       | None => h
       end.

(** One entry of the Range of reconcileHistoryFromStatus. *)
Definition reconcile_close (ok : bool) (now : Z) (active : list string) (bytes : string -> Z * Z) (reason : string)
    (h : Hist) (e : string * string) : Hist :=
  let '(name, id) := e in
  if bool_decide (name ∈ active) then h
  else h <| h_file ::= RecordDisconnect ok now id (fst (bytes name)) (snd (bytes name)) reason |>
         <| activeSessions ::= delete name |>.

(** Whether a session is to be opened for the name; then [open_record] and [open_store] follow. *)
Definition reconcile_check (name : string) (h : Hist) : bool :=
  negb (name =s "") && negb (bool_decide (is_Some (activeSessions h !! name))).

Definition reconcile_open (ok : bool) (now : Z) (h : Hist) (e : string * string) : Hist :=
  let '(name, id) := e in
  if reconcile_check name h then open_store id name (open_record ok now id name h) else h.

(** [ids] are the ids newID would give for the names in turn. *)
Definition reconcileHistoryFromStatus (ok : bool) (now : Z) (activeNames ids : list string) (bytes : string -> Z * Z)
    (reason : string) (h : Hist) : Hist :=
  let reason := if reason =s "" then "reconnect" else reason in
  let active := List.filter (fun n => negb (n =s "")) activeNames in
  let h := foldl (reconcile_close ok now active bytes reason) h (map_to_list (activeSessions h)) in
  foldl (reconcile_open ok now) h (zip activeNames ids).

Definition shutdown_close (ok : bool) (now : Z) (bytes : string -> Z * Z) (reason : string) (h : Hist) (e : string * string) : Hist :=
  let '(name, id) := e in
  h <| h_file ::= RecordDisconnect ok now id (fst (bytes name)) (snd (bytes name)) reason |> <| activeSessions ::= delete name |>.

Definition closeHistorySessions (ok : bool) (now : Z) (bytes : string -> Z * Z) (reason : string) (h : Hist) : Hist :=
  let h := foldl (shutdown_close ok now bytes reason) h (map_to_list (activeSessions h)) in
  h <| h_file ::= CloseOpenSessions ok now reason |>.

(** ** Facts: the session log shows what runs

    For operations made one after the other the rows without an end are exactly the running tunnels;
    [row_left_open] is what two at once can do. *)

#[local] Set Warnings "-clear-no-such-hyp".

(** ** The store *)

(** What is kept are the last ones, at most 200. *)
Lemma trim_spec l : (length (trim l) <= MaxSessions)%nat /\ exists dropped, l = dropped ++ trim l.
Proof.
  unfold trim. rewrite length_drop. split; [lia|]. exists (take (length l - MaxSessions) l). by rewrite take_drop.
Qed.

Lemma trim_short l : (length l <= MaxSessions)%nat -> trim l = l.
Proof. intros H. unfold trim. by replace (length l - MaxSessions)%nat with 0%nat by lia. Qed.

Lemma CloseOpenSessions_none now reason f :
  Forall (fun s => is_open s = false) (loadLocked (CloseOpenSessions true now reason f)).
Proof.
  unfold CloseOpenSessions, saveLocked. destruct (existsb is_open (loadLocked f)) eqn:E; cbn.
  - apply Forall_forall. intros s (s0 & Hs & _)%list_elem_of_bind. unfold close_open in Hs.
    destruct (is_open s0) eqn:Eo; [destruct (_ =? 0)%Z|]; [by apply not_elem_of_nil in Hs| |];
      apply list_elem_of_singleton in Hs as ->; done.
  - apply Forall_forall. intros s Hs. destruct (is_open s) eqn:Eo; [|done].
    rewrite <- E. symmetry. apply existsb_exists. exists s. by rewrite <- list_elem_of_In.
Qed.

(** Closing the open session of a unique id. *)
Lemma close_first_split now id rx tx reason l s :
  NoDup (ID <$> l) -> s ∈ l -> ID s = id -> is_open s = true ->
  exists l1 l2, l = l1 ++ s :: l2
  /\ (close_first now id rx tx reason l = Some (l1 ++ l2)
      \/ close_first now id rx tx reason l = Some (l1 ++ closed now rx tx reason s :: l2)).
Proof.
  induction l as [|s0 l IH]; intros Hnd Hs Hid Ho; [by apply not_elem_of_nil in Hs|].
  cbn in Hnd. apply NoDup_cons in Hnd as [Hn Hnd]. apply elem_of_cons in Hs as [->|Hs].
  - exists [], l. split; [done|]. cbn. rewrite Hid, Ho, bool_decide_true by done. cbn.
    destruct (_ && _ && _); [by left|by right].
  - destruct (IH Hnd Hs Hid Ho) as (l1 & l2 & -> & H). exists (s0 :: l1), l2. split; [done|]. cbn.
    rewrite (bool_decide_false (ID s0 = id)).
    2:{ intros E. apply Hn. rewrite E, <- Hid. by apply list_elem_of_fmap_2. }
    cbn. destruct H as [-> | ->]; [by left|by right].
Qed.

Section Log.
(** The ids of the sessions that an earlier run of the app left. *)
Context (old : list string).

(** The rows without an end that this run has opened are those of the map. *)
Record rows (l : list Session) (act : gmap string string) : Prop := MkRows {
  rw_ids : NoDup (ID <$> l);
  rw_open : forall s, s ∈ l -> is_open s = true -> ID s ∉ old -> act !! TunnelName s = Some (ID s);
  rw_act : forall n id, act !! n = Some id ->
    (id ∉ old) /\ id <> "" /\ exists s, s ∈ l /\ ID s = id /\ is_open s = true /\ TunnelName s = n }.

(** The ids still to come. *)
Definition unused (fresh : list string) (l : list Session) : Prop :=
  forall id, id ∈ fresh -> (id ∉ (ID <$> l)) /\ (id ∉ old) /\ id <> "".

Lemma close_row now n id rx tx reason l act : rows l act -> act !! n = Some id ->
  exists l', close_first now id rx tx reason l = Some l' /\ rows l' (delete n act)
  /\ (length l' <= length l)%nat /\ forall fresh, unused fresh l -> unused fresh l'.
Proof.
  intros [Hnd Hop Ha] Hn. destruct (Ha n id Hn) as (Hold & Hne & s & Hs & Hid & Ho & Hname).
  destruct (close_first_split now id rx tx reason l s Hnd Hs Hid Ho) as (l1 & l2 & -> & H).
  assert (forall s', s' ∈ l1 ++ l2 -> ID s' <> id) as Hoth.
  { intros s' Hs' E. rewrite fmap_app, fmap_cons in Hnd. apply NoDup_app in Hnd as (_ & Hd & Hnd2).
    apply NoDup_cons in Hnd2 as [Hnot _]. rewrite Hid in Hnot, Hd. apply elem_of_app in Hs' as [Hs'|Hs'].
    - apply (Hd id); [rewrite <- E; by apply list_elem_of_fmap_2|left].
    - apply Hnot. rewrite <- E. by apply list_elem_of_fmap_2. }
  assert (forall s', s' ∈ l1 ++ l2 -> s' ∈ l1 ++ s :: l2) as Hin.
  { intros s'. rewrite !elem_of_app, elem_of_cons. tauto. }
  assert (forall s', s' ∈ l1 ++ l2 -> is_open s' = true -> ID s' ∉ old -> delete n act !! TunnelName s' = Some (ID s')) as Hop'.
  { intros s' Hs' Ho' Hold'. pose proof (Hop s' (Hin s' Hs') Ho' Hold') as E. rewrite lookup_delete_ne; [done|].
    intros En. apply (Hoth s' Hs'). rewrite <- En in E. congruence. }
  assert (forall m id', delete n act !! m = Some id' -> (id' ∉ old) /\ id' <> ""
     /\ exists s', s' ∈ l1 ++ l2 /\ ID s' = id' /\ is_open s' = true /\ TunnelName s' = m) as Ha'.
  { intros m id' [Hm E]%lookup_delete_Some. destruct (Ha m id' E) as (H1 & H2 & s' & H3 & H4 & H5 & H6).
    split; [done|split; [done|]]. exists s'. split; [|done]. apply elem_of_app in H3 as [H3|H3]; [apply elem_of_app; by left|].
    apply elem_of_cons in H3 as [->|H3]; [congruence|apply elem_of_app; by right]. }
  destruct H as [H|H]; eexists; (split; [exact H|]).
  - split; [split; [|exact Hop'|exact Ha']|split; [rewrite !length_app; cbn; lia|]].
    + rewrite fmap_app, fmap_cons in Hnd. rewrite fmap_app. apply NoDup_app in Hnd as (H1 & H2 & [_ H3]%NoDup_cons).
      apply NoDup_app. split; [done|split; [|done]]. intros x Hx Hx2. apply (H2 x Hx). by right.
    + intros fresh Hf x Hx. destruct (Hf x Hx) as [Hx1 Hx2]. split; [|done]. intros Hc. apply Hx1.
      rewrite fmap_app, elem_of_app in Hc. rewrite fmap_app, fmap_cons, elem_of_app, elem_of_cons. tauto.
  - assert (ID <$> (l1 ++ closed now rx tx reason s :: l2) = ID <$> (l1 ++ s :: l2)) as Heq by (by rewrite !fmap_app).
    split; [split|split; [by rewrite !length_app|]].
    + by rewrite Heq.
    + intros s' Hs' Ho' Hold'. apply elem_of_app in Hs' as [Hs'|Hs']; [apply Hop'; [apply elem_of_app; by left|done|done]|].
      apply elem_of_cons in Hs' as [->|Hs']; [done|apply Hop'; [apply elem_of_app; by right|done|done]].
    + intros m id' E. destruct (Ha' m id' E) as (H1 & H2 & s' & H3 & H4). split; [done|split; [done|]]. exists s'. split; [|done].
      rewrite elem_of_app, elem_of_cons. apply elem_of_app in H3 as [H3|H3]; tauto.
    + intros fresh Hf x Hx. rewrite Heq. by apply Hf.
Qed.

Lemma open_row now n id l act : rows l act -> act !! n = None -> unused [id] l ->
  rows (l ++ [MkSession id n now None 0 0 0 ""]) (<[n := id]> act).
Proof.
  intros [Hnd Hop Ha] Hn Hf. destruct (Hf id) as (Hid & Hold & Hne); [left|]. split.
  - rewrite fmap_app. apply NoDup_app. split; [done|split; [|by apply NoDup_singleton]].
    intros x Hx ->%list_elem_of_singleton. done.
  - intros s [Hs|Hs]%elem_of_app Ho Ho'.
    + pose proof (Hop s Hs Ho Ho') as E. rewrite lookup_insert_ne; [done|]. intros En. rewrite <- En in E. congruence.
    + apply list_elem_of_singleton in Hs as ->. cbn. by rewrite lookup_insert_eq.
  - intros m id' E. apply lookup_insert_Some in E as [[<- <-]|[Hm E]].
    + split; [done|split; [done|]]. eexists. split; [apply elem_of_app; right; left|done].
    + destruct (Ha m id' E) as (H1 & H2 & s & H3 & H4). split; [done|split; [done|]]. exists s. split; [|done].
      apply elem_of_app. by left.
Qed.
(** ** The service *)

(** [running]: the tunnels that are to be shown; [fresh]: the ids still to come, with room for their rows. *)
Record hist_ok (fresh : list string) (running : gset string) (h : Hist) : Prop := MkHistOk {
  ho_rows : rows (loadLocked (h_file h)) (activeSessions h);
  ho_unused : unused fresh (loadLocked (h_file h));
  ho_fresh : NoDup fresh;
  ho_room : (length (loadLocked (h_file h)) + length fresh <= MaxSessions)%nat;
  ho_dom : dom (activeSessions h) = running;
  ho_named : "" ∉ running }.

Lemma hist_skip id fresh running h : hist_ok (id :: fresh) running h -> hist_ok fresh running h.
Proof.
  intros [H1 H2 [_ H3]%NoDup_cons H4 H5 H6]. cbn in H4. split; try done; [|lia].
  intros x Hx. apply H2. by right.
Qed.

Lemma hist_skip_all ids fresh running h : hist_ok (ids ++ fresh) running h -> hist_ok fresh running h.
Proof. induction ids as [|id ids IH]; [done|]. intros H. apply IH. by eapply hist_skip. Qed.

Lemma close_entry now n id rx tx reason fresh running h :
  hist_ok fresh running h -> activeSessions h !! n = Some id ->
  hist_ok fresh (running ∖ {[n]}) (h <| h_file ::= RecordDisconnect true now id rx tx reason |> <| activeSessions ::= delete n |>).
Proof.
  intros [H1 H2 H3 H4 H5 H6] Hn. destruct (rw_act _ _ H1 n id Hn) as (_ & Hne & _).
  destruct (close_row now n id rx tx reason _ _ H1 Hn) as (l' & El & Hl & Hlen & Hf).
  assert (loadLocked (RecordDisconnect true now id rx tx reason (h_file h)) = l') as E.
  { unfold RecordDisconnect. rewrite bool_decide_false by done. by rewrite El. }
  set (h' := h <| h_file ::= _ |> <| activeSessions ::= _ |>). change (loadLocked (h_file h') = l') in E.
  change (delete n (activeSessions h)) with (activeSessions h') in Hl. split; rewrite ?E; [exact Hl|by apply Hf|exact H3|lia| |clear -H6; set_solver].
  change (activeSessions h') with (delete n (activeSessions h)).
  rewrite dom_delete_L. by rewrite H5.
Qed.

Lemma open_entry now n id fresh running h :
  hist_ok (id :: fresh) running h -> n ∉ running -> n <> "" ->
  hist_ok fresh ({[n]} ∪ running) (open_store id n (open_record true now id n h)).
Proof.
  intros [H1 H2 [H3 H3']%NoDup_cons H4 H5 H6] Hn Hne. cbn in H4.
  assert (activeSessions h !! n = None) as Ha by (apply not_elem_of_dom; by rewrite H5).
  assert (unused [id] (loadLocked (h_file h))) as Hu by (intros x ->%list_elem_of_singleton; apply H2; left).
  pose proof (open_row now n id _ _ H1 Ha Hu) as Hr.
  assert (trim (loadLocked (h_file h) ++ [MkSession id n now None 0 0 0 ""]) = loadLocked (h_file h) ++ [MkSession id n now None 0 0 0 ""]) as Et.
  { apply trim_short. rewrite length_app. cbn. lia. }
  assert (loadLocked (h_file (open_store id n (open_record true now id n h))) = loadLocked (h_file h) ++ [MkSession id n now None 0 0 0 ""]) as El by exact Et.
  split; rewrite ?El.
  - exact Hr.
  - intros x Hx. destruct (H2 x) as (Hx1 & Hx2); [by right|]. split; [|done].
    rewrite fmap_app, elem_of_app. intros [Hc|Hc]; [done|]. apply list_elem_of_singleton in Hc as ->. done.
  - exact H3'.
  - rewrite length_app. cbn. lia.
  - change (dom (<[n := id]> (activeSessions h)) = {[n]} ∪ running). by rewrite dom_insert_L, H5.
  - clear -H6 Hne. set_solver.
Qed.

Lemma start_ok now id n fresh running h : n <> "" ->
  hist_ok (id :: fresh) running h -> hist_ok fresh ({[n]} ∪ running) (recordConnectStart true now id n h).
Proof.
  intros Hn Hok. unfold recordConnectStart, start_take. rewrite bool_decide_false by done.
  destruct (activeSessions h !! n) as [id0|] eqn:E; cbn [start_close].
  - pose proof (close_entry now n id0 0 0 "reconnect" _ _ _ Hok E) as Hc.
    replace ({[n]} ∪ running) with ({[n]} ∪ running ∖ {[n]}).
    2:{ apply set_eq. intros x. destruct (decide (x = n)); set_solver. }
    apply (open_entry now n id) in Hc; [exact Hc|set_solver|done].
  - replace (h <| activeSessions ::= delete n |>) with h.
    2:{ destruct h as [f a]. cbn in *. by rewrite delete_id. }
    apply open_entry; [done| |done]. rewrite <- (ho_dom _ _ _ Hok). by apply not_elem_of_dom.
Qed.

Lemma end_ok now n rx tx reason fresh running h : n <> "" ->
  hist_ok fresh running h -> hist_ok fresh (running ∖ {[n]}) (recordDisconnectEnd true now n rx tx reason h).
Proof.
  intros Hn Hok. unfold recordDisconnectEnd, start_take. rewrite bool_decide_false by done.
  destruct (activeSessions h !! n) as [id0|] eqn:E.
  - exact (close_entry now n id0 rx tx reason _ _ _ Hok E).
  - replace (h <| activeSessions ::= delete n |>) with h.
    2:{ destruct h as [f a]. cbn in *. by rewrite delete_id. }
    replace (running ∖ {[n]}) with running; [done|]. apply not_elem_of_dom in E. rewrite (ho_dom _ _ _ Hok) in E. set_solver.
Qed.

(** Closing some of the entries of the map, each at most once. *)
Lemma range_ok (f : Hist -> string * string -> Hist) (keep : string -> bool) fresh :
  (forall h running n id, hist_ok fresh running h -> activeSessions h !! n = Some id ->
     if keep n then f h (n, id) = h
     else hist_ok fresh (running ∖ {[n]}) (f h (n, id)) /\ activeSessions (f h (n, id)) = delete n (activeSessions h)) ->
  forall es running h, hist_ok fresh running h -> NoDup es.*1 ->
  (forall n id, (n, id) ∈ es -> activeSessions h !! n = Some id) ->
  hist_ok fresh (running ∖ list_to_set (List.filter (fun n => negb (keep n)) es.*1)) (foldl f h es).
Proof.
  intros Hf es. induction es as [|[n id] es IH]; intros running h Hok Hnd Hes; cbn [foldl fmap list_fmap List.filter].
  { replace (running ∖ list_to_set []) with running by set_solver. exact Hok. }
  apply NoDup_cons in Hnd as [Hn Hnd]. specialize (Hf h running n id Hok (Hes n id ltac:(left))). cbn [fst].
  destruct (keep n) eqn:Ek; cbn [negb].
  - rewrite Hf. apply IH; [done|done|]. intros m id' Hm. apply Hes. by right.
  - destruct Hf as [Hok' Ha]. cbn [list_to_set].
    match goal with |- hist_ok _ ?R _ => replace R with ((running ∖ {[n]}) ∖ list_to_set (List.filter (fun n => negb (keep n)) es.*1)) by set_solver end.
    apply IH; [done|done|]. intros m id' Hm. rewrite Ha, lookup_delete_ne; [apply Hes; by right|].
    intros <-. apply Hn. apply list_elem_of_fmap. by exists (n, id').
Qed.

Lemma map_keys (h : Hist) fresh running : hist_ok fresh running h ->
  NoDup (map_to_list (activeSessions h)).*1
  /\ (forall n id, (n, id) ∈ map_to_list (activeSessions h) -> activeSessions h !! n = Some id)
  /\ list_to_set (map_to_list (activeSessions h)).*1 = running.
Proof.
  intros Hok. split; [apply NoDup_fst_map_to_list|split; [intros n id; by rewrite elem_of_map_to_list|]].
  rewrite <- (ho_dom _ _ _ Hok). apply set_eq. intros n. rewrite elem_of_list_to_set, list_elem_of_fmap, elem_of_dom. split.
  - intros ([m id] & -> & H%elem_of_map_to_list). by exists id.
  - intros [id H]. exists (n, id). split; [done|]. by apply elem_of_map_to_list.
Qed.

(** The names of a status that are opened. *)
Lemma reopen_ok now names : forall ids fresh running h, length ids = length names ->
  hist_ok (ids ++ fresh) running h ->
  hist_ok fresh (running ∪ list_to_set (List.filter (fun n => negb (n =s "")) names)) (foldl (reconcile_open true now) h (zip names ids)).
Proof.
  induction names as [|n names IH]; intros [|id ids] fresh running h Hlen Hok; cbn in Hlen; try lia; cbn [zip foldl List.filter zip_with].
  { replace (running ∪ list_to_set []) with running by set_solver. exact Hok. }
  injection Hlen as Hlen. cbn [app] in Hok. unfold reconcile_open at 2, reconcile_check.
  destruct (decide (n = "")) as [->|Hne].
  { rewrite !bool_decide_true by done. cbn. apply IH; [done|]. by eapply hist_skip. }
  rewrite (bool_decide_false (n = "")) by done. cbn [negb andb list_to_set]. case_bool_decide as Ha; cbn [negb].
  - assert (n ∈ running) as Hin by (rewrite <- (ho_dom _ _ _ Hok); by apply elem_of_dom).
    match goal with |- hist_ok _ ?R _ => replace R with (running ∪ list_to_set (List.filter (fun n => negb (n =s "")) names)) end.
    2:{ apply set_eq. intros x. set_solver. }
    apply IH; [done|]. by eapply hist_skip.
  - assert (n ∉ running) as Hin by (rewrite <- (ho_dom _ _ _ Hok); by rewrite elem_of_dom).
    match goal with |- hist_ok _ ?R _ => replace R with (({[n]} ∪ running) ∪ list_to_set (List.filter (fun n => negb (n =s "")) names)) by set_solver end.
    apply IH; [done|]. by apply open_entry.
Qed.

Lemma reconcile_ok now names ids bytes reason fresh running h : length ids = length names ->
  hist_ok (ids ++ fresh) running h ->
  hist_ok fresh (list_to_set (List.filter (fun n => negb (n =s "")) names)) (reconcileHistoryFromStatus true now names ids bytes reason h).
Proof.
  intros Hlen Hok. unfold reconcileHistoryFromStatus. cbv zeta. set (act := List.filter _ names). set (rs := if reason =s "" then _ else _).
  destruct (map_keys _ _ _ Hok) as (Hnd & Hes & Hdom).
  pose proof (range_ok (reconcile_close true now act bytes rs) (fun n => bool_decide (n ∈ act)) (ids ++ fresh)) as Hr.
  assert (hist_ok (ids ++ fresh) (running ∖ list_to_set (List.filter (fun n => negb (bool_decide (n ∈ act))) (map_to_list (activeSessions h)).*1))
    (foldl (reconcile_close true now act bytes rs) h (map_to_list (activeSessions h)))) as Hc.
  { apply Hr; try done. intros h' R n id Hok' Hn. unfold reconcile_close. destruct (bool_decide (n ∈ act)); [done|].
    split; [by apply close_entry|done]. }
  apply (reopen_ok now names ids fresh) in Hc; [|done].
  match type of Hc with hist_ok _ ?R _ => replace R with (list_to_set act : gset string) in Hc; [exact Hc|] end.
  apply set_eq. intros x. rewrite elem_of_union, elem_of_difference, !elem_of_list_to_set. fold act. split; [by right|].
  intros [[Hx Hnot]|Hx]; [|exact Hx]. destruct (decide (x ∈ act)) as [|Hx']; [done|]. exfalso. apply Hnot.
  rewrite list_elem_of_In, filter_In, <- list_elem_of_In. rewrite bool_decide_false by done. split; [|done].
  rewrite <- Hdom, elem_of_list_to_set in Hx. exact Hx.
Qed.

Lemma shutdown_ok now bytes reason fresh running h : hist_ok fresh running h ->
  activeSessions (closeHistorySessions true now bytes reason h) = ∅
  /\ Forall (fun s => is_open s = false) (loadLocked (h_file (closeHistorySessions true now bytes reason h))).
Proof.
  intros Hok. destruct (map_keys _ _ _ Hok) as (Hnd & Hes & Hdom). unfold closeHistorySessions. cbv zeta.
  assert (hist_ok fresh (running ∖ list_to_set (List.filter (fun _ => true) (map_to_list (activeSessions h)).*1))
    (foldl (shutdown_close true now bytes reason) h (map_to_list (activeSessions h)))) as Hc.
  { apply (range_ok (shutdown_close true now bytes reason) (fun _ => false) fresh); try done.
    intros h' R n id Hok' Hn. unfold shutdown_close. split; [by apply close_entry|done]. }
  cbn. split; [|apply CloseOpenSessions_none]. apply dom_empty_inv_L. rewrite (ho_dom _ _ _ Hc), <- Hdom.
  apply set_eq. intros x. rewrite elem_of_difference, !elem_of_list_to_set, !list_elem_of_In, filter_In. set_solver.
Qed.
End Log.

(** ** What the service promises *)

(** A connect or a disconnect that succeeded, and a status of the helper. *)
Inductive HistOp :=
| HConnect (now : Z) (id name : string)
| HDisconnect (now : Z) (name : string) (rx tx : Z)
| HStatus (now : Z) (names ids : list string) (bytes : string -> Z * Z) (reason : string).

Definition exec_hist (h : Hist) (op : HistOp) : Hist :=
  match op with
  | HConnect now id name => recordConnectStart true now id name h
  | HDisconnect now name rx tx => recordDisconnectEnd true now name rx tx "user" h
  | HStatus now names ids bytes reason => reconcileHistoryFromStatus true now names ids bytes reason h
  end.

(** The tunnels that run. *)
Definition spec_hist (running : gset string) (op : HistOp) : gset string :=
  match op with
  | HConnect _ _ name => if name =s "" then running else {[name]} ∪ running
  | HDisconnect _ name _ _ => running ∖ {[name]}
  | HStatus _ names _ _ _ => list_to_set (List.filter (fun n => negb (n =s "")) names)
  end.

Definition op_ids (op : HistOp) : list string :=
  match op with HConnect _ id _ => [id] | HDisconnect _ _ _ _ => [] | HStatus _ _ ids _ _ => ids end.

Definition op_ok (op : HistOp) : Prop :=
  match op with HStatus _ names ids _ _ => length ids = length names | _ => True end.

Lemma hist_op_ok old op fresh running h : op_ok op ->
  hist_ok old (op_ids op ++ fresh) running h -> hist_ok old fresh (spec_hist running op) (exec_hist h op).
Proof.
  intros Hop Hok. destruct op as [now id name|now name rx tx|now names ids bytes reason]; cbn in *.
  - destruct (decide (name = "")) as [->|Hn].
    + unfold recordConnectStart. rewrite !bool_decide_true by done. by eapply hist_skip.
    + rewrite bool_decide_false by done. by apply start_ok.
  - destruct (decide (name = "")) as [->|Hn]; [|by apply end_ok].
    unfold recordDisconnectEnd. rewrite bool_decide_true by done.
    replace (running ∖ {[""]}) with running; [done|]. pose proof (ho_named _ _ _ _ Hok). set_solver.
  - by apply (reconcile_ok old now names ids bytes reason fresh running).
Qed.

Lemma hist_run_ok old ops : forall running h, Forall op_ok ops ->
  hist_ok old (ops ≫= op_ids) running h -> hist_ok old [] (foldl spec_hist running ops) (foldl exec_hist h ops).
Proof.
  induction ops as [|op ops IH]; intros running h Hops Hok; [exact Hok|]. inversion Hops; subst. cbn [foldl].
  apply IH; [done|]. by apply hist_op_ok.
Qed.

Lemma hist_start f0 ids : NoDup (ID <$> loadLocked f0) -> NoDup ids ->
  (forall id, id ∈ ids -> (id ∉ (ID <$> loadLocked f0)) /\ id <> "") -> (length (loadLocked f0) + length ids <= MaxSessions)%nat ->
  hist_ok (ID <$> loadLocked f0) ids ∅ (MkHist f0 ∅).
Proof.
  intros H1 H2 H3 H4. split; cbn [h_file activeSessions]; try done.
  - split; [done| |done]. intros s Hs _ Hn. destruct Hn. by apply list_elem_of_fmap_2.
  - intros id Hid. destruct (H3 id Hid). done.
Qed.

(** A row without an end, of a session this run opened. *)
Definition shown (f0 : HistoryFile) (h : Hist) (n : string) (s : Session) : Prop :=
  s ∈ loadLocked (h_file h) /\ is_open s = true /\ (ID s ∉ (ID <$> loadLocked f0)) /\ TunnelName s = n.

(** C38: The session log is right about what runs, as long as its operations come one after the other: through any such
    sequence of connects, disconnects and statuses of the helper, the sessions without an end are those of the
    running tunnels, one for each; and at shutdown every session is closed, those an earlier crash left included.
    Operations at the same time can leave a session of a tunnel that does not run open ([row_left_open]).  There are
    at most 200 sessions in all (the oldest are dropped after that), ids are new, and the file can be written. *)
Theorem history_refines (f0 : HistoryFile) (ops : list HistOp) :
  let ids := ops ≫= op_ids in
  NoDup (ID <$> loadLocked f0) -> NoDup ids ->
  (forall id, id ∈ ids -> (id ∉ (ID <$> loadLocked f0)) /\ id <> "") ->
  (length (loadLocked f0) + length ids <= MaxSessions)%nat -> Forall op_ok ops ->
  let h := foldl exec_hist (MkHist f0 ∅) ops in
  (forall n, n ∈ foldl spec_hist ∅ ops <-> exists s, shown f0 h n s)
  /\ (forall n s s', shown f0 h n s -> shown f0 h n s' -> s = s')
  /\ forall now bytes reason,
       Forall (fun s => is_open s = false) (loadLocked (h_file (closeHistorySessions true now bytes reason h))).
Proof.
  intros ids H1 H2 H3 H4 Hops h.
  assert (hist_ok (ID <$> loadLocked f0) [] (foldl spec_hist ∅ ops) h) as Hok
    by (apply hist_run_ok; [done|by apply hist_start]).
  pose proof (ho_rows _ _ _ _ Hok) as [Hnd Hop Ha]. split; [|split].
  - intros n. rewrite <- (ho_dom _ _ _ _ Hok), elem_of_dom. split.
    + intros [id E]. destruct (Ha n id E) as (Ho & _ & s & Hs & <- & Hopen & <-). by exists s.
    + intros (s & Hs & Ho & Hold & <-). exists (ID s). by apply Hop.
  - intros n s s' (Hs & Ho & Hold & Hn) (Hs' & Ho' & Hold' & Hn').
    pose proof (Hop s Hs Ho Hold) as E. pose proof (Hop s' Hs' Ho' Hold') as E'. rewrite Hn in E. rewrite Hn' in E'.
    apply list_elem_of_lookup in Hs as [i Hi]. apply list_elem_of_lookup in Hs' as [j Hj].
    assert (i = j) as <-; [|congruence].
    eapply (NoDup_lookup _ i j (ID s)); [exact Hnd| |]; rewrite list_lookup_fmap; [by rewrite Hi|rewrite Hj; cbn; congruence].
  - intros now bytes reason. by eapply shutdown_ok.
Qed.

(** ** Two at once

    The status of a connected tunnel arrives while its Connect returns: the status' goroutine sees no session,
    the connect's opens one, and the other overwrites it.  The first row has no end until the app quits. *)

Example row_left_open :
  let h0 := MkHist None ∅ in
  let seen := reconcile_check "home" h0 in
  let h1 := recordConnectStart true 1000000000 "a" "home" h0 in
  let h2 := open_store "b" "home" (open_record true 2000000000 "b" "home" h1) in
  let h3 := recordDisconnectEnd true 9000000000 "home" 10 20 "user" h2 in
  seen = true /\ (ID <$> List.filter is_open (GetAll (h_file h3))) = ["a"] /\ activeSessions h3 = ∅.
Proof. vm_compute. auto. Qed.

(** ** Witness *)

Definition evening : list HistOp :=
  [HConnect 1000000000 "a" "home"; HStatus 2000000000 ["home"; "work"] ["b"; "c"] (fun _ => (0, 0)%Z) "";
   HDisconnect 60000000000 "home" 100 200; HConnect 70000000000 "d" "work"].

(** A row an earlier run left open. *)
Definition crashed_file : HistoryFile := Some [MkSession "x" "home" 0 None 0 0 0 ""].

Lemma history_refines_witness :
  let h := foldl exec_hist (MkHist crashed_file ∅) evening in
  (forall n, n ∈ foldl spec_hist ∅ evening <-> exists s, shown crashed_file h n s)
  /\ (forall n s s', shown crashed_file h n s -> shown crashed_file h n s' -> s = s')
  /\ forall now bytes reason,
       Forall (fun s => is_open s = false) (loadLocked (h_file (closeHistorySessions true now bytes reason h))).
Proof.
  apply (history_refines crashed_file evening).
  - by apply NoDup_singleton.
  - apply (bool_decide_unpack _). vm_compute. exact I.
  - apply Forall_forall. repeat constructor; vm_compute; intros H; try discriminate H;
      apply list_elem_of_singleton in H; discriminate H.
  - vm_compute. lia.
  - repeat constructor.
Defined.
