(* ===== verification/TunnelOps.v ===== *)
(** * Operations on stored tunnels: internal/app/tunnel_ops.go, and their like in settings_ops.go and scanner.go

    What the service asks the helper for a stored tunnel, what it shows of it, and the imports of found files.
    What the helper answers is an argument; marking a call in flight is left to HelperLife. *)

From S2P Require Import Prelude GoStrings GoNet GoText Domain Config ConfigRoundtrip Validator ValidatorFacts Conflict OvpnParse OvpnProfile Recovery HelperFirewall HelperOps Store StoreFacts FileOps FileOpsFacts.

Section Stored.
Context (fold : string -> string) (io : Access -> bool).

(** meta, _ := LoadMeta(name) *)
Definition meta_or_nil (d : Dir) (name : string) : option TunnelMeta :=
  match LoadMeta fold io d name with Ok m => Some m | Err _ => None end.

Definition meta_protocol (m : option TunnelMeta) : Protocol :=
  match m with Some m => NormalizeProtocol (tm_Protocol m) | None => ProtocolWireGuard end.

(** The request Connect makes. *)
Definition connect_request (d : Dir) (name : string) : result StoreError ConnectRequest :=
  let meta := meta_or_nil d name in
  let auto := match meta with Some m => AutoReconnect m | None => false end in
  if meta_protocol meta =s ProtocolOpenVPN then
    let? content := LoadOVPN fold io d name in
    Ok (MkConnectRequest None auto ProtocolOpenVPN name content)
  else
    let? cfg := Load fold io d name in
    Ok (MkConnectRequest (Some cfg) auto "" "" "").

Inductive ServiceError := CeStore (e : StoreError) | CeHelper.

(** With whether a session is recorded: only after the helper accepted. *)
Definition Connect (accepted : bool) (d : Dir) (name : string) : option ServiceError * bool :=
  match connect_request d name with
  | Err e => (Some (CeStore e), false)
  | Ok _ => if accepted then (None, true) else (Some CeHelper, false)
  end.

(** The outcomes of a call: done, refused, or cut off by a swap of clients (ErrClientClosed). *)
Inductive Answered := AOk | AErr | AClosed.

(** DisconnectTunnel: the number of calls, and whether the session is closed; [answers] are those of the calls. *)
Definition DisconnectTunnel (answers : nat -> Answered) : nat * bool :=
  match answers 0%nat with
  | AOk => (1%nat, true)
  | AErr => (1%nat, false)
  | AClosed => (2%nat, match answers 1%nat with AOk => true | _ => false end)
  end.

(** snapshotActiveStats; [None] when the status cannot be read. *)
Definition snapshotActiveStats (status : option ConnectionStatus) (name : string) : Z * Z :=
  match status with
  | None => (0, 0)%Z
  | Some st =>
      if cs_TunnelName st =s name then (cs_RxBytes st, cs_TxBytes st)
      else match List.find (fun t => cs_TunnelName t =s name) (cs_Tunnels st) with
           | Some t => (cs_RxBytes t, cs_TxBytes t)
           | None => (0, 0)%Z
           end
  end.

(** ** Lists *)

Record TunnelRow := MkRow { tr_Name : string; tr_IsConnected : bool; tr_Endpoint : string; tr_Notes : string; tr_Protocol : Protocol; tr_Proto : string }.

Definition tunnelInfoFor (d : Dir) (name activeName : string) : option TunnelRow :=
  let meta := meta_or_nil d name in
  let notes := match meta with Some m => Notes m | None => "" end in
  let protocol := if IsOVPN fold d name then ProtocolOpenVPN else meta_protocol meta in
  let row := MkRow name (negb (activeName =s "") && (name =s activeName)) in
  if protocol =s ProtocolOpenVPN then
    match LoadOVPN fold io d name with
    | Err _ => None
    | Ok content => match ParseOVPN content with
                    | Ok cfg => Some (row (ocRemote cfg) notes protocol (ocProto cfg))
                    | Err _ => Some (row "" notes protocol "")
                    end
    end
  else
    match Load fold io d name with
    | Err _ => None
    | Ok cfg => Some (row (first_endpoint cfg) notes protocol "")
    end.

(** [activeName] is the helper's answer, empty when it gave none. *)
Definition ListTunnels (d : Dir) (activeName : string) : result StoreError (list TunnelRow) :=
  let? names := List_ io d in
  Ok (omap (fun n => tunnelInfoFor d n activeName) names).

Definition listTunnelsLocal (d : Dir) : result StoreError (list TunnelRow) := ListTunnels d "".

(** The addresses whose conflicts are looked for. *)
Definition conflict_ips (d : Dir) (name : string) : result StoreError (list string) :=
  let? cfg := Load fold io d name in
  Ok (flat_map AllowedIPs (Peers cfg)).

(** SaveTunnelMeta of settings_ops.go. *)
Definition SaveTunnelMeta (d : Dir) (name : string) (m : TunnelMeta) : result StoreError Dir :=
  let m := match LoadMeta fold io d name with
           | Ok existing => if tm_Protocol m =s "" then m <| tm_Protocol := tm_Protocol existing |> else m
           | Err _ => m
           end in
  SaveMeta fold io d name m.

(** ** Found files

    A directory is the names of its files, [None] when it cannot be read. *)

Definition scan_dirs (home : string) : list string :=
  ["/etc/wireguard"; "/usr/local/etc/wireguard"; path_join home "Library/Application Support/wireguide/tunnels"].

Definition scan_dir (existing : list string) (read_dir : string -> option (list string)) (dir : string) : list (string * string) :=
  match read_dir dir with
  | None => []
  | Some files =>
      omap (fun file => let '(name, ext) := stripKnownTunnelExt file in
                        if negb (ext =s ".conf") || bool_decide (name ∈ existing) then None
                        else Some (name, path_join dir file)) files
  end.

Definition scanSystemWireGuardConfigs (existing : list string) (home : string) (read_dir : string -> option (list string)) : list (string * string) :=
  scan_dirs home ≫= scan_dir existing read_dir.

(** ScanForWireGuardConfigs: the files, and the grants for them. *)
Definition ScanForWireGuardConfigs (now : Z) (d : Dir) (home : string) (read_dir : string -> option (list string)) (g : Grants)
    : list (string * string) * Grants :=
  let existing := match List_ io d with Ok l => l | Err _ => [] end in
  let found := scanSystemWireGuardConfigs existing home read_dir in
  (found, grantPaths now (snd <$> found) g).

(** What is at a path: its size, [None] when it cannot be told, and its text. *)
Abbreviation AtPath := (string -> option Z * option string).

Inductive FoundError := FeGrant | FeTooLarge | FeRead | FeImport (e : ImportError).

Definition import_found (now : Z) (at_path : AtPath) (st : Dir * Grants * list (string * option FoundError)) (p : string)
    : Dir * Grants * list (string * option FoundError) :=
  let '(d, g, results) := st in
  let '(name, ext) := stripKnownTunnelExt (path_base p) in
  let '(ok, g) := consumePath now p g in
  if negb ok then (d, g, results ++ [(name, Some FeGrant)])
  else
    let '(size, text) := at_path p in
    if match size with Some n => (maxReadFileSize <? n)%Z | None => false end then (d, g, results ++ [(name, Some FeTooLarge)])
    else match text with
         | None => (d, g, results ++ [(name, Some FeRead)])
         | Some s => match importNamed fold io now d name ext s with
                     | (Ok info, d') => (d', g, results ++ [(ti_Name info, None)])
                     | (Err e, d') => (d', g, results ++ [(name, Some (FeImport e))])
                     end
         end.

Definition ImportFoundConfigs (now : Z) (at_path : AtPath) (paths : list string) (d : Dir) (g : Grants)
    : Dir * Grants * list (string * option FoundError) :=
  foldl (import_found now at_path) (d, g, []) paths.

(** ReadFile: a granted file of at most 10 MB. *)
Definition ReadFile (now : Z) (at_path : AtPath) (p : string) (g : Grants) : option string * Grants :=
  let '(ok, g) := consumePath now p g in
  if negb ok then (None, g)
  else match at_path p with
       | (Some n, text) => if (maxReadFileSize <? n)%Z then (None, g) else (text, g)
       | (None, _) => (None, g)
       end.
End Stored.

(** ** Facts: from a file to the helper

    What was imported is what the helper is asked to connect, and the helper's own checks accept it. *)

(** ** The helper's checks *)

(** The helper refuses the request for what it says. *)
Definition refused (e : HelperError) : bool :=
  match e with
  | ErrNoConfig | ErrTunnelName _ | ErrInvalidConfig _ | ErrNoTunnelName | ErrNoOVPNConfig | ErrInvalidProfile _ => true
  | _ => false
  end.

(** What the helper asks of a request. *)
Definition request_ok (req : ConnectRequest) : Prop :=
  if is_openvpn req then
    rq_TunnelName req <> "" /\ ValidateTunnelName (rq_TunnelName req) = None
    /\ rq_OVPNConfig req <> "" /\ ValidateOVPN (rq_OVPNConfig req) = None
  else exists cfg, rq_Config req = Some cfg /\ ValidateTunnelName (Name cfg) = None /\ IsValid (Validate cfg) = true.

Lemma bind_result {A B} (m : M A) (k : A -> M B) (P : B -> Prop) (s : Helper * list Call) :
  (forall a s', P (fst (k a s'))) -> P (fst (bind m k s)).
Proof. intros H. unfold bind. destruct (m s) as [a s']. apply H. Qed.

Definition answers_ok (r : result HelperError unit) : Prop := match r with Err e => refused e = false | Ok _ => True end.

Ltac run_program := repeat first
  [ exact I | reflexivity
  | match goal with
    | |- answers_ok (fst (bind _ _ _)) => apply bind_result; intros
    | |- context [match ?x with _ => _ end] => destruct x
    end ].

Lemma request_accepted env req epoch resolved s : request_ok req -> answers_ok (fst (connect_locked env req epoch resolved s)).
Proof.
  unfold request_ok, connect_locked. intros Hok. apply bind_result. intros h s1. destruct (negb _); [reflexivity|].
  destruct (is_openvpn req).
  - destruct Hok as (Hn & Hv & Hc & Ho). unfold connectOpenVPN. rewrite Hv, Ho, (bool_decide_false _ Hn), (bool_decide_false _ Hc). run_program.
  - destruct Hok as (cfg & Hc & Hv & Hi). unfold connect_wg. rewrite Hc, Hv, Hi. cbn [negb]. run_program.
Qed.

(** ** Stored tunnels *)

Section Stored.
Context (fold : string -> string) (io : Access -> bool) (now : Z) `{Hf : !Folding fold}.
Context (Hio : forall a, io a = true).

Lemma ok_write d f c d' : fs_write fold io d f c = Ok d' -> d' = <[fold f := MkFile f c]> d.
Proof. unfold fs_write. destruct (io _); [|done]. by intros [= <-]. Qed.

Lemma ok_read d f c : d !! fold f = Some (MkFile f c) -> fs_read fold io d f = Ok c.
Proof. intros H. unfold fs_read. by rewrite H, Hio. Qed.

Lemma no_profile : ValidateOVPN "" <> None.
Proof. vm_compute. discriminate. Qed.

(** An imported OpenVPN profile. *)
Lemma connect_ovpn d name content info d' : ValidateTunnelName name = None ->
  importOVPN fold io d name content = (Ok info, d') ->
  exists auto, connect_request fold io d' name = Ok (MkConnectRequest None auto ProtocolOpenVPN name content)
  /\ ValidateOVPN content = None /\ ti_Name info = name.
Proof.
  intros Hv H. unfold importOVPN in H. rewrite Hv in H. destruct (ValidateOVPN content) eqn:Eo; [done|].
  destruct (SaveOVPN fold io d name content) as [d1|] eqn:Es; [|done].
  unfold SaveOVPN, check_name in Es. rewrite Hv in Es. cbn [result_bind] in Es. apply map_err_ok, ok_write in Es.
  set (m := match LoadMeta fold io d1 name with Ok m => m | Err _ => zero_meta end <| tm_Protocol := ProtocolOpenVPN |>) in H.
  destruct (SaveMeta fold io d1 name m) as [d2|] eqn:Em; [|done]. injection H as <- <-.
  unfold SaveMeta, check_name in Em. rewrite Hv in Em. cbn [result_bind] in Em. apply map_err_ok, ok_write in Em.
  assert (d2 !! fold (ovpnPath name) = Some (MkFile (ovpnPath name) (Text content))) as Hc.
  { subst d2 d1. rewrite lookup_insert_ne by (rewrite fold_metaPath, fold_ovpnPath by done; apply meta_ovpn). by rewrite lookup_insert_eq. }
  assert (IsOVPN fold d2 name = true) as Ho by (unfold IsOVPN, fs_exists; rewrite Hc; by apply bool_decide_eq_true; eexists).
  unfold connect_request, meta_or_nil, LoadMeta. rewrite (ok_read d2 (metaPath name) (Json m)) by (subst d2; by rewrite lookup_insert_eq).
  cbn [result_bind]. rewrite Ho. cbn -[LoadOVPN]. unfold LoadOVPN, check_name. rewrite Hv. cbn [result_bind].
  rewrite (ok_read _ _ _ Hc). cbn. by eexists.
Qed.

(** An imported WireGuard configuration, under a name without an older settings file. *)
Lemma connect_wireguard d name content info d' : ValidateTunnelName name = None ->
  d !! fold (ovpnPath name) = None -> d !! fold (metaPath name) = None ->
  contains_byte nul content = false ->
  (forall cfg, Parse content = Ok cfg -> no_losses (cfg <| Name := name |>) = true /\ lines_fit (cfg <| Name := name |>) = true) ->
  ImportConfig fold io d name content = Ok (info, d') ->
  exists cfg, Parse content = Ok cfg /\ connect_request fold io d' name = Ok (MkConnectRequest (Some (cfg <| Name := name |>)) false "" "" "")
  /\ IsValid (Validate (cfg <| Name := name |>)) = true /\ ti_Name info = name.
Proof.
  intros Hv Ho Hm Hz Hl H. unfold ImportConfig in H. apply result_bind_ok in H as ([cfg d1] & H & [= <- <-]). apply map_err_ok in H.
  assert (exists cfg0, Parse content = Ok cfg0 /\ cfg = cfg0 <| Name := name |>
     /\ d1 = <[fold (path name) := MkFile (path name) (Text (Serialize cfg))]> d) as (cfg0 & Ep & -> & Ed).
  { unfold ImportFromContent in H. destruct (Parse content) as [cfg0|]; [|done]. exists cfg0. split; [done|].
    destruct (negb _); [done|]. apply result_bind_ok in H as (d2 & Hs & [= <- <-]). split; [done|].
    unfold Save in Hs. apply result_bind_ok in Hs as (_ & _ & Hw). by apply map_err_ok, ok_write in Hw. }
  destruct (Hl cfg0 Ep) as [Hl1 Hl2]. exists cfg0. split; [done|].
  destruct (import_load fold io d d1 name content _ H Hz Hl1 Hl2 (Hio _)) as [Hload Hval].
  assert (IsOVPN fold d1 name = false) as Hno.
  { unfold IsOVPN, fs_exists. apply bool_decide_eq_false. rewrite Ed, lookup_insert_ne, Ho by (rewrite fold_path, fold_ovpnPath by done; apply conf_ovpn). by intros [? ?]. }
  assert (fs_read fold io d1 (metaPath name) = Err NotExist) as Hnm.
  { unfold fs_read. rewrite Ed, lookup_insert_ne, Hm by (rewrite fold_path, fold_metaPath by done; intros E; symmetry in E; by apply meta_conf in E). done. }
  unfold connect_request, meta_or_nil, LoadMeta. rewrite Hnm. cbn [result_bind]. rewrite Hno. cbn -[Load]. rewrite Hload. done.
Qed.

(** C35: A tunnel that was imported can be connected.  A file dropped into the app is stored under a name of its
    own; the request Connect then makes carries that name and what the file holds, the profile as it is or the
    configuration that was read from it, and whatever state the helper is in, its own checks of the request
    accept it.  This needs a disk that works and room for a free name; and of a WireGuard file, that no .meta.json was
    left behind under that name (its protocol would win over the file's, and Connect would look for a profile), and
    that writing it back loses nothing: no NUL, no unknown key without a value, no line over the reader's limit. *)
Theorem import_connects (d d' : Dir) (base ext content : string) (info : TunnelInfo) :
  (size d < 1000)%nat -> importNamed fold io now d base ext content = (Ok info, d') ->
  (ext <> ".ovpn" -> d !! fold (metaPath (ti_Name info)) = None /\ contains_byte nul content = false
     /\ forall cfg, Parse content = Ok cfg ->
          no_losses (cfg <| Name := ti_Name info |>) = true /\ lines_fit (cfg <| Name := ti_Name info |>) = true) ->
  exists req, connect_request fold io d' (ti_Name info) = Ok req /\ connectName req = ti_Name info
  /\ (if ext =s ".ovpn" then is_openvpn req = true /\ rq_OVPNConfig req = content
      else is_openvpn req = false /\ exists cfg, Parse content = Ok cfg /\ rq_Config req = Some (cfg <| Name := ti_Name info |>))
  /\ forall env epoch resolved s, answers_ok (fst (connect_locked env req epoch resolved s)).
Proof.
  intros Hs H Hwg. unfold importNamed in H. destruct (sanitizeTunnelName_valid base) as [Hv Hl].
  destruct (zipUniqueName_free fold now d _ Hv Hl Hs) as [Hn Hp].
  set (n := zipUniqueName fold now d (sanitizeTunnelName base)) in *. case_bool_decide as Eext.
  - apply connect_ovpn in H as (auto & Hreq & Hval & En); [|done]. rewrite En. eexists. split; [exact Hreq|]. split; [done|]. split; [done|].
    intros env epoch resolved s. apply request_accepted. unfold request_ok. cbn. split; [by intros ->|split; [done|split; [|done]]].
    intros ->. by apply no_profile.
  - destruct (ImportConfig fold io d n content) as [[i d1]|] eqn:Ei; [|done]. injection H as -> ->.
    assert (ti_Name info = n) as En by (by apply (ImportConfig_frame fold io) in Ei as (_ & ? & _)). rewrite En in *.
    destruct (Hwg Eext) as (Hm & Hz & Hcfg).
    assert (d !! fold (ovpnPath n) = None) as Ho.
    { unfold present in Hp. apply orb_false_iff in Hp as [_ Hp]. cbn in Hp. unfold content_at in Hp. rewrite <- fold_ovpnPath in Hp by done.
      apply bool_decide_eq_false in Hp. rewrite fmap_is_Some in Hp. by apply eq_None_not_Some. }
    destruct (connect_wireguard d n content info d' Hn Ho Hm Hz Hcfg Ei) as (cfg & Ep & Hreq & Hval & _).
    eexists. split; [exact Hreq|]. split; [done|]. split; [by split; [done|exists cfg]|].
    intros env epoch resolved s. apply request_accepted. unfold request_ok. cbn. by eexists.
Qed.
End Stored.

(** A WireGuard file dropped into an empty directory. *)
Lemma import_connects_witness :
  let '(r, d') := importNamed id (fun _ => true) 0 ∅ "work" ".conf" conf_text in
  r = Ok (MkTunnelInfo "work" "vpn.example.com:51820" ProtocolWireGuard) /\ exists req, connect_request id (fun _ => true) d' "work" = Ok req.
Proof.
  destruct (importNamed id (fun _ => true) 0 ∅ "work" ".conf" conf_text) as [r d'] eqn:E.
  assert (r = Ok (MkTunnelInfo "work" "vpn.example.com:51820" ProtocolWireGuard)) as -> by (change r with (fst (r, d')); rewrite <- E; vm_compute; reflexivity).
  split; [reflexivity|].
  edestruct (import_connects id (fun _ => true) 0 (fun _ => eq_refl) ∅ d' "work" ".conf" conf_text) as (req & H & _).
  - rewrite map_size_empty. lia.
  - exact E.
  - intros _. split; [reflexivity|]. split; [vm_compute; reflexivity|]. intros cfg H. vm_compute in H. injection H as <-. split; vm_compute; reflexivity.
  - exists req. exact H.
Defined.
