(* ===== verification/Exports.v ===== *)
(** * Exports and pictures: the other half of internal/app/file_ops.go

    What leaves the application: the text of one tunnel, or an archive of all of them, written to a file that
    nobody else may read; what a configuration's text is told to be wrong; and the tunnel in a picture of a QR
    code.  The archive format, the picture decoders and the dialogs are arguments. *)

From S2P Require Import Prelude GoStrings GoNet GoText Domain Config ConfigRoundtrip Validator ValidatorFacts OvpnParse OvpnProfile Recovery Store StoreFacts FileOps FileOpsFacts TunnelOps.

(** ** ValidateConfig: what is shown under the editor, [None] for a valid configuration *)

Inductive ConfigMessages := MParse (e : ParseError) | MInvalid (es : ValidationResult).

Definition ValidateConfig (content : string) : option ConfigMessages :=
  match Parse content with
  | Err e => Some (MParse e)
  | Ok cfg => let result := Validate cfg in if IsValid result then None else Some (MInvalid result)
  end.

(** ** A file for secrets

    What is at a path: nothing, a regular file with its permissions, a symbolic link, or something that
    cannot be written. *)

Inductive Node := NAbsent | NRegular (mode : Z) (text : string) | NLink (target : string) | NOther.

(** The step that fails; a write that fails has written the first bytes. *)
Inductive WriteFault := FaultOpen | FaultChmod | FaultWrite (written : nat) | FaultClose.

#[export] Instance write_fault_eq_dec : EqDecision WriteFault.
Proof. solve_decision. Defined.

(** O_WRONLY|O_CREATE|O_TRUNC|O_NOFOLLOW with 0600, of which the umask takes bits: the mode of the file that
    is open and empty. *)
Definition open_private (umask : Z) (n : Node) : option Z :=
  match n with
  | NAbsent => Some (Z.land 384 (Z.lnot umask))
  | NRegular mode _ => Some mode
  | NLink _ | NOther => None
  end.

(** With what is at the path after each system call, the last one last. *)
Definition writePrivateFile (umask : Z) (fault : option WriteFault) (n : Node) (data : string) : bool * list Node :=
  if bool_decide (fault = Some FaultOpen) then (false, [])
  else match open_private umask n with
       | None => (false, [])
       | Some mode =>
           let opened := NRegular mode "" in
           match fault with
           | Some FaultChmod => (false, [opened])
           | Some (FaultWrite k) => (false, [opened; NRegular 384 ""; NRegular 384 (string_take k data)])
           | _ => (negb (bool_decide (fault = Some FaultClose)), [opened; NRegular 384 ""; NRegular 384 data])
           end
       end.

(** ** ExportTunnel, ExportAllTunnels *)

Inductive ExportError := XStore (e : StoreError) | XNoApp | XNoTunnels | XDialog | XArchive | XWrite.

(** What the save dialog gives: a failure, nothing (the user cancelled), or a path. *)
Abbreviation Saved := (option (option string)).

Section Exporting.
Context (fold : string -> string) (io : Access -> bool).
Context {Bytes : Type}.
(** Writing an archive from the names and texts of its entries. *)
Context (zip : list (string * string) -> option Bytes).

Definition tunnel_ext (d : Dir) (name : string) : string := if IsOVPN fold d name then ".ovpn" else ".conf".

(** The path, empty when cancelled; [app]: whether the window is there; [write]: whether the file could be
    written.  With the file name offered, and what was given to write. *)
Definition ExportTunnel (app : bool) (dialog : string -> Saved) (write : string -> string -> bool) (d : Dir) (name : string)
    : result ExportError string :=
  let? content := map_err XStore (GetConfigText fold io d name) in
  if negb app then Err XNoApp
  else match dialog (name +:+ tunnel_ext d name) with
       | None => Err XDialog
       | Some None => Ok ""
       | Some (Some p) => if write p content then Ok p else Err XWrite
       end.

Definition export_entry (d : Dir) (entries : list (string * string)) (name : string) : list (string * string) :=
  match GetConfigText fold io d name with
  | Err _ => entries
  | Ok content => entries ++ [(entry_name fold d entries.*1 name, content)]
  end.

Definition export_entries (d : Dir) (names : list string) : list (string * string) := foldl (export_entry d) [] names.

Definition ExportAllTunnels (app : bool) (dialog : Saved) (write : string -> Bytes -> bool) (d : Dir)
    : result ExportError string * option Bytes :=
  match List_ io d with
  | Err e => (Err (XStore e), None)
  | Ok names =>
      if bool_decide (names = []) then (Err XNoTunnels, None)
      else if negb app then (Err XNoApp, None)
      else match dialog with
           | None => (Err XDialog, None)
           | Some None => (Ok "", None)
           | Some (Some p) =>
               match zip (export_entries d names) with
               | None => (Err XArchive, None)
               | Some b => if write p b then (Ok p, Some b) else (Err XWrite, None)
               end
           end
  end.

(** ** ImportZip, ImportZipData *)

(** Reading an archive, [None] for what is none. *)
Context (unzip : Bytes -> option (list ZipEntry)).

Definition ImportZipData (now : Z) (d : Dir) (data : Bytes) : option (list (string * option ImportError)) * Dir :=
  match unzip data with
  | None => (None, d)
  | Some entries => importZipReader fold io now d entries
  end.

Definition ImportZip (now : Z) (at_path : string -> option Bytes) (d : Dir) (g : Grants) (p : string)
    : option (list (string * option ImportError)) * Dir * Grants :=
  let '(granted, g) := consumePath now p g in
  match (if granted then at_path p else None) with
  | None => (None, d, g)
  | Some data => (ImportZipData now d data, g)
  end.
End Exporting.

(** ** Pictures of QR codes *)

(** strings.TrimSuffix *)
Definition trim_suffix (s suffix : string) : string :=
  if has_suffix suffix s then string_take (String.length s - String.length suffix) s else s.

Definition maxQRImageBytes : Z := 20971520.
Definition maxQRImagePixels : Z := 64000000.

Inductive QrError := QGrant | QStat | QRead | QTooLarge | QDimensions | QDecode | QNoCode | QImport (e : ImportError).

Section Qr.
Context (fold : string -> string) (io : Access -> bool) (now : Z).
Context {Bytes Image : Type} (size : Bytes -> Z).
(** image.DecodeConfig, image.Decode, and the text of the code in an image. *)
Context (DecodeConfig : Bytes -> option (Z * Z)) (Decode : Bytes -> option Image) (decodeQRFromImage : Image -> option string).

(** Whether the picture may be decoded whole. *)
Definition qr_admitted (data : Bytes) : option QrError :=
  if (maxQRImageBytes <? size data)%Z then Some QTooLarge
  else match DecodeConfig data with
       | Some (w, h) => if (maxQRImagePixels <? wrap64 (w * h))%Z then Some QDimensions else None
       | None => None
       end.

Definition ImportQRFromBytes (d : Dir) (data : Bytes) (filename : string) : result QrError string * Dir :=
  match qr_admitted data with
  | Some e => (Err e, d)
  | None =>
      match Decode data with
      | None => (Err QDecode, d)
      | Some img =>
          match decodeQRFromImage img with
          | None => (Err QNoCode, d)
          | Some text =>
              if negb (contains "[Interface]" text) then (Err QNoCode, d)
              else let base := path_base filename in
                   match importNamed fold io now d (trim_suffix base (path_ext base)) ".conf" text with
                   | (Ok info, d') => (Ok (ti_Name info), d')
                   | (Err e, d') => (Err (QImport e), d')
                   end
          end
      end
  end.

(** [at_path]: the size os.Stat gives, and the bytes. *)
Definition ImportQRFromPath (at_path : string -> option Z * option Bytes) (d : Dir) (g : Grants) (p : string)
    : result QrError string * Dir * Grants :=
  let '(granted, g) := consumePath now p g in
  if negb granted then (Err QGrant, d, g)
  else match at_path p with
       | (None, _) => (Err QStat, d, g)
       | (Some n, data) =>
           if (maxQRImageBytes <? n)%Z then (Err QTooLarge, d, g)
           else match data with
                | None => (Err QRead, d, g)
                | Some b => (ImportQRFromBytes d b p, g)
                end
       end.
End Qr.

(** * Facts: what an export is good for

    [export_restores]: an archive of all tunnels gives every one of them back.  [private_from_the_start]: a
    file with secrets is never readable by others; [qr_admitted_bounds]: no picture is decoded whole that
    its header calls huge. *)

#[local] Set Warnings "-clear-no-such-hyp".

(** ** Names of entries *)

Lemma to_lower_ascii s : string_forall name_char s = true -> forall t, to_lower (s +:+ t) = ascii_lower s +:+ to_lower t.
Proof.
  assert (Hn : forall c, name_char c = true -> byte_is c 196 = false /\ byte_is c 226 = false) by (intros [[] [] [] [] [] [] [] []]; done).
  induction s as [|c s IH]; [done|]. intros H t. cbn in H. apply andb_true_iff in H as [Hc H]. destruct (Hn c Hc) as [H1 H2].
  cbn [ascii_lower]. rewrite !string_app_cons, <- IH by done. cbn [to_lower]. rewrite H1, H2. cbn [andb].
  by destruct (s +:+ t) as [|c1 [|c2 u]].
Qed.

Lemma string_take_app s t : string_take (String.length s) (s +:+ t) = s.
Proof. induction s as [|c s IH]; [by destruct t|]. rewrite string_app_cons. cbn. by rewrite IH. Qed.

Lemma ovpn_not_conf s : has_suffix ".conf" (s +:+ ".ovpn") = false.
Proof. unfold has_suffix. rewrite bytes_of_app, rev_app_distr. reflexivity. Qed.

Lemma stripped_entry n ext : string_forall name_char n = true -> ext ∈ [".conf"; ".ovpn"] -> stripKnownTunnelExt (n +:+ ext) = (n, ext).
Proof.
  intros Hn He. unfold stripKnownTunnelExt. rewrite to_lower_ascii by done.
  assert (El : forall e, String.length e = 5%nat -> string_take (String.length (n +:+ e) - 5) (n +:+ e) = n).
  { intros e Hl. rewrite string_length_app, Hl. replace (_ + 5 - 5)%nat with (String.length n) by lia. apply string_take_app. }
  apply elem_of_cons in He as [->|He]; [|apply list_elem_of_singleton in He as ->].
  - change (to_lower ".conf") with ".conf". by rewrite has_suffix_app, El.
  - change (to_lower ".ovpn") with ".ovpn". by rewrite ovpn_not_conf, has_suffix_app, El.
Qed.

Lemma no_slash_base s : s <> "" -> contains_byte slash s = false -> path_base s = s.
Proof.
  intros Hne Hs. unfold path_base. rewrite bool_decide_false by done.
  assert (Ht : trim_slashes s = s).
  { clear Hne. induction s as [|c s IH]; [done|]. cbn in Hs. apply orb_false_iff in Hs as [Hc Hs]. cbn. rewrite IH by done. by rewrite Hc. }
  assert (Hcut : cut_last_byte slash s = None).
  { destruct (cut_last_byte slash s) as [[u v]|] eqn:E; [|done]. apply cut_last_byte_Some in E as ->. exfalso. clear -Hs.
    revert Hs. induction u as [|c u IH]; [done|]. rewrite string_app_cons. cbn. intros [_ H]%orb_false_iff. by apply IH. }
  rewrite Ht, Hcut. by rewrite bool_decide_false.
Qed.

Lemma name_no_slash n : string_forall name_char n = true -> contains_byte slash n = false.
Proof.
  assert (Hc : forall c, name_char c = true -> bool_decide (c = slash) = false) by (intros [[] [] [] [] [] [] [] []]; done).
  induction n as [|c n IH]; [done|]. cbn. intros [H1 H2]%andb_true_iff. by rewrite Hc, IH.
Qed.

(** ** What is in a tunnel's files *)

Section Exports.
Context (fold : string -> string) (io : Access -> bool) `{Hf : !Folding fold}.
Context (Hio : forall a, io a = true).

(** What is shown of a tunnel is in its files. *)
Lemma shown_of_files d d' n : tunnels d' (fold n) = tunnels d (fold n) ->
  GetConfigText fold io d' n = GetConfigText fold io d n /\ IsOVPN fold d' n = IsOVPN fold d n.
Proof.
  intros H.
  assert (Hr : forall f, content_at d' (fold f) = content_at d (fold f) -> fs_read fold io d' f = fs_read fold io d f).
  { intros f E. unfold content_at in E. unfold fs_read. rewrite Hio.
    destruct (d' !! fold f), (d !! fold f); try done. cbn in E. by injection E as ->. }
  assert (Hc := f_equal tn_conf H). assert (Ho := f_equal tn_ovpn H). cbn in Hc, Ho.
  rewrite <- fold_path in Hc by done. rewrite <- fold_ovpnPath in Ho by done.
  assert (E : IsOVPN fold d' n = IsOVPN fold d n) by (unfold IsOVPN; rewrite !exists_ovpn by done; by rewrite H).
  split; [|done]. unfold GetConfigText, Load, LoadOVPN. by rewrite E, (Hr _ Hc), (Hr _ Ho).
Qed.

(** ** A tunnel that can be carried

    Its name is one an import keeps, and its text one an import accepts. *)

Definition exportable (d : Dir) (n : string) : bool :=
  (sanitizeTunnelName n =s n)
  && match GetConfigText fold io d n with
     | Ok text => (Z.of_nat (String.length text) <=? maxReadFileSize)%Z && (negb (IsOVPN fold d n) || bool_decide (ValidateOVPN text = None))
     | Err _ => false
     end
  && (IsOVPN fold d n || match Load fold io d n with
                         | Ok cfg => wf_config (cfg <| Name := "" |>) && IsValid (Validate cfg)
                         | Err _ => false
                         end).

Lemma write_ok d f c : fs_write fold io d f c = Ok (<[fold f := MkFile f c]> d).
Proof. unfold fs_write. by rewrite Hio. Qed.

Lemma import_text_ovpn d0 n text : ValidateTunnelName n = None -> ValidateOVPN text = None ->
  exists info d1, importOVPN fold io d0 n text = (Ok info, d1) /\ ti_Name info = n /\ frame fold n 2 d0 d1
  /\ GetConfigText fold io d1 n = Ok text /\ IsOVPN fold d1 n = true.
Proof.
  intros Hv Ht. destruct (importOVPN_frame fold io d0 n text) as [Hfr Hok].
  destruct (importOVPN fold io d0 n text) as [[info|e] d1] eqn:E.
  - exists info, d1. split; [done|]. split; [by apply Hok|]. split; [done|].
    unfold importOVPN in E. rewrite Hv, Ht in E. unfold SaveOVPN, SaveMeta, check_name in E. rewrite Hv in E. cbn [result_bind] in E.
    rewrite !write_ok in E. cbn [map_err] in E. rewrite write_ok in E. cbn [map_err] in E. injection E as _ <-.
    assert (Hl : forall m, (<[fold (metaPath n) := m]> (<[fold (ovpnPath n) := MkFile (ovpnPath n) (Text text)]> d0) : Dir) !! fold (ovpnPath n)
                           = Some (MkFile (ovpnPath n) (Text text))).
    { intros m. rewrite lookup_insert_ne by (rewrite fold_metaPath, fold_ovpnPath by done; apply meta_ovpn). apply lookup_insert_eq. }
    assert (Ho : forall m, IsOVPN fold (<[fold (metaPath n) := m]> (<[fold (ovpnPath n) := MkFile (ovpnPath n) (Text text)]> d0)) n = true).
    { intros m. unfold IsOVPN, fs_exists. rewrite Hl. by apply bool_decide_eq_true. }
    split; [|apply Ho]. unfold GetConfigText. rewrite Ho. unfold LoadOVPN, check_name. rewrite Hv. cbn [result_bind].
    by rewrite (ok_read fold io Hio _ _ _ (Hl _)).
  - exfalso. unfold importOVPN in E. rewrite Hv, Ht in E. unfold SaveOVPN, SaveMeta, check_name in E. rewrite Hv in E. cbn [result_bind] in E.
    rewrite !write_ok in E. cbn [map_err] in E. rewrite write_ok in E. done.
Qed.

Lemma import_text_conf d0 n cfg : ValidateTunnelName n = None -> present (tunnels d0 (fold n)) = false ->
  wf_config cfg = true -> IsValid (Validate (cfg <| Name := n |>)) = true ->
  exists info d1, ImportConfig fold io d0 n (Serialize cfg) = Ok (info, d1) /\ ti_Name info = n /\ frame fold n 2 d0 d1
  /\ GetConfigText fold io d1 n = Ok (Serialize cfg) /\ IsOVPN fold d1 n = false.
Proof.
  intros Hv Hp Hw Hi.
  assert (E : ImportConfig fold io d0 n (Serialize cfg)
    = Ok (MkTunnelInfo n (first_endpoint cfg) ProtocolWireGuard, <[fold (path n) := MkFile (path n) (Text (Serialize cfg))]> d0)).
  { unfold ImportConfig, ImportFromContent. rewrite parse_of_lines_wf by done. cbn zeta. rewrite Hi. cbn [negb].
    unfold Save, check_name. change (Name (cfg <| Name := n |>)) with n. rewrite Hv. cbn [result_bind]. rewrite write_ok. reflexivity. }
  destruct (ImportConfig_frame fold io _ _ _ _ _ E) as (Hfr & _ & _). eexists _, _. split; [exact E|]. split; [done|]. split; [done|].
  set (d1 := <[fold (path n) := _]> d0) in *.
  assert (Ho : IsOVPN fold d1 n = false).
  { unfold present in Hp. apply orb_false_iff in Hp as [_ Hp]. rewrite <- exists_ovpn in Hp by done. unfold IsOVPN, fs_exists in *.
    unfold d1. rewrite lookup_insert_ne; [done|]. rewrite fold_path, fold_ovpnPath by done. apply conf_ovpn. }
  split; [|done]. unfold GetConfigText. rewrite Ho. unfold Load, check_name. rewrite Hv. cbn [result_bind].
  rewrite (ok_read fold io Hio d1 (path n) (Text (Serialize cfg))) by apply lookup_insert_eq. cbn [map_err result_bind].
  by rewrite parse_of_lines_wf.
Qed.

(** An exported text, imported where its name is free. *)
Lemma import_exported (now : Z) d d0 n : exportable d n = true -> present (tunnels d0 (fold n)) = false ->
  exists text info d1, GetConfigText fold io d n = Ok text /\ (Z.of_nat (String.length text) <= maxReadFileSize)%Z
  /\ ValidateTunnelName n = None
  /\ importNamed fold io now d0 n (tunnel_ext fold d n) text = (Ok info, d1) /\ ti_Name info = n /\ frame fold n 2 d0 d1
  /\ GetConfigText fold io d1 n = Ok text /\ IsOVPN fold d1 n = IsOVPN fold d n.
Proof.
  unfold exportable. intros H Hp. apply andb_true_iff in H as [H Hcfg]. apply andb_true_iff in H as [Hn Ht]. apply bool_decide_eq_true in Hn.
  destruct (GetConfigText fold io d n) as [text|] eqn:Eg; [|done]. apply andb_true_iff in Ht as [Hs Ht]. apply Z.leb_le in Hs.
  destruct (sanitizeTunnelName_valid n) as [Hv _]. rewrite Hn in Hv.
  assert (Hz : zipUniqueName fold now d0 n = n).
  { unfold zipUniqueName. by rewrite Exists_valid, Hp. }
  exists text. unfold importNamed, tunnel_ext. rewrite Hn, Hz.
  destruct (IsOVPN fold d n) eqn:Eo; cbn [negb orb] in *.
  - apply bool_decide_eq_true in Ht. destruct (import_text_ovpn d0 n text Hv Ht) as (info & d1 & H1 & H2 & H3 & H4 & H5).
    exists info, d1. by rewrite H1.
  - unfold GetConfigText in Eg. rewrite Eo in Eg. destruct (Load fold io d n) as [cfg|] eqn:El; [|done]. cbn [result_bind] in Eg. injection Eg as <-.
    assert (Ec : (cfg <| Name := "" |>) <| Name := n |> = cfg).
    { unfold Load in El. apply result_bind_ok in El as (_ & _ & El). apply result_bind_ok in El as (c & _ & El).
      destruct c; [|done]. destruct (Parse _); [|done]. by injection El as <-. }
    apply andb_true_iff in Hcfg as [Hw Hi]. change (Serialize cfg) with (Serialize (cfg <| Name := "" |>)) in *.
    destruct (import_text_conf d0 n (cfg <| Name := "" |>) Hv Hp Hw ltac:(by rewrite Ec)) as (info & d1 & H1 & H2 & H3 & H4 & H5).
    exists info, d1. cbn [bool_decide]. change (".conf" =s ".ovpn") with false. cbn iota. by rewrite H1.
Qed.

(** ** The archive *)

(** The entry of a tunnel that can be carried. *)
Definition entry_of (d : Dir) (n : string) : string * string :=
  (n +:+ tunnel_ext fold d n, match GetConfigText fold io d n with Ok text => text | Err _ => "" end).

Lemma ext_cases d n : tunnel_ext fold d n ∈ [".conf"; ".ovpn"].
Proof. unfold tunnel_ext. destruct (IsOVPN fold d n); [right|]; by left. Qed.

Lemma entry_names_inj d m n : m +:+ tunnel_ext fold d m = n +:+ tunnel_ext fold d n -> m = n.
Proof.
  intros H. pose proof (ext_cases d m) as Hm. pose proof (ext_cases d n) as Hn. rewrite !elem_of_cons, !elem_of_nil in *.
  destruct Hm as [Hm|[Hm|[]]], Hn as [Hn|[Hn|[]]]; rewrite Hm, Hn in H.
  - by apply string_app_inj_r in H.
  - by apply conf_ovpn in H.
  - symmetry in H. by apply conf_ovpn in H.
  - by apply string_app_inj_r in H.
Qed.

(** No two tunnels want the same entry, so no number is ever needed. *)
Lemma entries_plain d names : Forall (fun n => exportable d n = true) names -> NoDup names ->
  forall done_, (forall n, n ∈ names -> n ∉ done_) ->
  foldl (export_entry fold io d) (entry_of d <$> done_) names = (entry_of d <$> done_) ++ (entry_of d <$> names).
Proof.
  intros He Hd. induction names as [|n names IH]; intros done_ Hf1; [by rewrite app_nil_r|].
  inversion_clear He as [|? ? Hn He']. apply NoDup_cons in Hd as [Hnn Hd]. cbn [foldl].
  assert (E : export_entry fold io d (entry_of d <$> done_) n = entry_of d <$> (done_ ++ [n])).
  { rewrite fmap_app. unfold export_entry, entry_of at 3. cbn [fmap list_fmap]. unfold exportable in Hn.
    destruct (GetConfigText fold io d n) as [text|] eqn:Eg; [|by rewrite andb_false_r in Hn].
    f_equal. f_equal. f_equal. unfold entry_name. fold (tunnel_ext fold d n). cbn [List.find].
    rewrite bool_decide_false; [by unfold entry_of; rewrite Eg|]. intros Hin. rewrite <- list_fmap_compose in Hin.
    apply list_elem_of_fmap in Hin as (m & Em & Hm). cbn in Em. apply entry_names_inj in Em as ->. apply (Hf1 m); [by left|done]. }
  rewrite E, (IH He' Hd (done_ ++ [n])).
  - by rewrite fmap_app, <- app_assoc.
  - intros m Hm Hin. apply elem_of_app in Hin as [Hin|Hin%list_elem_of_singleton]; [apply (Hf1 m); [by right|done]|by subst].
Qed.

Lemma exported_entries d names : Forall (fun n => exportable d n = true) names -> NoDup names ->
  export_entries fold io d names = entry_of d <$> names.
Proof. intros He Hd. apply (entries_plain d names He Hd []). intros n _ Hn. by apply elem_of_nil in Hn. Qed.

(** One entry of the archive, where the tunnel is not there yet. *)
Lemma restore_entry now d z n : exportable d n = true -> present (tunnels (z_dir z) (fold n)) = false -> (z_seen z < maxZipEntries)%nat ->
  exists d1, zip_entry fold io now z (fst (entry_of d n), Some (snd (entry_of d n)))
    = MkZip d1 (z_results z ++ [(n, None)]) (S (z_seen z)) (z_skipped z)
  /\ frame fold n 2 (z_dir z) d1 /\ GetConfigText fold io d1 n = GetConfigText fold io d n /\ IsOVPN fold d1 n = IsOVPN fold d n.
Proof.
  intros He Hp Hs. destruct (import_exported now d (z_dir z) n He Hp) as (text & info & d1 & Eg & Hl & Hv & Ei & En & Hfr & Hg & Ho).
  exists d1. split; [|by rewrite Eg]. unfold entry_of, zip_entry. cbn [fst snd]. rewrite Eg.
  pose proof (valid_name_chars n Hv) as Hc. assert (n <> "") as Hne by (by intros ->).
  assert (Hext : contains_byte slash (tunnel_ext fold d n) = false) by (unfold tunnel_ext; by destruct (IsOVPN fold d n)).
  rewrite no_slash_base.
  - rewrite (stripped_entry n _ Hc (ext_cases d n)). rewrite bool_decide_false by (unfold tunnel_ext; by destruct (IsOVPN fold d n)).
    destruct (Nat.leb_spec maxZipEntries (z_seen z)); [lia|]. destruct (Z.ltb_spec maxReadFileSize (Z.of_nat (String.length text))); [lia|].
    by rewrite Ei, En.
  - destruct n; [done|]. by rewrite string_app_cons.
  - rewrite contains_byte_app, Hext. by rewrite name_no_slash.
Qed.

Lemma restore_all now d names : forall z, Forall (fun n => exportable d n = true) names -> NoDup (fold <$> names) ->
  (forall n, n ∈ names -> present (tunnels (z_dir z) (fold n)) = false) -> (z_seen z + length names <= maxZipEntries)%nat ->
  let z' := foldl (zip_entry fold io now) z ((fun e => (fst e, Some (snd e))) <$> (entry_of d <$> names)) in
  z_results z' = z_results z ++ ((fun n => (n, None)) <$> names) /\ z_skipped z' = z_skipped z
  /\ (forall n, n ∈ names -> GetConfigText fold io (z_dir z') n = GetConfigText fold io d n /\ IsOVPN fold (z_dir z') n = IsOVPN fold d n)
  /\ (forall k, k ∉ fold <$> names -> tunnels (z_dir z') k = tunnels (z_dir z) k).
Proof.
  induction names as [|n names IH]; intros z He Hd Hp Hs.
  - cbn. split_and!; [by rewrite app_nil_r|done|intros n Hn; by apply elem_of_nil in Hn|done].
  - inversion_clear He as [|? ? Hn He']. rewrite fmap_cons in Hd. apply NoDup_cons in Hd as [Hnn Hd]. cbn [length] in Hs.
    destruct (restore_entry now d z n Hn (Hp n ltac:(by left)) ltac:(lia)) as (d1 & E & [Hfr _] & Hg & Ho).
    rewrite !fmap_cons. cbn [foldl]. rewrite E.
    assert (Hne : forall m, m ∈ names -> fold m <> fold n).
    { intros m Hm Em. apply Hnn. rewrite <- Em. by apply list_elem_of_fmap_2. }
    destruct (IH (MkZip d1 (z_results z ++ [(n, None)]) (S (z_seen z)) (z_skipped z)) He' Hd) as (H1 & H2 & H3 & H4).
    { intros m Hm. cbn. rewrite Hfr by auto. apply Hp. by right. }
    { cbn. lia. }
    cbv zeta in *. cbn [z_results z_skipped z_dir] in *. split_and!.
    + rewrite H1, <- app_assoc. done.
    + exact H2.
    + intros m Hm. apply elem_of_cons in Hm as [->|Hm]; [|by apply H3].
      rewrite <- Hg, <- Ho. apply shown_of_files. by apply H4.
    + intros k Hk. rewrite not_elem_of_cons in Hk. destruct Hk as [Hk1 Hk2]. rewrite H4, Hfr; done.
Qed.

(** C33: A backup of exportable tunnels gives every one of them back.  The archive that ExportAllTunnels wrote, imported
    on this machine or another where none of these names is taken, adds exactly those tunnels under their own names,
    each with the text it was exported with and of the same protocol, reports no failure, and leaves every other
    tunnel as it was.  A tunnel is exportable if sanitizeTunnelName keeps its name and an import accepts its text; one
    whose name it does not keep, such as `site--a` or any of more than 56 characters, comes back under another
    ([renamed_by_restore]).  There are at most 500 tunnels, which the file system tells apart.  (An archive gives back
    what was put in it, up to the size an import reads.) *)
Theorem export_restores {Bytes : Type} (zip : list (string * string) -> option Bytes) (unzip : Bytes -> option (list ZipEntry))
    (read : string -> option string) (write : string -> Bytes -> bool) (now : Z) (d d0 : Dir) (names : list string) (p q : string) (b : Bytes) :
  (forall entries b, zip entries = Some b -> unzip b = Some ((fun e => (fst e, read (snd e))) <$> entries)) ->
  (forall s, (Z.of_nat (String.length s) <= maxReadFileSize)%Z -> read s = Some s) ->
  List_ io d = Ok names -> Forall (fun n => exportable d n = true) names -> NoDup (fold <$> names) -> (length names <= 500)%nat ->
  (forall n, n ∈ names -> present (tunnels d0 (fold n)) = false) ->
  ExportAllTunnels fold io zip true (Some (Some p)) write d = (Ok q, Some b) ->
  exists d', ImportZipData fold io unzip now d0 b = (Some ((fun n => (n, None)) <$> names), d')
  /\ (forall n, n ∈ names -> GetConfigText fold io d' n = GetConfigText fold io d n /\ IsOVPN fold d' n = IsOVPN fold d n)
  /\ (forall k, k ∉ fold <$> names -> tunnels d' k = tunnels d0 k).
Proof.
  intros Hzip Hread Hl He Hd Hn Hfree Hx. unfold ExportAllTunnels in Hx. rewrite Hl in Hx. case_bool_decide as Hne; [done|].
  cbn [negb] in Hx. rewrite (exported_entries d names He) in Hx by (by apply NoDup_fmap_1 in Hd).
  destruct (zip _) as [b'|] eqn:Ez; [|done]. destruct (write p b'); [|done]. injection Hx as <- <-.
  unfold ImportZipData. rewrite (Hzip _ _ Ez).
  assert (Er : (fun e => (fst e, read (snd e))) <$> (entry_of d <$> names) = (fun e => (fst e, Some (snd e))) <$> (entry_of d <$> names)).
  { rewrite <- !list_fmap_compose. apply list_fmap_ext. intros i n Hi. cbn. apply list_elem_of_lookup_2 in Hi.
    rewrite Forall_forall in He. specialize (He n Hi). unfold exportable in He. unfold entry_of. cbn [fst snd].
    destruct (GetConfigText fold io d n) as [text|]; [|by rewrite andb_false_r in He]. rewrite Hread; [done|]. bool_hyps. lia. }
  rewrite Er. unfold importZipReader.
  destruct (restore_all now d names (MkZip d0 [] 0 0) He Hd Hfree ltac:(unfold maxZipEntries; cbn; lia)) as (H1 & H2 & H3 & H4).
  cbv zeta in *. set (z := foldl _ _ _) in *. rewrite H1, H2. cbn [z_skipped Nat.ltb Nat.leb z_results app]. rewrite app_nil_r.
  exists (z_dir z). split; [|by split]. rewrite length_fmap. by destruct names.
Qed.
End Exports.

(** ** What an import does not keep *)

(** A name the store accepts, but an import of the backup writes another way. *)
Example renamed_by_restore : ValidateTunnelName "site--a" = None /\ sanitizeTunnelName "site--a" = "site-a".
Proof. split; vm_compute; reflexivity. Qed.

(** ** Files for secrets *)

(** Whatever is at the path, whichever call fails, and wherever a write stops: whenever the file at the path
    holds a byte of the data, its mode is 0600 and the bytes are the first of the data; after a success it is
    all of them; and what a link points to is not touched. *)
Lemma private_from_the_start umask fault n data :
  let '(ok, trace) := writePrivateFile umask fault n data in
  (forall m text, NRegular m text ∈ trace -> text <> "" -> m = 384%Z /\ exists rest, data = text +:+ rest)
  /\ (ok = true -> last trace = Some (NRegular 384 data))
  /\ (forall t, n = NLink t -> trace = []).
Proof.
  assert (H0 : forall m text mode, NRegular m text = NRegular mode "" -> text <> "" -> m = 384%Z /\ exists rest, data = text +:+ rest)
    by (intros m text mode [= -> ->]; done).
  assert (Hw : forall m text k, NRegular m text = NRegular 384 (string_take k data) -> m = 384%Z /\ exists rest, data = text +:+ rest).
  { intros m text k [= -> ->]. split; [done|]. exists (string_drop k data). symmetry. apply string_take_drop. }
  unfold writePrivateFile. case_bool_decide; [split_and!; [intros ? ? Hin%elem_of_nil; done|done|done]|].
  destruct (open_private umask n) as [mode|] eqn:E; [|split_and!; [intros ? ? Hin%elem_of_nil; done|done|done]].
  assert (Hl : forall t, n = NLink t -> False) by (intros t ->; done).
  destruct fault as [[]|]; try done; cbn; (split_and!; [|done|intros t Ht; by apply Hl in Ht]).
  all: intros m text Hin Hne; repeat (apply elem_of_cons in Hin as [Hin|Hin]); try (by apply elem_of_nil in Hin); try (by eapply H0).
  all: try (by eapply Hw).
  all: injection Hin as -> ->; split; [done|exists ""; by rewrite string_app_nil_r].
Qed.

(** ** Pictures *)

(** A picture that is decoded whole has at most 20 MB, and a header that can be read promises at most 64
    million pixels: the product of two 31-bit sides does not wrap around. *)
Lemma qr_admitted_bounds {Bytes} (size : Bytes -> Z) (header : Bytes -> option (Z * Z)) data :
  qr_admitted size header data = None ->
  (size data <= maxQRImageBytes)%Z
  /\ forall w h, header data = Some (w, h) -> (0 <= w < 2 ^ 31)%Z -> (0 <= h < 2 ^ 31)%Z -> (w * h <= maxQRImagePixels)%Z.
Proof.
  unfold qr_admitted. destruct (Z.ltb_spec maxQRImageBytes (size data)); [done|]. intros Hh. split; [done|].
  intros w h E Hw Hh'. rewrite E in Hh. destruct (Z.ltb_spec maxQRImagePixels (wrap64 (w * h))) as [|Hp]; [done|].
  unfold wrap64 in Hp. rewrite Z.mod_small in Hp by nia. lia.
Qed.

(** ** A concrete backup *)

Definition profile_text : string :=
  "client" +:+ String newline "dev tun" +:+ String newline "proto udp" +:+ String newline "remote vpn.example.com 1194" +:+ String newline "".

Definition two_tunnels : Dir :=
  list_to_map [("work.conf", MkFile "work.conf" (Text conf_text)); ("home.ovpn", MkFile "home.ovpn" (Text profile_text));
               ("home.meta.json", MkFile "home.meta.json" (Json (MkMeta true "" ProtocolOpenVPN)))].

Lemma export_restores_witness :
  exists b d', ExportAllTunnels id (fun _ => true) Some true (Some (Some "/tmp/b.zip")) (fun _ _ => true) two_tunnels = (Ok "/tmp/b.zip", Some b)
  /\ ImportZipData id (fun _ => true) (fun l => Some ((fun e => (fst e, Some (snd e))) <$> l)) 0 ∅ b = (Some [("home", None); ("work", None)], d')
  /\ GetConfigText id (fun _ => true) d' "home" = Ok profile_text.
Proof.
  set (b := [("home.ovpn", profile_text); ("work.conf", conf_text)]).
  assert (Hx : ExportAllTunnels id (fun _ => true) Some true (Some (Some "/tmp/b.zip")) (fun _ _ => true) two_tunnels = (Ok "/tmp/b.zip", Some b))
    by (vm_compute; reflexivity).
  edestruct (export_restores id (fun _ => true) (fun _ => eq_refl) Some (fun l => Some ((fun e => (fst e, Some (snd e))) <$> l)) Some (fun _ _ => true) 0
    two_tunnels ∅ ["home"; "work"] "/tmp/b.zip" "/tmp/b.zip" b) as (d' & H1 & H2 & _).
  - by intros entries b' [= ->].
  - done.
  - vm_compute; reflexivity.
  - repeat constructor; vm_compute; reflexivity.
  - apply (bool_decide_eq_true_1 _). vm_compute. reflexivity.
  - cbn; lia.
  - intros n _. reflexivity.
  - exact Hx.
  - exists b, d'. split; [exact Hx|]. split; [exact H1|]. destruct (H2 "home") as [-> _]; [by left|]. vm_compute. reflexivity.
Defined.
