(* ===== verification/Sign.v ===== *)
(** * Signing a release: cmd/sign/main.go, and the key embedded in internal/update/checker.go

    The command that makes the signature the updater asks for.  Ed25519, SHA-256 and the disk are arguments;
    keys and signatures are their bytes.  [release_chain]: the command and the updater agree. *)

From S2P Require Import Prelude GoStrings GoText Domain Update.

(** ** Keys *)

(** Bytes as a string. *)
Definition octets (l : list Z) : string := string_of ((fun z => ascii_of_N (Z.to_N z)) <$> l).

Definition trimmed (c : ascii) : bool := byte_is c 32 || byte_is c 10 || byte_is c 13 || byte_is c 9.

Fixpoint trimWhitespace (s : string) : string :=
  match s with
  | EmptyString => ""
  | String c s' => if trimmed c then trimWhitespace s' else String c (trimWhitespace s')
  end.

Inductive KeyFileError := KBoth | KRead | KUnset | KNone | KBase64 | KSize (n : nat).

Section Keys.
(** os.ReadFile, os.Getenv (empty when unset), and what is on the standard input. *)
Context (read_file : string -> option string) (getenv : string -> string) (stdin : option string).

Definition key_source (path env : string) : result KeyFileError string :=
  if negb (path =s "") && negb (env =s "") then Err KBoth
  else if negb (path =s "") then match read_file path with Some b => Ok b | None => Err KRead end
  else if negb (env =s "") then if getenv env =s "" then Err KUnset else Ok (getenv env)
  else match stdin with
       | Some b => if b =s "" then Err KNone else Ok b
       | None => Err KNone
       end.

Definition loadPrivateKey (path env : string) : result KeyFileError string :=
  let? raw := key_source path env in
  match b64_decode (trimWhitespace raw) with
  | None => Err KBase64
  | Some decoded => if negb (length decoded =? 64)%nat then Err (KSize (length decoded)) else Ok (octets decoded)
  end.
End Keys.

(** The updater's half; [None] for a key that does not decode to 32 bytes. *)
Definition loadEmbeddedPublicKey (embeddedPublicKey : string) : option string :=
  match b64_decode (trim_space embeddedPublicKey) with
  | None => None
  | Some raw => if negb (length raw =? 32)%nat then None else Some (octets raw)
  end.

(** ** The command *)

Record Flags := MkFlags { fg_key : string; fg_key_env : string; fg_gen : bool; fg_o : string; fg_version : string; fg_args : list string }.

(** The lines printed by --gen. *)
Definition generate (GenerateKey : option (string * string)) : option (list string) :=
  match GenerateKey with
  | None => None
  | Some (pub, priv) =>
      Some ["# Save these somewhere safe.";
            "# Embed the PUBLIC KEY in internal/update/checker.go as embeddedPublicKey.";
            "# Keep the PRIVATE KEY offline; never commit it.";
            "PUBLIC_KEY=" +:+ b64_encode pub;
            "PRIVATE_KEY=" +:+ b64_encode priv]
  end.

Section Run.
Context {Bytes : Type} (sha256_hex : Bytes -> string) (ed25519_Sign : string -> string -> string).
Context (read_file : string -> option string) (getenv : string -> string) (stdin : option string).
Context (read_target : string -> option Bytes) (write : string -> bool).

Definition sign_message (version : string) (data : Bytes) : string := version +:+ String newline "" +:+ sha256_hex data.

(** The exit status and the file written; [GenerateKey] for --gen. *)
Definition sign_main (GenerateKey : option (string * string)) (f : Flags) : Z * option (string * string) :=
  if fg_gen f then (match generate GenerateKey with Some _ => 0%Z | None => 1%Z end, None)
  else match fg_args f with
       | [target] =>
           if fg_version f =s "" then (2%Z, None)
           else match loadPrivateKey read_file getenv stdin (fg_key f) (fg_key_env f) with
                | Err _ => (1%Z, None)
                | Ok priv =>
                    match read_target target with
                    | None => (1%Z, None)
                    | Some data =>
                        let sig := ed25519_Sign priv (sign_message (fg_version f) data) in
                        let outPath := if fg_o f =s "" then target +:+ ".sig" else fg_o f in
                        if write outPath then (0%Z, Some (outPath, sig)) else (1%Z, None)
                    end
                end
       | _ => (2%Z, None)
       end.
End Run.

(** ** Facts *)

Lemma octets_of s : octets (byte_val <$> bytes_of s) = s.
Proof. apply string_of_byte_vals. Qed.

(** What base64 writes: its digits and the padding. *)
Definition b64_out (c : ascii) : bool := bool_decide (is_Some (b64_val c)) || bool_decide (c = "="%char).

Lemma b64_out_char n : (0 <= n < 64)%Z -> b64_out (b64_char n) = true.
Proof. intros Hn. destruct (b64_char_val n Hn) as [H _]. unfold b64_out. rewrite H. by rewrite bool_decide_true. Qed.

Lemma b64_encode_out s : string_forall b64_out (b64_encode s) = true.
Proof.
  induction s as [|a|a b|a b c s IH] using string_ind3; [done|..]; cbn [b64_encode]; cbv zeta; byte_ranges;
    cbn [string_forall]; rewrite ?b64_out_char by b64_zify; done.
Qed.

Lemma b64_out_solid c : b64_out c = true -> solid c = true /\ trimmed c = false.
Proof. revert c. intros [[] [] [] [] [] [] [] []]; vm_compute; auto. Qed.

Lemma trim_encoded k : trimWhitespace (b64_encode k) = b64_encode k /\ trim_space (b64_encode k) = b64_encode k.
Proof.
  pose proof (b64_encode_out k) as H. split.
  - induction (b64_encode k) as [|c s IH]; [done|]. cbn in *. apply andb_true_iff in H as [Hc H].
    destruct (b64_out_solid c Hc) as [_ ->]. by rewrite IH.
  - apply trim_space_fix, solid_tight. apply (string_forall_impl b64_out); [|done]. intros c Hc. by apply b64_out_solid.
Qed.

Lemma octets_length k : length (byte_val <$> bytes_of k) = String.length k.
Proof. rewrite length_fmap. induction k as [|c k IH]; [done|]. cbn. by rewrite IH. Qed.

(** A key that was pasted with white space in and around it. *)
Lemma load_generated read_file getenv stdin env priv : env <> "" -> String.length priv = 64%nat ->
  trimWhitespace (getenv env) = b64_encode priv -> loadPrivateKey read_file getenv stdin "" env = Ok priv.
Proof.
  intros He Hl Hr. unfold loadPrivateKey, key_source. rewrite (bool_decide_false (env = "")) by done. cbn [negb andb bool_decide].
  change (negb ("" =s "")) with false. cbn [andb negb].
  rewrite bool_decide_false.
  - cbn [result_bind]. rewrite Hr, b64_roundtrip, octets_length, Hl. cbn. by rewrite octets_of.
  - intros E. rewrite E in Hr. assert (Hd : b64_decode (b64_encode priv) = b64_decode "") by by rewrite <- Hr.
    rewrite b64_roundtrip in Hd. change (b64_decode "") with (Some (@nil Z)) in Hd. injection Hd as Hd.
    apply (f_equal length) in Hd. rewrite octets_length, Hl in Hd. done.
Qed.

Lemma load_embedded e pub : String.length pub = 32%nat -> trim_space e = b64_encode pub -> loadEmbeddedPublicKey e = Some pub.
Proof.
  intros Hl He. unfold loadEmbeddedPublicKey. rewrite He, b64_roundtrip, octets_length, Hl. cbn. by rewrite octets_of.
Qed.

(** C32: What the release command signs, the updater accepts, and nothing else.  With a key pair that --gen
    printed, the private key in the environment (with whatever white space came along) and the public one embedded
    in the updater: signing a file for a version succeeds, and the updater that is given the written signature
    accepts a download exactly when it is told that very version and the download has the hash of that very file.
    (For versions without a newline; Ed25519 verifies what was signed, and no other message was found that this
    signature also verifies.) *)
Theorem release_chain {Bytes : Type} (sha256_hex : Bytes -> string) (Sign : string -> string -> string) (Verify : string -> string -> string -> bool)
    read_file (getenv : string -> string) stdin read_target write (pub priv e env o version target : string) (data : Bytes) lines :
  (forall m, Verify pub m (Sign priv m) = true) -> (forall m, String.length (Sign priv m) = 64%nat) ->
  (forall m, Verify pub m (Sign priv (signedMessage version (sha256_hex data))) = true -> m = signedMessage version (sha256_hex data)) ->
  generate (Some (pub, priv)) = Some lines -> String.length pub = 32%nat -> String.length priv = 64%nat ->
  env <> "" -> "PRIVATE_KEY=" +:+ trimWhitespace (getenv env) ∈ lines -> "PUBLIC_KEY=" +:+ trim_space e ∈ lines ->
  version <> "" -> contains_byte newline version = false -> read_target target = Some data -> (forall p, write p = true) ->
  exists out sig,
    sign_main sha256_hex Sign read_file getenv stdin read_target write None (MkFlags "" env false o version [target]) = (0%Z, Some (out, sig))
    /\ forall url_parse info get data', SignatureURL info <> "" -> contains_byte newline (Version info) = false ->
         fetchSignature url_parse (get (SignatureURL info)) = Some sig ->
         verifySignature url_parse (loadEmbeddedPublicKey e) Verify (sha256_hex data') info get = None
         <-> Version info = version /\ sha256_hex data' = sha256_hex data.
Proof.
  intros Hok HS HV [= <-] Hpub Hpriv Henv Hprivate Hpublic Hver Hnl Ht Hw.
  assert (Hk : trimWhitespace (getenv env) = b64_encode priv).
  { repeat (apply elem_of_cons in Hprivate as [Hprivate|Hprivate]; [try discriminate Hprivate|]); [|by apply elem_of_nil in Hprivate].
    by injection Hprivate. }
  assert (He : trim_space e = b64_encode pub).
  { repeat (apply elem_of_cons in Hpublic as [Hpublic|Hpublic]; [try discriminate Hpublic|]); [by injection Hpublic|by apply elem_of_nil in Hpublic]. }
  unfold sign_main. cbn [fg_gen fg_args fg_version fg_key fg_key_env fg_o]. rewrite (bool_decide_false (version = "")) by done.
  rewrite (load_generated _ _ _ _ priv) by done. rewrite Ht, Hw. eexists _, _. split; [reflexivity|].
  intros url_parse info get data' Hu Hn Hf. unfold verifySignature. rewrite (load_embedded e pub) by done.
  rewrite (bool_decide_false (SignatureURL info = "")) by done. rewrite Hf, HS. cbn [Nat.eqb negb].
  change (sign_message sha256_hex version data) with (signedMessage version (sha256_hex data)).
  destruct (Verify pub _ _) eqn:Ev.
  - split; [intros _|done]. apply HV in Ev. by apply signedMessage_inj in Ev.
  - split; [done|]. intros [E1 E2]. by rewrite E1, E2, Hok in Ev.
Qed.

(** *** A release signed *)

Definition pub32 : string := String.concat "" (repeat "fedcba9876543210" 2).
Definition priv64 : string := String.concat "" (repeat "0123456789ABCDEF" 4).

(** Signatures are all alike here, and the key verifies one message. *)
Definition one_message (m : string) : bool := m =s signedMessage "1.2.0" "9000000".

Definition sign_one (_ m : string) : string := if one_message m then sig64 else priv64.
Definition verify_one (_ m sig : string) : bool := if one_message m then sig =s sig64 else sig =s priv64.

Definition key_env (name : string) : string :=
  if name =s "WIREGUIDE_SIGNING_KEY" then " " +:+ b64_encode priv64 +:+ String newline "" else "".

Lemma release_chain_witness :
  exists out sig,
    sign_main itoa sign_one (fun _ => None) key_env None (fun _ => Some 9000000%Z) (fun _ => true) None
      (MkFlags "" "WIREGUIDE_SIGNING_KEY" false "" "1.2.0" ["lockplus.zip"]) = (0%Z, Some (out, sig))
    /\ out = "lockplus.zip.sig"
    /\ verifySignature github (loadEmbeddedPublicKey (b64_encode pub32 +:+ " ")) verify_one (itoa 9000000) info_1_2 sig_answer = None.
Proof.
  destruct (release_chain itoa sign_one verify_one (fun _ => None) key_env None (fun _ => Some 9000000%Z) (fun _ => true) pub32 priv64
              (b64_encode pub32 +:+ " ") "WIREGUIDE_SIGNING_KEY" "" "1.2.0" "lockplus.zip" 9000000%Z
              (default [] (generate (Some (pub32, priv64))))) as (out & sig & Hs & Hv).
  - intros m. unfold verify_one, sign_one. by destruct (one_message m).
  - intros m. unfold sign_one. by destruct (one_message m).
  - intros m. unfold verify_one. destruct (one_message m) eqn:E; [by apply bool_decide_eq_true in E|]. vm_compute. discriminate.
  - reflexivity.
  - vm_compute; reflexivity.
  - vm_compute; reflexivity.
  - discriminate.
  - apply (bool_decide_eq_true_1 _). vm_compute. reflexivity.
  - apply (bool_decide_eq_true_1 _). vm_compute. reflexivity.
  - discriminate.
  - vm_compute; reflexivity.
  - reflexivity.
  - done.
  - exists out, sig. split; [exact Hs|]. vm_compute in Hs. injection Hs as <- <-. split; [reflexivity|].
    apply (Hv github info_1_2 sig_answer 9000000%Z); vm_compute; [discriminate|reflexivity|reflexivity|done].
Defined.
