(* ===== verification/WifiSense.v ===== *)
(** * Which network this is: internal/wifi/detect.go and location.go, internal/app/wifi_ops.go, the rest of internal/gui/wifi_lifecycle.go

    The sources of the network's name and which is trusted, the cache through which all readers share one
    probe, and what saving the rules does.  What the native calls and the system's tools answer are
    arguments. *)

From S2P Require Import Prelude GoStrings GoText Domain Wifi Settings.

(** ** Reading the name *)

Inductive AuthStatus := AuthNotDetermined | AuthRestricted | AuthDenied | AuthAuthorized.

#[export] Instance auth_eq_dec : EqDecision AuthStatus.
Proof. solve_decision. Defined.

Record coreWLANInfo := MkWlan { wl_HasInterface : bool; wl_Associated : bool; wl_Interface : string; wl_SSID : string }.

(** The longest name 802.11 knows is 32 bytes. *)
Definition cleanSSID (v : string) : string :=
  if (trim_space v =s "") || (32 <? String.length v)%nat then ""
  else if equal_fold v "<redacted>" || equal_fold v "redacted" then ""
  else v.

Definition lines (out : string) : list string := split_byte newline out.

Fixpoint wifi_device (inWiFi : bool) (ls : list string) : string :=
  match ls with
  | [] => ""
  | line :: ls =>
      let line := trim_space line in
      match after_prefix "Hardware Port:" line with
      | Some port => let port := trim_space port in wifi_device ((port =s "Wi-Fi") || (port =s "AirPort")) ls
      | None =>
          match after_prefix "Device:" line with
          | Some dev => if inWiFi then trim_space dev else wifi_device inWiFi ls
          | None => wifi_device inWiFi ls
          end
      end
  end.

Definition wifiInterface (out : string) : string := wifi_device false (lines out).

(** strings.Cut *)
Fixpoint cut_string (sep s : string) : option (string * string) :=
  match after_prefix sep s with
  | Some rest => Some ("", rest)
  | None => match s with
            | EmptyString => None
            | String c s' => match cut_string sep s' with Some (u, v) => Some (String c u, v) | None => None end
            end
  end.

Definition summary_value (line : string) : option string :=
  match cut_string " : " (trim_space line) with
  | Some (key, val) => if key =s "SSID" then Some (cleanSSID val) else None
  | None => None
  end.

Definition parseSummarySSID (out : string) : string := default "" (head (omap summary_value (lines out))).

Definition airport_value (line : string) : option string :=
  let line := trim_space line in
  head (omap (fun prefix => (fun val => cleanSSID (trim_space val)) <$> after_prefix prefix line)
          ["Current Wi-Fi Network:"; "Current AirPort Network:"]).

Definition parseAirportNetwork (out : string) : string := default "" (head (omap airport_value (lines out))).

(** The platform's probes; [run]: what a command prints, empty when it fails. *)
Record ssidSource := MkSource { so_auth : AuthStatus; so_wlan : coreWLANInfo; so_run : list string -> string }.

Definition list_ports : list string := ["/usr/sbin/networksetup"; "-listallhardwareports"].
Definition get_summary (iface : string) : list string := ["/usr/sbin/ipconfig"; "getsummary"; iface].
Definition get_airport (iface : string) : list string := ["/usr/sbin/networksetup"; "-getairportnetwork"; iface].

(** With the commands that were run. *)
Definition fallback (s : ssidSource) (iface : string) : string * list (list string) :=
  let '(iface, ran) := if iface =s "" then (wifiInterface (so_run s list_ports), [list_ports]) else (iface, []) in
  if iface =s "" then ("", ran)
  else let v := parseSummarySSID (so_run s (get_summary iface)) in
       if negb (v =s "") then (v, ran ++ [get_summary iface])
       else (parseAirportNetwork (so_run s (get_airport iface)), ran ++ [get_summary iface; get_airport iface]).

Definition ssid_resolve (s : ssidSource) : string * list (list string) :=
  let info := so_wlan s in
  if negb (wl_HasInterface info) then ("", [])
  else if negb (cleanSSID (wl_SSID info) =s "") then (cleanSSID (wl_SSID info), [])
  else if negb (wl_Associated info) && bool_decide (so_auth s = AuthAuthorized) then ("", [])
  else fallback s (wl_Interface info).

(** ** CurrentSSID

    Probes are numbered; [sc_running] are the goroutines that have not answered, [sc_values] what the others
    found, in order.  A caller waits for a probe, and then has a value: because the probe is done ([full]), or
    because its budget is spent. *)

Inductive Caller := CWaiting (probe : nat) | CReturned (probe : nat) (full : bool) (value : string).

Record SsidCache := MkCache {
  ssidInflight : option nat; ssidLast : string; sc_started : nat; sc_running : list nat; sc_values : list (nat * string); sc_callers : list Caller }.

#[export] Instance eta_cache : Eta SsidCache := fun r =>
  MkCache (ssidInflight r) (ssidLast r) (sc_started r) (sc_running r) (sc_values r) (sc_callers r).

Definition new_cache : SsidCache := MkCache None "" 0 [] [] [].

(** A call: joins the probe under way, or starts one. *)
Definition cache_call (c : SsidCache) : SsidCache :=
  match ssidInflight c with
  | Some p => c <| sc_callers ::= fun l => l ++ [CWaiting p] |>
  | None =>
      let p := sc_started c in
      MkCache (Some p) (ssidLast c) (S p) (sc_running c ++ [p]) (sc_values c) (sc_callers c ++ [CWaiting p])
  end.

(** The goroutine of a probe, once resolve answered. *)
Definition cache_found (p : nat) (v : string) (c : SsidCache) : SsidCache :=
  MkCache None v (sc_started c) (List.filter (fun q => negb (q =? p)%nat) (sc_running c)) (sc_values c ++ [(p, v)]) (sc_callers c).

Definition cache_return (k p : nat) (full : bool) (c : SsidCache) : SsidCache :=
  c <| sc_callers ::= fun l => <[k := CReturned p full (ssidLast c)]> l |>.

(** A caller goes on when its probe is done, or when its budget is spent: at any time. *)
Inductive cache_step (c : SsidCache) : SsidCache -> Prop :=
| cs_call : cache_step c (cache_call c)
| cs_found p s : p ∈ sc_running c -> cache_step c (cache_found p (fst (ssid_resolve s)) c)
| cs_done k p : sc_callers c !! k = Some (CWaiting p) -> p ∈ (sc_values c).*1 -> cache_step c (cache_return k p true c)
| cs_budget k p : sc_callers c !! k = Some (CWaiting p) -> cache_step c (cache_return k p false c).

(** ** Rules *)

(** The rules as the frontend sends them, where a collection may be null. *)
Record RawRules := MkRaw {
  rw_Enabled : bool; rw_DefaultTunnel : string; rw_AutoConnectUntrusted : bool; rw_TrustedSSIDs : option (list string);
  rw_SSIDTunnelMap : option (gmap string string) }.

Definition normalise (r : RawRules) : Rules :=
  MkRules (rw_Enabled r) (rw_DefaultTunnel r) (rw_AutoConnectUntrusted r) (default [] (rw_TrustedSSIDs r)) (default ∅ (rw_SSIDTunnelMap r)).

(** The file, the rules of the running monitor, and whether it succeeded; [hook]: whether a monitor runs. *)
Definition SaveWifiRules (written hook : bool) (raw : RawRules) (f : JsonFile Rules) (live : Rules) : bool * JsonFile Rules * Rules :=
  let rules := normalise raw in
  match wifiRules_Save written (Some rules) f with
  | None => (false, f, live)
  | Some f' => (true, f', if hook then rules else live)
  end.

(** ** The lifecycle *)

Record WifiLife := MkLife { wf_monitor : Monitor; wf_listening : bool; wf_gen : Z; wf_rules : Rules }.

(** startWifiLifecycle, and whether it asks for the authorization; [loaded]: the store's answer. *)
Definition startWifiLifecycle (loaded : option Rules) (auth : AuthStatus) : WifiLife * bool :=
  let rules := default DefaultRules loaded in
  (MkLife (Start new_monitor) true 0 rules, HasActiveRules (Some rules) && bool_decide (auth = AuthNotDetermined)).

Definition wrap_u64 (z : Z) : Z := (z mod 2 ^ 64)%Z.

Definition nextGen (lc : WifiLife) : WifiLife := MkLife (wf_monitor lc) (wf_listening lc) (wrap_u64 (wf_gen lc + 1)) (wf_rules lc).

Definition wifi_stop (lc : WifiLife) : WifiLife :=
  MkLife (Stop (wf_monitor lc)) false (wrap_u64 (wf_gen lc + 1)) (wf_rules lc).

(** The listener for authorization changes. *)
Definition auth_changed (lc : WifiLife) : WifiLife :=
  if wf_listening lc then MkLife (Recheck (wf_monitor lc)) true (wf_gen lc) (wf_rules lc) else lc.

(** ** Listeners for the authorization: location.go *)

Record AuthListeners := MkListeners { al_fns : gmap Z nat; al_next : Z }.

Definition no_listeners : AuthListeners := MkListeners ∅ 0.

(** With the number to unregister it by; [f] stands for the function. *)
Definition OnLocationAuthChange (f : nat) (l : AuthListeners) : Z * AuthListeners :=
  (al_next l, MkListeners (<[al_next l := f]> (al_fns l)) (al_next l + 1)).

Definition unregister (id : Z) (l : AuthListeners) : AuthListeners := MkListeners (delete id (al_fns l)) (al_next l).

(** The functions called, in some order. *)
Definition notifyAuthChanged (l : AuthListeners) : list nat := (map_to_list (al_fns l)).*2.

(** The state that CoreLocation reports. *)
Definition authFromC (st : Z) : AuthStatus :=
  if (st =? 1)%Z then AuthRestricted else if (st =? 2)%Z then AuthDenied else if (st =? 3)%Z then AuthAuthorized else AuthNotDetermined.

(** ** Facts

    [ssid_readings]: whatever the probes print, the name that the rules see is empty or one a network can
    have, one probe runs at a time, and who waits for it is not given an older name. *)

#[local] Set Warnings "-clear-no-such-hyp".

(** ** Plausible names *)

(** Not blank, not a placeholder, and short enough. *)
Definition plausible (v : string) : bool :=
  negb (trim_space v =s "") && (String.length v <=? 32)%nat && negb (equal_fold v "<redacted>") && negb (equal_fold v "redacted").

Lemma cleanSSID_spec v : cleanSSID v = if plausible v then v else "".
Proof.
  unfold cleanSSID, plausible. destruct (trim_space v =s ""), (Nat.ltb_spec 32 (String.length v)), (Nat.leb_spec (String.length v) 32);
    cbn; try done; try lia. by destruct (equal_fold v "<redacted>"), (equal_fold v "redacted").
Qed.

Definition reading_ok (v : string) : Prop := v = "" \/ plausible v = true.

Lemma cleanSSID_ok v : reading_ok (cleanSSID v).
Proof. rewrite cleanSSID_spec. destruct (plausible v) eqn:E; [by right|by left]. Qed.

Lemma head_omap_ok {A} (f : A -> option string) l : (forall a v, f a = Some v -> reading_ok v) -> reading_ok (default "" (head (omap f l))).
Proof.
  intros H. induction l as [|a l IH]; [by left|]. cbn. destruct (f a) as [v|] eqn:E; [by eapply H|exact IH].
Qed.

Lemma parseSummarySSID_ok out : reading_ok (parseSummarySSID out).
Proof.
  apply head_omap_ok. intros line v. unfold summary_value. destruct (cut_string _ _) as [[k x]|]; [|done].
  case_bool_decide; [|done]. intros [= <-]. apply cleanSSID_ok.
Qed.

Lemma parseAirportNetwork_ok out : reading_ok (parseAirportNetwork out).
Proof.
  apply head_omap_ok. intros line v. unfold airport_value. cbn.
  repeat (destruct (after_prefix _ _) as [x|]; cbn; [intros [= <-]; apply cleanSSID_ok|]). done.
Qed.

Lemma ssid_resolve_ok s : reading_ok (fst (ssid_resolve s)).
Proof.
  unfold ssid_resolve. destruct (wl_HasInterface (so_wlan s)); [|by left]. cbn [negb].
  destruct (negb (cleanSSID _ =s "")); [apply cleanSSID_ok|]. destruct (_ && _); [by left|].
  unfold fallback. destruct (if wl_Interface _ =s "" then _ else _) as [iface ran]. destruct (iface =s ""); [by left|].
  destruct (negb (parseSummarySSID _ =s "")); [apply parseSummarySSID_ok|apply parseAirportNetwork_ok].
Qed.

(** ** One probe at a time *)

Record cache_ok (c : SsidCache) : Prop := {
  ck_running : sc_running c = match ssidInflight c with Some p => [p] | None => [] end;
  ck_started : forall p, ssidInflight c = Some p -> sc_started c = S p;
  ck_order : forall i q v, sc_values c !! i = Some (q, v) -> q = i;
  ck_count : length (sc_values c) = match ssidInflight c with Some p => p | None => sc_started c end;
  ck_last : match last (sc_values c) with Some (_, v) => ssidLast c = v | None => ssidLast c = "" end;
  ck_good : Forall (fun x => reading_ok (snd x)) (sc_values c);
  ck_callers : forall k p full v, sc_callers c !! k = Some (CReturned p full v) ->
    (full = false /\ v = "") \/ exists q, (q, v) ∈ sc_values c /\ (full = true -> (p <= q)%nat)
}.

Lemma cache_call_ok c : cache_ok c -> cache_ok (cache_call c).
Proof.
  intros [H1 H2 H3 H4 H5 H6 H7]. unfold cache_call. destruct (ssidInflight c) as [p|] eqn:E.
  - split; cbn; rewrite ?E; try done. intros k q full v Hk. apply lookup_app_Some in Hk as [Hk|[_ Hk]]; [by eapply H7|].
    by apply list_lookup_singleton_Some in Hk as [_ Hk].
  - split; cbn; rewrite ?H1; try done. { intros p [= <-]. done. }
    intros k q full v Hk. apply lookup_app_Some in Hk as [Hk|[_ Hk]]; [by eapply H7|]. by apply list_lookup_singleton_Some in Hk as [_ Hk].
Qed.

Lemma cache_found_ok c p s : cache_ok c -> p ∈ sc_running c -> cache_ok (cache_found p (fst (ssid_resolve s)) c).
Proof.
  intros [H1 H2 H3 H4 H5 H6 H7] Hp. destruct (ssidInflight c) as [p'|] eqn:E; rewrite H1 in Hp; [|by apply elem_of_nil in Hp].
  apply list_elem_of_singleton in Hp as <-. specialize (H2 p eq_refl). unfold cache_found. split; cbn.
  - rewrite H1. cbn. by rewrite Nat.eqb_refl.
  - done.
  - intros i q v Hi. apply lookup_app_Some in Hi as [Hi|[Hl Hi]]; [by eapply H3|]. apply list_lookup_singleton_Some in Hi as [Hi Hq].
    injection Hq as <- _. lia.
  - rewrite length_app, H4, H2. cbn. lia.
  - by rewrite last_app.
  - apply Forall_app. split; [done|]. constructor; [apply ssid_resolve_ok|constructor].
  - intros k q full v Hk. destruct (H7 k q full v Hk) as [?|(x & Hx & Hle)]; [by left|]. right. exists x. split; [|done]. apply elem_of_app. by left.
Qed.

Lemma cache_return_ok c k p full : cache_ok c -> sc_callers c !! k = Some (CWaiting p) ->
  (full = true -> p ∈ (sc_values c).*1) -> cache_ok (cache_return k p full c).
Proof.
  intros [H1 H2 H3 H4 H5 H6 H7] Hk Hfull. unfold cache_return. split; cbn; try done.
  intros k' p' full' v Hk'. destruct (decide (k' = k)) as [->|Hne]; [|rewrite list_lookup_insert_ne in Hk' by done; by eapply H7].
  rewrite list_lookup_insert_eq in Hk' by (by eapply lookup_lt_Some). injection Hk' as <- <- <-.
  destruct (last (sc_values c)) as [[q v]|] eqn:El.
  - right. exists q. rewrite H5. split; [by apply last_Some_elem_of|]. intros Ef. apply Hfull in Ef. apply list_elem_of_fmap in Ef as ([q' v'] & -> & Hq).
    apply list_elem_of_lookup in Hq as (i & Hi). rewrite last_lookup in El. pose proof (H3 _ _ _ Hi) as ->. pose proof (H3 _ _ _ El) as ->.
    cbn. apply lookup_lt_Some in Hi. lia.
  - left. split; [|done]. apply last_None in El. destruct full; [|done]. specialize (Hfull eq_refl). rewrite El in Hfull. by apply elem_of_nil in Hfull.
Qed.

Lemma cache_step_ok c c' : cache_ok c -> cache_step c c' -> cache_ok c'.
Proof.
  intros Hc []; [by apply cache_call_ok|by apply cache_found_ok|by apply cache_return_ok|by apply cache_return_ok].
Qed.

(** The rules see only names a network can have.  However calls of CurrentSSID and probes follow each other
    and whatever the native call and the system's tools answer: at most one probe runs; every reading is empty,
    and then no rule acts on it, or at most 32 bytes that are not blank and no placeholder of macOS; and a caller
    that waited for its probe is given what that probe or a later one found, not an older name. *)
Theorem ssid_readings (c : SsidCache) : rtc cache_step new_cache c ->
  (length (sc_running c) <= 1)%nat
  /\ forall k p full v, sc_callers c !! k = Some (CReturned p full v) ->
       (plausible v = true \/ v = "" /\ forall r, Action r v = ActNone)
       /\ (full = true -> exists q, (p <= q)%nat /\ sc_values c !! q = Some (q, v)).
Proof.
  intros H. assert (Hc : cache_ok c).
  { revert H. apply (rtc_ind_r (R := cache_step)); [|intros; by eapply cache_step_ok].
    split; cbn; try done; intros; by rewrite ?lookup_nil in *. }
  destruct Hc as [H1 _ H3 _ _ H6 H7]. split; [rewrite H1; destruct (ssidInflight c); cbn; lia|].
  intros k p full v Hk.
  assert (He : forall r, Action r "" = ActNone) by (intros r; unfold Action; by rewrite orb_true_r).
  destruct (H7 k p full v Hk) as [[-> ->]|(q & Hq & Hle)]; [split; [by right|done]|]. split.
  - rewrite Forall_forall in H6. destruct (H6 _ Hq) as [E|E]; cbn in E; [|by left]. right. by subst.
  - intros Hfull. exists q. split; [by apply Hle|]. apply list_elem_of_lookup in Hq as (i & Hi). by rewrite <- (H3 _ _ _ Hi) in Hi at 1.
Qed.

(** ** Rules at work *)

(** What was saved is what runs and what is loaded next; a failed write changes neither. *)
Lemma SaveWifiRules_spec written hook raw f live :
  match SaveWifiRules written hook raw f live with
  | (true, f', live') => wifiRules_Load true f' = (Some (normalise raw), f') /\ (hook = true -> live' = normalise raw)
  | (false, f', live') => f' = f /\ live' = live
  end.
Proof.
  unfold SaveWifiRules. destruct (wifiRules_Save written _ f) as [f'|] eqn:E; [|done]. split; [|by intros ->].
  unfold wifiRules_Save, json_save in E. destruct written; [|done]. by injection E as <-.
Qed.

(** Stopping twice is stopping once, up to the counter that ends pending releases; nothing listens any more. *)
Lemma wifi_stop_idem lc : wf_monitor (wifi_stop (wifi_stop lc)) = wf_monitor (wifi_stop lc) /\ auth_changed (wifi_stop lc) = wifi_stop lc.
Proof. split; [|done]. unfold wifi_stop, Stop. cbn. destruct (mo_running (wf_monitor lc)) eqn:E; cbn; [done|]. by rewrite E. Qed.

(** *** A saved rule waits for a change *)

(** The reading of a monitor that runs already has the name it knows: no rule is consulted, whatever was saved
    meanwhile. *)
Lemma saved_rule_waits m k current : current = lastSSID m -> after_read k false current m = set_poller k pWaiting m.
Proof. intros ->. unfold after_read. by rewrite bool_decide_true. Qed.

(** *** Readings *)

Definition redacted_source : ssidSource :=
  MkSource AuthDenied (MkWlan true true "en0" "<redacted>") (fun cmd =>
    if bool_decide (cmd = get_summary "en0") then "<dictionary> {" +:+ String newline "  SSID : Home : 5G" +:+ String newline "}" else "").

Example resolve_summary : ssid_resolve redacted_source = ("Home : 5G", [get_summary "en0"]). Proof. vm_compute. reflexivity. Qed.

Example ports_device : wifiInterface ("Hardware Port: Ethernet" +:+ String newline "Device: en5" +:+ String newline "Hardware Port: Wi-Fi"
  +:+ String newline " Device: en0 ") = "en0". Proof. vm_compute. reflexivity. Qed.

Example airport_redacted : parseAirportNetwork ("Current Wi-Fi Network: <Redacted>" +:+ String newline "") = "". Proof. vm_compute. reflexivity. Qed.

(** Two callers share a probe; one of them does not wait for it. *)
Lemma ssid_readings_witness :
  exists c, rtc cache_step new_cache c /\ sc_callers c = [CReturned 0 false ""; CReturned 0 true "Home : 5G"]
  /\ (length (sc_running c) <= 1)%nat.
Proof.
  assert (H : rtc cache_step new_cache
    (cache_return 1 0 true (cache_found 0 (fst (ssid_resolve redacted_source)) (cache_return 0 0 false (cache_call (cache_call new_cache)))))).
  { eapply rtc_l; [apply cs_call|]. eapply rtc_l; [apply cs_call|]. eapply rtc_l; [apply (cs_budget _ 0 0); reflexivity|].
    eapply rtc_l; [apply (cs_found _ 0 redacted_source); by left|]. apply rtc_once. apply (cs_done _ 1 0); [reflexivity|by left]. }
  eexists. split; [exact H|]. split; [vm_compute; reflexivity|]. exact (proj1 (ssid_readings _ H)).
Defined.
