(* ===== verification/SsidTag.v ===== *)
(** * Names in the log: internal/wifi/ssidtag.go

    The key under which names of networks are hidden, in a file that launches of the application create, read
    and repair at the same time.  A launch is a sequence of system calls; the disk is one path and the files
    that have been there.  HMAC and the random bytes are arguments. *)

From S2P Require Import Prelude GoStrings GoText Engine.

Definition ssidTagKeyLen : nat := 32.

(** ** The tag *)

(** [hmac]: HMAC-SHA256, as its octets. *)
Definition SSIDTag (hmac : string -> string -> list Z) (key ssid : string) : string :=
  if ssid =s "" then "" else "ssid#" +:+ hex_encode (take 6 (hmac key ssid)).

(** ** The disk

    A file has an owner and permissions that are accepted or not, and its bytes. *)

Record KeyFile := MkKeyFile { kf_ours : bool; kf_private : bool; kf_bytes : string }.

(** What the path leads to: nothing, a file, a symbolic link, or something that is no regular file. *)
Inductive Entry := EAbsent | EFile (inode : nat) | ELink | ESpecial.

#[export] Instance entry_eq_dec : EqDecision Entry.
Proof. solve_decision. Defined.

Record KeyDisk := MkDisk { kd_path : Entry; kd_files : list KeyFile }.

(** ** A launch *)

(** Why the file is read: first of all, after another launch created it, or after replacing it. *)
Inductive Reading := RFirst | RCreated | RReplaced (key : string).

Inductive Launch :=
| LOpen (r : Reading) | LRead (inode : nat) (r : Reading)
| LCreate (key : string) | LWrite (key : string) (inode : nat)
| LTemp (key : string) | LWriteTemp (key : string) (inode : nat) | LRename (key : string) (inode : nat)
| LRemove | LDone (key : string) | LFailed.

Definition LStart : Launch := LOpen RFirst.

(** What becomes of an answer of readKey: [None] is errKeySize, and [key'] the new key for that case. *)
Definition after_key (r : Reading) (key' : string) (got : option string) : Launch :=
  match r, got with
  | _, Some key => LDone key
  | RFirst, None => LTemp key'
  | RCreated, None => LFailed
  | RReplaced key, None => LDone key
  end.

(** Another failure of readKey. *)
Definition after_refusal (r : Reading) : Launch := match r with RReplaced key => LDone key | _ => LFailed end.

(** The file's checks, on the opened descriptor. *)
Definition acceptable (f : KeyFile) : bool := kf_ours f && kf_private f.

(** io.LimitReader(f, 33) and the test of the length. *)
Definition key_of (f : KeyFile) : option string :=
  let k := string_take (S ssidTagKeyLen) (kf_bytes f) in if (String.length k =? ssidTagKeyLen)%nat then Some k else None.

Definition set_bytes (inode : nat) (k : string) (d : KeyDisk) : KeyDisk :=
  MkDisk (kd_path d) (alter (fun f => MkKeyFile (kf_ours f) (kf_private f) k) inode (kd_files d)).

#[global] Arguments set_bytes : simpl never.

Definition add_file (d : KeyDisk) : list KeyFile := kd_files d ++ [MkKeyFile true true ""].

(** How a call ends; a write that fails has written some bytes. *)
Inductive CallEnd := CallOk | CallFails (written : nat).

Definition succeeds (e : CallEnd) : bool := match e with CallOk => true | CallFails _ => false end.
Definition partial (e : CallEnd) (k : string) : string := match e with CallOk => k | CallFails n => string_take n k end.

(** readKey: opening and checking the file, then reading it. *)
Definition readKey_open (fresh : string) (ok : bool) (d : KeyDisk) (r : Reading) : Launch :=
  match kd_path d with
  | EAbsent => match r with RFirst => LCreate fresh | _ => after_refusal r end
  | ELink | ESpecial => after_refusal r
  | EFile i => match kd_files d !! i with
               | Some f => if acceptable f && ok then LRead i r else after_refusal r
               | None => after_refusal r
               end
  end.

Definition readKey_read (fresh : string) (ok : bool) (d : KeyDisk) (i : nat) (r : Reading) : Launch :=
  if negb ok then after_refusal r
  else match kd_files d !! i with Some f => after_key r fresh (key_of f) | None => after_refusal r end.

(** O_CREATE|O_EXCL *)
Definition create_key (ok : bool) (d : KeyDisk) (k : string) : KeyDisk * Launch :=
  if negb ok then (d, LFailed)
  else match kd_path d with
       | EAbsent => (MkDisk (EFile (length (kd_files d))) (add_file d), LWrite k (length (kd_files d)))
       | _ => (d, LOpen RCreated)
       end.

Definition write_key (e : CallEnd) (d : KeyDisk) (k : string) (i : nat) : KeyDisk * Launch :=
  (set_bytes i (partial e k) d, if succeeds e then LDone k else LRemove).

(** replaceKey *)
Definition temp_key (ok : bool) (d : KeyDisk) (k : string) : KeyDisk * Launch :=
  if ok then (MkDisk (kd_path d) (add_file d), LWriteTemp k (length (kd_files d))) else (d, LFailed).

Definition write_temp (e : CallEnd) (d : KeyDisk) (k : string) (i : nat) : KeyDisk * Launch :=
  (set_bytes i (partial e k) d, if succeeds e then LRename k i else LFailed).

Definition rename_temp (ok : bool) (d : KeyDisk) (k : string) (i : nat) : KeyDisk * Launch :=
  if ok then (MkDisk (EFile i) (kd_files d), LOpen (RReplaced k)) else (d, LFailed).

(** One system call; [fresh]: the random bytes, should it need a key; [e]: how a call that can fail for reasons not
    in the model ends. *)
Definition launch_step (fresh : string) (e : CallEnd) (d : KeyDisk) (l : Launch) : KeyDisk * Launch :=
  let ok := succeeds e in
  match l with
  | LOpen r => (d, readKey_open fresh ok d r)
  | LRead i r => (d, readKey_read fresh ok d i r)
  | LCreate k => create_key ok d k
  | LWrite k i => write_key e d k i
  | LTemp k => temp_key ok d k
  | LWriteTemp k i => write_temp e d k i
  | LRename k i => rename_temp ok d k i
  | LRemove => (MkDisk (if ok then EAbsent else kd_path d) (kd_files d), LFailed)
  | LDone _ | LFailed => (d, l)
  end.

(** A launch alone, with the keys it draws; seven calls are the most it makes. *)
Fixpoint run_launch (fuel : nat) (fresh : string) (ends : nat -> CallEnd) (d : KeyDisk) (l : Launch) : KeyDisk * Launch :=
  match fuel with
  | O => (d, l)
  | S fuel => let '(d, l) := launch_step fresh (ends 0%nat) d l in run_launch fuel fresh (fun n => ends (S n)) d l
  end.

Definition loadOrCreateKey (fresh : string) (ends : nat -> CallEnd) (d : KeyDisk) : KeyDisk * Launch := run_launch 7 fresh ends d LStart.

(** InitSSIDTagKey: the key the process uses; without one it draws its own. *)
Definition tag_key (own : string) (l : Launch) : string := match l with LDone k => k | _ => own end.

(** ** Launches at the same time *)

Record Launches := MkLaunches { la_disk : KeyDisk; la_all : list Launch }.

Inductive launches_step (s : Launches) : Launches -> Prop :=
| ls_start : launches_step s (MkLaunches (la_disk s) (la_all s ++ [LStart]))
| ls_call k l fresh e : la_all s !! k = Some l -> String.length fresh = ssidTagKeyLen ->
    launches_step s (let '(d, l') := launch_step fresh e (la_disk s) l in MkLaunches d (<[k := l']> (la_all s))).

(** ** Facts *)

Ltac calls :=
  cbn [launch_step fst snd]; unfold readKey_open, readKey_read, create_key, write_key, temp_key, write_temp, rename_temp; cbn.

Definition is_done (l : Launch) : bool := match l with LDone _ | LFailed => true | _ => false end.

(** The keys a launch holds. *)
Definition key_ok (k : string) : Prop := String.length k = ssidTagKeyLen.

Definition launch_ok (l : Launch) : Prop :=
  match l with
  | LOpen (RReplaced k) | LRead _ (RReplaced k) | LCreate k | LWrite k _ | LTemp k | LWriteTemp k _ | LRename k _ | LDone k => key_ok k
  | _ => True
  end.

Lemma key_of_length f k : key_of f = Some k -> key_ok k.
Proof. unfold key_of. destruct (Nat.eqb_spec (String.length (string_take (S ssidTagKeyLen) (kf_bytes f))) ssidTagKeyLen) as [E|]; [|done]. by intros [= <-]. Qed.

Lemma after_refusal_ok r : launch_ok (LOpen r) -> launch_ok (after_refusal r).
Proof. by destruct r. Qed.

Lemma after_key_ok r fresh f : key_ok fresh -> launch_ok (LOpen r) -> launch_ok (after_key r fresh (key_of f)).
Proof. intros Hf Hr. destruct (key_of f) as [k|] eqn:E; destruct r; cbn; try done; by eapply key_of_length. Qed.

Lemma launch_step_ok fresh e d l : key_ok fresh -> launch_ok l -> launch_ok (snd (launch_step fresh e d l)).
Proof.
  intros Hf Hl. destruct l as [r|i r|k|k i|k|k i|k i| |k|]; calls.
  - destruct (kd_path d) as [|i| |]; try by apply after_refusal_ok.
    + destruct r; by try apply after_refusal_ok.
    + destruct (kd_files d !! i) as [f|]; [|by apply after_refusal_ok]. destruct (_ && _); [done|by apply after_refusal_ok].
  - destruct (succeeds e); cbn; [|by apply after_refusal_ok].
    destruct (kd_files d !! i) as [f|]; [by apply after_key_ok|by apply after_refusal_ok].
  - destruct (succeeds e); [|done]. by destruct (kd_path d).
  - by destruct (succeeds e).
  - by destruct (succeeds e).
  - by destruct (succeeds e).
  - by destruct (succeeds e).
  - done.
  - done.
  - done.
Qed.

(** What readKey refuses for another reason than its length. *)
Definition suspicious (d : KeyDisk) : bool :=
  match kd_path d with
  | EAbsent => false
  | EFile i => match kd_files d !! i with Some f => negb (acceptable f) | None => true end
  | ELink | ESpecial => true
  end.

Lemma suspicious_step fresh e d l : suspicious d = true -> l = LStart \/ l = LFailed -> launch_step fresh e d l = (d, LFailed).
Proof.
  unfold suspicious. intros H [->| ->]; [|done]. unfold LStart. calls. destruct (kd_path d) as [|i| |]; try done.
  destruct (kd_files d !! i) as [f|]; [|done]. apply negb_true_iff in H. by rewrite H.
Qed.

Lemma launches_inv (P : Launches -> Prop) d : P (MkLaunches d []) -> (forall s s', P s -> launches_step s s' -> P s') ->
  forall s, rtc launches_step (MkLaunches d []) s -> P s.
Proof. intros H0 Hs s. apply (rtc_ind_r P); [done|]. intros; by eapply Hs. Qed.

Lemma suspicious_kept d s : suspicious d = true -> rtc launches_step (MkLaunches d []) s ->
  la_disk s = d /\ Forall (fun l => l = LStart \/ l = LFailed) (la_all s).
Proof.
  intros Hd. revert s. apply launches_inv; [by split|]. intros s s' [E Hl] []; cbn.
  - split; [done|]. apply Forall_app. split; [done|]. constructor; [by left|constructor].
  - rewrite E in *. rewrite Forall_forall in Hl. rewrite suspicious_step by (done || (apply Hl; by eapply list_elem_of_lookup_2)). cbn. split; [done|].
    apply Forall_insert; [by apply Forall_forall|by right].
Qed.

Lemma keys_have_length d s : rtc launches_step (MkLaunches d []) s -> Forall launch_ok (la_all s).
Proof.
  revert s. apply launches_inv; [constructor|]. intros s s' Hl []; cbn.
  - apply Forall_app. split; [done|]. by constructor.
  - destruct (launch_step fresh e (la_disk s) l) as [d' l'] eqn:E. cbn. apply Forall_insert; [done|].
    rewrite Forall_forall in Hl. change l' with (snd (d', l')). rewrite <- E. apply launch_step_ok; [done|]. apply Hl. by eapply list_elem_of_lookup_2.
Qed.

(** ** One launch after another *)

Lemma string_take_all n s : (String.length s <= n)%nat -> string_take n s = s.
Proof. revert n. induction s as [|c s IH]; intros [|n] H; cbn in *; try done; try lia. rewrite IH; [done|lia]. Qed.

(** The file at the path has the key. *)
Definition settled (d : KeyDisk) (k : string) : Prop :=
  exists i f, kd_path d = EFile i /\ kd_files d !! i = Some f /\ acceptable f = true /\ key_of f = Some k.

(** What a launch that is alone knows of the disk. *)
Definition alone (d : KeyDisk) (l : Launch) : Prop :=
  match l with
  | LRead i RFirst => exists f, kd_path d = EFile i /\ kd_files d !! i = Some f /\ acceptable f = true
  | LOpen (RReplaced k) | LDone k => settled d k
  | LRead i (RReplaced k) => settled d k /\ kd_path d = EFile i
  | LOpen RCreated | LRead _ RCreated => False
  | LCreate k => key_ok k /\ kd_path d = EAbsent
  | LWrite k i => key_ok k /\ kd_path d = EFile i /\ kd_files d !! i = Some (MkKeyFile true true "")
  | LTemp k => key_ok k
  | LWriteTemp k i => key_ok k /\ kd_files d !! i = Some (MkKeyFile true true "")
  | LRename k i => key_ok k /\ kd_files d !! i = Some (MkKeyFile true true k)
  | LOpen RFirst | LRemove | LFailed => True
  end.

Lemma key_of_written k : key_ok k -> key_of (MkKeyFile true true k) = Some k.
Proof. unfold key_ok, key_of. intros H. cbn [kf_bytes]. rewrite string_take_all by lia. by rewrite H. Qed.

Lemma added_file d : add_file d !! length (kd_files d) = Some (MkKeyFile true true "").
Proof. unfold add_file. rewrite lookup_app_r by lia. by rewrite Nat.sub_diag. Qed.

Lemma written_file d i k f : kd_files d !! i = Some f -> kd_files (set_bytes i k d) !! i = Some (MkKeyFile (kf_ours f) (kf_private f) k).
Proof. intros H. unfold set_bytes. cbn. by rewrite list_lookup_alter_eq, H. Qed.

Lemma alone_step fresh e d l : key_ok fresh -> alone d l -> alone (fst (launch_step fresh e d l)) (snd (launch_step fresh e d l)).
Proof.
  intros Hf Hl. destruct l as [r|i r|k|k i|k|k i|k i| |k|]; calls; cbn in Hl; try done.
  - destruct r as [| |k]; [|done|].
    + destruct (kd_path d) as [|i| |] eqn:Ep; cbn; try done. destruct (kd_files d !! i) as [f|] eqn:Ei; cbn; [|done].
      destruct (acceptable f) eqn:Ea; [|done]. destruct (succeeds e); [|done]. by exists f.
    + destruct Hl as (i & f & Ep & Ei & Ea & Ek). rewrite Ep, Ei, Ea. cbn. destruct (succeeds e); cbn; [split; [|done]|]; by exists i, f.
  - destruct r as [| |k]; [|done|].
    + destruct Hl as (f & Ep & Ei & Ea). rewrite Ei. destruct (succeeds e); cbn; [|done]. destruct (key_of f) as [k|] eqn:Ek; cbn; [by exists i, f|done].
    + destruct Hl as [(i' & f & Ep' & Ei & Ea & Ek) Ep]. rewrite Ep' in Ep. injection Ep as ->.
      destruct (succeeds e); cbn; [rewrite Ei, Ek; cbn|]; by exists i, f.
  - destruct Hl as [Hk Ep]. rewrite Ep. destruct (succeeds e); cbn; [|done]. split; [done|]. split; [done|]. apply added_file.
  - destruct Hl as (Hk & Ep & Ei). destruct e; cbn; [|done]. exists i, (MkKeyFile true true k). split; [done|].
    split; [by rewrite (written_file _ _ _ _ Ei)|]. split; [done|by apply key_of_written].
  - destruct (succeeds e); cbn; [|done]. split; [done|]. apply added_file.
  - destruct Hl as (Hk & Ei). destruct e; cbn; [|done]. split; [done|]. by rewrite (written_file _ _ _ _ Ei).
  - destruct Hl as (Hk & Ei). destruct (succeeds e); cbn; [|done]. exists i, (MkKeyFile true true k). split; [done|]. split; [done|].
    split; [done|by apply key_of_written].
Qed.

(** The calls still to come. *)
Definition calls_left (l : Launch) : nat :=
  match l with
  | LOpen RFirst => 7 | LRead _ RFirst => 6 | LTemp _ => 5 | LWriteTemp _ _ => 4 | LRename _ _ => 3
  | LCreate _ => 3 | LWrite _ _ => 2 | LOpen _ => 2 | LRead _ _ => 1 | LRemove => 1 | LDone _ | LFailed => 0
  end.

Lemma launch_step_less fresh e d l : (calls_left (snd (launch_step fresh e d l)) <= calls_left l - 1)%nat.
Proof.
  assert (Ha : forall r x, (calls_left (after_key r fresh x) <= 5)%nat) by (intros [] []; cbn; lia).
  assert (Hb : forall r x, r <> RFirst -> (calls_left (after_key r fresh x) <= 0)%nat) by (intros [] [] ?; cbn; done || lia).
  assert (Hr : forall r, calls_left (after_refusal r) = 0%nat) by (intros []; done).
  destruct l as [r|i r|k|k i|k|k i|k i| |k|]; calls.
  - destruct (kd_path d) as [|i| |]; cbn; rewrite ?Hr; try lia; [destruct r; cbn; lia|].
    destruct (kd_files d !! i) as [f|]; cbn; rewrite ?Hr; [|lia]. destruct (_ && _); cbn; rewrite ?Hr; [|lia]. destruct r; cbn; lia.
  - destruct (succeeds e); cbn; rewrite ?Hr; [|lia]. destruct (kd_files d !! i) as [f|]; cbn; rewrite ?Hr; [|lia].
    destruct r; [apply Ha|by apply Hb|by apply Hb].
  - destruct (succeeds e); cbn; [|lia]. destruct (kd_path d); cbn; lia.
  - destruct (succeeds e); cbn; lia.
  - destruct (succeeds e); cbn; lia.
  - destruct (succeeds e); cbn; lia.
  - destruct (succeeds e); cbn; lia.
  - lia.
  - lia.
  - lia.
Qed.

Lemma run_launch_ends fresh : key_ok fresh -> forall fuel ends d l, (calls_left l <= fuel)%nat -> alone d l ->
  let '(d', l') := run_launch fuel fresh ends d l in calls_left l' = 0%nat /\ alone d' l'.
Proof.
  intros Hf. induction fuel as [|fuel IH]; intros ends d l Hl Ha; cbn [run_launch]; [split; [lia|done]|].
  pose proof (launch_step_less fresh (ends 0%nat) d l) as Hs. pose proof (alone_step fresh (ends 0%nat) d l Hf Ha) as Ha'.
  destruct (launch_step fresh (ends 0%nat) d l) as [d1 l1]. apply IH; [cbn in Hs; lia|done].
Qed.

Lemma calls_left_done l : calls_left l = 0%nat -> is_done l = true.
Proof. destruct l as [[]| ? []| | | | | | | |]; cbn; try lia; done. Qed.

Lemma settled_again d k fresh : settled d k -> loadOrCreateKey fresh (fun _ => CallOk) d = (d, LDone k).
Proof. intros (i & f & Ep & Ei & Ea & Ek). unfold loadOrCreateKey, LStart, run_launch, launch_step, readKey_open, readKey_read. cbn. rewrite Ep, Ei, Ea. cbn. by rewrite Ei, Ek. Qed.

(** The key behind the names in the log.  A key file that is a link, no regular file, someone else's or
    readable by others is used by no launch and stays as it is, however many launches run at the same time; a key
    in use always has 32 bytes; and a launch alone, whichever of its calls fail, is through after seven of them,
    and if it has a key from the file, every later launch has the same: names keep their tags. *)
Theorem key_file (d : KeyDisk) :
  (suspicious d = true -> forall s, rtc launches_step (MkLaunches d []) s -> la_disk s = d /\ forall k, LDone k ∉ la_all s)
  /\ (forall s k, rtc launches_step (MkLaunches d []) s -> LDone k ∈ la_all s -> String.length k = 32%nat)
  /\ (forall fresh ends, String.length fresh = 32%nat ->
        let '(d', l) := loadOrCreateKey fresh ends d in
        is_done l = true /\ forall k, l = LDone k -> forall fresh', loadOrCreateKey fresh' (fun _ => CallOk) d' = (d', LDone k)).
Proof.
  split_and!.
  - intros Hd s Hs. destruct (suspicious_kept d s Hd Hs) as [E Hl]. split; [done|]. intros k Hk. rewrite Forall_forall in Hl.
    by destruct (Hl _ Hk).
  - intros s k Hs Hk. pose proof (keys_have_length d s Hs) as Hl. rewrite Forall_forall in Hl. exact (Hl _ Hk).
  - intros fresh ends Hf. pose proof (run_launch_ends fresh Hf 7 ends d LStart ltac:(cbn; lia) I) as H. unfold loadOrCreateKey.
    destruct (run_launch 7 fresh ends d LStart) as [d' l]. destruct H as [H0 Ha]. split; [by apply calls_left_done|].
    intros k -> fresh'. by apply settled_again.
Qed.

Definition key_a : string := String.concat "" (repeat "a" 32).
Definition key_b : string := String.concat "" (repeat "b" 32).

(** Two launches of a new installation: the second reads the file before the first has written it, takes it for
    a torn one and replaces it.  Both have a key, and the two differ: the first hides names under a key that no
    file holds. *)
Lemma two_keys : exists s, rtc launches_step (MkLaunches (MkDisk EAbsent []) []) s
  /\ la_all s = [LDone key_a; LDone key_b] /\ settled (la_disk s) key_b.
Proof.
  assert (Hk : key_ok key_a /\ key_ok key_b) by done.
  eexists. split.
  - eapply rtc_l; [apply ls_start|]. eapply rtc_l; [apply ls_start|].
    do 2 (eapply rtc_l; [eapply (ls_call _ 0 _ key_a CallOk); [reflexivity|apply Hk]|]; cbn).
    do 7 (eapply rtc_l; [eapply (ls_call _ 1 _ key_b CallOk); [reflexivity|apply Hk]|]; cbn).
    eapply rtc_l; [eapply (ls_call _ 0 _ key_a CallOk); [reflexivity|apply Hk]|]. cbn. apply rtc_refl.
  - split; [reflexivity|]. exists 1%nat, (MkKeyFile true true key_b). by repeat split.
Qed.

(** A torn file is replaced, and the new key stays. *)
Lemma key_file_witness :
  let d := MkDisk (EFile 0) [MkKeyFile true true "torn"] in
  let '(d', l) := loadOrCreateKey key_a (fun _ => CallOk) d in
  l = LDone key_a /\ loadOrCreateKey key_b (fun _ => CallOk) d' = (d', LDone key_a).
Proof.
  pose proof (proj2 (proj2 (key_file (MkDisk (EFile 0) [MkKeyFile true true "torn"]))) key_a (fun _ => CallOk) eq_refl) as H.
  cbv zeta. destruct (loadOrCreateKey key_a (fun _ => CallOk) (MkDisk (EFile 0) [MkKeyFile true true "torn"])) as [d' l] eqn:E.
  vm_compute in E. injection E as <- <-. split; [reflexivity|]. apply H. reflexivity.
Defined.
