(* ===== verification/OvpnPid.v ===== *)
(** * Orphaned openvpn processes: internal/ovpn/pidfile_darwin.go

    What the next helper does about the openvpn processes of one that died.  Every query of the system and
    every signal is an event; [PidEnv] is what the system answers, as a function of the events so far, newest
    first, so that processes may come, go and be replaced between any two. *)

From S2P Require Import Prelude GoStrings GoText.

(** ** Pid files *)

(** What Lstat shows of a file, and its content. *)
Record PidFile := MkPidFile { pf_regular : bool; pf_uid : Z; pf_mode : Z; pf_text : string }.

Definition pidSuffix : string := ".pid".

Inductive PidFileError := PeMissing | PeNotRegular | PeOwner | PeMode | PeInvalid (s : string).

(** Removing what is there, then creating the file anew. *)
Definition writePIDFile (euid : Z) (dir : gmap string PidFile) (file : string) (pid : Z) : gmap string PidFile :=
  <[file := MkPidFile true euid 384 (itoa pid +:+ String newline "")]> (delete file dir).

Definition readPIDFile (euid : Z) (dir : gmap string PidFile) (file : string) : result PidFileError Z :=
  match dir !! file with
  | None => Err PeMissing
  | Some f =>
      if negb (pf_regular f) then Err PeNotRegular
      else if negb (pf_uid f =? euid)%Z then Err PeOwner
      else if negb (Z.land (Z.land (pf_mode f) 511) 63 =? 0)%Z then Err PeMode
      else match atoi (trim_space (pf_text f)) with
           | Some pid => if (pid <=? 1)%Z then Err (PeInvalid (trim_space (pf_text f))) else Ok pid
           | None => Err (PeInvalid (trim_space (pf_text f)))
           end
  end.

(** ** Processes *)

Inductive Signal := SIGTERM | SIGKILL.

Inductive PidEvent :=
| PRemove (file : string)
| PExec (pid : Z)
| PAlive (pid : Z)
| PClock
| PSleep
| PSignal (pid : Z) (s : Signal).

#[export] Instance signal_eq_dec : EqDecision Signal.
Proof. solve_decision. Defined.

#[export] Instance pid_event_eq_dec : EqDecision PidEvent.
Proof. solve_decision. Defined.

(** [pe_exec] is kern.procargs2 of a process, [pe_kill] whether the signal could be sent. *)
Record PidEnv := MkPidEnv {
  pe_exec : list PidEvent -> Z -> option string;
  pe_alive : list PidEvent -> Z -> bool;
  pe_clock : list PidEvent -> Z;
  pe_kill : list PidEvent -> bool
}.

Definition procExecPath (buf : option string) : option string :=
  match buf with
  | None => None
  | Some buf =>
      if (String.length buf <? 5)%nat then None
      else let rest := string_drop 4 buf in
           let rest := match cut_byte nul rest with Some (path, _) => path | None => rest end in
           if rest =s "" then None else Some rest
  end.

Definition same_binary (binaryPath : string) (buf : option string) : bool :=
  match procExecPath buf with
  | Some exe => path_clean exe =s path_clean binaryPath
  | None => false
  end.

Section Kill.
Context (env : PidEnv) (binaryPath : string).

Definition ours (pid : Z) (log : list PidEvent) : bool * list PidEvent :=
  (same_binary binaryPath (pe_exec env log pid), PExec pid :: log).

Definition processAlive (pid : Z) (log : list PidEvent) : bool * list PidEvent := (pe_alive env log pid, PAlive pid :: log).

Definition now (log : list PidEvent) : Z * list PidEvent := (pe_clock env log, PClock :: log).

(** The wait for SIGTERM to take effect; [None] when the fuel runs out. *)
Fixpoint await_exit (fuel : nat) (deadline pid : Z) (log : list PidEvent) : option (list PidEvent) :=
  match fuel with
  | O => None
  | S fuel =>
      let '(t, log) := now log in
      if negb (t <? deadline)%Z then Some log
      else let '(alive, log) := processAlive pid log in
           if negb alive then Some log
           else let '(o, log) := ours pid log in
                if negb o then Some log else await_exit fuel deadline pid (PSleep :: log)
  end.

(** 100 ms of sleep in each of 3 s *)
Definition wait_rounds : nat := 31.

(** The switch after the wait: whether the tunnel is reported as killed. *)
Definition finish (pid : Z) (log : list PidEvent) : bool * list PidEvent :=
  let '(alive, log) := processAlive pid log in
  if negb alive then (true, log)
  else let '(o, log) := ours pid log in
       if negb o then (true, log) else (pe_kill env log, PSignal pid SIGKILL :: log).

(** One pid file. *)
Definition kill_file (euid : Z) (dir : gmap string PidFile) (file : string) (log : list PidEvent)
    : option (bool * list PidEvent) :=
  let r := readPIDFile euid dir file in
  let log := PRemove file :: log in
  match r with
  | Err _ => Some (false, log)
  | Ok pid =>
      let '(o, log) := ours pid log in
      if negb o then Some (false, log)
      else
        let sent := pe_kill env log in
        let log := PSignal pid SIGTERM :: log in
        if negb sent then Some (false, log)
        else
          let '(t, log) := now log in
          match await_exit wait_rounds (t + 3000000000)%Z pid log with
          | None => None
          | Some log => Some (finish pid log)
          end
  end.

Definition tunnel_of (file : string) : string := string_take (String.length file - String.length pidSuffix) file.

Fixpoint kill_files (euid : Z) (dir : gmap string PidFile) (files : list string) (log : list PidEvent)
    : option (list string * list PidEvent) :=
  match files with
  | [] => Some ([], log)
  | file :: files =>
      match kill_file euid dir file log with
      | None => None
      | Some (killed, log) =>
          match kill_files euid dir files log with
          | None => None
          | Some (names, log) => Some (if killed then tunnel_of file :: names else names, log)
          end
      end
  end.

(** The files of the runtime directory that Glob lists. *)
Definition pid_files (dir : gmap string PidFile) : list string := List.filter (has_suffix pidSuffix) (sorted_keys dir).

Definition KillStaleProcesses (euid : Z) (dir : gmap string PidFile) : option (list string * list PidEvent) :=
  kill_files euid dir (pid_files dir) [].

(** The directory after the events. *)
Definition files_left (dir : gmap string PidFile) (log : list PidEvent) : gmap string PidFile :=
  foldr (fun e d => match e with PRemove f => delete f d | _ => d end) dir log.

(** ** What is signalled *)

(** Whoever receives a signal ran our binary when last looked at, right before, and its pid comes from a
    private file of root's. *)
Definition signal_ok (euid : Z) (dir : gmap string PidFile) (pid : Z) (before : list PidEvent) : Prop :=
  (1 < pid)%Z /\ (exists file, file ∈ pid_files dir /\ readPIDFile euid dir file = Ok pid)
  /\ exists log, before = PExec pid :: log /\ same_binary binaryPath (pe_exec env log pid) = true.

Fixpoint signals_ok (euid : Z) (dir : gmap string PidFile) (log : list PidEvent) : Prop :=
  match log with
  | [] => True
  | PSignal pid s :: log => signal_ok euid dir pid log /\ signals_ok euid dir log
  | _ :: log => signals_ok euid dir log
  end.

Lemma signals_ok_split euid dir after pid s before :
  signals_ok euid dir (after ++ PSignal pid s :: before) -> signal_ok euid dir pid before.
Proof. induction after as [|e after IH]; [by intros [? ?]|]. destruct e; cbn; try done. intros [_ ?]. by apply IH. Qed.

Lemma readPIDFile_pid euid dir file pid : readPIDFile euid dir file = Ok pid ->
  (1 < pid)%Z /\ exists f, dir !! file = Some f /\ pf_regular f = true /\ pf_uid f = euid.
Proof.
  unfold readPIDFile. intros H. destruct (dir !! file) as [f|]; [|done]. repeat (step_in H; [done|]).
  destruct (atoi _); [|done]. step_in H; [done|]. injection H as <-. bool_hyps. split; [lia|]. exists f.
  destruct (pf_regular f); [|done]. split; [done|]. split; [done|]. lia.
Qed.

(** The system's clock: it does not go back, and a sleep takes its time. *)
Definition clock_runs : Prop :=
  (forall e log, (pe_clock env log <= pe_clock env (e :: log))%Z)
  /\ forall log, (pe_clock env log + 100000000 <= pe_clock env (PSleep :: log))%Z.

Lemma await_exit_ok euid dir fuel deadline pid : forall log log',
  signals_ok euid dir log -> await_exit fuel deadline pid log = Some log' -> signals_ok euid dir log'.
Proof.
  induction fuel as [|fuel IH]; [done|]. cbn. intros log log' Hok H. repeat (step_in H; [by injection H as <-|]). by apply IH in H.
Qed.

Lemma await_exit_ends fuel deadline pid : clock_runs -> forall log,
  (deadline <= pe_clock env log + 100000000 * (Z.of_nat fuel - 1))%Z -> (0 < fuel)%nat ->
  is_Some (await_exit fuel deadline pid log).
Proof.
  intros [Hm Hs]. induction fuel as [|fuel IH]; intros log Hd Hf; [lia|]. cbn [await_exit now processAlive ours].
  destruct (Z.ltb_spec (pe_clock env log) deadline) as [Hlt|]; cbn [negb]; [|by eexists].
  destruct (pe_alive _ _ _); cbn [negb]; [|by eexists]. destruct (same_binary _ _); cbn [negb]; [|by eexists].
  apply IH; [|lia]. pose proof (Hs (PExec pid :: PAlive pid :: PClock :: log)) as H1.
  pose proof (Hm (PExec pid) (PAlive pid :: PClock :: log)). pose proof (Hm (PAlive pid) (PClock :: log)).
  pose proof (Hm PClock log). lia.
Qed.

Lemma kill_file_spec euid dir file log : clock_runs -> file ∈ pid_files dir -> signals_ok euid dir log ->
  exists killed log', kill_file euid dir file log = Some (killed, log') /\ signals_ok euid dir log'.
Proof.
  intros Hc Hin Hok. unfold kill_file. destruct (readPIDFile euid dir file) as [pid|] eqn:Er; [|by do 2 eexists].
  cbn [ours now]. destruct (same_binary _ _) eqn:Eb; cbn [negb]; [|by do 2 eexists].
  assert (forall l, signals_ok euid dir l -> same_binary binaryPath (pe_exec env l pid) = true ->
            signal_ok euid dir pid (PExec pid :: l)) as Hsig.
  { intros l _ Hl. split; [by apply readPIDFile_pid in Er as [? _]|]. split; [by exists file|]. by exists l. }
  assert (signals_ok euid dir (PSignal pid SIGTERM :: PExec pid :: PRemove file :: log)) as Hok1 by (split; [by apply Hsig|done]).
  destruct (pe_kill _ _); cbn [negb]; [|by do 2 eexists].
  set (l1 := PSignal pid SIGTERM :: PExec pid :: PRemove file :: log) in *.
  destruct (await_exit_ends wait_rounds (pe_clock env l1 + 3000000000) pid Hc (PClock :: l1)) as [l2 E2].
  { destruct Hc as [Hm _]. pose proof (Hm PClock l1). unfold wait_rounds. lia. }
  { unfold wait_rounds. lia. }
  rewrite E2. assert (signals_ok euid dir l2) as Hok2 by (by eapply await_exit_ok, E2).
  unfold finish. cbn [processAlive ours]. destruct (pe_alive _ _ _); cbn [negb]; [|by do 2 eexists].
  destruct (same_binary _ (pe_exec env (PAlive pid :: l2) pid)) eqn:Eb2; cbn [negb]; do 2 eexists; (split; [done|]); [|done].
  split; [by apply Hsig|done].
Qed.

Lemma kill_files_spec euid dir files : clock_runs -> (forall f, f ∈ files -> f ∈ pid_files dir) -> forall log,
  signals_ok euid dir log -> exists names log', kill_files euid dir files log = Some (names, log') /\ signals_ok euid dir log'.
Proof.
  intros Hc. induction files as [|f files IH]; intros Hin log Hok; [by do 2 eexists|]. cbn.
  destruct (kill_file_spec euid dir f log Hc) as (killed & l1 & -> & H1); [apply Hin; by left|done|].
  destruct (IH (fun g Hg => Hin g (list_elem_of_further _ _ _ Hg)) l1 H1) as (names & l2 & -> & H2). by do 2 eexists.
Qed.

(** C40: The root helper never signals a process that is not its own.  Whatever pid files a previous helper left and
    whatever processes do meanwhile, KillStaleProcesses ends, and every signal it sent went to a pid above 1
    (so to no process group), read from a regular, private file of root's, whose process ran the
    helper's openvpn binary when looked at immediately before. *)
Theorem stale_kills_ours (euid : Z) (dir : gmap string PidFile) : clock_runs ->
  exists names log, KillStaleProcesses euid dir = Some (names, log)
  /\ forall after pid s before, log = after ++ PSignal pid s :: before -> signal_ok euid dir pid before.
Proof.
  intros Hc. destruct (kill_files_spec euid dir (pid_files dir) Hc (fun _ H => H) [] I) as (names & log & H & Hok).
  exists names, log. split; [exact H|]. intros after pid s before ->. by eapply signals_ok_split.
Qed.
End Kill.

(** A pid file that was written is read back by the same user, whatever was at its place. *)
Theorem pid_file_roundtrip (euid : Z) (dir : gmap string PidFile) (file : string) (pid : Z) :
  (1 < pid < 2 ^ 63)%Z -> readPIDFile euid (writePIDFile euid dir file pid) file = Ok pid.
Proof.
  intros H. unfold readPIDFile, writePIDFile. rewrite lookup_insert_eq. cbn [pf_regular pf_uid pf_mode pf_text negb].
  rewrite Z.eqb_refl. cbn [negb]. change (negb (Z.land (Z.land 384 511) 63 =? 0)%Z) with false.
  rewrite trim_space_right_blank, atoi_itoa by (lia || (apply solid_tight, (string_forall_impl decimal solid _ decimal_solid), itoa_decimal; lia) || done).
  by destruct (Z.leb_spec pid 1); [lia|].
Qed.

Lemma pid_file_roundtrip_witness : readPIDFile 0 (writePIDFile 0 ∅ "work.pid" 4242) "work.pid" = Ok 4242%Z.
Proof. apply pid_file_roundtrip. lia. Defined.

(** ** An openvpn that ignores SIGTERM *)

Definition openvpn_path : string := "/Library/PrivilegedHelperTools/openvpn".

Definition procargs (path : string) : string := "argc" +:+ path +:+ String nul "openvpn".

Definition sleeps (log : list PidEvent) : Z := Z.of_nat (length (List.filter (fun e => match e with PSleep => true | _ => false end) log)).

Definition killed (pid : Z) (log : list PidEvent) : bool :=
  existsb (fun e => match e with PSignal p SIGKILL => (p =? pid)%Z | _ => false end) log.

Definition stubborn : PidEnv :=
  MkPidEnv (fun log pid => if (pid =? 4242)%Z && negb (killed pid log) then Some (procargs openvpn_path) else None)
    (fun log pid => (pid =? 4242)%Z && negb (killed pid log)) (fun log => sleeps log * 100000000)%Z (fun _ => true).

Definition crashed_dir : gmap string PidFile :=
  <["note.pid" := MkPidFile true 501 384 "1"]> (writePIDFile 0 ∅ "work.pid" 4242).

Lemma stubborn_clock : clock_runs stubborn.
Proof. split; cbn [pe_clock stubborn]; intros; unfold sleeps; cbn [List.filter length]; [destruct e; cbn [length]; lia|lia]. Qed.

Lemma stale_kills_ours_witness :
  (exists log, KillStaleProcesses stubborn openvpn_path 0 crashed_dir = Some (["work"], PSignal 4242 SIGKILL :: log))
  /\ exists names log, KillStaleProcesses stubborn openvpn_path 0 crashed_dir = Some (names, log)
     /\ forall after pid s before, log = after ++ PSignal pid s :: before -> signal_ok stubborn openvpn_path 0 crashed_dir pid before.
Proof.
  split; [eexists; vm_compute; reflexivity|].
  exact (stale_kills_ours stubborn openvpn_path 0 crashed_dir stubborn_clock).
Defined.

(** The pid file is removed before the process is asked to end.  A helper that dies in the three seconds it waits
    (an upgrade restarts it) leaves the openvpn running with no file to find it by: the start after
    that signals nothing. *)
Theorem pid_file_gone_first :
  exists names later log,
    KillStaleProcesses stubborn openvpn_path 0 crashed_dir = Some (names, later ++ log)
    /\ existsb (fun e => match e with PSignal 4242 SIGTERM => true | _ => false end) log = true
    /\ pe_alive stubborn log 4242 = true
    /\ KillStaleProcesses stubborn openvpn_path 0 (files_left crashed_dir log) = Some ([], []).
Proof.
  destruct (KillStaleProcesses stubborn openvpn_path 0 crashed_dir) as [[names all]|] eqn:E; [|vm_compute in E; discriminate].
  exists names, (firstn (length all - 5) all), (skipn (length all - 5) all).
  rewrite firstn_skipn. split; [reflexivity|]. vm_compute in E. injection E as <- <-. split_and!; vm_compute; reflexivity.
Qed.
