(* ===== verification/HelperMain.v ===== *)
(** * The helper's start: Run of internal/helper/helper.go, its methods, and internal/helper/log_handler.go

    What a start does to what a dead helper left, composed of the recoveries of the components, also when it dies
    itself on the way; which methods are registered; and the helper's log lines. *)

From S2P Require Import Prelude GoStrings GoText Recovery Firewall Pf NetDns NetDnsFacts NetRoutes OvpnPid.

(** ** What outlives a helper *)

Record Machine := MkMachine { mc_pids : gmap string PidFile; mc_pf : PfHost; mc_records : States; mc_dns : World }.

#[export] Instance eta_machine : Eta Machine := fun r => MkMachine (mc_pids r) (mc_pf r) (mc_records r) (mc_dns r).

(** What the commands of a start answer; [se_routes] is netstat's output for a family. *)
Record StartEnv := MkStartEnv {
  se_proc : PidEnv; se_binary : string; se_euid : Z; se_pf : Outcomes;
  se_routes : string -> option string; se_ok : Oracle; se_net : Net
}.

(** What a helper keeps in memory of these. *)
Record Process := MkProcess { pr_fw : DarwinFirewall; pr_holders : dnsHolderSet; pr_savedDNS : Settings; pr_savedSearch : Settings }.

#[export] Instance eta_process : Eta Process := fun r => MkProcess (pr_fw r) (pr_holders r) (pr_savedDNS r) (pr_savedSearch r).

Definition new_process : Process := MkProcess new_firewall no_holders ∅ ∅.

Definition dns_of (p : Process) (m : Machine) : Dns := MkDns_ (pr_holders p) (pr_savedDNS p) (pr_savedSearch p) (mc_dns m).

(** The loop of RecoverFromCrash: Cleanup of each interface by a new network manager. *)
Definition clean_up (env : StartEnv) (ifaces : list string) : list Cmd :=
  snd (foldl (fun '(mgr, log) iface => NetRoutes.Cleanup (se_ok env) mgr iface (se_routes env "inet") (se_routes env "inet6") log)
         (new_darwin, []) ifaces).

(** The recovery at the top of Run, with the commands run for the interfaces; [None] when a loop ran out of fuel. *)
Definition startup (env : StartEnv) (m : Machine) : option (Machine * Process * list Cmd) :=
  match KillStaleProcesses (se_proc env) (se_binary env) (se_euid env) (mc_pids m) with
  | None => None
  | Some (_, log) =>
      let m := m <| mc_pids := files_left (mc_pids m) log |> in
      let m := m <| mc_pf ::= RecoverStaleState (se_pf env) |> in
      let '(_, ifaces, recs) := RecoverFromCrash (mc_records m) in
      let m := m <| mc_records := recs |> in
      let m := m <| mc_dns ::= fun w => snd (RestoreDNSFromJournal (se_net env) true w) |> in
      Some (m, new_process, clean_up env ifaces)
  end.

(** A start that dies on the way: what it had done of its recovery. *)
Inductive startup_cut (env : StartEnv) (m : Machine) : Machine -> Prop :=
| cut_kill later log names :
    KillStaleProcesses (se_proc env) (se_binary env) (se_euid env) (mc_pids m) = Some (names, later ++ log) ->
    startup_cut env m (m <| mc_pids := files_left (mc_pids m) log |>)
| cut_pf pids pf : pf ∈ recover_states (se_pf env) (mc_pf m) -> startup_cut env m (m <| mc_pids := pids |> <| mc_pf := pf |>)
| cut_records pids recs : recs ⊆ mc_records m ->
    startup_cut env m (m <| mc_pids := pids |> <| mc_pf ::= RecoverStaleState (se_pf env) |> <| mc_records := recs |>)
| cut_dns pids l : cut_short (journal_plan true (mc_dns m)) l ->
    startup_cut env m (m <| mc_pids := pids |> <| mc_pf ::= RecoverStaleState (se_pf env) |>
      <| mc_records := snd (RecoverFromCrash (mc_records m)) |> <| mc_dns ::= fun w => apply_effects (se_net env) w l |>).

(** ** Methods *)

Definition methods (daemon : bool) : list string :=
  ["Helper.Ping"] ++ (if daemon then [] else ["Helper.Shutdown"])
  ++ ["Helper.SetLogLevel"; "Tunnel.Connect"; "Tunnel.Disconnect"; "Tunnel.Status"; "Tunnel.IsConnected"; "Tunnel.ActiveName";
      "Tunnel.ActiveTunnels"; "Firewall.SetKillSwitch"; "Firewall.SetDNSProtection"; "Monitor.SetHealthCheck";
      "Network.SetPinInterface"; "Ovpn.FeedCredentials"].

(** ** Logging *)

Inductive LogLevel := LevelDebug | LevelInfo | LevelWarn | LevelError.

Definition level_value (l : LogLevel) : Z := match l with LevelDebug => -4 | LevelInfo => 0 | LevelWarn => 4 | LevelError => 8 end%Z.

Definition parseLevel (s : string) : LogLevel :=
  let s := to_lower (trim_space s) in
  if s =s "debug" then LevelDebug
  else if (s =s "warn") || (s =s "warning") then LevelWarn
  else if s =s "error" then LevelError
  else LevelInfo.

Record broadcastHandler := MkHandler { bh_level : LogLevel; bh_attrs : list (string * string) }.

Definition Enabled (h : broadcastHandler) (l : LogLevel) : bool := (level_value (bh_level h) <=? level_value l)%Z.

Definition WithAttrs (h : broadcastHandler) (attrs : list (string * string)) : broadcastHandler := MkHandler (bh_level h) (bh_attrs h ++ attrs).

(** The line for the viewer; values are their text. *)
Definition log_line (h : broadcastHandler) (message : string) (attrs : list (string * string)) : string :=
  foldl (fun b '(k, v) => b +:+ " " +:+ k +:+ "=" +:+ v) message (bh_attrs h ++ attrs).

(** The handler's own request. *)
Definition handleSetLogLevel (level : string) (h : broadcastHandler) : broadcastHandler := MkHandler (parseLevel level) (bh_attrs h).

(** ** Status events

    [encode] is json.Marshal, [ticks] the status of each second. *)

Section EventLoop.
Context {A : Type} (encode : A -> option string).

(** What is broadcast, and the text of the last one. *)
Fixpoint eventLoop (lastJSON : string) (ticks : list A) : list A * string :=
  match ticks with
  | [] => ([], lastJSON)
  | status :: ticks =>
      match encode status with
      | None => eventLoop lastJSON ticks
      | Some currentJSON =>
          if currentJSON =s lastJSON then eventLoop lastJSON ticks
          else let '(out, last) := eventLoop currentJSON ticks in (status :: out, last)
      end
  end.

(** The texts of a list of statuses. *)
Fixpoint texts (l : list A) : list string :=
  match l with [] => [] | s :: l => match encode s with Some t => t :: texts l | None => texts l end end.

Fixpoint no_repeats (prev : string) (l : list string) : Prop :=
  match l with [] => True | s :: l => s <> prev /\ no_repeats s l end.

(** Whoever listens from the start knows the current status, and is told nothing twice in a row: what is broadcast
    are the statuses with their repetitions left out. *)
Theorem eventLoop_current ticks : forall lastJSON, let '(out, last_) := eventLoop lastJSON ticks in
  no_repeats lastJSON (texts out) /\ last_ = default lastJSON (last (texts ticks)) /\ last_ = default lastJSON (last (texts out))
  /\ out `sublist_of` ticks.
Proof.
  induction ticks as [|t ticks IH]; intros lastJSON; cbn [eventLoop texts]; [by split_and!|].
  destruct (encode t) as [cur|] eqn:E.
  - rewrite last_cons. case_bool_decide as Ec.
    + specialize (IH lastJSON). destruct (eventLoop lastJSON ticks) as [out l]. destruct IH as (H1 & -> & H3 & H4).
      split_and!; [done| |done|by constructor]. subst cur. by destruct (last (texts ticks)).
    + specialize (IH cur). destruct (eventLoop cur ticks) as [out l]. destruct IH as (H1 & H2 & H3 & H4). cbn [texts]. rewrite E, last_cons.
      split_and!; [done|by destruct (last (texts ticks))|by destruct (last (texts out))|by constructor].
  - specialize (IH lastJSON). destruct (eventLoop lastJSON ticks) as [out l]. destruct IH as (H1 & H2 & H3 & H4).
    split_and!; [done..|by constructor].
Qed.
End EventLoop.

(** * Facts: the machine survives its helpers

    [restart_heals]: however often helpers die, in the middle of their work or of their own recovery, the next
    whole start brings pf, the DNS settings, the crash records and the pid files back to what they were.
    [recovery_runs_nothing] shows what it does not bring back. *)

(** ** The parts of a start *)

Lemma kill_file_removes env binary euid dir file log killed log' :
  kill_file env binary euid dir file log = Some (killed, log') -> exists new, log' = new ++ PRemove file :: log.
Proof.
  unfold kill_file. intros H. destruct (readPIDFile euid dir file) as [pid|]; [|injection H as <- <-; by exists []].
  cbn [ours now] in H. step_in H; [injection H as <- <-; by exists [PExec pid]|].
  step_in H; [injection H as <- <-; by exists [PSignal pid SIGTERM; PExec pid]|].
  destruct (await_exit _ _ _ _ _ _) as [l|] eqn:Ew; [|done]. injection H as H.
  assert (exists new, l = new ++ PClock :: PSignal pid SIGTERM :: PExec pid :: PRemove file :: log) as (new & ->).
  { revert Ew. generalize wait_rounds. generalize (PClock :: PSignal pid SIGTERM :: PExec pid :: PRemove file :: log).
    intros l0 fuel. revert l0. induction fuel as [|fuel IH]; [done|]. cbn. intros l0 Ew.
    step_in Ew; [injection Ew as <-; by exists [PClock]|]. step_in Ew; [injection Ew as <-; by exists [PAlive pid; PClock]|].
    step_in Ew; [injection Ew as <-; by exists [PExec pid; PAlive pid; PClock]|]. apply IH in Ew as (new & ->).
    exists (new ++ [PSleep; PExec pid; PAlive pid; PClock]). by rewrite <- app_assoc. }
  unfold finish in H. cbn [processAlive ours] in H.
  assert (exists more, log' = more ++ new ++ PClock :: PSignal pid SIGTERM :: PExec pid :: PRemove file :: log) as (more & ->).
  { step_in H; [injection H as _ <-; by exists [PAlive pid]|]. step_in H; [injection H as _ <-; by exists [PExec pid; PAlive pid]|].
    injection H as _ <-. by exists [PSignal pid SIGKILL; PExec pid; PAlive pid]. }
  exists (more ++ new ++ [PClock; PSignal pid SIGTERM; PExec pid]). by rewrite <- !app_assoc.
Qed.

Lemma kill_files_remove env binary euid dir files : forall log names log',
  kill_files env binary euid dir files log = Some (names, log') ->
  (exists new, log' = new ++ log) /\ forall f, f ∈ files -> PRemove f ∈ log'.
Proof.
  induction files as [|f files IH]; cbn; intros log names log' H.
  { injection H as <- <-. split; [by exists []|]. intros f Hf. by apply elem_of_nil in Hf. }
  destruct (kill_file _ _ _ _ _ _) as [[killed l1]|] eqn:E1; [|done]. apply kill_file_removes in E1 as (n1 & ->).
  destruct (kill_files _ _ _ _ _ _) as [[names2 l2]|] eqn:E2; [|done]. injection H as _ <-. apply IH in E2 as [(n2 & ->) Hf].
  split; [exists (n2 ++ n1 ++ [PRemove f]); by rewrite <- !app_assoc|].
  intros g [->|Hg]%elem_of_cons; [|by apply Hf]. rewrite elem_of_app. right. rewrite elem_of_app. right. by left.
Qed.

Lemma files_left_lookup log dir f : files_left dir log !! f = if bool_decide (PRemove f ∈ log) then None else dir !! f.
Proof.
  induction log as [|e log IH]; [done|]. unfold files_left in *. cbn [foldr].
  destruct (decide (e = PRemove f)) as [->|Hne].
  - rewrite lookup_delete_eq, bool_decide_eq_true_2; [done|]. by left.
  - rewrite (bool_decide_ext _ (PRemove f ∈ log)) by (rewrite elem_of_cons; intuition congruence). rewrite <- IH.
    destruct e; try done. apply lookup_delete_ne. congruence.
Qed.

Lemma elem_of_pid_files dir f : f ∈ pid_files dir <-> is_Some (dir !! f) /\ has_suffix pidSuffix f = true.
Proof. unfold pid_files. by rewrite elem_of_filter_bool, elem_of_sorted_keys. Qed.

Lemma no_pid_files env binary euid dir names log :
  KillStaleProcesses env binary euid dir = Some (names, log) -> pid_files (files_left dir log) = [].
Proof.
  intros H. apply kill_files_remove in H as [_ H]. apply elem_of_nil_inv. intros f [Hf Hs]%elem_of_pid_files.
  rewrite files_left_lookup in Hf. case_bool_decide as Hin; [by destruct Hf|]. apply Hin, H, elem_of_pid_files. done.
Qed.

(** Records that cannot be read are removed, the others are recovered and removed. *)
Lemma drop_corrupt names : forall (dir : States) n,
  foldl (fun d n => if bool_decide (d !! n = Some None) then delete n d else d) dir names !! n
  = if bool_decide (n ∈ names /\ dir !! n = Some None) then None else dir !! n.
Proof.
  induction names as [|a names IH]; intros dir n; cbn [foldl].
  { rewrite bool_decide_eq_false_2; [done|]. intros [H _]. by apply elem_of_nil in H. }
  rewrite IH. clear IH. destruct (bool_decide_reflect (dir !! a = Some None)) as [Ha|Ha].
  - destruct (decide (n = a)) as [->|Hne].
    + rewrite lookup_delete_eq, (bool_decide_eq_true_2 (a ∈ a :: names /\ _)) by (split; [by left|done]). by case_bool_decide.
    + rewrite lookup_delete_ne by done. apply (f_equal (fun b : bool => if b then None else dir !! n)).
      apply bool_decide_ext. rewrite elem_of_cons. intuition congruence.
  - apply (f_equal (fun b : bool => if b then None else dir !! n)). apply bool_decide_ext. rewrite elem_of_cons.
    intuition congruence.
Qed.

Lemma elem_of_records dir st : st ∈ fst (LoadActiveState dir) <-> exists n, has_suffix ".json" n = true /\ dir !! n = Some (Some st).
Proof.
  unfold LoadActiveState. cbn [fst]. rewrite list_elem_of_omap. split.
  - intros (n & Hin & Hl). exists n. apply elem_of_filter_bool in Hin as [Hin Hs]. split; [done|].
    destruct (dir !! n) as [[]|]; cbn in Hl; congruence.
  - intros (n & Hs & Hl). exists n. rewrite Hl. split; [|done]. apply elem_of_filter_bool. split; [|done].
    apply elem_of_sorted_keys. by eexists.
Qed.

Lemma no_records dir names ifaces dir' : RecoverFromCrash dir = (names, ifaces, dir') -> fst (LoadActiveState dir') = [].
Proof.
  unfold RecoverFromCrash. destruct (LoadActiveState dir) as [states d1] eqn:E. intros H.
  destruct (Nat.eqb_spec (length states) 0) as [Hl|]; [|by injection H as <- <- <-].
  injection H as <- <- <-. apply elem_of_nil_inv. intros st (n & Hs & Hn)%elem_of_records.
  apply length_zero_iff_nil in Hl. subst states. unfold LoadActiveState in E. injection E as E1 E2. subst d1.
  rewrite drop_corrupt in Hn. case_bool_decide; [done|].
  assert (st ∈ fst (LoadActiveState dir)) as Hin by (apply elem_of_records; by exists n).
  unfold LoadActiveState in Hin. cbn [fst] in Hin. rewrite E1 in Hin. by apply elem_of_nil in Hin.
Qed.

(** ** A machine and its helpers *)

Section Life.
(** pf as it was, the user's DNS settings, and which services obey networksetup. *)
Context (pf0 : PfHost) (oD oS : Settings) (obeys : string -> bool).

(** The commands of a start whose failure the source only logs succeed. *)
Definition env_ok (env : StartEnv) : Prop :=
  reliable (se_pf env) = true /\ good_net obeys (se_net env) /\ clock_runs (se_proc env).

(** What pf and the services show, and no journal. *)
Definition healthy (m : Machine) : Prop :=
  mc_pf m = pf0 /\ w_journal (mc_dns m) = None
  /\ forall svc, setting (w_DNS (mc_dns m)) svc = setting oD svc /\ setting (w_Search (mc_dns m)) svc = setting oS svc.

(** An operation on the DNS. *)
Inductive dns_step : Dns -> Dns -> Prop :=
| step_SetDNS n d holder entries : good_net obeys n -> dns_step d (snd (SetDNS n d holder entries))
| step_RestoreDNS n d holder : good_net obeys n -> dns_step d (RestoreDNS n d holder)
| step_reapply n d : good_net obeys n -> dns_step d (reapplyDNSIfDrifted n d).

(** The states of pf during an operation. *)
Inductive pf_step (f : DarwinFirewall) (h : PfHost) : DarwinFirewall -> list PfHost -> Prop :=
| step_Apply o rs r f' hs : reliable o = true -> Apply o rs f h = (r, f', hs) -> pf_step f h f' hs
| step_Cleanup o f' hs : reliable o = true -> Pf.Cleanup o f h = (f', hs) -> pf_step f h f' hs.

Definition with_dns (p : Process) (m : Machine) (d : Dns) : Process * Machine :=
  (p <| pr_holders := dnsHolders d |> <| pr_savedDNS := dnsSavedDNS d |> <| pr_savedSearch := dnsSavedSearch d |>,
   m <| mc_dns := dnsWorld d |>).

(** Starts, whole or cut short; operations of a running helper; deaths, with an operation on pf and one on the
    DNS cut short; whatever is written to the records and pid files. *)
Inductive life : Machine -> option Process -> Prop :=
| life_new m : healthy m -> life m None
| life_start env m m' p cmds : life m None -> env_ok env -> startup env m = Some (m', p, cmds) -> life m' (Some p)
| life_start_cut env m m' : life m None -> env_ok env -> startup_cut env m m' -> life m' None
| life_pf m p f' hs : life m (Some p) -> pf_step (pr_fw p) (mc_pf m) f' hs ->
    life (m <| mc_pf := final hs (mc_pf m) |>) (Some (p <| pr_fw := f' |>))
| life_dns m p d' : life m (Some p) -> dns_step (dns_of p m) d' ->
    life (snd (with_dns p m d')) (Some (fst (with_dns p m d')))
| life_files m p recs pids : life m (Some p) -> life (m <| mc_records := recs |> <| mc_pids := pids |>) (Some p)
| life_death m p f' hs pf n services s (release : bool) l : life m (Some p) ->
    pf_step (pr_fw p) (mc_pf m) f' hs -> pf ∈ hs ->
    good_net obeys n -> holders_ok s ->
    (let d := (dns_of p m) <| dnsHolders := s |> in
     cut_short (snd (if release then releaseOrReapplyLocked n d services else applyDNSUnionLocked n d services)) l) ->
    life (m <| mc_pf := pf |> <| mc_dns ::= fun w => apply_effects n w l |>) None.

(** pf and the DNS can be restored, and a running helper knows how. *)
Definition life_inv (m : Machine) (p : option Process) : Prop :=
  match p with
  | None => recoverable pf0 (mc_pf m) /\ restorable oD oS obeys (mc_dns m)
  | Some p => hist_ok pf0 (pr_fw p) (mc_pf m) /\ dns_inv oD oS obeys (dns_of p m)
  end.

Context (Ha : h_anchor pf0 = None) (Hf : h_file pf0 = None).

Lemma startup_heals env m : env_ok env -> life_inv m None ->
  exists m' p cmds, startup env m = Some (m', p, cmds) /\ healthy m' /\ p = new_process
  /\ fst (LoadActiveState (mc_records m')) = [] /\ pid_files (mc_pids m') = [].
Proof.
  intros (Ho & Hn & Hc) [Hp Hd]. unfold startup.
  destruct (kill_files_spec (se_proc env) (se_binary env) (se_euid env) (mc_pids m) (pid_files (mc_pids m)) Hc (fun _ H => H) [] I)
    as (names & log & Hk & _). unfold KillStaleProcesses. rewrite Hk.
  destruct (RecoverFromCrash _) as [[rn ifaces] recs] eqn:Er. do 3 eexists. split; [reflexivity|].
  destruct (restart_whole oD oS obeys (se_net env) (mc_dns m) Hn Hd) as [Hj Hs].
  split; [split; [|split]|split; [done|split]].
  - by apply recover_restores.
  - exact Hj.
  - exact Hs.
  - by apply (no_records _ _ _ _ Er).
  - by apply (no_pid_files _ _ _ _ _ _ Hk).
Qed.

Lemma healthy_started m : healthy m -> life_inv m (Some new_process).
Proof.
  intros (Hp & Hj & Hs). cbn. split; [by rewrite Hp|]. apply reach_inv. by apply dr_start.
Qed.

Lemma healthy_dead m : healthy m -> life_inv m None.
Proof. intros (Hp & Hj & Hs). split; [left; by rewrite Hp|]. by apply original_restorable. Qed.

Lemma life_ok m p : life m p -> life_inv m p.
Proof.
  induction 1 as [m Hh|env m m' p cmds _ IH He Hs|env m m' _ IH (Ho & Hn & _) Hc|m p f' hs _ [IHp IHd] Hp|m p d' _ [IHp IHd] Hd
    |m p recs pids _ IH|m p f' hs pf n services s release l _ [IHp IHd] Hp Hin Hn Hs Hl].
  - by apply healthy_dead.
  - destruct (startup_heals env m He IH) as (m1 & p1 & c1 & E & Hh & -> & _). rewrite E in Hs. injection Hs as <- <- <-.
    by apply healthy_started.
  - destruct IH as [Hp Hd]. assert (recoverable pf0 (RecoverStaleState (se_pf env) (mc_pf m))) as Hr.
    { left. by rewrite (recover_restores pf0 _ _ Ha Hf Ho Hp). }
    destruct Hc as [later log names Hk|pids pf Hin|pids recs Hr'|pids l Hl]; (split; [|try exact Hd]); try exact Hr; cbn.
    + exact Hp.
    + by apply (recover_cut pf0 (se_pf env) (mc_pf m)).
    + by apply restart_cut.
  - split; [|exact IHd]. destruct Hp as [o rs r f' hs Ho Hap|o f' hs Ho Hap].
    + by apply (apply_ok pf0 o rs (pr_fw p) (mc_pf m) r f' hs).
    + by apply (teardown_ok pf0 o (pr_fw p) (mc_pf m) f' hs).
  - split; [exact IHp|]. assert (dns_of (fst (with_dns p m d')) (snd (with_dns p m d')) = d') as -> by (by destruct d').
    destruct Hd as [n d holder entries Hn|n d holder Hn|n d Hn].
    + by apply SetDNS_inv.
    + by apply RestoreDNS_inv.
    + by apply reapply_inv.
  - exact IH.
  - split; cbn.
    + destruct Hp as [o rs r f' hs Ho Hap|o f' hs Ho Hap].
      * by apply (apply_ok pf0 o rs (pr_fw p) (mc_pf m) r f' hs).
      * by apply (teardown_ok pf0 o (pr_fw p) (mc_pf m) f' hs).
    + by apply (operation_cut oD oS obeys n (dns_of p m) services s release).
Qed.

(** C22: The machine survives its helpers.  However many helpers were started and died, each at any moment of its work
    (a ruleset being loaded, parallel networksetup calls under way) or of its own recovery, the next start that
    completes its recovery ends, and leaves pf without our rules and on only if it was on before, every network
    service with the user's DNS servers and search domains, and no journal, crash record or pid file. *)
Theorem restart_heals (env : StartEnv) (m : Machine) :
  life m None -> env_ok env ->
  exists m' p cmds, startup env m = Some (m', p, cmds) /\ healthy m'
  /\ fst (LoadActiveState (mc_records m')) = [] /\ pid_files (mc_pids m') = [].
Proof.
  intros Hl%life_ok He. destruct (startup_heals env m He Hl) as (m' & p & cmds & H1 & H2 & _ & H3). by exists m', p, cmds.
Qed.
End Life.

(** A laptop whose helper died right after its kill switch was loaded and Wi-Fi's DNS replaced. *)
Definition laptop_pf : PfHost := MkHostPf None false None.

Definition kill_switch_rules : Ruleset := MkRuleset true [] false [] [].

Definition laptop : Machine :=
  MkMachine crashed_dir (final (snd (Apply all_succeed kill_switch_rules new_firewall laptop_pf)) laptop_pf)
    {["work.json" := Some (MkActive "work" "utun4")]} home_world.

Definition netstat_text : string :=
  "Destination Gateway Flags Netif Expire" +:+ String newline "default 192.168.1.1 UGSc en0" +:+ String newline "203.0.113.5 192.168.1.1 UGHS en0".

Definition laptop_env : StartEnv :=
  MkStartEnv stubborn openvpn_path 0 all_succeed (fun _ => Some netstat_text) (fun _ _ => true) one_net.

Lemma laptop_env_ok : env_ok (fun _ => true) laptop_env.
Proof. split; [reflexivity|split; [apply one_net_good|apply stubborn_clock]]. Qed.

Definition fresh : Machine := MkMachine ∅ laptop_pf ∅ home_world.

Lemma fresh_starts : startup laptop_env fresh = Some (fresh, new_process, []).
Proof. vm_compute. reflexivity. Qed.

Lemma laptop_before : life laptop_pf home_dns ∅ (fun _ => true) fresh None.
Proof. apply life_new. split; [reflexivity|split; [reflexivity|]]. intros svc. by split. Qed.

Lemma laptop_dead : life laptop_pf home_dns ∅ (fun _ => true) laptop None.
Proof.
  pose proof (life_start _ _ _ _ _ _ _ _ _ laptop_before laptop_env_ok fresh_starts) as H.
  apply (life_files _ _ _ _ _ _ {["work.json" := Some (MkActive "work" "utun4")]} crashed_dir) in H.
  set (hs := snd (Apply all_succeed kill_switch_rules new_firewall laptop_pf)).
  refine (life_death _ _ _ _ _ _ (MkFw true false) hs (final hs laptop_pf) one_net ["Wi-Fi"] no_holders false [] H _ _ one_net_good no_holders_ok _).
  - apply (step_Apply _ _ all_succeed kill_switch_rules None); [reflexivity|]. vm_compute. reflexivity.
  - vm_compute. right. right. right. left.
  - apply cut_before.
Qed.

Lemma restart_heals_witness :
  h_on (mc_pf laptop) = true /\ exists m' p cmds, startup laptop_env laptop = Some (m', p, cmds)
  /\ healthy laptop_pf home_dns ∅ m' /\ fst (LoadActiveState (mc_records m')) = [] /\ pid_files (mc_pids m') = [].
Proof.
  split; [vm_compute; reflexivity|].
  exact (restart_heals laptop_pf home_dns ∅ (fun _ => true) eq_refl eq_refl laptop_env laptop laptop_dead laptop_env_ok).
Defined.

(** ** What a start does not bring back *)

Lemma clean_up_nothing env ifaces :
  (forall i family out, i ∈ ifaces -> family ∈ ["inet"; "inet6"] -> se_routes env family = Some out -> interface_routes no_header i family (lines out) = []) ->
  clean_up env ifaces = [].
Proof.
  intros H. unfold clean_up.
  assert (forall mgr, bypassEndpoints mgr = [] -> snd (foldl (fun '(mgr, log) iface =>
            NetRoutes.Cleanup (se_ok env) mgr iface (se_routes env "inet") (se_routes env "inet6") log) (mgr, []) ifaces) = []) as G;
    [|by apply G].
  induction ifaces as [|i ifaces IH]; intros mgr Hm; [done|]. cbn [foldl]. unfold NetRoutes.Cleanup at 2. rewrite Hm. cbn [foldl].
  assert (forall family, family ∈ ["inet"; "inet6"] -> deleteInterfaceRoutes (se_ok env) i family (se_routes env family) [] = []) as Hd.
  { intros family Hfam. unfold deleteInterfaceRoutes. destruct (se_routes env family) as [out|] eqn:E; [|done]. by rewrite (H i family out) by (done || by left). }
  rewrite (Hd "inet"), (Hd "inet6") by set_solver. apply IH; [|done]. intros j family out Hj. apply H. by right.
Qed.

(** The recovery of a tunnel whose device died with its helper runs no command at all: the routes of the device went
    with it, and the new manager that is asked to clean up knows of no bypass route.  The host routes to
    the peers, blackholes included, stay. *)
Theorem recovery_runs_nothing (env : StartEnv) (m m' : Machine) (p : Process) (cmds : list Cmd) :
  startup env m = Some (m', p, cmds) ->
  (forall st family out, st ∈ fst (LoadActiveState (mc_records m)) -> family ∈ ["inet"; "inet6"] -> se_routes env family = Some out ->
     interface_routes no_header (as_InterfaceName st) family (lines out) = []) ->
  cmds = [].
Proof.
  unfold startup. intros H Hr. destruct (KillStaleProcesses _ _ _ _) as [[names log]|]; [|done].
  destruct (RecoverFromCrash _) as [[rn ifaces] recs] eqn:E. injection H as <- <- <-.
  apply clean_up_nothing. intros i family out Hi. change (RecoverFromCrash (mc_records m) = (rn, ifaces, recs)) in E. unfold RecoverFromCrash in E.
  destruct (LoadActiveState (mc_records m)) as [states d1]. cbn [fst] in Hr.
  destruct (_ =? _)%nat; injection E as <- <- <-; [by apply elem_of_nil in Hi|].
  apply elem_of_filter_bool in Hi as [Hi _]. apply list_elem_of_fmap in Hi as (st & -> & Hst). exact (Hr st family out Hst).
Qed.

Lemma recovery_runs_nothing_witness :
  exists m' p cmds, startup laptop_env laptop = Some (m', p, cmds) /\ mc_records m' = ∅ /\ cmds = [].
Proof.
  assert ((fun r => mc_records (fst (fst r))) <$> startup laptop_env laptop = Some ∅) as Hr by (vm_compute; reflexivity).
  destruct (startup laptop_env laptop) as [[[m' p] cmds]|] eqn:E; [|discriminate]. injection Hr as Hr.
  exists m', p, cmds. split; [reflexivity|]. split; [exact Hr|].
  apply (recovery_runs_nothing laptop_env laptop m' p cmds E). intros st family out Hst Hfam [= <-].
  assert (fst (LoadActiveState (mc_records laptop)) = [MkActive "work" "utun4"]) as Hl by (vm_compute; reflexivity).
  rewrite Hl in Hst. apply list_elem_of_singleton in Hst as ->. clear Hl Hr E.
  apply elem_of_cons in Hfam as [->|[->|Hfam]%elem_of_cons]; [vm_compute; reflexivity..|by apply elem_of_nil in Hfam].
Defined.
