(* ===== verification/Bridge.v ===== *)
(** * Events on their way to the window: internal/gui/event_bridge.go and log_handler.go, Subscribe of internal/ipc/client.go

    What the bridge does with an event of the helper; how it stays subscribed while clients come and go; and
    the log of the application itself.  Payloads are decoded, [None] when that fails. *)

From S2P Require Import Prelude GoStrings Domain History HelperMain.

(** ** handleEvent *)

Record LogEntry := MkLog { le_Level : string; le_Source : string; le_Message : string }.

Inductive HelperEvent :=
| EvStatus (st : option ConnectionStatus) | EvReconnect (reconnecting : option bool) | EvLog (e : option LogEntry)
| EvAuthPrompt (tunnel : option string) | EvOther.

(** What the bridge tells the frontend, the tray and the session log. *)
Inductive BridgeEffect :=
| BStatus (st : ConnectionStatus) | BTray (st : ConnectionStatus)
| BReconcile (active : list string) (rx tx : gmap string Z) (reason : string)
| BLog (e : LogEntry) | BShowDock | BAuthPrompt (tunnel : string).

Record Bridge := MkBridge { br_reconnecting : bool; br_stopped : bool }.

Definition new_bridge : Bridge := MkBridge false false.

Definition stopForwarding (b : Bridge) : Bridge := MkBridge (br_reconnecting b) true.

Definition status_bytes (bytes : ConnectionStatus -> Z) (st : ConnectionStatus) : gmap string Z :=
  let m := foldl (fun m ts => <[cs_TunnelName ts := bytes ts]> m) ∅ (cs_Tunnels st) in
  if cs_TunnelName st =s "" then m else <[cs_TunnelName st := bytes st]> m.

Definition handleEvent (b : Bridge) (ev : HelperEvent) : Bridge * list BridgeEffect :=
  if br_stopped b then (b, [])
  else match ev with
       | EvStatus (Some st) =>
           (b, [BStatus st; BTray st;
                BReconcile (cs_ActiveTunnels st) (status_bytes cs_RxBytes st) (status_bytes cs_TxBytes st)
                  (if br_reconnecting b then "health_check" else "reconnect")])
       | EvReconnect (Some r) => (MkBridge r (br_stopped b), [])
       | EvLog (Some e) => (b, [BLog e])
       | EvAuthPrompt (Some tunnel) => (b, [BShowDock; BAuthPrompt tunnel])
       | _ => (b, [])
       end.

(** The event loop: the handler is called for one event after the other. *)
Fixpoint handle_events (b : Bridge) (evs : list HelperEvent) : Bridge * list BridgeEffect :=
  match evs with
  | [] => (b, [])
  | ev :: evs => let '(b, out) := handleEvent b ev in let '(b', out') := handle_events b evs in (b', out ++ out')
  end.

(** ** The application's own log *)

Record guiLogHandler := MkGuiLog { gl_level : LogLevel; gl_app : bool; gl_attrs : list (string * string) }.

Definition gui_Enabled (h : guiLogHandler) (l : LogLevel) : bool := (level_value (gl_level h) <=? level_value l)%Z.

Definition parseGUILevel (s : string) : LogLevel := parseLevel s.

Definition setGUILogLevel (s : string) (h : guiLogHandler) : guiLogHandler := MkGuiLog (parseGUILevel s) (gl_app h) (gl_attrs h).

Definition bindApp (h : guiLogHandler) : guiLogHandler := MkGuiLog (gl_level h) true (gl_attrs h).

Definition gui_WithAttrs (h : guiLogHandler) (attrs : list (string * string)) : guiLogHandler :=
  MkGuiLog (gl_level h) (gl_app h) (gl_attrs h ++ attrs).

Definition gui_WithGroup (h : guiLogHandler) : guiLogHandler := h.

Definition level_text (l : LogLevel) : string :=
  match l with LevelDebug => "debug" | LevelInfo => "info" | LevelWarn => "warn" | LevelError => "error" end.

(** The entry for the viewer, [None] while there is no window. *)
Definition gui_Handle (h : guiLogHandler) (l : LogLevel) (message : string) (attrs : list (string * string)) : option LogEntry :=
  let line := foldl (fun b '(k, v) => b +:+ " " +:+ k +:+ "=" +:+ v) message (gl_attrs h ++ attrs) in
  if gl_app h then Some (MkLog (level_text l) "gui" line) else None.

(** SetLogLevel of the service: the app's log, if it has a handler by then, and the helper's, if it can be reached. *)
Definition SetLogLevel (level : string) (installed reached : bool) (g : guiLogHandler) (h : broadcastHandler)
    : guiLogHandler * broadcastHandler :=
  (if installed then setGUILogLevel level g else g, if reached then handleSetLogLevel level h else h).

(** Both logs then show the same. *)
Lemma SetLogLevel_agree level g h l :
  let '(g', h') := SetLogLevel level true true g h in gui_Enabled g' l = Enabled h' l.
Proof. done. Qed.

(** ** Subscriptions

    Clients and event streams are numbered.  [sb_conn] is a client's eventConn, [sb_open] the streams whose
    connection is open: their goroutine hands events to the bridge. *)

Record Subs := MkSubs {
  sb_current : option nat;        (* the holder's client *)
  sb_clients : nat;
  sb_conn : gmap nat nat;
  sb_owner : list nat;            (* the client of a stream *)
  sb_open : gset nat;
  sb_closed : gset nat;
  subscribedTo : option nat
}.

#[export] Instance eta_subs : Eta Subs := fun s =>
  MkSubs (sb_current s) (sb_clients s) (sb_conn s) (sb_owner s) (sb_open s) (sb_closed s) (subscribedTo s).

Definition new_subs : Subs := MkSubs None 0 ∅ [] ∅ ∅ None.

(** eventConn is taken out and closed: the beginning of Subscribe, and part of Close. *)
Definition drop_conn (c : nat) (s : Subs) : Subs :=
  match sb_conn s !! c with
  | Some e => s <| sb_conn ::= delete c |> <| sb_open ::= fun o => o ∖ {[e]} |>
  | None => s
  end.

(** Client.Close, once for each client. *)
Definition close_client (c : nat) (s : Subs) : Subs :=
  if bool_decide (c ∈ sb_closed s) then s else (drop_conn c s) <| sb_closed ::= fun l => {[c]} ∪ l |>.

(** ClientHolder.Set with a new client, and Close. *)
Definition close_current (s : Subs) : Subs := match sb_current s with Some c => close_client c s | None => s end.

Definition install_client (s : Subs) : Subs :=
  (close_current s) <| sb_current := Some (sb_clients s) |> <| sb_clients := S (sb_clients s) |>.

Definition drop_client (s : Subs) : Subs := (close_current s) <| sb_current := None |>.

Definition IsSubscribed (s : Subs) : bool :=
  match sb_current s with None => true | c => bool_decide (subscribedTo s = c) end.

(** The rest of Subscribe, once the helper acknowledged. *)
Definition stream_opened (c : nat) (s : Subs) : Subs :=
  let e := length (sb_owner s) in
  s <| sb_owner ::= fun l => l ++ [c] |> <| sb_open ::= fun o => {[e]} ∪ o |> <| sb_conn ::= <[c := e]> |>.

(** Where a goroutine is in Set and resubscribe; [SRecover]: it found the helper dead and brings up another one. *)
Inductive SubPc :=
| SIdle | SResub | SGot (c : nat) | SSubscribing (c : nat) | SDialling (c : nat) | SFailed (c : nat) | SRecover.

#[export] Instance sub_pc_eq_dec : EqDecision SubPc.
Proof. solve_decision. Defined.

(** One step; [ok]: the helper acknowledges the subscription. *)
Definition resub_step (ok : bool) (s : Subs) (pc : SubPc) : Subs * SubPc :=
  match pc with
  | SIdle => (s, SIdle)
  | SResub => match sb_current s with Some c => (s, SGot c) | None => (s, SIdle) end
  | SGot c => if bool_decide (subscribedTo s = Some c) then (s, SIdle) else (s <| subscribedTo := Some c |>, SSubscribing c)
  | SSubscribing c => (drop_conn c s, SDialling c)
  | SDialling c => if ok then (stream_opened c s, SIdle) else (s, SFailed c)
  | SFailed _ => (s <| subscribedTo := None |>, SIdle)
  | SRecover => (s, SRecover)
  end.

(** The application: the goroutine of the first start, which installs one client and subscribes, before which it
    is at [None]; the health monitor, which does nothing without a client; a connection that breaks; quitting. *)
Record App := MkApp { ap_subs : Subs; ap_boot : option SubPc; ap_monitor : SubPc }.

Definition new_app : App := MkApp new_subs None SIdle.

Inductive app_step (a : App) : App -> Prop :=
| as_boot : ap_boot a = None -> app_step a (MkApp (install_client (ap_subs a)) (Some SResub) (ap_monitor a))
| as_booting ok pc : ap_boot a = Some pc ->
    app_step a (let '(s, pc) := resub_step ok (ap_subs a) pc in MkApp s (Some pc) (ap_monitor a))
| as_down : ap_monitor a = SIdle -> is_Some (sb_current (ap_subs a)) -> app_step a (MkApp (ap_subs a) (ap_boot a) SRecover)
| as_gave_up : ap_monitor a = SRecover -> app_step a (MkApp (ap_subs a) (ap_boot a) SIdle)
| as_recovered : ap_monitor a = SRecover ->
    app_step a (MkApp (install_client (ap_subs a)) (ap_boot a) SResub)
| as_tick : ap_monitor a = SIdle -> IsSubscribed (ap_subs a) = false -> app_step a (MkApp (ap_subs a) (ap_boot a) SResub)
| as_monitor ok : app_step a (let '(s, pc) := resub_step ok (ap_subs a) (ap_monitor a) in MkApp s (ap_boot a) pc)
| as_lost c : (c < sb_clients (ap_subs a))%nat -> app_step a (MkApp (close_client c (ap_subs a)) (ap_boot a) (ap_monitor a))
| as_broken e : app_step a (MkApp ((ap_subs a) <| sb_open ::= fun o => o ∖ {[e]} |>) (ap_boot a) (ap_monitor a))
| as_quit : app_step a (MkApp (drop_client (ap_subs a)) (ap_boot a) (ap_monitor a)).

(** ** Facts

    [events_once]: a client never has two event streams, so that no event of a helper arrives twice through it.
    [two_streams]: through two clients it does, when one is subscribed after it was replaced.  [log_in_step]: the
    session log follows the events. *)

#[local] Set Warnings "-clear-no-such-hyp".

(** ** One stream for each client *)

(** In Subscribe, for a client. *)
Definition in_subscribe (c : nat) (pc : SubPc) : Prop := pc = SSubscribing c \/ pc = SDialling c.
Definition claimed (c : nat) (pc : SubPc) : Prop := in_subscribe c pc \/ pc = SFailed c.
Definition client_of (pc : SubPc) : option nat :=
  match pc with SGot c | SSubscribing c | SDialling c | SFailed c => Some c | _ => None end.

Definition boot_pc (a : App) : SubPc := default SIdle (ap_boot a).

(** The streams: those of a client are its eventConn, or closed. *)
Record streams_ok (s : Subs) : Prop := {
  so_conn : forall e c, e ∈ sb_open s -> sb_owner s !! e = Some c -> sb_conn s !! c = Some e;
  so_known : forall e, e ∈ sb_open s -> (e < length (sb_owner s))%nat;
  so_owned : forall c e, sb_conn s !! c = Some e -> sb_owner s !! e = Some c
}.

(** No open stream of the client. *)
Definition quiet (c : nat) (s : Subs) : Prop := forall e, e ∈ sb_open s -> sb_owner s !! e <> Some c.

Lemma drop_conn_spec c s : streams_ok s ->
  streams_ok (drop_conn c s) /\ quiet c (drop_conn c s) /\ (forall d, quiet d s -> quiet d (drop_conn c s)).
Proof.
  intros [H1 H2 H3]. unfold drop_conn. destruct (sb_conn s !! c) as [e0|] eqn:E.
  - split; [split; cbn|split].
    + intros e d He Ho. apply elem_of_difference in He as [He Hne]. specialize (H1 e d He Ho). rewrite lookup_delete_ne; [done|].
      intros ->. rewrite E in H1. injection H1 as ->. apply Hne. by apply elem_of_singleton.
    + intros e He. apply elem_of_difference in He as [He _]. by apply H2.
    + intros d e Hd. apply lookup_delete_Some in Hd as [_ Hd]. by apply H3.
    + intros e He Ho. cbn in *. apply elem_of_difference in He as [He Hne]. specialize (H1 e c He Ho). rewrite E in H1. injection H1 as ->.
      apply Hne. by apply elem_of_singleton.
    + intros d Hd e He. cbn in *. apply elem_of_difference in He as [He _]. by apply Hd.
  - split; [done|]. split; [|done]. intros e He Ho. specialize (H1 e c He Ho). congruence.
Qed.

Lemma close_client_spec c s : streams_ok s -> streams_ok (close_client c s) /\ (forall d, quiet d s -> quiet d (close_client c s)).
Proof.
  intros Hs. unfold close_client. case_bool_decide; [done|]. destruct (drop_conn_spec c s Hs) as ([H1 H2 H3] & _ & Hq).
  split; [by split|]. intros d Hd. exact (Hq d Hd).
Qed.

Lemma stream_opened_spec c s : streams_ok s -> quiet c s ->
  streams_ok (stream_opened c s) /\ (forall d, d <> c -> quiet d s -> quiet d (stream_opened c s)).
Proof.
  intros [H1 H2 H3] Hq. unfold stream_opened. split; [split; cbn|].
  - intros e d He Ho. apply elem_of_union in He as [He|He].
    + apply elem_of_singleton in He as ->. rewrite lookup_app_r, Nat.sub_diag in Ho by lia. injection Ho as <-. apply lookup_insert_eq.
    + pose proof (H2 e He) as Hl. rewrite lookup_app_l in Ho by done. rewrite lookup_insert_ne; [by apply H1|]. intros <-. by apply (Hq e).
  - intros e He. rewrite length_app. cbn. apply elem_of_union in He as [He|He]; [apply elem_of_singleton in He; lia|]. specialize (H2 e He). lia.
  - intros d e Hd. apply lookup_insert_Some in Hd as [[<- <-]|[_ Hd]]; [by rewrite lookup_app_r, Nat.sub_diag by lia|].
    specialize (H3 d e Hd). by apply lookup_app_l_Some.
  - intros d Hne Hd e He Ho. cbn in *. apply elem_of_union in He as [He|He].
    + apply elem_of_singleton in He as ->. rewrite lookup_app_r, Nat.sub_diag in Ho by lia. by injection Ho.
    + rewrite lookup_app_l in Ho by (by apply H2). by apply (Hd e).
Qed.

(** ** Two goroutines

    The monitor is at the newest client; the goroutine of the first start may lag behind. *)
Record app_ok (a : App) : Prop := {
  ao_streams : streams_ok (ap_subs a);
  ao_none : ap_boot a = None -> sb_current (ap_subs a) = None;
  ao_boot_started : ap_boot a = None -> ap_monitor a = SIdle;
  ao_current : forall c, sb_current (ap_subs a) = Some c -> S c = sb_clients (ap_subs a);
  ao_newest : forall c, client_of (ap_monitor a) = Some c -> S c = sb_clients (ap_subs a);
  ao_boot_old : forall c, client_of (boot_pc a) = Some c -> (c < sb_clients (ap_subs a))%nat;
  ao_apart : forall c, claimed c (boot_pc a) -> ~ claimed c (ap_monitor a);
  ao_boot_mark : forall c, claimed c (boot_pc a) -> S c = sb_clients (ap_subs a) -> subscribedTo (ap_subs a) = Some c;
  ao_monitor_mark : forall c, claimed c (ap_monitor a) -> boot_pc a = SResub \/ (exists d, boot_pc a = SGot d) ->
    subscribedTo (ap_subs a) = Some c;
  ao_quiet_boot : forall c, boot_pc a = SDialling c -> quiet c (ap_subs a);
  ao_quiet_monitor : forall c, ap_monitor a = SDialling c -> quiet c (ap_subs a)
}.

(** What a step leaves alone. *)
Lemma resub_step_subs ok s pc : streams_ok s -> (forall c, pc = SDialling c -> quiet c s) ->
  let '(s', pc') := resub_step ok s pc in
  streams_ok s' /\ sb_current s' = sb_current s /\ sb_clients s' = sb_clients s
  /\ (forall d, ~ in_subscribe d pc -> quiet d s -> quiet d s')
  /\ (forall c, pc' = SDialling c -> quiet c s')
  /\ (forall d, client_of pc' = Some d -> client_of pc = Some d \/ sb_current s = Some d).
Proof.
  intros Hs Hq. destruct pc as [| |c|c|c|c|]; cbn.
  - by split_and!.
  - destruct (sb_current s) as [c|] eqn:E; split_and!; try done. intros d [= ->]. by right.
  - case_bool_decide; split_and!; try done; [by destruct Hs|]. intros d [= ->]. by left.
  - destruct (drop_conn_spec c s Hs) as (H1 & H2 & H3). unfold drop_conn in *. destruct (sb_conn s !! c); split_and!; try done;
      try (intros d _; exact (H3 d)); try (intros d [= <-]; exact H2); intros d [= ->]; by left.
  - destruct ok; [|split_and!; try done; intros d [= ->]; by left]. specialize (Hq c eq_refl).
    destruct (stream_opened_spec c s Hs Hq) as [H1 H2]. split_and!; try done. intros d Hd Hqd. apply H2; [|done]. intros ->. apply Hd. by right.
  - split_and!; try done. by destruct Hs.
  - by split_and!.
Qed.

Lemma boot_known a : app_ok a -> ap_boot a = None -> boot_pc a = SIdle /\ ap_monitor a = SIdle /\ sb_current (ap_subs a) = None.
Proof. intros Ha E. split; [unfold boot_pc; by rewrite E|]. split; [by apply ao_boot_started|by apply ao_none]. Qed.

Lemma claimed_client c pc : claimed c pc -> client_of pc = Some c.
Proof. intros [[->| ->]| ->]; done. Qed.

Ltac by_claims := repeat match goal with
  | H : claimed _ SIdle |- _ => apply claimed_client in H; discriminate H
  | H : claimed _ SResub |- _ => apply claimed_client in H; discriminate H
  | H : claimed _ SRecover |- _ => apply claimed_client in H; discriminate H
  | H : claimed _ (SGot _) |- _ => destruct H as [[H|H]|H]; discriminate H
  | H : _ \/ (exists d, _ = SGot d) |- _ => destruct H as [H|[? H]]; try discriminate H
  end.

(** The goroutine of the first start. *)
Lemma booting_ok a ok pc : app_ok a -> ap_boot a = Some pc ->
  app_ok (let '(s, pc) := resub_step ok (ap_subs a) pc in MkApp s (Some pc) (ap_monitor a)).
Proof.
  intros Ha Eb. destruct Ha as [H1 H2 H3 H4 H5 H6 H7 H8 H9 H10 H11]. assert (Ep : boot_pc a = pc) by (unfold boot_pc; by rewrite Eb).
  rewrite Ep in *. pose proof (resub_step_subs ok (ap_subs a) pc H1 H10) as H.
  destruct (resub_step ok (ap_subs a) pc) as [s' pc'] eqn:E. destruct H as (K1 & K2 & K3 & K4 & K5 & K6).
  split; change (boot_pc (MkApp s' (Some pc') (ap_monitor a))) with pc'; cbn [ap_subs ap_boot ap_monitor]; rewrite ?K2, ?K3; try done.
  - intros c Hc. destruct (K6 c Hc) as [Hc'|Hc']; [by apply H6|]. specialize (H4 c Hc'). lia.
  - intros c Hc Hm. destruct pc as [| |d|d|d|d|]; cbn in E.
    + injection E as <- <-. by_claims.
    + destruct (sb_current (ap_subs a)); injection E as <- <-; by_claims.
    + case_bool_decide as Hs; injection E as <- <-; [by_claims|]. apply claimed_client in Hc as [= ->]. apply Hs. apply H9; [done|]. right. by exists c.
    + injection E as <- <-. apply claimed_client in Hc as [= ->]. apply (H7 c); [by left; left|done].
    + destruct ok; injection E as <- <-; [by_claims|]. apply claimed_client in Hc as [= ->]. apply (H7 c); [by left; right|done].
    + injection E as <- <-. by_claims.
    + injection E as <- <-. by_claims.
  - intros c Hc Hn. destruct pc as [| |d|d|d|d|]; cbn in E.
    + injection E as <- <-. by_claims.
    + destruct (sb_current (ap_subs a)); injection E as <- <-; by_claims.
    + case_bool_decide as Hs; injection E as <- <-; [by_claims|]. by apply claimed_client in Hc as [= ->].
    + injection E as <- <-. apply claimed_client in Hc as [= ->]. unfold drop_conn. destruct (sb_conn (ap_subs a) !! c); cbn; apply H8; try done; by left; left.
    + destruct ok; injection E as <- <-; [by_claims|]. apply claimed_client in Hc as [= ->]. apply H8; [by left; right|done].
    + injection E as <- <-. by_claims.
    + injection E as <- <-. by_claims.
  - intros c Hc Hb. destruct pc as [| |d|d|d|d|]; cbn in E.
    + injection E as <- <-. by_claims.
    + destruct (sb_current (ap_subs a)); injection E as <- <-; by_claims. apply H9; [done|by left].
    + case_bool_decide; injection E as <- <-; by_claims.
    + injection E as <- <-. by_claims.
    + destruct ok; injection E as <- <-; by_claims.
    + injection E as <- <-. by_claims.
    + injection E as <- <-. by_claims.
  - intros c Hc. apply K4; [|by apply H11]. intros Hin. apply (H7 c); [by left|]. rewrite Hc. by left; right.
Qed.

(** The health monitor. *)
Lemma monitor_ok a ok : app_ok a -> app_ok (let '(s, pc) := resub_step ok (ap_subs a) (ap_monitor a) in MkApp s (ap_boot a) pc).
Proof.
  intros Ha. destruct Ha as [H1 H2 H3 H4 H5 H6 H7 H8 H9 H10 H11].
  pose proof (resub_step_subs ok (ap_subs a) (ap_monitor a) H1 H11) as H. remember (ap_monitor a) as pc eqn:Ep.
  destruct (resub_step ok (ap_subs a) pc) as [s' pc'] eqn:E. destruct H as (K1 & K2 & K3 & K4 & K5 & K6).
  split; change (boot_pc (MkApp s' (ap_boot a) pc')) with (boot_pc a); cbn [ap_subs ap_boot ap_monitor]; rewrite ?K2, ?K3; try done.
  - intros Hb. rewrite (H3 Hb) in E. cbn in E. by injection E as _ <-.
  - intros c Hc. destruct (K6 c Hc) as [Hc'|Hc']; [by apply H5|by apply H4].
  - intros c Hb Hc. destruct pc as [| |d|d|d|d|]; cbn in E.
    + injection E as <- <-. by_claims.
    + destruct (sb_current (ap_subs a)); injection E as <- <-; by_claims.
    + case_bool_decide as Hs; injection E as <- <-; [by_claims|]. apply claimed_client in Hc as [= ->]. apply Hs. apply H8; [done|]. by apply H5.
    + injection E as <- <-. apply claimed_client in Hc as [= ->]. apply (H7 c); [done|by left; left].
    + destruct ok; injection E as <- <-; [by_claims|]. apply claimed_client in Hc as [= ->]. apply (H7 c); [done|by left; right].
    + injection E as <- <-. by_claims.
    + injection E as <- <-. by_claims.
  - intros c Hc Hn. pose proof (H8 c Hc Hn) as Hsub. destruct pc as [| |d|d|d|d|]; cbn in E.
    + by injection E as <- <-.
    + destruct (sb_current (ap_subs a)); by injection E as <- <-.
    + case_bool_decide as Hs; injection E as <- <-; [done|]. cbn. specialize (H5 d eq_refl). f_equal. lia.
    + injection E as <- <-. unfold drop_conn. by destruct (sb_conn (ap_subs a) !! d).
    + destruct ok; by injection E as <- <-.
    + exfalso. specialize (H5 d eq_refl). assert (c = d) as -> by lia. apply (H7 d); [done|by right].
    + by injection E as <- <-.
  - intros c Hc Hb. destruct pc as [| |d|d|d|d|]; cbn in E.
    + injection E as <- <-. by_claims.
    + destruct (sb_current (ap_subs a)); injection E as <- <-; by_claims.
    + case_bool_decide as Hs; injection E as <- <-; [by_claims|]. by apply claimed_client in Hc as [= ->].
    + injection E as <- <-. apply claimed_client in Hc as [= ->]. unfold drop_conn. destruct (sb_conn (ap_subs a) !! c); cbn; apply H9; try done; by left; left.
    + destruct ok; injection E as <- <-; [by_claims|]. apply claimed_client in Hc as [= ->]. apply H9; [by left; right|done].
    + injection E as <- <-. by_claims.
    + injection E as <- <-. by_claims.
  - intros c Hc. apply K4; [|by apply H10]. intros Hin. apply (H7 c); [rewrite Hc; by left; right|by left].
Qed.

Lemma close_client_fields c s :
  sb_current (close_client c s) = sb_current s /\ sb_clients (close_client c s) = sb_clients s /\ subscribedTo (close_client c s) = subscribedTo s.
Proof. unfold close_client, drop_conn. case_bool_decide; [done|]. by destruct (sb_conn s !! c). Qed.

(** A step that changes streams only. *)
Lemma streams_only a s' : app_ok a -> streams_ok s' -> (forall d, quiet d (ap_subs a) -> quiet d s') ->
  sb_current s' = sb_current (ap_subs a) \/ sb_current s' = None -> sb_clients s' = sb_clients (ap_subs a) ->
  subscribedTo s' = subscribedTo (ap_subs a) -> app_ok (MkApp s' (ap_boot a) (ap_monitor a)).
Proof.
  intros [H1 H2 H3 H4 H5 H6 H7 H8 H9 H10 H11] Hs Hq Hc Hn Hm.
  split; change (boot_pc (MkApp s' (ap_boot a) (ap_monitor a))) with (boot_pc a); cbn [ap_subs ap_boot ap_monitor]; rewrite ?Hn, ?Hm; auto.
  - intros Hb. destruct Hc as [->| ->]; auto.
  - intros c. destruct Hc as [->| ->]; [apply H4|done].
Qed.

Lemma lost_ok a c : app_ok a -> app_ok (MkApp (close_client c (ap_subs a)) (ap_boot a) (ap_monitor a)).
Proof.
  intros Ha. destruct (close_client_spec c (ap_subs a) (ao_streams a Ha)) as [H1 H2].
  destruct (close_client_fields c (ap_subs a)) as (E1 & E2 & E3). apply streams_only; auto.
Qed.

(** A new client, and the goroutine that installed it goes on to subscribe. *)
Lemma install_client_spec s : streams_ok s -> streams_ok (install_client s) /\ (forall d, quiet d s -> quiet d (install_client s))
  /\ sb_current (install_client s) = Some (sb_clients s) /\ sb_clients (install_client s) = S (sb_clients s) /\ subscribedTo (install_client s) = subscribedTo s.
Proof.
  intros Hs. unfold install_client, close_current. destruct (sb_current s) as [c|].
  - destruct (close_client_spec c s Hs) as [[H1 H2 H3] H4]. destruct (close_client_fields c s) as (E1 & E2 & E3). cbn. rewrite E3.
    split_and!; done.
  - destruct Hs. split_and!; done.
Qed.

Lemma set_ok a boot' monitor' : app_ok a ->
  (ap_boot a = None /\ boot' = Some SResub /\ monitor' = SIdle) \/ (is_Some (ap_boot a) /\ boot' = ap_boot a /\ ap_monitor a = SRecover /\ monitor' = SResub) ->
  app_ok (MkApp (install_client (ap_subs a)) boot' monitor').
Proof.
  intros [H1 H2 H3 H4 H5 H6 H7 H8 H9 H10 H11] Hc. destruct (install_client_spec (ap_subs a) H1) as (K1 & K2 & K3 & K4 & K5).
  destruct Hc as [(Hb & -> & ->)|((pc & Hb) & -> & Hm & ->)].
  - split; change (boot_pc (MkApp (install_client (ap_subs a)) (Some SResub) SIdle)) with SResub; cbn [ap_subs ap_boot ap_monitor]; try done;
      try (intros; by_claims; done). rewrite K3, K4. by intros c [= ->].
  - assert (Ep : boot_pc a = pc) by (unfold boot_pc; by rewrite Hb). rewrite Ep in *. rewrite Hb.
    split; change (boot_pc (MkApp (install_client (ap_subs a)) (Some pc) SResub)) with pc; cbn [ap_subs ap_boot ap_monitor]; try done;
      rewrite ?K3, ?K4, ?K5; try (intros; by_claims; done).
    + by intros c [= ->].
    + intros c Hc. specialize (H6 c Hc). lia.
    + intros c _ Hm2. by_claims.
    + intros c Hc Hn. pose proof (H6 c (claimed_client _ _ Hc)). lia.
    + intros c Hc. by apply K2, H10.
Qed.

(** Between idling and recovering the monitor touches nothing. *)
Lemma idle_ok a pc : app_ok a -> ap_monitor a = SIdle \/ ap_monitor a = SRecover -> pc = SIdle \/ pc = SRecover ->
  ap_boot a <> None -> app_ok (MkApp (ap_subs a) (ap_boot a) pc).
Proof.
  intros [H1 H2 H3 H4 H5 H6 H7 H8 H9 H10 H11] Hm Hpc Hb.
  split; change (boot_pc (MkApp (ap_subs a) (ap_boot a) pc)) with (boot_pc a); cbn [ap_subs ap_boot ap_monitor]; auto;
    try done; destruct Hpc as [->| ->]; try done; try (intros; congruence); try (intros c _ Hm2; by_claims; done); intros; by_claims; done.
Qed.

Lemma app_step_ok a a' : app_ok a -> app_step a a' -> app_ok a'.
Proof.
  intros Ha [Hb|ok pc Hb|Hm Hc|Hm|Hm|Hm Hi|ok|c Hc|e| ].
  - destruct (boot_known a Ha Hb) as (_ & -> & _). apply set_ok; [done|]. by left.
  - by apply booting_ok.
  - apply idle_ok; [done|by left|by right|]. intros E. destruct (boot_known a Ha E) as (_ & _ & E'). rewrite E' in Hc. by destruct Hc.
  - apply idle_ok; [done|by right|by left|]. intros E. pose proof (ao_boot_started a Ha E). congruence.
  - apply set_ok; [done|]. right. split; [|done]. apply not_eq_None_Some. intros E. pose proof (ao_boot_started a Ha E). congruence.
  - destruct Ha as [H1 H2 H3 H4 H5 H6 H7 H8 H9 H10 H11]. rewrite Hm in *.
    split; change (boot_pc (MkApp (ap_subs a) (ap_boot a) SResub)) with (boot_pc a); cbn [ap_subs ap_boot ap_monitor]; auto; try (intros; by_claims; done).
    + intros Hb. unfold IsSubscribed in Hi. by rewrite (H2 Hb) in Hi.
    + intros c _ Hm2. by_claims.
  - by apply monitor_ok.
  - by apply lost_ok.
  - destruct (ao_streams a Ha) as [S1 S2 S3]. apply streams_only; auto.
    + split; cbn; auto; [intros x d Hx; apply S1; set_solver|intros x Hx; apply S2; set_solver].
    + intros d Hd x Hx. apply Hd. cbn in Hx. set_solver.
  - unfold drop_client, close_current. destruct (ao_streams a Ha) as [S1 S2 S3]. destruct (sb_current (ap_subs a)) as [c|] eqn:E.
    + destruct (close_client_spec c (ap_subs a) (ao_streams a Ha)) as [[T1 T2 T3] H2]. destruct (close_client_fields c (ap_subs a)) as (E1 & E2 & E3).
      apply streams_only; auto; done.
    + apply streams_only; auto; done.
Qed.

Lemma new_app_ok : app_ok new_app.
Proof.
  split; change (boot_pc new_app) with SIdle; change (ap_monitor new_app) with SIdle; try done; try (intros; by_claims; done).
Qed.

(** C30: No event arrives twice through a client.  While the first start installs and subscribes its client, the
    health monitor replaces clients and repairs subscriptions, connections break and the user quits, in any
    order: the event streams of one client that are open, each with a goroutine that hands events to the bridge,
    are never two. *)
Theorem events_once (a : App) : rtc app_step new_app a ->
  forall e e' c, e ∈ sb_open (ap_subs a) -> e' ∈ sb_open (ap_subs a) ->
    sb_owner (ap_subs a) !! e = Some c -> sb_owner (ap_subs a) !! e' = Some c -> e = e'.
Proof.
  intros H. assert (Ha : app_ok a).
  { revert a H. apply (rtc_ind_r (fun a => app_ok a) new_app); [apply new_app_ok|]. intros; by eapply app_step_ok. }
  destruct (ao_streams a Ha) as [H1 _ _]. intros e e' c He He' Ho Ho'. pose proof (H1 e c He Ho). pose proof (H1 e' c He' Ho'). congruence.
Qed.

(** The monitor repairs: without anyone else at work, one pass after a tick at which the bridge is not subscribed
    leaves an open stream of the current client. *)
Lemma repaired s c : sb_current s = Some c -> IsSubscribed s = false ->
  let s1 := fst (resub_step true s (SGot c)) in
  let s2 := fst (resub_step true s1 (SSubscribing c)) in
  let s3 := fst (resub_step true s2 (SDialling c)) in
  IsSubscribed s3 = true /\ exists e, sb_conn s3 !! c = Some e /\ e ∈ sb_open s3.
Proof.
  destruct s as [cur n conn own op cl sub]. unfold IsSubscribed. cbn. intros -> Hi. cbn in Hi. rewrite Hi. cbn. unfold drop_conn. cbn.
  destruct (conn !! c); cbn; (split; [by rewrite bool_decide_true|]); (eexists; split; [apply lookup_insert_eq|set_solver]).
Qed.

(** The goroutine of the first start is about to dial when the helper stops answering; the monitor installs another
    client of the same helper and subscribes it; then the dialling succeeds.  The first client is closed and has
    an event stream, which nothing closes: every event arrives twice. *)
Lemma two_streams : exists a, rtc app_step new_app a
  /\ sb_current (ap_subs a) = Some 1%nat /\ 0%nat ∈ sb_closed (ap_subs a) /\ sb_open (ap_subs a) = {[0%nat; 1%nat]}
  /\ sb_owner (ap_subs a) = [1%nat; 0%nat].
Proof.
  eexists. split.
  - eapply rtc_l; [by apply as_boot|]. cbn.
    do 3 (eapply rtc_l; [by apply (as_booting _ true)|]; cbn).
    eapply rtc_l; [apply as_down; [done|by eexists]|]. eapply rtc_l; [by apply as_recovered|]. cbn.
    do 4 (eapply rtc_l; [by apply (as_monitor _ true)|]; cbn).
    eapply rtc_l; [by apply (as_booting _ true)|]. cbn. apply rtc_refl.
  - split_and!; try done; vm_compute; set_solver.
Qed.

(** A limit of the repair: an event stream that broke while the control connection lives is not
    noticed, for the bridge counts as subscribed. *)
Lemma broken_stream_unnoticed s e : IsSubscribed (s <| sb_open ::= fun o => o ∖ {[e]} |>) = IsSubscribed s.
Proof. done. Qed.

(** ** What comes through *)

Lemma handle_events_app evs1 : forall b evs2,
  handle_events b (evs1 ++ evs2)
  = let '(b1, out1) := handle_events b evs1 in let '(b2, out2) := handle_events b1 evs2 in (b2, out1 ++ out2).
Proof.
  induction evs1 as [|ev evs1 IH]; intros b evs2; cbn; [by destruct (handle_events b evs2)|].
  destruct (handleEvent b ev) as [b1 out1]. rewrite IH. destruct (handle_events b1 evs1) as [b2 out2].
  destruct (handle_events b2 evs2) as [b3 out3]. by rewrite app_assoc.
Qed.

(** After quitting began nothing comes through. *)
Lemma stopped_silent b evs : handle_events (stopForwarding b) evs = (stopForwarding b, []).
Proof. induction evs as [|ev evs IH]; [done|]. cbn. by rewrite IH. Qed.

Lemma handle_events_stopped evs : forall b, br_stopped (fst (handle_events b evs)) = br_stopped b.
Proof.
  induction evs as [|ev evs IH]; intros b; [done|]. cbn.
  assert (E : br_stopped (fst (handleEvent b ev)) = br_stopped b).
  { unfold handleEvent. destruct (br_stopped b) eqn:Es; [done|]. by destruct ev as [[]|[]|[]|[]|]. }
  destruct (handleEvent b ev) as [b1 out1]. specialize (IH b1). destruct (handle_events b1 evs). cbn in *. congruence.
Qed.

(** What an effect is to the session log; [ids] are those it would give the tunnels. *)
Definition reconcile_op (now : Z) (ids : list string -> list string) (e : BridgeEffect) : option HistOp :=
  match e with
  | BReconcile active rx tx reason => Some (HStatus now active (ids active) (fun n => (rx !!! n, tx !!! n)) reason)
  | _ => None
  end.

(** After a status, the tunnels with a session are those it names, whatever came before. *)
Lemma log_in_step b evs st now ids running : br_stopped b = false ->
  foldl spec_hist running (omap (reconcile_op now ids) (snd (handle_events b (evs ++ [EvStatus (Some st)]))))
  = list_to_set (List.filter (fun n => negb (n =s "")) (cs_ActiveTunnels st)).
Proof.
  intros Hb. rewrite handle_events_app. pose proof (handle_events_stopped evs b) as Hs. rewrite Hb in Hs.
  destruct (handle_events b evs) as [b1 out1]. cbn [fst] in Hs. cbn [handle_events]. unfold handleEvent. rewrite Hs. cbn [snd app].
  rewrite omap_app, foldl_app. reflexivity.
Qed.

(** The bytes a tunnel's session is closed with are those of its own status. *)
Lemma bytes_of_tunnel bytes st ts : ts ∈ cs_Tunnels st -> NoDup (cs_TunnelName <$> cs_Tunnels st) ->
  cs_TunnelName ts <> cs_TunnelName st -> status_bytes bytes st !! cs_TunnelName ts = Some (bytes ts).
Proof.
  intros Hts Hnd Hne. unfold status_bytes.
  assert (H : forall l (m : gmap string Z), NoDup (cs_TunnelName <$> l) ->
     (ts ∈ l -> foldl (fun m t => <[cs_TunnelName t := bytes t]> m) m l !! cs_TunnelName ts = Some (bytes ts))
     /\ (cs_TunnelName ts ∉ cs_TunnelName <$> l -> foldl (fun m t => <[cs_TunnelName t := bytes t]> m) m l !! cs_TunnelName ts = m !! cs_TunnelName ts)).
  { clear. induction l as [|t l IH]; intros m Hnd; cbn; [split; [intros H; by apply elem_of_nil in H|done]|].
    rewrite fmap_cons in Hnd. apply NoDup_cons in Hnd as [Hn Hnd]. destruct (IH (<[cs_TunnelName t := bytes t]> m) Hnd) as [I1 I2]. split.
    - intros Hin. apply elem_of_cons in Hin as [->|Hin]; [|by apply I1]. rewrite I2 by done. apply lookup_insert_eq.
    - rewrite not_elem_of_cons. intros [H1 H2]. rewrite I2 by done. by rewrite lookup_insert_ne. }
  destruct (cs_TunnelName st =s ""); [by apply H|]. rewrite lookup_insert_ne by done. by apply H.
Qed.

(** ** The log *)

(** Attributes of a derived logger are written as if they were the record's; one that was derived before the
    window was there stays silent. *)
Lemma gui_derived h l m attrs more :
  gui_Handle (gui_WithAttrs h attrs) l m more = gui_Handle (MkGuiLog (gl_level h) (gl_app h) []) l m (gl_attrs h ++ attrs ++ more).
Proof. unfold gui_Handle, gui_WithAttrs. cbn [gl_app gl_attrs gl_level app]. by rewrite app_assoc. Qed.

Lemma gui_unbound h l m attrs more : gl_app h = false -> gui_Handle (gui_WithAttrs h attrs) l m more = None.
Proof. intros H. unfold gui_Handle, gui_WithAttrs. cbn. by rewrite H. Qed.

(** *** Witness: the first start, and a recovery after it *)

Lemma events_once_witness :
  exists a, rtc app_step new_app a /\ sb_open (ap_subs a) = {[1%nat]} /\ forall e e' c, e ∈ sb_open (ap_subs a) -> e' ∈ sb_open (ap_subs a) ->
    sb_owner (ap_subs a) !! e = Some c -> sb_owner (ap_subs a) !! e' = Some c -> e = e'.
Proof.
  assert (H : exists a, rtc app_step new_app a /\ sb_open (ap_subs a) = {[1%nat]}).
  { eexists. split.
    - eapply rtc_l; [by apply as_boot|]. cbn.
      do 4 (eapply rtc_l; [by apply (as_booting _ true)|]; cbn).
      eapply rtc_l; [apply as_down; [done|by eexists]|]. eapply rtc_l; [by apply as_recovered|]. cbn.
      do 4 (eapply rtc_l; [by apply (as_monitor _ true)|]; cbn). apply rtc_refl.
    - vm_compute. set_solver. }
  destruct H as (a & H & Ho). exists a. split; [exact H|]. split; [exact Ho|]. exact (events_once a H).
Defined.
