(* ===== verification/KillSwitch.v ===== *)
(** * The kill switch from the app's toggle to the packet

    The settings of Settings.v, the request handler of HelperOps.v, the ruleset of HelperFirewall.v, the pf of
    Pf.v and the rules of Firewall.v put together: the helper's answer is the one its handler gives, and the
    answer of its firewall is the one pf gives.  [toggle_closes] is about the whole way. *)

From S2P Require Import Prelude GoStrings GoNet Domain TunnelManager Firewall FirewallFacts Pf HelperFirewall HelperOps HelperFacts HelperRequests Settings.

(** ** pf under the helper *)

Section Under.
(** pf before the helper, and which commands succeed during each call. *)
Context (pf0 : PfHost) (o : list Call -> Outcomes).

(** A call, with the calls so far. *)
Definition pf_call (st : list Call * (DarwinFirewall * PfHost)) (c : Call) : list Call * (DarwinFirewall * PfHost) :=
  let '(log, (f, h)) := st in
  let log := log ++ [c] in
  (log, match c with
        | CApply rs => let '(_, f', hs) := Apply (o log) rs f h in (f', final hs h)
        | CFwCleanup => let '(f', hs) := Cleanup (o log) f h in (f', final hs h)
        | _ => (f, h)
        end).

(** The firewall and pf after the calls. *)
Definition pf_after (log : list Call) : DarwinFirewall * PfHost := snd (foldl pf_call ([], (new_firewall, pf0)) log).

Lemma pf_call_log log : fst (foldl pf_call ([], (new_firewall, pf0)) log) = log.
Proof.
  induction log as [|c log IH] using rev_ind; [done|]. rewrite foldl_app. cbn [foldl].
  destruct (foldl pf_call _ log) as [l [f h]]. cbn in IH. subst l. by destruct c.
Qed.

Lemma pf_after_apply log rs : let '(f, h) := pf_after log in
  pf_after (log ++ [CApply rs]) = let '(_, f', hs) := Apply (o (log ++ [CApply rs])) rs f h in (f', final hs h).
Proof.
  unfold pf_after. rewrite foldl_app. cbn [foldl]. pose proof (pf_call_log log) as Hl.
  destruct (foldl pf_call _ log) as [l [f h]]. cbn in Hl. subst l. cbn. by destruct (Apply _ rs f h) as [[? ?] ?].
Qed.

(** What Apply comes to. *)
Definition pf_error (log : list Call) (rs : Ruleset) : option ApplyError :=
  let '(f, h) := pf_after log in fst (fst (Apply (o (log ++ [CApply rs])) rs f h)).

(** The firewall behind the helper's calls is this one. *)
Definition firewall_env (env : Env) : Prop :=
  forall log rs, ok (env_reply env (log ++ [CApply rs])) = bool_decide (pf_error log rs = None).

(** An accepted ruleset with the kill switch is loaded, and pf is on. *)
Lemma applied_loaded log rs : pf_error log rs = None -> rs_KillSwitch rs = true ->
  exists rules, rules_of rs = Ok (Some rules)
  /\ h_anchor (snd (pf_after (log ++ [CApply rs]))) = Some (render_all rules) /\ h_on (snd (pf_after (log ++ [CApply rs]))) = true.
Proof.
  unfold pf_error. pose proof (pf_after_apply log rs) as Ha. destruct (pf_after log) as [f h]. rewrite Ha. clear Ha.
  generalize (o (log ++ [CApply rs])). intros oc He Hk. unfold Apply, BuildRules in *.
  destruct (rules_of rs) as [[rules|]|] eqn:Er; [|exfalso|done].
  - exists rules. split; [done|]. cbn [result_bind] in *. assert (render_all rules <> "") as Hne.
    { destruct (rules_of_parts _ _ Er) as (head & lookups & dnsPart & rest & -> & _). intros Hr.
      unfold rules_of in Er. rewrite Hk in Er. cbn [negb andb] in Er.
      apply result_bind_ok in Er as (ifaces & _ & Er). apply result_bind_ok in Er as (lk & _ & Er).
      apply result_bind_ok in Er as (dp & _ & Er). apply result_bind_ok in Er as (eps & _ & [= Er]). rewrite <- Er in Hr. done. }
    rewrite (bool_decide_false _ Hne) in *. destruct (o_load oc) eqn:El; cbn [negb] in *; [|by destruct (fw_active f)].
    destruct (o_enable oc) eqn:Ee; cbn in He; [|done]. unfold final, loadAnchorRules, enablePf, persistPfEnabledState.
    destruct f as [act was], h as [an on fl]. cbn. destruct act; cbn; rewrite ?El, ?Ee; cbn; [done|].
    by destruct (o_persist oc).
  - unfold rules_of in Er. rewrite Hk in Er. cbn [negb andb] in Er.
    apply result_bind_ok in Er as (ifaces & _ & Er). apply result_bind_ok in Er as (lk & _ & Er).
    apply result_bind_ok in Er as (dp & _ & Er). by apply result_bind_ok in Er as (eps & _ & Er).
Qed.

(** A refused ruleset leaves pf off if it was, with the old rules, or the new ones where only pfctl -e failed. *)
Lemma refused_left log rs : pf_error log rs <> None -> rs_KillSwitch rs = true ->
  let before := snd (pf_after log) in
  let after := snd (pf_after (log ++ [CApply rs])) in
  h_on after = h_on before
  /\ (h_anchor after = h_anchor before \/ exists rules, rules_of rs = Ok (Some rules) /\ h_anchor after = Some (render_all rules)).
Proof.
  unfold pf_error. pose proof (pf_after_apply log rs) as Ha. destruct (pf_after log) as [f h]. rewrite Ha. clear Ha.
  generalize (o (log ++ [CApply rs])). intros oc He Hk. unfold Apply, BuildRules in *.
  destruct (rules_of rs) as [[rules|]|] eqn:Er; [|by cbn in *; destruct (teardownLocked oc f h)|by split; [|left]].
  cbn [result_bind] in *. case_bool_decide; [by destruct (teardownLocked oc f h)|].
  unfold loadAnchorRules, enablePf, persistPfEnabledState, removePfStateFile, final in *.
  destruct oc as [si pe [] [] fl di re], f as [[] was], h as [an onp file], pe, re; cbn in *; try done;
    (split; [done|]); eauto.
Qed.
End Under.

(** ** What the loaded rules let through *)

(** An endpoint that the helper knows for a tunnel that needs it: one that is up, a further remote of an
    OpenVPN profile that is up, one of a tunnel held for a reconnect or a connect. *)
Definition wanted_endpoint (h : Helper) (v : View) (proto ep : string) : Prop :=
  in_passes ((fst (liveTunnels v)).*2) proto ep
  \/ (exists n, n ∈ live_names v /\ isMultiRemoteOVPN h n = true /\ configured h n proto ep)
  \/ exists n, ~ n ∈ live_names v /\ in_hold h n /\ known h n proto ep.

Definition live_iface (v : View) (iface : string) : Prop :=
  iface <> "" /\ exists t, t ∈ (fst (liveTunnels v)).*2 /\ ks_InterfaceName t = iface.

Definition wanted (h : Helper) (v : View) (r : Rule) : Prop :=
  match r with
  | RLoopback | RDhcp4 | RDhcp6 | RNeighbour => True
  | RIface i => live_iface v i
  | REndpoint tcp ip port =>
      ip <> "" /\ exists proto ep, wanted_endpoint h v proto ep /\ tcp = has_prefix "tcp" proto
      /\ (split_host_port ep = Some (ip, port) \/ split_host_port ep = None /\ ip = ep /\ port = "")
  | RLookup s => exists n, s ∈ default [] (dnsLookups h !! n)
  | RDnsServer i s => dnsProtection (policy h) = true /\ live_iface v i /\ s ∈ snd (liveTunnels v)
  | _ => False
  end.

Lemma elem_of_lookup_servers h s : s ∈ lookup_servers h <-> exists n, s ∈ default [] (dnsLookups h !! n).
Proof.
  unfold lookup_servers.
  assert (forall l out, s ∈ foldl (fun out s => if mem s out then out else out ++ [s]) out l <-> s ∈ out \/ s ∈ l) as Hin.
  { induction l as [|a l IH]; intros out; cbn [foldl]; [rewrite elem_of_nil; tauto|]. rewrite IH, elem_of_cons.
    unfold mem. case_bool_decide; [split; [tauto|intros [?|[->|?]]; tauto]|]. rewrite elem_of_app, list_elem_of_singleton. tauto. }
  assert (forall names out, s ∈ foldl (fun out n => foldl (fun out s => if mem s out then out else out ++ [s]) out
            (default [] (dnsLookups h !! n))) out names
          <-> s ∈ out \/ exists n, n ∈ names /\ s ∈ default [] (dnsLookups h !! n)) as H.
  { induction names as [|n names IH]; intros out; cbn [foldl].
    - split; [by left|]. intros [?|(n & Hn & _)]; [done|by apply elem_of_nil in Hn].
    - rewrite IH, Hin. setoid_rewrite elem_of_cons. split.
      + intros [[?|?]|(n' & ? & ?)]; [by left|right; exists n; tauto|right; exists n'; tauto].
      + intros [?|(n' & [->|?] & ?)]; [tauto|tauto|right; by exists n']. }
  rewrite H, elem_of_nil. split; [intros [?|(n & _ & ?)]; [done|by exists n]|]. intros [n Hn]. right. exists n. split; [|done].
  apply elem_of_sorted_keys. destruct (dnsLookups h !! n); [done|by apply elem_of_nil in Hn].
Qed.

(** While the kill switch is loaded, the ruleset asks for exactly these lines. *)
Lemma permits_wanted h v r :
  rs_KillSwitch (fst (ruleset h v)) = true -> permits (fst (ruleset h v)) r <-> wanted h v r.
Proof.
  intros Hk. destruct (passes_exact h v) as [Hep Hif].
  assert (forall i, has_iface (fst (ruleset h v)) i <-> live_iface v i) as Hi.
  { intros i. unfold has_iface, live_iface. destruct (decide (i = "")) as [->|Hne]; [tauto|]. by rewrite (Hif i Hne). }
  pose proof (ruleset_eq h v) as E. cbv zeta in E. destruct (_ && _) in E; [by rewrite E in Hk|].
  destruct r as [| | | |s|i s| |tcp ip port| | | |i| |]; cbn [permits wanted]; try done.
  - rewrite E. cbn [fst rs_DNSLookupServers]. rewrite elem_of_lookup_servers.
    by destruct (refresh_all_same (fst (liveTunnels v)) h) as (_ & _ & _ & _ & ->).
  - rewrite Hi, E. unfold enforcesDNS. cbn [fst rs_DNSServers rs_DNSProtection].
    destruct (dnsProtection (policy h)), (snd (liveTunnels v)) as [|d ds]; cbn [negb length].
    all: rewrite ?elem_of_nil; split; intros (? & ? & ?); try done; by split_and!.
  - unfold has_endpoint. split.
    + intros (Hne & t & ep & Ht & Hin & Hp & Hsp). split; [done|]. exists (ks_Proto t), ep. split; [|done]. apply Hep. by exists t.
    + intros (Hne & proto & ep & (t & Ht & <- & Hin)%Hep & Hp & Hsp). split; [done|]. by exists t, ep.
Qed.

(** ** The toggle *)

Definition helper_policy (h : Helper) : HelperPolicy := Settings.MkPolicy (killSwitch (policy h)) (dnsProtection (policy h)).

Definition is_done {A} (r : result HelperError A) : bool := match r with Ok _ => true | Err _ => false end.

(** SetKillSwitch of the app, its call answered by the helper's handler. *)
Definition app_SetKillSwitch (env : Env) (enabled renamed written : bool) (w : World) (s : Helper * list Call)
    : option SettingsError * World * (Helper * list Call) :=
  match w_helper w with
  | None => let '(w', e) := setFirewallPolicy KKillSwitch enabled (MkRpc false false) renamed written w in (e, w', s)
  | Some _ =>
      let '(r, s') := handleSetKillSwitch env enabled s in
      let '(w', e) := setFirewallPolicy KKillSwitch enabled (MkRpc (is_done r) (is_done r)) renamed written w in
      (e, w', s')
  end.

(** The blocks that [handleSetKillSwitch true] leaves as they are. *)
Lemma handle_on env h log r h' log' :
  closed h = false -> handleSetKillSwitch env true (h, log) = (r, (h', log')) ->
  let h1 := h <| policy ::= fun p => p <| killSwitch := true |> |> in
  log' = log ++ [CApply (fst (ruleset h1 (env_view env log)))]
  /\ match r with
     | Ok _ => ok (env_reply env log') = true /\ policy h' = (policy h) <| killSwitch := true |>
     | Err e => ok (env_reply env log') = false /\ policy h' = policy h
     end.
Proof.
  intros Hc. unfold handleSetKillSwitch, get, modify, ret, bind. cbn [fst snd].
  assert (h <| policy ::= fun p => p <| killSwitch := true |> |> <| fwBlocked ::= fun b => b |>
          = h <| policy ::= fun p => p <| killSwitch := true |> |>) as -> by by destruct h.
  set (h1 := h <| policy ::= _ |>). destruct (applyFirewall env (h1, log)) as [a [h2 log2]] eqn:Ea.
  apply applyFirewall_frame in Ea as (b & e & -> & _ & Hl). destruct (Hl Hc) as [-> Ha]. subst a.
  set (log1 := log ++ _). destruct (ok (env_reply env log1)) eqn:Eo; intros [= <- <- <-]; (split; [done|]).
  - split; [exact Eo|done].
  - split; [exact Eo|]. cbn. by destruct (policy h).
Qed.

(** What a push that the helper took comes to: the file holds the change, or could not be read or written and
    shows what it showed before. *)
Lemma push_taken renamed written w hp w' e : w_helper w = Some hp ->
  setFirewallPolicy KKillSwitch true (MkRpc true true) renamed written w = (w', e) ->
  w_helper w' = Some (set_policy KKillSwitch true hp)
  /\ match e with
     | None => hp_killSwitch <$> persisted (w_file w') = Some true
     | Some er => (er = SeLoad \/ er = SeSave) /\ persisted (w_file w') = persisted (w_file w)
     end.
Proof.
  intros Hw. unfold setFirewallPolicy, policy_push, policy_load, policy_save. rewrite Hw. cbn.
  destruct (settings_Load renamed (w_file w)) as [[st|] f] eqn:El; pose proof (load_persisted _ _ _ _ El) as (_ & Hp & _).
  - unfold settings_Save, json_save. destruct written; intros [= <- <-]; (split; [done|]); [done|]. split; [by right|done].
  - intros [= <- <-]. split; [done|]. split; [by left|done].
Qed.

(** The tray's item: the opposite of what is persisted at the click. *)
Definition tray_toggle (env : Env) (renamed written : bool) (w : World) (s : Helper * list Call)
    : option SettingsError * World * (Helper * list Call) :=
  match policy_load renamed w with
  | (w, None) => (None, w, s)
  | (w, Some st) => app_SetKillSwitch env (negb (KillSwitch st)) renamed written w s
  end.

(** A click that is not refused turns over what is persisted, and so does the helper behind the client. *)
Lemma tray_toggle_spec env renamed w s w' s' p :
  w_file w <> JUnreadable -> persisted (w_file w) = Some p -> tray_toggle env renamed true w s = (None, w', s') ->
  let q := set_policy KKillSwitch (negb (hp_killSwitch p)) p in
  persisted (w_file w') = Some q /\ w_helper w' = set_policy KKillSwitch (negb (hp_killSwitch p)) <$> w_helper w.
Proof.
  intros Hf Hp H. unfold tray_toggle in H. destruct (load_world renamed w Hf) as (st & f & El & Hper & Hper' & Hf').
  rewrite El in H. assert (p = policy_in st) as -> by congruence.
  assert (forall r, rpc_applied r = rpc_ok r -> forall w1, setFirewallPolicy KKillSwitch (negb (KillSwitch st)) r renamed true (w <| w_file := f |>) = (w1, None) ->
    let q := set_policy KKillSwitch (negb (hp_killSwitch (policy_in st))) (policy_in st) in
    persisted (w_file w1) = Some q /\ w_helper w1 = set_policy KKillSwitch (negb (hp_killSwitch (policy_in st))) <$> w_helper w) as Hset.
  { intros r Hr w1 Es. pose proof (set_spec KKillSwitch (negb (KillSwitch st)) r renamed (w <| w_file := f |>) _ Hf' Hper' Hr) as H0.
    rewrite Es in H0. by destruct H0 as (H1 & _ & H2). }
  unfold app_SetKillSwitch in H. destruct (w_helper (w <| w_file := f |>)) as [hp|] eqn:Eh.
  - destruct (handleSetKillSwitch _ _ s) as [r s1]. destruct (setFirewallPolicy _ _ _ _ _ _) as [w1 e1] eqn:Es. injection H as -> -> ->.
    by apply (Hset (MkRpc (is_done r) (is_done r))).
  - destruct (setFirewallPolicy _ _ _ _ _ _) as [w1 e1] eqn:Es. injection H as -> -> ->. by apply (Hset (MkRpc false false)).
Qed.

(** pf is on with exactly the rules computed for the helper's tunnels, and of all the traffic the final block lines
    cover (anything in or out) exactly that passes which matches a line that is [wanted]. *)
Definition in_force (h : Helper) (v : View) (host : PfHost) : Prop :=
  exists rules, h_anchor host = Some (render_all rules) /\ h_on host = true
  /\ forall packet (matches : Rule -> packet -> bool) (p : packet),
       matches RBlockOut p || matches RBlockIn p = true ->
       pf_passes matches rules true p = true
       <-> exists r, wanted h v r /\ matches r p = true
           /\ (enforcesDNS (fst (ruleset h v)) = true -> matches RBlockDns p = true -> dns_line r = true).


(** A tunnel is being reconnected while its user turns the kill switch on, and pf does what it is told. *)
Definition pf_works (log : list Call) : Outcomes := all_succeed.

Definition plain_pf : PfHost := MkHostPf None false None.

Definition pf_env : Env :=
  MkEnv (fun _ => MkView NewManager None)
    (fun log => match last log with
                | Some (CApply rs) => if bool_decide (pf_error plain_pf pf_works (removelast log) rs = None) then ROk else RFailed
                | _ => ROk
                end)
    (fun _ => None) [] true (fun _ => 0%Z).

Lemma pf_env_firewall : firewall_env plain_pf pf_works pf_env.
Proof. intros log rs. cbn. rewrite last_snoc, removelast_last. by case_bool_decide. Qed.

Definition reconnecting : Helper := new_helper <| fwHeld := {["home" := 1%nat]} |>.

Definition defaults : World := Settings.MkWorld JMissing (Some (Settings.MkPolicy false false)).

