(* ===== verification/Tray.v ===== *)
(** * The menu bar item: internal/gui/tray.go

    What a status event makes of the icon, the label and the speeds, the menu that is built from it, and the
    protocol by which rebuilds of the menu are requested.  Times are nanoseconds.  A speed is the pair of the
    bytes and the time they took, where Go divides; maps from names to [true] are sets. *)

From S2P Require Import Prelude GoStrings Domain.

(** ** Labels *)

(** U+2007 *)
Definition figure_space : string := String "226" (String "128" (String "135" "")).

Fixpoint pad_figures (n : nat) (s : string) : string := match n with O => s | S n => figure_space +:+ pad_figures n s end.

Record Speed := MkSpeed { sp_bytes : Z; sp_time : Z }.

Definition no_speed : Speed := MkSpeed 0 1.

(** Whole KB/s *)
Definition kilobytes (s : Speed) : Z := (sp_bytes s * 1000000000 / (sp_time s * 1024))%Z.

Definition formatSpeedFixed (s : Speed) : string :=
  if (0 <? sp_bytes s)%Z && (sp_bytes s * 1000000000 <? sp_time s * 1024)%Z then figure_space +:+ figure_space +:+ "<1K"
  else
    let n := if (sp_bytes s <? 0)%Z then 0%Z else Z.min (kilobytes s) 9999 in
    let t := pretty n in
    pad_figures (4 - String.length t) t +:+ "K".

(** ** Statuses *)

Inductive Icon := trayGreenIcon | trayAmberIcon | trayOffIcon.

Record Shown := MkShown { sh_icon : Icon; sh_tooltip : string; sh_label : string }.

Record trayManager := MkTray {
  activeTunnels : gset string; hasHandshake : gmap string bool; tunnelStatus : gmap string ConnectionStatus;
  prevRx : gmap string Z; prevTx : gmap string Z; prevStatTime : option Z; speedRx : Speed; speedTx : Speed; lastMenuRebuild : Z
}.

#[export] Instance eta_tray : Eta trayManager := fun t =>
  MkTray (activeTunnels t) (hasHandshake t) (tunnelStatus t) (prevRx t) (prevTx t) (prevStatTime t) (speedRx t) (speedTx t)
    (lastMenuRebuild t).

Definition newTrayManager : trayManager := MkTray ∅ ∅ ∅ ∅ ∅ None no_speed no_speed 0.

(** The statuses by name, the primary one last. *)
Definition status_cache (st : ConnectionStatus) : gmap string ConnectionStatus :=
  let m := foldl (fun m ts => <[cs_TunnelName ts := ts]> m) ∅ (cs_Tunnels st) in
  if cs_TunnelName st =s "" then m else <[cs_TunnelName st := st]> m.

Definition status_active (st : ConnectionStatus) : gset string := list_to_set (cs_ActiveTunnels st).

Definition bytes_of_status (f : ConnectionStatus -> Z) (st : ConnectionStatus) : gmap string Z :=
  filter (fun '(n, _) => n ∈ status_active st) (f <$> status_cache st).

(** The bytes that came since the baseline, of the tunnels that have one. *)
Definition fresh_bytes (now prev : gmap string Z) : Z :=
  map_fold (fun n b acc => match prev !! n with Some p => (Z.max (b - p) 0 + acc)%Z | None => acc end) 0%Z now.

(** 0.5 s *)
Definition can_compute (t : trayManager) (now : Z) : bool :=
  match prevStatTime t with Some p => (500000000 <=? now - p)%Z | None => false end.

Definition handshake_of (m : gmap string bool) (n : string) : bool := default false (m !! n).

Definition update_speeds (t : trayManager) (st : ConnectionStatus) (now : Z) : trayManager :=
  if can_compute t now then
    let dt := (now - default 0 (prevStatTime t))%Z in
    let rx := bytes_of_status cs_RxBytes st in
    let tx := bytes_of_status cs_TxBytes st in
    t <| speedRx := MkSpeed (fresh_bytes rx (prevRx t)) dt |> <| speedTx := MkSpeed (fresh_bytes tx (prevTx t)) dt |>
      <| prevStatTime := Some now |> <| prevRx := rx |> <| prevTx := tx |>
  else match prevStatTime t with None => t <| prevStatTime := Some now |> | Some _ => t end.

Definition tray_shown (t : trayManager) (st : ConnectionStatus) : Shown :=
  let active := activeTunnels t in
  let connected := negb (bool_decide (active = ∅)) in
  let handshake := existsb (handshake_of (hasHandshake t)) (elements active) in
  MkShown (if connected then if handshake then trayGreenIcon else trayAmberIcon else trayOffIcon)
    (if connected then if handshake then "LockPlus — " +:+ join ", " (cs_ActiveTunnels st) else "LockPlus — connecting…" else "LockPlus")
    (if connected then "↓" +:+ formatSpeedFixed (speedRx t) +:+ " ↑" +:+ formatSpeedFixed (speedTx t) else "").

Definition menu_changed (prevActive newActive : gset string) (prevHS newHS : gmap string bool) : bool :=
  negb (size prevActive =? size newActive)%nat
  || existsb (fun k => negb (bool_decide (k ∈ newActive))) (elements prevActive)
  || existsb (fun k => negb (Bool.eqb (handshake_of newHS k) (handshake_of prevHS k))) (elements newActive).

(** With what is shown and whether a rebuild of the menu is scheduled. *)
Definition updateStatus (t : trayManager) (st : ConnectionStatus) (now : Z) : trayManager * Shown * bool :=
  let prevActive := activeTunnels t in
  let prevHS := hasHandshake t in
  let t := t <| activeTunnels := status_active st |> <| hasHandshake := cs_HasHandshake <$> status_cache st |>
             <| tunnelStatus := status_cache st |> in
  let t := update_speeds t st now in
  let s := tray_shown t st in
  if menu_changed prevActive (activeTunnels t) prevHS (hasHandshake t) then (t, s, true)
  else if negb (bool_decide (activeTunnels t = ∅)) && (30000000000 <=? now - lastMenuRebuild t)%Z
       then (t <| lastMenuRebuild := now |>, s, true)
       else (t, s, false).

(** ** The menu *)

Inductive Glyph := Circle | HalfCircle | Disc.

Definition glyph (t : trayManager) (name : string) : Glyph :=
  if bool_decide (name ∈ activeTunnels t)
  then if handshake_of (hasHandshake t) name then Disc else HalfCircle
  else Circle.

Record Item := MkItem { it_name : string; it_glyph : Glyph; it_duration : string }.

Definition item_of (t : trayManager) (name : string) : Item :=
  MkItem name (glyph t name)
    (if bool_decide (name ∈ activeTunnels t)
     then match tunnelStatus t !! name with Some st => cs_Duration st | None => "" end else "").

(** The tunnels of the menu: the connected ones first, each group in the order of the store. *)
Definition menu_items (t : trayManager) (names : list string) : list Item :=
  item_of t <$> (List.filter (fun n => bool_decide (n ∈ activeTunnels t)) names
                 ++ List.filter (fun n => negb (bool_decide (n ∈ activeTunnels t))) names).

(** The whole menu; [killSwitch]: the setting, if it can be read. *)
Inductive MenuEntry := EHeader | ESeparator | ETunnel (i : Item) | EKillSwitch (on : bool) | EShowWindow | EQuit.

Definition rebuild (t : trayManager) (names : list string) (killSwitch : option bool) : list MenuEntry :=
  let connected := List.filter (fun n => bool_decide (n ∈ activeTunnels t)) names in
  let disconnected := List.filter (fun n => negb (bool_decide (n ∈ activeTunnels t))) names in
  [EHeader; ESeparator]
  ++ (ETunnel ∘ item_of t <$> connected)
  ++ (if (0 <? length connected)%nat && (0 <? length disconnected)%nat then [ESeparator] else [])
  ++ (ETunnel ∘ item_of t <$> disconnected)
  ++ [ESeparator] ++ match killSwitch with Some on => [EKillSwitch on] | None => [] end
  ++ [ESeparator; EShowWindow; ESeparator; EQuit].

(** What a click on a tunnel's item does, by the state at that moment. *)
Inductive Click := ClickConnect | ClickDisconnect.

Definition click (t : trayManager) (name : string) : Click :=
  if bool_decide (name ∈ activeTunnels t) then ClickDisconnect else ClickConnect.

(** ** Requests for a rebuild

    [version] counts the changes of what the menu shows, [menu] is the version it was built from.  The timer's
    callbacks and the callers of scheduleRebuild interleave. *)

Inductive RebuildPc :=
| PSchedule                (** about to call scheduleRebuild *)
| PSwap                    (** at the CompareAndSwap of rebuildMenu *)
| PMark                    (** the swap failed: about to set rebuildPending *)
| PRead                    (** about to read the state *)
| PSet (v : nat)           (** about to call SetMenu *)
| PStore                   (** deferred: about to reset rebuilding *)
| PPending.                (** deferred: at the CompareAndSwap of rebuildPending *)

Record Menu := MkMenu { version : nat; menu : nat; timer : bool; rebuilding : bool; rebuildPending : bool; procs : list RebuildPc }.

#[export] Instance eta_menu : Eta Menu := fun m =>
  MkMenu (version m) (menu m) (timer m) (rebuilding m) (rebuildPending m) (procs m).

Definition new_menu : Menu := MkMenu 0 0 false false false [].

(** What a goroutine does next, and where it is then; [None] when it is done. *)
Definition rebuild_step (m : Menu) (pc : RebuildPc) : Menu * option RebuildPc :=
  match pc with
  | PSchedule => (m <| timer := true |>, None)
  | PSwap => if rebuilding m then (m, Some PMark) else (m <| rebuilding := true |>, Some PRead)
  | PMark => (m <| rebuildPending := true |>, None)
  | PRead => (m, Some (PSet (version m)))
  | PSet v => (m <| menu := v |>, Some PStore)
  | PStore => (m <| rebuilding := false |>, Some PPending)
  | PPending => if rebuildPending m then (m <| rebuildPending := false |>, Some PSchedule) else (m, None)
  end.

Inductive menu_step : Menu -> Menu -> Prop :=
| step_change m : menu_step m (m <| version ::= S |> <| procs ::= cons PSchedule |>)
| step_request m : menu_step m (m <| procs ::= cons PSchedule |>)
| step_fire m : timer m = true -> menu_step m (m <| timer := false |> <| procs ::= cons PSwap |>)
| step_go m i pc m' pc' : procs m !! i = Some pc -> rebuild_step m pc = (m', pc') ->
    menu_step m (m' <| procs := match pc' with Some q => <[i := q]> (procs m) | None => delete i (procs m) end |>).

Abbreviation menu_reachable := (rtc menu_step new_menu).

(** ** Facts *)

(** The tunnels of the menu are [menu_items]. *)
Lemma rebuild_items t names ks :
  omap (fun e => match e with ETunnel i => Some i | _ => None end) (rebuild t names ks) = menu_items t names.
Proof.
  unfold rebuild, menu_items. rewrite fmap_app.
  assert (H : forall l : list string, omap (fun e => match e with ETunnel i => Some i | _ => None end) (ETunnel ∘ item_of t <$> l) = item_of t <$> l)
    by (induction l as [|a l IH]; cbn; [done|by f_equal]).
  rewrite !omap_app, !H. destruct (_ && _), ks; cbn; by rewrite ?app_nil_r.
Qed.

(** The characters of a UTF-8 text. *)
Fixpoint rune_count (s : string) : nat :=
  match s with
  | EmptyString => 0
  | String c s => (if (128 <=? nat_of_ascii c) && (nat_of_ascii c <? 192) then 0 else 1) + rune_count s
  end%nat.

Definition four_figures (n : nat) : bool :=
  let t := pretty (Z.of_nat n) in (rune_count (pad_figures (4 - String.length t) t +:+ "K") =? 5)%nat.

Lemma four_figures_ok n : (Z.of_nat n < 10000)%Z -> four_figures n = true.
Proof.
  intros Hn. assert (forallb four_figures (seq 0 (Z.to_nat 10000)) = true) as H by (vm_compute; reflexivity).
  rewrite forallb_forall in H. apply H, in_seq. lia.
Qed.

(** The label of a speed has the same width whatever the speed. *)
Theorem formatSpeedFixed_width (s : Speed) : (0 < sp_time s)%Z -> rune_count (formatSpeedFixed s) = 5%nat.
Proof.
  intros Ht. unfold formatSpeedFixed. destruct ((0 <? sp_bytes s)%Z && _); [reflexivity|]. cbv zeta.
  set (n := if (sp_bytes s <? 0)%Z then 0%Z else Z.min (kilobytes s) 9999).
  assert (0 <= n < 10000)%Z as Hn.
  { unfold n, kilobytes. destruct (Z.ltb_spec (sp_bytes s) 0); [lia|].
    assert (0 <= sp_bytes s * 1000000000 / (sp_time s * 1024))%Z by (apply Z.div_pos; lia). lia. }
  pose proof (four_figures_ok (Z.to_nat n) ltac:(lia)) as H. unfold four_figures in H. rewrite Z2Nat.id in H by lia.
  by apply Nat.eqb_eq in H.
Qed.

Lemma formatSpeedFixed_width_witness : rune_count (formatSpeedFixed (MkSpeed 2500000 1000000000)) = 5%nat.
Proof. apply formatSpeedFixed_width. reflexivity. Defined.

(** A status that does not change the menu's items leaves every glyph; any other schedules a rebuild. *)
Theorem rebuild_when_changed (t : trayManager) (st : ConnectionStatus) (now : Z) (name : string) :
  let '(t', _, rebuild) := updateStatus t st now in
  rebuild = false -> glyph t' name = glyph t name.
Proof.
  unfold updateStatus. set (t1 := _ <| tunnelStatus := _ |>).
  assert (activeTunnels (update_speeds t1 st now) = status_active st /\ hasHandshake (update_speeds t1 st now) = cs_HasHandshake <$> status_cache st)
    as [Ea Eh] by (unfold update_speeds; destruct (can_compute t1 now); [done|]; by destruct (prevStatTime t1)).
  destruct (menu_changed _ _ _ _) eqn:Ec; [done|]. destruct (_ && _); [done|]. intros _.
  rewrite Ea, Eh in Ec. unfold menu_changed in Ec. apply orb_false_iff in Ec as [[Es Ep]%orb_false_iff Hh].
  rewrite existsb_false_iff in Ep, Hh. apply negb_false_iff, Nat.eqb_eq in Es.
  assert (activeTunnels t = status_active st) as Heq.
  { apply set_subseteq_size_eq; [|lia]. intros k Hk. specialize (Ep k). rewrite elem_of_elements in Ep. specialize (Ep Hk).
    by apply negb_false_iff, bool_decide_eq_true in Ep. }
  unfold glyph. rewrite Ea, Eh, Heq. case_bool_decide as Hin; [|done].
  specialize (Hh name). rewrite elem_of_elements in Hh. specialize (Hh Hin). apply negb_false_iff, eqb_prop in Hh. by rewrite Hh.
Qed.

(** ** Speeds *)

Definition run_tray (events : list (ConnectionStatus * Z)) : trayManager :=
  foldl (fun t '(st, now) => fst (fst (updateStatus t st now))) newTrayManager events.

Lemma updateStatus_base t st now : let t' := fst (fst (updateStatus t st now)) in
  if can_compute t now
  then prevStatTime t' = Some now /\ prevRx t' = bytes_of_status cs_RxBytes st /\ prevTx t' = bytes_of_status cs_TxBytes st
  else prevStatTime t' = Some (default now (prevStatTime t)) /\ prevRx t' = prevRx t /\ prevTx t' = prevTx t.
Proof.
  unfold updateStatus. set (t1 := _ <| tunnelStatus := _ |>). assert (can_compute t1 now = can_compute t now) as <- by done.
  assert (forall t2 : trayManager, let r := fst (fst (if menu_changed (activeTunnels t) (activeTunnels t2) (hasHandshake t) (hasHandshake t2)
            then (t2, tray_shown t2 st, true)
            else if negb (bool_decide (activeTunnels t2 = ∅)) && (30000000000 <=? now - lastMenuRebuild t2)%Z
                 then (t2 <| lastMenuRebuild := now |>, tray_shown t2 st, true) else (t2, tray_shown t2 st, false)))
          in prevStatTime r = prevStatTime t2 /\ prevRx r = prevRx t2 /\ prevTx r = prevTx t2) as H.
  { intros t2. destruct (menu_changed _ _ _ _); [done|]. by destruct (_ && _). }
  destruct (H (update_speeds t1 st now)) as (E1 & E2 & E3). cbv zeta. rewrite E1, E2, E3. unfold update_speeds.
  destruct (can_compute t1 now); [done|]. unfold t1. cbn. destruct (prevStatTime t) eqn:E; cbn; by rewrite ?E.
Qed.

(** Bytes and time rebuild_step together: the baseline of the speeds is the bytes of one status together with the time
    it came, or empty with the time of the first one; so a speed is what came since, over the time since. *)
Theorem speeds_lockstep (events : list (ConnectionStatus * Z)) :
  match prevStatTime (run_tray events) with
  | None => events = []
  | Some t0 => exists st0, (st0, t0) ∈ events
      /\ ((prevRx (run_tray events) = bytes_of_status cs_RxBytes st0 /\ prevTx (run_tray events) = bytes_of_status cs_TxBytes st0)
          \/ prevRx (run_tray events) = ∅ /\ prevTx (run_tray events) = ∅ /\ head events = Some (st0, t0))
  end.
Proof.
  induction events as [|[st now] events IH] using rev_ind; [done|]. unfold run_tray in *. rewrite foldl_app. cbn [foldl].
  set (t := foldl _ newTrayManager events) in *. pose proof (updateStatus_base t st now) as H. cbv zeta in H.
  destruct (can_compute t now) eqn:Ec; destruct H as (-> & -> & ->).
  - exists st. split; [apply elem_of_app; right; by left|]. by left.
  - destruct (prevStatTime t) as [t0|]; cbn [default].
    + destruct IH as (st0 & Hin & Hb). exists st0. split; [apply elem_of_app; by left|]. destruct Hb as [Hb|(H1 & H2 & H3)]; [by left|].
      right. split; [done|]. split; [done|]. by destruct events.
    + subst events. exists st. split; [by left|]. right. by split.
Qed.

(** ** The rebuild protocol *)

(** Between the swap that took the flag and its release. *)
Definition holds_flag (pc : RebuildPc) : bool := match pc with PRead | PSet _ | PStore => true | _ => false end.

(** The goroutine will have the menu rebuilt from the state as it is now. *)
Definition promises (v : nat) (pc : RebuildPc) : bool :=
  match pc with PSchedule | PSwap | PMark | PRead => true | PSet w => (w =? v)%nat | _ => false end.

Definition count (p : RebuildPc -> bool) (l : list RebuildPc) : nat := length (List.filter p l).

Record menu_inv (m : Menu) : Prop := {
  mi_flag : count holds_flag (procs m) = if rebuilding m then 1%nat else 0%nat;
  mi_order : menu m <= version m /\ forall v, PSet v ∈ procs m -> menu m <= v <= version m;
  mi_promise : menu m = version m \/ timer m = true \/ rebuildPending m = true \/ existsb (promises (version m)) (procs m) = true }.

#[local] Arguments count : simpl never.

Lemma count_pc_cons p x l : count p (x :: l) = ((if p x then 1 else 0) + count p l)%nat.
Proof. unfold count. cbn. by destruct (p x). Qed.

Lemma count_pc_app p l k : count p (l ++ k) = (count p l + count p k)%nat.
Proof. unfold count. by rewrite List.filter_app, length_app. Qed.

(** The goroutine at work, and the others. *)
Lemma at_work (l : list RebuildPc) i pc : l !! i = Some pc -> exists before after, l = before ++ pc :: after
  /\ delete i l = before ++ after /\ forall q, <[i := q]> l = before ++ q :: after.
Proof.
  intros H. exists (take i l), (drop (S i) l). pose proof (lookup_lt_Some _ _ _ H) as Hlt.
  split; [by rewrite take_drop_middle|]. split; [apply delete_take_drop|]. intros q. by rewrite insert_take_drop.
Qed.

(** The three parts of the invariant, for a list split at the goroutine at work. *)
Lemma split_inv m before l after : procs m = before ++ l ++ after ->
  count holds_flag before + count holds_flag l + count holds_flag after = (if rebuilding m then 1 else 0) ->
  menu m <= version m -> (forall v, PSet v ∈ before \/ PSet v ∈ l \/ PSet v ∈ after -> menu m <= v <= version m) ->
  menu m = version m \/ timer m = true \/ rebuildPending m = true
    \/ existsb (promises (version m)) before = true \/ existsb (promises (version m)) l = true
    \/ existsb (promises (version m)) after = true -> menu_inv m.
Proof.
  intros E Hf Ho Hv Hp. split.
  - rewrite E, !count_pc_app. lia.
  - split; [done|]. intros v. rewrite E, !elem_of_app. apply Hv.
  - rewrite E, !existsb_app, !orb_true_iff. tauto.
Qed.

Lemma inv_split m before pc after : menu_inv m -> procs m = before ++ pc :: after ->
  count holds_flag before + count holds_flag [pc] + count holds_flag after = (if rebuilding m then 1 else 0)
  /\ menu m <= version m /\ (forall v, PSet v ∈ before \/ PSet v ∈ after \/ PSet v = pc -> menu m <= v <= version m)
  /\ (menu m = version m \/ timer m = true \/ rebuildPending m = true
      \/ existsb (promises (version m)) before = true \/ promises (version m) pc = true \/ existsb (promises (version m)) after = true).
Proof.
  intros [Hf [Ho Hv] Hp] E. rewrite E in Hf, Hv, Hp. rewrite count_pc_app, count_pc_cons in Hf. rewrite existsb_app in Hp. cbn [existsb] in Hp.
  rewrite !orb_true_iff in Hp. split; [rewrite count_pc_cons; change (count holds_flag []) with 0%nat; lia|]. split; [done|]. split; [|tauto].
  intros v H. apply Hv. rewrite elem_of_app, elem_of_cons. tauto.
Qed.

(** Nobody else is about to set the menu while one goroutine holds the flag. *)
Lemma no_setter l v : count holds_flag l = 0 -> PSet v ∉ l.
Proof.
  unfold count. intros H Hin. apply length_zero_iff_nil in H.
  assert (PSet v ∈ List.filter holds_flag l) as Hx by (by apply elem_of_filter_bool). rewrite H in Hx. by apply elem_of_nil in Hx.
Qed.

Ltac menu_case l before after :=
  apply (split_inv _ before l after);
  [reflexivity|unfold count in *; cbn in *
  |cbn in *|cbn [procs version menu]; intros w Hw; rewrite ?elem_of_nil, ?list_elem_of_singleton in Hw
  |cbn [procs version menu timer rebuildPending existsb promises] in *].

Lemma go_inv m before pc after m' pc' : menu_inv m -> procs m = before ++ pc :: after -> rebuild_step m pc = (m', pc') ->
  menu_inv (m' <| procs := before ++ (match pc' with Some q => [q] | None => [] end) ++ after |>).
Proof.
  intros Hi El Ha. destruct (inv_split m before pc after Hi El) as (Hf & Ho & Hv & Hp). clear Hi El.
  destruct m as [ver mn tm rb pend ps]. cbn in *.
  destruct pc as [| | | |v| |]; [|destruct rb| | | | |destruct pend]; injection Ha as <- <-.
  - menu_case (@nil RebuildPc) before after; [lia|done|apply Hv; tauto|tauto].
  - menu_case [PMark] before after; [lia|done|apply Hv; destruct Hw as [?|[?|?]]; [tauto|done|tauto]|tauto].
  - menu_case [PRead] before after; [lia|done|apply Hv; destruct Hw as [?|[?|?]]; [tauto|done|tauto]|tauto].
  - menu_case (@nil RebuildPc) before after; [lia|done|apply Hv; tauto|tauto].
  - menu_case [PSet ver] before after; [lia|done|destruct Hw as [?|[[= ->]|?]]; [apply Hv; tauto|lia|apply Hv; tauto]|].
    rewrite Nat.eqb_refl. cbn. tauto.
  - assert (count holds_flag before = 0 /\ count holds_flag after = 0) as [Hb Ha] by (unfold count in *; cbn in Hf; destruct rb; lia).
    pose proof (Hv v ltac:(tauto)) as Hvv.
    menu_case [PStore] before after; [lia|lia| |].
    + destruct Hw as [Hw|[?|Hw]]; [|done|]; exfalso; [by apply (no_setter before w)|by apply (no_setter after w)].
    + destruct (Nat.eqb_spec v ver) as [->|]; [tauto|]. destruct Hp as [Hp|[?|[?|[?|[?|?]]]]]; [lia|tauto..|done|tauto].
  - menu_case [PPending] before after; [destruct rb; cbn in Hf; lia|done|apply Hv; destruct Hw as [?|[?|?]]; [tauto|done|tauto]|].
    destruct Hp as [?|[?|[?|[?|[?|?]]]]]; tauto || done.
  - menu_case [PSchedule] before after; [lia|done|apply Hv; destruct Hw as [?|[?|?]]; [tauto|done|tauto]|]. tauto.
  - menu_case (@nil RebuildPc) before after; [lia|done|apply Hv; tauto|]. destruct Hp as [?|[?|[?|[?|[?|?]]]]]; tauto || done.
Qed.

Lemma cons_inv m pc : holds_flag pc = false -> (forall v, pc <> PSet v) -> menu_inv m -> menu_inv (m <| procs ::= cons pc |>).
Proof.
  intros Hh Hs [Hf [Ho Hv] Hp]. split; cbn.
  - by rewrite count_pc_cons, Hh.
  - split; [done|]. intros v [E|?]%elem_of_cons; [by destruct (Hs v)|by apply Hv].
  - rewrite orb_true_iff. tauto.
Qed.

Lemma menu_step_inv m m' : menu_step m m' -> menu_inv m -> menu_inv m'.
Proof.
  intros H Hi. destruct H as [m|m|m Ht|m i pc m' pc' Hl Ha].
  - assert (menu_inv (m <| procs ::= cons PSchedule |>)) as [Hf [Ho Hv] Hp] by (by apply cons_inv).
    split; cbn in *; [exact Hf|split; [lia|]|tauto]. intros v Hin. specialize (Hv v Hin). lia.
  - by apply cons_inv.
  - destruct Hi as [Hf [Ho Hv] Hp]. split; cbn; [exact Hf|split; [done|]|tauto]. intros v [E|?]%elem_of_cons; [done|by apply Hv].
  - destruct (at_work _ _ _ Hl) as (before & after & El & Ed & Ei).
    pose proof (go_inv m before pc after m' pc' Hi El Ha) as H. destruct pc' as [q|]; [rewrite Ei|rewrite Ed]; exact H.
Qed.

Lemma menu_reachable_inv m : menu_reachable m -> menu_inv m.
Proof.
  intros H. assert (menu_inv new_menu) as Hi by (split; cbn; [done|split; [lia|]; intros v Hv; by apply elem_of_nil in Hv|by left]).
  revert Hi. induction H as [m|m m1 m2 Hs _ IH]; [done|]. intros Hi. by apply IH, (menu_step_inv m).
Qed.

(** The menu is rebuilt by one goroutine at a time and follows the state: in every interleaving at most one
    goroutine is between taking the flag and releasing it, the menu is never built from a state older than
    the one it shows, and once nothing is under way and no request is pending the menu shows the current
    state. *)
Theorem menu_follows (m : Menu) : menu_reachable m ->
  count holds_flag (procs m) <= 1
  /\ (forall v, PSet v ∈ procs m -> menu m <= v)
  /\ (procs m = [] -> timer m = false -> rebuildPending m = false -> menu m = version m).
Proof.
  intros [Hf [_ Hv] Hp]%menu_reachable_inv. split; [destruct (rebuilding m); lia|]. split; [intros v Hin; by apply Hv|].
  intros E Ht Hr. rewrite E, Ht, Hr in Hp. cbn in Hp. by destruct Hp as [?|[?|[?|?]]].
Qed.

(** A goroutine that finds a rebuild under way marks its request only afterwards.  If the other one looks for
    marks in between, nobody is left to see this one: nothing is under way, and the menu shows an old
    state. *)
Definition go (i : nat) (m : Menu) : Menu :=
  match procs m !! i with
  | Some pc => let '(m', pc') := rebuild_step m pc in
               m' <| procs := match pc' with Some q => <[i := q]> (procs m) | None => delete i (procs m) end |>
  | None => m
  end.

Definition fire (m : Menu) : Menu := m <| timer := false |> <| procs ::= cons PSwap |>.
Definition change (m : Menu) : Menu := m <| version ::= S |> <| procs ::= cons PSchedule |>.

(** A rebuild reads the state, the state changes, the second rebuild finds the flag taken and marks too late. *)
Definition lost : Menu :=
  let m := go 0 (go 0 (fire (go 0 (change new_menu)))) in            (* the first rebuild has read version 1 *)
  let m := go 0 (fire (go 0 (change m))) in                          (* version 2; the second failed the swap *)
  let m := go 1 (go 1 (go 1 m)) in                                   (* the first one sets the menu and looks *)
  go 0 m.                                                            (* the second one marks *)

Lemma go_step i m : is_Some (procs m !! i) -> menu_step m (go i m).
Proof. intros [pc H]. unfold go. rewrite H. destruct (rebuild_step m pc) as [m' pc'] eqn:E. by apply (step_go m i pc). Qed.

Theorem rebuild_request_lost :
  menu_reachable lost /\ procs lost = [] /\ timer lost = false /\ menu lost = 1%nat /\ version lost = 2%nat.
Proof.
  split; [|vm_compute; auto]. unfold lost. cbv zeta.
  repeat (apply rtc_refl || (eapply rtc_r; [|first [apply go_step; vm_compute; by eexists|apply step_fire; reflexivity|apply step_change]])).
Qed.

Lemma menu_follows_witness : count holds_flag (procs lost) <= 1 /\ rebuildPending lost = true.
Proof. split; [exact (proj1 (menu_follows lost (proj1 rebuild_request_lost)))|reflexivity]. Defined.
