(* ===== verification/Quit.v ===== *)
(** * Quitting: the shutdown of internal/gui/gui.go, run against the helper

    doShutdown lists the tunnels the helper tracks and disconnects each; here its calls are answered by the
    handlers of HelperOps.v and their rulesets loaded by the pf of Pf.v.  [quit_releases]: afterwards nothing
    is left of the kill switch. *)

From S2P Require Import Prelude GoStrings Domain Wifi TunnelManager Firewall Pf HelperFirewall HelperOps HelperFacts HelperOpsFacts HelperRequests KillSwitch.

#[local] Set Warnings "-clear-no-such-hyp".

Section Quit.
Context (env : Env).

Fixpoint quit_each (names : list string) : M unit :=
  match names with
  | [] => ret tt
  | n :: names => handleDisconnect env n >> quit_each names
  end.

(** What doShutdown asks of the helper; [reachable] is whether the list could be had. *)
Definition doShutdown (reachable : bool) : M unit :=
  if reachable then
    let! active := handleActiveTunnels env in quit_each (trackedTunnelNames active)
  else ret tt.

(** ** What is assumed of the managers *)

Definition running (v : View) : list string :=
  activeTunnelNames (v_wg v) ++ match v_ovpn v with Some o => ob_ActiveTunnelNames o | None => [] end.

(** The manager that is asked to disconnect a tunnel does, no tunnel comes up meanwhile, and the OpenVPN manager
    keeps its promises. *)
Record winding_down : Prop := {
  wd_ovpn log n : is_ovpn (env_view env log) n = true -> n ∉ running (env_view env (log ++ [COvpnDisconnect n]));
  wd_wg log n : is_ovpn (env_view env log) n = false -> n ∉ running (env_view env (log ++ [CWgDisconnect n]));
  wd_mono log c n : n ∈ running (env_view env (log ++ [c])) -> n ∈ running (env_view env log);
  wd_lawful log : lawful (env_view env log) }.

Lemma running_app log l n : winding_down -> n ∈ running (env_view env (log ++ l)) -> n ∈ running (env_view env log).
Proof.
  intros Hw. revert log. induction l as [|c l IH]; intros log; [by rewrite app_nil_r|]. change (c :: l) with ([c] ++ l).
  rewrite app_assoc. intros H%IH. by apply (wd_mono Hw) in H.
Qed.

Lemma status_map_spec l n st : status_map l !! n = Some st -> st ∈ l /\ cs_TunnelName st = n.
Proof.
  unfold status_map. induction l as [|a l IH] using rev_ind; [done|]. rewrite foldl_app. cbn [foldl].
  destruct (decide (cs_TunnelName a = n)) as [<-|Hne].
  - rewrite lookup_insert_eq. intros [= <-]. split; [apply elem_of_app; right; by left|done].
  - rewrite lookup_insert_ne by done. intros [? ?]%IH. split; [apply elem_of_app; by left|done].
Qed.

Lemma remoteless_active o : (forall st, st ∈ ob_AllStatuses o -> cs_TunnelName st ∈ ob_ActiveTunnelNames o) ->
  forall n st, (n, st) ∈ remoteless_live o -> n ∈ ob_ActiveTunnelNames o.
Proof.
  intros Hs n st. unfold remoteless_live. rewrite list_elem_of_omap. intros (k & _ & Hk).
  destruct (status_map (ob_AllStatuses o) !! k) as [s|] eqn:E; [|done]. destruct (remoteless _ k s); [|done].
  injection Hk as <- <-. apply status_map_spec in E as [Hin <-]. by apply Hs.
Qed.

Lemma live_running v n : lawful v -> n ∈ live_names v -> n ∈ running v.
Proof.
  intros [_ Hl]. unfold live_names, running. intros H. apply list_elem_of_fmap in H as ([n' t] & -> & H). cbn [fst].
  apply elem_of_live in H as [H|(o & Ho & H)]; apply elem_of_app; [left|right].
  - unfold wg_live in H. apply list_elem_of_fmap in H as (i & [= -> _] & Hi). unfold ConnectedTunnels in Hi.
    apply list_elem_of_omap in Hi as (k & Hk & Hi). apply elem_of_filter_bool.
    destruct (tunnels (v_wg v) !! k) as [e|] eqn:Ee; [|done]. unfold info_of in Hi.
    destruct (te_state e) eqn:Es, (te_engine e), (te_cfg e); try done. injection Hi as <-. cbn [ti_Name].
    split; [done|]. by rewrite Ee, Es.
  - rewrite Ho. destruct (Hl o Ho) as [Hr Hs]. unfold ovpn_live in H. apply elem_of_app in H as [H|H].
    + unfold remote_live in H. apply list_elem_of_fmap in H as (r & [= -> _] & Hin). by apply Hr.
    + apply list_elem_of_fmap in H as ([k st] & [= -> _] & Hin). by apply (remoteless_active o Hs k st).
Qed.

(** ** Nothing is left *)

(** The tunnel keeps nothing loaded. *)
Definition quiet (h : Helper) (v : View) (n : string) : Prop :=
  fwHeld h !! n = None /\ (n ∉ fwPending h) /\ fwBlocked h !! n = None /\ n ∉ running v.

Lemma all_quiet h v : lawful v -> (forall n, quiet h v n) ->
  live_names v = [] /\ fwHeld h = ∅ /\ fwPending h = ∅ /\ fwBlocked h = ∅ /\ fst (ruleset h v) = zero_ruleset.
Proof.
  intros Hl Hq. assert (live_names v = []) as E1.
  { apply elem_of_nil_inv. intros n Hn. apply (live_running v n Hl) in Hn. by destruct (Hq n) as (_ & _ & _ & ?). }
  assert (fwHeld h = ∅) as E2 by (apply map_eq; intros n; rewrite lookup_empty; apply Hq).
  assert (fwPending h = ∅) as E3 by (apply set_eq; intros n; destruct (Hq n) as (_ & ? & _); set_solver).
  assert (fwBlocked h = ∅) as E4 by (apply map_eq; intros n; rewrite lookup_empty; apply Hq).
  split_and!; try done. destruct (ruleset_loaded h v) as [_ [Hp|?]]; [|done]. exfalso.
  destruct Hp as [?|[?|[?|(n & [x Hx] & _)]]]; [done..|]. by rewrite E4, lookup_empty in Hx.
Qed.

Lemma clear_quiet h v n m : quiet h v m -> quiet (disconnect_clear h n) v m.
Proof.
  intros (H1 & H2 & H3 & H4). unfold quiet, disconnect_clear. cbn. rewrite !lookup_delete_None. split; [by right|].
  split; [set_solver|]. split; [by right|done].
Qed.

Lemma clear_forgotten h n m : forgotten h m -> forgotten (disconnect_clear h n) m.
Proof.
  unfold forgotten, disconnect_clear. cbn. rewrite !lookup_delete_None. intros (H1 & H2 & H3 & H4 & H5 & H6 & H7 & H8).
  split_and!; try (by right); set_solver.
Qed.

(** One disconnect: what was quiet or forgotten stays so, its own tunnel becomes both. *)
Lemma disconnect_quiet n h log r h' log' : winding_down -> n <> "" -> closed h = false ->
  handleDisconnect env n (h, log) = (r, (h', log')) ->
  exists log1, log' = log1 ++ [CApply (fst (ruleset (disconnect_clear h n) (env_view env log1)))]
  /\ closed h' = false /\ forgotten h' n /\ (forall m, forgotten h m -> forgotten h' m)
  /\ quiet (disconnect_clear h n) (env_view env log1) n
  /\ (forall m, quiet h (env_view env log) m -> quiet (disconnect_clear h n) (env_view env log1) m)
  /\ forall m, quiet (disconnect_clear h n) (env_view env log1) m -> quiet h' (env_view env log') m.
Proof.
  intros Hw Hne Hc H. destruct (handleDisconnect_run env n h log Hne) as (r1 & b & e & log2 & E & Hb & Hlog). rewrite E in H.
  injection H as <- <- <-. specialize (Hlog Hc). cbv zeta in Hlog.
  set (c := if is_ovpn _ n then _ else _) in *. set (log1 := log ++ [CCancelRetry n; c; CCancelRetry n]) in *.
  exists log1. split; [exact Hlog|]. split; [exact Hc|].
  assert (forall m, forgotten (disconnect_clear h n) m -> forgotten ((disconnect_clear h n) <| fwBlocked := b |> <| fwEndpoints := e |>) m) as Hfr.
  { intros m Hm. apply forgotten_frame; [done|]. destruct (Hb m) as [->|?]; [apply Hm|done]. }
  assert (n ∉ running (env_view env log1)) as Hrun.
  { unfold log1. change [CCancelRetry n; c; CCancelRetry n] with ([CCancelRetry n] ++ [c] ++ [CCancelRetry n]). rewrite !app_assoc.
    intros Hin. apply (wd_mono Hw) in Hin. revert Hin. unfold c. destruct (is_ovpn _ n) eqn:Ei; [by apply wd_ovpn|by apply wd_wg]. }
  split; [apply Hfr, disconnect_clear_forgets|]. split; [intros m Hm; by apply Hfr, clear_forgotten|].
  split; [|split].
  - destruct (disconnect_clear_forgets h n) as (_ & _ & _ & H1 & H2 & _ & H3 & _). by split_and!.
  - intros m Hm. apply clear_quiet. destruct Hm as (H1 & H2 & H3 & H4). split_and!; try done. intros Hin. by apply running_app in Hin.
  - intros m (H1 & H2 & H3 & H4). split_and!; try done; [cbn; destruct (Hb m) as [->|?]; done|].
    rewrite Hlog. intros Hin. by apply (wd_mono Hw) in Hin.
Qed.

Lemma disconnects_quiet names : forall h log u h' log', winding_down -> "" ∉ names -> closed h = false ->
  quit_each names (h, log) = (u, (h', log')) -> (forall n, n ∈ names \/ quiet h (env_view env log) n) ->
  (forall n, n ∈ names -> forgotten h' n) /\ (forall m, forgotten h m -> forgotten h' m)
  /\ (forall n, quiet h' (env_view env log') n)
  /\ (names <> [] -> exists log1, log' = log1 ++ [CApply zero_ruleset]).
Proof.
  induction names as [|a names IH]; intros h log u h' log' Hw Hne Hc H Hq.
  - injection H as <- <- <-. split_and!; try done; [intros n Hn; by apply elem_of_nil in Hn|].
    intros n. destruct (Hq n) as [Hn|?]; [by apply elem_of_nil in Hn|done].
  - rewrite not_elem_of_cons in Hne. destruct Hne as [Ha Hne]. cbn [quit_each] in H. unfold bind in H.
    destruct (handleDisconnect env a (h, log)) as [r [h1 log1]] eqn:E.
    apply disconnect_quiet in E as (l & -> & Hc1 & Hf & Hff & Hqa & Hqq & Hq'); [|done..].
    assert (forall n, n ∈ names \/ quiet (disconnect_clear h a) (env_view env l) n) as Hn.
    { intros n. destruct (Hq n) as [[->|?]%elem_of_cons|?]; [by right|by left|right; by apply Hqq]. }
    pose proof H as H0. apply IH in H as (H1 & H2 & H3 & H4); [|done..|intros n; destruct (Hn n); [by left|right; by apply Hq']].
    split; [intros n [->|?]%elem_of_cons; [by apply H2|by apply H1]|]. split; [intros m ?; by apply H2, Hff|]. split; [exact H3|]. intros _.
    destruct names as [|b names]; [|by apply H4]. unfold quit_each, ret in H0.
    apply (f_equal (fun x => snd (snd x))) in H0. cbn [snd] in H0. exists l. rewrite <- H0.
    destruct (all_quiet (disconnect_clear h a) (env_view env l) (wd_lawful Hw l)) as (_ & _ & _ & _ & Hz); [|by rewrite Hz].
    intros n. destruct (Hn n) as [Hx|?]; [by apply elem_of_nil in Hx|done].
Qed.
End Quit.

(** ** pf *)

Lemma pf_after_history pf0 o log : (forall l, reliable (o l) = true) ->
  history pf0 (fst (pf_after pf0 o log)) (snd (pf_after pf0 o log)).
Proof.
  intros Ho. unfold pf_after. induction log as [|c log IH] using rev_ind; [apply hist_start|]. rewrite foldl_app. cbn [foldl].
  destruct (foldl (pf_call o) _ log) as [l [f h]]. cbn [snd fst] in IH. destruct c; cbn; try exact IH.
  - destruct (Apply (o (l ++ [CApply rs])) rs f h) as [[r f'] hs] eqn:E. by apply (hist_apply pf0 f h (o (l ++ [CApply rs])) rs r).
  - destruct (Cleanup (o (l ++ [CFwCleanup])) f h) as [f' hs] eqn:E. by apply (hist_cleanup pf0 f h (o (l ++ [CFwCleanup]))).
Qed.

Lemma zero_restores pf0 o log : h_anchor pf0 = None -> h_file pf0 = None -> (forall l, reliable (o l) = true) ->
  snd (pf_after pf0 o (log ++ [CApply zero_ruleset])) = pf0.
Proof.
  intros Ha Hf Ho. pose proof (pf_after_history pf0 o log Ho) as Hh. pose proof (pf_after_apply pf0 o log zero_ruleset) as E.
  destruct (pf_after pf0 o log) as [f h]. cbn [fst snd] in Hh. rewrite E. apply history_ok in Hh; [|done..].
  unfold Apply. cbn. destruct (teardownLocked _ f h) as [f' hs] eqn:Et.
  apply (teardown_ok pf0) in Et as (H1 & H2 & _); [|done|apply Ho]. unfold hist_ok in H1. rewrite H2 in H1. cbn [snd].
  rewrite (bool_decide_true _ (eq_refl "")). destruct H1 as (E1 & E2 & E3). cbn [snd].
  clear -Ha Hf E1 E2 E3. destruct (final hs h), pf0. cbn in *. by subst.
Qed.

Lemma elem_of_tracked names prot n : n ∈ trackedTunnelNames (names, prot) <-> n ∈ names \/ n ∈ prot.
Proof.
  unfold trackedTunnelNames. cbn [fst snd]. revert names. induction prot as [|p prot IH]; intros names; cbn [foldl].
  - split; [by left|]. intros [?|H]; [done|by apply elem_of_nil in H].
  - rewrite IH, elem_of_cons. unfold mem. case_bool_decide as Hp; [|rewrite elem_of_app, list_elem_of_singleton]; intuition congruence.
Qed.

Lemma elem_of_protected h names n :
  n ∈ protectedTunnels h names <-> (n ∉ names) /\ (is_Some (fwHeld h !! n) \/ n ∈ fwPending h \/ is_Some (fwBlocked h !! n)).
Proof.
  unfold protectedTunnels. set (l := _ ++ _ ++ _). unfold sort_strings. rewrite merge_sort_Permutation.
  assert (forall l out, n ∈ foldl (fun out n => if mem n names || mem n out then out else out ++ [n]) out l
            <-> n ∈ out \/ (n ∈ l /\ n ∉ names)) as H.
  { clear l. induction l as [|a l IH]; intros out; cbn [foldl].
    - split; [by left|]. intros [?|[H _]]; [done|by apply elem_of_nil in H].
    - rewrite IH, elem_of_cons. unfold mem. destruct (bool_decide_reflect (a ∈ names)); cbn [orb].
      + split; [tauto|]. intros [?|[[->|?] ?]]; tauto.
      + case_bool_decide; [|rewrite elem_of_app, list_elem_of_singleton]; split; intuition congruence. }
  rewrite H. unfold l. rewrite !elem_of_app, elem_of_elements, !list_elem_of_fmap. rewrite elem_of_nil.
  assert (forall {A} (m : gmap string A), (exists y : string * A, n = fst y /\ y ∈ map_to_list m) <-> is_Some (m !! n)) as Hm.
  { intros A m. split; [intros ([k x] & -> & Hk%elem_of_map_to_list); by exists x|]. intros [x Hx]. exists (n, x). split; [done|by apply elem_of_map_to_list]. }
  rewrite !Hm. tauto.
Qed.

(** C2: Quitting gives everything back.  When the app quits, every tunnel the helper runs, reconnects or keeps blocked is
    disconnected, and then, if the managers do as they are told and nothing connects meanwhile, no tunnel is up, held
    or blocked, none of them is wanted any more, no rule of ours is left and pf is on only if it was before
    the helper. *)
Theorem quit_releases (pf0 : PfHost) (o : list Call -> Outcomes) (env : Env) (h h' : Helper) (log log' : list Call) (u : unit) :
  let tracked := trackedTunnelNames (fst (handleActiveTunnels env (h, log))) in
  h_anchor pf0 = None -> h_file pf0 = None -> (forall l, reliable (o l) = true) ->
  winding_down env -> closed h = false -> "" ∉ tracked -> tracked <> [] ->
  doShutdown env true (h, log) = (u, (h', log')) ->
  (forall n, n ∈ tracked -> forgotten h' n)
  /\ live_names (env_view env log') = [] /\ fwHeld h' = ∅ /\ fwPending h' = ∅ /\ fwBlocked h' = ∅
  /\ snd (pf_after pf0 o log') = pf0.
Proof.
  intros tracked Ha Hf Ho Hw Hc Hne Hnn H. unfold doShutdown, bind in H.
  destruct (handleActiveTunnels env (h, log)) as [active s1] eqn:E. cbn [fst] in *. subst tracked.
  assert (s1 = (h, log) /\ active = (running (env_view env log), protectedTunnels h (running (env_view env log)))) as [-> ->].
  { unfold handleActiveTunnels, bind, look, get, ret in E. cbn in E. by injection E as <- <-. }
  apply disconnects_quiet in H as (H1 & _ & H3 & H4); [|done..|].
  - destruct (all_quiet h' (env_view env log') (wd_lawful env Hw log') H3) as (E1 & E2 & E3 & E4 & _).
    split_and!; try done. destruct (H4 Hnn) as [log1 ->]. by apply zero_restores.
  - intros n. destruct (decide (n ∈ trackedTunnelNames (running (env_view env log), protectedTunnels h (running (env_view env log))))) as [|Hn];
      [by left|right]. rewrite elem_of_tracked, elem_of_protected in Hn. unfold quiet. rewrite !eq_None_not_Some.
    destruct (decide (n ∈ running (env_view env log))); [tauto|]. tauto.
Qed.

(** A tunnel that died under the kill switch is all there is; quitting opens the network again. *)
Lemma quiet_env_winds_down : winding_down quiet_env.
Proof.
  split; try (intros; apply not_elem_of_nil); [|intros log; split; [reflexivity|done]].
  intros log c n H. by apply elem_of_nil in H.
Qed.

Lemma quit_releases_witness :
  exists u h' log', doShutdown quiet_env true (blocked_helper, []) = (u, (h', log'))
  /\ fwBlocked blocked_helper <> ∅ /\ fwBlocked h' = ∅ /\ snd (pf_after plain_pf pf_works log') = plain_pf.
Proof.
  destruct (doShutdown quiet_env true (blocked_helper, [])) as [u [h' log']] eqn:E. exists u, h', log'. split; [reflexivity|].
  split; [discriminate|].
  assert (trackedTunnelNames (fst (handleActiveTunnels quiet_env (blocked_helper, []))) = ["home"]) as Et by (vm_compute; reflexivity).
  destruct (quit_releases plain_pf pf_works quiet_env blocked_helper h' [] log' u eq_refl eq_refl (fun _ => eq_refl)
     quiet_env_winds_down eq_refl) as (_ & _ & _ & _ & Hb & Hp).
  - rewrite Et. intros H. apply list_elem_of_singleton in H. discriminate H.
  - rewrite Et. discriminate.
  - exact E.
  - split; [exact Hb|exact Hp].
Defined.
