(* ===== verification/Diag.v ===== *)
(** * Diagnostics: internal/diag, internal/app/diag_ops.go and expectedDNSFor of settings_ops.go

    The test for DNS leaks, the latency of a tunnel and the routing table.  What the system's tools print, what
    a resolver answers and what a ping gives are arguments.  A float64 is its value of the Standard Library's
    [SpecFloat], so that parsing and averaging round as the machine does. *)

From Stdlib Require Import SpecFloat.
From S2P Require Import Prelude GoStrings GoNet GoText Domain Config OvpnProfile Store FileOps.

#[local] Set Warnings "-clear-no-such-hyp".

(** ** dnsleak.go *)

Record DNSServer := MkDNSServer { ds_IP : string; ds_Hostname : string; ds_IsVPN : bool }.

(** [lr_Error]: the resolvers could not be listed. *)
Record DNSLeakResult := MkLeak { lr_Leaked : bool; lr_DNSServers : list DNSServer; lr_TestDomain : string; lr_Error : bool }.

(** The address of a line of [scutil --dns]. *)
Definition nameserver_of (line : string) : option string :=
  let line := trim_space line in
  if negb (has_prefix "nameserver[" line) then None
  else match cut_byte ":" line with
       | None => None
       | Some (_, rest) => let ip := trim_space rest in if ip_valid ip then Some ip else None
       end.

(** An address is taken at its first line; [servers] are those taken so far, the map [seen] of the code. *)
Definition take_server (servers : list string) (line : string) : list string :=
  match nameserver_of line with
  | Some ip => if bool_decide (ip ∈ servers) then servers else servers ++ [ip]
  | None => servers
  end.

(** [None]: scutil failed. *)
Definition readDarwinResolvers (scutil : option string) : option (list string) :=
  foldl take_server [] ∘ split_byte newline <$> scutil.

(** How a lookup through one resolver ends: addresses, a *DNSError with IsNotFound, or any other error. *)
Inductive Lookup := LkFound | LkNotFound | LkFailed.

(** Where the queries for a server go. *)
Definition dial_address (server : string) : string :=
  match split_host_port server with Some _ => server | None => join_host_port server "53" end.

Definition testDNSServer (query : string -> string -> Lookup) (server domain : string) : bool :=
  match query (dial_address server) domain with LkFailed => false | _ => true end.

Definition test_domain (n : Z) : string := "wireguide-test-" +:+ itoa n +:+ ".example.com".

(** [n]: the random number; [lookup_addr]: the names a reverse lookup gives. *)
Definition leak_test (n : Z) (scutil : option string) (lookup_addr : string -> list string)
    (query : string -> string -> Lookup) (expectedDNS : list string) : DNSLeakResult :=
  let domain := test_domain n in
  match readDarwinResolvers scutil with
  | None => MkLeak false [] domain true
  | Some systemDNS =>
      let test '(leaked, servers) dns :=
        let isVPN := bool_decide (dns ∈ expectedDNS) in
        let responds := testDNSServer query dns domain in
        (leaked || (negb isVPN && responds), servers ++ [MkDNSServer dns (default "" (head (lookup_addr dns))) isVPN]) in
      let '(leaked, servers) := foldl test (false, []) systemDNS in
      MkLeak leaked servers domain false
  end.

(** ** Numbers of ping.go *)

Abbreviation float64 := spec_float.

(** The float64 nearest to [m / d]. *)
Definition float_ratio (m d : Z) : float64 :=
  match m, d with
  | Zpos m, Zpos d => let '(q, e, l) := SFdiv_core_binary 53 1024 (Zpos m) 0 (Zpos d) 0 in binary_round_aux 53 1024 false q e l
  | _, _ => S754_zero false
  end.

(** The digits of a decimal: their value, how many come after a point, and whether there is one at all. *)
Fixpoint decimal_digits (dot seen : bool) (acc : Z) (scale : nat) (s : string) : option (Z * nat) :=
  match s with
  | "" => if seen then Some (acc, scale) else None
  | String c s =>
      if bool_decide (c = "."%char) then if dot then None else decimal_digits true seen acc scale s
      else match digit_val c with
           | Some v => if (v <? 10)%Z then decimal_digits dot true (10 * acc + v) (if dot then S scale else scale) s else None
           | None => None
           end
  end.

(** strconv.ParseFloat of digits and points; a number too large for a float64 is an error. *)
Definition ParseFloat (s : string) : option float64 :=
  match decimal_digits false false 0 0 s with
  | None => None
  | Some (m, scale) => match float_ratio m (10 ^ Z.of_nat scale) with
                       | S754_infinity _ => None
                       | f => Some f
                       end
  end.

Definition float_pos (f : float64) : bool := SFltb (S754_zero false) f.

(** int(f), for the floats the conversion is defined on. *)
Definition float_int (f : float64) : Z :=
  match f with
  | S754_finite s m e => let v := if (0 <=? e)%Z then Zpos m * 2 ^ e else Zpos m / 2 ^ (- e) in if s then - v else v
  | _ => 0
  end%Z.

(** ** The regular expressions of ping.go *)

Definition digit_or_dot (c : ascii) : bool := decimal c || bool_decide (c = "."%char).

(** A class repeated at least once: the text that matches and what follows. *)
Definition span1 (p : ascii -> bool) (s : string) : option (string * string) :=
  match span p s with ("", _) => None | r => Some r end.

(** [= [\d.]+/([\d.]+)/] *)
Definition unix_avg_here (s : string) : option string :=
  match after_prefix "= " s with
  | None => None
  | Some s =>
      match span1 digit_or_dot s with
      | Some (_, String "/" s) =>
          match span1 digit_or_dot s with
          | Some (avg, String "/" _) => Some avg
          | _ => None
          end
      | _ => None
      end
  end.

(** [Average = (\d+)ms] *)
Definition windows_avg_here (s : string) : option string :=
  match after_prefix "Average = " s with
  | None => None
  | Some s => match span1 decimal s with
              | Some (n, rest) => if has_prefix "ms" rest then Some n else None
              | None => None
              end
  end.

(** The class [\s]. *)
Definition re_space (c : ascii) : bool :=
  existsb (byte_is c) [9; 10; 12; 13; 32].

(** [time[=<]([\d.]+)\s*ms], with what follows the match. *)
Definition rtt_here (s : string) : option (string * string) :=
  match after_prefix "time" s with
  | Some (String c s) =>
      if bool_decide (c ∈ ["="%char; "<"%char]) then
        match span1 digit_or_dot s with
        | Some (n, rest) => option_map (pair n) (after_prefix "ms" (snd (span re_space rest)))
        | None => None
        end
      else None
  | _ => None
  end.

(** FindAllStringSubmatch; [fuel]: the characters left. *)
Fixpoint find_all_rtt (fuel : nat) (s : string) : list string :=
  match fuel with
  | O => []
  | S fuel => match rtt_here s with
              | Some (n, rest) => n :: find_all_rtt fuel rest
              | None => match s with "" => [] | String _ s => find_all_rtt fuel s end
              end
  end.

Definition parsePingLatency (output : string) : float64 :=
  let parsed re := match find_first re output with Some n => ParseFloat n | None => None end in
  match parsed unix_avg_here with
  | Some f => f
  | None => default (S754_zero false) (parsed windows_avg_here)
  end.

Definition parseIndividualPingTimes (output : string) : float64 :=
  let times := omap ParseFloat (find_all_rtt (S (String.length output)) output) in
  match times with
  | [] => S754_zero false
  | _ => SFdiv 53 1024 (foldl (SFadd 53 1024) (S754_zero false) times) (float_ratio (Z.of_nat (length times)) 1)
  end.

(** ** PingEndpoint *)

Inductive PingError := PeResolve | PeUnreachable.

Record PingResult := MkPing { pr_Host : string; pr_IP : string; pr_Reachable : bool; pr_LatencyMs : float64; pr_Error : option PingError }.

Section Ping.
(** The first address of a name, and what a command prints with the milliseconds it took; [None] for an error. *)
Context (lookup_host : string -> option string) (run : string -> list string -> option (string * Z)).

Definition ping_command (ip : string) : string * list string :=
  let isIPv6 := match parse_ip ip with Some p => bool_decide (to4 p = None) | None => false end in
  if isIPv6 then ("/sbin/ping6", ["-c"; "3"; ip])
  else ("/sbin/ping", ["-c"; "3"; "-W"; "3000"; ip]).

Definition ping_latency (output : string) (elapsed : Z) : float64 :=
  let latency := parsePingLatency output in
  if float_pos latency then latency
  else let avg := parseIndividualPingTimes output in
       if float_pos avg then avg else float_ratio elapsed 3.

Definition PingEndpoint (endpoint : string) : PingResult :=
  let host := match split_host_port endpoint with Some (host, _) => host | None => endpoint end in
  match lookup_host host with
  | None => MkPing host "" false (S754_zero false) (Some PeResolve)
  | Some ip =>
      let '(tool, args) := ping_command ip in
      match run tool args with
      | None => MkPing host ip false (S754_zero false) (Some PeUnreachable)
      | Some (out, elapsed) => MkPing host ip true (ping_latency out elapsed) None
      end
  end.

(** ** diag_ops.go: latency of a stored tunnel

    With the endpoints that were pinged, in order. *)

Context (fold : string -> string) (io : Access -> bool).

(** The resolvers of a tunnel, until one replies. *)
Fixpoint ping_dns (entries : list string) : list string * option Z :=
  match entries with
  | [] => ([], None)
  | entry :: rest =>
      let entry := trim_space entry in
      if negb (ip_valid entry) then ping_dns rest
      else let r := PingEndpoint entry in
           if pr_Reachable r then ([entry], Some (float_int (pr_LatencyMs r)))
           else let '(pinged, latency) := ping_dns rest in (entry :: pinged, latency)
  end.

Definition ping_one (endpoint : string) : list string * Z :=
  let r := PingEndpoint endpoint in
  ([endpoint], if pr_Reachable r then float_int (pr_LatencyMs r) else -1)%Z.

Definition getOVPNLatency (d : Dir) (name : string) : list string * Z :=
  match LoadOVPN fold io d name with
  | Err _ => ([], -1)%Z
  | Ok content => match ParseOVPN content with
                  | Ok cfg => if ocRemote cfg =s "" then ([], -1)%Z else ping_one (ocRemote cfg)
                  | Err _ => ([], -1)%Z
                  end
  end.

Definition isTunnelActive (active : ActiveTunnels) (name : string) : bool :=
  match active with Some (names, _) => bool_decide (name ∈ names) | None => false end.

Definition GetTunnelLatency (active : ActiveTunnels) (d : Dir) (name : string) : list string * Z :=
  if IsOVPN fold d name then getOVPNLatency d name
  else match Load fold io d name with
       | Err _ => ([], -1)%Z
       | Ok cfg =>
           let '(pinged, found) := if isTunnelActive active name then ping_dns (DNS (Interface cfg)) else ([], None) in
           match found with
           | Some ms => (pinged, ms)
           | None => match Peers cfg with
                     | p :: _ => if Endpoint p =s "" then (pinged, -1)%Z
                                 else let '(more, ms) := ping_one (Endpoint p) in (pinged ++ more, ms)
                     | [] => (pinged, -1)%Z
                     end
           end
       end.

(** ** The leak test of the service; [status] is what each of its status calls gets *)

Definition expectedDNSFor (status : option ConnectionStatus) (d : Dir) (tunnelName : string) : list string :=
  if tunnelName =s "" then []
  else if IsOVPN fold d tunnelName then match status with Some st => cs_DNSServers st | None => [] end
  else match Load fold io d tunnelName with Ok cfg => DNS (Interface cfg) | Err _ => [] end.

Definition RunDNSLeakTest (n : Z) (scutil : option string) (lookup_addr : string -> list string)
    (query : string -> string -> Lookup) (status status2 : option ConnectionStatus) (d : Dir) : DNSLeakResult :=
  let expected := match status with Some st => expectedDNSFor status2 d (cs_TunnelName st) | None => [] end in
  leak_test n scutil lookup_addr query expected.
End Ping.

(** ** routes.go *)

Record RouteEntry := MkRouteEntry { re_Destination : string; re_Gateway : string; re_Interface : string; re_Flags : string }.

Definition route_of (line : string) : option RouteEntry :=
  match fields line with
  | dest :: gw :: flags :: ifc :: _ =>
      if bool_decide (dest ∈ ["Destination"; "Routing"; "Internet:"]) then None
      else Some (MkRouteEntry dest gw ifc flags)
  | _ => None
  end.

(** The routes netstat prints; [None] when it fails. *)
Definition GetRoutingTable (netstat : option string) : option (list RouteEntry) :=
  omap route_of ∘ split_byte newline <$> netstat.

(** * Facts *)

(** ** The leak test *)

Lemma take_servers_spec lines : forall acc, NoDup acc ->
  NoDup (foldl take_server acc lines)
  /\ forall ip, ip ∈ foldl take_server acc lines <-> ip ∈ acc \/ exists line, line ∈ lines /\ nameserver_of line = Some ip.
Proof.
  induction lines as [|line lines IH]; intros acc Hacc; cbn [foldl].
  { split; [done|]. intros ip. split; [by left|]. intros [H|(l & H & _)]; [done|by apply elem_of_nil in H]. }
  assert (Hone : NoDup (take_server acc line) /\ forall ip, ip ∈ take_server acc line <-> ip ∈ acc \/ nameserver_of line = Some ip).
  { unfold take_server. destruct (nameserver_of line) as [ip'|]; [|split; [done|naive_solver]].
    case_bool_decide as Hin; split; try done.
    - intros ip. split; [by left|]. intros [?|[= <-]]; done.
    - apply NoDup_app. split; [done|]. split; [|apply NoDup_singleton].
      intros x Hx Hx'. apply list_elem_of_singleton in Hx'. by subst.
    - intros ip. rewrite elem_of_app, list_elem_of_singleton. naive_solver. }
  destruct Hone as [Hnd Hel]. destruct (IH _ Hnd) as [H1 H2]. split; [done|].
  intros ip. rewrite H2, Hel. split.
  - intros [[?|E]|(l & Hl & E)]; [by left|right; exists line; by rewrite elem_of_cons; auto|right; exists l; by rewrite elem_of_cons; auto].
  - intros [?|(l & [->|Hl]%elem_of_cons & E)]; [by left; left|by left; right|right; by exists l].
Qed.

Section LeakFold.
Context (test : string -> bool) (server : string -> DNSServer).

Lemma leak_fold dnss : forall leaked servers,
  foldl (fun '(leaked, servers) dns => (leaked || test dns, servers ++ [server dns])) (leaked, servers) dnss
  = (leaked || existsb test dnss, servers ++ (server <$> dnss)).
Proof.
  induction dnss as [|dns dnss IH]; intros leaked servers; cbn.
  - by rewrite orb_false_r, app_nil_r.
  - rewrite IH, orb_assoc, <- app_assoc. done.
Qed.
End LeakFold.

(** A leak test that could not list the resolvers says so, and reports no leak; otherwise it shows every resolver the
    system lists, once each, marks those that are expected, and reports a leak exactly when one that is not
    expected answered a query for the fresh name. *)
Theorem leak_reported n scutil lookup_addr query expected :
  let r := leak_test n scutil lookup_addr query expected in
  match scutil with
  | None => lr_Error r = true /\ lr_DNSServers r = [] /\ lr_Leaked r = false
  | Some out =>
      lr_Error r = false
      /\ NoDup (ds_IP <$> lr_DNSServers r)
      /\ (forall ip, ip ∈ ds_IP <$> lr_DNSServers r
            <-> exists line, line ∈ split_byte newline out /\ nameserver_of line = Some ip)
      /\ (forall s, s ∈ lr_DNSServers r -> ds_IsVPN s = true <-> ds_IP s ∈ expected)
      /\ (lr_Leaked r = true
            <-> exists s, s ∈ lr_DNSServers r /\ ds_IsVPN s = false /\ query (dial_address (ds_IP s)) (test_domain n) <> LkFailed)
  end.
Proof.
  cbn zeta. unfold leak_test, readDarwinResolvers. destruct scutil as [out|]; [|done]. cbn [fmap option_fmap option_map].
  set (expect dns := bool_decide (dns ∈ expected)).
  set (server dns := MkDNSServer dns (default "" (head (lookup_addr dns))) (expect dns)).
  unfold compose. change (foldl _ (false, []) ?l) with
    (foldl (fun '(leaked, servers) dns => (leaked || (negb (expect dns) && testDNSServer query dns (test_domain n)), servers ++ [server dns])) (false, []) l).
  rewrite (leak_fold (fun dns => negb (expect dns) && testDNSServer query dns (test_domain n)) server).
  cbn [lr_Error lr_DNSServers lr_Leaked app orb].
  destruct (take_servers_spec (split_byte newline out) [] (NoDup_nil_2)) as [Hnd Hel].
  set (dnss := foldl take_server [] (split_byte newline out)) in *.
  assert (Hip : ds_IP <$> (server <$> dnss) = dnss) by (rewrite <- list_fmap_compose; apply list_fmap_id).
  split; [done|]. rewrite Hip. split; [done|]. split.
  { intros ip. rewrite Hel, elem_of_nil. naive_solver. }
  split.
  - intros s (dns & -> & _)%list_elem_of_fmap. apply bool_decide_eq_true.
  - rewrite existsb_exists. unfold testDNSServer. split.
    + intros (dns & Hin & [Hv Hq]%andb_prop). exists (server dns). split; [apply list_elem_of_fmap; exists dns; by rewrite list_elem_of_In|].
      split; [by apply negb_true_iff in Hv|]. cbn. by destruct (query _ _).
    + intros (s & (dns & -> & Hin)%list_elem_of_fmap & Hv & Hq). exists dns. rewrite <- list_elem_of_In. split; [done|]. cbn in Hv, Hq.
      apply andb_true_intro. split; [by apply negb_true_iff|by destruct (query _ _)].
Qed.

(** A resolver of the link, with its zone, is not an IP address of net.ParseIP: the test never sees it. *)
Definition scutil_zoned : string :=
  "resolver #1" +:+ String newline "  nameserver[0] : fe80::1%en0" +:+ String newline "".

Example zoned_resolver_unseen lookup_addr query :
  leak_test 7 (Some scutil_zoned) lookup_addr query [] = MkLeak false [] "wireguide-test-7.example.com" false.
Proof. vm_compute. reflexivity. Qed.

(** Addresses are compared as texts: the tunnel's own resolver, written otherwise, is a leak. *)
Example own_resolver_leaks :
  let out := "  nameserver[0] : fd00::1" in
  let r := leak_test 7 (Some out) (fun _ => []) (fun _ _ => LkFound) ["FD00::1"] in
  parse_ip "FD00::1" = parse_ip "fd00::1" /\ lr_Leaked r = true.
Proof. vm_compute. done. Qed.

(** ** Latency *)

Definition nonneg_float (f : float64) : Prop := (0 <= float_int f)%Z.

Lemma float_pos_nonneg f : float_pos f = true -> nonneg_float f.
Proof.
  unfold float_pos, nonneg_float. destruct f as [s|s| |s m e]; try done.
  destruct s; [done|]. intros _. cbn [float_int].
  destruct (Z.leb_spec 0 e); [|apply Z.div_pos; lia]. pose proof (Z.pow_pos_nonneg 2 e). nia.
Qed.

Lemma binary_round_nonneg q e l : nonneg_float (binary_round_aux 53 1024 false q e l).
Proof.
  unfold binary_round_aux. destruct (shr_fexp 53 1024 q e l) as [mrs e'].
  destruct (shr_fexp 53 1024 _ e' loc_Exact) as [mrs' e'']. destruct (shr_m mrs') as [|p|p]; [done| |done].
  destruct (e'' <=? 1024 - 53)%Z; [|done]. unfold nonneg_float. cbn [float_int].
  destruct (Z.leb_spec 0 e''); [|apply Z.div_pos; lia]. pose proof (Z.pow_pos_nonneg 2 e''). nia.
Qed.

Lemma float_ratio_nonneg m d : nonneg_float (float_ratio m d).
Proof.
  unfold float_ratio. destruct m as [|m|m]; [done| |done]. destruct d as [|d|d]; [done| |done].
  destruct (SFdiv_core_binary 53 1024 (Zpos m) 0 (Zpos d) 0) as [[q e] l]. apply binary_round_nonneg.
Qed.

Lemma ping_latency_nonneg out elapsed : nonneg_float (ping_latency out elapsed).
Proof.
  unfold ping_latency. destruct (float_pos (parsePingLatency out)) eqn:E; [by apply float_pos_nonneg|].
  destruct (float_pos (parseIndividualPingTimes out)) eqn:E'; [by apply float_pos_nonneg|apply float_ratio_nonneg].
Qed.

Section Latency.
Context (lookup_host : string -> option string) (run : string -> list string -> option (string * Z)).
Context (fold : string -> string) (io : Access -> bool).

Abbreviation reach t := (pr_Reachable (PingEndpoint lookup_host run t)).
Abbreviation millis t := (float_int (pr_LatencyMs (PingEndpoint lookup_host run t))).

(** What is worth a ping, in order. *)
Definition latency_targets (active : ActiveTunnels) (d : Dir) (name : string) : list string :=
  if IsOVPN fold d name then
    match LoadOVPN fold io d name with
    | Ok content => match ParseOVPN content with Ok cfg => if ocRemote cfg =s "" then [] else [ocRemote cfg] | Err _ => [] end
    | Err _ => []
    end
  else match Load fold io d name with
       | Ok cfg => (if isTunnelActive active name then List.filter ip_valid (trim_space <$> DNS (Interface cfg)) else [])
                   ++ match Peers cfg with p :: _ => if Endpoint p =s "" then [] else [Endpoint p] | [] => [] end
       | Err _ => []
       end.

Fixpoint first_reply (targets : list string) : list string * Z :=
  match targets with
  | [] => ([], -1)%Z
  | t :: rest => if reach t then ([t], millis t) else let '(pinged, ms) := first_reply rest in (t :: pinged, ms)
  end.

Lemma millis_nonneg t : (0 <= millis t)%Z.
Proof.
  unfold PingEndpoint. destruct (lookup_host _) as [ip|]; [|done].
  destruct (ping_command ip) as [tool args]. destruct (run tool args) as [[out elapsed]|]; [|done]. apply ping_latency_nonneg.
Qed.

Lemma ping_dns_first_reply entries more :
  (let '(pinged, found) := ping_dns lookup_host run entries in
   match found with
   | Some ms => (pinged, ms)
   | None => let '(more, ms) := first_reply more in (pinged ++ more, ms)
   end) = first_reply (List.filter ip_valid (trim_space <$> entries) ++ more).
Proof.
  induction entries as [|e entries IH]; cbn -[PingEndpoint]; [by destruct (first_reply more)|].
  destruct (ip_valid (trim_space e)); cbn -[PingEndpoint]; [|done].
  destruct (reach (trim_space e)); [done|]. destruct (ping_dns lookup_host run entries) as [pinged [ms|]]; rewrite <- IH; [done|].
  by destruct (first_reply more).
Qed.

Lemma ping_one_first_reply t : ping_one lookup_host run t = first_reply [t].
Proof. unfold ping_one. cbn -[PingEndpoint]. by destruct (reach t). Qed.

Lemma GetTunnelLatency_first_reply active d name :
  GetTunnelLatency lookup_host run fold io active d name = first_reply (latency_targets active d name).
Proof.
  unfold GetTunnelLatency, latency_targets, getOVPNLatency. destruct (IsOVPN fold d name).
  - destruct (LoadOVPN fold io d name) as [content|]; [|done]. destruct (ParseOVPN content) as [cfg|]; [|done].
    case_bool_decide; [done|apply ping_one_first_reply].
  - destruct (Load fold io d name) as [cfg|]; [|done].
    set (more := match Peers cfg with p :: _ => _ | [] => _ end).
    assert (Hend : forall pinged : list string,
      match Peers cfg with
      | p :: _ => if Endpoint p =s "" then (pinged, -1)%Z else let '(more, ms) := ping_one lookup_host run (Endpoint p) in (pinged ++ more, ms)
      | [] => (pinged, -1)%Z
      end = let '(more, ms) := first_reply more in (pinged ++ more, ms)).
    { intros pinged. unfold more. destruct (Peers cfg) as [|p ps]; [cbn; by rewrite app_nil_r|].
      case_bool_decide; [cbn; by rewrite app_nil_r|]. by rewrite ping_one_first_reply. }
    destruct (isTunnelActive active name).
    + rewrite <- ping_dns_first_reply. destruct (ping_dns lookup_host run (DNS (Interface cfg))) as [pinged [ms|]]; [done|apply Hend].
    + rewrite (Hend []), app_nil_l. by destruct (first_reply more).
Qed.

(** The latency of a tunnel is that of the first of its targets that replies, nothing is pinged after it, and
    the answer is -1 exactly when no target replies. *)
Theorem latency_of_first_reply active d name pinged ms :
  GetTunnelLatency lookup_host run fold io active d name = (pinged, ms) ->
  (ms = -1)%Z /\ pinged = latency_targets active d name /\ Forall (fun t => reach t = false) pinged
  \/ (0 <= ms)%Z /\ exists before t after,
       latency_targets active d name = before ++ t :: after /\ pinged = before ++ [t]
       /\ Forall (fun t => reach t = false) before /\ reach t = true /\ ms = millis t.
Proof.
  rewrite GetTunnelLatency_first_reply. generalize (latency_targets active d name) as targets.
  intros targets. revert pinged ms. induction targets as [|t targets IH]; intros pinged ms; cbn -[PingEndpoint].
  { intros [= <- <-]. by left. }
  destruct (reach t) eqn:Et.
  - intros [= <- <-]. right. split; [apply millis_nonneg|]. by exists [], t, targets.
  - destruct (first_reply targets) as [pinged' ms'] eqn:E. intros [= <- <-].
    destruct (IH _ _ eq_refl) as [(-> & -> & H)|(Hms & before & t' & after & -> & -> & Hb & Ht & ->)].
    + left. by repeat constructor.
    + right. split; [done|]. exists (t :: before), t', after. repeat split; try done. by constructor.
Qed.
End Latency.
