(* ===== verification/Keychain.v ===== *)
(** * Saved credentials: internal/ovpn/keychain_darwin.go and .m, and the service's operations on them

    A secret per tunnel in the user's keychain.  The Security framework is the interface [Security]: its calls,
    and what they do to the items of the caller's default keychain. *)

From S2P Require Import Prelude GoStrings GoText Recovery Store StoreFacts FileOps.

#[local] Set Warnings "-clear-no-such-hyp".

(** ** The Security framework

    Items of the service by account; statuses are OSStatus, 0 for success. *)

Definition errSecItemNotFound : Z := -25300.
Definition errSecDuplicateItem : Z := -25299.

Class Security (K : Type) := {
  default_keychain : K -> bool;   (** SecKeychainCopyDefault; without it queries search everywhere *)
  SecItemDelete : bool -> string -> K -> Z * K;   (** restricted to the default keychain or not *)
  SecItemAdd : string -> string -> K -> Z * K;
  SecItemUpdate : string -> string -> K -> Z * K;
  SecItemCopyMatching : bool -> string -> K -> Z * string;
  (** The items of the default keychain. *)
  items : K -> gmap string string;
  deleted a k : let '(status, k') := SecItemDelete true a k in
                if bool_decide (status = 0%Z) then items k' = delete a (items k)
                else items k' = items k /\ (status = errSecItemNotFound -> items k !! a = None);
  (** Wherever it searches, a delete leaves the other accounts alone. *)
  deleted_others restricted a b k : a <> b -> items (snd (SecItemDelete restricted a k)) !! b = items k !! b;
  added a v k : let '(status, k') := SecItemAdd a v k in
                if bool_decide (status = 0%Z) then items k' = <[a := v]> (items k)
                else items k' = items k /\ (status = errSecDuplicateItem -> is_Some (items k !! a));
  (** The first match is replaced, wherever it is. *)
  updated a v k : let '(status, k') := SecItemUpdate a v k in
                  items k' = items k \/ is_Some (items k !! a) /\ items k' = <[a := v]> (items k);
  copied a k : let '(status, raw) := SecItemCopyMatching true a k in
               if bool_decide (status = 0%Z) then items k !! a = Some raw
               else status = errSecItemNotFound -> items k !! a = None
}.

(** ** The calls of keychain_darwin.m *)

Section Native.
Context {K : Type} `{!Security K}.
(** stringWithUTF8String gives an object. *)
Context (utf8 : string -> bool).

Definition kBadParam : Z := -50.

Definition keychainStoreGenericPassword (account secret : string) (k : K) : Z * K :=
  if negb (utf8 account) then (kBadParam, k)
  else let '(status, k) := SecItemDelete (default_keychain k) account k in
       if negb (bool_decide (status = 0%Z)) && negb (bool_decide (status = errSecItemNotFound)) then (status, k)
       else let '(status, k) := SecItemAdd account secret k in
            if bool_decide (status = errSecDuplicateItem) then SecItemUpdate account secret k else (status, k).

Definition keychainLoadGenericPassword (account : string) (k : K) : Z * string :=
  if negb (utf8 account) then (kBadParam, "") else SecItemCopyMatching (default_keychain k) account k.

Definition keychainDeleteGenericPassword (account : string) (k : K) : Z * K :=
  if negb (utf8 account) then (kBadParam, k)
  else let '(status, k) := SecItemDelete (default_keychain k) account k in
       (if bool_decide (status = errSecItemNotFound) then 0%Z else status, k).

(** ** keychain_darwin.go *)

Record Credentials := MkCredentials { cr_Username : string; cr_BasePassword : string }.

(** C.CString: what C reads of a Go string. *)
Definition c_string (s : string) : string := fst (span (fun c => negb (bool_decide (c = nul))) s).

(** The bytes a decoder gives, as the string of them. *)
Definition bytes_string (l : list Z) : string := string_of ((fun z => ascii_of_N (Z.to_N z)) <$> l).

Definition encode_secret (username basePassword : string) : string :=
  "b64:" +:+ b64_encode (username +:+ String newline basePassword).

Definition StoreCredentials (tunnelName username basePassword : string) (k : K) : option Z * K :=
  let '(status, k) := keychainStoreGenericPassword (c_string tunnelName) (encode_secret username basePassword) k in
  (if bool_decide (status = 0%Z) then None else Some status, k).

Definition hex_val (c : ascii) : option Z :=
  match digit_val c with Some d => if (d <? 16)%Z then Some d else None | None => None end.

(** hex.DecodeString *)
Fixpoint hex_DecodeString (s : string) : option (list Z) :=
  match s with
  | "" => Some []
  | String a (String b s) =>
      match hex_val a, hex_val b, hex_DecodeString s with
      | Some x, Some y, Some l => Some ((16 * x + y)%Z :: l)
      | _, _, _ => None
      end
  | _ => None
  end.

Definition decodeSecret (raw : string) : option string :=
  match after_prefix "b64:" raw with
  | Some text => bytes_string <$> b64_decode text
  | None => match hex_DecodeString raw with
            | Some (b :: l) => Some (bytes_string (b :: l))
            | _ => Some raw
            end
  end.

Inductive LoadError := ErrCredentialsNotFound | KeychainStatus (status : Z) | BadSecret.

Definition parse_payload (payload : string) : Credentials :=
  match cut_byte newline payload with
  | Some (u, p) => MkCredentials u p
  | None => MkCredentials payload ""
  end.

Definition LoadCredentials (tunnelName : string) (k : K) : result LoadError Credentials :=
  let '(status, raw) := keychainLoadGenericPassword (c_string tunnelName) k in
  if negb (bool_decide (status = 0%Z)) then Err (if bool_decide (status = errSecItemNotFound) then ErrCredentialsNotFound else KeychainStatus status)
  else match decodeSecret raw with
       | None => Err BadSecret
       | Some payload => Ok (parse_payload payload)
       end.

Definition DeleteCredentials (tunnelName : string) (k : K) : option Z * K :=
  let '(status, k) := keychainDeleteGenericPassword (c_string tunnelName) k in
  (if bool_decide (status = 0%Z) then None else Some status, k).

(** ** The service *)

Definition SaveCredentials := StoreCredentials.

(** [Ok None]: nothing is saved. *)
Definition GetSavedCredentials (tunnelName : string) (k : K) : result LoadError (option Credentials) :=
  match LoadCredentials tunnelName k with
  | Ok c => Ok (Some c)
  | Err ErrCredentialsNotFound => Ok None
  | Err e => Err e
  end.

Context (fold : string -> string) (io : Access -> bool).

(** DeleteTunnel, with the keychain. *)
Definition delete_tunnel (active : ActiveTunnels) (disconnect : bool) (st : Dir * K) (name : string) : (Dir * K) * option OpError :=
  let '(d, k) := st in
  match active with
  | None => (st, Some OEUnreachable)
  | Some (names, _) =>
      if bool_decide (name ∈ names) then (st, Some OEActive)
      else if negb disconnect then (st, Some OEDisconnect)
      else let k := if IsOVPN fold d name then snd (DeleteCredentials name k) else k in
           let '(d, err) := Delete fold io d name in ((d, k), OEStore <$> err)
  end.

Definition move_credentials (oldName newName : string) (k : K) : K :=
  match LoadCredentials oldName k with
  | Err _ => k
  | Ok c => match StoreCredentials newName (cr_Username c) (cr_BasePassword c) k with
            | (Some _, k) => k
            | (None, k) => snd (DeleteCredentials oldName k)
            end
  end.

(** RenameTunnel, with the keychain. *)
Definition rename_tunnel (active : ActiveTunnels) (st : Dir * K) (oldName newName : string) : (Dir * K) * option OpError :=
  let '(d, k) := st in
  match ValidateTunnelName newName with
  | Some e => (st, Some (OEStore (SEName e)))
  | None =>
      match active with
      | None => (st, Some OEUnreachable)
      | Some a =>
          if isTunnelTracked a oldName then (st, Some OETracked)
          else let isOVPN := IsOVPN fold d oldName in
               let '(d, err) := Rename fold io d oldName newName in
               match err with
               | Some e => ((d, k), Some (OEStore e))
               | None => ((d, if isOVPN then move_credentials oldName newName k else k), None)
               end
      end
  end.
End Native.

(** * Facts *)

(** ** The secret's encoding *)

Lemma bytes_string_vals s : bytes_string (byte_val <$> bytes_of s) = s.
Proof. apply string_of_byte_vals. Qed.

Lemma decode_encode u p : decodeSecret (encode_secret u p) = Some (u +:+ String newline p).
Proof.
  unfold decodeSecret, encode_secret. rewrite after_prefix_app, b64_roundtrip. cbn [fmap option_fmap option_map].
  by rewrite bytes_string_vals.
Qed.

Lemma parse_payload_join u p : contains_byte newline u = false -> parse_payload (u +:+ String newline p) = MkCredentials u p.
Proof.
  intros H. unfold parse_payload. assert (cut_byte newline (u +:+ String newline p) = Some (u, p)) as ->; [|done].
  induction u as [|c u IH]; [done|]. cbn [contains_byte] in H. apply orb_false_iff in H as [E H].
  change (String c u +:+ String newline p) with (String c (u +:+ String newline p)). cbn [cut_byte]. by rewrite E, IH.
Qed.

Lemma parse_payload_user payload : contains_byte newline (cr_Username (parse_payload payload)) = false.
Proof.
  unfold parse_payload. induction payload as [|c s IH]; [done|]. cbn [cut_byte].
  destruct (bool_decide (c = newline)) eqn:E; [done|].
  destruct (cut_byte newline s) as [[u p]|]; cbn [cr_Username contains_byte] in *; by rewrite E.
Qed.

(** What an item says, for a tunnel's name. *)
Definition saved (m : gmap string string) (tunnelName : string) : option Credentials :=
  parse_payload <$> (m !! c_string tunnelName ≫= decodeSecret).

Lemma saved_insert m n u p :
  contains_byte newline u = false -> saved (<[c_string n := encode_secret u p]> m) n = Some (MkCredentials u p).
Proof.
  intros H. unfold saved. rewrite lookup_insert_eq. cbn [mbind option_bind]. rewrite decode_encode. cbn. by rewrite parse_payload_join.
Qed.

(** ** The operations, when the default keychain can be told *)

Section Facts.
Context {K : Type} `{!Security K}.
Context (utf8 : string -> bool).

Lemma store_spec n u p k : default_keychain k = true ->
  let '(err, k') := StoreCredentials utf8 n u p k in
  match err with
  | None => items k' = <[c_string n := encode_secret u p]> (items k)
  | Some _ => items k' = items k \/ items k' = delete (c_string n) (items k)
  end.
Proof.
  intros default_known. unfold StoreCredentials, keychainStoreGenericPassword. destruct (utf8 _); [|by left]. cbn [negb].
  rewrite default_known. pose proof (deleted (c_string n) k) as Hd.
  destruct (SecItemDelete true (c_string n) k) as [status k1].
  assert (Hgone : status = 0%Z \/ status = errSecItemNotFound -> items k1 = delete (c_string n) (items k)).
  { intros H. case_bool_decide; [done|]. destruct Hd as [-> Hd]. symmetry. apply delete_id, Hd. by destruct H. }
  destruct (negb (bool_decide (status = 0%Z)) && negb (bool_decide (status = errSecItemNotFound))) eqn:E.
  { case_bool_decide; [subst; done|]. destruct Hd as [-> _]. by left. }
  assert (Hk1 : items k1 = delete (c_string n) (items k)).
  { apply Hgone. apply andb_false_iff in E. by rewrite !negb_false_iff, !bool_decide_eq_true in E. }
  pose proof (added (c_string n) (encode_secret u p) k1) as Ha. rewrite Hk1 in Ha.
  destruct (SecItemAdd _ _ k1) as [status' k2]. destruct (bool_decide (status' = 0%Z)) eqn:E0.
  - apply bool_decide_eq_true in E0. subst status'.
    rewrite (bool_decide_eq_false_2 (0%Z = errSecDuplicateItem)), bool_decide_eq_true_2 by done.
    by rewrite Ha, insert_delete_eq.
  - destruct Ha as [Ha Hdup]. destruct (bool_decide (status' = errSecDuplicateItem)) eqn:Edup.
    + apply bool_decide_eq_true in Edup. destruct (Hdup Edup) as [v Hv]. by rewrite lookup_delete_eq in Hv.
    + rewrite E0. by right.
Qed.

Lemma load_spec n k c : default_keychain k = true -> LoadCredentials utf8 n k = Ok c -> saved (items k) n = Some c.
Proof.
  intros default_known. unfold LoadCredentials, keychainLoadGenericPassword. destruct (utf8 _); [|done]. cbn [negb]. rewrite default_known.
  pose proof (copied (c_string n) k) as Hc. destruct (SecItemCopyMatching _ _ k) as [status raw].
  destruct (bool_decide (status = 0%Z)); [|done]. cbn [negb]. unfold saved. rewrite Hc. cbn [mbind option_bind].
  destruct (decodeSecret raw); [|done]. by intros [= <-].
Qed.

Lemma load_missing n k : default_keychain k = true -> LoadCredentials utf8 n k = Err ErrCredentialsNotFound -> items k !! c_string n = None.
Proof.
  intros default_known. unfold LoadCredentials, keychainLoadGenericPassword. destruct (utf8 _); [|done]. cbn [negb]. rewrite default_known.
  pose proof (copied (c_string n) k) as Hc. destruct (SecItemCopyMatching _ _ k) as [status raw].
  destruct (bool_decide (status = 0%Z)); cbn [negb]; [by destruct (decodeSecret raw)|].
  case_bool_decide; [|done]. auto.
Qed.

Lemma delete_spec n k : default_keychain k = true ->
  let '(err, k') := DeleteCredentials utf8 n k in
  match err with
  | None => items k' = delete (c_string n) (items k)
  | Some _ => items k' = items k
  end.
Proof.
  intros default_known. unfold DeleteCredentials, keychainDeleteGenericPassword. destruct (utf8 _); [|done]. cbn [negb].
  rewrite default_known. pose proof (deleted (c_string n) k) as Hd. destruct (SecItemDelete true _ k) as [status k1].
  destruct (bool_decide (status = errSecItemNotFound)) eqn:En.
  - apply bool_decide_eq_true in En. subst status. cbn. destruct Hd as [-> Hd]. by rewrite delete_id by auto.
  - destruct (bool_decide (status = 0%Z)); [done|]. by destruct Hd.
Qed.

(** What a delete does whether or not the default keychain can be told. *)
Lemma delete_others n k a : c_string n <> a -> items (snd (DeleteCredentials utf8 n k)) !! a = items k !! a.
Proof.
  intros H. unfold DeleteCredentials, keychainDeleteGenericPassword. destruct (utf8 _); [|done]. cbn [negb].
  pose proof (deleted_others (default_keychain k) (c_string n) a k H) as Hd. by destruct (SecItemDelete _ _ k).
Qed.

(** What is saved is read back, to the byte, for every user name without a line break and every password; no
    other tunnel's item changes; and when nothing was saved, none is reported as found. *)
Theorem credentials_roundtrip n u p k k' :
  default_keychain k = true -> default_keychain k' = true -> contains_byte newline u = false -> SaveCredentials utf8 n u p k = (None, k') ->
  (forall r, GetSavedCredentials utf8 n k' = Ok r -> r = Some (MkCredentials u p))
  /\ (forall m, c_string m <> c_string n -> items k' !! c_string m = items k !! c_string m).
Proof.
  intros Hk Hk' Hu Hs. pose proof (store_spec n u p k Hk) as H. unfold SaveCredentials in Hs. rewrite Hs in H. split.
  - intros r. unfold GetSavedCredentials. destruct (LoadCredentials utf8 n k') as [c|[]] eqn:E; try done.
    + intros [= <-]. apply load_spec in E; [|done]. rewrite H, saved_insert in E by done. by injection E as <-.
    + apply load_missing in E; [|done]. rewrite H, lookup_insert_eq in E. done.
  - intros m Hm. by rewrite H, lookup_insert_ne.
Qed.

(** ** Credentials follow a tunnel *)

Lemma move_keeps old new k c :
  default_keychain k = true -> c_string old <> c_string new -> saved (items k) old = Some c ->
  let k' := move_credentials utf8 old new k in
  saved (items k') old = Some c \/ saved (items k') new = Some c.
Proof.
  intros Hk Hne Hc. cbn zeta. unfold move_credentials. destruct (LoadCredentials utf8 old k) as [c'|e] eqn:E; [|by left].
  apply load_spec in E; [|done]. rewrite Hc in E. injection E as <-.
  assert (Hu : contains_byte newline (cr_Username c) = false).
  { unfold saved in Hc. destruct (_ ≫= decodeSecret) as [payload|]; [|done]. injection Hc as <-. apply parse_payload_user. }
  pose proof (store_spec new (cr_Username c) (cr_BasePassword c) k Hk) as Hs.
  destruct (StoreCredentials utf8 new _ _ k) as [[s|] k1].
  - left. unfold saved in *. destruct Hs as [-> | ->]; [done|]. by rewrite lookup_delete_ne.
  - right. unfold saved. rewrite (delete_others old k1 _ Hne), Hs.
    change (saved (<[c_string new := encode_secret (cr_Username c) (cr_BasePassword c)]> (items k)) new = Some c).
    rewrite saved_insert by done. by destruct c.
Qed.
End Facts.

(** ** The handlers: on the store they are FileOps' *)

Section Handlers.
Context {K : Type} `{!Security K} (utf8 : string -> bool).
Context (fold : string -> string) (io : Access -> bool).

Lemma rename_tunnel_store active d k a b :
  let '((d', _), err) := rename_tunnel utf8 fold io active (d, k) a b in (d', err) = RenameTunnel fold io active d a b.
Proof.
  unfold rename_tunnel, RenameTunnel. destruct (ValidateTunnelName b); [done|]. destruct active as [act|]; [|done].
  destruct (isTunnelTracked act a); [done|]. by destruct (Rename fold io d a b) as [d' [e|]].
Qed.

Lemma delete_tunnel_store active disconnect d k n :
  let '((d', _), err) := delete_tunnel utf8 fold io active disconnect (d, k) n in (d', err) = DeleteTunnel fold io active disconnect d n.
Proof.
  unfold delete_tunnel, DeleteTunnel. destruct active as [[names prot]|]; [|done]. case_bool_decide; [done|].
  destruct disconnect; [|done]. cbn [negb]. by destruct (Delete fold io d n) as [d' err].
Qed.

(** C34: A rename to another name does not lose the saved credentials, whichever call on the items fails on the way:
    they are under the new name, or still under the old one, and nothing of them moves when the rename itself is
    refused.  The default keychain must be known when the rename begins: otherwise the search goes everywhere, and a
    stale item elsewhere may take the place of the credentials (see [stale_item_wins]). *)
Theorem credentials_follow active d k old new c :
  default_keychain k = true -> c_string old <> c_string new -> saved (items k) old = Some c ->
  let '((_, k'), err) := rename_tunnel utf8 fold io active (d, k) old new in
  (saved (items k') old = Some c \/ saved (items k') new = Some c) /\ (is_Some err -> k' = k).
Proof.
  intros Hk Hne Hc. unfold rename_tunnel. destruct (ValidateTunnelName new); [by split; [left|]|].
  destruct active as [a|]; [|by split; [left|]]. destruct (isTunnelTracked a old); [by split; [left|]|].
  destruct (Rename fold io d old new) as [d' [e|]]; [by split; [left|]|].
  split; [|by intros [? ?]]. destruct (IsOVPN fold d old); [by apply move_keeps|by left].
Qed.
End Handlers.

(** ** A keychain that never refuses *)

#[export, refine] Instance plain_keychain : Security (gmap string string) := {
  default_keychain _ := true;
  SecItemDelete _ a k := if bool_decide (is_Some (k !! a)) then (0%Z, delete a k) else (errSecItemNotFound, k);
  SecItemAdd a v k := if bool_decide (is_Some (k !! a)) then (errSecDuplicateItem, k) else (0%Z, <[a := v]> k);
  SecItemUpdate a v k := if bool_decide (is_Some (k !! a)) then (0%Z, <[a := v]> k) else (errSecItemNotFound, k);
  SecItemCopyMatching _ a k := match k !! a with Some v => (0%Z, v) | None => (errSecItemNotFound, "") end;
  items k := k;
  deleted := _; deleted_others := _; added := _; updated := _; copied := _
}.
Proof.
  - intros a k. case_bool_decide as H; [done|]. cbn. split; [done|]. intros _. by apply eq_None_not_Some.
  - intros r a b k H. case_bool_decide; [|done]. cbn. by rewrite lookup_delete_ne.
  - intros a v k. by case_bool_decide.
  - intros a v k. case_bool_decide; [by right|by left].
  - intros a k. by destruct (k !! a).
Defined.

Definition all_utf8 : string -> bool := fun _ => true.

Definition one_ovpn : Dir := {[ "work.ovpn" := MkFile "work.ovpn" (Text "client") ]}.
Definition one_secret : gmap string string := {[ "work" := encode_secret "ada" "pw" ]}.

Example credentials_roundtrip_witness :
  exists k', SaveCredentials all_utf8 "work" "ada" "p w" (∅ : gmap string string) = (None, k')
             /\ forall r, GetSavedCredentials all_utf8 "work" k' = Ok r -> r = Some (MkCredentials "ada" "p w").
Proof.
  eexists. split; [reflexivity|].
  exact (proj1 (credentials_roundtrip all_utf8 "work" "ada" "p w" ∅ _ eq_refl eq_refl eq_refl eq_refl)).
Defined.

Example credentials_follow_witness :
  let '((_, k'), err) := rename_tunnel all_utf8 ascii_lower (fun _ => true) (Some ([], [])) (one_ovpn, one_secret) "work" "home" in
  (saved (items k') "work" = Some (MkCredentials "ada" "pw") \/ saved (items k') "home" = Some (MkCredentials "ada" "pw"))
  /\ (is_Some err -> k' = one_secret).
Proof.
  refine (credentials_follow all_utf8 ascii_lower (fun _ => true) (Some ([], [])) one_ovpn one_secret "work" "home" _ eq_refl _ _).
  - discriminate.
  - vm_compute. reflexivity.
Defined.

(** The default keychain and another one that is searched first, when the default one cannot be told. *)
#[export, refine] Instance two_keychains : Security (gmap string string * gmap string string) := {
  default_keychain _ := false;
  SecItemDelete restricted a k :=
    if negb restricted && bool_decide (is_Some (k.2 !! a)) then (0%Z, (k.1, delete a k.2))
    else if bool_decide (is_Some (k.1 !! a)) then (0%Z, (delete a k.1, k.2)) else (errSecItemNotFound, k);
  SecItemAdd a v k := if bool_decide (is_Some (k.1 !! a)) then (errSecDuplicateItem, k) else (0%Z, (<[a := v]> k.1, k.2));
  SecItemUpdate a v k :=
    if bool_decide (is_Some (k.2 !! a)) then (0%Z, (k.1, <[a := v]> k.2))
    else if bool_decide (is_Some (k.1 !! a)) then (0%Z, (<[a := v]> k.1, k.2)) else (errSecItemNotFound, k);
  SecItemCopyMatching restricted a k :=
    match (if restricted : bool then None else k.2 !! a), k.1 !! a with
    | Some v, _ | None, Some v => (0%Z, v)
    | None, None => (errSecItemNotFound, "")
    end;
  items k := k.1;
  deleted := _; deleted_others := _; added := _; updated := _; copied := _
}.
Proof.
  - intros a k. cbn. case_bool_decide as H; [done|]. cbn. split; [done|]. intros _. by apply eq_None_not_Some.
  - intros r a b k H. repeat case_match; try done. cbn. by rewrite lookup_delete_ne.
  - intros a v k. by case_bool_decide.
  - intros a v k. repeat case_bool_decide; [by left|by right|by left].
  - intros a k. by destruct (k.1 !! a).
Defined.

(** An old password elsewhere is copied under the new name. *)
Example stale_item_wins :
  let k := (one_secret, {[ "work" := encode_secret "ada" "old" ]}) in
  let '((_, k'), err) := rename_tunnel all_utf8 ascii_lower (fun _ => true) (Some ([], [])) (one_ovpn, k) "work" "home" in
  err = None /\ saved (items k') "home" = Some (MkCredentials "ada" "old").
Proof. vm_compute. split_and!; reflexivity. Qed.

(** A rename to the same name succeeds without touching the store, and then deletes what it has just stored. *)
Example rename_to_itself_forgets :
  let '((_, k'), err) := rename_tunnel all_utf8 ascii_lower (fun _ => true) (Some ([], [])) (one_ovpn, one_secret) "work" "work" in
  err = None /\ GetSavedCredentials all_utf8 "work" k' = Ok None.
Proof. vm_compute. split_and!; reflexivity. Qed.

(** A name with a line break in it is cut there, the rest becoming part of the password. *)
Example user_with_break :
  saved (snd (SaveCredentials all_utf8 "work" (("a" +:+ String newline "b")) "c" (∅ : gmap string string))) "work"
  = Some (MkCredentials "a" ("b" +:+ String newline "c")).
Proof. vm_compute. reflexivity. Qed.
