(* ===== verification/IpcTransport.v ===== *)
(** * The server's socket: internal/ipc/transport_unix.go and the life of server.go, goSafe of helper.go

    How the helper takes its socket, how long it goes on accepting, and what stopping the server closes.  The
    system's answers are arguments. *)

From S2P Require Import Prelude GoStrings IpcServer.

#[local] Set Warnings "-clear-no-such-hyp".

(** ** Listen

    What is at the socket's address: nothing, or a file with its permissions and owner; and whether a process
    accepts on it. *)

Record SocketFile := MkSocketFile { so_mode : Z; so_uid : Z }.

(** [sp_dir]: the owner of the parent directory, [None] when there is none. *)
Record SocketPath := MkPath { sp_dir : option Z; sp_file : option SocketFile; sp_live : bool }.

#[export] Instance eta_socket_path : Eta SocketPath := fun r => MkPath (sp_dir r) (sp_file r) (sp_live r).

(** The calls that can fail. *)
Inductive ListenStep := LMkdir | LStat | LOwner | LRemove | LListen | LChmod | LChown.

#[export] Instance listen_step_eq_dec : EqDecision ListenStep.
Proof. solve_decision. Defined.

Inductive ListenError := ListenFailed (step : ListenStep) | UntrustedDir (uid : Z) | AlreadyListening.

Definition uint32 (n : Z) : Z := (n mod 2 ^ 32)%Z.

Definition dir_trusted (euid ownerUID dirUID : Z) : bool :=
  (dirUID =? uint32 euid)%Z || ((0 <=? ownerUID)%Z && (dirUID =? uint32 ownerUID)%Z).

(** l.Close(): the listener removes its file. *)
Definition close_listener (w : SocketPath) : SocketPath := w <| sp_file := None |> <| sp_live := false |>.

(** [umask]: of the mode 0777 a new socket gets. *)
Definition Listen (umask euid ownerUID : Z) (fails : ListenStep -> bool) (w : SocketPath) : option ListenError * SocketPath :=
  if fails LMkdir then (Some (ListenFailed LMkdir), w)
  else
    let w := w <| sp_dir ::= fun o => Some (default (uint32 euid) o) |> in
    let dirUID := default 0%Z (sp_dir w) in
    if fails LStat then (Some (ListenFailed LStat), w)
    else if fails LOwner then (Some (ListenFailed LOwner), w)
    else if negb (dir_trusted euid ownerUID dirUID) then (Some (UntrustedDir dirUID), w)
    else if sp_live w then (Some AlreadyListening, w)
    else if fails LRemove && bool_decide (is_Some (sp_file w)) then (Some (ListenFailed LRemove), w)
    else
      let w := w <| sp_file := None |> in
      if fails LListen then (Some (ListenFailed LListen), w)
      else
        let w := w <| sp_file := Some (MkSocketFile (Z.land 511 (Z.lnot umask)) (uint32 euid)) |> <| sp_live := true |> in
        if fails LChmod then (Some (ListenFailed LChmod), close_listener w)
        else
          let w := w <| sp_file := Some (MkSocketFile 384 (uint32 euid)) |> in
          if (0 <=? ownerUID)%Z then
            if fails LChown then (Some (ListenFailed LChown), close_listener w)
            else (None, w <| sp_file := Some (MkSocketFile 384 (uint32 ownerUID)) |>)
          else (None, w).

(** ** Serve

    What Accept gives, with whether the server was shut down by then. *)

Inductive Accept := Accepted (conn : nat) | AcceptError (shut : bool).

Inductive Ended := Stopped | TooManyErrors.

Definition max_accept_errors : nat := 100.

(** The connections handled and the pauses in milliseconds, in order; [None]: still accepting. *)
Fixpoint serve (consecutiveErrors : nat) (accepts : list Accept) : list nat * list Z * option Ended :=
  match accepts with
  | [] => ([], [], None)
  | Accepted conn :: rest =>
      let '(handled, pauses, ended) := serve 0 rest in (conn :: handled, pauses, ended)
  | AcceptError true :: _ => ([], [], Some Stopped)
  | AcceptError false :: rest =>
      let consecutiveErrors := S consecutiveErrors in
      if (max_accept_errors <? consecutiveErrors)%nat then ([], [], Some TooManyErrors)
      else let '(handled, pauses, ended) := serve consecutiveErrors rest in
           (handled, (100 * Z.of_nat consecutiveErrors)%Z :: pauses, ended)
  end.

Definition Serve := serve 0.

(** ** Shutdown

    [ls_closed]: the connections Shutdown closed; their next read or write fails. *)

Record LiveServer := MkLive { ls_server : Server; ls_shut : bool; ls_closed : gset nat }.

Definition Shutdown (s : LiveServer) : LiveServer :=
  MkLive (ls_server s) true (ls_closed s ∪ eventSubs (ls_server s) ∪ controlConns (ls_server s)).

(** A step of the goroutines, Shutdown, or a connection made while the listener is open. *)
Inductive live_step (s : LiveServer) : LiveServer -> Prop :=
| lv_shutdown : live_step s (Shutdown s)
| lv_accept uid : ls_shut s = false ->
    live_step s (MkLive ((ls_server s) <| conns ::= fun l => l ++ [MkConn uid pcAccepted] |>) false (ls_closed s))
| lv_request i uid b method : conns (ls_server s) !! i = Some (MkConn uid (pcReading b)) -> i ∉ ls_closed s ->
    live_step s (MkLive (on_request i b method (ls_server s)) (ls_shut s) (ls_closed s))
| lv_other server' : served server' = served (ls_server s) -> length (conns server') = length (conns (ls_server s)) ->
    server_step (ls_server s) server' -> live_step s (MkLive server' (ls_shut s) (ls_closed s)).

Definition started (uid : Z) : LiveServer := MkLive (NewServer uid) false ∅.

(** ** handleSubscribe

    The stream of one subscriber: it starts with the answer, and ends when a write fails or the server is shut
    down.  [writes]: whether each write succeeds. *)

Inductive SubEvent := SubShut | SubData (data : string) (written : bool).

Fixpoint pump_events (events : list SubEvent) : list string :=
  match events with
  | [] | SubShut :: _ | SubData _ false :: _ => []
  | SubData data true :: rest => data :: pump_events rest
  end.

(** What is written after the answer; [None]: the answer could not be written. *)
Definition handleSubscribe (ack_written : bool) (events : list SubEvent) : option (list string) :=
  if ack_written then Some (pump_events events) else None.

(** ** goSafe

    [panics]: whether each run of the function panics; the runs made, and whether the loop gave up. *)

Definition maxRestarts : nat := 5.

Fixpoint go_safe (attempts : nat) (panics : nat -> bool) (run : nat) : nat * bool :=
  match attempts with
  | O => (run, true)
  | S attempts => if panics run then go_safe attempts panics (S run) else (S run, false)
  end.

Definition goSafe (panics : nat -> bool) : nat * bool := go_safe (S maxRestarts) panics 0.

(** * Facts *)

(** Taking the socket: it succeeds only in a trusted directory where nobody accepts, and then leaves a socket that
    only its owner may use; it never touches a socket somebody accepts on, and a failure leaves none that accepts. *)
Theorem socket_taken umask euid owner fails w :
  let '(err, w') := Listen umask euid owner fails w in
  match err with
  | None => sp_live w = false /\ dir_trusted euid owner (default (uint32 euid) (sp_dir w)) = true
            /\ sp_live w' = true
            /\ sp_file w' = Some (MkSocketFile 384 (uint32 (if (0 <=? owner)%Z then owner else euid)))
  | Some _ => sp_live w' = sp_live w /\ (sp_live w = true -> sp_file w' = sp_file w)
  end.
Proof.
  unfold Listen. destruct (fails LMkdir); [done|]. cbn [update sp_dir sp_live sp_file].
  destruct (fails LStat); [done|]. destruct (fails LOwner); [done|]. cbn [default].
  change (default 0%Z (Some ?x)) with x. destruct (dir_trusted _ _ _) eqn:Ed; [|done]. cbn [negb].
  destruct (sp_live w) eqn:El; [done|]. destruct (_ && _); [done|].
  destruct (fails LListen); [done|]. destruct (fails LChmod); [done|].
  destruct (0 <=? owner)%Z; [|done]. by destruct (fails LChown).
Qed.

Lemma listen_live umask euid owner fails w w' : Listen umask euid owner fails w = (None, w') -> sp_live w' = true.
Proof.
  unfold Listen. destruct (fails LMkdir); [done|]. cbn [update sp_dir sp_live sp_file]. destruct (fails LStat); [done|].
  destruct (fails LOwner); [done|]. destruct (negb _); [done|]. destruct (sp_live w); [done|]. destruct (_ && _); [done|].
  destruct (fails LListen); [done|]. destruct (fails LChmod); [done|].
  destruct (0 <=? owner)%Z; [destruct (fails LChown); [done|]|]; by intros [= <-].
Qed.

(** ** The accept loop *)

Abbreviation failed := (AcceptError false).

Definition accepted (accepts : list Accept) : list nat :=
  omap (fun a => match a with Accepted c => Some c | AcceptError _ => None end) accepts.

Lemma accepted_failed n accepts : accepted (replicate n failed ++ accepts) = accepted accepts.
Proof. by induction n as [|n IH]. Qed.

(** [n] errors have come before. *)
Lemma serve_gives_up accepts : forall n handled pauses,
  (n <= max_accept_errors)%nat -> serve n accepts = (handled, pauses, Some TooManyErrors) ->
  (505000 <= foldr Z.add 0 pauses + 50 * Z.of_nat n * (Z.of_nat n + 1))%Z
  /\ exists before after,
    replicate n failed ++ accepts = before ++ replicate (S max_accept_errors) failed ++ after /\ handled = accepted before.
Proof.
  induction accepts as [|[c|[]] accepts IH]; intros n handled pauses Hn; cbn [serve]; [done| |done|].
  - destruct (serve 0 accepts) as [[handled' pauses'] ended] eqn:E. intros [= <- <- ->].
    destruct (IH _ _ _ (Nat.le_0_l _) E) as (Hp & before & after & Heq & ->). split; [nia|].
    exists (replicate n failed ++ Accepted c :: before), after. split; [|by rewrite accepted_failed].
    cbn [replicate app] in Heq. by rewrite Heq, <- app_assoc.
  - destruct (Nat.ltb_spec max_accept_errors (S n)) as [Hlt|Hle].
    + intros [= <- <-]. assert (n = max_accept_errors) as -> by lia. split; [done|]. exists [], accepts. split; [|done].
      cbn [app]. rewrite replicate_S_end, <- app_assoc. done.
    + destruct (serve (S n) accepts) as [[handled' pauses'] ended] eqn:E. intros [= <- <- ->].
      destruct (IH _ _ _ Hle E) as (Hp & before & after & Heq & ->). split; [cbn [foldr]; lia|].
      exists before, after. split; [|done]. by rewrite replicate_S_end, <- app_assoc in Heq.
Qed.

(** The accept loop gives up only on 101 errors in a row, over at least 505 seconds, having handed every connection
    accepted before them to a goroutine. *)
Theorem serve_endures accepts handled pauses :
  Serve accepts = (handled, pauses, Some TooManyErrors) ->
  (505000 <= foldr Z.add 0 pauses)%Z
  /\ exists before after, accepts = before ++ replicate 101 (AcceptError false) ++ after /\ handled = accepted before.
Proof.
  intros H. destruct (serve_gives_up accepts 0 handled pauses (Nat.le_0_l _) H) as [Hp (before & after & Heq & Hh)].
  split; [lia|]. by exists before, after.
Qed.

(** ** After Shutdown *)

Lemma live_step_served s s' : live_step s s' ->
  ls_shut s = true -> ls_shut s' = true /\ ls_closed s ⊆ ls_closed s'
    /\ length (conns (ls_server s')) = length (conns (ls_server s))
    /\ forall x, x ∈ served (ls_server s') -> x ∈ served (ls_server s) \/ fst x ∉ ls_closed s.
Proof.
  intros [ |uid Hopen|i uid b method Hi Hc|server' Hs Hl Hstep] Hshut; cbn.
  - split_and!; [done|set_solver|done|by left].
  - by rewrite Hshut in Hopen.
  - split_and!; [done|done| |].
    + unfold on_request. destruct (method =s MethodSubscribe); [|destruct b]; cbn; by rewrite length_alter.
    + intros x Hx. assert (x ∈ (i, method) :: served (ls_server s)) as Hx'.
      { revert Hx. unfold on_request. destruct (method =s MethodSubscribe); [|destruct b]; done. }
      apply elem_of_cons in Hx' as [->|Hx']; [by right|by left].
  - split_and!; [done..|]. rewrite Hs. by left.
Qed.

(** Once the server is shut down it accepts nothing, and a connection that was in use by then (its first request
    read, or an event stream) has no further request served. *)
Theorem shut_server_serves_no_client s s' :
  rtc live_step (Shutdown s) s' ->
  length (conns (ls_server s')) = length (conns (ls_server s))
  /\ forall i method, (i, method) ∈ served (ls_server s') ->
       (i, method) ∈ served (ls_server s) \/ i ∉ controlConns (ls_server s) ∪ eventSubs (ls_server s).
Proof.
  intros Hr.
  assert (H : ls_shut s' = true /\ ls_closed (Shutdown s) ⊆ ls_closed s' /\ length (conns (ls_server s')) = length (conns (ls_server s))
    /\ forall x, x ∈ served (ls_server s') -> x ∈ served (ls_server s) \/ fst x ∉ ls_closed (Shutdown s)).
  { revert s' Hr. refine (rtc_ind_r (fun s' => _) (Shutdown s) _ _).
    - split_and!; [done..|]. by left.
    - intros s1 s2 _ Hstep (Hshut & Hc & Hl & Hs). destruct (live_step_served _ _ Hstep Hshut) as (H1 & H2 & H3 & H4).
      split_and!; [done|set_solver|by rewrite H3|]. intros x Hx. destruct (H4 x Hx) as [|Hn]; [auto|right; set_solver]. }
  destruct H as (_ & _ & Hl & Hs). split; [done|]. intros i method Hin. destruct (Hs _ Hin) as [|Hn]; [by left|right].
  cbn in Hn. set_solver.
Qed.

(** A connection whose first request was not read by then is not closed: its request is served after Shutdown. *)
Example late_request :
  exists s, rtc live_step (started 501) (Shutdown s) /\ served (ls_server s) = []
            /\ exists s', live_step (Shutdown s) s' /\ served (ls_server s') = [(0%nat, "Tunnel.Connect")].
Proof.
  exists (MkLive (MkServer 501 [MkConn (Some 501%Z) (pcReading false)] ∅ ∅ [] []) false ∅).
  split; [|split; [done|]].
  - eapply rtc_l; [by apply (lv_accept _ (Some 501%Z))|]. eapply rtc_l; [|eapply rtc_l; [apply lv_shutdown|apply rtc_refl]].
    refine (lv_other (MkLive _ false ∅) _ _ _ (ss_verify _ 0 (Some 501%Z) _)); done.
  - eexists. split; [refine (lv_request _ 0 (Some 501%Z) false "Tunnel.Connect" _ _); [done|set_solver]|done].
Qed.

Example serve_endures_witness :
  let run := Serve (Accepted 7 :: replicate 101 failed) in
  (505000 <= foldr Z.add 0 (snd (fst run)))%Z
  /\ exists before after, Accepted 7 :: replicate 101 failed = before ++ replicate 101 (AcceptError false) ++ after /\ [7%nat] = accepted before.
Proof. refine (serve_endures (Accepted 7 :: replicate 101 failed) [7%nat] _ _). vm_compute. reflexivity. Defined.

(** ** Restarts *)

Lemma go_safe_spec attempts panics : forall run,
  match go_safe attempts panics run with
  | (runs, true) => runs = (run + attempts)%nat /\ forall i, (run <= i < runs)%nat -> panics i = true
  | (runs, false) => (run < runs <= run + attempts)%nat /\ panics (pred runs) = false
                     /\ forall i, (run <= i < pred runs)%nat -> panics i = true
  end.
Proof.
  induction attempts as [|attempts IH]; intros run; cbn [go_safe]; [split; [lia|intros; lia]|].
  destruct (panics run) eqn:E.
  - specialize (IH (S run)). destruct (go_safe attempts panics (S run)) as [runs []].
    + destruct IH as [-> H]. split; [lia|]. intros i Hi. destruct (decide (i = run)) as [->|]; [done|]. apply H. lia.
    + destruct IH as (Hr & Hp & H). split_and!; [lia|lia|done|]. intros i Hi. destruct (decide (i = run)) as [->|]; [done|]. apply H. lia.
  - split_and!; [lia|lia|done|]. intros i Hi. cbn in Hi. lia.
Qed.

(** A loop that panics is run again, six times in all; one that returns is not. *)
Lemma goSafe_spec panics :
  match goSafe panics with
  | (runs, true) => runs = 6%nat /\ forall i, (i < 6)%nat -> panics i = true
  | (runs, false) => (1 <= runs <= 6)%nat /\ panics (pred runs) = false /\ forall i, (i < pred runs)%nat -> panics i = true
  end.
Proof.
  pose proof (go_safe_spec (S maxRestarts) panics 0) as H. unfold goSafe. destruct (go_safe _ _ _) as [runs []].
  - destruct H as [-> H]. split; [done|]. intros i Hi. apply H. unfold maxRestarts. lia.
  - destruct H as (Hr & Hp & H). unfold maxRestarts in Hr. split_and!; [lia|lia|done|]. intros i Hi. apply H. lia.
Qed.
