(* ===== verification/SleepWake.v ===== *)
(** * Waking from sleep: internal/reconnect/sleep_darwin.go and sleepWakeLoop of monitor.go

    Two sources tell of a wake, IOKit and a poll of the wall clock; they fill a channel of one place, and the
    monitor's loop checks the tunnels once a grace period has passed since the last wake it took from it.  IOKit
    itself is an argument; wall clock and running time are two clocks, of which the second stands still in sleep. *)

From S2P Require Import Prelude Domain Reconnect.

#[local] Set Warnings "-clear-no-such-hyp".

(** ** The detector

    [sd_polls]: the poll goroutines started, [false] once their channel is closed; [sd_stopCh]: whose channel the
    detector holds, none before the first start. *)

Record Sleep := MkSleep {
  sd_wakeCh : bool; sd_polls : list bool; sd_stopCh : option nat; sd_watcher : bool; sd_handle : Z;
  sd_next : Z; sd_detectors : gset Z }.

#[export] Instance eta_sleep : Eta Sleep := fun r =>
  MkSleep (sd_wakeCh r) (sd_polls r) (sd_stopCh r) (sd_watcher r) (sd_handle r) (sd_next r) (sd_detectors r).

Definition NewSleepDetector : Sleep := MkSleep false [] None false 0 0 ∅.

Definition sendWake (d : Sleep) : Sleep := d <| sd_wakeCh := true |>.

(** A uintptr wraps. *)
Definition registerDetector (d : Sleep) : Z * Sleep :=
  let h := ((sd_next d + 1) mod 2 ^ 64)%Z in
  (h, d <| sd_next := h |> <| sd_detectors ::= fun m => {[h]} ∪ m |>).

Definition unregisterDetector (h : Z) (d : Sleep) : Sleep := d <| sd_detectors ::= fun m => m ∖ {[h]} |>.

(** [watches]: startPowerWatcher gave a watcher. *)
Definition start_detector (watches : bool) (d : Sleep) : Sleep :=
  let stopCh := length (sd_polls d) in
  let '(h, d) := registerDetector d in
  d <| sd_stopCh := Some stopCh |> <| sd_handle := h |> <| sd_watcher := watches |> <| sd_polls ::= fun l => l ++ [true] |>.

Definition stop_detector (d : Sleep) : Sleep :=
  let d := match sd_stopCh d with Some i => d <| sd_polls ::= alter (fun _ => false) i |> | None => d end in
  let d := d <| sd_watcher := false |> in
  if negb (sd_handle d =? 0)%Z then (unregisterDetector (sd_handle d) d) <| sd_handle := 0%Z |> else d.

(** The power callback of a watcher with handle [h]. *)
Definition goWakeCallback (h : Z) (d : Sleep) : Sleep :=
  if bool_decide (h ∈ sd_detectors d) then sendWake d else d.

(** ** The poll *)

Definition pollInterval : Z := 10 * time_second.
Definition sleepThreshold : Z := 30 * time_second.

(** One tick at wall clock [now]. *)
Definition slept (lastCheck now : Z) : bool := (pollInterval + sleepThreshold <? now - lastCheck)%Z.

(** ** sleepWakeLoop

    [wl_grace]: the running time the grace timer is due at. *)

Record WakeLoop := MkWakeLoop { wl_wokeAt : Z; wl_grace : option Z }.

Definition take_wake (cfg : Config) (clock running : Z) : WakeLoop := MkWakeLoop clock (Some (running + WakeGrace cfg)%Z).

Definition grace_over (shouldReconnect : string -> bool) (statuses : list ConnectionStatus) (l : WakeLoop) : list string * WakeLoop :=
  (wake_tunnels shouldReconnect (wl_wokeAt l) statuses, MkWakeLoop (wl_wokeAt l) None).

(** ** The two together

    [wa_tickAt]: the running time the poll's ticker is due at; [wa_checked]: the checks made, newest first. *)

Record Check := MkCheck { ck_wokeAt : Z; ck_at : Z; ck_statuses : list ConnectionStatus; ck_names : list string }.

Record Watch := MkWatch {
  wa_clock : Z; wa_running : Z; wa_lastCheck : Z; wa_tickAt : Z; wa_wakeCh : bool; wa_loop : WakeLoop; wa_checked : list Check }.

#[export] Instance eta_watch : Eta Watch := fun r =>
  MkWatch (wa_clock r) (wa_running r) (wa_lastCheck r) (wa_tickAt r) (wa_wakeCh r) (wa_loop r) (wa_checked r).

Section Watching.
Context (cfg : Config) (shouldReconnect : string -> bool).

Definition poll_tick (w : Watch) : Watch :=
  let woken := slept (wa_lastCheck w) (wa_clock w) in
  w <| wa_lastCheck := wa_clock w |> <| wa_tickAt ::= Z.add pollInterval |> <| wa_wakeCh ::= orb woken |>.

Definition loop_wakes (w : Watch) : Watch :=
  w <| wa_wakeCh := false |> <| wa_loop := take_wake cfg (wa_clock w) (wa_running w) |>.

Definition loop_checks (statuses : list ConnectionStatus) (w : Watch) : Watch :=
  let '(names, l) := grace_over shouldReconnect statuses (wa_loop w) in
  w <| wa_loop := l |> <| wa_checked ::= cons (MkCheck (wl_wokeAt (wa_loop w)) (wa_clock w) statuses names) |>.

Definition stay_awake (dt : Z) (w : Watch) : Watch := w <| wa_clock ::= Z.add dt |> <| wa_running ::= Z.add dt |>.

(** While the Mac is awake: time passes up to what is due next (the goroutines run when they are due), the poll
    ticks, or the loop goes on. *)
Inductive awake_step (w : Watch) : Watch -> Prop :=
| ws_awake dt : (0 <= dt)%Z -> wa_wakeCh w = false -> (wa_running w + dt <= wa_tickAt w)%Z ->
    (forall due, wl_grace (wa_loop w) = Some due -> (wa_running w + dt <= due)%Z) -> awake_step w (stay_awake dt w)
| ws_tick : (wa_tickAt w <= wa_running w)%Z -> awake_step w (poll_tick w)
| ws_wake : wa_wakeCh w = true -> awake_step w (loop_wakes w)
| ws_check statuses due : wl_grace (wa_loop w) = Some due -> (due <= wa_running w)%Z -> awake_step w (loop_checks statuses w).

(** It also sleeps, or IOKit tells of a wake. *)
Inductive watch_step (w : Watch) : Watch -> Prop :=
| ws_inner w' : awake_step w w' -> watch_step w w'
| ws_asleep dt : (0 <= dt)%Z -> watch_step w (w <| wa_clock ::= Z.add dt |>)
| ws_iokit : watch_step w (w <| wa_wakeCh := true |>).

Definition watch_start (clock : Z) : Watch := MkWatch clock 0 clock pollInterval false (MkWakeLoop 0 None) [].
End Watching.

(** * Facts *)

(** ** The detector *)

(** The polls that go on are at most the one whose channel the detector holds, and the registered handles are at most
    the detector's own. *)
Definition one_watch (d : Sleep) : Prop :=
  (forall i, sd_polls d !! i = Some true -> sd_stopCh d = Some i)
  /\ (forall h, h ∈ sd_detectors d -> h = sd_handle d /\ h <> 0%Z).

Definition quiet (d : Sleep) : Prop :=
  (forall i, sd_polls d !! i <> Some true) /\ sd_detectors d = ∅ /\ sd_watcher d = false.

Lemma NewSleepDetector_quiet : quiet NewSleepDetector.
Proof. split_and!; [|done|done]. by intros i. Qed.

Lemma start_quiet watches d : quiet d -> sd_next d <> (2 ^ 64 - 1)%Z -> (0 <= sd_next d < 2 ^ 64)%Z -> one_watch (start_detector watches d).
Proof.
  intros (Hp & Hd & Hw) Hn Hr. unfold start_detector, registerDetector. split; cbn.
  - intros i Hi. apply lookup_app_Some in Hi as [Hi|[Hle Hi]]; [by apply Hp in Hi|].
    apply list_lookup_singleton_Some in Hi as [Hi _]. f_equal. lia.
  - rewrite Hd. intros h Hh. assert (h = ((sd_next d + 1) mod 2 ^ 64)%Z) as -> by set_solver.
    split; [done|]. rewrite Z.mod_small by lia. lia.
Qed.

(** A stop after a start leaves neither a poll nor a callback that reaches the detector. *)
Lemma stop_quiet d : one_watch d -> quiet (stop_detector d).
Proof.
  intros [Hp Hd]. unfold stop_detector.
  set (d1 := match sd_stopCh d with Some i => _ | None => d end).
  assert (H1 : (forall i, sd_polls d1 !! i <> Some true) /\ sd_detectors d1 = sd_detectors d /\ sd_handle d1 = sd_handle d).
  { unfold d1. destruct (sd_stopCh d) as [i|] eqn:Ei; cbn; (split; [|done]).
    - intros j Hj. destruct (decide (j = i)) as [->|Hne].
      + rewrite list_lookup_alter_eq in Hj. by destruct (sd_polls d !! i).
      + rewrite list_lookup_alter_ne in Hj by done. apply Hp in Hj. congruence.
    - intros j Hj. apply Hp in Hj. done. }
  destruct H1 as (Hpolls & Hdet & Hh). change (sd_handle (d1 <| sd_watcher := false |>)) with (sd_handle d1). rewrite Hh.
  destruct (Z.eqb_spec (sd_handle d) 0) as [H0|H0]; cbn [negb]; split_and!; try done; cbn.
  - rewrite Hdet. apply set_eq. intros h. split; [|set_solver]. intros Hin. by apply Hd in Hin as [-> Hn].
  - rewrite Hdet. apply set_eq. intros h. split; [|set_solver]. intros [Hin Hn]%elem_of_difference. apply Hd in Hin as [-> _]. set_solver.
Qed.

Lemma quiet_silent h d : quiet d -> goWakeCallback h d = d.
Proof. intros (_ & Hd & _). unfold goWakeCallback. rewrite Hd. by rewrite bool_decide_eq_false_2 by set_solver. Qed.

(** The monitor's goroutine starts the detector; a stop that comes before it leaves the poll running for good. *)
Example started_after_stop :
  let d := start_detector true (stop_detector NewSleepDetector) in
  sd_polls d = [true] /\ sd_watcher d = true /\ sd_handle d = 1%Z.
Proof. vm_compute. done. Qed.

(** ** Wakes and checks *)

Section WatchFacts.
Context (cfg : Config) (shouldReconnect : string -> bool) (Hgrace : (0 <= WakeGrace cfg)%Z).

Abbreviation step := (watch_step cfg shouldReconnect).
Abbreviation inner := (awake_step cfg shouldReconnect).

(** What a check is: it comes at least the grace period after the wake it is for, and triggers exactly the tunnels
    that want it and are not connected or have had no handshake since that wake. *)
Definition right_check (c : Check) : Prop :=
  (WakeGrace cfg <= ck_at c - ck_wokeAt c)%Z
  /\ forall n, n ∈ ck_names c <->
       exists st, st ∈ ck_statuses c /\ cs_TunnelName st = n /\ shouldReconnect n = true
         /\ (cs_State st <> StateConnected \/ (cs_LastHandshakeTime st <= ck_wokeAt c)%Z).

Lemma elem_of_wake_tunnels wokeAt statuses n :
  n ∈ wake_tunnels shouldReconnect wokeAt statuses <->
  exists st, st ∈ statuses /\ cs_TunnelName st = n /\ shouldReconnect n = true
    /\ (cs_State st <> StateConnected \/ (cs_LastHandshakeTime st <= wokeAt)%Z).
Proof.
  unfold wake_tunnels. rewrite list_elem_of_fmap. split.
  - intros (st & -> & Hin). apply list_elem_of_In, filter_In in Hin as [Hin Hst].
    apply andb_prop in Hst as [Hs Hst]. apply negb_true_iff, andb_false_iff in Hst. exists st.
    split_and!; [by apply list_elem_of_In|done|done|].
    destruct Hst as [Hst|Hst]; [left; by apply bool_decide_eq_false in Hst|right; lia].
  - intros (st & Hin & <- & Hs & Hor). exists st. split; [done|]. apply list_elem_of_In, filter_In.
    split; [by apply list_elem_of_In|]. rewrite Hs. apply negb_true_iff, andb_false_iff.
    destruct Hor as [Hc|Hh]; [left; by apply bool_decide_eq_false|right; lia].
Qed.

(** The clocks of a state, and its checks. *)
Definition timed (w : Watch) : Prop :=
  (wa_running w <= wa_tickAt w <= wa_running w + pollInterval)%Z
  /\ (forall due, wl_grace (wa_loop w) = Some due ->
        (wa_running w <= due)%Z /\ (wa_running w - (due - WakeGrace cfg) <= wa_clock w - wl_wokeAt (wa_loop w))%Z)
  /\ Forall right_check (wa_checked w).

Lemma timed_inner (w w' : Watch) : inner w w' -> timed w -> timed w'.
Proof.
  unfold timed. intros [dt Hdt Hc Ht Hg|Ht|Hw|statuses due Hg Hd] (H1 & H2 & H3); cbn; split_and!; try done; try lia.
  - intros due Hdue. specialize (Hg due Hdue). specialize (H2 due Hdue). lia.
  - intros due [= <-]. lia.
  - constructor; [|done]. split; [|apply elem_of_wake_tunnels]. cbn. specialize (H2 due Hg). lia.
Qed.

Lemma timed_step (w w' : Watch) : step w w' -> timed w -> timed w'.
Proof.
  intros [w1 Hi|dt Hdt|]; [by apply timed_inner| |]; intros (H1 & H2 & H3); unfold timed in *; cbn; split_and!; try done; try lia.
  intros due Hdue. specialize (H2 due Hdue). lia.
Qed.

Lemma timed_reachable clock (w : Watch) : rtc step (watch_start clock) w -> timed w.
Proof.
  revert w. refine (rtc_ind_r (fun w => timed w) (watch_start clock) _ _).
  - split_and!; cbn; [unfold pollInterval, time_second; lia|unfold pollInterval, time_second; lia|done|done].
  - intros w w' _ Hs. by apply timed_step.
Qed.

(** ** Every wake is checked

    A sleep the poll has not seen yet, or a wake in the channel, from running time [T] and clock [C] on. *)

Definition woken_up (w : Watch) : Prop := slept (wa_lastCheck w) (wa_clock w) = true \/ wa_wakeCh w = true.

Section Response.
Context (T C : Z) (done0 : list Check).

Definition deadline : Z := (T + pollInterval + WakeGrace cfg)%Z.

(** The check for it has been made; it is pending; before the first tick; and after. *)
Definition checked_since (w : Watch) : Prop :=
  exists new c, wa_checked w = new ++ done0 /\ c ∈ new /\ (C <= ck_wokeAt c)%Z.

Definition pending (w : Watch) : Prop :=
  exists due, wl_grace (wa_loop w) = Some due /\ (C <= wl_wokeAt (wa_loop w))%Z /\ (wa_running w <= due <= deadline)%Z.

Definition before_tick (w : Watch) : Prop :=
  (wa_tickAt w <= T + pollInterval)%Z /\ (woken_up w \/ pending w).

Definition after_tick (w : Watch) : Prop :=
  (wa_clock w - wa_lastCheck w = wa_running w - (wa_tickAt w - pollInterval))%Z
  /\ (wa_wakeCh w = true /\ (wa_running w <= T + pollInterval)%Z \/ wa_wakeCh w = false /\ pending w).

Definition responding (w : Watch) : Prop :=
  timed w /\ (C <= wa_clock w)%Z /\ (exists new, wa_checked w = new ++ done0)
  /\ (checked_since w \/ before_tick w \/ after_tick w).

Lemma told_tick (w : Watch) : slept (wa_lastCheck w) (wa_clock w) = true -> wa_wakeCh (poll_tick w) = true.
Proof. intros H. cbn. by rewrite H. Qed.

Lemma before_inner (w w' : Watch) : inner w w' -> timed w -> (C <= wa_clock w)%Z -> (exists new, wa_checked w = new ++ done0) ->
  before_tick w -> checked_since w' \/ before_tick w' \/ after_tick w'.
Proof using Hgrace.
  intros Hs (Ht1 & Ht2 & _) HC (new & Hnew) (Hb & Hor). assert (wa_running w <= T + pollInterval)%Z as HT by lia.
  destruct Hs as [dt Hdt Hc Htk Hg|Htk|Hw|statuses due Hg Hd].
  - right; left. split; [exact Hb|]. destruct Hor as [[Hsl|Hch]|(due & Hdue & HwC & Hdl)]; [|congruence|].
    + left; left. unfold slept in *. cbn. lia.
    + right. exists due. specialize (Hg due Hdue). cbn. split_and!; [done|done|lia|lia].
  - right; right. assert (wa_tickAt w = wa_running w) as Heq by lia. split; [cbn; lia|].
    assert (wa_wakeCh (poll_tick w) = true -> wa_wakeCh (poll_tick w) = true /\ (wa_running (poll_tick w) <= T + pollInterval)%Z
            \/ wa_wakeCh (poll_tick w) = false /\ pending (poll_tick w)) as Htold by (intros H; left; split; [exact H|exact HT]).
    destruct Hor as [[Hsl|Hch]|Hp]; [by apply Htold, told_tick|apply Htold; cbn; rewrite Hch; apply orb_true_r|].
    destruct (wa_wakeCh (poll_tick w)) eqn:E; [by apply Htold|right]. by split.
  - right; left. split; [exact Hb|]. right. exists (wa_running w + WakeGrace cfg)%Z. cbn. unfold deadline. split_and!; [done|lia..].
  - destruct Hor as [[Hsl|Hch]|(due' & Hdue & HwC & Hdl)].
    + right; left. split; [exact Hb|]. by left; left.
    + right; left. split; [exact Hb|]. by left; right.
    + left. eexists (_ :: new), _. cbn. split; [by rewrite Hnew|]. split; [by left|exact HwC].
Qed.

Lemma after_inner (w w' : Watch) : inner w w' -> timed w -> (C <= wa_clock w)%Z -> (exists new, wa_checked w = new ++ done0) ->
  after_tick w -> checked_since w' \/ after_tick w'.
Proof using Hgrace.
  intros Hs (Ht1 & Ht2 & _) HC (new & Hnew) (Hf & Hor).
  destruct Hs as [dt Hdt Hc Htk Hg|Htk|Hw|statuses due Hg Hd].
  - right. split; [cbn; lia|]. destruct Hor as [[Hch _]|(_ & due & Hdue & HwC & Hdl)]; [congruence|right].
    split; [exact Hc|]. exists due. specialize (Hg due Hdue). cbn. split_and!; [done|done|lia|lia].
  - right. assert (wa_tickAt w = wa_running w) as Heq by lia. split; [cbn; lia|].
    assert (slept (wa_lastCheck w) (wa_clock w) = false) as Hns
      by (unfold slept, sleepThreshold, pollInterval, time_second in *; lia).
    change (wa_wakeCh (poll_tick w)) with (slept (wa_lastCheck w) (wa_clock w) || wa_wakeCh w). rewrite Hns. exact Hor.
  - right. split; [exact Hf|]. destruct Hor as [[Hch Hr]|(Hch & _)]; [|congruence]. right. split; [done|].
    exists (wa_running w + WakeGrace cfg)%Z. cbn. unfold deadline. split_and!; [done|lia..].
  - destruct Hor as [Hor|(_ & due' & Hdue & HwC & Hdl)]; [right; split; [exact Hf|by left]|left].
    eexists (_ :: new), _. cbn. split; [by rewrite Hnew|]. split; [by left|exact HwC].
Qed.

Lemma checks_grow (w w' : Watch) : inner w w' -> (C <= wa_clock w)%Z -> (exists new, wa_checked w = new ++ done0) ->
  (C <= wa_clock w')%Z /\ (exists new, wa_checked w' = new ++ done0) /\ (checked_since w -> checked_since w').
Proof.
  intros Hs HC (new & Hnew). destruct Hs as [dt Hdt Hc Htk Hg|Htk|Hw|statuses due Hg Hd]; cbn; split_and!;
    try done; try lia; try (by exists new).
  - eexists (_ :: new). by rewrite Hnew.
  - intros (new' & c & Hn & Hin & Hc). eexists (_ :: new'), c. cbn. rewrite Hn. split; [done|]. split; [by right|done].
Qed.

Lemma responding_inner (w w' : Watch) : inner w w' -> responding w -> responding w'.
Proof using Hgrace.
  intros Hs (Ht & HC & Hnew & Hor). destruct (checks_grow w w' Hs HC Hnew) as (HC' & Hnew' & Hkeep).
  split; [by eapply timed_inner|]. split; [done|]. split; [done|]. destruct Hor as [Hd|[Hb|Ha]]; [left; by apply Hkeep| |].
  - by eapply before_inner.
  - destruct (after_inner w w' Hs Ht HC Hnew Ha); [by left|by right; right].
Qed.

Lemma responding_late (w : Watch) : responding w -> (deadline < wa_running w)%Z -> checked_since w.
Proof using Hgrace.
  intros ((Ht & _) & _ & _ & [Hd|[(Hb & _)|(_ & [[_ Hr]|(_ & due & _ & _ & Hdl)])]]) Hlate; [done|unfold deadline in *; lia..].
Qed.
End Response.

Lemma response (w w' : Watch) : timed w -> woken_up w -> rtc inner w w' ->
  (wa_running w + pollInterval + WakeGrace cfg < wa_running w')%Z ->
  exists new c, wa_checked w' = new ++ wa_checked w /\ c ∈ new /\ (wa_clock w <= ck_wokeAt c)%Z.
Proof using Hgrace.
  intros Ht Hw Hr. apply (responding_late (wa_running w) (wa_clock w)).
  assert (responding (wa_running w) (wa_clock w) (wa_checked w) w) as H0.
  { split; [done|]. split; [lia|]. split; [by exists []|]. right; left. split; [|by left]. destruct Ht as [Ht _]. lia. }
  revert w' Hr. refine (rtc_ind_r (fun w' => responding (wa_running w) (wa_clock w) (wa_checked w) w') w H0 _).
  intros w1 w2 _ Hs. by apply responding_inner.
Qed.
(** ** Time passes

    Whatever the state, the goroutines reach one in which nothing is due, and from there the next tick. *)

Definition rested (w : Watch) : Prop :=
  timed w /\ wa_wakeCh w = false /\ (forall due, wl_grace (wa_loop w) = Some due -> (wa_running w < due)%Z).

Lemma take_rest (w : Watch) : timed w -> wa_wakeCh w = false ->
  exists w', rtc inner w w' /\ wa_running w' = wa_running w /\ wa_tickAt w' = wa_tickAt w /\ rested w'.
Proof using Hgrace.
  intros Ht Hc. destruct (wl_grace (wa_loop w)) as [due|] eqn:Eg.
  - destruct (decide (wa_running w < due)%Z) as [Hlt|Hge].
    + exists w. split; [apply rtc_refl|]. split; [done|]. split; [done|]. split; [done|]. split; [done|].
      intros d Hd. rewrite Eg in Hd. by simplify_eq.
    + assert (inner w (loop_checks shouldReconnect [] w)) as Hs by (apply (ws_check _ _ _ [] due); [done|lia]).
      exists (loop_checks shouldReconnect [] w). split; [by apply rtc_once|]. split; [done|]. split; [done|].
      split; [by eapply timed_inner|done].
  - exists w. split; [apply rtc_refl|]. split; [done|]. split; [done|]. split; [done|]. split; [done|].
      intros d Hd. rewrite Eg in Hd. by simplify_eq.
Qed.

Lemma settle (w : Watch) : timed w ->
  exists w', rtc inner w w' /\ wa_running w' = wa_running w /\ wa_tickAt w' = wa_tickAt w /\ rested w'.
Proof using Hgrace.
  intros Ht. destruct (wa_wakeCh w) eqn:Ec; [|by apply take_rest].
  assert (inner w (loop_wakes cfg w)) as Hs by by apply ws_wake.
  destruct (take_rest (loop_wakes cfg w)) as (w' & Hr & H1 & H2 & H3); [by eapply timed_inner|done|].
  exists w'. split; [by eapply rtc_l|]. done.
Qed.

Lemma reach_tick (w : Watch) : timed w ->
  exists w', rtc inner w w' /\ timed w' /\ (wa_tickAt w <= wa_running w')%Z /\ wa_tickAt w' = (pollInterval + wa_tickAt w)%Z.
Proof using Hgrace.
  intros Ht. destruct (settle w Ht) as (w0 & Hr0 & E1 & E2 & Ht0 & Hc0 & Hd0).
  assert (forall w1, timed w1 -> wa_wakeCh w1 = false -> wa_tickAt w1 = wa_tickAt w ->
            (forall due, wl_grace (wa_loop w1) = Some due -> (wa_tickAt w <= due)%Z) ->
            exists w', rtc inner w1 w' /\ timed w' /\ (wa_tickAt w <= wa_running w')%Z /\ wa_tickAt w' = (pollInterval + wa_tickAt w)%Z) as Hgo.
  { intros w1 Ht1 Hc1 Htk Hd. pose proof (proj1 Ht1) as Hb. set (w2 := stay_awake (wa_tickAt w1 - wa_running w1) w1).
    assert (inner w1 w2) as Hs by (apply ws_awake; [lia|done|lia|intros due Hdue; specialize (Hd due Hdue); lia]).
    assert (inner w2 (poll_tick w2)) as Hs2 by (apply ws_tick; cbn; lia).
    exists (poll_tick w2). split; [eapply rtc_l; [exact Hs|by apply rtc_once]|].
    split; [eapply timed_inner; [exact Hs2|by eapply timed_inner]|]. cbn. lia. }
  destruct (wl_grace (wa_loop w0)) as [due|] eqn:Eg; [destruct (decide (wa_tickAt w <= due)%Z) as [Hle|Hgt]|].
  - destruct (Hgo w0) as (w' & Hr & H); [done|done|done|intros d Hd; congruence|]. exists w'. split; [by etrans|done].
  - set (w1 := stay_awake (due - wa_running w0) w0). specialize (Hd0 due eq_refl). pose proof (proj1 Ht0) as Hb.
    assert (inner w0 w1) as Hs by (apply ws_awake; [lia|done|lia|intros d Hd; assert (d = due) by congruence; lia]).
    assert (inner w1 (loop_checks shouldReconnect [] w1)) as Hs1 by (apply (ws_check _ _ _ [] due); [exact Eg|cbn; lia]).
    destruct (Hgo (loop_checks shouldReconnect [] w1)) as (w' & Hr & H).
    + eapply timed_inner; [exact Hs1|]. by eapply timed_inner.
    + done.
    + done.
    + done.
    + exists w'. split; [|done]. etrans; [exact Hr0|]. eapply rtc_l; [exact Hs|]. by eapply rtc_l.
  - destruct (Hgo w0) as (w' & Hr & H); [done|done|done|intros d Hd; congruence|]. exists w'. split; [by etrans|done].
Qed.

Lemma time_passes (k : nat) : forall w : Watch, timed w ->
  exists w', rtc inner w w' /\ timed w' /\ (wa_tickAt w + pollInterval * (Z.of_nat k - 1) <= wa_running w')%Z
    /\ wa_tickAt w' = (wa_tickAt w + pollInterval * Z.of_nat k)%Z.
Proof using Hgrace.
  induction k as [|k IH]; intros w Ht.
  - exists w. split; [apply rtc_refl|]. split; [done|]. destruct Ht as [Ht _]. unfold pollInterval, time_second in *. lia.
  - destruct (IH w Ht) as (w1 & Hr & Ht1 & _ & E1). destruct (reach_tick w1 Ht1) as (w' & Hr' & Ht' & Hle & E2).
    exists w'. split; [by etrans|]. split; [done|]. rewrite E2. unfold pollInterval, time_second in *. lia.
Qed.

End WatchFacts.

(** ** One sleep, told of twice *)

Definition shaken_hands (at_ : Z) : ConnectionStatus :=
  zero_status <| cs_State := StateConnected |> <| cs_TunnelName := "home" |> <| cs_LastHandshakeTime := at_ |> <| cs_HasHandshake := true |>.

Definition hour : Z := 3600 * time_second.

Abbreviation a_step := (watch_step DefaultConfig (fun _ => true)).

(** The Mac sleeps for an hour; IOKit tells of the wake; the poll's next tick is 10 s later, and others follow. *)
Definition asleep : Watch := (watch_start 0) <| wa_clock ::= Z.add hour |>.
Definition woken : Watch := loop_wakes DefaultConfig (asleep <| wa_wakeCh := true |>).
Definition next_tick (w : Watch) : Watch := poll_tick (stay_awake pollInterval w).
Definition woken_twice : Watch := loop_wakes DefaultConfig (next_tick woken).
Definition due_again : Watch := next_tick (next_tick (next_tick woken_twice)).

Lemma next_tick_steps w : wa_wakeCh w = false -> wa_tickAt w = (wa_running w + pollInterval)%Z ->
  (forall due, wl_grace (wa_loop w) = Some due -> (wa_running w + pollInterval <= due)%Z) ->
  rtc (awake_step DefaultConfig (fun _ => true)) w (next_tick w).
Proof.
  intros Hc Ht Hd. eapply rtc_l; [apply (ws_awake _ _ w pollInterval); [done|done|lia|exact Hd]|].
  apply rtc_once, ws_tick. cbn. lia.
Qed.

Lemma due_again_reached : rtc a_step (watch_start 0) due_again.
Proof.
  assert (forall x y, rtc (awake_step DefaultConfig (fun _ => true)) x y -> rtc a_step x y) as Hin.
  { intros x y. apply rtc_subrel. intros ? ? ?. by apply ws_inner. }
  eapply rtc_l; [apply (ws_asleep _ _ _ hour); done|]. eapply rtc_l; [apply ws_iokit|].
  eapply rtc_l; [apply ws_inner, ws_wake; done|]. fold asleep woken.
  etrans; [apply Hin, (next_tick_steps woken); [done|done|intros due [= <-]; vm_compute; done]|].
  eapply rtc_l; [apply ws_inner, ws_wake; done|]. fold woken_twice.
  etrans; [apply Hin, (next_tick_steps woken_twice); [done|done|intros due [= <-]; vm_compute; done]|].
  etrans; [apply Hin, (next_tick_steps (next_tick woken_twice)); [done|done|intros due [= <-]; vm_compute; done]|].
  apply Hin, next_tick_steps; [done|done|intros due [= <-]; vm_compute; done].
Qed.

(** A tunnel that shook hands 2 s after waking is healthy, but not since the later of the two wakes told of: it is
    reconnected. *)
Example healthy_tunnel_reconnected :
  let w := loop_checks (fun _ => true) [shaken_hands (hour + 2 * time_second)] due_again in
  rtc a_step (watch_start 0) w
  /\ wa_clock w = (hour + 40 * time_second)%Z /\ ck_names <$> wa_checked w = [["home"]].
Proof.
  split; [|split; vm_compute; reflexivity]. eapply rtc_r; [apply due_again_reached|].
  apply ws_inner. refine (ws_check _ _ _ _ (40 * time_second)%Z _ _); [reflexivity|vm_compute; done].
Qed.

