(* ===== verification/AppInfo.v ===== *)
(** * Small parts of the app: its version, its folders, its login item, its window, its icons and its start

    CurrentVersion and the Homebrew test of internal/update/checker.go, installer.go, GetPaths and EnsureDirs of
    internal/storage/paths.go, setAutostart and migrateAutostart of internal/app/settings_ops.go, ResizeToFit of
    app.go, pngWith144DPI of internal/gui/tray.go, and the local half of Run of gui.go.  The disk and the login item service are arguments. *)

From S2P Require Import Prelude GoStrings GoText HelperMain Store StoreFacts History Bridge Settings Diag.

#[local] Set Warnings "-clear-no-such-hyp".

(** ** The version *)

Definition fallbackVersion : string := "1.1.0".

Definition skip_space (s : string) : string := snd (span re_space s).

(** What the lazy group of the expression takes of a text that ends in white space. *)
Fixpoint strip_end (s : string) : string :=
  match s with
  | "" => ""
  | String c s => match strip_end s with
                  | "" => if re_space c then "" else String c ""
                  | r => String c r
                  end
  end.

(** [shortVersionRe], at the start of a text. *)
Definition version_here (s : string) : option string :=
  s ← after_prefix "<key>" s;
  s ← after_prefix "CFBundleShortVersionString" (skip_space s);
  s ← after_prefix "</key>" (skip_space s);
  s ← after_prefix "<string>" (skip_space s);
  let '(text, rest) := span (fun c => negb (bool_decide (c = "<"%char))) (skip_space s) in
  if has_prefix "</string>" rest then match strip_end text with "" => None | v => Some v end else None.

Definition parseShortVersion (data : string) : string :=
  match find_first version_here data with Some v => trim_space v | None => "" end.

(** [exe]: os.Executable. *)
Definition readBundleVersion (exe : option string) (eval_symlinks read_file : string -> option string) : string :=
  match exe with
  | None => ""
  | Some exe =>
      let exe := default exe (eval_symlinks exe) in
      match read_file (path_join (path_join (path_dir exe) "..") "Info.plist") with
      | None => ""
      | Some data => parseShortVersion data
      end
  end.

(** [once]: the version that was read, [None] before the first call; [bundle]: what readBundleVersion would give now. *)
Definition CurrentVersion (once : option string) (bundle : string) : string * option string :=
  let v := match once with Some v => v | None => if bundle =s "" then fallbackVersion else bundle end in (v, Some v).

(** ** Homebrew *)

Definition brew_paths : list string := ["/opt/homebrew/bin/brew"; "/usr/local/bin/brew"].
Definition caskroomPaths : list string := ["/opt/homebrew/Caskroom/lockplus"; "/usr/local/Caskroom/lockplus"].

Definition BrewPath (exists_ : string -> bool) : string := default "" (List.find exists_ brew_paths).

Definition IsBrewInstall (exists_ is_dir : string -> bool) : bool :=
  existsb (fun p => is_dir p && negb (BrewPath exists_ =s "")) caskroomPaths.

(** ** Installing: the command that is run

    [verified]: whether the checksum and the signature of the download were verified, [None] without a download. *)

Definition releases_page : string := "https://github.com/steiale/wireguide/releases/latest".

Definition installDarwin (path : string) : list string :=
  if path =s "" then ["/usr/bin/open"; releases_page] else ["/usr/bin/open"; "-R"; path].

Definition Install (path : string) (verified : option (bool * bool)) : option (list string) :=
  match verified with
  | Some (hash, signature) => if hash || signature then Some (installDarwin path) else None
  | None => None
  end.

(** ** Folders *)

Record Paths := MkPaths { ConfigDir : string; TunnelsDir : string; LogsDir : string; DataDir : string }.

Definition GetPaths (home : option string) : option Paths :=
  match home with
  | None => None
  | Some home =>
      let appSupport := path_join home "Library/Application Support/lockplus" in
      Some (MkPaths appSupport (path_join appSupport "tunnels") (path_join home "Library/Logs/lockplus")
              "/Library/Application Support/lockplus")
  end.

(** The permissions of the folders that are there. *)
Abbreviation Modes := (gmap string Z).

(** What can be done at a folder. *)
Record DirAccess := MkDirAccess { da_mkdir : string -> bool; da_chmod : string -> bool; da_write : string -> bool }.

Definition private_dir : Z := 448.

Definition make_dir (umask : Z) (a : DirAccess) (dir : string) (m : Modes) : option Modes :=
  if da_mkdir a dir then Some (match m !! dir with Some _ => m | None => <[dir := Z.land private_dir (Z.lnot umask)]> m end) else None.

(** The folder that cannot be used, if any. *)
Fixpoint ensure_user_dirs (umask : Z) (a : DirAccess) (dirs : list string) (m : Modes) : option string * Modes :=
  match dirs with
  | [] => (None, m)
  | dir :: rest =>
      match make_dir umask a dir m with
      | None => (Some dir, m)
      | Some m =>
          if da_chmod a dir then ensure_user_dirs umask a rest (<[dir := private_dir]> m)
          else if da_write a dir then ensure_user_dirs umask a rest m
          else (Some dir, m)
      end
  end.

Definition EnsureDirs (umask : Z) (a : DirAccess) (p : Paths) (m : Modes) : option string * Modes :=
  match ensure_user_dirs umask a [ConfigDir p; TunnelsDir p; LogsDir p] m with
  | (Some dir, m) => (Some dir, m)
  | (None, m) =>
      if DataDir p =s "" then (None, m)
      else match make_dir umask a (DataDir p) m with
           | None => (None, m)
           | Some m => (None, if da_chmod a (DataDir p) then <[DataDir p := private_dir]> m else m)
           end
  end.

(** ** Launch at login

    Whether the plist of old versions is there, and whether the login item is registered. *)

Record Login := MkLogin { lo_legacy : bool; lo_item : bool }.

Inductive AutostartError := AeNoApp | AeEnable | AeDisable.

(** [removable]: the plist can be removed. *)
Definition removeLegacyLaunchAgent (removable : bool) (l : Login) : bool * Login :=
  if lo_legacy l && removable then (true, MkLogin false (lo_item l)) else (false, l).

(** [works]: the login item service does what it is asked. *)
Definition setAutostart (app removable works enabled : bool) (l : Login) : option AutostartError * Login :=
  let l := snd (removeLegacyLaunchAgent removable l) in
  if negb app then (Some AeNoApp, l)
  else if works then (None, MkLogin (lo_legacy l) enabled)
  else (Some (if enabled then AeEnable else AeDisable), l).

Definition migrateAutostart (settings : option Settings) (app removable works : bool) (l : Login) : Login :=
  match settings with
  | None => l
  | Some s =>
      if negb (AutoStart s) then l
      else let '(existed, l) := removeLegacyLaunchAgent removable l in
           if existed then snd (setAutostart app removable works true l) else l
  end.

(** ** The window: the height it is given *)

Definition int64 (z : Z) : Z := ((z + 2 ^ 63) mod 2 ^ 64 - 2 ^ 63)%Z.

Definition ResizeToFit (tunnelCount : Z) : Z :=
  let sidebarH := int64 (20 + 36 + int64 (tunnelCount * 29) + 8 + 84) in
  let contentH := if (sidebarH <? 720)%Z then 720%Z else sidebarH in
  let contentH := if (900 <? contentH)%Z then 900%Z else contentH in
  (50 + contentH)%Z.

(** ** Icons *)

(** crc32.ChecksumIEEE: bit by bit, with the reflected polynomial. *)
Definition crc_bit (crc : Z) : Z :=
  if Z.odd crc then Z.lxor (Z.shiftr crc 1) 3988292384%Z else Z.shiftr crc 1.

Definition crc_byte (crc b : Z) : Z := Nat.iter 8 crc_bit (Z.lxor crc b).

Definition crc32 (data : list Z) : Z := Z.lxor (foldl crc_byte 4294967295%Z data) 4294967295%Z.

(** binary.BigEndian.PutUint32 *)
Definition be32 (n : Z) : list Z := (fun s => Z.land (Z.shiftr n s) 255) <$> [24; 16; 8; 0]%Z.

Definition ppm : Z := 5669.
Definition insertAt : nat := 33.

Definition phys_body : list Z := (byte_val <$> bytes_of "pHYs") ++ be32 ppm ++ be32 ppm ++ [1%Z].

Definition phys_chunk : list Z := be32 9 ++ phys_body ++ be32 (crc32 phys_body).

Definition pngWith144DPI (data : list Z) : list Z :=
  if (length data <? insertAt)%nat then data else take insertAt data ++ phys_chunk ++ drop insertAt data.

(** ** The local half of the start: Run of internal/gui/gui.go up to the helper *)

Record LocalState := MkLocal { gs_modes : Modes; gs_tunnels : Dir; gs_history : HistoryFile; gs_settings : JsonFile Settings; gs_log : guiLogHandler }.

Inductive GuiStartError := NoHome | BadDir (dir : string).

(** What the disk does: [su_stop]: where a crash ends the migration; [su_saved]: the history can be written;
    [su_renamed]: a corrupt settings file can be set aside. *)
Record StartUp := MkStartUp {
  su_home : option string; su_umask : Z; su_access : DirAccess; su_fails : string -> bool; su_stop : option (nat * Content);
  su_legacy : list (string * option Content); su_saved : bool; su_now : Z; su_renamed : bool }.

Definition gui_start (fold : string -> string) (u : StartUp) (l : LocalState) : option GuiStartError * LocalState :=
  match GetPaths (su_home u) with
  | None => (Some NoHome, l)
  | Some p =>
      match EnsureDirs (su_umask u) (su_access u) p (gs_modes l) with
      | (Some dir, modes) => (Some (BadDir dir), MkLocal modes (gs_tunnels l) (gs_history l) (gs_settings l) (gs_log l))
      | (None, modes) =>
          let tunnels := migrateTunnels fold (su_fails u) (su_stop u) (su_legacy u) (gs_tunnels l) in
          let history := CloseOpenSessions (su_saved u) (su_now u) "app_quit" (gs_history l) in
          let '(s, settings) := settings_Load (su_renamed u) (gs_settings l) in
          let log := match s with
                     | Some s => if Settings.LogLevel s =s "" then gs_log l else setGUILogLevel (Settings.LogLevel s) (gs_log l)
                     | None => gs_log l
                     end in
          (None, MkLocal modes tunnels history settings log)
      end
  end.

(** * Facts *)

(** ** The version *)

Definition lf : string := String newline "".

(** The keys of build/darwin/Info.plist around the version. *)
Definition info_plist (version : string) : string :=
  "<key>CFBundlePackageType</key>" +:+ lf +:+ "<string>APPL</string>" +:+ lf +:+ "<key>CFBundleShortVersionString</key>" +:+ lf
  +:+ "<string>" +:+ version +:+ "</string>" +:+ lf +:+ "<key>CFBundleVersion</key>" +:+ lf +:+ "<string>1.1.0</string>".

Example version_of_bundle : parseShortVersion (info_plist " 1.2.0-rc 1  ") = "1.2.0-rc 1".
Proof. vm_compute. reflexivity. Qed.

Example version_missing : parseShortVersion (info_plist " ") = "".
Proof. vm_compute. reflexivity. Qed.

(** The version is read once: it does not change under the running process, and is never empty. *)
Lemma CurrentVersion_fixed once bundle bundle' :
  let '(v, once') := CurrentVersion once bundle in
  CurrentVersion once' bundle' = (v, once') /\ (once <> Some "" -> v <> "").
Proof.
  unfold CurrentVersion. destruct once as [v|]; [split; [done|congruence]|]. split; [done|]. intros _. by case_bool_decide.
Qed.

Lemma span_stop p s c t : string_forall p s = true -> p c = false -> span p (s +:+ String c t) = (s, String c t).
Proof.
  intros H Hc. induction s as [|a s IH].
  - change ("" +:+ String c t) with (String c t). cbn [span]. by rewrite Hc.
  - cbn in H. apply andb_prop in H as [Ha H]. change (String a s +:+ String c t) with (String a (s +:+ String c t)).
    cbn [span]. by rewrite Ha, (IH H).
Qed.

Lemma skip_space_stop s c t : string_forall re_space s = true -> re_space c = false -> skip_space (s +:+ String c t) = String c t.
Proof. intros H Hc. unfold skip_space. by rewrite span_stop. Qed.

(** The version an entry holds is read from it, whatever white space is between the tags and whatever follows. *)
Lemma version_entry ws c v rest :
  let version := String c v in
  string_forall re_space ws = true -> re_space c = false -> strip_end version = version ->
  string_forall (fun c => negb (bool_decide (c = "<"%char))) version = true ->
  version_here ("<key>CFBundleShortVersionString</key>" +:+ (ws +:+ ("<string>" +:+ (version +:+ ("</string>" +:+ rest))))) = Some version.
Proof.
  intros version Hws Hc Hend Hlt. unfold version_here.
  change ("<key>CFBundleShortVersionString</key>" +:+ ?s) with ("<key>" +:+ ("CFBundleShortVersionString" +:+ ("</key>" +:+ s))).
  rewrite after_prefix_app. cbn [mbind option_bind].
  change (skip_space ("CFBundleShortVersionString" +:+ ?s)) with ("CFBundleShortVersionString" +:+ s).
  rewrite after_prefix_app. cbn [mbind option_bind].
  change (skip_space ("</key>" +:+ ?s)) with ("</key>" +:+ s). rewrite after_prefix_app. cbn [mbind option_bind].
  change ("<string>" +:+ ?s) with (String "<" ("string>" +:+ s)). rewrite skip_space_stop by done.
  change (String "<" ("string>" +:+ ?s)) with ("<string>" +:+ s). rewrite after_prefix_app. cbn [mbind option_bind].
  unfold version at 1. change (String c v +:+ ?s) with ("" +:+ String c (v +:+ s)). rewrite skip_space_stop by done.
  change (String c (v +:+ ?s)) with (version +:+ s). change ("</string>" +:+ rest) with (String "<" ("/string>" +:+ rest)).
  rewrite span_stop by done. change (String "<" ("/string>" +:+ rest)) with ("</string>" +:+ rest).
  rewrite has_prefix_app, Hend. done.
Qed.

(** ** Homebrew *)

Lemma BrewPath_found exists_ : BrewPath exists_ <> "" <-> exists p, p ∈ brew_paths /\ exists_ p = true.
Proof.
  unfold BrewPath. destruct (List.find exists_ brew_paths) as [p|] eqn:E.
  - apply find_some in E as [Hin Hp]. split; [intros _; exists p; by rewrite list_elem_of_In|]. intros _. change (p <> "").
    by destruct Hin as [<-|[<-|[]]].
  - split; [done|]. intros (p & Hin & Hp). apply list_elem_of_In in Hin. by rewrite (find_none _ _ E p Hin) in Hp.
Qed.

Lemma IsBrewInstall_spec exists_ is_dir :
  IsBrewInstall exists_ is_dir = true <->
  (exists p, p ∈ caskroomPaths /\ is_dir p = true) /\ exists p, p ∈ brew_paths /\ exists_ p = true.
Proof.
  rewrite <- BrewPath_found. unfold IsBrewInstall. rewrite existsb_exists. split.
  - intros (p & Hin & [Hd Hb]%andb_prop). apply negb_true_iff, bool_decide_eq_false in Hb. split; [|done].
    exists p. by rewrite list_elem_of_In.
  - intros [(p & Hin & Hd) Hb]. exists p. rewrite <- list_elem_of_In, Hd. split; [done|].
    by apply negb_true_iff, bool_decide_eq_false.
Qed.

(** Nothing unverified is shown to the user, and an update never runs the file itself. *)
Lemma Install_reveals path verified cmd :
  Install path verified = Some cmd ->
  (exists h s, verified = Some (h, s) /\ h || s = true) /\ (cmd = ["/usr/bin/open"; "-R"; path] \/ cmd = ["/usr/bin/open"; releases_page]).
Proof.
  unfold Install, installDarwin. destruct verified as [[h s]|]; [|done]. destruct (h || s) eqn:E; [|done].
  intros [= <-]. split; [eauto|]. case_bool_decide; [by right|by left].
Qed.

(** ** Folders *)

Definition dir_usable (a : DirAccess) (m : Modes) (dir : string) : Prop :=
  match m !! dir with Some mode => mode = private_dir \/ da_write a dir = true | None => False end.

Lemma make_dir_grows umask a dir m m' d : make_dir umask a dir m = Some m' -> m !! d <> None -> m' !! d = m !! d.
Proof.
  unfold make_dir. destruct (da_mkdir a dir); [|done]. intros [= <-] Hd. destruct (m !! dir) eqn:E; [done|].
  apply lookup_insert_ne. congruence.
Qed.

Lemma ensure_user_dirs_usable umask a dirs : forall m m',
  ensure_user_dirs umask a dirs m = (None, m') ->
  (forall d, dir_usable a m d -> dir_usable a m' d) /\ forall d, d ∈ dirs -> dir_usable a m' d.
Proof.
  induction dirs as [|dir dirs IH]; intros m m'; cbn [ensure_user_dirs].
  { intros [= <-]. split; [done|]. by intros d ?%elem_of_nil. }
  destruct (make_dir umask a dir m) as [m1|] eqn:Em; [|done].
  assert (Hold : forall d, dir_usable a m d -> dir_usable a m1 d).
  { intros d Hd. unfold dir_usable. rewrite (make_dir_grows _ _ _ _ _ _ Em); [done|]. intros E. unfold dir_usable in Hd. by rewrite E in Hd. }
  destruct (da_chmod a dir) eqn:Ec; [|destruct (da_write a dir) eqn:Ew; [|done]]; intros H; destruct (IH _ _ H) as [H1 H2].
  - split.
    + intros d Hd. apply H1. unfold dir_usable. destruct (decide (d = dir)) as [->|Hne]; [rewrite lookup_insert_eq; by left|].
      rewrite lookup_insert_ne by done. by apply Hold.
    + intros d [->|Hd]%elem_of_cons; [|by apply H2]. apply H1. unfold dir_usable. rewrite lookup_insert_eq. by left.
  - split; [auto|]. intros d [->|Hd]%elem_of_cons; [|by apply H2]. apply H1. unfold dir_usable.
    unfold make_dir in Em. destruct (da_mkdir a dir); [|done]. injection Em as <-.
    destruct (m !! dir) eqn:E; [rewrite E; by right|rewrite lookup_insert_eq; by right].
Qed.

(** When the folders are reported as usable, each of the user's is there, and is private or can be written to. *)
Lemma EnsureDirs_usable umask a p m m' :
  EnsureDirs umask a p m = (None, m') ->
  forall d, d ∈ [ConfigDir p; TunnelsDir p; LogsDir p] -> dir_usable a m' d.
Proof.
  unfold EnsureDirs. destruct (ensure_user_dirs _ _ _ m) as [[e|] m1] eqn:E; [done|].
  apply ensure_user_dirs_usable in E as [_ Hu]. case_bool_decide; [intros [= <-]; done|].
  destruct (make_dir umask a (DataDir p) m1) as [m2|] eqn:Em; [|intros [= <-]; done].
  intros [= <-] d Hd. specialize (Hu d Hd).
  assert (Hu2 : dir_usable a m2 d).
  { unfold dir_usable. rewrite (make_dir_grows _ _ _ _ _ _ Em); [done|]. intros E'. unfold dir_usable in Hu. by rewrite E' in Hu. }
  destruct (da_chmod a (DataDir p)); [|done]. unfold dir_usable. destruct (decide (d = DataDir p)) as [->|Hne].
  - rewrite lookup_insert_eq. by left.
  - by rewrite lookup_insert_ne.
Qed.

(** ** Launch at login *)

(** A toggle that succeeds leaves the item as asked; the old plist goes whenever it can be removed. *)
Lemma setAutostart_spec app removable works enabled l :
  let '(err, l') := setAutostart app removable works enabled l in
  (err = None -> lo_item l' = enabled) /\ (err <> None -> lo_item l' = lo_item l) /\ (removable = true -> lo_legacy l' = false).
Proof. destruct l as [[] item], app, removable, works, enabled; vm_compute; done. Qed.

(** The migration removes the old plist before it registers the login item, and does nothing more once the plist is
    gone: when the registration fails the app is never launched at login again, though the setting says so. *)
Example migration_loses_autostart :
  let settings := Some (DefaultSettings <| AutoStart := true |>) in
  let l := migrateAutostart settings true true false (MkLogin true false) in
  l = MkLogin false false /\ migrateAutostart settings true true true l = l.
Proof. vm_compute. done. Qed.

(** ** The window and its icons *)

Lemma ResizeToFit_bounds n : (770 <= ResizeToFit n <= 950)%Z.
Proof.
  unfold ResizeToFit. cbv zeta. destruct (Z.ltb_spec (int64 (20 + 36 + int64 (n * 29) + 8 + 84)) 720); [vm_compute; split; discriminate|].
  destruct (Z.ltb_spec 900 (int64 (20 + 36 + int64 (n * 29) + 8 + 84))); lia.
Qed.

(** The chunk as it goes into the file, its checksum computed as PNG wants it. *)
Example phys_chunk_bytes :
  phys_chunk = [0; 0; 0; 9; 112; 72; 89; 115; 0; 0; 22; 37; 0; 0; 22; 37; 1; 73; 82; 36; 240]%Z.
Proof. vm_compute. reflexivity. Qed.

(** Nothing of the image is lost, and every byte stays a byte. *)
Lemma pngWith144DPI_spec data :
  (pngWith144DPI data = data \/ take 33 (pngWith144DPI data) ++ drop 54 (pngWith144DPI data) = data)
  /\ (Forall (fun b => 0 <= b < 256)%Z data -> Forall (fun b => 0 <= b < 256)%Z (pngWith144DPI data)).
Proof.
  unfold pngWith144DPI. destruct (Nat.ltb_spec (length data) insertAt) as [Hl|Hl]; [by split; [left|]|]. split.
  - right. assert (Ht : length (take insertAt data) = 33%nat) by (apply length_take_le; done).
    rewrite take_app_length' by done. rewrite app_assoc, drop_app_length' by (rewrite length_app, Ht; done). apply take_drop.
  - intros H. apply Forall_app. split; [by apply Forall_take|]. apply Forall_app. split; [|by apply Forall_drop].
    apply (bool_decide_eq_true_1 _). vm_compute. reflexivity.
Qed.

(** Big-endian bytes give the number back. *)
Lemma be32_value n : (0 <= n < 2 ^ 32)%Z -> foldl (fun acc b => 256 * acc + b)%Z 0%Z (be32 n) = n.
Proof.
  intros H. unfold be32. cbn [fmap list_fmap foldl]. change 255%Z with (Z.ones 8). rewrite !Z.land_ones, !Z.shiftr_div_pow2 by lia.
  Z.to_euclidean_division_equations; lia.
Qed.

(** ** The start of the app *)

(** A start that is refused has touched no tunnel, session or setting; one that goes on has kept every file that was
    there, has left no session open, and logs at the level of the settings. *)
Lemma gui_start_spec fold `{!Folding fold} u l :
  let '(err, l') := gui_start fold u l in
  match err with
  | Some _ => gs_tunnels l' = gs_tunnels l /\ gs_history l' = gs_history l /\ gs_settings l' = gs_settings l
  | None => (forall k, same_at (gs_tunnels l) (gs_tunnels l') k)
            /\ (su_saved u = true -> Forall (fun s => is_open s = false) (loadLocked (gs_history l')))
            /\ (forall s, gs_settings l = JStored s -> Settings.LogLevel s <> "" -> gl_level (gs_log l') = parseGUILevel (Settings.LogLevel s))
  end.
Proof.
  unfold gui_start. destruct (GetPaths (su_home u)) as [p|]; [|done].
  destruct (EnsureDirs _ _ p _) as [[dir|] modes]; [done|]. destruct (settings_Load _ _) as [s f] eqn:Es.
  split_and!; cbn.
  - intros k. by apply migration_keeps.
  - intros ->. apply CloseOpenSessions_none.
  - intros s' E Hs. rewrite E in Es. injection Es as <- _. by rewrite bool_decide_eq_false_2.
Qed.
