(* ===== verification/HelperRun.v ===== *)
(** * The helper process from its start to its end: Run of internal/helper/helper.go and cmd/helper/main.go

    The socket is taken first, then what a dead helper left is recovered, then requests are served; and the process
    ends in one of two goroutines, which share one cleanup. *)

From S2P Require Import Prelude GoStrings Recovery Pf NetDns NetRoutes OvpnPid HelperMain IpcTransport.

#[local] Set Warnings "-clear-no-such-hyp".

(** ** main *)

Record HelperFlags := MkHelperFlags { hf_socket : string; hf_uid : Z; hf_dataDir : string }.

Definition systemDataDir : string := "/Library/Application Support/lockplus".

(** The arguments of Run; [None]: no socket is named. *)
Definition helper_main (f : HelperFlags) : option (string * Z * string) :=
  if hf_socket f =s "" then None
  else Some (hf_socket f, hf_uid f, if hf_dataDir f =s "" then systemDataDir else hf_dataDir f).

(** ** The start *)

(** [StartStuck]: a loop of the recovery ran out of fuel. *)
Inductive StartOutcome := StartRefused (e : ListenError) | StartServing (p : Process) (cmds : list Cmd) | StartStuck.

Definition start_helper (umask euid ownerUID : Z) (fails : ListenStep -> bool) (env : StartEnv) (w : SocketPath) (m : Machine)
    : StartOutcome * SocketPath * Machine :=
  let '(err, w) := Listen umask euid ownerUID fails w in
  match err with
  | Some e => (StartRefused e, w, m)
  | None => match startup env m with
            | Some (m, p, cmds) => (StartServing p cmds, w, m)
            | None => (StartStuck, w, m)
            end
  end.

(** ** The end

    The main goroutine serves and then cleans up; the one of the signals stops the server, cleans up and exits.
    [cleanup] runs under cleanupOnce: the second caller waits for the first. *)

Inductive Who := Main | Signals.

#[export] Instance who_eq_dec : EqDecision Who.
Proof. solve_decision. Defined.

Inductive Stage := Working | Calling | Inside | Returned.

#[export] Instance stage_eq_dec : EqDecision Stage.
Proof. solve_decision. Defined.

(** [rn_cleanups]: the cleanups that ran to their end; [rn_open]: nobody has begun one. *)
Record Running := MkRunning { rn_main : Stage; rn_sig : Stage; rn_open : bool; rn_cleanups : nat; rn_shut : bool; rn_exited : bool }.

#[export] Instance eta_running : Eta Running := fun r =>
  MkRunning (rn_main r) (rn_sig r) (rn_open r) (rn_cleanups r) (rn_shut r) (rn_exited r).

Definition running_start : Running := MkRunning Working Working true 0 false false.

Definition stage (r : Running) (t : Who) : Stage := match t with Main => rn_main r | Signals => rn_sig r end.

Definition set_stage (t : Who) (s : Stage) (r : Running) : Running :=
  match t with Main => r <| rn_main := s |> | Signals => r <| rn_sig := s |> end.

Inductive run_step (r : Running) : Running -> Prop :=
| rs_shutdown : rn_exited r = false -> run_step r (r <| rn_shut := true |>)   (* the grace window ends, or the RPC *)
| rs_signal : rn_exited r = false -> rn_sig r = Working -> run_step r ((set_stage Signals Calling r) <| rn_shut := true |>)
| rs_served : rn_exited r = false -> rn_main r = Working -> run_step r (set_stage Main Calling r)   (* stopped, or too many errors *)
| rs_first t : rn_exited r = false -> stage r t = Calling -> rn_open r = true -> run_step r ((set_stage t Inside r) <| rn_open := false |>)
| rs_cleaned t : rn_exited r = false -> stage r t = Inside -> run_step r ((set_stage t Returned r) <| rn_cleanups ::= S |>)
| rs_second t : rn_exited r = false -> stage r t = Calling -> rn_open r = false -> rn_cleanups r <> 0%nat ->
    run_step r (set_stage t Returned r)
| rs_exit t : rn_exited r = false -> stage r t = Returned -> run_step r (r <| rn_exited := true |>).

(** Serve panics: the deferred function of Run recovers, and Run returns. *)
Inductive run_panics (r : Running) : Running -> Prop :=
| rp_panic : rn_exited r = false -> rn_main r = Working -> run_panics r (r <| rn_exited := true |>).

(** * Facts *)

(** ** The start *)

(** A second helper is harmless: while another process accepts on the socket, a start is refused, leaves the socket
    to it, and touches nothing of the machine: no pid file, pf rule, crash record or DNS setting. *)
Theorem second_helper_harmless umask euid owner fails env w m :
  sp_live w = true ->
  exists e w', start_helper umask euid owner fails env w m = (StartRefused e, w', m) /\ sp_live w' = true /\ sp_file w' = sp_file w.
Proof.
  intros Hl. unfold start_helper, Listen. destruct (fails LMkdir); [by eauto|]. cbn [update sp_dir sp_live sp_file].
  destruct (fails LStat); [by eauto|]. destruct (fails LOwner); [by eauto|].
  destruct (negb _); [by eauto|]. rewrite Hl. by eauto.
Qed.

(** One that is not refused took the socket, and has healed the machine when it serves its first request. *)
Lemma start_heals pf0 oD oS obeys (Ha : h_anchor pf0 = None) (Hf : h_file pf0 = None) umask euid owner fails env w w' m m' s :
  life pf0 oD oS obeys m None -> env_ok obeys env -> start_helper umask euid owner fails env w m = (s, w', m') ->
  match s with
  | StartRefused _ => m' = m
  | StartServing p _ => sp_live w' = true /\ healthy pf0 oD oS m' /\ p = new_process
  | StartStuck => False
  end.
Proof.
  intros Hl He. apply (life_ok pf0 oD oS obeys Ha Hf) in Hl. unfold start_helper.
  destruct (startup_heals pf0 oD oS obeys Ha Hf env m He Hl) as (m1 & p & cmds & E & Hh & Hp & _). rewrite E.
  destruct (Listen umask euid owner fails w) as [[e|] w1] eqn:El; intros [= <- <- <-]; [done|]. split_and!; [|done..].
  by apply listen_live in El.
Qed.

(** ** The end *)

Definition run_inv (r : Running) : Prop :=
  (rn_open r = true -> rn_cleanups r = 0%nat /\ stage r Main <> Inside /\ stage r Signals <> Inside)
  /\ (rn_open r = false -> (rn_cleanups r = 1%nat /\ stage r Main <> Inside /\ stage r Signals <> Inside)
        \/ (rn_cleanups r = 0%nat /\ (stage r Main = Inside /\ stage r Signals <> Inside \/ stage r Main <> Inside /\ stage r Signals = Inside)))
  /\ (forall t, stage r t = Returned -> rn_cleanups r = 1%nat)
  /\ (rn_exited r = true -> rn_cleanups r = 1%nat).

Lemma run_step_inv r r' : run_step r r' -> run_inv r -> run_inv r'.
Proof.
  intros Hs (H1 & H2 & H3 & H4). unfold run_inv in *.
  pose proof (H3 Main) as Hm. pose proof (H3 Signals) as Hg. clear H3.
  destruct Hs as [Hx|Hx Hst|Hx Hst|t Hx Hst Ho|t Hx Hst|t Hx Hst Ho Hc|t Hx Hst];
    try (destruct t); destruct r as [ma si [] cl sh ex]; cbn in *; subst;
    (split_and!; [intros ?|intros ?|intros [] ?|intros ?]; naive_solver (lia || congruence)).
Qed.

(** The helper never ends before its cleanup has: however signals, shutdowns and the end of Serve interleave, when the
    process has exited the cleanup ran to its end, once. *)
Theorem cleanup_before_exit r :
  rtc run_step running_start r -> (rn_cleanups r <= 1)%nat /\ (rn_exited r = true -> rn_cleanups r = 1%nat).
Proof.
  intros Hr. assert (H : run_inv r).
  { revert r Hr. refine (rtc_ind_r (fun r => run_inv r) running_start _ _).
    - split_and!; try done. by intros [].
    - intros r r' _ Hs. by apply run_step_inv. }
  destruct H as (H1 & H2 & H3 & H4). split; [|done]. destruct (rn_open r).
  - destruct (H1 eq_refl) as [-> _]. lia.
  - destruct (H2 eq_refl) as [[-> _]|[-> _]]; lia.
Qed.

(** Both goroutines call for the cleanup; the second one waits and the process ends after it. *)
Definition both_ended : Running := MkRunning Returned Returned false 1 true true.

Lemma both_ended_reached : rtc run_step running_start both_ended.
Proof.
  eapply rtc_l; [by apply rs_signal|]. eapply rtc_l; [by apply rs_served|]. eapply rtc_l; [by apply (rs_first _ Signals)|].
  eapply rtc_l; [by apply (rs_cleaned _ Signals)|]. eapply rtc_l; [by apply (rs_second _ Main)|]. apply rtc_once.
  exact (rs_exit (MkRunning Returned Returned false 1 true false) Main eq_refl eq_refl).
Qed.

Lemma cleanup_before_exit_witness : (1 <= 1)%nat /\ (true = true -> 1%nat = 1%nat).
Proof. exact (cleanup_before_exit both_ended both_ended_reached). Defined.

(** A socket on which a helper accepts. *)
Definition live_socket : SocketPath := MkPath (Some 0%Z) (Some (MkSocketFile 384 501)) true.

Lemma second_helper_harmless_witness :
  exists e w', start_helper 18 0 501 (fun _ => false) laptop_env live_socket laptop = (StartRefused e, w', laptop)
               /\ sp_live w' = true /\ sp_file w' = Some (MkSocketFile 384 501).
Proof. exact (second_helper_harmless 18 0 501 (fun _ => false) laptop_env live_socket laptop eq_refl). Defined.

(** A panic of the accept loop is recovered by a deferred function that does not clean up: Run returns with the
    tunnels' rules and DNS still in place. *)
Example panic_skips_cleanup : exists r, run_panics running_start r /\ rn_exited r = true /\ rn_cleanups r = 0%nat.
Proof. exists (running_start <| rn_exited := true |>). split; [by apply rp_panic|done]. Qed.
