(* ===== verification/OvpnFiles.v ===== *)
(** * The files of an OpenVPN tunnel: start of internal/ovpn/manager.go, and what cleanup removes

    The root-only runtime directory, as the names of its files with their texts.  Starting the process is an
    argument, as is what makes a call fail. *)

From S2P Require Import Prelude GoStrings GoText OvpnProfile OvpnPid Recovery OvpnManager.

#[local] Set Warnings "-clear-no-such-hyp".

Definition config_file (name : string) : string := name +:+ ".ovpn".
Definition sock_file (name : string) : string := name +:+ ".mgmt.sock".
Definition pid_file (name : string) : string := name +:+ pidSuffix.

Section Manager.
Context (runtimeDir : string).

Definition configPath (name : string) : string := path_join runtimeDir (config_file name).
Definition sockPath (name : string) : string := path_join runtimeDir (sock_file name).
Definition pidPath (name : string) : string := path_join runtimeDir (pid_file name).

Abbreviation RunDir := (gmap string string).

Inductive StartStep := StMkdir | StWriteConfig | StPipe | StProcess | StWritePid.

#[export] Instance start_step_eq_dec : EqDecision StartStep.
Proof. solve_decision. Defined.

(** The command that was started, or the step that failed; [torn]: what a failed write left of the configuration;
    [pid]: the process's. *)
Definition start (fails : StartStep -> bool) (torn : option string) (pid : Z) (name : string) (prof : profile) (content : string) (d : RunDir)
    : (list string + StartStep) * RunDir :=
  if fails StMkdir then (inr StMkdir, d)
  else
    let d := delete (sock_file name) d in
    if fails StWriteConfig then (inr StWriteConfig, match torn with Some t => <[config_file name := t]> d | None => d end)
    else
      let d := <[config_file name := runtimeConfig prof content]> d in
      if fails StPipe then (inr StPipe, d)
      else if fails StProcess then (inr StProcess, d)
      else
        let d := if fails StWritePid then d else <[pid_file name := itoa pid +:+ String newline ""]> d in
        (inl (args (configPath name) (sockPath name) prof), d).

(** The end of a tunnel. *)
Definition remove_files (name : string) (d : RunDir) : RunDir :=
  delete (pid_file name) (delete (config_file name) (delete (sock_file name) d)).

(** * Facts *)

Definition files_of (name : string) : list string := [sock_file name; config_file name; pid_file name].

(** A tunnel's files are its own: starting and ending it leaves every other file. *)
Lemma start_elsewhere fails torn pid name prof content d f :
  f ∉ files_of name -> snd (start fails torn pid name prof content d) !! f = d !! f.
Proof.
  unfold files_of. rewrite !not_elem_of_cons. intros (H1 & H2 & H3 & _). unfold start.
  destruct (fails StMkdir); [done|]. destruct (fails StWriteConfig); [destruct torn; cbn [snd]; by simplify_map_eq|].
  destruct (fails StPipe), (fails StProcess), (fails StWritePid); cbn [snd]; by simplify_map_eq.
Qed.

Lemma remove_files_all name d f : remove_files name d !! f = if bool_decide (f ∈ files_of name) then None else d !! f.
Proof.
  unfold remove_files, files_of. case_bool_decide as H.
  - rewrite !elem_of_cons, elem_of_nil in H. destruct H as [->|[->|[->|[]]]]; rewrite ?lookup_delete_eq; try done.
    + destruct (decide (pid_file name = sock_file name)) as [E|E]; [by rewrite <- E, lookup_delete_eq|].
      rewrite lookup_delete_ne by done. destruct (decide (config_file name = sock_file name)) as [E'|E']; [by rewrite E', lookup_delete_eq|].
      by rewrite lookup_delete_ne, lookup_delete_eq by done.
    + destruct (decide (pid_file name = config_file name)) as [E|E]; [by rewrite <- E, lookup_delete_eq|].
      by rewrite lookup_delete_ne, lookup_delete_eq by done.
  - rewrite !not_elem_of_cons in H. destruct H as (H1 & H2 & H3 & _). by rewrite !lookup_delete_ne.
Qed.

(** The files of two tunnels are apart. *)
Lemma cut_dot name suffix : string_forall name_char name = true -> cut_byte "." (name +:+ String "." suffix) = Some (name, suffix).
Proof.
  intros H. induction name as [|c name IH]; [done|]. cbn in H. apply andb_prop in H as [Hc H].
  change (String c name +:+ String "." suffix) with (String c (name +:+ String "." suffix)). cbn [cut_byte].
  rewrite bool_decide_eq_false_2 by (intros ->; done). by rewrite (IH H).
Qed.

Lemma files_apart a b f : ValidateTunnelName a = None -> ValidateTunnelName b = None -> f ∈ files_of a -> f ∈ files_of b -> a = b.
Proof.
  intros Ha%valid_name_chars Hb%valid_name_chars. unfold files_of, sock_file, config_file, pid_file, pidSuffix.
  rewrite !elem_of_cons, !elem_of_nil.
  assert (H : forall sa sb, a +:+ String "." sa = b +:+ String "." sb -> a = b).
  { intros sa sb E. pose proof (cut_dot a sa Ha) as H. rewrite E, cut_dot in H by done. by injection H as ->. }
  intros [->|[->|[->|[]]]] [E|[E|[E|[]]]]; exact (H _ _ E).
Qed.

(** openvpn is started on the text [OvpnRuntime] is about, and a tunnel that ended leaves no file. *)
Lemma start_spec fails torn pid name prof content d cmd d' :
  start fails torn pid name prof content d = (inl cmd, d') ->
  cmd = args (configPath name) (sockPath name) prof
  /\ d' !! config_file name = Some (runtimeConfig prof content)
  /\ (forall f, f ∈ files_of name -> remove_files name d' !! f = None)
  /\ (forall f, f ∉ files_of name -> remove_files name d' !! f = d !! f).
Proof.
  intros H. pose proof (fun f => start_elsewhere fails torn pid name prof content d f) as He. rewrite H in He. cbn [snd] in He.
  split; [|split; [|split]].
  - revert H. unfold start. destruct (fails StMkdir), (fails StWriteConfig), (fails StPipe), (fails StProcess); try done. by intros [= <- _].
  - revert H. unfold start. destruct (fails StMkdir), (fails StWriteConfig), (fails StPipe), (fails StProcess); try done.
    intros [= _ <-]. destruct (fails StWritePid); [by rewrite lookup_insert_eq|].
    rewrite lookup_insert_ne; [by rewrite lookup_insert_eq|]. unfold config_file, pid_file, pidSuffix. by intros E%(inj (String.append name)).
  - intros f Hf. rewrite remove_files_all. by rewrite bool_decide_eq_true_2.
  - intros f Hf. rewrite remove_files_all, bool_decide_eq_false_2 by done. by apply He.
Qed.
End Manager.

(** A start that fails after the configuration was written leaves it, private keys and all: Connect forgets the
    tunnel without the removal that ends one. *)
Example failed_start_leaves_config :
  snd (start "/r" (fun s => bool_decide (s = StProcess)) None 0 "work" zero_profile "client" ∅)
    !! "work.ovpn" = Some (runtimeConfig zero_profile "client").
Proof. vm_compute. reflexivity. Qed.

(** The socket's path must fit in sun_path, 104 bytes with the final NUL on macOS; from 47 characters on, a name the
    helper accepts makes it too long, and openvpn cannot be attached to. *)
Definition helper_runtime : string := "/Library/Application Support/lockplus/ovpn-run".
Definition long_name : string := "Company VPN Frankfurt Primary Gateway East Wing".

Example long_name_unusable :
  ValidateTunnelName long_name = None /\ String.length long_name = 47%nat /\ String.length (sockPath helper_runtime long_name) = 104%nat.
Proof. vm_compute. done. Qed.
